(* ===== verification/_CoqProject ===== *)
-Q . S2P
Prelude.v
Base64.v
Heap.v
Containers.v
HMath.v
Hash.v
Md5.v
Sha1.v
WebSocket.v
WebSocketThm.v
ReadBuf.v
ReadBufThm.v
WritePath.v
WritePathThm.v
TopicTree.v
TopicTreeThm.v
MqttProtocol.v
MqttClient.v
MqttServer.v
MqttThm.v
MqttConnThm.v
Dns.v
DnsThm.v
Rbtree.v
RbtreeThm.v
Rudp.v
RudpThm.v
HBase.v
HBaseThm.v
HTime.v
HTimeThm.v
Loop.v
LoopInv.v
LoopIter.v
LoopThm.v
LoopExamples.v
Watcher.v
Poll.v
Select.v
MultiPart.v
MultiPartThm.v
HttpParser.v
HttpStep.v
HttpSane.v
HttpBytes.v
HttpChunk.v
