(* ===== verification/Prelude.v ===== *)
(** * Verification of libhv

    libhv is an event-driven network library in C with C++ layers above it. This
    library models the parts that carry its logic and proves what they promise.
    Definitions keep the names of the functions they translate; source paths are
    relative to the repository.

    ** Parts, files and sources

    - Prelude: machine integers ([u8] .. [i64] wrap as the C types do), byte buffers
      with checked access ([zget], [zset], [zcopy], [zslice] are [None] outside the
      buffer), record update, counted loops, tactics and shared lemmas.
    - Heap: the pointer heap of timers, base/heap.h, as a store of nodes.
    - Containers: base/queue.h and base/array.h, growing arrays with their memory.
    - HMath: powers of two, varints and ASN.1 lengths of base/hmath.h.
    - Base64, Hash, Md5, Sha1: util/base64.c, util/md5.c, util/sha1.c; Hash is the
      buffering the two digests share.
    - WebSocket, WebSocketThm: framing of http/websocket_parser.c, http/wsdef.c and
      the message assembly of http/WebSocketParser.cpp.
    - ReadBuf, ReadBufThm: the read path of event/hevent.c and event/nio.c and the
      unpackers of event/unpack.c, with the memory of the read buffer.
    - WritePath, WritePathThm: the write queue, the flush and the deferred close of
      event/nio.c.
    - TopicTree, TopicTreeThm: the broker's subscriptions, mqtt/topic_tree.cpp.
    - MqttProtocol, MqttClient, MqttServer, MqttThm, MqttConnThm: packets, client and
      broker of mqtt/.
    - Dns, DnsThm: names, records, messages and lookups of protocol/dns.c.
    - Rbtree, RbtreeThm: the pointer red-black tree of base/rbtree.c.
    - Rudp, RudpThm: the table of UDP peers of event/rudp.c, in that tree, ordered by
      sockaddr_compare of base/hsocket.c.
    - HBase, HBaseThm: strings, sizes, times and URLs of base/hbase.c.
    - HTime, HTimeThm: the calendar and the cron patterns of base/htime.c, over a model
      of localtime and mktime for a zone with summer time.
    - MultiPart, MultiPartThm: the parser of form data, http/multipart_parser.c.
    - HttpParser, HttpStep, HttpSane, HttpBytes, HttpChunk: the HTTP/1 parser of
      http/http_parser.c in strict mode. HttpParser is the code; HttpStep and HttpSane
      say what its states do with marks and what holds in them; HttpBytes is the parser
      as a machine on bytes, HttpChunk the loop measured against it.
    - Watcher: what an io watcher promises the loop, as a class; Poll and Select are
      event/poll.c and event/select.c with their instances.
    - Loop, LoopInv, LoopIter, LoopThm, LoopExamples: the event loop of event/hloop.c
      and event/hevent.h over event/epoll.c: timers in two heaps, idles, ios, pending
      lists by priority, posted events, and one iteration of it all.

    ** How they interact

    The loop keeps its timers in heaps (Heap) and its events in lists; an iteration
    waits no longer than the next deadline, then marks timers, idles and ready ios
    pending and runs their callbacks by priority; a periodic timer is due at the next
    time of its cron pattern (HTime). A ready io reads into its buffer
    and cuts packages out of it (ReadBuf), or flushes its write queue (WritePath).
    Above them the WebSocket and MQTT layers build and parse packets; the broker
    distributes messages through the topic tree and answers through sessions. Base64
    and SHA-1 serve the WebSocket handshake, varints the MQTT header and the unpacker.

    ** State and effects

    Each component's state is a record (or the memory it owns), operations take and
    return it. C memory errors are [None]: access outside a buffer, use of freed
    memory, a null pointer. Error returns are values. Callbacks are arguments, with
    the state they keep; the kernel's answers ([send], [recv], [epoll_wait]) are
    inputs that every theorem quantifies over. Threads are not modelled: operations
    run one after another on the loop's thread, posted events excepted, which the
    loop takes from a queue.

    ** What is proved

    - Heap: insertion and removal keep a complete, ordered, well-linked heap with the
      expected members. Containers: runs of operations refine lists.
    - Digests: MD5 and SHA-1 compute RFC 1321 and FIPS 180-4, fed in any pieces.
      Base64, varints, ASN.1 lengths: round trips and the exact text.
    - WebSocket: built frames have the RFC 6455 layout, and messages, in fragments or
      whole, are delivered as sent, however the bytes are cut, as long as no control
      frame comes inside a message, which the assembly would mix into it.
    - Unpacking: however a stream is received, the packages delivered are those of a
      specification on the whole stream ([Splitter], with an [Implements] instance
      for each mode).
    - Write path: while nothing fails and the write callback does not close, the wire
      and the queue hold the accepted data in order over any run; the queue drains
      while the socket takes bytes, and a close waits for it.
    - Topic tree: it is a store indexed by filters, and its queries select by
      [is_wildcard_match], once per session or topic. MQTT: the handshake and the
      publication of a message from client through broker to client.
    - DNS: a message packed is unpacked as it was; long names overrun buffers, and a
      lookup reads a buffer that is gone.
    - Red-black tree: insertion and removal keep colours, order and links, at
      logarithmic height, and write nothing else; traversals give the order. The peer
      table refines a map, as far as addresses are compared.
    - Strings and URLs: copies stay within the size given and end in a terminator,
      patterns match what their text says, and a URL written from parts is parsed into
      exactly those parts, as long as a query follows a path and a fragment a query.
    - Calendar: dates so many days away are those of the Gregorian calendar, and a cron
      pattern's next time is the first one that shows it, in a zone without summer time
      and when the month tried has the day. Multipart: a body cut in any
      pieces is delivered part by part.
    - HTTP: the parser fails no assertion and reads nothing outside its data; how the
      data is cut changes neither the error nor, without one, the parser and the events.
    - Watchers: poll is asked for what is wanted and its answers are reported; select
      keeps the right sets, but can miss fds.
    - Loop: the invariant of heaps, lists, tables and counters over any operations;
      an iteration touches no freed event, fires exactly the due timers, runs
      callbacks by priority, leaving out none, waits within bounds, and epoll mirrors the
      ios. Callbacks are any sequences of operations on live events, except that a
      pending timer is not reset ([LoopInv.valid]): reset and then deleted it is freed
      while it is linked. A timer that resets itself in its own callback, as those of
      hevent.c do, is treated on its own ([LoopThm.reset_in_own_callback]).
    - Where the code fails at what it means to do, a theorem exhibits it: freed
      memory read or freed twice, wrapped lengths, lost slashes, misread packets.

    ** Bounds and fuel

    Loops that are not structural take fuel: the varint loops 10 (the code's own
    bound), heap walks the depth of a 32-bit index, the unpackers one more than the
    bytes held, [nio_write] one more than the answers of the kernel, the walk for the
    multi-level wildcard the number of nodes, the walks of the red-black tree the size of
    the memory, which no path exceeds, the loops over days one more than the days, the
    multipart parser two rounds a byte, the HTTP parser five. Theorems about results show
    that this fuel suffices; those about endless loops hold for every fuel. Lengths are
    assumed below the widths the code stores them in, each theorem naming its own.

    ** Not modelled

    TLS and KCP, the pollers of other systems (kqueue, evport, iocp, io_uring,
    wepoll), sockets and name resolution by the system, logging, processes,
    threads and time formatting are calls into the system. The URL functions of
    http/http_parser.c are compiled out. The JSON, XML and audio code of cpputil and
    examples is third-party. The C++ HTTP server and client, evpp and cpputil wrap what is modelled here; ftp, smtp and
    icmp are scripts over blocking sockets. *)
From stdpp Require Export base numbers list gmap strings.
From Stdlib Require Export ZArith Lia.

Declare Scope hv_scope.
Delimit Scope hv_scope with hv.
Global Open Scope Z_scope.

(** * Machine integers *)

(** Unsigned wrap-around at a given width, and the widths the code uses. *)
Definition uwrap (w z : Z) : Z := z mod 2 ^ w.
Definition u8 (z : Z) : Z := z mod 256.
Definition u16 (z : Z) : Z := z mod 65536.
Definition u32 (z : Z) : Z := z mod 4294967296.
Definition u64 (z : Z) : Z := z mod 18446744073709551616.

(** Two's complement reinterpretation of an unsigned value. *)
Definition i8 (z : Z) : Z := let m := u8 z in if m <? 128 then m else m - 256.
Definition i32 (z : Z) : Z :=
  let m := u32 z in if m <? 2147483648 then m else m - 4294967296.
Definition i64 (z : Z) : Z :=
  let m := u64 z in
  if m <? 9223372036854775808 then m else m - 18446744073709551616.

Definition INFINITE : Z := 4294967295.

(** Booleans as C ints, and a C condition [x & m]. *)
Definition b2z (b : bool) : Z := if b then 1 else 0.
Definition has_flag (x m : Z) : bool := negb (Z.land x m =? 0).

(** * Byte buffers *)

Definition is_byte (b : Z) : Prop := 0 <= b < 256.
Definition Bytes (l : list Z) : Prop := Forall is_byte l.
Definition is_byteb (b : Z) : bool := (0 <=? b) && (b <? 256).

(** The bytes of a string literal. *)
Definition bytes_of_string (s : string) : list Z :=
  map (fun c => Z.of_N (Ascii.N_of_ascii c)) (String.list_ascii_of_string s).

Definition zlen {A} (l : list A) : Z := Z.of_nat (length l).

(** [a[i]] and [a[i] = v] of a C array: [None] when the index is outside. *)
Definition zget {A} (l : list A) (i : Z) : option A :=
  if (0 <=? i) && (i <? zlen l) then l !! Z.to_nat i else None.
Definition zset {A} (l : list A) (i : Z) (v : A) : option (list A) :=
  if (0 <=? i) && (i <? zlen l) then Some (<[Z.to_nat i := v]> l) else None.

(** [memcpy(dst + d, src, |src|)]: [None] when it runs outside [dst]. *)
Definition zcopy {A} (dst : list A) (d : Z) (src : list A) : option (list A) :=
  if (0 <=? d) && (d + zlen src <=? zlen dst)
  then Some (take (Z.to_nat d) dst ++ src ++ drop (Z.to_nat d + length src) dst)
  else None.

(** The bytes [src[off .. off+n)]: [None] when they are not all in [src]. *)
Definition zslice {A} (src : list A) (off n : Z) : option (list A) :=
  if (0 <=? off) && (0 <=? n) && (off + n <=? zlen src)
  then Some (take (Z.to_nat n) (drop (Z.to_nat off) src)) else None.

(** * Loops *)

(** [for (; n iterations; ++i) s = body(i, s)] with a body that may fail. *)
Fixpoint for_loop {S : Type} (n : nat) (i : Z) (body : Z -> S -> option S) (s : S)
  : option S :=
  match n with
  | O => Some s
  | S n' => s' ← body i s; for_loop n' (i + 1) body s'
  end.

(** * Record update *)

(** A record type with its rebuilding [fun r => mk (f1 r) (f2 r) ...]; the
    update of one field replaces that projection. *)
Class Rebuild (R : Type) := rebuild : R -> R.
Class Field {R T : Type} (p : R -> T) := over : (T -> T) -> R -> R.

Ltac solve_field :=
  lazymatch goal with
  | |- @Field ?R ?T ?p =>
      let i := constr:(_ : Rebuild R) in
      let b := eval hnf in i in
      let b := eval cbv beta in b in
      lazymatch (eval pattern p in b) with
      | ?g _ => let s := eval cbv beta in (fun (f : T -> T) => g (fun r => f (p r))) in exact s
      end
  end.
#[export] Hint Extern 1 (Field _) => solve_field : typeclass_instances.

Notation "r '.[' p := v ]" := (over (p := p) (fun _ => v) r)
  (at level 2, p constr at level 50, v at level 200, left associativity, format "r .[ p  :=  v ]").

(** * Tactics *)

(** Case analysis on the boolean comparisons of a goal. *)
Ltac zcase :=
  match goal with
  | |- context [?a <? ?b] => destruct (Z.ltb_spec a b)
  | |- context [?a <=? ?b] => destruct (Z.leb_spec a b)
  | |- context [?a =? ?b] => destruct (Z.eqb_spec a b)
  end; simpl; rewrite ?andb_false_r, ?andb_true_r, ?orb_false_r, ?orb_true_r; try lia.
Ltac zcases := repeat zcase.

Ltac zcase_in H :=
  match type of H with
  | context [?a <? ?b] => destruct (Z.ltb_spec a b)
  | context [?a <=? ?b] => destruct (Z.leb_spec a b)
  | context [?a =? ?b] => destruct (Z.eqb_spec a b)
  end; simpl in H; try lia.

(** Arithmetic with division and remainder by constants. *)
Ltac zdm := Z.div_mod_to_equations; lia.

Create HintDb hv discriminated.

(** * Shared lemmas *)

Lemma zlen_nonneg {A} (l : list A) : 0 <= zlen l.
Proof. unfold zlen. lia. Qed.

Lemma zlen_app {A} (l k : list A) : zlen (l ++ k) = zlen l + zlen k.
Proof. unfold zlen. rewrite length_app. lia. Qed.

Lemma zlen_cons {A} (x : A) l : zlen (x :: l) = 1 + zlen l.
Proof. unfold zlen. simpl length. lia. Qed.

Lemma zlen_nil {A} : zlen (@nil A) = 0.
Proof. reflexivity. Qed.

Lemma zget_Some {A} (l : list A) i :
  0 <= i < zlen l -> zget l i = l !! Z.to_nat i.
Proof. unfold zget. intros. zcases. done. Qed.

Lemma zget_None {A} (l : list A) i : ~ (0 <= i < zlen l) -> zget l i = None.
Proof. unfold zget. intros. zcases; done. Qed.

Lemma zget_is_Some {A} (l : list A) i : 0 <= i < zlen l -> is_Some (zget l i).
Proof.
  intros. rewrite zget_Some by done. apply lookup_lt_is_Some_2.
  unfold zlen in *. lia.
Qed.

(** The element just after a prefix. *)
Lemma zget_middle {A} (pre : list A) x post i :
  i = zlen pre -> zget (pre ++ x :: post) i = Some x.
Proof.
  intros ->. rewrite zget_Some.
  - unfold zlen. rewrite Nat2Z.id. by rewrite list_lookup_middle.
  - rewrite zlen_app, zlen_cons. pose proof (zlen_nonneg pre).
    pose proof (zlen_nonneg post). lia.
Qed.

Lemma zget_0 {A} (x : A) l : zget (x :: l) 0 = Some x.
Proof. reflexivity. Qed.

Lemma zset_middle {A} (pre : list A) x post i v :
  i = zlen pre -> zset (pre ++ x :: post) i v = Some (pre ++ v :: post).
Proof.
  intros ->. unfold zset. rewrite zlen_app, zlen_cons.
  pose proof (zlen_nonneg pre). pose proof (zlen_nonneg post). zcases.
  unfold zlen. rewrite Nat2Z.id. f_equal.
  rewrite insert_app_r_alt by lia. by rewrite Nat.sub_diag.
Qed.

Lemma zset_length {A} (l l' : list A) i v : zset l i v = Some l' -> zlen l' = zlen l.
Proof.
  unfold zset. case_match; intros; simplify_eq. unfold zlen.
  by rewrite length_insert.
Qed.

Lemma zcopy_at {A} (pre mid post src : list A) d :
  d = zlen pre -> zlen mid = zlen src ->
  zcopy (pre ++ mid ++ post) d src = Some (pre ++ src ++ post).
Proof.
  intros -> Hm. unfold zcopy. rewrite !zlen_app.
  pose proof (zlen_nonneg pre). pose proof (zlen_nonneg post).
  pose proof (zlen_nonneg mid). zcases.
  unfold zlen in *. rewrite Nat2Z.id. rewrite take_app_length.
  rewrite drop_app_ge by lia. rewrite drop_app_ge by lia.
  by replace (_ - _ - _)%nat with 0%nat by lia.
Qed.

Lemma zslice_app {A} (pre mid post : list A) off n :
  off = zlen pre -> n = zlen mid -> zslice (pre ++ mid ++ post) off n = Some mid.
Proof.
  intros -> ->. unfold zslice. rewrite !zlen_app.
  pose proof (zlen_nonneg pre). pose proof (zlen_nonneg post).
  pose proof (zlen_nonneg mid). zcases.
  unfold zlen. rewrite !Nat2Z.id. rewrite drop_app_length.
  by rewrite take_app_length.
Qed.

Lemma u8_range z : 0 <= u8 z < 256.
Proof. by apply Z.mod_pos_bound. Qed.
Lemma u16_range z : 0 <= u16 z < 65536.
Proof. by apply Z.mod_pos_bound. Qed.
Lemma u32_range z : 0 <= u32 z < 4294967296.
Proof. by apply Z.mod_pos_bound. Qed.
Lemma u64_range z : 0 <= u64 z < 18446744073709551616.
Proof. by apply Z.mod_pos_bound. Qed.

Lemma u8_small z : 0 <= z < 256 -> u8 z = z.
Proof. intros. unfold u8. by rewrite Z.mod_small. Qed.
Lemma u16_small z : 0 <= z < 65536 -> u16 z = z.
Proof. intros. unfold u16. by rewrite Z.mod_small. Qed.
Lemma u32_small z : 0 <= z < 4294967296 -> u32 z = z.
Proof. intros. unfold u32. by rewrite Z.mod_small. Qed.
Lemma u64_small z : 0 <= z < 18446744073709551616 -> u64 z = z.
Proof. intros. unfold u64. by rewrite Z.mod_small. Qed.

Lemma i32_small z : -2147483648 <= z < 2147483648 -> i32 z = z.
Proof.
  intros. unfold i32, u32. cbv zeta. destruct (decide (0 <= z)).
  - rewrite Z.mod_small by lia. zcases.
  - rewrite <- (Z.mod_add z 1) by lia. rewrite Z.mod_small by lia. zcases.
Qed.

Lemma i64_small z :
  -9223372036854775808 <= z < 9223372036854775808 -> i64 z = z.
Proof.
  intros. unfold i64, u64. cbv zeta. destruct (decide (0 <= z)).
  - rewrite Z.mod_small by lia. zcases.
  - rewrite <- (Z.mod_add z 1) by lia. rewrite Z.mod_small by lia. zcases.
Qed.

#[export] Hint Resolve zlen_nonneg u8_range u16_range u32_range u64_range : hv.
Create Rewrite HintDb zlen.
#[export] Hint Rewrite @zlen_app @zlen_cons @zlen_nil : zlen.
Ltac zlen_simpl := autorewrite with zlen in *.

Lemma zget_app_r {A} (pre l : list A) j :
  0 <= j -> zget (pre ++ l) (zlen pre + j) = zget l j.
Proof.
  intros Hj. unfold zget. zlen_simpl. pose proof (zlen_nonneg pre). zcases; try done.
  rewrite Z2Nat.inj_add by lia. unfold zlen. rewrite Nat2Z.id.
  rewrite lookup_app_r by lia. f_equal. lia.
Qed.

Ltac zget_group :=
  rewrite zget_app_r by lia; rewrite zget_Some; [reflexivity|];
  zlen_simpl; repeat match goal with |- context [zlen ?r] => 
     lazymatch goal with H : 0 <= zlen r |- _ => fail | _ => pose proof (zlen_nonneg r) end end; lia.

Lemma ltb_false a b : b <= a -> (a <? b) = false.
Proof. by apply Z.ltb_ge. Qed.

Lemma Bytes_app l k : Bytes (l ++ k) <-> Bytes l /\ Bytes k.
Proof. apply Forall_app. Qed.

(** Iterating [n + m] times is iterating [n] times and then [m] times. *)
Lemma for_loop_app {S} n m i (body : Z -> S -> option S) s :
  for_loop (n + m) i body s
  = s' ← for_loop n i body s; for_loop m (i + Z.of_nat n) body s'.
Proof.
  revert i s. induction n as [|n IH]; intros i s; simpl.
  - f_equal. lia.
  - destruct (body i s) as [s'|]; simpl; [|done]. rewrite IH.
    by replace (i + 1 + Z.of_nat n) with (i + Z.of_nat (Datatypes.S n)) by lia.
Qed.

(** Induction by groups of three. *)
Lemma list_ind3 {A} (P : list A -> Prop) :
  P [] -> (forall a, P [a]) -> (forall a b, P [a; b]) ->
  (forall a b c l, P l -> P (a :: b :: c :: l)) -> forall l, P l.
Proof.
  intros H0 H1 H2 H3. refine (fix F l := _).
  destruct l as [|a [|b [|c l]]]; [exact H0|exact (H1 a)|exact (H2 a b)|].
  apply H3, F.
Qed.

(** Bit operations by constants as arithmetic. *)
Lemma land_mask z m k : 0 <= k -> m = Z.ones k -> Z.land z m = z mod 2 ^ k.
Proof. intros Hk ->. by apply Z.land_ones. Qed.

Ltac bits_to_arith :=
  repeat match goal with
  | |- context [Z.shiftr ?a ?b] => rewrite (Z.shiftr_div_pow2 a b) by lia
  | |- context [Z.shiftl ?a ?b] => rewrite (Z.shiftl_mul_pow2 a b) by lia
  | |- context [Z.land ?a 255] => rewrite (land_mask a 255 8) by (lia || reflexivity)
  | |- context [Z.land ?a 127] => rewrite (land_mask a 127 7) by (lia || reflexivity)
  | |- context [Z.land ?a 63] => rewrite (land_mask a 63 6) by (lia || reflexivity)
  | |- context [Z.land ?a 15] => rewrite (land_mask a 15 4) by (lia || reflexivity)
  | |- context [Z.land ?a 3] => rewrite (land_mask a 3 2) by (lia || reflexivity)
  end;
  repeat match goal with
  | |- context [2 ^ ?k] => let v := eval vm_compute in (2 ^ k) in
                           change (2 ^ k) with v
  end.

(** A property of the integers [0 .. n) that a boolean check decides. *)
Lemma seqZ_check (P : Z -> bool) n :
  forallb P (seqZ 0 n) = true -> forall k, 0 <= k < n -> P k = true.
Proof.
  rewrite forallb_forall. intros H k Hk. apply H.
  apply list_elem_of_In, elem_of_seqZ. lia.
Qed.

(** Removing the one occurrence of an element. *)
Lemma filter_ne_id (x : Z) (l : list Z) : x ∉ l -> filter (fun y => y <> x) l = l.
Proof.
  induction l as [|y l IH]; [done|]. rewrite not_elem_of_cons. intros [Hy Hl].
  rewrite filter_cons, decide_True by congruence. by rewrite IH.
Qed.

Lemma length_filter_ne (x : Z) (l : list Z) : NoDup l -> x ∈ l ->
  zlen (filter (fun y => y <> x) l) = zlen l - 1.
Proof.
  intros Hnd Hx. apply list_elem_of_split in Hx as (l1 & l2 & ->).
  apply NoDup_app in Hnd as (_ & Hd & Hnd). apply NoDup_cons in Hnd as [Hx2 _].
  rewrite filter_app, filter_cons, decide_False by (intros E; by apply E).
  rewrite !filter_ne_id; [zlen_simpl; lia|done|].
  intros Hin. apply (Hd x Hin). by left.
Qed.

(** The lists of a list of lists. *)
Lemma elem_of_concat {A} (x : A) ls : x ∈ concat ls <-> exists i l, ls !! i = Some l /\ x ∈ l.
Proof.
  rewrite list_elem_of_In, in_concat. setoid_rewrite <- list_elem_of_In.
  setoid_rewrite (list_elem_of_lookup ls). naive_solver.
Qed.

Lemma concat_alter_cons {A} (x : A) i ls : (i < length ls)%nat ->
  Permutation (concat (alter (cons x) i ls)) (x :: concat ls).
Proof.
  revert i. induction ls as [|l ls IH]; intros i Hi; simpl in *; [lia|]. destruct i as [|i]; simpl; [done|].
  etransitivity; [apply Permutation_app_head, (IH i); lia|]. by rewrite Permutation_middle.
Qed.

Lemma concat_reverse_perm {A} (ls : list (list A)) : Permutation (concat (reverse ls)) (concat ls).
Proof.
  induction ls as [|l ls IH]; [done|]. rewrite reverse_cons, concat_app, IH. simpl.
  rewrite app_nil_r. by rewrite Permutation_app_comm.
Qed.

Lemma fold_left_cons {A B} (f : A -> B -> A) x l a : fold_left f (x :: l) a = fold_left f l (f a x).
Proof. reflexivity. Qed.

(** Bits that do not overlap add up. *)
Lemma lor_disjoint r x k : 0 <= k -> 0 <= r < 2 ^ k -> 0 <= x ->
  Z.lor r (Z.shiftl x k) = r + x * 2 ^ k.
Proof.
  intros Hk Hr Hx. rewrite Z.shiftl_mul_pow2 by done.
  rewrite <- Z.add_lor_land. replace (Z.land r (x * 2 ^ k)) with 0; [lia|].
  symmetry. apply Z.bits_inj'. intros i Hi. rewrite Z.land_spec, Z.bits_0.
  rewrite <- Z.shiftl_mul_pow2, Z.shiftl_spec by done.
  destruct (decide (i < k)) as [Hik|Hik].
  - rewrite (Z.testbit_neg_r x) by lia. apply andb_false_r.
  - replace (Z.testbit r i) with false; [done|]. symmetry.
    destruct (decide (r = 0)) as [->|]; [apply Z.bits_0|].
    apply Z.bits_above_log2; [lia|]. apply Z.log2_lt_pow2; [lia|].
    apply Z.lt_le_trans with (2 ^ k); [lia|]. apply Z.pow_le_mono_r; lia.
Qed.

Lemma lor_byte r b : 0 <= r -> is_byte b -> Z.lor (Z.shiftl r 8) b = r * 256 + b.
Proof.
  unfold is_byte. intros Hr Hb. rewrite Z.lor_comm. rewrite lor_disjoint by (cbn; lia). cbn. lia.
Qed.

(** Writing at a literal index of a list with a literal prefix. *)
Fixpoint upd {A} (l : list A) (k : nat) (v : A) : option (list A) :=
  match l, k with
  | [], _ => None
  | _ :: l, O => Some (v :: l)
  | x :: l, S k => l ← upd l k v; Some (x :: l)
  end.
Lemma zset_upd {A} (l : list A) i k v : i = Z.of_nat k -> zset l i v = upd l k v.
Proof.
  intros ->. revert k. induction l as [|x l IH]; intros k; unfold zset in *.
  - change (zlen []) with 0. destruct (Z.ltb_spec (Z.of_nat k) 0); [lia|]. by rewrite andb_false_r.
  - rewrite zlen_cons. destruct k as [|k]; cbn [upd].
    + pose proof (zlen_nonneg l). zcases. done.
    + rewrite <- IH. rewrite !Nat2Z.id. pose proof (zlen_nonneg l). zcases; done.
Qed.
Ltac zset_lit :=
  match goal with |- context [zset ?l ?i ?v] =>
    let k := eval vm_compute in (Z.to_nat i) in rewrite (zset_upd l i k v) by reflexivity; cbn [upd mbind option_bind]
  end.

Lemma zget_nat {A} (l : list A) i k : i = Z.of_nat k -> zget l i = l !! k.
Proof.
  intros ->. unfold zget. rewrite Nat2Z.id. destruct (decide (k < length l)%nat).
  - unfold zlen. zcases. done.
  - rewrite lookup_ge_None_2 by lia. unfold zlen. zcases; done.
Qed.
Ltac zget_lit :=
  match goal with |- context [zget ?l ?i] =>
    let k := eval vm_compute in (Z.to_nat i) in rewrite (zget_nat l i k) by reflexivity; cbn [lookup list_lookup mbind option_bind]
  end.
