(* ===== verification/Base64.v ===== *)
(** Base64 (util/base64.c): the encoder and the decoder over caller-supplied
    buffers, the buffer sizes the header promises, and their round trip. *)
From S2P Require Import Prelude.

Module Base64.

(** * Data *)

Definition base64en : list Z :=
  bytes_of_string
    "ABCDEFGHIJKLMNOPQRSTUVWXYZabcdefghijklmnopqrstuvwxyz0123456789+/".

Definition BASE64_PAD : Z := 61.
Definition BASE64DE_FIRST : Z := 43.
Definition BASE64DE_LAST : Z := 122.

Definition base64de : list Z :=
  [62; -1; -1; -1; 63; 52; 53; 54;
   55; 56; 57; 58; 59; 60; 61; -1;
   -1; -1; -1; -1; -1; -1; 0; 1;
   2; 3; 4; 5; 6; 7; 8; 9;
   10; 11; 12; 13; 14; 15; 16; 17;
   18; 19; 20; 21; 22; 23; 24; 25;
   -1; -1; -1; -1; -1; -1; 26; 27;
   28; 29; 30; 31; 32; 33; 34; 35;
   36; 37; 38; 39; 40; 41; 42; 43;
   44; 45; 46; 47; 48; 49; 50; 51].

Definition BASE64_ENCODE_OUT_SIZE (s : Z) : Z := (s + 2) / 3 * 4.
Definition BASE64_DECODE_OUT_SIZE (s : Z) : Z := (s + 3) / 4 * 3.

(** * Operations *)

(** [out[j++] = v], with [j] an [unsigned int]. *)
Definition put (st : list Z * Z) (v : Z) : option (list Z * Z) :=
  let '(out, j) := st in
  out' ← zset out j v; Some (out', u32 (j + 1)).

(** [out[j++] = base64en[k]]. *)
Definition put_en (st : list Z * Z) (k : Z) : option (list Z * Z) :=
  c ← zget base64en k; put st c.

(** One iteration of the encoder's loop. *)
Definition encode_step (inp : list Z) (i : Z) (st : list Z * Z)
  : option (list Z * Z) :=
  let s := i mod 3 in
  if s =? 0 then
    x ← zget inp i; put_en st (Z.land (Z.shiftr x 2) 63)
  else if s =? 1 then
    y ← zget inp (i - 1); x ← zget inp i;
    put_en st (Z.shiftl (Z.land y 3) 4 + Z.land (Z.shiftr x 4) 15)
  else
    y ← zget inp (i - 1); x ← zget inp i;
    st ← put_en st (Z.shiftl (Z.land y 15) 2 + Z.land (Z.shiftr x 6) 3);
    put_en st (Z.land x 63).

(** Padding after the loop, from the index moved back by one. *)
Definition encode_pad (inp : list Z) (st : list Z * Z) : option (list Z * Z) :=
  let i := u32 (u32 (zlen inp) - 1) in
  if i mod 3 =? 0 then
    x ← zget inp i; st ← put_en st (Z.shiftl (Z.land x 3) 4);
    st ← put st BASE64_PAD; put st BASE64_PAD
  else if i mod 3 =? 1 then
    x ← zget inp i; st ← put_en st (Z.shiftl (Z.land x 15) 2);
    put st BASE64_PAD
  else Some st.

(** [inp] is [in[0..inlen)]; [out] is the caller's buffer. The result is the
    buffer after the call and the returned count, [None] when the code reads
    or writes outside one of them. *)
Definition hv_base64_encode (inp out : list Z) : option (list Z * Z) :=
  st ← for_loop (length inp) 0 (encode_step inp) (out, 0);
  '(out', j) ← encode_pad inp st; Some (out', i32 j).

Fixpoint decode_loop (n : nat) (inp : list Z) (i : Z) (out : list Z) (j : Z)
  : option (list Z * Z) :=
  match n with
  | O => Some (out, i32 j)
  | S n' =>
      let inlen := u32 (zlen inp) in
      ch ← zget inp i;
      if ch =? BASE64_PAD then Some (out, i32 j)
      else if (i8 ch <? BASE64DE_FIRST) || (BASE64DE_LAST <? i8 ch)
      then Some (out, -1)
      else
        c ← zget base64de (i8 ch - BASE64DE_FIRST);
        if c =? -1 then Some (out, -1)
        else
          let s := i mod 4 in
          if s =? 0 then
            out ← zset out j (Z.land (Z.shiftl c 2) 255);
            decode_loop n' inp (i + 1) out j
          else if s =? 1 then
            x ← zget out j;
            out ← zset out j (u8 (x + Z.land (Z.shiftr c 4) 3));
            let j := u32 (j + 1) in
            more ← (if i <? u32 (inlen - 3) then Some true
                    else y ← zget inp (u32 (inlen - 2)); Some (negb (y =? BASE64_PAD)));
            out ← (if (more : bool) then zset out j (Z.shiftl (Z.land c 15) 4) else Some out);
            decode_loop n' inp (i + 1) out j
          else if s =? 2 then
            x ← zget out j;
            out ← zset out j (u8 (x + Z.land (Z.shiftr c 2) 15));
            let j := u32 (j + 1) in
            more ← (if i <? u32 (inlen - 2) then Some true
                    else y ← zget inp (u32 (inlen - 1)); Some (negb (y =? BASE64_PAD)));
            out ← (if (more : bool) then zset out j (Z.shiftl (Z.land c 3) 6) else Some out);
            decode_loop n' inp (i + 1) out j
          else
            x ← zget out j;
            out ← zset out j (u8 (x + c));
            decode_loop n' inp (i + 1) out (u32 (j + 1))
  end.

Definition hv_base64_decode (inp out : list Z) : option (list Z * Z) :=
  decode_loop (length inp) inp 0 out 0.

(** * Reference encoding *)

Definition en (k : Z) : Z := default 0 (zget base64en k).

(** The characters the loop writes for a group, without the padding step. *)
Fixpoint body (l : list Z) : list Z :=
  match l with
  | a :: b :: c :: r =>
      [en (Z.land (Z.shiftr a 2) 63);
       en (Z.shiftl (Z.land a 3) 4 + Z.land (Z.shiftr b 4) 15);
       en (Z.shiftl (Z.land b 15) 2 + Z.land (Z.shiftr c 6) 3);
       en (Z.land c 63)] ++ body r
  | [a; b] =>
      [en (Z.land (Z.shiftr a 2) 63);
       en (Z.shiftl (Z.land a 3) 4 + Z.land (Z.shiftr b 4) 15)]
  | [a] => [en (Z.land (Z.shiftr a 2) 63)]
  | [] => []
  end.

Fixpoint tail (l : list Z) : list Z :=
  match l with
  | a :: b :: c :: r => tail r
  | [a; b] => [en (Z.shiftl (Z.land b 15) 2); BASE64_PAD]
  | [a] => [en (Z.shiftl (Z.land a 3) 4); BASE64_PAD; BASE64_PAD]
  | [] => []
  end.

(** RFC 4648 encoding, group by group. *)
Definition rfc4648 (l : list Z) : list Z := body l ++ tail l.

(** * Lemmas *)

Lemma en_get k : 0 <= k < 64 -> zget base64en k = Some (en k).
Proof.
  intros Hk. unfold en. destruct (zget_is_Some base64en k) as [x Hx]; [done|].
  by rewrite Hx.
Qed.

Lemma en_decode k : 0 <= k < 64 ->
  (en k =? BASE64_PAD) = false /\
  (i8 (en k) <? BASE64DE_FIRST) = false /\ (BASE64DE_LAST <? i8 (en k)) = false /\
  zget base64de (i8 (en k) - BASE64DE_FIRST) = Some k.
Proof.
  intros Hk.
  pose (P := fun k => negb (en k =? BASE64_PAD)
    && negb (i8 (en k) <? BASE64DE_FIRST) && negb (BASE64DE_LAST <? i8 (en k))
    && bool_decide (zget base64de (i8 (en k) - BASE64DE_FIRST) = Some k)).
  assert (P k = true) as HP.
  { apply (seqZ_check P 64); [|done]. by vm_compute. }
  unfold P in HP. rewrite !andb_true_iff, !negb_true_iff in HP.
  rewrite bool_decide_eq_true in HP. tauto.
Qed.

(** A buffer whose next free slot is [x]. *)
Lemma put_slot w x rest v : zlen w < 2 ^ 31 ->
  put (w ++ x :: rest, zlen w) v = Some ((w ++ [v]) ++ rest, zlen (w ++ [v])).
Proof.
  intros Hw. unfold put. rewrite zset_middle by done. simpl.
  rewrite <- app_assoc. zlen_simpl. rewrite u32_small by (pose proof (zlen_nonneg w); lia).
  done.
Qed.

Lemma put_en_slot w x rest k : zlen w < 2 ^ 31 -> 0 <= k < 64 ->
  put_en (w ++ x :: rest, zlen w) k
  = Some ((w ++ [en k]) ++ rest, zlen (w ++ [en k])).
Proof. intros. unfold put_en. rewrite en_get by done. simpl. by apply put_slot. Qed.

(** The 6-bit indices of a group stay inside the alphabet. *)
Lemma sextets a b c : is_byte a -> is_byte b -> is_byte c ->
  0 <= Z.land (Z.shiftr a 2) 63 < 64 /\
  0 <= Z.shiftl (Z.land a 3) 4 + Z.land (Z.shiftr b 4) 15 < 64 /\
  0 <= Z.shiftl (Z.land b 15) 2 + Z.land (Z.shiftr c 6) 3 < 64 /\
  0 <= Z.land c 63 < 64 /\
  0 <= Z.shiftl (Z.land a 3) 4 < 64 /\ 0 <= Z.shiftl (Z.land b 15) 2 < 64.
Proof. unfold is_byte. intros. bits_to_arith. zdm. Qed.

Lemma zlen_body_tail l : zlen (body l) + zlen (tail l) = BASE64_ENCODE_OUT_SIZE (zlen l).
Proof.
  unfold BASE64_ENCODE_OUT_SIZE.
  induction l as [| | |a b c l IH] using list_ind3; try (zlen_simpl; simpl; zlen_simpl; done).
  cbn [body tail]. zlen_simpl.
  replace (1 + (1 + (1 + zlen l)) + 2) with (zlen l + 2 + 1 * 3) by lia.
  rewrite Z.div_add by lia. lia.
Qed.

#[local] Arguments put : simpl never.
#[local] Arguments put_en : simpl never.

Lemma mod3_step0 i : i mod 3 = 0 -> (i + 1) mod 3 = 1 /\ (i + 2) mod 3 = 2 /\ (i + 3) mod 3 = 0.
Proof. intros. zdm. Qed.

Lemma encode_step0 pre a r w x rest :
  zlen pre mod 3 = 0 -> is_byte a -> zlen w < 2 ^ 31 ->
  encode_step (pre ++ a :: r) (zlen pre) (w ++ x :: rest, zlen w)
  = Some ((w ++ [en (Z.land (Z.shiftr a 2) 63)]) ++ rest,
          zlen (w ++ [en (Z.land (Z.shiftr a 2) 63)])).
Proof.
  intros Hm Ha Hw. unfold encode_step. rewrite Hm. simpl.
  rewrite zget_middle by done. simpl. apply put_en_slot; [done|].
  by apply (sextets a a a).
Qed.
Lemma encode_step1 pre a b r w x rest :
  zlen pre mod 3 = 0 -> is_byte a -> is_byte b -> zlen w < 2 ^ 31 ->
  encode_step (pre ++ a :: b :: r) (zlen pre + 1) (w ++ x :: rest, zlen w)
  = let k := Z.shiftl (Z.land a 3) 4 + Z.land (Z.shiftr b 4) 15 in
    Some ((w ++ [en k]) ++ rest, zlen (w ++ [en k])).
Proof.
  intros Hm Ha Hb Hw. unfold encode_step.
  destruct (mod3_step0 _ Hm) as (-> & _ & _). simpl.
  rewrite (zget_middle pre a (b :: r) (zlen pre + 1 - 1)) by lia.
  rewrite (cons_middle a), app_assoc.
  rewrite zget_middle by (zlen_simpl; lia). simpl.
  apply put_en_slot; [done|]. by apply (sextets a b b).
Qed.
Lemma encode_step2 pre a b c r w x y rest :
  zlen pre mod 3 = 0 -> is_byte b -> is_byte c -> zlen w + 1 < 2 ^ 31 ->
  encode_step (pre ++ a :: b :: c :: r) (zlen pre + 2) (w ++ x :: y :: rest, zlen w)
  = let k := Z.shiftl (Z.land b 15) 2 + Z.land (Z.shiftr c 6) 3 in
    Some ((w ++ [en k; en (Z.land c 63)]) ++ rest, zlen (w ++ [en k; en (Z.land c 63)])).
Proof.
  intros Hm Hb Hc Hw. unfold encode_step.
  destruct (mod3_step0 _ Hm) as (_ & -> & _). simpl.
  rewrite (cons_middle a), app_assoc. rewrite (zget_middle (pre ++ [a]) b (c :: r) (zlen pre + 2 - 1)) by (zlen_simpl; lia).
  rewrite (cons_middle b), app_assoc. rewrite zget_middle by (zlen_simpl; lia). simpl.
  rewrite put_en_slot by (lia || by apply (sextets b b c)). simpl.
  rewrite put_en_slot by ((zlen_simpl; lia) || by apply (sextets b b c)).
  by rewrite <- !app_assoc.
Qed.
Lemma encode_loop_body l : forall pre w mid rest,
  Bytes l -> zlen pre mod 3 = 0 -> length mid = length (body l) ->
  zlen w + zlen mid < 2 ^ 31 ->
  for_loop (length l) (zlen pre) (encode_step (pre ++ l)) (w ++ mid ++ rest, zlen w)
  = Some ((w ++ body l) ++ rest, zlen (w ++ body l)).
Proof.
  induction l as [|a|a b|a b c l IH] using list_ind3; intros pre w mid rest Hl Hm Hmid Hw;
    cbn [body] in *; unfold Bytes in Hl; rewrite ?Forall_cons in Hl; destruct_and?.
  - destruct mid; [|done]. simpl. by rewrite !app_nil_r.
  - destruct mid as [|m0 [|]]; try done. autorewrite with zlen in Hw. cbn [length for_loop app].
    rewrite encode_step0 by (done || lia). done.
  - destruct mid as [|m0 [|m1 [|]]]; try done. autorewrite with zlen in Hw. cbn [length for_loop app].
    rewrite encode_step0 by (done || lia). simpl.
    rewrite encode_step1 by (done || zlen_simpl; lia). cbn [mbind option_bind].
    by rewrite <- !app_assoc.
  - destruct mid as [|m0 [|m1 [|m2 [|m3 mid]]]]; try done.
    autorewrite with zlen in Hw. pose proof (zlen_nonneg mid). cbn [length for_loop app].
    rewrite encode_step0 by (done || lia). cbn [mbind option_bind].
    rewrite encode_step1 by (done || zlen_simpl; lia). cbn [mbind option_bind].
    replace (zlen pre + 1 + 1) with (zlen pre + 2) by lia.
    rewrite encode_step2 by (done || zlen_simpl; lia). cbn [mbind option_bind].
    replace (zlen pre + 2 + 1) with (zlen (pre ++ [a; b; c])) by (zlen_simpl; lia).
    rewrite (app_assoc pre [a; b; c] l : pre ++ a :: b :: c :: l = _).
    rewrite IH; [|done| |simpl in Hmid; lia|zlen_simpl; lia].
    + by rewrite <- !app_assoc.
    + zlen_simpl. zdm.
Qed.

Lemma pad_index n : 0 < n < 2 ^ 31 -> u32 (u32 n - 1) = n - 1.
Proof. intros. rewrite (u32_small n) by lia. apply u32_small. lia. Qed.

Lemma encode_pad_tail l : forall pre w mid rest,
  Bytes l -> zlen pre mod 3 = 0 -> pre ++ l <> [] -> zlen pre + zlen l < 2 ^ 31 ->
  length mid = length (tail l) -> zlen w + zlen mid < 2 ^ 31 ->
  encode_pad (pre ++ l) (w ++ mid ++ rest, zlen w)
  = Some ((w ++ tail l) ++ rest, zlen (w ++ tail l)).
Proof.
  induction l as [|a|a b|a b c l IH] using list_ind3; intros pre w mid rest Hl Hm Hne Hb Hmid Hw;
    cbn [tail] in *; unfold Bytes in Hl; rewrite ?Forall_cons in Hl; destruct_and?;
    pose proof (zlen_nonneg pre); autorewrite with zlen in Hb, Hw.
  - destruct mid; [|done]. rewrite !app_nil_r in *.
    assert (0 < zlen pre) by (destruct pre; [done|zlen_simpl; pose proof (zlen_nonneg pre); lia]).
    unfold encode_pad. rewrite pad_index by lia.
    replace ((zlen pre - 1) mod 3) with 2 by zdm. done.
  - destruct mid as [|m0 [|m1 [|m2 [|]]]]; try done. autorewrite with zlen in Hw.
    unfold encode_pad. rewrite pad_index by (zlen_simpl; lia). zlen_simpl.
    replace ((zlen pre + (1 + 0) - 1) mod 3) with 0 by zdm. simpl.
    rewrite zget_middle by lia. simpl.
    rewrite put_en_slot by (lia || by apply (sextets a a a)). simpl.
    rewrite put_slot by (zlen_simpl; lia). simpl. rewrite put_slot by (zlen_simpl; lia).
    rewrite <- !app_assoc. simpl. do 2 f_equal. zlen_simpl. lia.
  - destruct mid as [|m0 [|m1 [|]]]; try done. autorewrite with zlen in Hw.
    unfold encode_pad. rewrite pad_index by (zlen_simpl; lia). zlen_simpl.
    replace ((zlen pre + (1 + (1 + 0)) - 1) mod 3) with 1 by zdm. simpl.
    rewrite (cons_middle a), app_assoc. rewrite zget_middle by (zlen_simpl; lia). simpl.
    rewrite put_en_slot by (lia || by apply (sextets a b b)). simpl.
    rewrite put_slot by (zlen_simpl; lia).
    rewrite <- !app_assoc. simpl. do 2 f_equal. zlen_simpl. lia.
  - rewrite (app_assoc pre [a; b; c] l : pre ++ a :: b :: c :: l = _).
    apply IH; [done| |by destruct pre|zlen_simpl; lia|done|zlen_simpl; lia].
    zlen_simpl. zdm.
Qed.

(** One decoded character, by its position in the group of four. *)
Section Decode_char.
Context (n : nat) (inp : list Z) (i k : Z) (w rest : list Z) (x : Z).
Context (Hk : 0 <= k < 64) (Hi : zget inp i = Some (en k)) (Hw : zlen w < 2 ^ 31 - 3).

Lemma decode_char0 : i mod 4 = 0 ->
  decode_loop (S n) inp i (w ++ x :: rest) (zlen w)
  = decode_loop n inp (i + 1) (w ++ Z.land (Z.shiftl k 2) 255 :: rest) (zlen w).
Proof.
  intros Hm. cbn [decode_loop]. rewrite Hi. cbn [mbind option_bind].
  destruct (en_decode k Hk) as (-> & -> & -> & ->). cbn [orb mbind option_bind].
  destruct (Z.eqb_spec k (-1)); [lia|]. rewrite Hm. simpl.
  by rewrite zset_middle.
Qed.

Lemma decode_char1 y : i mod 4 = 1 -> is_byte x ->
  zlen inp < 2 ^ 31 -> i + 3 <= zlen inp -> zget inp (zlen inp - 2) = Some y ->
  decode_loop (S n) inp i (w ++ x :: rest) (zlen w)
  = let out := w ++ u8 (x + Z.land (Z.shiftr k 4) 3) :: rest in
    if (i <? zlen inp - 3) || negb (y =? BASE64_PAD)
    then out' ← zset out (zlen w + 1) (Z.shiftl (Z.land k 15) 4);
         decode_loop n inp (i + 1) out' (zlen w + 1)
    else decode_loop n inp (i + 1) out (zlen w + 1).
Proof.
  intros Hm Hx Hn Hi3 Hy. pose proof (zlen_nonneg inp). pose proof (zlen_nonneg w).
  cbn [decode_loop]. rewrite Hi. cbn [mbind option_bind].
  destruct (en_decode k Hk) as (-> & -> & -> & ->). cbn [orb mbind option_bind].
  destruct (Z.eqb_spec k (-1)); [lia|]. rewrite Hm. cbn [Z.eqb].
  rewrite zget_middle by done. cbn [mbind option_bind].
  rewrite zset_middle by done. cbn [mbind option_bind].
  rewrite (u32_small (zlen inp)) by lia.
  assert (0 <= i) by (destruct (decide (0 <= i)); [done|]; rewrite zget_None in Hi by lia; done).
  rewrite (u32_small (zlen inp - 3)) by lia.
  rewrite (u32_small (zlen inp - 2)) by lia.
  rewrite (u32_small (zlen w + 1)) by lia. rewrite Hy.
  destruct (i <? zlen inp - 3); cbn [mbind option_bind orb]; [done|].
  destruct (negb _); done.
Qed.

Lemma decode_char2 y : i mod 4 = 2 -> is_byte x ->
  zlen inp < 2 ^ 31 -> i + 2 <= zlen inp -> zget inp (zlen inp - 1) = Some y ->
  decode_loop (S n) inp i (w ++ x :: rest) (zlen w)
  = let out := w ++ u8 (x + Z.land (Z.shiftr k 2) 15) :: rest in
    if (i <? zlen inp - 2) || negb (y =? BASE64_PAD)
    then out' ← zset out (zlen w + 1) (Z.shiftl (Z.land k 3) 6);
         decode_loop n inp (i + 1) out' (zlen w + 1)
    else decode_loop n inp (i + 1) out (zlen w + 1).
Proof.
  intros Hm Hx Hn Hi3 Hy. pose proof (zlen_nonneg inp). pose proof (zlen_nonneg w).
  cbn [decode_loop]. rewrite Hi. cbn [mbind option_bind].
  destruct (en_decode k Hk) as (-> & -> & -> & ->). cbn [orb mbind option_bind].
  destruct (Z.eqb_spec k (-1)); [lia|]. rewrite Hm. cbn [Z.eqb Pos.eqb].
  rewrite zget_middle by done. cbn [mbind option_bind].
  rewrite zset_middle by done. cbn [mbind option_bind].
  rewrite (u32_small (zlen inp)) by lia.
  assert (0 <= i) by (destruct (decide (0 <= i)); [done|]; rewrite zget_None in Hi by lia; done).
  rewrite (u32_small (zlen inp - 2)) by lia.
  rewrite (u32_small (zlen inp - 1)) by lia.
  rewrite (u32_small (zlen w + 1)) by lia. rewrite Hy.
  destruct (i <? zlen inp - 2); cbn [mbind option_bind orb]; [done|].
  destruct (negb _); done.
Qed.

Lemma decode_char3 : i mod 4 = 3 ->
  decode_loop (S n) inp i (w ++ x :: rest) (zlen w)
  = decode_loop n inp (i + 1) (w ++ u8 (x + k) :: rest) (zlen w + 1).
Proof.
  intros Hm. pose proof (zlen_nonneg w). cbn [decode_loop]. rewrite Hi. cbn [mbind option_bind].
  destruct (en_decode k Hk) as (-> & -> & -> & ->). cbn [orb mbind option_bind].
  destruct (Z.eqb_spec k (-1)); [lia|]. rewrite Hm. cbn [Z.eqb Pos.eqb].
  rewrite zget_middle by done. cbn [mbind option_bind].
  rewrite zset_middle by done. cbn [mbind option_bind].
  by rewrite u32_small by lia.
Qed.
End Decode_char.

(** The three bytes of a group from its four sextets. *)
Lemma rejoin a b c : is_byte a -> is_byte b -> is_byte c ->
  let k0 := Z.land (Z.shiftr a 2) 63 in
  let k1 := Z.shiftl (Z.land a 3) 4 + Z.land (Z.shiftr b 4) 15 in
  let k2 := Z.shiftl (Z.land b 15) 2 + Z.land (Z.shiftr c 6) 3 in
  let k3 := Z.land c 63 in
  u8 (Z.land (Z.shiftl k0 2) 255 + Z.land (Z.shiftr k1 4) 3) = a /\
  u8 (Z.shiftl (Z.land k1 15) 4 + Z.land (Z.shiftr k2 2) 15) = b /\
  u8 (Z.shiftl (Z.land k2 3) 6 + k3) = c.
Proof.
  unfold is_byte, u8. intros Ha Hb Hc. cbv zeta.
  bits_to_arith. repeat split; zdm.
Qed.
Lemma decode_stop n inp i out j : zget inp i = Some BASE64_PAD ->
  decode_loop (S n) inp i out j = Some (out, i32 j).
Proof. intros H. cbn [decode_loop]. by rewrite H. Qed.
#[local] Arguments decode_loop : simpl never.

(** A full group of four characters followed by [s]. *)
Lemma decode_group a b c pre s n w m0 m1 m2 rest :
  is_byte a -> is_byte b -> is_byte c -> zlen pre mod 4 = 0 ->
  let g := [en (Z.land (Z.shiftr a 2) 63);
            en (Z.shiftl (Z.land a 3) 4 + Z.land (Z.shiftr b 4) 15);
            en (Z.shiftl (Z.land b 15) 2 + Z.land (Z.shiftr c 6) 3);
            en (Z.land c 63)] in
  zlen pre + 4 + zlen s < 2 ^ 31 -> zlen w < 2 ^ 31 - 5 ->
  decode_loop (4 + n) (pre ++ g ++ s) (zlen pre) (w ++ m0 :: m1 :: m2 :: rest) (zlen w)
  = decode_loop n ((pre ++ g) ++ s) (zlen (pre ++ g)) ((w ++ [a; b; c]) ++ rest)
      (zlen (w ++ [a; b; c])).
Proof.
  intros HA HB HC Hm g Hpre Hw. subst g.
  pose proof (zlen_nonneg pre). pose proof (zlen_nonneg w). pose proof (zlen_nonneg s).
  destruct (sextets a b c) as (Hk0 & Hk1 & Hk2 & Hk3 & _); [done|done|done|].
  destruct (rejoin a b c) as (Ha & Hb & Hc); [done|done|done|]. cbv zeta in Ha, Hb, Hc.
  set (k0 := Z.land (Z.shiftr a 2) 63) in *.
  set (k1 := Z.shiftl (Z.land a 3) 4 + Z.land (Z.shiftr b 4) 15) in *.
  set (k2 := Z.shiftl (Z.land b 15) 2 + Z.land (Z.shiftr c 6) 3) in *.
  set (k3 := Z.land c 63) in *. clearbody k0 k1 k2 k3.
  set (inp := pre ++ _ ++ s).
  assert (zlen inp = zlen pre + 4 + zlen s) as Hin by (subst inp; zlen_simpl; lia).
  destruct (zget_is_Some inp (zlen inp - 2)) as [y2 Hy2]; [lia|].
  destruct (zget_is_Some inp (zlen inp - 1)) as [y1 Hy1]; [lia|].
  assert (zget inp (zlen pre) = Some (en k0)) as Hg0
    by (subst inp; rewrite <- (Z.add_0_r (zlen pre)); zget_group).
  assert (zget inp (zlen pre + 1) = Some (en k1)) as Hg1 by (subst inp; zget_group).
  assert (zget inp (zlen pre + 2) = Some (en k2)) as Hg2 by (subst inp; zget_group).
  assert (zget inp (zlen pre + 3) = Some (en k3)) as Hg3 by (subst inp; zget_group).
  cbn [Nat.add]. rewrite decode_char0 with (k := k0) by done.
  rewrite decode_char1 with (k := k1) (y := y2);
    [|done|done|lia|zdm|unfold is_byte; bits_to_arith; zdm|lia|lia|done].
  cbv zeta. rewrite Ha.
  assert ((zlen pre + 1 <? zlen inp - 3) || negb (y2 =? BASE64_PAD) = true) as ->.
  { destruct (Z.ltb_spec (zlen pre + 1) (zlen inp - 3)); [done|].
    replace (zlen inp - 2) with (zlen pre + 2) in Hy2 by lia. simplify_eq.
    by destruct (en_decode k2 Hk2) as (-> & _). }
  rewrite (cons_middle a), app_assoc. rewrite zset_middle by (zlen_simpl; lia).
  cbn [mbind option_bind].
  replace (zlen w + 1) with (zlen (w ++ [a])) by (zlen_simpl; lia).
  replace (zlen pre + 1 + 1) with (zlen pre + 2) by lia.
  rewrite decode_char2 with (k := k2) (y := y1);
    [|done|done|zlen_simpl; lia|zdm|unfold is_byte; bits_to_arith; zdm|lia|lia|done].
  cbv zeta. rewrite Hb.
  assert ((zlen pre + 2 <? zlen inp - 2) || negb (y1 =? BASE64_PAD) = true) as ->.
  { destruct (Z.ltb_spec (zlen pre + 2) (zlen inp - 2)); [done|].
    replace (zlen inp - 1) with (zlen pre + 3) in Hy1 by lia. simplify_eq.
    by destruct (en_decode k3 Hk3) as (-> & _). }
  rewrite (cons_middle b), app_assoc. rewrite zset_middle by (zlen_simpl; lia).
  cbn [mbind option_bind].
  replace (zlen (w ++ [a]) + 1) with (zlen ((w ++ [a]) ++ [b])) by (zlen_simpl; lia).
  replace (zlen pre + 2 + 1) with (zlen pre + 3) by lia.
  rewrite decode_char3 with (k := k3); [|done|done|zlen_simpl; lia|zdm]. rewrite Hc.
  subst inp. rewrite <- !app_assoc. f_equal; zlen_simpl; lia.
Qed.

Lemma decode_loop_rfc4648 l : forall pre w mid rest,
  Bytes l -> zlen pre mod 4 = 0 -> length mid = length l ->
  zlen (pre ++ rfc4648 l) < 2 ^ 31 -> zlen w + zlen mid < 2 ^ 31 - 3 ->
  decode_loop (length (rfc4648 l)) (pre ++ rfc4648 l) (zlen pre) (w ++ mid ++ rest) (zlen w)
  = Some (w ++ l ++ rest, zlen w + zlen l).
Proof.
  unfold rfc4648.
  induction l as [|a|a b|a b c l IH] using list_ind3; intros pre w mid rest Hl Hm Hmid Hpre Hw;
    cbn [body tail] in *; unfold Bytes in Hl; rewrite ?Forall_cons in Hl; destruct_and?;
    pose proof (zlen_nonneg pre); pose proof (zlen_nonneg w).
  - destruct mid; [|done]. change (Some (w ++ rest, i32 (zlen w)) = Some (w ++ rest, zlen w + 0)).
    rewrite i32_small by (zlen_simpl; lia). do 2 f_equal. lia.
  - destruct mid as [|m0 [|]]; try done. zlen_simpl. cbn [app length] in *.
    destruct (sextets a 0 0) as (Hk0 & Hk1 & _); [done|done|done|].
    destruct (rejoin a 0 0) as (Ha & _); [done|done|done|]. cbv zeta in Ha.
    change (Z.shiftr 0 4) with 0 in *. rewrite Z.land_0_l, Z.add_0_r in *.
    rewrite decode_char0 with (k := Z.land (Z.shiftr a 2) 63); [|done| |done].
    2: { rewrite <- (Z.add_0_r (zlen pre)). zget_group. }
    rewrite decode_char1 with (k := Z.shiftl (Z.land a 3) 4) (y := BASE64_PAD);
      [|done|zget_group|lia|zdm| |zlen_simpl; lia|zlen_simpl; lia|].
    2: { unfold is_byte. bits_to_arith. zdm. }
    2: { zlen_simpl. replace (zlen pre + _ - 2) with (zlen pre + 2) by lia. zget_group. }
    cbv zeta. rewrite Ha. zlen_simpl. rewrite ltb_false by lia. cbn [orb negb Z.eqb Pos.eqb BASE64_PAD].
    replace (zlen pre + 1 + 1) with (zlen pre + 2) by lia.
    rewrite decode_stop by zget_group. by rewrite i32_small by lia.
  - destruct mid as [|m0 [|m1 [|]]]; try done. zlen_simpl. cbn [app length] in *.
    destruct (sextets a b 0) as (Hk0 & Hk1 & Hk2 & _); [done|done|done|].
    destruct (rejoin a b 0) as (Ha & Hb & _); [done|done|done|]. cbv zeta in Ha, Hb.
    change (Z.shiftr 0 6) with 0 in *. rewrite Z.land_0_l, Z.add_0_r in *.
    rewrite decode_char0 with (k := Z.land (Z.shiftr a 2) 63); [|done| |done].
    2: { rewrite <- (Z.add_0_r (zlen pre)). zget_group. }
    rewrite decode_char1 with (k := Z.shiftl (Z.land a 3) 4 + Z.land (Z.shiftr b 4) 15)
      (y := en (Z.shiftl (Z.land b 15) 2));
      [|done|zget_group|lia|zdm| |zlen_simpl; lia|zlen_simpl; lia|].
    2: { unfold is_byte. bits_to_arith. zdm. }
    2: { zlen_simpl. replace (zlen pre + _ - 2) with (zlen pre + 2) by lia. zget_group. }
    cbv zeta. rewrite Ha. destruct (en_decode _ Hk2) as (-> & _). rewrite orb_true_r.
    rewrite (cons_middle a), app_assoc. rewrite zset_middle by (zlen_simpl; lia).
    cbn [mbind option_bind]. 
    replace (zlen w + 1) with (zlen (w ++ [a])) by (zlen_simpl; lia).
    replace (zlen pre + 1 + 1) with (zlen pre + 2) by lia.
    rewrite decode_char2 with (k := Z.shiftl (Z.land b 15) 2) (y := BASE64_PAD);
      [|done|zget_group|zlen_simpl; lia|zdm| |zlen_simpl; lia|zlen_simpl; lia|].
    2: { unfold is_byte. bits_to_arith. zdm. }
    2: { zlen_simpl. replace (zlen pre + _ - 1) with (zlen pre + 3) by lia. zget_group. }
    cbv zeta. rewrite Hb. rewrite ltb_false by (zlen_simpl; lia). cbn [orb negb Z.eqb Pos.eqb BASE64_PAD].
    replace (zlen pre + 2 + 1) with (zlen pre + 3) by lia.
    rewrite decode_stop by zget_group. rewrite i32_small by (zlen_simpl; lia).
    rewrite <- app_assoc. do 2 f_equal. zlen_simpl. lia.
  - destruct mid as [|m0 [|m1 [|m2 mid]]]; try done.
    rewrite <- app_assoc in *. autorewrite with zlen in Hpre, Hw.
    pose proof (zlen_nonneg mid). pose proof (zlen_nonneg (body l)). pose proof (zlen_nonneg (tail l)).
    rewrite length_app. cbn [length] in Hmid. cbn [length app].
    etransitivity; [apply decode_group; done || zlen_simpl; lia|].
    rewrite IH; [|done|zlen_simpl; zdm|lia|zlen_simpl; lia|zlen_simpl; lia].
    rewrite <- app_assoc. do 2 f_equal. zlen_simpl. lia.
Qed.

Lemma zlen_rfc4648 l : zlen (rfc4648 l) = BASE64_ENCODE_OUT_SIZE (zlen l).
Proof. unfold rfc4648. zlen_simpl. apply zlen_body_tail. Qed.

Lemma encode_rfc4648 l out rest :
  l <> [] -> Bytes l -> zlen l < 2 ^ 29 ->
  zlen out = BASE64_ENCODE_OUT_SIZE (zlen l) ->
  hv_base64_encode l (out ++ rest)
  = Some (rfc4648 l ++ rest, BASE64_ENCODE_OUT_SIZE (zlen l)).
Proof.
  intros Hne Hl Hn Hout. pose proof (zlen_body_tail l) as Hbt.
  assert (zlen out < 2 ^ 31) by (unfold BASE64_ENCODE_OUT_SIZE in Hout; zdm).
  pose proof (zlen_nonneg (body l)). pose proof (zlen_nonneg (tail l)).
  pose proof (zlen_nonneg out).
  rewrite <- (take_drop (length (body l)) out), <- app_assoc.
  assert (length (take (length (body l)) out) = length (body l))
    by (rewrite length_take; unfold zlen in *; lia).
  assert (length (drop (length (body l)) out) = length (tail l))
    by (rewrite length_drop; unfold zlen in *; lia).
  unfold hv_base64_encode.
  pose proof (encode_loop_body l [] [] (take (length (body l)) out)) as He.
  cbn [app] in He. change (zlen []) with 0 in He.
  rewrite He; [|done..|unfold zlen in *; lia]. cbn [mbind option_bind].
  pose proof (encode_pad_tail l [] (body l)) as Hp. cbn [app] in Hp.
  rewrite Hp; [|done..| |done|]; [|unfold zlen in *; simpl; lia..].
  cbn [mbind option_bind]. unfold rfc4648. do 2 f_equal.
  rewrite i32_small; zlen_simpl; lia.
Qed.

(** * Properties *)

(** For a non-empty input of less than 2^29 bytes and an output buffer
    of at least BASE64_ENCODE_OUT_SIZE bytes, hv_base64_encode writes the RFC
    4648 text, touches nothing after it, and returns its length. *)
Lemma hv_base64_encode_correct l out rest :
  l <> [] -> Bytes l -> zlen l < 2 ^ 29 ->
  zlen out = BASE64_ENCODE_OUT_SIZE (zlen l) ->
  hv_base64_encode l (out ++ rest)
  = Some (rfc4648 l ++ rest, BASE64_ENCODE_OUT_SIZE (zlen l)).
Proof. apply encode_rfc4648. Qed.

Lemma hv_base64_encode_correct_witness :
  hv_base64_encode [102; 111; 111; 98] (repeat 0 8 ++ [7])
  = Some (bytes_of_string "Zm9vYg==" ++ [7], 8).
Proof.
  apply (hv_base64_encode_correct [102; 111; 111; 98] (repeat 0 8) [7]);
    [done|by repeat constructor|done|done].
Defined.

(** C28. Decoding what the encoder wrote gives the input back: the decoder
    returns the number of input bytes, having written exactly them and left
    the rest of its buffer alone. *)
Theorem hv_base64_roundtrip l out rest buf rest' :
  l <> [] -> Bytes l -> zlen l < 2 ^ 29 ->
  zlen out = BASE64_ENCODE_OUT_SIZE (zlen l) -> zlen buf = zlen l ->
  exists e n,
    hv_base64_encode l (out ++ rest) = Some (e, n) /\
    hv_base64_decode (take (Z.to_nat n) e) (buf ++ rest') = Some (l ++ rest', zlen l).
Proof.
  intros Hne Hl Hn Hout Hbuf. do 2 eexists.
  split; [by apply encode_rfc4648|].
  rewrite <- (zlen_rfc4648 l). unfold zlen at 1. rewrite Nat2Z.id, take_app_length.
  apply (decode_loop_rfc4648 l [] [] buf rest'); [done|done|unfold zlen in *; lia| |].
  - simpl. rewrite zlen_rfc4648. unfold BASE64_ENCODE_OUT_SIZE. zdm.
  - change (zlen []) with 0. lia.
Qed.

Lemma hv_base64_roundtrip_witness : exists e n,
  hv_base64_encode [255; 0; 65] (repeat 0 4) = Some (e, n) /\
  hv_base64_decode (take (Z.to_nat n) e) [9; 9; 9; 7] = Some ([255; 0; 65; 7], 3).
Proof.
  apply (hv_base64_roundtrip [255; 0; 65] (repeat 0 4) [] [9; 9; 9] [7]);
    [done|by repeat constructor|done|done|done].
Defined.

(** An empty input is not handled: the padding step moves the unsigned
    index below zero and reads [in[UINT_MAX]], whatever the output buffer. *)
Theorem hv_base64_encode_empty out : hv_base64_encode [] out = None.
Proof. reflexivity. Qed.

End Base64.
