(* ===== verification/Heap.v ===== *)
(** The intrusive binary heap of base/heap.h, at the level of its pointers:
    nodes live in a store, every operation reads and writes their links, and a
    dereference of a missing node is an error. The heap is shown to be the
    complete binary tree of its members with the compare order along every
    edge, and the operations to insert, remove and expose the minimum. *)
From S2P Require Import Prelude.

Module Heap.

(** * Data *)

Abbreviation ptr := Z (only parsing).

Record heap_node := mk_node {
  parent : option ptr;
  left : option ptr;
  right : option ptr;
}.

(** [struct heap] with the store its nodes live in. *)
Record heap := mk_heap {
  root : option ptr;
  nelts : Z;
  nodes : gmap ptr heap_node;
}.

Definition null_node : heap_node := mk_node None None None.

Definition set_root (h : heap) (r : option ptr) : heap :=
  mk_heap r (nelts h) (nodes h).
Definition set_nelts (h : heap) (n : Z) : heap :=
  mk_heap (root h) n (nodes h).

(** Reading [x->...] and writing one link of [x]. *)
Definition get (h : heap) (x : ptr) : option heap_node := nodes h !! x.
Definition put_node (h : heap) (x : ptr) (n : heap_node) : heap :=
  mk_heap (root h) (nelts h) (<[x := n]> (nodes h)).
Definition set_parent (h : heap) (x : ptr) (v : option ptr) : option heap :=
  n ← get h x; Some (put_node h x (mk_node v (left n) (right n))).
Definition set_left (h : heap) (x : ptr) (v : option ptr) : option heap :=
  n ← get h x; Some (put_node h x (mk_node (parent n) v (right n))).
Definition set_right (h : heap) (x : ptr) (v : option ptr) : option heap :=
  n ← get h x; Some (put_node h x (mk_node (parent n) (left n) v)).

(** [if (x) x->parent = v]. *)
Definition set_parent_if (h : heap) (x : option ptr) (v : option ptr) : option heap :=
  match x with None => Some h | Some x => set_parent h x v end.

(** The link that names [s] is redirected to [r]: the root, or a child link of
    [pp]. *)
Definition relink (h : heap) (pp : option ptr) (s : ptr) (r : option ptr)
  : option heap :=
  match pp with
  | None => Some (set_root h r)
  | Some q =>
      n ← get h q;
      if bool_decide (left n = Some s) then set_left h q r
      else if bool_decide (right n = Some s) then set_right h q r
      else Some h
  end.

(** * Operations *)

(** Only the heap's own fields are set; [m] is the store of the caller's nodes. *)
Definition heap_init (m : gmap ptr heap_node) : heap := mk_heap None 0 m.

Definition heap_replace (h : heap) (s : ptr) (r : option ptr) : option heap :=
  n ← get h s;
  h ← relink h (parent n) s r;
  n ← get h s; h ← set_parent_if h (left n) r;
  n ← get h s; h ← set_parent_if h (right n) r;
  match r with
  | None => Some h
  | Some r =>
      n ← get h s; h ← set_parent h r (parent n);
      n ← get h s; h ← set_left h r (left n);
      n ← get h s; set_right h r (right n)
  end.

(** The assertion at the top is the first guard. *)
Definition heap_swap (h : heap) (par child : ptr) : option heap :=
  np ← get h par; nc ← get h child;
  if negb (bool_decide (parent nc = Some par)
           && (bool_decide (left np = Some child) || bool_decide (right np = Some child)))
  then None
  else
    let pparent := parent np in
    let lchild := left nc in
    let rchild := right nc in
    h ← relink h pparent par (Some child);
    h ← set_parent_if h lchild (Some par);
    h ← set_parent_if h rchild (Some par);
    h ← set_parent h child pparent;
    np ← get h par;
    '(h, sibling) ←
      (if bool_decide (left np = Some child) then
         let sibling := right np in
         h ← set_left h child (Some par);
         h ← set_right h child sibling; Some (h, sibling)
       else
         let sibling := left np in
         h ← set_left h child sibling;
         h ← set_right h child (Some par); Some (h, sibling));
    h ← set_parent_if h sibling (Some child);
    h ← set_parent h par (Some child);
    h ← set_left h par lchild;
    set_right h par rchild.

(** [for (d = 0, n = nelts; n >= 2; ++d, n >>= 1) path = (path << 1) | (n & 1)]
    gives [path] and [d]; 31 halvings reach 1 from any positive [int]. *)
Fixpoint path_loop (fuel : nat) (n : Z) (d : nat) (path : Z) : option (nat * Z) :=
  if n <? 2 then Some (d, path)
  else match fuel with
       | O => None
       | S f => path_loop f (Z.shiftr n 1) (S d)
                  (Z.lor (Z.shiftl path 1) (Z.land n 1))
       end.
Definition last_path (n : Z) : option (nat * Z) := path_loop 31 n 0 0.

(** [while (d > 1) { parent = (path & 1) ? parent->right : parent->left; ... }] *)
Fixpoint walk (h : heap) (d : nat) (par : option ptr) (path : Z)
  : option (option ptr * Z) :=
  match d with
  | S (S _ as d') =>
      x ← par; n ← get h x;
      walk h d' (if Z.odd path then right n else left n) (Z.shiftr path 1)
  | _ => Some (par, path)
  end.

(** The new node becomes the root or the child the last path bit names. *)
Definition link_last (h : heap) (par : option ptr) (path : Z) (node : ptr)
  : option heap :=
  h ← set_parent h node par;
  match par with
  | None => Some (set_root h (Some node))
  | Some p => if Z.odd path then set_right h p (Some node)
              else set_left h p (Some node)
  end.

(** The last node is read from the link of its parent, which is cleared. *)
Definition unlink_last (h : heap) (p : ptr) (path : Z) : option (heap * option ptr) :=
  n ← get h p;
  if Z.odd path
  then h ← set_right h p None; Some (h, right n)
  else h ← set_left h p None; Some (h, left n).

(** [node->parent = node->left = node->right = NULL]. *)
Definition clear_links (h : heap) (node : ptr) : option heap :=
  h ← set_right h node None; h ← set_left h node None; set_parent h node None.

Section Operations.

(** [heap->compare], evaluated in the current memory of the keys. *)
Context (compare : option (ptr -> ptr -> bool)).

Fixpoint sift_up (fuel : nat) (cmp : ptr -> ptr -> bool) (h : heap) (node : ptr)
  : option heap :=
  n ← get h node;
  match parent n with
  | None => Some h
  | Some p =>
      if cmp node p then
        match fuel with
        | O => None
        | S f => h ← heap_swap h p node; sift_up f cmp h node
        end
      else Some h
  end.

(** [est = heap->compare(est, x) ? est : x], when [x] is not NULL. *)
Definition pick (cmp : ptr -> ptr -> bool) (est : ptr) (x : option ptr) : ptr :=
  match x with
  | None => est
  | Some x => if cmp est x then est else x
  end.

Fixpoint sift_down (fuel : nat) (cmp : ptr -> ptr -> bool) (h : heap) (v : ptr)
  : option heap :=
  n ← get h v;
  let est := pick cmp (pick cmp v (left n)) (right n) in
  if est =? v then Some h
  else match fuel with
       | O => None
       | S f => h ← heap_swap h v est; sift_down f cmp h v
       end.

Definition heap_insert (h : heap) (node : ptr) : option heap :=
  let h := set_nelts h (nelts h + 1) in
  '(d, path) ← last_path (nelts h);
  '(par, path) ← walk h d (root h) path;
  h ← link_last h par path node;
  match compare with
  | None => Some h
  | Some cmp => sift_up (Z.to_nat (nelts h)) cmp h node
  end.

Definition heap_remove (h : heap) (node : ptr) : option heap :=
  if nelts h =? 0 then Some h
  else
    '(d, path) ← last_path (nelts h);
    let h := set_nelts h (nelts h - 1) in
    '(par, path) ← walk h d (root h) path;
    match par with
    | None => Some h
    | Some p =>
        '(h, last) ← unlink_last h p path;
        match last with
        | None => Some (if bool_decide (root h = Some node) then set_root h None else h)
        | Some last =>
            h ← heap_replace h node (Some last);
            h ← clear_links h node;
            match compare with
            | None => Some h
            | Some cmp =>
                h ← sift_down (Z.to_nat (nelts h)) cmp h last;
                sift_up (Z.to_nat (nelts h)) cmp h last
            end
        end
    end.

(** [heap_remove(heap, heap->root)]; with an empty heap the argument is NULL
    and [heap_remove] returns before using it. *)
Definition heap_dequeue (h : heap) : option heap :=
  match root h with
  | None => if nelts h =? 0 then Some h else None
  | Some r => heap_remove h r
  end.

End Operations.

(** * The tree of positions *)

Definition up (p : positive) : option positive :=
  match p with xH => None | xO q | xI q => Some q end.

Abbreviation shape := (gmap positive ptr).

Definition node_at (a : shape) (p : positive) : heap_node :=
  mk_node (q ← up p; a !! q) (a !! xO p) (a !! xI p).

Lemma up_lt p q : up p = Some q -> (q < p)%positive.
Proof. destruct p; simpl; intros; simplify_eq; lia. Qed.

Record rep (h : heap) (a : shape) : Prop := {
  rep_root : root h = a !! 1%positive;
  rep_dom : forall p, is_Some (a !! p) <-> Zpos p <= nelts h;
  rep_inj : forall p q x, a !! p = Some x -> a !! q = Some x -> p = q;
  rep_node : forall p x, a !! p = Some x -> nodes h !! x = Some (node_at a p);
  rep_nelts : 0 <= nelts h;
}.

Definition outside (a : shape) (x : ptr) : Prop := forall p, a !! p <> Some x.

(** * Updating one link *)

Definition wp v n := mk_node v (left n) (right n).
Definition wl v n := mk_node (parent n) v (right n).
Definition wr v n := mk_node (parent n) (left n) v.
Definition upd (x : option ptr) (f : heap_node -> heap_node)
  (m : gmap ptr heap_node) : gmap ptr heap_node :=
  match x with None => m | Some x => alter f x m end.
Definition with_nodes (h : heap) m := mk_heap (root h) (nelts h) m.

Lemma lookup_upd x f m z :
  upd x f m !! z = if decide (x = Some z) then f <$> m !! z else m !! z.
Proof.
  destruct x as [x|]; simpl; [|done].
  destruct (decide (Some x = Some z)) as [[= ->]|Hne].
  - by rewrite lookup_alter, decide_True.
  - rewrite lookup_alter_ne; [done|congruence].
Qed.

Lemma upd_is_Some x f m z : is_Some (upd x f m !! z) <-> is_Some (m !! z).
Proof. rewrite lookup_upd. case_decide; [|done]. apply fmap_is_Some. Qed.

Arguments upd : simpl never.
Arguments set_parent : simpl never.
Arguments set_left : simpl never.
Arguments set_right : simpl never.

Ltac set_link := intros [n Hn]; unfold set_parent, set_left, set_right, get, with_nodes, put_node;
  rewrite Hn; simpl; do 2 f_equal; apply map_eq; intros z; rewrite lookup_upd;
  case_decide as E; simplify_eq;
  [by rewrite lookup_insert_eq, Hn|by rewrite lookup_insert_ne by congruence].

Lemma set_parent_eq h x v : is_Some (nodes h !! x) ->
  set_parent h x v = Some (with_nodes h (upd (Some x) (wp v) (nodes h))).
Proof. set_link. Qed.
Lemma set_left_eq h x v : is_Some (nodes h !! x) ->
  set_left h x v = Some (with_nodes h (upd (Some x) (wl v) (nodes h))).
Proof. set_link. Qed.
Lemma set_right_eq h x v : is_Some (nodes h !! x) ->
  set_right h x v = Some (with_nodes h (upd (Some x) (wr v) (nodes h))).
Proof. set_link. Qed.
Lemma set_parent_if_eq h x v : (forall z, x = Some z -> is_Some (nodes h !! z)) ->
  set_parent_if h x v = Some (with_nodes h (upd x (wp v) (nodes h))).
Proof.
  intros H. destruct x as [x|]; simpl; [|by destruct h]. by apply set_parent_eq, H.
Qed.

(** The effect of [relink] when [s] is the member at position [q]. *)
Definition relinked (a : shape) (h : heap) (q : positive) (r : option ptr) : heap :=
  match q with
  | xH => set_root h r
  | xO Q => with_nodes h (upd (a !! Q) (wl r) (nodes h))
  | xI Q => with_nodes h (upd (a !! Q) (wr r) (nodes h))
  end.

Lemma rep_up h a p q x : rep h a -> up p = Some q -> a !! p = Some x -> is_Some (a !! q).
Proof.
  intros Hr Hu Hp. apply (rep_dom _ _ Hr).
  assert (Zpos p <= nelts h) by (apply (rep_dom _ _ Hr); eauto).
  destruct p; simplify_eq/=; lia.
Qed.

Lemma relink_eq h a q s r : rep h a -> a !! q = Some s ->
  relink h (parent (node_at a q)) s r = Some (relinked a h q r).
Proof.
  intros Hr Hs. destruct q as [Q|Q|]; simpl; [| |done].
  - destruct (rep_up h a (xI Q) Q s) as [x Hx]; [done..|]. rewrite Hx. simpl. unfold get.
    rewrite (rep_node _ _ Hr _ _ Hx). simpl. rewrite !bool_decide_decide.
    destruct (decide _) as [E|_]; [by pose proof (rep_inj _ _ Hr _ _ _ E Hs)|].
    rewrite decide_True by done. apply set_right_eq. by rewrite (rep_node _ _ Hr _ _ Hx).
  - destruct (rep_up h a (xO Q) Q s) as [x Hx]; [done..|]. rewrite Hx. simpl. unfold get.
    rewrite (rep_node _ _ Hr _ _ Hx). simpl. rewrite bool_decide_decide.
    rewrite decide_True by done. apply set_left_eq. by rewrite (rep_node _ _ Hr _ _ Hx).
Qed.

(** * Exchanging a parent and a child *)

Definition swap_pos (p q r : positive) : positive :=
  if decide (r = p) then q else if decide (r = q) then p else r.
Definition swapped (a a' : shape) (p q : positive) : Prop :=
  forall r, a' !! r = a !! swap_pos p q r.

Lemma relinked_get a h q r z : 
  nodes (relinked a h q r) !! z =
  match q with xH => nodes h !! z
  | xO Q => upd (a !! Q) (wl r) (nodes h) !! z
  | xI Q => upd (a !! Q) (wr r) (nodes h) !! z end.
Proof. by destruct q. Qed.

Definition swap_shape (a : shape) (p q : positive) (x y : ptr) : shape :=
  <[p := x]> (<[q := y]> a).

Lemma lookup_swap_shape a p q x y r :
  swap_shape a p q x y !! r
  = if decide (r = p) then Some x else if decide (r = q) then Some y else a !! r.
Proof.
  unfold swap_shape. case_decide; simplify_eq; [apply lookup_insert_eq|].
  rewrite lookup_insert_ne by done. case_decide; simplify_eq; [apply lookup_insert_eq|].
  by rewrite lookup_insert_ne.
Qed.

Definition swapped_heap (a : shape) (h : heap) (p q : positive) (x y : ptr) : heap :=
  let h0 := relinked a h q (Some y) in
  let is_left := bool_decide (p = xO q) in
  let sib := if is_left then a !! xI q else a !! xO q in
  let m := upd (a !! xO p) (wp (Some x)) (nodes h0) in
  let m := upd (a !! xI p) (wp (Some x)) m in
  let m := upd (Some y) (wp (parent (node_at a q))) m in
  let m := upd (Some y) (wl (if is_left then Some x else sib)) m in
  let m := upd (Some y) (wr (if is_left then sib else Some x)) m in
  let m := upd sib (wp (Some y)) m in
  let m := upd (Some x) (wp (Some y)) m in
  let m := upd (Some x) (wl (a !! xO p)) m in
  let m := upd (Some x) (wr (a !! xI p)) m in
  with_nodes h0 m.

Lemma relinked_is_Some a h q r z :
  is_Some (nodes (relinked a h q r) !! z) <-> is_Some (nodes h !! z).
Proof. destruct q; simpl; rewrite ?upd_is_Some; done. Qed.

Lemma rep_is_Some h a p x : rep h a -> a !! p = Some x -> is_Some (nodes h !! x).
Proof. intros Hr Hp. rewrite (rep_node _ _ Hr _ _ Hp). done. Qed.

(** The child links of [z]; re-parenting does not touch them. *)
Definition kids (m : gmap ptr heap_node) (z : ptr) : option (option ptr * option ptr) :=
  n ← m !! z; Some (left n, right n).

Lemma kids_wp x v m z : kids (upd x (wp v) m) z = kids m z.
Proof. unfold kids. rewrite lookup_upd. case_decide; [|done]. by destruct (m !! z). Qed.

Lemma kids_relinked h a q x r : rep h a -> a !! q = Some x ->
  kids (nodes (relinked a h q r)) x = kids (nodes h) x.
Proof.
  intros Hr Hq. unfold kids. destruct q as [Q|Q|]; simpl; [| |done];
    rewrite lookup_upd, decide_False; try done; intros E;
    pose proof (rep_inj _ _ Hr _ _ _ E Hq); lia.
Qed.

(** One link write at a time; the written node is in the store. *)
Ltac live := intros; simpl in *; rewrite ?upd_is_Some; eauto.
Ltac link_step :=
  first [ rewrite set_parent_if_eq by live | rewrite set_parent_eq by live
        | rewrite set_left_eq by live | rewrite set_right_eq by live ];
  cbn [mbind option_bind with_nodes nodes].

Lemma heap_swap_eq h a p q x y :
  rep h a -> up p = Some q -> a !! q = Some x -> a !! p = Some y ->
  heap_swap h x y = Some (swapped_heap a h p q x y).
Proof.
  intros Hr Hu Hq Hp. pose proof (rep_inj _ _ Hr) as Hinj.
  assert (x <> y) as Hxy.
  { intros ->. pose proof (Hinj _ _ _ Hp Hq). apply up_lt in Hu. lia. }
  unfold heap_swap, get.
  rewrite (rep_node _ _ Hr _ _ Hq), (rep_node _ _ Hr _ _ Hp). cbn [mbind option_bind].
  assert (parent (node_at a p) = Some x) as -> by (simpl; rewrite Hu; done).
  rewrite bool_decide_true by done.
  assert (bool_decide (left (node_at a q) = Some y) || bool_decide (right (node_at a q) = Some y) = true) as ->.
  { simpl. destruct p; simplify_eq/=; rewrite !bool_decide_decide, Hp.
    - rewrite (decide_True (P := Some y = Some y)) by done. by rewrite orb_true_r.
    - by rewrite decide_True. }
  cbn [negb andb].
  rewrite (relink_eq _ _ _ _ _ Hr Hq). cbn [mbind option_bind].
  set (h0 := relinked a h q (Some y)).
  assert (forall p z, a !! p = Some z -> is_Some (nodes h0 !! z)) as Hin.
  { intros. apply relinked_is_Some. by eapply rep_is_Some. }
  do 3 link_step.
  set (m3 := upd (Some y) (wp (parent (node_at a q))) _).
  assert (kids m3 x = Some (a !! xO q, a !! xI q)) as Hk.
  { subst m3 h0. rewrite !kids_wp, (kids_relinked h) by done.
    unfold kids. by rewrite (rep_node _ _ Hr _ _ Hq). }
  assert (forall p z, a !! p = Some z -> is_Some (m3 !! z)) as Hin3.
  { intros. subst m3. rewrite !upd_is_Some. eauto. }
  unfold kids in Hk. destruct (m3 !! x) as [np|] eqn:Em; simplify_eq/=. 
  destruct np as [pn ln rn]; simplify_eq/=. unfold swapped_heap.
  assert (bool_decide (a !! xO q = Some y) = bool_decide (p = xO q)) as ->.
  { apply bool_decide_ext. split; [|by intros ->]. intros E. by apply (Hinj _ _ y). }
  case_bool_decide.
  all: do 6 link_step; done.
Qed.

Lemma lookup_decide (a : shape) (c r0 : positive) (z : ptr) {B} (u v : B) :
  (forall p q x, a !! p = Some x -> a !! q = Some x -> p = q) ->
  a !! r0 = Some z ->
  (if decide (a !! c = Some z) then u else v) = if decide (c = r0) then u else v.
Proof.
  intros Hinj Hz. destruct (decide (c = r0)) as [->|Hne]; [by rewrite decide_True|].
  rewrite decide_False; [done|]. intros E. eauto.
Qed.

(** What an update does to each link of a member at position [r0]. *)
Section See.
Context (a : shape) (r0 : positive) (z : ptr).
Context (Hinj : forall p q x, a !! p = Some x -> a !! q = Some x -> p = q)
        (Hz : a !! r0 = Some z).

Lemma see_wp m c v P L R : m !! z = Some (mk_node P L R) ->
  upd (a !! c) (wp v) m !! z = Some (mk_node (if decide (c = r0) then v else P) L R).
Proof.
  intros H. rewrite lookup_upd, (lookup_decide a c r0 z), H by done. by case_decide.
Qed.
Lemma see_wl m c v P L R : m !! z = Some (mk_node P L R) ->
  upd (a !! c) (wl v) m !! z = Some (mk_node P (if decide (c = r0) then v else L) R).
Proof.
  intros H. rewrite lookup_upd, (lookup_decide a c r0 z), H by done. by case_decide.
Qed.
Lemma see_wr m c v P L R : m !! z = Some (mk_node P L R) ->
  upd (a !! c) (wr v) m !! z = Some (mk_node P L (if decide (c = r0) then v else R)).
Proof.
  intros H. rewrite lookup_upd, (lookup_decide a c r0 z), H by done. by case_decide.
Qed.
Lemma see_relinked h q r P L R : nodes h !! z = Some (mk_node P L R) ->
  nodes (relinked a h q r) !! z
  = Some (mk_node P (if decide (q = xO r0) then r else L) (if decide (q = xI r0) then r else R)).
Proof.
  intros H. destruct q as [Q|Q|]; simpl; [| |done].
  - rewrite (see_wr _ _ _ P L R) by done. do 2 f_equal. repeat case_decide; congruence.
  - rewrite (see_wl _ _ _ P L R) by done. do 2 f_equal. repeat case_decide; congruence.
Qed.
End See.

Ltac pos_cases := repeat case_decide; simplify_eq/=; try done; try lia; try congruence.

Lemma swapped_heap_node h a p q x y r z :
  rep h a -> up p = Some q -> a !! q = Some x -> a !! p = Some y ->
  swap_shape a p q x y !! r = Some z ->
  nodes (swapped_heap a h p q x y) !! z = Some (node_at (swap_shape a p q x y) r).
Proof.
  intros Hr Hu Hq Hp Hz. pose proof (rep_inj _ _ Hr) as Hinj.
  assert (exists r0, a !! r0 = Some z /\ r0 = if decide (r = p) then q else if decide (r = q) then p else r)
    as (r0 & Hz0 & Er0).
  { rewrite lookup_swap_shape in Hz. repeat case_decide; simplify_eq; eauto. }
  unfold swapped_heap. cbn [nodes with_nodes]. rewrite <- Hq, <- Hp.
  assert ((if bool_decide (p = xO q) then a !! xI q else a !! xO q)
     = a !! (if bool_decide (p = xO q) then xI q else xO q)) as -> by by case_bool_decide.
  erewrite see_wr; [|done|exact Hz0|].
  2: { eapply see_wl, see_wp, see_wp, see_wr, see_wl, see_wp, see_wp, see_wp, see_relinked, (rep_node _ _ Hr); done. }
  unfold node_at. f_equal. clear Hz Hz0 Hr Hinj.
  destruct p as [p|p|]; simplify_eq/=; rewrite ?bool_decide_true, ?bool_decide_false by congruence.
  - f_equal.
    + destruct r as [r|r|]; simpl; rewrite ?lookup_swap_shape; pos_cases.
    + rewrite ?lookup_swap_shape; pos_cases.
    + rewrite ?lookup_swap_shape; pos_cases.
  - f_equal.
    + destruct r as [r|r|]; simpl; rewrite ?lookup_swap_shape; pos_cases.
    + rewrite ?lookup_swap_shape; pos_cases.
    + rewrite ?lookup_swap_shape; pos_cases.
Qed.

Lemma upd_outside (a : shape) z c f m : outside a z -> upd (a !! c) f m !! z = m !! z.
Proof. intros Ho. rewrite lookup_upd, decide_False; [done|]. apply Ho. Qed.

Lemma relinked_outside a h q r z : outside a z ->
  nodes (relinked a h q r) !! z = nodes h !! z.
Proof. intros Ho. destruct q; simpl; rewrite ?upd_outside by done; done. Qed.

(** Exchanging the members of two adjacent positions. *)
Lemma heap_swap_rep h a p q x y :
  rep h a -> up p = Some q -> a !! q = Some x -> a !! p = Some y ->
  exists h', heap_swap h x y = Some h' /\ rep h' (swap_shape a p q x y) /\
    nelts h' = nelts h /\ (forall z, outside a z -> nodes h' !! z = nodes h !! z).
Proof.
  intros Hr Hu Hq Hp. exists (swapped_heap a h p q x y).
  assert (p <> q) by (apply up_lt in Hu; lia).
  assert (nelts (swapped_heap a h p q x y) = nelts h) as Hn by by destruct q.
  split_and!; [by apply heap_swap_eq| |done|].
  - split.
    + rewrite lookup_swap_shape. destruct q; simpl; rewrite ?(rep_root _ _ Hr); repeat case_decide; simplify_eq/=; done.
    + intros r. rewrite Hn, <- (rep_dom _ _ Hr), lookup_swap_shape.
      repeat case_decide; simplify_eq; rewrite ?Hp, ?Hq; split; eauto.
    + intros r r' w. rewrite !lookup_swap_shape. pose proof (rep_inj _ _ Hr) as Hinj.
      repeat case_decide; intros; simplify_eq; eauto;
       try (assert (p = q) by eauto; congruence);
       try (assert (r = q) by eauto; congruence); try (assert (r = p) by eauto; congruence);
       try (assert (r' = q) by eauto; congruence); try (assert (r' = p) by eauto; congruence).
    + intros. by apply swapped_heap_node.
    + rewrite Hn. apply (rep_nelts _ _ Hr).
  - intros z Ho. unfold swapped_heap. cbn [nodes with_nodes]. rewrite <- Hq, <- Hp.
    case_bool_decide; rewrite !upd_outside by done; by apply relinked_outside.
Qed.

(** * Adding the last position *)

Lemma outside_insert a p x z : outside (<[p := x]> a) z <-> z <> x /\ outside (delete p a) z.
Proof.
  unfold outside. split.
  - intros Ho. split.
    + intros ->. apply (Ho p). apply lookup_insert_eq.
    + intros q E. apply (Ho q). apply lookup_delete_Some in E as [Hne E]. by rewrite lookup_insert_ne.
  - intros [Hx Ho] q E. apply lookup_insert_Some in E as [[-> ->]|[Hne E]]; [done|].
    apply (Ho q). by apply lookup_delete_Some.
Qed.

(** The position reached by the path of the [n]-th element. *)
Fixpoint rpath (p : positive) (acc : Z) : Z :=
  match p with
  | xH => acc
  | xO q => rpath q (2 * acc)
  | xI q => rpath q (2 * acc + 1)
  end.

Fixpoint depth (p : positive) : nat :=
  match p with xH => O | xO q | xI q => S (depth q) end.

Lemma path_loop_pos p : forall fuel d acc, (depth p <= fuel)%nat -> 0 <= acc ->
  path_loop fuel (Zpos p) d acc = Some ((d + depth p)%nat, rpath p acc).
Proof.
  induction p as [p IH|p IH|]; intros fuel d acc Hf Ha; simpl in Hf.
  - destruct fuel as [|fuel]; [lia|]. cbn [path_loop]. rewrite ltb_false by lia.
    replace (Z.lor _ _) with (2 * acc + 1) by (destruct acc; [done|done|lia]).
    change (Z.shiftr _ _) with (Zpos p). rewrite IH by lia. simpl. do 2 f_equal. lia.
  - destruct fuel as [|fuel]; [lia|]. cbn [path_loop]. rewrite ltb_false by lia.
    replace (Z.lor _ _) with (2 * acc) by (destruct acc; [done|done|lia]).
    change (Z.shiftr _ _) with (Zpos p). rewrite IH by lia. simpl. do 2 f_equal. lia.
  - simpl. destruct fuel; simpl; do 2 f_equal; lia.
Qed.

Lemma depth_lt p k : Zpos p < 2 ^ Z.of_nat (S k) -> (depth p <= k)%nat.
Proof.
  revert k. induction p as [p IH|p IH|]; intros k Hk; cbn [depth]; [| |lia].
  all: destruct k as [|k]; [cbn in Hk; lia|].
  all: apply le_n_S, IH; rewrite (Nat2Z.inj_succ (S k)), Z.pow_succ_r in Hk; lia.
Qed.

Lemma last_path_pos p : Zpos p < 2 ^ 32 -> last_path (Zpos p) = Some (depth p, rpath p 0).
Proof. intros H. apply (path_loop_pos p 31 0 0); [|done]. by apply depth_lt. Qed.

(** The side of the last step to a position. *)
Definition is_right (p : positive) : Z := match p with xI _ => 1 | _ => 0 end.

(** Walking a path from the root arrives at the position it encodes. *)
Lemma walk_pos h h' a q : rep h a -> root h' = root h -> nodes h' = nodes h ->
  forall e acc, 0 <= acc -> Zpos q <= nelts h ->
  walk h' (depth q + S e) (root h') (rpath q acc) = walk h' (S e) (a !! q) acc.
Proof.
  intros Hr Eroot En. assert (forall q e b acc, 0 <= acc -> 0 <= b <= 1 -> Zpos q <= nelts h ->
    walk h' (S (S e)) (a !! q) (2 * acc + b)
    = walk h' (S e) (a !! (if b =? 1 then xI q else xO q)) acc) as Hstep.
  { intros q' e b acc Ha Hb Hq'. destruct (proj2 (rep_dom _ _ Hr q') Hq') as [x Hx].
    rewrite Hx. cbn [walk mbind option_bind]. unfold get.
    rewrite En, (rep_node _ _ Hr _ _ Hx). cbn [mbind option_bind left right node_at].
    assert (b = 0 \/ b = 1) as [-> | ->] by lia.
    - replace (Z.odd (2 * acc + 0)) with false by (rewrite Z.add_0_r, Z.odd_even; done).
      replace (Z.shiftr (2 * acc + 0) 1) with acc; [done|].
      rewrite Z.shiftr_div_pow2 by lia. change (2 ^ 1) with 2. zdm.
    - replace (Z.odd (2 * acc + 1)) with true by (by rewrite Z.odd_odd).
      replace (Z.shiftr (2 * acc + 1) 1) with acc; [done|].
      rewrite Z.shiftr_div_pow2 by lia. change (2 ^ 1) with 2. zdm. }
  induction q as [q IH|q IH|]; intros e acc Ha Hq; cbn [depth rpath].
  - rewrite Nat.add_succ_comm, IH by lia. rewrite (Hstep q e 1) by lia. done.
  - rewrite Nat.add_succ_comm, IH by lia. rewrite <- (Z.add_0_r (2 * acc)).
    rewrite (Hstep q e 0) by lia. done.
  - by rewrite Eroot, (rep_root _ _ Hr).
Qed.

(** The parent slot of the last position, and the side of the last path bit. *)
Lemma walk_last h h' a p q : rep h a -> root h' = root h -> nodes h' = nodes h ->
  up p = Some q -> Zpos q <= nelts h ->
  walk h' (depth p) (root h') (rpath p 0)
  = Some (a !! q, is_right p).
Proof.
  intros Hr E1 E2 Hu Hq. destruct p as [p|p|]; [injection Hu as ->..|done]; cbn [depth rpath].
  - replace (S (depth q)) with (depth q + 1)%nat by lia. by rewrite (walk_pos h h' a q Hr E1 E2).
  - replace (S (depth q)) with (depth q + 1)%nat by lia. by rewrite (walk_pos h h' a q Hr E1 E2).
Qed.

(** Linking a fresh node at position [nelts + 1]. *)
Lemma rep_outside_insert h a P y : rep h a -> outside a y -> nelts h < Zpos P ->
  forall p q x, <[P := y]> a !! p = Some x -> <[P := y]> a !! q = Some x -> p = q.
Proof.
  intros Hr Ho HP p q x. rewrite !lookup_insert_Some. pose proof (rep_inj _ _ Hr).
  intros [[-> ->]|[? E]] [[-> E']|[? E']]; simplify_eq; eauto; exfalso; eapply Ho; eauto.
Qed.

Lemma lookup_insert_dec {A} (a : gmap positive A) p q x :
  <[p := x]> a !! q = if decide (q = p) then Some x else a !! q.
Proof.
  case_decide; subst; [apply lookup_insert_eq|by apply lookup_insert_ne].
Qed.

Lemma rep_None h a p : rep h a -> nelts h < Zpos p -> a !! p = None.
Proof.
  intros Hr Hp. destruct (a !! p) eqn:E; [|done].
  assert (Zpos p <= nelts h) by (apply (rep_dom _ _ Hr); eauto). lia.
Qed.

Definition last_nodes (h : heap) (a : shape) (P : positive) (y : ptr) :=
  let m := upd (Some y) (wp (up P ≫= (a !!.))) (nodes h) in
  match P with
  | xH => m
  | xO q => upd (a !! q) (wl (Some y)) m
  | xI q => upd (a !! q) (wr (Some y)) m
  end.

Lemma link_last_eq h a P y : rep h a -> is_Some (nodes h !! y) -> Zpos P = nelts h + 1 ->
  link_last (set_nelts h (nelts h + 1)) (up P ≫= (a !!.)) (is_right P) y
  = Some (mk_heap (<[P := y]> a !! 1%positive) (nelts h + 1) (last_nodes h a P y)).
Proof.
  intros Hr Hy HP. unfold link_last. rewrite set_parent_eq by done.
  cbn [mbind option_bind]. rewrite lookup_insert_dec, <- (rep_root _ _ Hr).
  destruct P as [q|q|]; cbn [up mbind option_bind is_right]; [| |done].
  - destruct (proj2 (rep_dom _ _ Hr q)) as [x Hx]; [lia|]. rewrite Hx. simpl.
    rewrite set_right_eq by (live; by eapply rep_is_Some).
    unfold with_nodes, last_nodes. simpl. by rewrite Hx.
  - destruct (proj2 (rep_dom _ _ Hr q)) as [x Hx]; [lia|]. rewrite Hx. simpl.
    rewrite set_left_eq by (live; by eapply rep_is_Some).
    unfold with_nodes, last_nodes. simpl. by rewrite Hx.
Qed.

Lemma last_nodes_at h a P y r z : rep h a -> outside a y ->
  nodes h !! y = Some null_node -> Zpos P = nelts h + 1 ->
  <[P := y]> a !! r = Some z -> last_nodes h a P y !! z = Some (node_at (<[P := y]> a) r).
Proof.
  intros Hr Ho Hy HP. assert (forall p, Zpos P <= Zpos p -> a !! p = None) as Hnone
    by (intros; eapply rep_None; eauto; lia).
  rewrite lookup_insert_dec. case_decide as E; [intros [= <-]; subst r|intros Hz].
  - assert (upd (Some y) (wp (up P ≫= (a !!.))) (nodes h) !! y
            = Some (mk_node (up P ≫= (a !!.)) None None)) as Hmy
      by by rewrite lookup_upd, decide_True, Hy.
    assert (last_nodes h a P y !! y = Some (mk_node (up P ≫= (a !!.)) None None)) as ->.
    { unfold last_nodes. destruct P; rewrite ?upd_outside by done; done. }
    unfold node_at. f_equal. f_equal.
    + destruct P; simpl; rewrite ?lookup_insert_dec; pos_cases.
    + rewrite lookup_insert_dec, Hnone by lia. pos_cases.
    + rewrite lookup_insert_dec, Hnone by lia. pos_cases.
  - assert (upd (Some y) (wp (up P ≫= (a !!.))) (nodes h) !! z = Some (node_at a r)) as Hm.
    { rewrite lookup_upd, decide_False; [by apply (rep_node _ _ Hr)|].
      intros [= ->]. by apply (Ho r). }
    pose proof (rep_inj _ _ Hr) as Hinj. pose proof (Hnone P).
    assert (Zpos r <= nelts h) by (apply (rep_dom _ _ Hr); eauto).
    unfold last_nodes. destruct P as [q|q|]; [| |lia].
    + erewrite (see_wr a r z) by eauto. unfold node_at. f_equal.
      f_equal; [destruct r|..]; simpl; rewrite ?lookup_insert_dec; pos_cases.
    + erewrite (see_wl a r z) by eauto. unfold node_at. f_equal.
      f_equal; [destruct r|..]; simpl; rewrite ?lookup_insert_dec; pos_cases.
Qed.

Lemma link_last_rep h a P y : rep h a -> outside a y -> nodes h !! y = Some null_node ->
  Zpos P = nelts h + 1 ->
  exists h', link_last (set_nelts h (nelts h + 1)) (up P ≫= (a !!.)) (is_right P) y = Some h' /\
    rep h' (<[P := y]> a) /\ nelts h' = nelts h + 1 /\
    (forall z, z <> y -> outside a z -> nodes h' !! z = nodes h !! z).
Proof.
  intros Hr Ho Hy HP. eexists. split; [apply link_last_eq; [done|by rewrite Hy|done]|].
  split_and!; [|done|].
  - split; simpl.
    + done.
    + intros p. rewrite lookup_insert_dec. case_decide; [subst; split; eauto; lia|].
      rewrite (rep_dom _ _ Hr). lia.
    + eapply rep_outside_insert; eauto. lia.
    + intros p x. by apply last_nodes_at.
    + pose proof (rep_nelts _ _ Hr). lia.
  - intros z Hzy Hz. simpl. unfold last_nodes.
    destruct P; rewrite ?upd_outside by done; rewrite lookup_upd, decide_False; congruence.
Qed.

(** * Taking off the last position *)

Lemma lookup_delete_dec {A} (a : gmap positive A) p q :
  delete p a !! q = if decide (q = p) then None else a !! q.
Proof.
  case_decide; subst; [apply lookup_delete_eq|by apply lookup_delete_ne].
Qed.

Lemma unlink_last_rep h a P q x : rep h a -> Zpos P = nelts h -> up P = Some q ->
  a !! q = Some x ->
  exists h' y, unlink_last (set_nelts h (nelts h - 1)) x (is_right P) = Some (h', Some y) /\
    a !! P = Some y /\ rep h' (delete P a) /\ nelts h' = nelts h - 1 /\
    nodes h' !! y = Some (mk_node (Some x) None None) /\
    (forall z, outside a z -> nodes h' !! z = nodes h !! z).
Proof.
  intros Hr HP Hu Hq. pose proof (rep_inj _ _ Hr) as Hinj.
  assert (forall p, Zpos P < Zpos p -> a !! p = None) as Hnone
    by (intros; eapply rep_None; eauto; lia).
  destruct (proj2 (rep_dom _ _ Hr P)) as [y Hy]; [lia|].
  set (f := if is_right P =? 1 then wr None else wl None).
  assert (forall r z, a !! r = Some z -> upd (a !! q) f (nodes h) !! z
    = Some (mk_node (up r ≫= (a !!.)) (if decide (xO r = P) then None else a !! xO r)
                    (if decide (xI r = P) then None else a !! xI r))) as Hsee.
  { intros r z Hz. assert (nodes h !! z = Some (node_at a r)) as Hn by by apply (rep_node _ _ Hr).
    subst f. destruct P as [P|P|]; simplify_eq/=.
    - rewrite (see_wr a r z Hinj Hz _ _ _ _ _ _ Hn). f_equal. f_equal; pos_cases.
    - rewrite (see_wl a r z Hinj Hz _ _ _ _ _ _ Hn). f_equal. f_equal; pos_cases. }
  exists (mk_heap (root h) (nelts h - 1) (upd (a !! q) f (nodes h))), y. split_and!.
  - unfold unlink_last, get. cbn [set_nelts nodes]. rewrite (rep_node _ _ Hr _ _ Hq).
    subst f. rewrite Hq. destruct P as [P|P|]; simplify_eq/=.
    + rewrite set_right_eq by (live; by eapply rep_is_Some). simpl. by rewrite Hy.
    + rewrite set_left_eq by (live; by eapply rep_is_Some). simpl. by rewrite Hy.
  - done.
  - split; cbn [root nelts nodes].
    + rewrite lookup_delete_dec, (rep_root _ _ Hr). by rewrite decide_False by (intros <-; simplify_eq).
    + intros p. rewrite lookup_delete_dec. case_decide; subst.
      * split; [by intros [? ?]|lia].
      * rewrite (rep_dom _ _ Hr). lia.
    + intros p p' z. rewrite !lookup_delete_Some. intros [_ E] [_ E']; eauto.
    + intros r z. rewrite lookup_delete_Some. intros [Hne Hz]. rewrite (Hsee r z Hz).
      assert (Zpos r <= nelts h) by (apply (rep_dom _ _ Hr); eauto).
      unfold node_at. f_equal. f_equal; [destruct r|..]; simpl; rewrite ?lookup_delete_dec; pos_cases.
    + lia.
  - done.
  - cbn [nodes]. rewrite (Hsee P y Hy), Hu. simpl. rewrite Hq, !Hnone by lia. pos_cases.
  - intros z Hz. cbn [nodes]. by apply upd_outside.
Qed.

(** * Putting another node in the place of a member *)

Definition replaced_nodes (a : shape) (h : heap) (k : positive) (y : ptr) :=
  let m := upd (a !! xO k) (wp (Some y)) (nodes (relinked a h k (Some y))) in
  let m := upd (a !! xI k) (wp (Some y)) m in
  let m := upd (Some y) (wp (up k ≫= (a !!.))) m in
  upd (Some y) (wr (a !! xI k)) (upd (Some y) (wl (a !! xO k)) m).

Lemma upd_ne x y f m : x <> y -> upd (Some y) f m !! x = m !! x.
Proof. intros. rewrite lookup_upd, decide_False; congruence. Qed.

Lemma heap_replace_eq h a k x y : rep h a -> a !! k = Some x -> x <> y ->
  is_Some (nodes h !! y) ->
  heap_replace h x (Some y)
  = Some (mk_heap (root (relinked a h k (Some y))) (nelts h) (replaced_nodes a h k y)) /\
  replaced_nodes a h k y !! x = Some (node_at a k).
Proof.
  intros Hr Hk Hxy Hy. pose proof (rep_inj _ _ Hr) as Hinj.
  assert (nodes h !! x = Some (node_at a k)) as Hn by by apply (rep_node _ _ Hr).
  unfold replaced_nodes.
  set (h0 := relinked a h k (Some y)). set (m1 := upd (a !! xO k) _ _).
  set (m2 := upd (a !! xI k) _ _). set (m3 := upd (Some y) (wp _) _). 
  set (m4 := upd (Some y) (wl _) _).
  assert (nodes h0 !! x = Some (node_at a k)) as Hn0.
  { subst h0. rewrite (see_relinked a k x Hinj Hk h k _ _ _ _ Hn).
    rewrite !decide_False by lia. done. }
  assert (m1 !! x = Some (node_at a k)) as Hn1.
  { subst m1. rewrite (see_wp a k x Hinj Hk _ _ _ _ _ _ Hn0). by rewrite decide_False by lia. }
  assert (m2 !! x = Some (node_at a k)) as Hn2.
  { subst m2. rewrite (see_wp a k x Hinj Hk _ _ _ _ _ _ Hn1). by rewrite decide_False by lia. }
  assert (m3 !! x = Some (node_at a k)) as Hn3 by (subst m3; by rewrite upd_ne).
  assert (m4 !! x = Some (node_at a k)) as Hn4 by (subst m4; by rewrite upd_ne).
  split; [|by rewrite upd_ne].
  assert (forall p z, a !! p = Some z -> is_Some (nodes h0 !! z)) as Hin.
  { intros. apply relinked_is_Some. by eapply rep_is_Some. }
  assert (is_Some (nodes h0 !! y)) as Hy0 by by apply relinked_is_Some.
  unfold heap_replace, get. rewrite Hn. cbn [mbind option_bind].
  rewrite (relink_eq h a k x) by done. cbn [mbind option_bind]. fold h0. rewrite Hn0.
  cbn [mbind option_bind left right parent node_at]. link_step. fold m1. rewrite Hn1. cbn [mbind option_bind left right parent node_at].
  rewrite set_parent_if_eq by (intros; simpl in *; subst m1; live). cbn [mbind option_bind with_nodes nodes].
  fold m2. rewrite Hn2. cbn [mbind option_bind left right parent node_at].
  rewrite set_parent_eq by (subst m2 m1; live). cbn [mbind option_bind with_nodes nodes].
  fold m3. rewrite Hn3. cbn [mbind option_bind left right parent node_at].
  rewrite set_left_eq by (subst m3 m2 m1; live). cbn [mbind option_bind with_nodes nodes].
  fold m4. rewrite Hn4. cbn [mbind option_bind left right parent node_at].
  rewrite set_right_eq by (subst m4 m3 m2 m1; live). by destruct k.
Qed.

Lemma replaced_nodes_at h a k x y r z : rep h a -> a !! k = Some x -> outside a y ->
  is_Some (nodes h !! y) -> <[k := y]> a !! r = Some z ->
  replaced_nodes a h k y !! z = Some (node_at (<[k := y]> a) r).
Proof.
  intros Hr Hk Ho [n Hy]. pose proof (rep_inj _ _ Hr) as Hinj.
  unfold replaced_nodes. rewrite lookup_insert_dec. case_decide; [intros [= <-]; subst r|intros Hz].
  - rewrite !lookup_upd, !(decide_True (P := Some y = Some y)) by done.
    rewrite !decide_False by apply Ho. rewrite relinked_outside, Hy by done. simpl.
    unfold node_at, wl, wr, wp. simpl. f_equal. f_equal; [destruct k|..]; simpl; rewrite ?lookup_insert_dec; pos_cases.
  - assert (z <> y) by (intros ->; by apply (Ho r)). rewrite !upd_ne by done.
    erewrite see_wp; [|done|exact Hz|].
    2: { eapply see_wp, see_relinked, (rep_node _ _ Hr); done. }
    unfold node_at. f_equal. f_equal; [destruct r|..]; simpl; rewrite ?lookup_insert_dec; pos_cases.
Qed.

Lemma heap_replace_rep h a k x y : rep h a -> a !! k = Some x -> outside a y ->
  is_Some (nodes h !! y) ->
  exists h', heap_replace h x (Some y) = Some h' /\ rep h' (<[k := y]> a) /\
    nelts h' = nelts h /\ is_Some (nodes h' !! x) /\
    (forall z, z <> y -> outside a z -> nodes h' !! z = nodes h !! z).
Proof.
  intros Hr Hk Ho Hy. assert (x <> y) as Hxy by (intros ->; by apply (Ho k)).
  destruct (heap_replace_eq h a k x y Hr Hk Hxy Hy) as [-> Hx].
  eexists; split; [done|]. split_and!; [|done|by simpl; rewrite Hx|].
  - split; cbn [root nelts nodes].
    + rewrite lookup_insert_dec. destruct k; simpl; by rewrite <- ?(rep_root _ _ Hr).
    + intros p. rewrite lookup_insert_dec, <- (rep_dom _ _ Hr). case_decide; subst; [|done].
      rewrite Hk. split; eauto.
    + intros p q z. pose proof (rep_inj _ _ Hr). rewrite !lookup_insert_Some.
      intros [[-> ->]|[? E]] [[-> E']|[? E']]; simplify_eq; eauto; exfalso; eapply Ho; eauto.
    + intros p z. by eapply replaced_nodes_at.
    + apply (rep_nelts _ _ Hr).
  - intros z Hzy Hz. simpl. unfold replaced_nodes.
    rewrite !upd_ne, !upd_outside by done. by apply relinked_outside.
Qed.

(** Replacing an already unlinked leaf by itself changes nothing. *)
Lemma heap_replace_self h a q x y : rep h a -> a !! q = Some x -> outside a y ->
  nodes h !! y = Some (mk_node (Some x) None None) ->
  exists h', heap_replace h y (Some y) = Some h' /\ root h' = root h /\
    nelts h' = nelts h /\ forall z, nodes h' !! z = nodes h !! z.
Proof.
  intros Hr Hq Ho Hy. unfold heap_replace, get. rewrite Hy. simpl. unfold get.
  rewrite (rep_node _ _ Hr _ _ Hq). simpl.
  rewrite !bool_decide_false by apply Ho. simpl. repeat (rewrite Hy; simpl).
  rewrite set_parent_eq by done. simpl. rewrite lookup_upd, decide_True, Hy by done. simpl.
  rewrite set_left_eq by live. simpl. rewrite !lookup_upd, !(decide_True (P := Some y = Some y)), Hy by done. simpl.
  rewrite set_right_eq by live. eexists. split; [done|]. split_and!; [done..|].
  intros z. simpl. rewrite !lookup_upd. case_decide; [|done]. simplify_eq. by rewrite Hy.
Qed.

(** * Heap order and sifting *)

Definition members (a : shape) (x : ptr) : Prop := exists p, a !! p = Some x.

(** [compare] is a strict weak order. *)
Class StrictWeak (cmp : ptr -> ptr -> bool) : Prop := {
  sw_asym : forall x y, cmp x y = true -> cmp y x = false;
  sw_trans : forall x y z, cmp y x = false -> cmp z y = false -> cmp z x = false;
}.

Section Order.
Context (cmp : ptr -> ptr -> bool) {Hcmp : StrictWeak cmp}.

(** The member at [s] does not come after the one at [r]. *)
Definition le_at (a : shape) (s r : positive) : Prop :=
  forall x y, a !! s = Some x -> a !! r = Some y -> cmp y x = false.

Definition ordered (a : shape) : Prop := forall r s, up r = Some s -> le_at a s r.

(** Ordered away from [p]: every edge that does not touch [p], and the edges
    that would exist if [p] were skipped. *)
Definition ordered_but (a : shape) (p : positive) : Prop :=
  (forall r s, up r = Some s -> r <> p -> s <> p -> le_at a s r) /\
  (forall s c, up p = Some s -> up c = Some p -> le_at a s c).
Definition below_ok (a : shape) (p : positive) : Prop :=
  forall c, up c = Some p -> le_at a p c.

Lemma cmp_irrefl x : cmp x x = false.
Proof. destruct (cmp x x) eqn:E; [|done]. by rewrite (sw_asym _ _ E) in E. Qed.

Lemma ordered_intro a p : ordered_but a p -> below_ok a p ->
  (forall q, up p = Some q -> le_at a q p) -> ordered a.
Proof.
  intros [H1 H2] Hb Hu r s Hr. destruct (decide (r = p)) as [->|]; [by apply Hu|].
  destruct (decide (s = p)) as [->|]; [by apply Hb|by apply H1].
Qed.

Lemma members_swap a p q x y : a !! q = Some x -> a !! p = Some y ->
  forall z, members (swap_shape a p q x y) z <-> members a z.
Proof.
  intros Hq Hp z. unfold members. setoid_rewrite lookup_swap_shape. split.
  - intros [r E]. repeat case_decide; simplify_eq; eauto.
  - intros [r E]. destruct (decide (r = q)) as [->|]; simplify_eq.
    + exists p. by rewrite decide_True.
    + destruct (decide (r = p)) as [->|]; simplify_eq.
      * exists q. destruct (decide (q = p)); [done|]. by rewrite decide_True.
      * exists r. by rewrite !decide_False.
Qed.

(** Moving the member of [p] up past a larger parent. *)
Lemma swap_up_ordered a p q x y : up p = Some q -> a !! q = Some x -> a !! p = Some y ->
  cmp y x = true -> ordered_but a p -> below_ok a p ->
  ordered_but (swap_shape a p q x y) q /\ below_ok (swap_shape a p q x y) q.
Proof.
  intros Hu Hq Hp Hc [H1 H2] Hb. pose proof (up_lt _ _ Hu).
  assert (cmp x y = false) as Hxy by by apply sw_asym.
  unfold ordered_but, below_ok, le_at in *. setoid_rewrite lookup_swap_shape.
  split_and!.
  - intros r s Hrs Hr Hs u v. pose proof (up_lt _ _ Hrs). 
    destruct (decide (s = p)) as [->|].
    + intros [= <-]. rewrite !decide_False by lia. eauto.
    + rewrite (decide_False (P := s = q)) by done. destruct (decide (r = p)) as [->|]; [congruence|].
      rewrite decide_False by done. eauto.
  - intros s c Hs Hcq u v. pose proof (up_lt _ _ Hs). pose proof (up_lt _ _ Hcq).
    rewrite !(decide_False (P := s = _)) by lia. intros Hu'.
    rewrite (decide_False (P := c = q)) by lia. 
    assert (le_at a s q) as Hsq by (unfold le_at; intros ? ?; apply H1; [done|lia|lia]).
    case_decide.
    + intros [= <-]. eapply Hsq; eauto.
    + intros Hv. apply (sw_trans u x v); [by apply Hsq|]. eapply (H1 c q); eauto. lia.
  - intros c Hcq u v. pose proof (up_lt _ _ Hcq). rewrite (decide_False (P := q = p)) by lia.
    rewrite (decide_True (P := q = q)) by done. intros [= <-]. 
    rewrite (decide_False (P := c = q)) by lia. case_decide.
    + by intros [= <-].
    + intros Hv. apply (sw_trans y x v); [done|]. eapply (H1 c q); eauto. lia.
Qed.

(** Moving the member of [q] down past its least child [p]. *)
Lemma swap_down_ordered a p q x y : up p = Some q -> a !! q = Some x -> a !! p = Some y ->
  (forall c z, up c = Some q -> a !! c = Some z -> cmp z y = false) -> ordered_but a q ->
  ordered_but (swap_shape a p q x y) p.
Proof.
  intros Hu Hq Hp Hmin [H1 H2]. pose proof (up_lt _ _ Hu).
  unfold ordered_but, le_at in *. setoid_rewrite lookup_swap_shape. split.
  - intros r s Hrs Hr Hs u v. pose proof (up_lt _ _ Hrs).
    rewrite !(decide_False (P := _ = p)) by done. destruct (decide (s = q)) as [->|].
    + intros [= <-]. rewrite decide_False by lia. eauto.
    + destruct (decide (r = q)) as [->|]; [|by apply H1].
      intros ? [= <-]. eapply (H2 s p); eauto.
  - intros s c Hs Hc u v. pose proof (up_lt _ _ Hc). assert (s = q) as -> by congruence.
    rewrite (decide_False (P := q = p)) by lia. rewrite (decide_True (P := q = q)) by done.
    intros [= <-]. rewrite !(decide_False (P := c = _)) by lia. intros. 
    eapply (H1 c p); eauto; lia.
Qed.

(** The same members in the same store, but for the links of the members. *)
Definition moved (h h' : heap) (a a' : shape) : Prop :=
  rep h' a' /\ nelts h' = nelts h /\ (forall z, members a' z <-> members a z) /\
  (forall z, ~ members a z -> nodes h' !! z = nodes h !! z).

Lemma moved_trans h1 h2 h3 a1 a2 a3 :
  moved h1 h2 a1 a2 -> moved h2 h3 a2 a3 -> moved h1 h3 a1 a3.
Proof.
  intros (? & ? & Hm & Hf) (? & ? & Hm' & Hf'). split_and!; [done|congruence| |].
  - intros z. by rewrite Hm', Hm.
  - intros z Hz. rewrite Hf', Hf by (rewrite ?Hm; done). done.
Qed.

Lemma swap_moved h a p q x y : rep h a -> up p = Some q -> a !! q = Some x ->
  a !! p = Some y ->
  exists h', heap_swap h x y = Some h' /\ moved h h' a (swap_shape a p q x y).
Proof.
  intros Hr Hu Hq Hp. destruct (heap_swap_rep h a p q x y) as (h' & ? & ? & ? & Hf); [done..|].
  exists h'. split_and!; [done|]. split_and!; [done|done|by apply members_swap|].
  intros z Hz. apply Hf. intros r E. apply Hz. by exists r.
Qed.

Lemma sift_up_ok p : forall fuel h a y, (depth p <= fuel)%nat -> rep h a ->
  a !! p = Some y -> ordered_but a p -> below_ok a p ->
  exists h' a', sift_up fuel cmp h y = Some h' /\ moved h h' a a' /\ ordered a'.
Proof.
  assert (forall q, (forall fuel h a y, (depth q <= fuel)%nat -> rep h a ->
    a !! q = Some y -> ordered_but a q -> below_ok a q ->
    exists h' a', sift_up fuel cmp h y = Some h' /\ moved h h' a a' /\ ordered a') ->
    forall p, up p = Some q -> forall fuel h a y, (S (depth q) <= fuel)%nat -> rep h a ->
    a !! p = Some y -> ordered_but a p -> below_ok a p ->
    exists h' a', sift_up fuel cmp h y = Some h' /\ moved h h' a a' /\ ordered a') as Hstep.
  { intros q IH p' Hu fuel h a y Hf Hr Hp Ho Hb. destruct fuel as [|fuel]; [lia|].
    destruct (rep_up h a p' q y) as [x Hx]; [done..|].
    cbn [sift_up]. unfold get. rewrite (rep_node _ _ Hr _ _ Hp). cbn [mbind option_bind node_at parent].
    rewrite Hu. cbn [mbind option_bind]. rewrite Hx. destruct (cmp y x) eqn:Ec.
    - destruct (swap_moved h a p' q x y) as (h1 & -> & Hm); [done..|]. cbn [mbind option_bind].
      destruct (swap_up_ordered a p' q x y) as [Ho' Hb']; [done..|].
      destruct (IH fuel h1 (swap_shape a p' q x y) y) as (h2 & a2 & Hs & Hm2 & Ho2);
        [lia|apply Hm| |done|done|].
      { rewrite lookup_swap_shape. pose proof (up_lt _ _ Hu). rewrite decide_False by lia.
        by rewrite decide_True. }
      exists h2, a2. split_and!; [done|by eapply moved_trans|done].
    - exists h, a. split_and!; [done|done|].
      apply (ordered_intro a p'); [done|done|]. intros q' Hq' u v Hu' Hv'. by simplify_eq. }
  induction p as [p IH|p IH|]; intros fuel h a y Hf.
  - by apply (Hstep p IH).
  - by apply (Hstep p IH).
  - intros Hr Hp Ho Hb. exists h, a. split_and!; [|done|by apply (ordered_intro a 1)].
    destruct fuel; simpl; unfold get; by rewrite (rep_node _ _ Hr _ _ Hp).
Qed.

(** The children of a position, one by one. *)
Lemma children_of (a : shape) q (Q : ptr -> Prop) :
  (forall c z, up c = Some q -> a !! c = Some z -> Q z) <->
  (forall z, a !! xO q = Some z -> Q z) /\ (forall z, a !! xI q = Some z -> Q z).
Proof.
  split; [intros H; split; intros z; by apply H|].
  intros [Hl Hr] c z Hc. destruct c; simplify_eq/=; eauto.
Qed.

(** The least of [v] and its children, as the loop picks it. *)
Lemma pick_spec a q v : a !! q = Some v ->
  let est := pick cmp (pick cmp v (a !! xO q)) (a !! xI q) in
  (est = v /\ below_ok a q) \/
  exists p, up p = Some q /\ a !! p = Some est /\
    (forall c z, up c = Some q -> a !! c = Some z -> cmp z est = false).
Proof.
  intros Hq est.
  assert ((est = v \/ a !! xO q = Some est \/ a !! xI q = Some est) /\
    (forall c z, up c = Some q -> a !! c = Some z -> cmp z est = false)) as [Hest Hmin].
  { rewrite children_of. subst est. unfold pick.
    destruct (a !! xO q) as [l|], (a !! xI q) as [r|];
      repeat match goal with |- context [if cmp ?x ?y then _ else _] =>
        is_var x; is_var y; destruct (cmp x y) eqn:? end;
      split_and!; intros; simplify_eq; eauto 3 using sw_asym, cmp_irrefl.
    apply (sw_trans _ v); auto using sw_asym. }
  destruct Hest as [->|[E|E]].
  - left. split; [done|]. intros c Hc u w Hu Hw. simplify_eq. eauto.
  - right. by exists (xO q).
  - right. by exists (xI q).
Qed.

Lemma sift_down_ok fuel : forall q h a v, nelts h - Zpos q < Z.of_nat fuel -> rep h a ->
  a !! q = Some v -> ordered_but a q ->
  exists h' a' q', sift_down fuel cmp h v = Some h' /\ moved h h' a a' /\
    a' !! q' = Some v /\ ordered_but a' q' /\ below_ok a' q'.
Proof.
  induction fuel as [|fuel IH]; intros q h a v Hf Hr Hq Ho.
  { assert (Zpos q <= nelts h) by (apply (rep_dom _ _ Hr); eauto). lia. }
  cbn [sift_down]. unfold get. rewrite (rep_node _ _ Hr _ _ Hq). cbn [mbind option_bind node_at left right].
  destruct (pick_spec a q v Hq) as [[-> Hb]|(p & Hu & Hp & Hmin)].
  { rewrite Z.eqb_refl. exists h, a, q. done. }
  set (est := pick _ _ _) in *. pose proof (up_lt _ _ Hu).
  destruct (Z.eqb_spec est v) as [E|Hne].
  { rewrite E in Hp. pose proof (rep_inj _ _ Hr _ _ _ Hp Hq). lia. }
  destruct (swap_moved h a p q v est) as (h1 & -> & Hm); [done..|]. cbn [mbind option_bind].
  destruct (IH p h1 (swap_shape a p q v est) v) as (h2 & a2 & q2 & ? & Hm2 & ?).
  - destruct Hm as (_ & -> & _). lia.
  - apply Hm.
  - rewrite lookup_swap_shape. by rewrite decide_True.
  - by apply swap_down_ordered.
  - exists h2, a2, q2. split_and!; [done|by eapply moved_trans|tauto..].
Qed.

End Order.

(** * The heap as a priority set *)

(** [h] is a well-formed heap of exactly the members [X]. *)
Definition heap_ok (cmp : ptr -> ptr -> bool) (h : heap) (X : gset ptr) : Prop :=
  nelts h = Z.of_nat (size X) /\
  exists a, rep h a /\ ordered cmp a /\ forall x, x ∈ X <-> members a x.

Lemma depth_lt_pos p : (depth p < Pos.to_nat p)%nat.
Proof. induction p; cbn [depth]; lia. Qed.

Lemma outside_members (a : shape) z : outside a z <-> ~ members a z.
Proof. unfold outside, members. naive_solver. Qed.

Lemma members_insert (a : shape) P y z : a !! P = None ->
  members (<[P := y]> a) z <-> z = y \/ members a z.
Proof.
  intros HP. split.
  - intros [p E]. apply lookup_insert_Some in E as [[-> ->]|[? E]]; [by left|right; by exists p].
  - intros [->|[p E]]; [exists P; apply lookup_insert_eq|].
    exists p. rewrite lookup_insert_ne; [done|]. intros ->. congruence.
Qed.

Lemma rep_ext h h' a : rep h a -> root h' = root h -> nelts h' = nelts h ->
  (forall z, members a z -> nodes h' !! z = nodes h !! z) -> rep h' a.
Proof.
  intros [] E1 E2 Hn. split; rewrite ?E1, ?E2; try done.
  intros p x Hp. rewrite Hn; [auto|]. by exists p.
Qed.

Lemma clear_links_eq h x : is_Some (nodes h !! x) ->
  exists h', clear_links h x = Some h' /\ root h' = root h /\ nelts h' = nelts h /\
    nodes h' !! x = Some null_node /\ forall z, z <> x -> nodes h' !! z = nodes h !! z.
Proof.
  intros [n Hn]. unfold clear_links. do 3 link_step. eexists. split_and!; [done..| |].
  - simpl. rewrite !lookup_upd, !(decide_True (P := Some x = Some x)), Hn by done. done.
  - intros z Hz. simpl. by rewrite !upd_ne.
Qed.

Lemma rep_empty h a : rep h a -> nelts h = 0 -> forall p, a !! p = None.
Proof. intros Hr Hn p. eapply rep_None; [done|lia]. Qed.

Lemma walk_to_last h h' a P : rep h a -> root h' = root h -> nodes h' = nodes h ->
  Zpos P <= nelts h + 1 ->
  walk h' (depth P) (root h') (rpath P 0)
  = Some (match up P with Some q => a !! q | None => a !! 1%positive end, is_right P).
Proof.
  intros Hr E1 E2 HP. destruct (up P) as [q|] eqn:Hu.
  - rewrite (walk_last h h' a P q); [done..|]. pose proof (rep_nelts _ _ Hr).
    destruct P; simplify_eq/=; lia.
  - destruct P; simplify_eq/=. by rewrite E1, (rep_root _ _ Hr).
Qed.

Lemma init_ok cmp m : heap_ok cmp (heap_init m) ∅.
Proof.
  split; [done|]. exists ∅. split_and!.
  - split; simpl; try done. intros p. rewrite lookup_empty. split; [by intros []|lia].
  - intros r s _ u v. by rewrite lookup_empty.
  - intros x. split; [set_solver|]. intros [p E]. by rewrite lookup_empty in E.
Qed.

Section Spec.
Context (cmp : ptr -> ptr -> bool) {Hcmp : StrictWeak cmp}.

(** What an operation leaves alone: the nodes outside [Y]. *)
Definition frame (h h' : heap) (Y : gset ptr) : Prop :=
  forall z, z ∉ Y -> nodes h' !! z = nodes h !! z.

Lemma insert_ok h X x : heap_ok cmp h X -> x ∉ X -> nodes h !! x = Some null_node ->
  nelts h + 1 < 2 ^ 31 ->
  exists h', heap_insert (Some cmp) h x = Some h' /\ heap_ok cmp h' ({[x]} ∪ X) /\
    nelts h' = nelts h + 1 /\ frame h h' ({[x]} ∪ X).
Proof.
  intros (Hsz & a & Hr & Ho & HX) Hx Hn Hb. pose proof (rep_nelts _ _ Hr).
  assert (outside a x) as Hout by (rewrite outside_members, <- HX; done).
  destruct (nelts h + 1) as [|P|] eqn:EP; [lia| |lia].
  assert (a !! P = None) as HP by (eapply rep_None; eauto; lia).
  assert (forall p, Zpos P < Zpos p -> a !! p = None) as Hnone by (intros; eapply rep_None; eauto; lia).
  destruct (link_last_rep h a P x) as (h1 & Hl & Hr1 & Hn1 & Hf1); [done..|].
  destruct (sift_up_ok cmp P (Z.to_nat (nelts h1)) h1 (<[P := x]> a) x) as (h2 & a2 & Hs & Hm & Ho2).
  - pose proof (depth_lt_pos P). lia.
  - done.
  - apply lookup_insert_eq.
  - split.
    + intros r s Hu Hrp Hsp u v. rewrite !lookup_insert_ne by done. by apply Ho.
    + intros s c Hu Hc u v _. rewrite lookup_insert_ne, Hnone; [done| |];
      apply up_lt in Hc; lia.
  - intros c Hc u v _. rewrite lookup_insert_ne, Hnone; [done| |]; apply up_lt in Hc; lia.
  - destruct Hm as (Hr2 & Hn2 & Hm2 & Hf2).
    exists h2. split_and!.
    + unfold heap_insert. cbn [set_nelts nelts root]. rewrite EP.
      rewrite last_path_pos by lia. cbn [mbind option_bind].
      pose proof (walk_to_last h (set_nelts h (Zpos P)) a P Hr eq_refl eq_refl ltac:(lia)) as Hw.
      cbn [set_nelts root] in Hw. rewrite Hw. cbn [mbind option_bind].
      replace (match up P with Some q => a !! q | None => a !! 1%positive end)
        with (up P ≫= (a !!.)) by (destruct P; simpl; done).
      rewrite EP in Hl. rewrite Hl. cbn [mbind option_bind]. done.
    + split; [rewrite size_union, size_singleton by set_solver; lia|].
      exists a2. split_and!; [done|done|]. intros z. rewrite Hm2, members_insert by done. 
      rewrite elem_of_union, elem_of_singleton, HX. done.
    + lia.
    + intros z Hz. rewrite Hf2, Hf1; [done|set_solver| |].
      * rewrite outside_members, <- HX. set_solver.
      * rewrite members_insert, <- HX by done. set_solver.
Qed.

Lemma members_delete (a : shape) P y z :
  (forall p q x, a !! p = Some x -> a !! q = Some x -> p = q) -> a !! P = Some y ->
  members (delete P a) z <-> members a z /\ z <> y.
Proof.
  intros Hinj HP. split.
  - intros [p E]. apply lookup_delete_Some in E as [Hne E]. split; [by exists p|].
    intros ->. eauto.
  - intros [[p E] Hz]. exists p. rewrite lookup_delete_ne; [done|]. intros ->. congruence.
Qed.

Lemma members_replace (a : shape) k x y z :
  (forall p q x, a !! p = Some x -> a !! q = Some x -> p = q) -> a !! k = Some x ->
  members (<[k := y]> a) z <-> z = y \/ members a z /\ z <> x.
Proof.
  intros Hinj Hk. split.
  - intros [p E]. apply lookup_insert_Some in E as [[-> ->]|[Hne E]]; [by left|].
    right. split; [by exists p|]. intros ->. eauto.
  - intros [->|[[p E] Hz]]; [exists k; apply lookup_insert_eq|].
    exists p. rewrite lookup_insert_ne; [done|]. intros ->. congruence.
Qed.

Lemma ordered_delete a P : ordered cmp a -> ordered cmp (delete P a).
Proof.
  intros Ho r s Hu x y Hx Hy. apply lookup_delete_Some in Hx as [_ Hx], Hy as [_ Hy].
  by apply (Ho r s Hu).
Qed.

(** Any member put at [k] of an ordered heap leaves it ordered away from [k]. *)
Lemma ordered_but_replace a k y : (forall p q, a !! p <> None -> up p = Some q -> a !! q <> None) ->
  ordered cmp a -> ordered_but cmp (<[k := y]> a) k.
Proof.
  intros Hup Ho. split.
  - intros r s Hu Hr Hs u v. rewrite !lookup_insert_ne by done. by apply Ho.
  - intros s c Hs Hc u v. pose proof (up_lt _ _ Hs). pose proof (up_lt _ _ Hc).
    rewrite !lookup_insert_ne by lia. intros Hu Hv.
    destruct (a !! k) as [w|] eqn:Ek; [|by exfalso; apply (Hup c k); congruence].
    apply (sw_trans u w v); [by apply (Ho k s)|by apply (Ho c k)].
Qed.

(** The sifting phase of a removal. *)
Lemma resift_ok h a k y : rep h a -> a !! k = Some y -> ordered_but cmp a k ->
  exists h' a', (h ← sift_down (Z.to_nat (nelts h)) cmp h y;
    sift_up (Z.to_nat (nelts h)) cmp h y) = Some h' /\ moved h h' a a' /\ ordered cmp a'.
Proof.
  intros Hr Hk Ho. destruct (sift_down_ok cmp (Z.to_nat (nelts h)) k h a y)
    as (h1 & a1 & k1 & -> & Hm1 & Hk1 & Ho1 & Hb1); [lia|done..|]. cbn [mbind option_bind].
  pose proof Hm1 as (Hr1 & Hn1 & _).
  assert (Zpos k1 <= nelts h1) by (apply (rep_dom _ _ Hr1); eauto).
  destruct (sift_up_ok cmp k1 (Z.to_nat (nelts h1)) h1 a1 y) as (h2 & a2 & ? & Hm2 & ?); [|done..|].
  - pose proof (depth_lt_pos k1). lia.
  - exists h2, a2. split_and!; [done|by eapply moved_trans|done].
Qed.

(** From the unlinked last node [y] on: when it is the removed node itself... *)
Lemma remove_tail_self h a q u y : rep h a -> ordered cmp a -> a !! q = Some u ->
  outside a y -> nodes h !! y = Some (mk_node (Some u) None None) ->
  exists h', (h ← heap_replace h y (Some y); h ← clear_links h y;
     h ← sift_down (Z.to_nat (nelts h)) cmp h y;
     sift_up (Z.to_nat (nelts h)) cmp h y) = Some h' /\
   rep h' a /\ nelts h' = nelts h /\ nodes h' !! y = Some null_node /\
   forall z, z <> y -> nodes h' !! z = nodes h !! z.
Proof.
  intros Hr Ho Hq Hout Hy.
  destruct (heap_replace_self h a q u y) as (h1 & -> & E1 & E2 & E3); [done..|]. cbn [mbind option_bind].
  destruct (clear_links_eq h1 y) as (h2 & -> & F1 & F2 & F3 & F4); [by rewrite E3, Hy|].
  cbn [mbind option_bind].
  assert (sift_down (Z.to_nat (nelts h2)) cmp h2 y = Some h2) as ->.
  { destruct (Z.to_nat (nelts h2)); simpl; unfold get; rewrite F3; simpl; by rewrite Z.eqb_refl. }
  cbn [mbind option_bind]. exists h2. split_and!; [|eapply rep_ext; eauto|congruence|done|].
  - destruct (Z.to_nat (nelts h2)); simpl; unfold get; by rewrite F3.
  - congruence.
  - congruence.
  - intros z Hz. rewrite F4, E3; [done|]. intros ->. by apply outside_members in Hout.
  - intros z Hz. by rewrite F4, E3.
Qed.

(** ... and when it takes the place of another member [x]. *)
Lemma remove_tail_other h a k x y : rep h a -> ordered cmp a -> a !! k = Some x ->
  outside a y -> is_Some (nodes h !! y) ->
  exists h' a', (h ← heap_replace h x (Some y); h ← clear_links h x;
     h ← sift_down (Z.to_nat (nelts h)) cmp h y;
     sift_up (Z.to_nat (nelts h)) cmp h y) = Some h' /\
   rep h' a' /\ ordered cmp a' /\ nelts h' = nelts h /\ nodes h' !! x = Some null_node /\
   (forall z, members a' z <-> z = y \/ members a z /\ z <> x) /\
   forall z, ~ members a z -> z <> y -> nodes h' !! z = nodes h !! z.
Proof.
  intros Hr Ho Hk Hout Hy. pose proof (rep_inj _ _ Hr) as Hinj.
  assert (x <> y) as Hxy by (intros ->; by apply (Hout k)).
  destruct (heap_replace_rep h a k x y) as (h1 & -> & Hr1 & En1 & Hx1 & Hf1); [done..|].
  cbn [mbind option_bind].
  destruct (clear_links_eq h1 x) as (h2 & -> & F1 & F2 & F3 & F4); [done|]. cbn [mbind option_bind].
  assert (forall z, members (<[k := y]> a) z <-> z = y \/ members a z /\ z <> x) as Hm
    by (intros; by apply members_replace).
  assert (rep h2 (<[k := y]> a)) as Hr2.
  { eapply rep_ext; eauto. intros z Hz. apply F4. intros ->. apply Hm in Hz. naive_solver. }
  destruct (resift_ok h2 (<[k := y]> a) k y) as (h3 & a3 & -> & (Hr3 & En3 & Hm3 & Hf3) & Ho3);
    [done|apply lookup_insert_eq| |].
  { apply ordered_but_replace; [|done]. intros p q Hp Hu E. destruct (a !! p) eqn:Ep; [|done].
    destruct (rep_up h a p q _ Hr Hu Ep). congruence. }
  exists h3, a3. split_and!; [done|done|done|congruence| | |].
  - rewrite Hf3; [done|]. rewrite Hm. naive_solver.
  - intros z. by rewrite Hm3, Hm.
  - intros z Hz Hzy. assert (z <> x) by (intros ->; apply Hz; by exists k).
    rewrite Hf3, F4, Hf1; [done|done|by rewrite outside_members|done|]. rewrite Hm. naive_solver.
Qed.

Lemma remove_single h X x : heap_ok cmp h X -> x ∈ X -> nelts h = 1 ->
  exists h', heap_remove (Some cmp) h x = Some h' /\ heap_ok cmp h' (X ∖ {[x]}) /\
    nelts h' = nelts h - 1 /\ nodes h' !! x = Some null_node /\ frame h h' X.
Proof.
  intros (_ & a & Hr & Ho & HX) Hx Hn.
  assert (forall p z, a !! p = Some z -> p = xH) as Hone.
  { intros p z Hp. assert (Zpos p <= nelts h) by (apply (rep_dom _ _ Hr); eauto). lia. }
  apply HX in Hx as Hm. destruct Hm as [p Hp]. rewrite (Hone _ _ Hp) in Hp.
  assert (nodes h !! x = Some null_node) as Hnx.
  { rewrite (rep_node _ _ Hr _ _ Hp). unfold node_at. simpl.
    rewrite !(rep_None h a _ Hr) by lia. done. }
  assert (X = {[x]}) as ->.
  { apply set_eq. intros z. rewrite HX, elem_of_singleton. split.
    - intros [q Hq]. rewrite (Hone _ _ Hq) in Hq. congruence.
    - intros ->. by exists xH. }
  unfold heap_remove. rewrite Hn. simpl. rewrite (rep_root _ _ Hr), Hp. simpl.
  unfold unlink_last, get. simpl. rewrite Hnx. simpl. rewrite set_left_eq by (simpl; by rewrite Hnx).
  simpl. rewrite (rep_root _ _ Hr), Hp, bool_decide_true by done.
  eexists. split_and!; [done| |done| |].
  - rewrite difference_diag_L. split; [done|]. exists ∅. split_and!.
    + split; simpl; try done. intros q. rewrite lookup_empty. split; [by intros []|lia].
    + intros r s _ u v. by rewrite lookup_empty.
    + intros z. split; [set_solver|]. intros [q E]. by rewrite lookup_empty in E.
  - simpl. rewrite lookup_upd, decide_True, Hnx by done. done.
  - intros z Hz. simpl. rewrite upd_ne; [done|set_solver].
Qed.

Lemma remove_ok h X x : heap_ok cmp h X -> x ∈ X -> nelts h < 2 ^ 31 ->
  exists h', heap_remove (Some cmp) h x = Some h' /\ heap_ok cmp h' (X ∖ {[x]}) /\
    nelts h' = nelts h - 1 /\ nodes h' !! x = Some null_node /\ frame h h' X.
Proof.
  intros Hok Hx Hb. destruct (decide (nelts h = 1)); [by apply remove_single|].
  destruct Hok as (Hsz & a & Hr & Ho & HX). apply HX in Hx as Hm. destruct Hm as [k Hk].
  assert (Zpos k <= nelts h) by (apply (rep_dom _ _ Hr); eauto).
  assert (Z.of_nat (size (X ∖ {[x]})) = nelts h - 1) as Hsz'.
  { rewrite size_difference, size_singleton by set_solver.
    assert (size X <> 0%nat) by (intros E; apply size_empty_inv in E; set_solver). lia. }
  destruct (nelts h) as [|P|] eqn:EP; [lia| |lia].
  destruct (up P) as [q|] eqn:Hu; [|by destruct P].
  destruct (proj2 (rep_dom _ _ Hr q)) as [u Hq]; [apply up_lt in Hu; lia|].
  destruct (unlink_last_rep h a P q u) as (h1 & y & Hul & HP & Hr1 & En1 & Hy & Hf1); [done..|].
  assert (heap_remove (Some cmp) h x = (h ← heap_replace h1 x (Some y); h ← clear_links h x;
     h ← sift_down (Z.to_nat (nelts h)) cmp h y;
     sift_up (Z.to_nat (nelts h)) cmp h y)) as ->.
  { unfold heap_remove. rewrite EP. cbn [Z.eqb]. rewrite last_path_pos by lia.
    cbn [mbind option_bind].
    pose proof (walk_to_last h (set_nelts h (Zpos P - 1)) a P Hr eq_refl eq_refl ltac:(lia)) as Hw.
    rewrite Hw, Hu, Hq. cbn [mbind option_bind]. rewrite EP in Hul. by rewrite Hul. }
  pose proof (rep_inj _ _ Hr) as Hinj. pose proof (ordered_delete a P Ho) as Ho1.
  assert (forall z, members (delete P a) z <-> members a z /\ z <> y) as Hmd
    by (intros; by apply members_delete).
  assert (outside (delete P a) y) as Hout by (rewrite outside_members, Hmd; naive_solver).
  destruct (decide (x = y)) as [->|Hxy].
  - destruct (remove_tail_self h1 (delete P a) q u y) as (h' & -> & Hr' & En & Hny & Hf); [done|done| |done|done|].
    { rewrite lookup_delete_ne; [done|]. apply up_lt in Hu. lia. }
    exists h'. split_and!; [done| |lia|done|].
    + split; [lia|]. exists (delete P a). split_and!; [done|done|]. intros z. rewrite Hmd, <- HX. set_solver.
    + intros z Hz. rewrite Hf, Hf1; [done|by rewrite outside_members, <- HX|]. intros ->. done.
  - destruct (remove_tail_other h1 (delete P a) k x y) as (h' & a' & -> & Hr' & Ho' & En & Hnx & Hm' & Hf);
      [done|done| |done|by rewrite Hy|].
    { rewrite lookup_delete_ne; [done|]. intros ->. congruence. }
    exists h'. split_and!; [done| |lia|done|].
    + split; [lia|]. exists a'. split_and!; [done|done|]. intros z. rewrite Hm', Hmd, elem_of_difference, elem_of_singleton, HX.
      assert (members a y) by by exists P.
      destruct (decide (z = y)) as [->|]; [|tauto]. split; [by left|].
      intros _. split; [done|congruence].
    + intros z Hz. rewrite HX in Hz. rewrite Hf, Hf1; [done|by rewrite outside_members| |].
      * rewrite Hmd. tauto.
      * intros ->. apply Hz. by exists P.
Qed.

Lemma least_at_root a : ordered cmp a -> (forall p x q, a !! p = Some x -> up p = Some q -> is_Some (a !! q)) ->
  forall p x r, a !! p = Some x -> a !! xH = Some r -> cmp x r = false.
Proof.
  intros Ho Hup p. assert (forall q, (forall x r, a !! q = Some x -> a !! xH = Some r -> cmp x r = false) ->
    forall p x r, up p = Some q -> a !! p = Some x -> a !! xH = Some r -> cmp x r = false) as Hstep.
  { intros q IH p' x r Hu Hp Hr. destruct (Hup p' x q) as [w Hw]; [done..|].
    apply (sw_trans r w x); [by apply IH|by apply (Ho p' q)]. }
  induction p as [p IH|p IH|]; intros x r Hp Hr; [by apply (Hstep p IH (xI p))|by apply (Hstep p IH (xO p))|].
  simplify_eq. by apply (cmp_irrefl cmp).
Qed.

Lemma root_ok h X : heap_ok cmp h X ->
  match root h with
  | None => X = ∅ /\ nelts h = 0
  | Some r => r ∈ X /\ 0 < nelts h /\ forall x, x ∈ X -> cmp x r = false
  end.
Proof.
  intros (_ & a & Hr & Ho & HX). rewrite (rep_root _ _ Hr). pose proof (rep_nelts _ _ Hr).
  destruct (a !! xH) as [r|] eqn:E.
  - split_and!; [apply HX; by exists xH| |].
    + assert (1 <= nelts h) by (apply (rep_dom _ _ Hr); eauto). lia.
    + intros x Hx. apply HX in Hx as [p Hp]. eapply least_at_root; eauto.
      intros ? ? ? ? ?. by eapply rep_up.
  - assert (nelts h = 0) as Hn.
    { destruct (decide (nelts h = 0)); [done|]. assert (is_Some (a !! xH)) as [? ?]; [|congruence].
      apply (rep_dom _ _ Hr). lia. }
    split; [|done]. apply set_eq. intros x. rewrite HX. split; [|set_solver].
    intros [p Hp]. by rewrite (rep_empty h a Hr Hn) in Hp.
Qed.

End Spec.

(** Changing the keys of nodes outside the heap does not disturb it. *)
Lemma heap_ok_ext cmp cmp' h X : heap_ok cmp h X ->
  (forall x y, x ∈ X -> y ∈ X -> cmp x y = cmp' x y) -> heap_ok cmp' h X.
Proof.
  intros (Hsz & a & Hr & Ho & HX) E. split; [done|]. exists a. split_and!; [done| |done].
  intros r s Hu x y Hx Hy. rewrite <- E by (apply HX; by eexists). by apply (Ho r s Hu).
Qed.

(** Changing nodes outside the heap does not disturb it. *)
Lemma heap_ok_frame cmp h m X : heap_ok cmp h X ->
  (forall x, x ∈ X -> m !! x = nodes h !! x) -> heap_ok cmp (with_nodes h m) X.
Proof.
  intros (Hsz & a & Hr & Ho & HX) E. split; [done|]. exists a. split_and!; [|done|done].
  apply (rep_ext h); [done|done|done|]. intros z Hz. apply E. by apply HX.
Qed.

(** The order by an integer key, as [timers_compare] has it. *)
Definition key_lt (key : ptr -> Z) (x y : ptr) : bool := key x <? key y.
#[export] Instance key_lt_StrictWeak key : StrictWeak (key_lt key).
Proof. split; unfold key_lt; intros *; rewrite ?Z.ltb_lt, ?Z.ltb_ge; lia. Qed.

(** * Interface *)

(** What the event loop needs of its timer heaps. *)
Class TimerHeap (H : Type) := {
  (** The heap's own operations, [th_alloc] and [th_free] giving and taking the
      zeroed node that is part of a timer. *)
  th_root : H -> option ptr;
  th_insert : (ptr -> ptr -> bool) -> H -> ptr -> option H;
  th_remove : (ptr -> ptr -> bool) -> H -> ptr -> option H;
  th_init : H;
  th_alloc : H -> ptr -> H;
  th_free : H -> ptr -> H;
  th_ok : (ptr -> ptr -> bool) -> H -> gset ptr -> Prop;
  th_detached : H -> ptr -> Prop;
}.

Class TimerHeapLaws (H : Type) `{TimerHeap H} : Prop := {
  th_root_ok : forall cmp `{!StrictWeak cmp} h X, th_ok cmp h X ->
    match th_root h with
    | None => X = ∅
    | Some r => r ∈ X /\ forall x, x ∈ X -> cmp x r = false
    end;
  th_insert_ok : forall cmp `{!StrictWeak cmp} h X x, th_ok cmp h X -> x ∉ X ->
    th_detached h x -> Z.of_nat (size X) + 1 < 2 ^ 31 ->
    exists h', th_insert cmp h x = Some h' /\ th_ok cmp h' ({[x]} ∪ X) /\
      (forall z, z <> x -> z ∉ X -> th_detached h z -> th_detached h' z);
  th_remove_ok : forall cmp `{!StrictWeak cmp} h X x, th_ok cmp h X -> x ∈ X ->
    Z.of_nat (size X) < 2 ^ 31 ->
    exists h', th_remove cmp h x = Some h' /\ th_ok cmp h' (X ∖ {[x]}) /\
      th_detached h' x /\ (forall z, z ∉ X -> th_detached h z -> th_detached h' z);
  th_init_ok : forall cmp, th_ok cmp th_init ∅;
  th_alloc_ok : forall cmp h X x, th_ok cmp h X -> x ∉ X ->
    th_ok cmp (th_alloc h x) X /\ th_detached (th_alloc h x) x /\
    (forall z, th_detached h z -> th_detached (th_alloc h x) z);
  th_free_ok : forall cmp h X x, th_ok cmp h X -> x ∉ X ->
    th_ok cmp (th_free h x) X /\
    (forall z, z <> x -> th_detached h z -> th_detached (th_free h x) z);
  th_ok_ext : forall cmp cmp' h X, th_ok cmp h X ->
    (forall x y, x ∈ X -> y ∈ X -> cmp x y = cmp' x y) -> th_ok cmp' h X;
}.

#[export] Instance heap_TimerHeap : TimerHeap heap := {
  th_root := root;
  th_insert := fun cmp => heap_insert (Some cmp);
  th_remove := fun cmp => heap_remove (Some cmp);
  th_init := heap_init ∅;
  th_alloc := fun h x => with_nodes h (<[x := null_node]> (nodes h));
  th_free := fun h x => with_nodes h (delete x (nodes h));
  th_ok := heap_ok;
  th_detached := fun h x => nodes h !! x = Some null_node;
}.

#[export] Instance heap_TimerHeapLaws : TimerHeapLaws heap.
Proof.
  split; simpl.
  - intros cmp ? h X Hok. pose proof (root_ok cmp h X Hok). destruct (root h); tauto.
  - intros cmp ? h X x Hok Hx Hd Hb. pose proof Hok as [Hsz _].
    destruct (insert_ok cmp h X x) as (h' & ? & ? & ? & Hf); [done..|lia|].
    exists h'. split_and!; [done..|]. intros z ? ? ?. rewrite Hf; [done|set_solver].
  - intros cmp ? h X x Hok Hx Hb. pose proof Hok as [Hsz _].
    destruct (remove_ok cmp h X x) as (h' & ? & ? & ? & ? & Hf); [done..|lia|].
    exists h'. split_and!; [done..|]. intros z ? ?. by rewrite Hf.
  - intros cmp. apply (init_ok cmp ∅).
  - intros cmp h X x Hok Hx. split_and!.
    + apply heap_ok_frame; [done|]. intros z Hz. apply lookup_insert_ne. set_solver.
    + apply lookup_insert_eq.
    + intros z Hz. destruct (decide (z = x)) as [->|]; [apply lookup_insert_eq|].
      by rewrite lookup_insert_ne.
  - intros cmp h X x Hok Hx. split.
    + apply heap_ok_frame; [done|]. intros z Hz. apply lookup_delete_ne. set_solver.
    + intros z Hne Hz. by rewrite lookup_delete_ne.
  - apply heap_ok_ext.
Qed.

(** * Properties *)

(** C11. heap_insert, given a detached node, always completes (its path walk and
    its sift-up loop end and never follow a NULL link) and yields a complete,
    ordered heap of the old members and the node; it changes no other node. *)
Theorem heap_insert_correct cmp h X x : StrictWeak cmp -> heap_ok cmp h X -> x ∉ X ->
  nodes h !! x = Some null_node -> nelts h + 1 < 2 ^ 31 ->
  exists h', heap_insert (Some cmp) h x = Some h' /\ heap_ok cmp h' ({[x]} ∪ X) /\
    nelts h' = nelts h + 1 /\ frame h h' ({[x]} ∪ X).
Proof. intros. by apply insert_ok. Qed.

Lemma heap_insert_correct_witness : exists h',
  heap_insert (Some (key_lt id)) (heap_init {[5 := null_node]}) 5 = Some h' /\
  heap_ok (key_lt id) h' ({[5]} ∪ ∅) /\ nelts h' = 1 /\
  frame (heap_init {[5 := null_node]}) h' ({[5]} ∪ ∅).
Proof.
  apply (heap_insert_correct (key_lt id) (heap_init {[5 := null_node]}) ∅ 5);
    [apply _|exact (init_ok (key_lt id) _)|set_solver|done|done].
Defined.

(** C8. heap_remove of any member, wherever it is in the tree, completes and
    yields a complete, ordered heap of the other members; the removed node is
    left detached, so that it can be inserted again. *)
Theorem heap_remove_correct cmp h X x : StrictWeak cmp -> heap_ok cmp h X -> x ∈ X ->
  nelts h < 2 ^ 31 ->
  exists h', heap_remove (Some cmp) h x = Some h' /\ heap_ok cmp h' (X ∖ {[x]}) /\
    nelts h' = nelts h - 1 /\ nodes h' !! x = Some null_node /\ frame h h' X.
Proof. intros. by apply remove_ok. Qed.

(** Nodes 3, 5 and 7 inserted in the order 5, 3, 7. *)
Definition heap357 : option heap :=
  h ← heap_insert (Some (key_lt id))
        (heap_init {[3 := null_node; 5 := null_node; 7 := null_node]}) 5;
  h ← heap_insert (Some (key_lt id)) h 3;
  heap_insert (Some (key_lt id)) h 7.

Lemma heap357_ok : exists h, heap357 = Some h /\
  heap_ok (key_lt id) h ({[7]} ∪ ({[3]} ∪ ({[5]} ∪ ∅))) /\ nelts h = 3.
Proof.
  unfold heap357.
  set (h0 := heap_init {[3 := null_node; 5 := null_node; 7 := null_node]}).
  destruct (insert_ok (key_lt id) h0 ∅ 5) as (h1 & -> & H1 & N1 & F1);
    [exact (init_ok (key_lt id) _)|set_solver|done|done|]. cbn [mbind option_bind].
  destruct (insert_ok (key_lt id) h1 ({[5]} ∪ ∅) 3) as (h2 & -> & H2 & N2 & F2);
    [exact H1|set_solver|by rewrite F1 by set_solver|by rewrite N1|]. cbn [mbind option_bind].
  destruct (insert_ok (key_lt id) h2 ({[3]} ∪ ({[5]} ∪ ∅)) 7) as (h3 & -> & H3 & N3 & F3);
    [exact H2|set_solver|by rewrite F2, F1 by set_solver|by rewrite N2, N1|].
  exists h3. split_and!; [done|done|]. by rewrite N3, N2, N1.
Qed.

Lemma heap_remove_correct_witness : exists h h', heap357 = Some h /\
  heap_remove (Some (key_lt id)) h 3 = Some h' /\
  heap_ok (key_lt id) h' (({[7]} ∪ ({[3]} ∪ ({[5]} ∪ ∅))) ∖ {[3]}) /\
  nelts h' = nelts h - 1 /\ nodes h' !! 3 = Some null_node /\
  frame h h' ({[7]} ∪ ({[3]} ∪ ({[5]} ∪ ∅))).
Proof.
  destruct heap357_ok as (h & E & Hok & Hn). exists h.
  destruct (heap_remove_correct (key_lt id) h ({[7]} ∪ ({[3]} ∪ ({[5]} ∪ ∅))) 3) as (h' & H);
    [apply _|exact Hok|set_solver|by rewrite Hn|].
  exists h'. split; [exact E|exact H].
Defined.

(** The root of a heap is a member that no other member precedes, and a
    heap has no root exactly when it is empty; nelts counts the members. *)
Theorem heap_root_least cmp h X : StrictWeak cmp -> heap_ok cmp h X ->
  nelts h = Z.of_nat (size X) /\
  match root h with
  | None => X = ∅
  | Some r => r ∈ X /\ forall x, x ∈ X -> cmp x r = false
  end.
Proof.
  intros Hc Hok. split; [apply Hok|]. pose proof (root_ok cmp h X Hok).
  destruct (root h); tauto.
Qed.

Lemma heap_root_least_witness : exists h, heap357 = Some h /\
  nelts h = Z.of_nat (size ({[7]} ∪ ({[3]} ∪ ({[5]} ∪ ∅)) : gset Z)) /\
  match root h with
  | None => ({[7]} ∪ ({[3]} ∪ ({[5]} ∪ ∅)) : gset Z) = ∅
  | Some r => r ∈ ({[7]} ∪ ({[3]} ∪ ({[5]} ∪ ∅)) : gset Z) /\
      forall x, x ∈ ({[7]} ∪ ({[3]} ∪ ({[5]} ∪ ∅)) : gset Z) -> key_lt id x r = false
  end.
Proof.
  destruct heap357_ok as (h & E & Hok & _). exists h. split; [exact E|].
  apply (heap_root_least (key_lt id) h _ _ Hok).
Defined.

Example heap357_root : (h ← heap357; root h) = Some 3.
Proof. vm_compute. reflexivity. Qed.

End Heap.
