(* ===== verification/Containers.v ===== *)
(** The containers generated by base/queue.h and base/array.h: a buffer of
    [maxsize] elements with a window of [size] live ones. Both are refined to
    lists; accesses outside the buffer and failed assertions are errors. *)
From S2P Require Import Prelude.

(** [hv_realloc] of an array of elements: the old elements that still fit, and
    zeros in the new part; a size no allocation can have ends the program. *)
Definition hv_realloc {A} (zero : A) (l : list A) (n : Z) : option (list A) :=
  if n <=? 0 then None
  else Some (take (Z.to_nat n) l ++ replicate (Z.to_nat n - length l) zero).

Lemma hv_realloc_grow {A} (zero : A) l n : 0 < n -> zlen l <= n ->
  hv_realloc zero l n = Some (l ++ replicate (Z.to_nat (n - zlen l)) zero).
Proof.
  intros Hn Hl. unfold hv_realloc. zcases. unfold zlen in *. rewrite take_ge by lia.
  do 3 f_equal. lia.
Qed.

Lemma zlen_replicate {A} (x : A) n : zlen (replicate n x) = Z.of_nat n.
Proof. unfold zlen. by rewrite length_replicate. Qed.

(** An abstract sequence that a container promises to behave as. *)
Class Sequence (Q A : Type) := {
  sq_rep : Q -> list A -> Prop;
  sq_push : Q -> A -> option Q;
  sq_pop : Q -> option Q;
  sq_front : Q -> option A;
  sq_empty : Q -> bool;
  sq_room : Q -> Prop;
}.

(** First in, first out. *)
Class FifoLaws (Q A : Type) `{Sequence Q A} : Prop := {
  fifo_push : forall q l x, sq_rep q l -> sq_room q ->
    exists q', sq_push q x = Some q' /\ sq_rep q' (l ++ [x]);
  fifo_pop : forall q x l, sq_rep q (x :: l) ->
    exists q', sq_pop q = Some q' /\ sq_rep q' l;
  fifo_front : forall q l, sq_rep q l -> sq_front q = head l;
  fifo_empty : forall q l, sq_rep q l -> sq_empty q = bool_decide (l = []);
}.

Module Queue.

Definition QUEUE_INIT_SIZE : Z := 16.

Record queue (A : Type) := mk_queue {
  ptr : list A;
  size : Z;
  maxsize : Z;
  offset : Z;
}.
Arguments mk_queue {A}. Arguments ptr {A}. Arguments size {A}.
Arguments maxsize {A}. Arguments offset {A}.

Section Operations.
Context {A : Type} (zero : A).
Implicit Type q : queue A.

Definition queue_size q : Z := i32 (size q).
Definition queue_maxsize q : Z := i32 (maxsize q).
Definition queue_empty q : bool := size q =? 0.

(** The element behind the returned pointer; the outer [None] is a pointer
    outside the buffer, the inner one NULL. *)
Definition queue_front q : option (option A) :=
  if size q =? 0 then Some None
  else x ← zget (ptr q) (offset q); Some (Some x).
Definition queue_back q : option (option A) :=
  if size q =? 0 then Some None
  else x ← zget (ptr q) (offset q + size q - 1); Some (Some x).

(** The elements [data .. data + size). *)
Definition queue_data q : option (list A) := zslice (ptr q) (offset q) (size q).

Definition queue_init (n : Z) : option (queue A) :=
  if n <=? 0 then None
  else Some (mk_queue (replicate (Z.to_nat n) zero) 0 n 0).

Definition queue_clear q : queue A :=
  mk_queue (replicate (length (ptr q)) zero) 0 (maxsize q) 0.

Definition queue_cleanup q : queue A := mk_queue [] 0 0 0.

Definition queue_resize q (n : Z) : option (queue A) :=
  let n := if n =? 0 then QUEUE_INIT_SIZE else n in
  p ← hv_realloc zero (ptr q) n;
  Some (mk_queue p (size q) n (offset q)).

Definition queue_double_resize q : option (queue A) :=
  queue_resize q (i32 (maxsize q * 2)).

Definition queue_push_back q (elem : A) : option (queue A) :=
  q ← (if size q =? maxsize q then queue_double_resize q
       else if offset q + size q =? maxsize q then
         mid ← zslice (ptr q) (offset q) (size q);
         p ← zcopy (ptr q) 0 mid;
         Some (mk_queue p (size q) (maxsize q) 0)
       else Some q);
  p ← zset (ptr q) (offset q + size q) elem;
  Some (mk_queue p (size q + 1) (maxsize q) (offset q)).

Definition queue_pop_front q : option (queue A) :=
  if negb (0 <? size q) then None
  else
    let o := offset q + 1 in
    Some (mk_queue (ptr q) (size q - 1) (maxsize q)
            (if o =? maxsize q then 0 else o)).

Definition queue_pop_back q : option (queue A) :=
  if negb (0 <? size q) then None
  else Some (mk_queue (ptr q) (size q - 1) (maxsize q) (offset q)).

(** * Refinement to a list *)

(** The live window: [pre] and [post] are the unused parts of the buffer. *)
Definition rep q (l : list A) : Prop :=
  exists pre post, ptr q = pre ++ l ++ post /\ offset q = zlen pre /\
    size q = zlen l /\ maxsize q = zlen (ptr q).

Lemma rep_init n : 0 < n -> exists q, queue_init n = Some q /\ rep q [].
Proof.
  intros Hn. unfold queue_init. zcases. eexists. split; [done|].
  exists [], (replicate (Z.to_nat n) zero). split_and!; simpl; try done.
  rewrite zlen_replicate. lia.
Qed.

Lemma rep_clear q l : rep q l -> rep (queue_clear q) [].
Proof.
  intros (pre & post & E & Ho & Hs & Hm).
  exists [], (replicate (length (ptr q)) zero). split_and!; simpl; try done.
  rewrite Hm, zlen_replicate. done.
Qed.

Lemma rep_push q l x : rep q l -> maxsize q < 2 ^ 30 ->
  exists q', queue_push_back q x = Some q' /\ rep q' (l ++ [x]) /\
    maxsize q' <= Z.max (maxsize q) (Z.max 16 (2 * zlen l)).
Proof.
  intros (pre & post & E & Ho & Hs & Hm) Hb. unfold queue_push_back.
  pose proof (zlen_nonneg l). pose proof (zlen_nonneg pre). pose proof (zlen_nonneg post).
  pose proof Hm as Hm'. rewrite E in Hm'. zlen_simpl.
  destruct (Z.eqb_spec (size q) (maxsize q)) as [Hfull|Hfull].
  - assert (pre = []) as -> by (destruct pre; [done|zlen_simpl; pose proof (zlen_nonneg pre); lia]).
    assert (post = []) as -> by (destruct post; [done|zlen_simpl; pose proof (zlen_nonneg post); lia]).
    unfold queue_double_resize, queue_resize. rewrite i32_small by lia.
    set (n := if maxsize q * 2 =? 0 then QUEUE_INIT_SIZE else maxsize q * 2).
    assert (maxsize q < n <= Z.max 16 (2 * zlen l)) as Hn.
    { subst n. unfold QUEUE_INIT_SIZE. destruct (Z.eqb_spec (maxsize q * 2) 0); lia. }
    rewrite hv_realloc_grow by (zlen_simpl; lia). cbn [mbind option_bind ptr size offset maxsize].
    rewrite E, Ho, Hs. cbn [app]. rewrite app_nil_r.
    destruct (Z.to_nat (n - zlen l)) as [|k] eqn:Ek; [lia|]. cbn [replicate].
    change (zlen []) with 0. rewrite zset_middle by lia. cbn [mbind option_bind].
    eexists. split; [done|]. split; [|simpl; lia].
    exists [], (replicate k zero). cbn [ptr size offset maxsize]. split_and!.
    + by rewrite <- app_assoc.
    + done.
    + zlen_simpl. lia.
    + zlen_simpl. rewrite zlen_replicate. lia.
  - destruct (Z.eqb_spec (offset q + size q) (maxsize q)) as [Hend|Hend].
    + assert (post = []) as -> by (destruct post; [done|zlen_simpl; pose proof (zlen_nonneg post); lia]).
      rewrite E, (zslice_app pre l []) by lia. cbn [mbind option_bind].
      assert (exists rest, pre ++ l ++ [] = [] ++ take (length l) (pre ++ l) ++ rest /\ zlen rest = zlen pre)
        as (rest & Er & Hrest).
      { exists (drop (length l) (pre ++ l)). rewrite app_nil_r. split; [simpl; by rewrite take_drop|].
        unfold zlen. rewrite length_drop, length_app. lia. }
      rewrite Er, (zcopy_at [] (take (length l) (pre ++ l)) rest l); [|done|unfold zlen; rewrite length_take, length_app; lia].
      cbn [mbind option_bind ptr size offset maxsize app].
      destruct rest as [|r0 rest]; [change (zlen []) with 0 in Hrest; lia|].
      rewrite zset_middle by lia. cbn [mbind option_bind].
      eexists. split; [done|]. split; [|simpl; lia].
      exists [], rest. cbn [ptr size offset maxsize]. split_and!; [by rewrite <- app_assoc|done|zlen_simpl; lia|].
      zlen_simpl. lia.
    + destruct post as [|p0 post]; [change (zlen []) with 0 in *; lia|].
      cbn [mbind option_bind]. rewrite E, app_assoc, zset_middle by (zlen_simpl; lia).
      cbn [mbind option_bind]. eexists. split; [done|]. split; [|simpl; lia].
      exists pre, post. cbn [ptr size offset maxsize].
      split_and!; [by rewrite <- !app_assoc|done|zlen_simpl; lia|zlen_simpl; lia].
Qed.

Lemma rep_pop q x l : rep q (x :: l) ->
  exists q', queue_pop_front q = Some q' /\ rep q' l /\ maxsize q' = maxsize q.
Proof.
  intros (pre & post & E & Ho & Hs & Hm). unfold queue_pop_front.
  pose proof (zlen_nonneg l). pose proof (zlen_nonneg pre). pose proof (zlen_nonneg post).
  pose proof Hm as Hm'. rewrite E in Hm'. zlen_simpl.
  destruct (Z.ltb_spec 0 (size q)); [|lia]. cbn [negb].
  eexists. split; [done|]. split; [|done].
  destruct (Z.eqb_spec (offset q + 1) (maxsize q)) as [Hw|Hw].
  - assert (l = []) as -> by (destruct l; [done|zlen_simpl; pose proof (zlen_nonneg l); lia]).
    exists [], (ptr q). cbn [ptr size offset maxsize]. split_and!; [done|done|zlen_simpl; lia|done].
  - exists (pre ++ [x]), post. cbn [ptr size offset maxsize].
    split_and!; [by rewrite E, <- !app_assoc|zlen_simpl; lia|lia|done].
Qed.

Lemma rep_pop_back q x l : rep q (l ++ [x]) ->
  exists q', queue_pop_back q = Some q' /\ rep q' l.
Proof.
  intros (pre & post & E & Ho & Hs & Hm). unfold queue_pop_back.
  pose proof (zlen_nonneg l). zlen_simpl.
  destruct (Z.ltb_spec 0 (size q)); [|lia]. cbn [negb].
  eexists. split; [done|]. exists pre, (x :: post). cbn [ptr size offset maxsize].
  split_and!; [by rewrite E, <- !app_assoc|done|lia|done].
Qed.

Lemma rep_front q l : rep q l -> queue_front q = Some (head l).
Proof.
  intros (pre & post & E & Ho & Hs & Hm). unfold queue_front. rewrite Hs.
  destruct l as [|x l]; [done|]. zlen_simpl. pose proof (zlen_nonneg l).
  destruct (Z.eqb_spec (1 + zlen l) 0); [lia|]. rewrite E. cbn [app]. by rewrite zget_middle.
Qed.

Lemma rep_is_empty q l : rep q l -> queue_empty q = bool_decide (l = []).
Proof.
  intros (pre & post & E & Ho & Hs & Hm). unfold queue_empty. rewrite Hs.
  destruct l as [|x l]; [done|]. zlen_simpl. pose proof (zlen_nonneg l). zcases.
Qed.

Lemma rep_data q l : rep q l -> queue_data q = Some l.
Proof.
  intros (pre & post & E & Ho & Hs & Hm). unfold queue_data. rewrite E. by apply zslice_app.
Qed.

End Operations.

#[export] Instance queue_Sequence {A} (zero : A) : Sequence (queue A) A := {
  sq_rep := rep;
  sq_push := queue_push_back zero;
  sq_pop := queue_pop_front;
  sq_front := fun q => x ← queue_front q; x;
  sq_empty := queue_empty;
  sq_room := fun q => maxsize q < 2 ^ 30;
}.

#[export] Instance queue_FifoLaws {A} (zero : A) : @FifoLaws (queue A) A (queue_Sequence zero).
Proof.
  split; simpl.
  - intros q l x Hr Hb. destruct (rep_push zero q l x) as (q' & ? & ? & _); eauto.
  - intros q x l Hr. destruct (rep_pop q x l) as (q' & ? & ? & _); eauto.
  - intros q l Hr. by rewrite (rep_front q l).
  - intros q l Hr. by rewrite (rep_is_empty q l).
Qed.

(** * Properties *)

(** The operations of a client, and a run of them that records what each
    [front] before a [pop_front] shows. *)
Inductive qop (A : Type) := Push (x : A) | PopFront | PopBack.
Arguments Push {A}. Arguments PopFront {A}. Arguments PopBack {A}.

Section Run.
Context {A : Type} (zero : A).

Fixpoint run (q : queue A) (ops : list (qop A)) : option (list (option A) * queue A) :=
  match ops with
  | [] => Some ([], q)
  | Push x :: ops => q ← queue_push_back zero q x; run q ops
  | PopFront :: ops =>
      x ← queue_front q; q ← queue_pop_front q;
      '(out, q) ← run q ops; Some (x :: out, q)
  | PopBack :: ops =>
      x ← queue_back q; q ← queue_pop_back q;
      '(out, q) ← run q ops; Some (x :: out, q)
  end.

(** The same run on a list; popping an empty list is an error. *)
Fixpoint spec_run (l : list A) (ops : list (qop A)) : option (list (option A) * list A) :=
  match ops with
  | [] => Some ([], l)
  | Push x :: ops => spec_run (l ++ [x]) ops
  | PopFront :: ops =>
      match l with
      | [] => None
      | x :: l => '(out, l) ← spec_run l ops; Some (Some x :: out, l)
      end
  | PopBack :: ops =>
      match last l with
      | None => None
      | Some x => '(out, l) ← spec_run (removelast l) ops; Some (Some x :: out, l)
      end
  end.

Lemma rep_back (q : queue A) (l : list A) : rep q l -> queue_back q = Some (last l).
Proof.
  intros (pre & post & E & Ho & Hs & Hm). unfold queue_back. rewrite Hs.
  destruct l as [|x l _] using rev_ind; [done|]. rewrite last_snoc. zlen_simpl.
  pose proof (zlen_nonneg l). destruct (Z.eqb_spec (zlen l + (1 + 0)) 0); [lia|].
  rewrite E, <- app_assoc, (app_assoc pre). cbn [app].
  rewrite zget_middle by (zlen_simpl; lia). done.
Qed.

Lemma run_refines ops : forall q l, rep q l ->
  maxsize q < 2 ^ 30 -> 2 * (zlen l + zlen ops) < 2 ^ 30 ->
  match spec_run l ops with
  | None => run q ops = None
  | Some (out, l') => exists q', run q ops = Some (out, q') /\ rep q' l'
  end.
Proof.
  induction ops as [|[x| |] ops IH]; intros q l Hr Hm Hb; zlen_simpl;
    pose proof (zlen_nonneg l); try pose proof (zlen_nonneg ops); cbn [run spec_run].
  - eauto.
  - destruct (rep_push zero q l x Hr Hm) as (q' & -> & Hr' & Hm'). cbn [mbind option_bind].
    apply IH; [done|lia|zlen_simpl; lia].
  - rewrite (rep_front q l Hr). cbn [mbind option_bind]. destruct l as [|x l].
    + destruct Hr as (? & ? & _ & _ & Hs & _). unfold queue_pop_front. by rewrite Hs.
    + destruct (rep_pop q x l Hr) as (q' & -> & Hr' & Hm'). cbn [mbind option_bind]. zlen_simpl.
      specialize (IH q' l Hr' ltac:(lia) ltac:(lia)).
      destruct (spec_run l ops) as [[out l']|]; [|by rewrite IH].
      destruct IH as (q2 & -> & Hr2). by exists q2.
  - rewrite (rep_back q l Hr). cbn [mbind option_bind].
    destruct l as [|x l _] using rev_ind.
    + destruct Hr as (? & ? & _ & _ & Hs & _). unfold queue_pop_back. by rewrite Hs.
    + rewrite last_snoc, removelast_last. destruct (rep_pop_back q x l Hr) as (q' & Hp & Hr').
      assert (maxsize q' = maxsize q) as Hm'.
      { unfold queue_pop_back in Hp. destruct (negb _); by simplify_eq. }
      rewrite Hp. cbn [mbind option_bind]. zlen_simpl.
      specialize (IH q' l Hr' ltac:(lia) ltac:(lia)).
      destruct (spec_run l ops) as [[out l']|]; [|by rewrite IH].
      destruct IH as (q2 & -> & Hr2). by exists q2.
Qed.
End Run.

(** C15. From queue_init on, any sequence of push_back, front/pop_front and
    back/pop_back shows exactly what a list would show: elements leave the
    front in the order they entered, the back in the reverse order, across
    every wrap of the offset, move to the front and doubling of the buffer;
    popping an empty queue fails the assertion. *)
Theorem queue_refines_list {A} (zero : A) n ops : 0 < n < 2 ^ 30 ->
  2 * zlen ops < 2 ^ 30 ->
  exists q, queue_init zero n = Some q /\
  match spec_run [] ops with
  | None => run zero q ops = None
  | Some (out, l') => exists q', run zero q ops = Some (out, q') /\ rep q' l'
  end.
Proof.
  intros Hn Hb. destruct (rep_init zero n) as (q & Hq & Hr); [lia|]. exists q. split; [done|].
  apply run_refines; [done| |rewrite zlen_nil; lia].
  unfold queue_init in Hq. destruct (n <=? 0); [done|]. simplify_eq. simpl. lia.
Qed.

Lemma queue_refines_list_witness : exists q, queue_init 0 2 = Some q /\
  exists q', run 0 q [Push 1; Push 2; PopFront; Push 3; Push 4; PopBack; PopFront]
             = Some ([Some 1; Some 4; Some 2], q') /\ rep q' [3].
Proof.
  apply (queue_refines_list 0 2 [Push 1; Push 2; PopFront; Push 3; Push 4; PopBack; PopFront]);
    lia || (vm_compute; reflexivity).
Defined.

End Queue.

Module Array.

Definition ARRAY_INIT_SIZE : Z := 16.

Record array (A : Type) := mk_array {
  ptr : list A;
  size : Z;
  maxsize : Z;
}.
Arguments mk_array {A}. Arguments ptr {A}. Arguments size {A}. Arguments maxsize {A}.

Section Operations.
Context {A : Type} (zero : A).
Implicit Type a : array A.

Definition array_size a : Z := i32 (size a).
Definition array_maxsize a : Z := i32 (maxsize a).
Definition array_empty a : bool := size a =? 0.

(** [if (pos < 0) pos += p->size]. *)
Definition from_end a (pos : Z) : Z := if pos <? 0 then i32 (pos + size a) else pos.

(** The index [atype_at] points to; [None] when the assertion fails. *)
Definition array_at a (pos : Z) : option Z :=
  let pos := from_end a pos in
  if (0 <=? pos) && (pos <? size a) then Some pos else None.

Definition array_front a : option (option A) :=
  if size a =? 0 then Some None else x ← zget (ptr a) 0; Some (Some x).
Definition array_back a : option (option A) :=
  if size a =? 0 then Some None else x ← zget (ptr a) (size a - 1); Some (Some x).

Definition array_init (n : Z) : option (array A) :=
  if n <=? 0 then None else Some (mk_array (replicate (Z.to_nat n) zero) 0 n).

Definition array_clear a : array A :=
  mk_array (replicate (length (ptr a)) zero) 0 (maxsize a).

Definition array_cleanup a : array A := mk_array [] 0 0.

Definition array_resize a (n : Z) : option (array A) :=
  let n := if n =? 0 then ARRAY_INIT_SIZE else n in
  p ← hv_realloc zero (ptr a) n; Some (mk_array p (size a) n).

Definition array_double_resize a : option (array A) :=
  array_resize a (i32 (maxsize a * 2)).

Definition array_push_back a (elem : A) : option (array A) :=
  a ← (if size a =? maxsize a then array_double_resize a else Some a);
  p ← zset (ptr a) (size a) elem;
  Some (mk_array p (size a + 1) (maxsize a)).

Definition array_pop_back a : option (array A) :=
  if negb (0 <? size a) then None
  else Some (mk_array (ptr a) (size a - 1) (maxsize a)).

(** [memmove(ptr + dst, ptr + src, n)] inside the buffer. *)
Definition move (p : list A) (dst src n : Z) : option (list A) :=
  mid ← zslice p src n; zcopy p dst mid.

Definition array_add a (elem : A) (pos : Z) : option (array A) :=
  let pos := from_end a pos in
  if negb ((0 <=? pos) && (pos <=? size a)) then None
  else
    a ← (if size a =? maxsize a then array_double_resize a else Some a);
    p ← (if pos <? size a then move (ptr a) (pos + 1) pos (size a - pos) else Some (ptr a));
    p ← zset p pos elem;
    Some (mk_array p (size a + 1) (maxsize a)).

Definition array_del a (pos : Z) : option (array A) :=
  let pos := from_end a pos in
  if negb ((0 <=? pos) && (pos <? size a)) then None
  else
    let n := size a - 1 in
    p ← (if pos <? n then move (ptr a) pos (pos + 1) (n - pos) else Some (ptr a));
    Some (mk_array p n (maxsize a)).

Definition array_del_nomove a (pos : Z) : option (array A) :=
  let pos := from_end a pos in
  if negb ((0 <=? pos) && (pos <? size a)) then None
  else
    let n := size a - 1 in
    p ← (if pos <? n then x ← zget (ptr a) n; zset (ptr a) pos x else Some (ptr a));
    Some (mk_array p n (maxsize a)).

Definition array_swap a (pos1 pos2 : Z) : option (array A) :=
  let pos1 := from_end a pos1 in
  let pos2 := from_end a pos2 in
  tmp ← zget (ptr a) pos1;
  y ← zget (ptr a) pos2;
  p ← zset (ptr a) pos1 y;
  p ← zset p pos2 tmp;
  Some (mk_array p (size a) (maxsize a)).

(** * Refinement to a list *)

Definition rep a (l : list A) : Prop :=
  exists post, ptr a = l ++ post /\ size a = zlen l /\ maxsize a = zlen (ptr a).

(** Negative positions count from the end. *)
Definition index (l : list A) (pos : Z) : Z := if pos <? 0 then pos + zlen l else pos.

Lemma from_end_index a l pos : rep a l -> zlen l < 2 ^ 31 -> -2 ^ 31 <= pos < 2 ^ 31 ->
  from_end a pos = index l pos.
Proof.
  intros (post & E & Hs & Hm) Hl Hp. unfold from_end, index. pose proof (zlen_nonneg l).
  destruct (pos <? 0) eqn:Ep; [|done]. rewrite Hs. apply i32_small. lia.
Qed.

Lemma rep_grow a l : rep a l -> maxsize a < 2 ^ 30 ->
  exists a' x post, (if size a =? maxsize a then array_double_resize a else Some a) = Some a' /\
    ptr a' = l ++ x :: post /\ size a' = zlen l /\ maxsize a' = zlen (ptr a') /\
    maxsize a' <= Z.max (maxsize a) (Z.max 16 (2 * zlen l)).
Proof.
  intros (post & E & Hs & Hm) Hb. pose proof (zlen_nonneg l). pose proof (zlen_nonneg post).
  pose proof Hm as Hm'. rewrite E in Hm'. zlen_simpl.
  destruct (Z.eqb_spec (size a) (maxsize a)).
  - assert (post = []) as -> by (destruct post; [done|zlen_simpl; pose proof (zlen_nonneg post); lia]).
    unfold array_double_resize, array_resize. rewrite i32_small by lia.
    set (n := if maxsize a * 2 =? 0 then ARRAY_INIT_SIZE else maxsize a * 2).
    assert (maxsize a < n <= Z.max 16 (2 * zlen l)).
    { subst n. unfold ARRAY_INIT_SIZE. destruct (Z.eqb_spec (maxsize a * 2) 0); lia. }
    rewrite hv_realloc_grow by lia. cbn [mbind option_bind].
    destruct (Z.to_nat (n - zlen (ptr a))) as [|k] eqn:Ek; [lia|].
    eexists _, zero, (replicate k zero). split; [done|]. cbn [ptr size maxsize].
    rewrite E, app_nil_r. split_and!; [done|done| |lia].
    cbn [replicate]. zlen_simpl. rewrite zlen_replicate. lia.
  - destruct post as [|x post]; [zlen_simpl; lia|]. exists a, x, post. split_and!; [done..|]. lia.
Qed.

Lemma arr_rep_push a l x : rep a l -> maxsize a < 2 ^ 30 ->
  exists a', array_push_back a x = Some a' /\ rep a' (l ++ [x]) /\
    maxsize a' <= Z.max (maxsize a) (Z.max 16 (2 * zlen l)).
Proof.
  intros Hr Hb. unfold array_push_back.
  destruct (rep_grow a l Hr Hb) as (a' & y & post & -> & E & Hs & Hm & Hle). cbn [mbind option_bind].
  rewrite E, Hs, zset_middle by done. cbn [mbind option_bind].
  eexists. split; [done|]. split; [|done]. exists post. cbn [ptr size maxsize].
  split_and!; [by rewrite <- app_assoc|zlen_simpl; lia|]. rewrite Hm, E. zlen_simpl. lia.
Qed.

Lemma arr_rep_pop a l x : rep a (l ++ [x]) ->
  exists a', array_pop_back a = Some a' /\ rep a' l /\ maxsize a' = maxsize a.
Proof.
  intros (post & E & Hs & Hm). unfold array_pop_back. zlen_simpl. pose proof (zlen_nonneg l).
  destruct (Z.ltb_spec 0 (size a)); [|lia]. cbn [negb]. eexists. split; [done|]. split; [|done].
  exists (x :: post). cbn [ptr size maxsize]. split_and!; [by rewrite E, <- app_assoc|lia|done].
Qed.

(** [memmove] of a block one slot up and one slot down. *)
Lemma move_up (l1 l2 : list A) y post d :
  d = zlen l1 ->
  exists z, move (l1 ++ l2 ++ y :: post) (d + 1) d (zlen l2) = Some (l1 ++ z :: l2 ++ post).
Proof.
  intros ->. unfold move. rewrite (zslice_app l1 l2 (y :: post)) by done. cbn [mbind option_bind].
  destruct (l2 ++ [y]) as [|z l2'] eqn:E2; [by destruct l2|]. exists z.
  replace (l2 ++ y :: post) with ((l2 ++ [y]) ++ post) by by rewrite <- app_assoc. rewrite E2.
  change ((z :: l2') ++ post) with ([z] ++ l2' ++ post). rewrite (app_assoc l1).
  rewrite zcopy_at; [by rewrite <- app_assoc|zlen_simpl; lia|].
  apply (f_equal zlen) in E2. zlen_simpl. lia.
Qed.

Lemma move_down (l1 l2 : list A) y post d :
  d = zlen l1 ->
  exists z, move (l1 ++ y :: l2 ++ post) d (d + 1) (zlen l2) = Some (l1 ++ l2 ++ z :: post).
Proof.
  intros ->. unfold move.
  replace (l1 ++ y :: l2 ++ post) with ((l1 ++ [y]) ++ l2 ++ post) by by rewrite <- app_assoc.
  rewrite (zslice_app (l1 ++ [y]) l2 post) by (zlen_simpl; lia). cbn [mbind option_bind].
  destruct (y :: l2) as [|z l2' _] eqn:E2 using rev_ind; [done|]. exists z.
  rewrite <- app_assoc. change ([y] ++ l2 ++ post) with ((y :: l2) ++ post). rewrite E2, <- app_assoc.
  rewrite zcopy_at; [done|done|].
  apply (f_equal zlen) in E2. zlen_simpl. lia.
Qed.

Lemma rep_add a l x pos : rep a l -> maxsize a < 2 ^ 30 -> -2 ^ 31 <= pos < 2 ^ 31 ->
  0 <= index l pos <= zlen l ->
  exists a', array_add a x pos = Some a' /\
    rep a' (take (Z.to_nat (index l pos)) l ++ x :: drop (Z.to_nat (index l pos)) l) /\
    maxsize a' <= Z.max (maxsize a) (Z.max 16 (2 * zlen l)).
Proof.
  intros Hr Hb Hp Hi. unfold array_add.
  assert (zlen l <= maxsize a) as Hlm.
  { destruct Hr as (post & E & _ & ->). rewrite E. zlen_simpl. pose proof (zlen_nonneg post). lia. }
  rewrite (from_end_index a l) by (done || lia). set (k := index l pos) in *. clearbody k.
  assert (size a = zlen l) as -> by by destruct Hr as (? & _ & ? & _).
  replace ((0 <=? k) && (k <=? zlen l)) with true by (zcases; done). cbn [negb].
  replace (zlen l =? maxsize a) with (size a =? maxsize a) by (by destruct Hr as (? & _ & -> & _)).
  destruct (rep_grow a l Hr Hb) as (a' & y & post & -> & E & Hs & Hm & Hle). cbn [mbind option_bind].
  rewrite E, Hs. set (l1 := take (Z.to_nat k) l). set (l2 := drop (Z.to_nat k) l).
  assert (l = l1 ++ l2) as El by (symmetry; apply take_drop).
  assert (zlen l1 = k) as Hl1.
  { subst l1. unfold zlen in *. rewrite length_take. lia. }
  assert (zlen l = k + zlen l2) as Hl2 by (rewrite El, zlen_app; lia).
  assert (exists z, (if k <? zlen l then move (l ++ y :: post) (k + 1) k (zlen l - k) else Some (l ++ y :: post))
    = Some (l1 ++ z :: l2 ++ post)) as [z ->].
  { destruct (Z.ltb_spec k (zlen l)).
    - replace (zlen l - k) with (zlen l2) by lia. rewrite El, <- app_assoc. by apply move_up.
    - exists y. assert (l2 = []) as ->
        by (destruct l2; [done|zlen_simpl; pose proof (zlen_nonneg l2); lia]).
      by rewrite El, app_nil_r. }
  cbn [mbind option_bind]. rewrite zset_middle by done. cbn [mbind option_bind].
  eexists. split; [done|]. split; [|done]. exists post. cbn [ptr size maxsize].
  split_and!; [by rewrite <- app_assoc|zlen_simpl; lia|]. rewrite Hm, E. zlen_simpl. lia.
Qed.

Lemma index_split (l : list A) k : 0 <= k < zlen l ->
  exists x l2, l = take (Z.to_nat k) l ++ x :: l2 /\ zlen (take (Z.to_nat k) l) = k /\
    l !! Z.to_nat k = Some x /\ l2 = drop (S (Z.to_nat k)) l.
Proof.
  intros Hk. destruct (lookup_lt_is_Some_2 l (Z.to_nat k)) as [x Hx]; [unfold zlen in *; lia|].
  exists x, (drop (S (Z.to_nat k)) l). split_and!; [by rewrite take_drop_middle| |done|done].
  unfold zlen in *. rewrite length_take. lia.
Qed.

Lemma rep_del a l pos : rep a l -> maxsize a < 2 ^ 30 -> -2 ^ 31 <= pos < 2 ^ 31 ->
  0 <= index l pos < zlen l ->
  exists a', array_del a pos = Some a' /\ maxsize a' = maxsize a /\
    rep a' (take (Z.to_nat (index l pos)) l ++ drop (S (Z.to_nat (index l pos))) l).
Proof.
  intros Hr Hb Hp Hi. unfold array_del. pose proof Hr as (post & E & Hs & Hm).
  pose proof Hm as Hm'. rewrite E in Hm'. zlen_simpl. pose proof (zlen_nonneg post).
  rewrite (from_end_index a l) by (done || lia). set (k := index l pos) in *. clearbody k.
  rewrite Hs. replace ((0 <=? k) && (k <? zlen l)) with true by (zcases; done). cbn [negb].
  destruct (index_split l k Hi) as (x & l2 & El & Hl1 & _ & <-). rewrite E. 
  set (l1 := take (Z.to_nat k) l) in *. clearbody l1. subst l. zlen_simpl. rewrite Hl1.
  assert (exists z, (if k <? k + (1 + zlen l2) - 1 then move ((l1 ++ x :: l2) ++ post) k (k + 1) (k + (1 + zlen l2) - 1 - k)
     else Some ((l1 ++ x :: l2) ++ post)) = Some (l1 ++ l2 ++ z :: post)) as [z ->].
  { pose proof (zlen_nonneg l2). rewrite <- app_assoc. cbn [app].
    destruct (Z.ltb_spec k (k + (1 + zlen l2) - 1)).
    - replace (k + (1 + zlen l2) - 1 - k) with (zlen l2) by lia. by apply move_down.
    - exists x. assert (l2 = []) as -> by (destruct l2; [done|zlen_simpl; pose proof (zlen_nonneg l2); lia]).
      done. }
  cbn [mbind option_bind]. eexists. split; [done|]. split; [done|].
  exists (z :: post). cbn [ptr size maxsize].
  split_and!; [by rewrite <- app_assoc|zlen_simpl; lia|]. zlen_simpl. lia.
Qed.

Lemma zset_app (l post : list A) k x : 0 <= k < zlen l ->
  zset (l ++ post) k x = Some (<[Z.to_nat k := x]> l ++ post).
Proof.
  intros Hk. unfold zset. zlen_simpl. pose proof (zlen_nonneg post). zcases.
  rewrite insert_app_l; [done|]. unfold zlen in *. lia.
Qed.
Lemma zget_app (l post : list A) k : 0 <= k < zlen l -> zget (l ++ post) k = l !! Z.to_nat k.
Proof.
  intros Hk. rewrite zget_Some by (zlen_simpl; pose proof (zlen_nonneg post); lia).
  apply lookup_app_l. unfold zlen in *. lia.
Qed.

Lemma rep_del_nomove a l y pos : rep a (l ++ [y]) -> maxsize a < 2 ^ 30 ->
  -2 ^ 31 <= pos < 2 ^ 31 -> 0 <= index (l ++ [y]) pos < zlen (l ++ [y]) ->
  exists a', array_del_nomove a pos = Some a' /\ maxsize a' = maxsize a /\
    rep a' (<[Z.to_nat (index (l ++ [y]) pos) := y]> l).
Proof.
  intros Hr Hb Hp Hi. unfold array_del_nomove. pose proof Hr as (post & E & Hs & Hm).
  pose proof Hm as Hm'. rewrite E in Hm'. zlen_simpl. pose proof (zlen_nonneg post). pose proof (zlen_nonneg l).
  rewrite (from_end_index a (l ++ [y])) by (done || zlen_simpl; lia).
  set (k := index (l ++ [y]) pos) in *. clearbody k. rewrite Hs.
  replace ((0 <=? k) && (k <? zlen l + (1 + 0))) with true by (zcases; done). cbn [negb].
  replace (zlen l + (1 + 0) - 1) with (zlen l) by lia.
  assert (zlen (<[Z.to_nat k := y]> l) = zlen l) as Hli by (unfold zlen; by rewrite length_insert).
  rewrite E, <- app_assoc. cbn [app]. destruct (Z.ltb_spec k (zlen l)) as [Hk|Hk].
  - rewrite zget_middle by done. cbn [mbind option_bind]. rewrite zset_app by lia. cbn [mbind option_bind].
    eexists. split; [done|]. split; [done|]. exists (y :: post). cbn [ptr size maxsize].
    split_and!; [done|lia|]. zlen_simpl. lia.
  - cbn [mbind option_bind]. eexists. split; [done|]. split; [done|]. exists (y :: post).
    cbn [ptr size maxsize]. rewrite list_insert_ge by (unfold zlen in *; lia).
    split_and!; [done|lia|]. zlen_simpl. lia.
Qed.

Lemma rep_swap a l x1 x2 p1 p2 : rep a l -> maxsize a < 2 ^ 30 ->
  -2 ^ 31 <= p1 < 2 ^ 31 -> -2 ^ 31 <= p2 < 2 ^ 31 ->
  zget l (index l p1) = Some x1 -> zget l (index l p2) = Some x2 ->
  exists a', array_swap a p1 p2 = Some a' /\ maxsize a' = maxsize a /\
    rep a' (<[Z.to_nat (index l p2) := x1]> (<[Z.to_nat (index l p1) := x2]> l)).
Proof.
  intros Hr Hb Hp1 Hp2 H1 H2. unfold array_swap. pose proof Hr as (post & E & Hs & Hm).
  pose proof Hm as Hm'. rewrite E in Hm'. zlen_simpl. pose proof (zlen_nonneg post). pose proof (zlen_nonneg l).
  rewrite !(from_end_index a l) by (done || lia).
  assert (forall k (x : A), zget l k = Some x -> 0 <= k < zlen l) as Hdom.
  { intros k x Hx. destruct (decide (0 <= k < zlen l)); [done|]. by rewrite zget_None in Hx. }
  pose proof (Hdom _ _ H1). pose proof (Hdom _ _ H2).
  set (k1 := index l p1) in *. set (k2 := index l p2) in *. clearbody k1 k2.
  rewrite E, !zget_app by done. rewrite zget_Some in H1, H2 by done. rewrite H1, H2. cbn [mbind option_bind].
  assert (zlen (<[Z.to_nat k1 := x2]> l) = zlen l) as Hli by (unfold zlen; by rewrite length_insert).
  rewrite zset_app by done. cbn [mbind option_bind]. rewrite zset_app by lia. cbn [mbind option_bind].
  eexists. split; [done|]. split; [done|]. exists post. cbn [ptr size maxsize].
  assert (zlen (<[Z.to_nat k2 := x1]> (<[Z.to_nat k1 := x2]> l)) = zlen l) as Hli2 by (unfold zlen; by rewrite !length_insert).
  split_and!; [done|lia|]. zlen_simpl. lia.
Qed.

(** * Properties *)

Inductive aop := Push (x : A) | Pop | Add (x : A) (pos : Z) | Del (pos : Z)
  | DelNomove (pos : Z) | Swap (p1 p2 : Z).

Definition step a (o : aop) : option (array A) :=
  match o with
  | Push x => array_push_back a x
  | Pop => array_pop_back a
  | Add x pos => array_add a x pos
  | Del pos => array_del a pos
  | DelNomove pos => array_del_nomove a pos
  | Swap p1 p2 => array_swap a p1 p2
  end.

(** The same operation on a list; [None] where its precondition fails. *)
Definition spec_step (l : list A) (o : aop) : option (list A) :=
  let ok pos := bool_decide (-2 ^ 31 <= pos < 2 ^ 31) in
  let ix pos := Z.to_nat (index l pos) in
  match o with
  | Push x => Some (l ++ [x])
  | Pop => if decide (l = []) then None else Some (removelast l)
  | Add x pos => if ok pos && (0 <=? index l pos) && (index l pos <=? zlen l)
      then Some (take (ix pos) l ++ x :: drop (ix pos) l) else None
  | Del pos => if ok pos && (0 <=? index l pos) && (index l pos <? zlen l)
      then Some (take (ix pos) l ++ drop (S (ix pos)) l) else None
  | DelNomove pos => if ok pos && (0 <=? index l pos) && (index l pos <? zlen l)
      then match last l with None => None | Some y => Some (<[ix pos := y]> (removelast l)) end
      else None
  | Swap p1 p2 => if ok p1 && ok p2 then
      x1 ← zget l (index l p1); x2 ← zget l (index l p2);
      Some (<[ix p2 := x1]> (<[ix p1 := x2]> l)) else None
  end.

Lemma step_refines a l l' o : rep a l -> maxsize a < 2 ^ 30 -> spec_step l o = Some l' ->
  exists a', step a o = Some a' /\ rep a' l' /\
    maxsize a' <= Z.max (maxsize a) (Z.max 16 (2 * zlen l)) /\ zlen l' <= zlen l + 1.
Proof.
  intros Hr Hb Hs. pose proof (zlen_nonneg l). destruct o as [x| |x pos|pos|pos|p1 p2]; simpl in Hs |- *.
  - simplify_eq. destruct (arr_rep_push a l x Hr Hb) as (a' & ? & ? & ?).
    exists a'. split_and!; [done..|zlen_simpl; lia].
  - destruct (decide (l = [])) as [|Hne]; [done|]. simplify_eq.
    destruct (exists_last Hne) as (l0 & x & ->). rewrite removelast_last.
    destruct (arr_rep_pop a l0 x Hr) as (a' & ? & ? & ?). exists a'. zlen_simpl. split_and!; [done..|lia|lia].
  - destruct (bool_decide_reflect (-2 ^ 31 <= pos < 2 ^ 31)); [|done].
    destruct (Z.leb_spec 0 (index l pos)); [|done]. destruct (Z.leb_spec (index l pos) (zlen l)); [|done].
    simplify_eq/=. destruct (rep_add a l x pos) as (a' & ? & ? & ?); [done..|].
    exists a'. split_and!; [done..|]. unfold zlen. rewrite length_app, length_cons, length_take, length_drop. lia.
  - destruct (bool_decide_reflect (-2 ^ 31 <= pos < 2 ^ 31)); [|done].
    destruct (Z.leb_spec 0 (index l pos)); [|done]. destruct (Z.ltb_spec (index l pos) (zlen l)); [|done].
    simplify_eq/=. destruct (rep_del a l pos) as (a' & ? & ? & ?); [done..|].
    exists a'. split_and!; [done..|lia|]. unfold zlen. rewrite length_app, length_take, length_drop. lia.
  - destruct (bool_decide_reflect (-2 ^ 31 <= pos < 2 ^ 31)); [|done].
    destruct (Z.leb_spec 0 (index l pos)); [|done]. destruct (Z.ltb_spec (index l pos) (zlen l)); [|done].
    simplify_eq/=. destruct l as [|y l _] using rev_ind; [done|].
    rewrite last_snoc, removelast_last in Hs. simplify_eq.
    destruct (rep_del_nomove a l y pos) as (a' & ? & ? & ?); [done..|].
    exists a'. split_and!; [done..|lia|]. zlen_simpl. unfold zlen. rewrite length_insert. lia.
  - destruct (bool_decide_reflect (-2 ^ 31 <= p1 < 2 ^ 31)); [|done].
    destruct (bool_decide_reflect (-2 ^ 31 <= p2 < 2 ^ 31)); [|done]. simpl in Hs.
    destruct (zget l (index l p1)) as [x1|] eqn:E1; [|done].
    destruct (zget l (index l p2)) as [x2|] eqn:E2; [|done]. simplify_eq/=.
    destruct (rep_swap a l x1 x2 p1 p2) as (a' & ? & ? & ?); [done..|].
    exists a'. split_and!; [done..|lia|]. unfold zlen. rewrite !length_insert. lia.
Qed.

Fixpoint run a (ops : list aop) : option (array A) :=
  match ops with [] => Some a | o :: ops => a ← step a o; run a ops end.
Fixpoint spec_run (l : list A) (ops : list aop) : option (list A) :=
  match ops with [] => Some l | o :: ops => l ← spec_step l o; spec_run l ops end.

Lemma arr_run_refines ops : forall a l l', rep a l -> maxsize a < 2 ^ 30 ->
  2 * (zlen l + zlen ops) < 2 ^ 30 -> spec_run l ops = Some l' ->
  exists a', run a ops = Some a' /\ rep a' l'.
Proof.
  induction ops as [|o ops IH]; intros a l l' Hr Hm Hb Hs; cbn [run spec_run] in *.
  - simplify_eq. eauto.
  - zlen_simpl. pose proof (zlen_nonneg ops). destruct (spec_step l o) as [l1|] eqn:E1; [|done].
    destruct (step_refines a l l1 o Hr Hm E1) as (a1 & -> & Hr1 & Hm1 & Hl1). cbn [mbind option_bind] in *.
    apply (IH a1 l1 l'); [done|lia|lia|done].
Qed.

End Operations.

(** From array_init on, any sequence of push_back, pop_back, add, del,
    del_nomove and swap whose positions are in range (negative ones counting
    from the end) completes without touching memory outside the buffer and
    leaves the list the same operations give, through every reallocation. *)
Lemma array_refines_list {A} (zero : A) n ops l' : 0 < n < 2 ^ 30 ->
  2 * zlen ops < 2 ^ 30 -> spec_run [] ops = Some l' ->
  exists a a', array_init zero n = Some a /\ run zero a ops = Some a' /\ rep a' l'.
Proof.
  intros Hn Hb Hs. unfold array_init. zcases.
  eexists. destruct (arr_run_refines zero ops (mk_array (replicate (Z.to_nat n) zero) 0 n) [] l')
    as (a' & ? & ?); [|simpl; lia|rewrite zlen_nil; lia|done|eauto].
  exists (replicate (Z.to_nat n) zero). split_and!; [done|done|]. simpl. rewrite zlen_replicate. lia.
Qed.

Lemma array_refines_list_witness : exists a a', array_init 0 2 = Some a /\
  run 0 a [Push 1; Push 2; Push 3; Add 9 (-1); Swap 0 (-1); Del 1; DelNomove 0] = Some a' /\
  rep a' [1; 9].
Proof.
  apply (array_refines_list 0 2 [Push 1; Push 2; Push 3; Add 9 (-1); Swap 0 (-1); Del 1; DelNomove 0]);
    lia || (vm_compute; reflexivity).
Defined.

End Array.
