(* ===== verification/HMath.v ===== *)
(** Powers of two and the length encodings of base/hmath.h: floor2e, ceil2e,
    the little-endian varint and the ASN.1 definite length, with the bounds and
    round trips their users (io_array growth, unpack by length field) rely on. *)
From S2P Require Import Prelude.

Module HMath.

(** * Operations *)

(** [while (n >>= 1) ++e]; 64 shifts empty an unsigned long. *)
Fixpoint shr_loop (fuel : nat) (n e : Z) : option Z :=
  match fuel with
  | O => None
  | S f => let n := Z.shiftr n 1 in if n =? 0 then Some e else shr_loop f n (e + 1)
  end.

(** [ret = 1; while (e--) ret <<= 1]. *)
Fixpoint shl_loop (e : nat) (ret : Z) : Z :=
  match e with O => ret | S e => shl_loop e (u64 (Z.shiftl ret 1)) end.

Definition floor2e (num : Z) : option Z :=
  e ← shr_loop 64 num 0; Some (shl_loop (Z.to_nat e) 1).

Definition ceil2e (num : Z) : option Z :=
  if (num =? 0) || (num =? 1) then Some 1
  else e ← shr_loop 64 (num - 1) 1; Some (shl_loop (Z.to_nat e) 1).

(** [buf] is the caller's buffer; the result is the buffer and the count. *)
Fixpoint varint_encode_loop (fuel : nat) (value : Z) (buf : list Z) (bytes : Z)
  : option (list Z * Z) :=
  match fuel with
  | O => None
  | S f =>
      let ch := Z.land value 127 in
      let value := Z.shiftr value 7 in
      buf ← zset buf bytes (if value =? 0 then ch else Z.lor ch 128);
      if value =? 0 then Some (buf, bytes + 1)
      else varint_encode_loop f value buf (bytes + 1)
  end.
Definition varint_encode (value : Z) (buf : list Z) : option (list Z * Z) :=
  varint_encode_loop 10 value buf 0.

(** [if (len && *len && bytes == *len)]. *)
Definition not_enough (len : option Z) (bytes : Z) : bool :=
  match len with None => false | Some n => negb (n =? 0) && (bytes =? n) end.

(** [if (len) *len = v]. *)
Definition set_len (len : option Z) (v : Z) : option Z := (fun _ => v) <$> len.

(** The result is the value and the contents of [*len]. *)
Fixpoint varint_decode_loop (fuel : nat) (buf : list Z) (len : option Z)
  (ret bytes bits : Z) : option (Z * option Z) :=
  match fuel with
  | O => Some (ret, set_len len (-1))
  | S f =>
      if not_enough len bytes then Some (0, set_len len 0)
      else
        p ← zget buf bytes;
        let ret := i64 (Z.lor ret (i64 (Z.shiftl (Z.land p 127) bits))) in
        let bytes := bytes + 1 in
        if Z.land p 128 =? 0 then Some (ret, set_len len bytes)
        else varint_decode_loop f buf len ret bytes (bits + 7)
  end.
Definition varint_decode (buf : list Z) (len : option Z) : option (Z * option Z) :=
  varint_decode_loop 10 buf len 0 0 0.

Definition asn1_encode (value : Z) (buf : list Z) : option (list Z * Z) :=
  let byte k := u8 (Z.shiftr value k) in
  let write bs := buf ← zcopy buf 0 bs; Some (buf, zlen bs) in
  if value <? 128 then write [byte 0]
  else if value <? 256 then write [129; byte 0]
  else if value <? 65536 then write [130; byte 8; byte 0]
  else if value <? 16777126 then write [131; byte 16; byte 8; byte 0]
  else write [132; byte 24; byte 16; byte 8; byte 0].

Fixpoint asn1_decode_loop (lenBytes : nat) (buf : list Z) (len : option Z) (ret bytes : Z)
  : option (Z * option Z) :=
  match lenBytes with
  | O => Some (ret, set_len len bytes)
  | S n =>
      if not_enough len bytes then Some (0, set_len len 0)
      else
        p ← zget buf bytes;
        asn1_decode_loop n buf len (i64 (Z.lor (Z.shiftl ret 8) p)) (bytes + 1)
  end.

Definition asn1_decode (buf : list Z) (len : option Z) : option (Z * option Z) :=
  tag ← zget buf 0;
  if tag <? 128 then Some (tag, set_len len 1)
  else if tag =? 128 then Some (0, set_len len (-1))
  else asn1_decode_loop (Z.to_nat (Z.land tag 127)) buf len 0 1.

(** * Powers of two *)

Lemma shr_loop_log2 fuel : forall n e, 0 < n < 2 ^ Z.of_nat fuel ->
  shr_loop fuel n e = Some (e + Z.log2 n).
Proof.
  induction fuel as [|fuel IH]; intros n e Hn; [cbn in Hn; lia|].
  rewrite Nat2Z.inj_succ, Z.pow_succ_r in Hn by lia. cbn [shr_loop].
  rewrite Z.shiftr_div_pow2 by lia. change (2 ^ 1) with 2.
  destruct (Z.eqb_spec (n / 2) 0) as [E|E].
  - assert (n = 1) as -> by zdm. change (Z.log2 1) with 0. f_equal. lia.
  - rewrite IH by zdm. f_equal.
    assert (1 < n) by (destruct (decide (n = 1)) as [->|]; [done|lia]). replace (n / 2) with (Z.shiftr n 1) by (by rewrite Z.shiftr_div_pow2).
    rewrite Z.log2_shiftr by lia. pose proof (Z.log2_pos n ltac:(lia)). lia.
Qed.

Lemma shl_loop_pow2 e : forall r, 0 <= r -> r * 2 ^ Z.of_nat e < 2 ^ 64 ->
  shl_loop e r = r * 2 ^ Z.of_nat e.
Proof.
  induction e as [|e IH]; intros r Hr Hb; cbn [shl_loop]; [cbn; lia|].
  rewrite Nat2Z.inj_succ, Z.pow_succ_r in * by lia.
  rewrite Z.shiftl_mul_pow2 by lia. change (2 ^ 1) with 2.
  assert (0 < 2 ^ Z.of_nat e) by (apply Z.pow_pos_nonneg; lia).
  rewrite u64_small by nia. rewrite IH by nia. lia.
Qed.

Lemma floor2e_pow2 num : 0 < num < 2 ^ 64 -> floor2e num = Some (2 ^ Z.log2 num).
Proof.
  intros Hn. unfold floor2e. rewrite shr_loop_log2 by (change (Z.of_nat 64) with 64; lia).
  cbn [mbind option_bind]. pose proof (Z.log2_nonneg num). pose proof (Z.log2_spec num ltac:(lia)).
  rewrite Z.add_0_l. rewrite shl_loop_pow2; rewrite ?Z2Nat.id; (lia || f_equal; lia).
Qed.

Lemma ceil2e_pow2 num : 1 < num <= 2 ^ 63 -> ceil2e num = Some (2 ^ Z.log2_up num).
Proof.
  intros Hn. unfold ceil2e.
  destruct (Z.eqb_spec num 0); [lia|]. destruct (Z.eqb_spec num 1); [lia|]. cbn [orb].
  rewrite shr_loop_log2 by (change (Z.of_nat 64) with 64; lia).
  cbn [mbind option_bind]. rewrite Z.log2_up_eqn by lia.
  replace (Z.pred num) with (num - 1) by lia. pose proof (Z.log2_nonneg (num - 1)).
  assert (Z.log2 (num - 1) < 63) by (apply Z.log2_lt_pow2; lia).
  replace (1 + Z.log2 (num - 1)) with (Z.succ (Z.log2 (num - 1))) by lia.
  assert (2 ^ Z.succ (Z.log2 (num - 1)) < 2 ^ 64) by (apply Z.pow_lt_mono_r; lia).
  rewrite shl_loop_pow2; rewrite ?Z2Nat.id; (lia || f_equal; lia).
Qed.

(** * Varint *)

(** The 7-bit groups of a value, least significant first. *)
Fixpoint groups (fuel : nat) (v : Z) : list Z :=
  match fuel with
  | O => []
  | S f => if v <? 128 then [v] else (v mod 128 + 128) :: groups f (v / 128)
  end.

Lemma varint_encode_groups fuel : forall v w mid rest, (0 < fuel)%nat ->
  0 <= v < 128 ^ Z.of_nat fuel ->
  length mid = length (groups fuel v) ->
  varint_encode_loop fuel v (w ++ mid ++ rest) (zlen w)
  = Some (w ++ groups fuel v ++ rest, zlen w + zlen (groups fuel v)).
Proof.
  induction fuel as [|fuel IH]; intros v w mid rest Hf Hv Hm; [lia|].
  rewrite Nat2Z.inj_succ, Z.pow_succ_r in Hv by lia. cbn [varint_encode_loop groups] in *.
  bits_to_arith. assert (forall c, 0 <= c < 128 -> Z.lor c 128 = c + 128) as Hlor.
  { intros c Hc. apply (Z.eqb_eq (Z.lor c 128) (c + 128)).
    apply (seqZ_check (fun c => Z.lor c 128 =? c + 128) 128); [by vm_compute|done]. }
  destruct mid as [|m0 mid]; [by destruct (v <? 128)|]. cbn [app].
  rewrite zset_middle by done. cbn [mbind option_bind].
  destruct (Z.ltb_spec v 128) as [Hs|Hs].
  - destruct (Z.eqb_spec (v / 128) 0); [|zdm]. destruct mid; [|done]. simpl.
    rewrite Z.mod_small by lia. done.
  - destruct (Z.eqb_spec (v / 128) 0); [zdm|]. rewrite Hlor by zdm. simpl in Hm.
    assert (0 < fuel)%nat as Hf' by (destruct fuel; [cbn in Hv; lia|lia]).
    specialize (IH (v / 128) (w ++ [v mod 128 + 128]) mid rest Hf' ltac:(zdm) ltac:(lia)).
    rewrite <- !app_assoc in IH. cbn [app] in IH. zlen_simpl.
    replace (zlen w + (1 + 0)) with (zlen w + 1) in IH by lia. rewrite IH. do 2 f_equal. lia.
Qed.

Lemma low7 c : 0 <= c < 256 ->
  Z.land c 127 = c mod 128 /\ (Z.land c 128 =? 0) = (c <? 128).
Proof.
  intros Hc. split; [bits_to_arith; done|].
  apply (eqb_true_iff). apply (seqZ_check (fun c => eqb (Z.land c 128 =? 0) (c <? 128)) 256);
  [by vm_compute|done].
Qed.

Lemma zlen_groups fuel v : zlen (groups fuel v) <= Z.of_nat fuel.
Proof.
  revert v. induction fuel as [|f IH]; intros v; cbn [groups]; [done|].
  destruct (v <? 128); zlen_simpl; [lia|]. specialize (IH (v / 128)). lia.
Qed.

Lemma groups_pos fuel v : (0 < fuel)%nat -> 1 <= zlen (groups fuel v).
Proof.
  intros Hf. destruct fuel as [|f]; [lia|]. cbn [groups].
  pose proof (zlen_nonneg (groups f (v / 128))). destruct (v <? 128); zlen_simpl; lia.
Qed.

Lemma varint_decode_groups fuel : forall v pre post len r,
  (0 < fuel)%nat -> zlen pre <= 9 -> 0 <= v < 2 ^ (63 - 7 * zlen pre) -> v < 128 ^ Z.of_nat fuel ->
  0 <= r < 2 ^ (7 * zlen pre) ->
  (len = None \/ len = Some 0 \/ exists n, len = Some n /\ zlen pre + zlen (groups fuel v) <= n) ->
  varint_decode_loop fuel (pre ++ groups fuel v ++ post) len r (zlen pre) (7 * zlen pre)
  = Some (r + v * 2 ^ (7 * zlen pre), set_len len (zlen pre + zlen (groups fuel v))).
Proof.
  induction fuel as [|fuel IH]; intros v pre post len r H0 Hk Hv Hf Hr Hlen; [lia|].
  rewrite Nat2Z.inj_succ, Z.pow_succ_r in Hf by lia. cbn [varint_decode_loop groups] in *.
  pose proof (zlen_nonneg pre). set (B := 2 ^ (7 * zlen pre)) in *.
  assert (0 < B) by (apply Z.pow_pos_nonneg; lia).
  assert (2 ^ (63 - 7 * zlen pre) * B = 2 ^ 63) as HB63
    by (subst B; rewrite <- Z.pow_add_r by lia; f_equal; lia).
  assert ((v + 1) * B <= 2 ^ 63) as Hb by nia.
  assert (not_enough len (zlen pre) = false) as ->.
  { destruct Hlen as [->|[->|(n & -> & Hn)]]; [done|done|]. unfold not_enough.
    pose proof (zlen_nonneg (groups fuel (v / 128))).
    destruct (v <? 128); zlen_simpl; zcases. }
  destruct (Z.ltb_spec v 128) as [Hs|Hs]; cbn [app]; rewrite zget_middle by done; cbn [mbind option_bind].
  - destruct (low7 v) as [-> ->]; [lia|]. rewrite Z.mod_small by lia.
    destruct (Z.ltb_spec v 128); [|lia].
    rewrite (i64_small (Z.shiftl v _)) by (rewrite Z.shiftl_mul_pow2 by lia; fold B; nia).
    rewrite lor_disjoint by (fold B; lia). fold B. rewrite i64_small by nia. zlen_simpl. done.
  - assert (0 <= v mod 128 < 128) by zdm. destruct (low7 (v mod 128 + 128)) as [-> ->]; [lia|].
    destruct (Z.ltb_spec (v mod 128 + 128) 128); [lia|].
    replace ((v mod 128 + 128) mod 128) with (v mod 128) by zdm.
    assert (v mod 128 <= v) by zdm.
    rewrite (i64_small (Z.shiftl _ _)) by (rewrite Z.shiftl_mul_pow2 by lia; fold B; nia).
    rewrite lor_disjoint by (fold B; lia). fold B. rewrite i64_small by nia.
    specialize (IH (v / 128) (pre ++ [v mod 128 + 128]) post len (r + v mod 128 * B)).
    assert (2 ^ (7 * zlen (pre ++ [v mod 128 + 128])) = 128 * B) as HB.
    { zlen_simpl. replace (7 * (zlen pre + (1 + 0))) with (7 + 7 * zlen pre) by lia.
      rewrite Z.pow_add_r by lia. done. }
    rewrite HB in IH. rewrite <- !app_assoc in IH. cbn [app] in IH. zlen_simpl.
    replace (zlen pre + (1 + 0)) with (zlen pre + 1) in IH by lia.
    replace (7 * (zlen pre + 1)) with (7 * zlen pre + 7) in IH by lia.
    assert (2 ^ 7 < 2 ^ (63 - 7 * zlen pre)) as H7 by (change (2 ^ 7) with 128; lia).
    apply Z.pow_lt_mono_r_iff in H7; [|lia|lia].
    assert (2 ^ (63 - 7 * zlen pre) = 128 * 2 ^ (63 - (7 * zlen pre + 7))) as Hp.
    { replace (63 - 7 * zlen pre) with (7 + (63 - (7 * zlen pre + 7))) by lia.
      by rewrite Z.pow_add_r by lia. }
    assert (0 < fuel)%nat as Hf' by (destruct fuel; [cbn in Hf; lia|lia]).
    rewrite IH; [|done|lia|rewrite Hp in Hv; zdm|zdm|nia|].
    + do 2 f_equal; [|f_equal; lia]. rewrite (Z.div_mod v 128) at 3 by lia. nia.
    + destruct Hlen as [->|[->|(n & -> & Hn)]]; eauto. right. right. exists n. split; [done|]. lia.
Qed.

(** A negative value never becomes 0 under an arithmetic shift. *)
Lemma varint_encode_negative fuel : forall v buf bytes, v < 0 ->
  varint_encode_loop fuel v buf bytes = None.
Proof.
  induction fuel as [|fuel IH]; intros v buf bytes Hv; [done|]. cbn [varint_encode_loop].
  rewrite (Z.shiftr_div_pow2 v 7) by lia. change (2 ^ 7) with 128.
  assert (v / 128 < 0) by zdm. destruct (Z.eqb_spec (v / 128) 0); [lia|].
  destruct (zset _ _ _); [|done]. cbn [mbind option_bind]. by apply IH.
Qed.

(** * ASN.1 length *)

(** The bytes [asn1_encode] writes. *)
Definition asn1_bytes (v : Z) : list Z :=
  let byte k := u8 (Z.shiftr v k) in
  if v <? 128 then [byte 0]
  else if v <? 256 then [129; byte 0]
  else if v <? 65536 then [130; byte 8; byte 0]
  else if v <? 16777126 then [131; byte 16; byte 8; byte 0]
  else [132; byte 24; byte 16; byte 8; byte 0].

Lemma asn1_encode_bytes v mid rest : zlen mid = zlen (asn1_bytes v) ->
  asn1_encode v (mid ++ rest) = Some (asn1_bytes v ++ rest, zlen (asn1_bytes v)).
Proof.
  intros Hm. unfold asn1_encode. unfold asn1_bytes in *.
  repeat case_match; rewrite (zcopy_at [] mid rest) by done; done.
Qed.

Lemma not_enough_in n bytes len :
  (len = None \/ len = Some 0 \/ exists k, len = Some k /\ n <= k) -> bytes < n ->
  not_enough len bytes = false.
Proof.
  intros [->|[->|(k & -> & Hk)]] Hb; [done|done|]. unfold not_enough. zcases; done.
Qed.

(** Reading big-endian bytes. *)
Fixpoint be (r : Z) (l : list Z) : Z :=
  match l with [] => r | b :: l => be (r * 256 + b) l end.

Lemma asn1_loop_be l : forall pre post len r, Bytes l ->
  (len = None \/ len = Some 0 \/ exists k, len = Some k /\ zlen pre + zlen l <= k) ->
  0 <= r -> (r + 1) * 256 ^ zlen l <= 2 ^ 63 ->
  asn1_decode_loop (length l) (pre ++ l ++ post) len r (zlen pre)
  = Some (be r l, set_len len (zlen pre + zlen l)).
Proof.
  induction l as [|b l IH]; intros pre post len r Hl Hlen Hr Hb.
  - rewrite zlen_nil, Z.add_0_r. done.
  - apply Forall_cons in Hl as [Hb0 Hl]. cbn [length asn1_decode_loop be].
    pose proof (zlen_nonneg l). zlen_simpl.
    rewrite (not_enough_in _ _ _ Hlen) by lia. cbn [app]. rewrite zget_middle by done.
    cbn [mbind option_bind]. rewrite lor_byte by done.
    rewrite Z.pow_add_r in Hb by lia. change (256 ^ 1) with 256 in Hb. unfold is_byte in Hb0.
    assert (0 < 256 ^ zlen l) by (apply Z.pow_pos_nonneg; lia).
    rewrite i64_small by nia.
    specialize (IH (pre ++ [b]) post len (r * 256 + b) Hl).
    rewrite <- app_assoc in IH. cbn [app] in IH. zlen_simpl.
    replace (zlen pre + (1 + 0)) with (zlen pre + 1) in IH by lia. rewrite IH; [|..].
    + do 3 f_equal. lia.
    + destruct Hlen as [->|[->|(k & -> & Hk)]]; eauto. right. right. exists k. split; [done|lia].
    + lia.
    + nia.
Qed.

Lemma asn1_decode_bytes v post len : 0 <= v < 2 ^ 32 ->
  (len = None \/ len = Some 0 \/ exists k, len = Some k /\ zlen (asn1_bytes v) <= k) ->
  asn1_decode (asn1_bytes v ++ post) len = Some (v, set_len len (zlen (asn1_bytes v))).
Proof.
  intros Hv Hlen. unfold asn1_decode.
  assert (forall t l, asn1_bytes v = t :: l -> 128 < t < 256 -> Z.to_nat (Z.land t 127) = length l ->
    Bytes l -> zlen l <= 4 -> be 0 l = v ->
    asn1_decode (asn1_bytes v ++ post) len = Some (v, set_len len (zlen (asn1_bytes v)))) as Hmulti.
  { intros t l E Ht Hn Hl Hl4 Hbe. unfold asn1_decode. rewrite E in *. cbn [app].
    rewrite zget_0. cbn [mbind option_bind].
    destruct (Z.ltb_spec t 128); [lia|]. destruct (Z.eqb_spec t 128); [lia|]. rewrite Hn.
    pose proof (asn1_loop_be l [t] post len 0 Hl) as Hloop. cbn [app] in Hloop.
    change (zlen [t]) with 1 in Hloop. rewrite Hloop, Hbe; [by zlen_simpl|zlen_simpl; done|lia|].
    assert (256 ^ zlen l <= 256 ^ 4) by (apply Z.pow_le_mono_r; lia). change (256 ^ 4) with 4294967296 in *. lia. }
  unfold asn1_decode in Hmulti. unfold asn1_bytes in *.
  assert (forall k, is_byte (u8 (Z.shiftr v k))) as Hbyte by (intros; apply u8_range).
  destruct (Z.ltb_spec v 128).
  { cbn [app]. rewrite zget_0. cbn [mbind option_bind].
    assert (u8 (Z.shiftr v 0) = v) as -> by (rewrite Z.shiftr_0_r; apply u8_small; lia).
    destruct (Z.ltb_spec v 128); [done|lia]. }
  repeat match goal with |- context [if v <? ?c then _ else _] => destruct (Z.ltb_spec v c) end;
    (eapply Hmulti; [done|lia|done|
       by repeat (apply Forall_cons_2; [apply Hbyte|]); apply Forall_nil_2|done|]);
    cbn [be]; unfold u8; rewrite ?Z.shiftr_0_r; rewrite ?Z.shiftr_div_pow2 by lia;
    change (2 ^ 8) with 256; change (2 ^ 16) with 65536; change (2 ^ 24) with 16777216; zdm.
Qed.

(** * Properties *)

(** floor2e is the largest power of two not above a positive argument, and
    ceil2e the smallest one not below it (up to 2^63, where the result still
    fits an unsigned long); both loops end. *)
Theorem pow2_bounds num : 1 < num <= 2 ^ 63 ->
  exists f c, floor2e num = Some f /\ ceil2e num = Some c /\
    f <= num < 2 * f /\ c / 2 < num <= c.
Proof.
  intros Hn. exists (2 ^ Z.log2 num), (2 ^ Z.log2_up num).
  split_and!; [apply floor2e_pow2; lia|by apply ceil2e_pow2|..].
  - apply Z.log2_spec. lia.
  - rewrite <- Z.pow_succ_r by apply Z.log2_nonneg. apply Z.log2_spec. lia.
  - pose proof (Z.log2_up_spec num ltac:(lia)). pose proof (Z.log2_up_pos num ltac:(lia)).
    rewrite <- (Z.succ_pred (Z.log2_up num)), Z.pow_succ_r, Z.mul_comm by lia.
    rewrite Z.div_mul by lia. lia.
  - apply Z.log2_up_spec. lia.
Qed.

Lemma pow2_bounds_witness : exists f c, floor2e 1000 = Some f /\ ceil2e 1000 = Some c /\
  f <= 1000 < 2 * f /\ c / 2 < 1000 <= c.
Proof. apply (pow2_bounds 1000). lia. Defined.

(** A varint written for a non-negative long long is read back with its
    length, whether the caller passes no length, 0, or enough bytes. *)
Lemma varint_roundtrip v buf rest len : 0 <= v < 2 ^ 63 -> zlen buf = 10 ->
  exists out n, varint_encode v (buf ++ rest) = Some (out, n) /\ 1 <= n <= 10 /\
    ((len = None \/ len = Some 0 \/ exists k, len = Some k /\ n <= k) ->
     varint_decode out len = Some (v, set_len len n)).
Proof.
  intros Hv Hbuf. set (g := groups 10 v). pose proof (zlen_groups 10 v) as Hg. fold g in Hg.
  assert (128 ^ Z.of_nat 10 = 2 ^ 70) as E70 by done.
  exists (g ++ drop (length g) buf ++ rest), (zlen g). split_and!.
  - rewrite <- (take_drop (length g) buf) at 1. rewrite <- app_assoc. unfold varint_encode.
    pose proof (varint_encode_groups 10 v [] (take (length g) buf) (drop (length g) buf ++ rest)) as He.
    cbn [app] in He. change (zlen []) with 0 in He. rewrite He; [done|lia|rewrite E70; lia|].
    rewrite length_take. fold g. unfold zlen in *. lia.
  - subst g. apply groups_pos. lia.
  - lia.
  - intros Hlen. pose proof (varint_decode_groups 10 v [] (drop (length g) buf ++ rest) len 0) as Hd.
    cbn [app] in Hd. change (zlen []) with 0 in Hd. unfold varint_decode. fold g in Hd.
    change (7 * 0) with 0 in Hd.
    rewrite Hd; [|lia|lia|change (63 - 0) with 63; lia|rewrite E70; lia|done|done].
    cbn [Z.mul Z.pow]. do 3 f_equal. lia.
Qed.

Lemma varint_roundtrip_witness : exists out n,
  varint_encode 300 (repeat 0 10 ++ []) = Some (out, n) /\ 1 <= n <= 10 /\
  ((Some 2 = None \/ Some 2 = Some 0 \/ exists k, Some 2 = Some k /\ n <= k) ->
   varint_decode out (Some 2) = Some (300, set_len (Some 2) n)).
Proof. apply (varint_roundtrip 300 (repeat 0 10) [] (Some 2)); [lia|reflexivity]. Defined.

(** varint_encode does not end on a negative value: however long it runs
    and whatever the buffer, it never returns. *)
Theorem varint_encode_negative_diverges fuel v buf : v < 0 ->
  varint_encode_loop fuel v buf 0 = None.
Proof. apply varint_encode_negative. Qed.

Lemma varint_encode_negative_diverges_witness :
  varint_encode_loop 1000 (-1) (repeat 0 2000) 0 = None.
Proof. apply (varint_encode_negative_diverges 1000 (-1) (repeat 0 2000)). lia. Defined.

(** An ASN.1 length of up to 32 bits is read back with its size; every
    value is written in at most five bytes. *)
Lemma asn1_roundtrip v buf rest len : 0 <= v < 2 ^ 32 -> zlen buf = zlen (asn1_bytes v) ->
  exists out n, asn1_encode v (buf ++ rest) = Some (out, n) /\ 1 <= n <= 5 /\
    ((len = None \/ len = Some 0 \/ exists k, len = Some k /\ n <= k) ->
     asn1_decode out len = Some (v, set_len len n)).
Proof.
  intros Hv Hbuf. exists (asn1_bytes v ++ rest), (zlen (asn1_bytes v)). split_and!.
  - by apply asn1_encode_bytes.
  - unfold asn1_bytes. repeat case_match; zlen_simpl; lia.
  - unfold asn1_bytes. repeat case_match; zlen_simpl; lia.
  - intros Hlen. by apply asn1_decode_bytes.
Qed.

Lemma asn1_roundtrip_witness : exists out n,
  asn1_encode 70000 (repeat 0 4 ++ [9]) = Some (out, n) /\ 1 <= n <= 5 /\
  ((Some 0 = None \/ Some 0 = Some 0 \/ exists k, Some 0 = Some k /\ n <= k) ->
   asn1_decode out (Some 0) = Some (70000, set_len (Some 0) n)).
Proof. apply (asn1_roundtrip 70000 (repeat 0 4) [9] (Some 0)); [lia|reflexivity]. Defined.

End HMath.
