(* ===== verification/Hash.v ===== *)
(** Hashing by 64-byte blocks, as md5.c and sha1.c do it: a message is absorbed
    block by block, and a context keeps the unfinished block in a buffer. Shared
    by the two hash functions, whose block functions are parameters here. *)
From S2P Require Import Prelude.

Module Hash.

Section Blocks.
Context {St : Type} (compress : St -> list Z -> St).
Implicit Types (s : St) (l msg input buf : list Z).

(** * Reference *)

(** The first [n] blocks of [l]. *)
Fixpoint absorb (n : nat) s l : St :=
  match n with
  | O => s
  | S n => absorb n (compress s (take 64 l)) (drop 64 l)
  end.

Definition nblocks l : nat := (length l / 64)%nat.
Definition whole s l : St := absorb (nblocks l) s l.
Definition rest l : list Z := drop (64 * nblocks l) l.

Lemma absorb_app n : forall m s l k, length l = (64 * n)%nat ->
  absorb (n + m) s (l ++ k) = absorb m (absorb n s l) k.
Proof.
  induction n as [|n IH]; intros m s l k Hl.
  - assert (l = []) as -> by (destruct l; [done|simpl in Hl; lia]). done.
  - simpl. rewrite <- IH by (rewrite length_drop; lia). rewrite take_app_le, drop_app_le by lia. done.
Qed.

Lemma absorb_prefix n : forall s l k, (64 * n <= length l)%nat -> absorb n s (l ++ k) = absorb n s l.
Proof.
  induction n as [|n IH]; intros s l k Hn; [done|]. simpl. rewrite take_app_le, drop_app_le by lia.
  apply IH. rewrite length_drop. lia.
Qed.

Lemma rest_length l : length (rest l) = (length l mod 64)%nat.
Proof. unfold rest, nblocks. rewrite length_drop. rewrite Nat.mod_eq by lia. lia. Qed.

(** Too little input to finish a block. *)
Lemma whole_short s msg input : (length (rest msg) + length input < 64)%nat ->
  whole s (msg ++ input) = whole s msg /\ rest (msg ++ input) = rest msg ++ input.
Proof.
  rewrite rest_length. intros Hlt.
  assert (nblocks (msg ++ input) = nblocks msg) as En.
  { unfold nblocks. rewrite length_app. pose proof (Nat.div_mod (length msg) 64 ltac:(lia)) as E.
    symmetry. apply (Nat.div_unique _ _ _ (length msg mod 64 + length input)); lia. }
  assert (64 * nblocks msg <= length msg)%nat by (unfold nblocks; pose proof (Nat.mul_div_le (length msg) 64); lia).
  unfold whole, rest. rewrite En, absorb_prefix, drop_app_le by done. done.
Qed.

(** Input that finishes the block and [n] more. *)
Lemma whole_long s msg input p n : (p + length (rest msg) = 64)%nat -> (p + 64 * n <= length input)%nat ->
  (length input < p + 64 * n + 64)%nat ->
  whole s (msg ++ input) = absorb n (compress (whole s msg) (rest msg ++ take p input)) (drop p input) /\
  rest (msg ++ input) = drop (p + 64 * n) input.
Proof.
  intros Hp Hlo Hhi. assert (length (rest msg) = (length msg mod 64)%nat) as Hr by apply rest_length.
  pose proof (Nat.div_mod (length msg) 64 ltac:(lia)) as E. fold (nblocks msg) in E.
  assert (nblocks (msg ++ input) = nblocks msg + S n)%nat as En.
  { unfold nblocks at 1. rewrite length_app. symmetry.
    apply (Nat.div_unique _ _ _ (length input - p - 64 * n)); lia. }
  assert (msg = take (64 * nblocks msg) msg ++ rest msg) as Em by (unfold rest; by rewrite take_drop).
  assert (length (rest msg ++ take p input) = 64)%nat as H64 by (rewrite length_app, length_take; lia).
  unfold whole. rewrite En. split.
  - assert (msg ++ input = take (64 * nblocks msg) msg ++ (rest msg ++ take p input) ++ drop p input) as ->.
    { rewrite <- app_assoc, take_drop. by rewrite (app_assoc (take _ msg)), <- Em. }
    rewrite absorb_app by (rewrite length_take; lia).
    replace (S n) with (1 + n)%nat by lia. rewrite absorb_app by lia.
    cbn [absorb]. rewrite (take_ge (rest msg ++ take p input)) by (rewrite H64; done). do 2 f_equal.
    transitivity (absorb (nblocks msg) s (take (64 * nblocks msg) msg ++ rest msg)); [|by rewrite <- Em].
    symmetry. apply absorb_prefix. rewrite length_take. lia.
  - unfold rest. rewrite En. rewrite drop_app_ge by lia. f_equal. lia.
Qed.

(** * The loop over whole blocks of the input *)

(** [for (; more(i); i += 64) transform(state, &input[i])]. *)
Fixpoint block_loop (more : Z -> bool) (fuel : nat) (input : list Z) (i : Z) s : option (Z * St) :=
  if more i then
    match fuel with
    | O => None
    | S f => blk ← zslice input i 64; block_loop more f input (u32 (i + 64)) (compress s blk)
    end
  else Some (i, s).

(** Only the first bytes of the array are input. *)
Lemma zslice_prefix {A} (l k : list A) i n : 0 <= i -> 0 <= n -> i + n <= zlen l ->
  zslice (l ++ k) i n = Some (take (Z.to_nat n) (drop (Z.to_nat i) l)).
Proof.
  intros. unfold zslice. rewrite zlen_app. pose proof (zlen_nonneg k). zcases.
  unfold zlen in *. rewrite drop_app_le by lia. rewrite take_app_le by (rewrite length_drop; lia). done.
Qed.

Lemma block_loop_ok more n : forall fuel input extra i s, (n <= fuel)%nat -> 0 <= i ->
  i + 64 * Z.of_nat n <= zlen input -> zlen input + 64 < 2 ^ 32 ->
  (forall k, i <= k <= zlen input -> more k = (k + 64 <=? zlen input)) ->
  zlen input < i + 64 * Z.of_nat n + 64 ->
  block_loop more fuel (input ++ extra) i s = Some (i + 64 * Z.of_nat n, absorb n s (drop (Z.to_nat i) input)).
Proof.
  induction n as [|n IH]; intros fuel input extra i s Hf Hi Hlo Hb Hmore Hhi.
  - assert (more i = false) as Hm by (rewrite Hmore by lia; apply Z.leb_gt; lia).
    destruct fuel; simpl; rewrite Hm; do 2 f_equal; lia.
  - destruct fuel as [|fuel]; [lia|]. simpl. rewrite Hmore by lia.
    destruct (Z.leb_spec (i + 64) (zlen input)); [|lia]. rewrite zslice_prefix by lia. cbn [mbind option_bind].
    rewrite u32_small by lia. rewrite IH; [|lia|lia|lia|lia| |lia].
    + rewrite drop_drop. replace (Z.to_nat (i + 64)) with (Z.to_nat i + 64)%nat by lia.
      do 2 f_equal. lia.
    + intros k Hk. apply Hmore. lia.
Qed.

(** * The buffered update *)

(** [input] finishes the block in the buffer when there is [enough] of it; whole
    blocks are then taken from the input itself, and what is left goes to the
    buffer. *)
Definition buffer_update (enough : bool) (more : Z -> bool) (index : Z) (input : list Z) (inputlen : Z)
    s buf : option (St * list Z) :=
  '(s, buf, i, index) ←
    (if enough then
       part ← zslice input 0 (u32 (64 - index));
       buf ← zcopy buf index part;
       '(i, s) ← block_loop more (Z.to_nat inputlen) input (u32 (64 - index)) (compress s buf);
       Some (s, buf, i, 0)
     else Some (s, buf, 0, index));
  tail ← zslice input i (u32 (inputlen - i));
  buf ← zcopy buf index tail;
  Some (s, buf).

Lemma zcopy_take {A} (dst src : list A) d : 0 <= d -> d + zlen src <= zlen dst ->
  exists dst', zcopy dst d src = Some dst' /\ length dst' = length dst /\
    take (Z.to_nat d + length src) dst' = take (Z.to_nat d) dst ++ src.
Proof.
  intros Hd Hb. unfold zcopy. pose proof (zlen_nonneg src). zcases. unfold zlen in *.
  eexists. split; [done|]. split.
  - rewrite !length_app, length_take, length_drop. lia.
  - rewrite app_assoc. apply take_app_length'. rewrite length_app, length_take. lia.
Qed.

(** The buffer starts with the unfinished block. *)
Definition holds buf msg : Prop := length buf = 64%nat /\ take (length (rest msg)) buf = rest msg.

Lemma buffer_update_ok enough more s0 msg input extra buf index :
  holds buf msg -> zlen input + 64 < 2 ^ 32 -> index = zlen msg mod 64 ->
  enough = (64 - index <=? zlen input) ->
  (forall k, 0 <= k <= zlen input -> more k = (k + 64 <=? zlen input)) ->
  exists buf', buffer_update enough more index (input ++ extra) (zlen input) (whole s0 msg) buf
      = Some (whole s0 (msg ++ input), buf') /\ holds buf' (msg ++ input).
Proof.
  intros [Hlen Hbuf] Hb Hidx Hen Hmore. pose proof (zlen_nonneg input) as Hi0.
  pose proof (rest_length msg) as Hr. assert (Z.of_nat (length (rest msg)) = index) as Hr'.
  { rewrite Hr, Hidx. unfold zlen. by rewrite Nat2Z.inj_mod. }
  assert (0 <= index < 64) as Hx by (rewrite Hidx; apply Z.mod_pos_bound; lia). clear Hidx.
  unfold buffer_update. rewrite (u32_small (64 - index)) by lia.
  set (r := rest msg) in *. assert (take (Z.to_nat index) buf = r) as Hbuf' by (rewrite <- Hbuf at 1; f_equal; lia).
  subst enough. destruct (Z.leb_spec (64 - index) (zlen input)) as [Hge|Hlt].
  - set (p := Z.to_nat (64 - index)).
    assert (exists n, (p + 64 * n <= length input)%nat /\ (length input < p + 64 * n + 64)%nat) as (n & Hn1 & Hn2).
    { exists ((length input - p) / 64)%nat. pose proof (Nat.div_mod (length input - p) 64 ltac:(lia)).
      pose proof (Nat.mod_upper_bound (length input - p) 64 ltac:(lia)). unfold zlen in Hge. subst p. lia. }
    rewrite zslice_prefix by lia. cbn [mbind option_bind]. change (Z.to_nat 0) with 0%nat. rewrite drop_0. fold p.
    assert (zlen (take p input) = 64 - index) as Hp.
    { unfold zlen. rewrite length_take. unfold zlen in Hge. subst p. lia. }
    destruct (zcopy_take buf (take p input) index) as (buf1 & -> & Hlb & Htk);
      [lia|unfold zlen at 2; rewrite Hlen; lia|]. cbn [mbind option_bind].
    rewrite Hbuf' in Htk. assert (buf1 = r ++ take p input) as Eb.
    { rewrite <- Htk. rewrite take_ge; [done|]. unfold zlen in Hp. lia. }
    rewrite (block_loop_ok _ n); [|unfold zlen in *; subst p; lia..|intros k Hk; apply Hmore; lia|unfold zlen in *; subst p; lia].
    cbn [mbind option_bind].
    destruct (whole_long s0 msg input p n) as [Hw Hrest]; [fold r; subst p; lia|done|done|].
    rewrite u32_small by (unfold zlen in *; subst p; lia).
    rewrite zslice_prefix by (unfold zlen in *; subst p; lia). cbn [mbind option_bind].
    set (tail := take _ (drop _ input)).
    assert (tail = rest (msg ++ input)) as Et.
    { subst tail. rewrite Hrest. rewrite take_ge; [f_equal; subst p; lia|]. rewrite length_drop. unfold zlen in *. subst p. lia. }
    assert (zlen tail < 64) as Htl.
    { rewrite Et. unfold zlen. rewrite rest_length. pose proof (Nat.mod_upper_bound (length (msg ++ input)) 64). lia. }
    destruct (zcopy_take buf1 tail 0) as (buf' & -> & Hlb' & Htk'); [lia|unfold zlen at 2; lia|]. cbn [mbind option_bind].
    exists buf'. split; [rewrite Hw, Eb; done|]. split; [lia|]. rewrite <- Et. exact Htk'.
  - cbn [mbind option_bind]. rewrite Z.sub_0_r, u32_small by lia. rewrite zslice_prefix by lia. cbn [mbind option_bind].
    change (Z.to_nat 0) with 0%nat. rewrite drop_0, take_ge by (unfold zlen; lia).
    destruct (zcopy_take buf input index) as (buf' & -> & Hlb & Htk);
      [lia|unfold zlen at 2; rewrite Hlen; lia|]. cbn [mbind option_bind].
    destruct (whole_short s0 msg input) as [Hw Hrest]; [fold r; unfold zlen in Hlt; lia|].
    exists buf'. split; [by rewrite Hw|]. split; [lia|].
    rewrite Hrest. fold r. rewrite <- Hbuf' at 2. rewrite <- Htk. f_equal. rewrite length_app. lia.
Qed.

End Blocks.

(** * The bit count kept in two words *)

(** [count[0] += len << 3] with its carry, and [count[1] += len >> 29]. *)
Definition bit_count (n : Z) : Z * Z := (u32 (8 * n), u32 (8 * n / 2 ^ 32)).

Lemma bit_count_add n k : 0 <= n -> 0 <= k < 2 ^ 32 ->
  bit_count (n + k) =
    (u32 (u32 (8 * n) + u32 (Z.shiftl k 3)),
     u32 ((if u32 (u32 (8 * n) + u32 (Z.shiftl k 3)) <? u32 (Z.shiftl k 3)
           then u32 (u32 (8 * n / 2 ^ 32) + 1) else u32 (8 * n / 2 ^ 32)) + Z.shiftr k 29)).
Proof.
  intros Hn Hk. unfold bit_count. rewrite Z.shiftl_mul_pow2, Z.shiftr_div_pow2 by lia.
  change (2 ^ 3) with 8. change (2 ^ 29) with 536870912. change (2 ^ 32) with 4294967296 in *. unfold u32.
  f_equal; [rewrite Z.add_mod_idemp_l, Z.add_mod_idemp_r by lia; f_equal; lia|].
  rewrite <- (Z.add_mod_idemp_l (if _ : bool then _ else _)) by lia.
  assert (forall b : bool, (if b then (8 * n / 4294967296 mod 4294967296 + 1) mod 4294967296
     else 8 * n / 4294967296 mod 4294967296) mod 4294967296
     = (8 * n / 4294967296 + b2z b) mod 4294967296) as ->.
  { intros []; simpl; rewrite ?Z.mod_mod, ?Z.add_mod_idemp_l, ?Z.add_0_r by lia; done. }
  rewrite Z.add_mod_idemp_l by lia. f_equal.
  destruct (Z.ltb_spec ((8 * n mod 4294967296 + (k * 8) mod 4294967296) mod 4294967296) ((k * 8) mod 4294967296));
    simpl; zdm.
Qed.

(** The position in the current block. *)
Lemma bit_count_index n : 0 <= n -> Z.land (Z.shiftr (u32 (8 * n)) 3) 63 = n mod 64.
Proof.
  intros Hn. rewrite Z.shiftr_div_pow2 by lia. change 63 with (Z.ones 6). rewrite Z.land_ones by lia.
  unfold u32. change (2 ^ 3) with 8. change (2 ^ 6) with 64. zdm.
Qed.

End Hash.
