(* ===== verification/Md5.v ===== *)
(** The MD5 digest of util/md5.c: the unrolled block function, the buffered
    update, the padding, and the hexadecimal form; against RFC 1321's table-driven
    description of the algorithm. *)
From S2P Require Import Prelude Hash.
Import Hash.

Module Md5.

(** * The block function *)

Definition not32 (x : Z) : Z := u32 (Z.lnot x).
Definition F (x y z : Z) : Z := Z.lor (Z.land x y) (Z.land (not32 x) z).
Definition G (x y z : Z) : Z := Z.lor (Z.land x z) (Z.land y (not32 z)).
Definition H (x y z : Z) : Z := Z.lxor (Z.lxor x y) z.
Definition I (x y z : Z) : Z := Z.lxor y (Z.lor x (not32 z)).
Definition ROTATE_LEFT (x n : Z) : Z := Z.lor (u32 (Z.shiftl x n)) (Z.shiftr x (32 - n)).

(** [a += f(b,c,d) + x + ac; a = ROTATE_LEFT(a,s); a += b]. *)
Definition FF (a b c d x s ac : Z) : Z :=
  let a := u32 (a + u32 (u32 (F b c d + x) + ac)) in let a := ROTATE_LEFT a s in u32 (a + b).
Definition GG (a b c d x s ac : Z) : Z :=
  let a := u32 (a + u32 (u32 (G b c d + x) + ac)) in let a := ROTATE_LEFT a s in u32 (a + b).
Definition HH (a b c d x s ac : Z) : Z :=
  let a := u32 (a + u32 (u32 (H b c d + x) + ac)) in let a := ROTATE_LEFT a s in u32 (a + b).
Definition II (a b c d x s ac : Z) : Z :=
  let a := u32 (a + u32 (u32 (I b c d + x) + ac)) in let a := ROTATE_LEFT a s in u32 (a + b).

(** Words to bytes and back, least significant byte first. *)
Fixpoint HV_MD5Encode (input : list Z) : list Z :=
  match input with
  | [] => []
  | w :: input => [Z.land w 0xFF; Z.land (Z.shiftr w 8) 0xFF; Z.land (Z.shiftr w 16) 0xFF;
                   Z.land (Z.shiftr w 24) 0xFF] ++ HV_MD5Encode input
  end.
Fixpoint HV_MD5Decode (input : list Z) : list Z :=
  match input with
  | b0 :: b1 :: b2 :: b3 :: input =>
      Z.lor (Z.lor (Z.lor b0 (Z.shiftl b1 8)) (Z.shiftl b2 16)) (Z.shiftl b3 24) :: HV_MD5Decode input
  | _ => []
  end.

Definition words : Type := Z * Z * Z * Z.

(** The lines of the unrolled function: a macro, its registers (the first is
    written), the message word, the shift and the constant. *)
Inductive reg := Ra | Rb | Rc | Rd.
Definition rget (r : reg) (s : words) : Z :=
  let '(a, b, c, d) := s in match r with Ra => a | Rb => b | Rc => c | Rd => d end.
Definition rput (r : reg) (v : Z) (s : words) : words :=
  let '(a, b, c, d) := s in
  match r with Ra => (v, b, c, d) | Rb => (a, v, c, d) | Rc => (a, b, v, d) | Rd => (a, b, c, v) end.
Inductive line_t := line (op : Z -> Z -> Z -> Z -> Z -> Z -> Z -> Z) (a b c d : reg) (x s ac : Z).
Definition md5_line (x : list Z) (s : words) (l : line_t) : words :=
  let '(line op a b c d i sh ac) := l in
  rput a (op (rget a s) (rget b s) (rget c s) (rget d s) (nth (Z.to_nat i) x 0) sh ac) s.

Definition md5_lines : list line_t :=
  [line FF Ra Rb Rc Rd  0  7 0xd76aa478;
   line FF Rd Ra Rb Rc  1 12 0xe8c7b756;
   line FF Rc Rd Ra Rb  2 17 0x242070db;
   line FF Rb Rc Rd Ra  3 22 0xc1bdceee;
   line FF Ra Rb Rc Rd  4  7 0xf57c0faf;
   line FF Rd Ra Rb Rc  5 12 0x4787c62a;
   line FF Rc Rd Ra Rb  6 17 0xa8304613;
   line FF Rb Rc Rd Ra  7 22 0xfd469501;
   line FF Ra Rb Rc Rd  8  7 0x698098d8;
   line FF Rd Ra Rb Rc  9 12 0x8b44f7af;
   line FF Rc Rd Ra Rb 10 17 0xffff5bb1;
   line FF Rb Rc Rd Ra 11 22 0x895cd7be;
   line FF Ra Rb Rc Rd 12  7 0x6b901122;
   line FF Rd Ra Rb Rc 13 12 0xfd987193;
   line FF Rc Rd Ra Rb 14 17 0xa679438e;
   line FF Rb Rc Rd Ra 15 22 0x49b40821;
   line GG Ra Rb Rc Rd  1  5 0xf61e2562;
   line GG Rd Ra Rb Rc  6  9 0xc040b340;
   line GG Rc Rd Ra Rb 11 14 0x265e5a51;
   line GG Rb Rc Rd Ra  0 20 0xe9b6c7aa;
   line GG Ra Rb Rc Rd  5  5 0xd62f105d;
   line GG Rd Ra Rb Rc 10  9 0x2441453;
   line GG Rc Rd Ra Rb 15 14 0xd8a1e681;
   line GG Rb Rc Rd Ra  4 20 0xe7d3fbc8;
   line GG Ra Rb Rc Rd  9  5 0x21e1cde6;
   line GG Rd Ra Rb Rc 14  9 0xc33707d6;
   line GG Rc Rd Ra Rb  3 14 0xf4d50d87;
   line GG Rb Rc Rd Ra  8 20 0x455a14ed;
   line GG Ra Rb Rc Rd 13  5 0xa9e3e905;
   line GG Rd Ra Rb Rc  2  9 0xfcefa3f8;
   line GG Rc Rd Ra Rb  7 14 0x676f02d9;
   line GG Rb Rc Rd Ra 12 20 0x8d2a4c8a;
   line HH Ra Rb Rc Rd  5  4 0xfffa3942;
   line HH Rd Ra Rb Rc  8 11 0x8771f681;
   line HH Rc Rd Ra Rb 11 16 0x6d9d6122;
   line HH Rb Rc Rd Ra 14 23 0xfde5380c;
   line HH Ra Rb Rc Rd  1  4 0xa4beea44;
   line HH Rd Ra Rb Rc  4 11 0x4bdecfa9;
   line HH Rc Rd Ra Rb  7 16 0xf6bb4b60;
   line HH Rb Rc Rd Ra 10 23 0xbebfbc70;
   line HH Ra Rb Rc Rd 13  4 0x289b7ec6;
   line HH Rd Ra Rb Rc  0 11 0xeaa127fa;
   line HH Rc Rd Ra Rb  3 16 0xd4ef3085;
   line HH Rb Rc Rd Ra  6 23 0x4881d05;
   line HH Ra Rb Rc Rd  9  4 0xd9d4d039;
   line HH Rd Ra Rb Rc 12 11 0xe6db99e5;
   line HH Rc Rd Ra Rb 15 16 0x1fa27cf8;
   line HH Rb Rc Rd Ra  2 23 0xc4ac5665;
   line II Ra Rb Rc Rd  0  6 0xf4292244;
   line II Rd Ra Rb Rc  7 10 0x432aff97;
   line II Rc Rd Ra Rb 14 15 0xab9423a7;
   line II Rb Rc Rd Ra  5 21 0xfc93a039;
   line II Ra Rb Rc Rd 12  6 0x655b59c3;
   line II Rd Ra Rb Rc  3 10 0x8f0ccc92;
   line II Rc Rd Ra Rb 10 15 0xffeff47d;
   line II Rb Rc Rd Ra  1 21 0x85845dd1;
   line II Ra Rb Rc Rd  8  6 0x6fa87e4f;
   line II Rd Ra Rb Rc 15 10 0xfe2ce6e0;
   line II Rc Rd Ra Rb  6 15 0xa3014314;
   line II Rb Rc Rd Ra 13 21 0x4e0811a1;
   line II Ra Rb Rc Rd  4  6 0xf7537e82;
   line II Rd Ra Rb Rc 11 10 0xbd3af235;
   line II Rc Rd Ra Rb  2 15 0x2ad7d2bb;
   line II Rb Rc Rd Ra  9 21 0xeb86d391].

Definition HV_MD5Transform (state : words) (block : list Z) : words :=
  let '(s0, s1, s2, s3) := state in
  let '(a, b, c, d) := fold_left (md5_line (HV_MD5Decode block)) md5_lines (s0, s1, s2, s3) in
  (u32 (s0 + a), u32 (s1 + b), u32 (s2 + c), u32 (s3 + d)).

(** * The context *)

Record HV_MD5_CTX := mk_ctx { count0 : Z; count1 : Z; state : words; buffer : list Z }.

Definition PADDING : list Z := 0x80 :: replicate 63 0.

(** The buffer is uninitialised memory. *)
Definition HV_MD5Init (garbage : list Z) : HV_MD5_CTX :=
  mk_ctx 0 0 (0x67452301, 0xEFCDAB89, 0x98BADCFE, 0x10325476) garbage.

Definition HV_MD5Update (ctx : HV_MD5_CTX) (input : list Z) (inputlen : Z) : option HV_MD5_CTX :=
  let index := Z.land (Z.shiftr (count0 ctx) 3) 0x3F in
  let partlen := u32 (64 - index) in
  let c0 := u32 (count0 ctx + u32 (Z.shiftl inputlen 3)) in
  let c1 := if c0 <? u32 (Z.shiftl inputlen 3) then u32 (count1 ctx + 1) else count1 ctx in
  let c1 := u32 (c1 + Z.shiftr inputlen 29) in
  '(st, buf) ← buffer_update HV_MD5Transform (partlen <=? inputlen) (fun i => u32 (i + 64) <=? inputlen)
                 index input inputlen (state ctx) (buffer ctx);
  Some (mk_ctx c0 c1 st buf).

Definition HV_MD5Final (ctx : HV_MD5_CTX) : option (list Z) :=
  let index := Z.land (Z.shiftr (count0 ctx) 3) 0x3F in
  let padlen := if index <? 56 then u32 (56 - index) else u32 (120 - index) in
  let bits := HV_MD5Encode [count0 ctx; count1 ctx] in
  ctx ← HV_MD5Update ctx PADDING padlen;
  ctx ← HV_MD5Update ctx bits 8;
  let '(s0, s1, s2, s3) := state ctx in
  Some (HV_MD5Encode [s0; s1; s2; s3]).

Definition hv_md5 (garbage input : list Z) (inputlen : Z) : option (list Z) :=
  ctx ← HV_MD5Update (HV_MD5Init garbage) input inputlen; HV_MD5Final ctx.

Definition i2hex (i : Z) : Z := if i <? 10 then i + 48 else i - 10 + 97.

(** The digits, followed by a terminator when there is room for it; nothing when
    there is none for the digits. *)
Definition hv_md5_hex (garbage input : list Z) (inputlen outputlen : Z) : option (list Z) :=
  if outputlen <? 32 then Some []
  else
    digest ← hv_md5 garbage input inputlen;
    let hex := flat_map (fun b => [i2hex (Z.shiftr b 4); i2hex (Z.land b 0x0F)]) digest in
    Some (if 32 <? outputlen then hex ++ [0] else hex).

Example md5_abc : hv_md5_hex (replicate 64 7) (bytes_of_string "abc") 3 33
  = Some (bytes_of_string "900150983cd24fb0d6963f7d28e17f72" ++ [0]).
Proof. vm_compute. reflexivity. Qed.
Example md5_long : hv_md5_hex (replicate 64 7) (bytes_of_string "12345678901234567890123456789012345678901234567890123456789012345678901234567890") 80 32
  = Some (bytes_of_string "57edf4a22be3c955ac49da2e2107b67a").
Proof. vm_compute. reflexivity. Qed.

(** * RFC 1321 *)

(** The 64 steps with their message index, shift and constant. *)
Definition rfc_K : list Z :=
    [0xd76aa478; 0xe8c7b756; 0x242070db; 0xc1bdceee; 0xf57c0faf; 0x4787c62a; 0xa8304613; 0xfd469501;
     0x698098d8; 0x8b44f7af; 0xffff5bb1; 0x895cd7be; 0x6b901122; 0xfd987193; 0xa679438e; 0x49b40821;
     0xf61e2562; 0xc040b340; 0x265e5a51; 0xe9b6c7aa; 0xd62f105d; 0x2441453; 0xd8a1e681; 0xe7d3fbc8;
     0x21e1cde6; 0xc33707d6; 0xf4d50d87; 0x455a14ed; 0xa9e3e905; 0xfcefa3f8; 0x676f02d9; 0x8d2a4c8a;
     0xfffa3942; 0x8771f681; 0x6d9d6122; 0xfde5380c; 0xa4beea44; 0x4bdecfa9; 0xf6bb4b60; 0xbebfbc70;
     0x289b7ec6; 0xeaa127fa; 0xd4ef3085; 0x4881d05; 0xd9d4d039; 0xe6db99e5; 0x1fa27cf8; 0xc4ac5665;
     0xf4292244; 0x432aff97; 0xab9423a7; 0xfc93a039; 0x655b59c3; 0x8f0ccc92; 0xffeff47d; 0x85845dd1;
     0x6fa87e4f; 0xfe2ce6e0; 0xa3014314; 0x4e0811a1; 0xf7537e82; 0xbd3af235; 0x2ad7d2bb; 0xeb86d391].
Definition rfc_f (i : nat) (b c d : Z) : Z :=
  match (i / 16)%nat with
  | 0%nat => Z.lor (Z.land b c) (Z.land (not32 b) d)
  | 1%nat => Z.lor (Z.land b d) (Z.land c (not32 d))
  | 2%nat => Z.lxor (Z.lxor b c) d
  | _ => Z.lxor c (Z.lor b (not32 d))
  end.
Definition rfc_index (i : nat) : nat :=
  match (i / 16)%nat with
  | 0%nat => i | 1%nat => (5 * i + 1) mod 16 | 2%nat => (3 * i + 5) mod 16 | _ => (7 * i) mod 16
  end.
Definition rfc_shift (i : nat) : Z :=
  nth (i mod 4) (nth (i / 16) [[7; 12; 17; 22]; [5; 9; 14; 20]; [4; 11; 16; 23]; [6; 10; 15; 21]] []) 0.
Definition rotl (x n : Z) : Z := Z.lor (u32 (Z.shiftl x n)) (Z.shiftr x (32 - n)).
Definition rfc_step (x : list Z) (s : words) (i : nat) : words :=
  let '(a, b, c, d) := s in
  (d, u32 (b + rotl (u32 (a + rfc_f i b c d + nth (rfc_index i) x 0 + nth i rfc_K 0)) (rfc_shift i)), b, c).
(** A word from its bytes, least significant first, the words of a block, and back. *)
Definition le_word (bs : list Z) : Z := foldr (fun b w => Z.lor b (Z.shiftl w 8)) 0 bs.
Fixpoint rfc_words (n : nat) (block : list Z) : list Z :=
  match n with O => [] | S n => le_word (take 4 block) :: rfc_words n (drop 4 block) end.
Definition le32 (w : Z) : list Z := map (fun i => Z.shiftr w (8 * i) mod 256) [0; 1; 2; 3].
Definition rfc_block (s : words) (block : list Z) : words :=
  let '(s0, s1, s2, s3) := s in
  let '(a, b, c, d) := fold_left (rfc_step (rfc_words (length block / 4) block)) (seq 0 64) s in
  (u32 (s0 + a), u32 (s1 + b), u32 (s2 + c), u32 (s3 + d)).

(** The padded message: a one bit, zeros, and the length in bits. *)
Definition le64 (n : Z) : list Z :=
  map (fun i => Z.shiftr n (8 * i) mod 256) [0; 1; 2; 3; 4; 5; 6; 7].
Definition rfc_pad (msg : list Z) : list Z :=
  [0x80] ++ replicate (Z.to_nat ((55 - zlen msg) mod 64)) 0 ++ le64 (8 * zlen msg).
Definition rfc_md5 (msg : list Z) : list Z :=
  let padded := msg ++ rfc_pad msg in
  let '(a, b, c, d) := absorb rfc_block (length padded / 64) (0x67452301, 0xEFCDAB89, 0x98BADCFE, 0x10325476) padded in
  le32 a ++ le32 b ++ le32 c ++ le32 d.

(** * The byte order *)

Lemma decode_words n : forall block, (length block / 4 = n)%nat -> HV_MD5Decode block = rfc_words n block.
Proof.
  assert (forall b0 b1 b2 b3 block, (length (b0 :: b1 :: b2 :: b3 :: block : list Z) / 4 = S (length block / 4))%nat) as Hl.
  { intros. change (length (b0 :: b1 :: b2 :: b3 :: block)) with (1 * 4 + length block)%nat. by rewrite Nat.div_add_l. }
  induction n as [|n IH]; intros [|b0 [|b1 [|b2 [|b3 block]]]] E; try done; rewrite Hl in E; [done|].
  cbn [HV_MD5Decode rfc_words take drop]. f_equal; [|apply IH; by injection E]. unfold le_word. cbn [foldr].
  rewrite Z.shiftl_0_l, Z.lor_0_r, !Z.shiftl_lor, !Z.shiftl_shiftl, !Z.lor_assoc by lia. done.
Qed.
Lemma encode_words ws : HV_MD5Encode ws = flat_map le32 ws.
Proof.
  induction ws as [|w ws IH]; [done|]. cbn [HV_MD5Encode flat_map]. rewrite IH. f_equal. unfold le32. cbn [map].
  change 0xFF with (Z.ones 8). by rewrite !Z.land_ones by lia.
Qed.

(** * The unrolled block function is the table-driven one *)

(** The additions of a step may wrap once or at every operator. *)
Lemma step_sum a f x k : u32 (a + u32 (u32 (f + x) + k)) = u32 (a + f + x + k).
Proof.
  unfold u32. rewrite Z.add_mod_idemp_l by lia. rewrite Z.add_mod_idemp_r by lia. f_equal. lia.
Qed.

Definition rfc_op (i : nat) : Z -> Z -> Z -> Z -> Z -> Z -> Z -> Z :=
  match (i / 16)%nat with 0%nat => FF | 1%nat => GG | 2%nat => HH | _ => II end.
Lemma rfc_step_op x a b c d i : (i < 64)%nat ->
  rfc_step x (a, b, c, d) i = (d, rfc_op i a b c d (nth (rfc_index i) x 0) (rfc_shift i) (nth i rfc_K 0), b, c).
Proof.
  intros Hi. unfold rfc_step, rfc_op, rfc_f, FF, GG, HH, II. cbv zeta.
  destruct (i / 16)%nat as [|[|[|]]]; rewrite step_sum, (Z.add_comm b); reflexivity.
Qed.

(** One line of the unrolled function against one step of the loop. *)
Ltac md5_step xs :=
  lazymatch goal with
  | |- fold_left ?g (?l :: ?ls) ?s = fold_left ?f (?i :: ?k) (?a, ?b, ?c, ?d) =>
      let s' := eval cbv [md5_line rput rget] in (md5_line xs s l) in
      rewrite (fold_left_cons g l ls s), (fold_left_cons f i k (a, b, c, d));
      change (md5_line xs s l) with s';
      rewrite (rfc_step_op xs a b c d i) by lia;
      lazymatch s' with context [?op a b c d ?w ?sh ?ac] =>
        change (rfc_op i a b c d (nth (rfc_index i) xs 0) (rfc_shift i) (nth i rfc_K 0)) with (op a b c d w sh ac);
        generalize (op a b c d w sh ac); intro
      end
  end.

Lemma transform_rfc s block : HV_MD5Transform s block = rfc_block s block.
Proof.
  destruct s as [[[s0 s1] s2] s3]. unfold HV_MD5Transform, rfc_block. rewrite <- (decode_words _ block eq_refl).
  set (xs := HV_MD5Decode block).
  assert (fold_left (md5_line xs) md5_lines (s0, s1, s2, s3) = fold_left (rfc_step xs) (seq 0 64) (s0, s1, s2, s3)) as ->;
    [|reflexivity].
  unfold md5_lines. let l := eval cbv in (seq 0 64) in change (seq 0 64) with l.
  do 64 md5_step xs. reflexivity.
Qed.

(** * The context and the message it has absorbed *)

Definition init_words : words := (0x67452301, 0xEFCDAB89, 0x98BADCFE, 0x10325476).
Definition rep (ctx : HV_MD5_CTX) (msg : list Z) : Prop :=
  (count0 ctx, count1 ctx) = bit_count (zlen msg) /\
  state ctx = whole HV_MD5Transform init_words msg /\
  holds (buffer ctx) msg.

Lemma md5_rep_init garbage : length garbage = 64%nat -> rep (HV_MD5Init garbage) [].
Proof. intros Hl. by split_and!. Qed.

Lemma HV_MD5Update_ok ctx msg input extra : rep ctx msg -> zlen input + 64 < 2 ^ 32 ->
  exists ctx', HV_MD5Update ctx (input ++ extra) (zlen input) = Some ctx' /\ rep ctx' (msg ++ input).
Proof.
  intros (Hc & Hs & Hh) Hb. pose proof (zlen_nonneg input) as Hi0. pose proof (zlen_nonneg msg) as Hm0.
  injection Hc as E0 E1. unfold HV_MD5Update. rewrite E0, E1, Hs, bit_count_index by lia.
  assert (0 <= zlen msg mod 64 < 64) as Hx by (apply Z.mod_pos_bound; lia).
  rewrite (u32_small (64 - zlen msg mod 64)) by lia. cbv zeta.
  pose proof (bit_count_add (zlen msg) (zlen input) Hm0 ltac:(lia)) as Hcount. rewrite <- zlen_app in Hcount.
  destruct (buffer_update_ok HV_MD5Transform (64 - zlen msg mod 64 <=? zlen input) (fun i => u32 (i + 64) <=? zlen input)
    init_words msg input extra (buffer ctx) (zlen msg mod 64)) as (buf & -> & Hh'); [done|done|done|done| |].
  { intros k Hk. by rewrite u32_small by lia. }
  cbn [mbind option_bind]. eexists. split; [done|]. split_and!; [|done|done]. simpl. by rewrite Hcount.
Qed.

Lemma encode_bits n : 0 <= n -> HV_MD5Encode [u32 (8 * n); u32 (8 * n / 2 ^ 32)] = le64 (8 * n).
Proof.
  intros Hn. unfold le64. cbn [HV_MD5Encode app map]. change 0xFF with (Z.ones 8).
  rewrite !Z.land_ones, !Z.shiftr_div_pow2 by lia. unfold u32.
  change (2 ^ 8) with 256. change (2 ^ 16) with 65536. change (2 ^ 24) with 16777216. change (2 ^ 32) with 4294967296.
  change (2 ^ (8 * 0)) with 1. change (2 ^ (8 * 1)) with 256. change (2 ^ (8 * 2)) with 65536. change (2 ^ (8 * 3)) with 16777216.
  change (2 ^ (8 * 4)) with 4294967296. change (2 ^ (8 * 5)) with 1099511627776. change (2 ^ (8 * 6)) with 281474976710656. change (2 ^ (8 * 7)) with 72057594037927936.
  repeat (f_equal; [zdm|]). f_equal. zdm.
Qed.

(** * The digest *)

Lemma PADDING_prefix p : 0 <= p < 64 ->
  PADDING = ([0x80] ++ replicate (Z.to_nat p) 0) ++ replicate (63 - Z.to_nat p) 0.
Proof.
  intros Hp. change PADDING with ([0x80] ++ replicate 63 0). rewrite <- app_assoc, <- replicate_add. do 2 f_equal. lia.
Qed.

Lemma HV_MD5Final_ok ctx msg : rep ctx msg ->
  HV_MD5Final ctx = Some (let '(a, b, c, d) := whole HV_MD5Transform init_words (msg ++ rfc_pad msg) in
                          HV_MD5Encode [a; b; c; d]).
Proof.
  intros Hr. pose proof (zlen_nonneg msg) as Hm. destruct Hr as (Hc & Hs & Hh). injection Hc as E0 E1.
  assert (rep ctx msg) as Hr by (split_and!; [by rewrite E0, E1|done|done]).
  unfold HV_MD5Final. rewrite E0, E1, bit_count_index, encode_bits by lia.
  pose proof (Z.mod_pos_bound (zlen msg) 64 ltac:(lia)) as Hx.
  assert ((if zlen msg mod 64 <? 56 then u32 (56 - zlen msg mod 64) else u32 (120 - zlen msg mod 64))
          = 1 + (55 - zlen msg) mod 64) as ->.
  { destruct (Z.ltb_spec (zlen msg mod 64) 56); rewrite u32_small by lia; zdm. }
  pose proof (Z.mod_pos_bound (55 - zlen msg) 64 ltac:(lia)) as Hp. set (p := (55 - zlen msg) mod 64) in *.
  assert (zlen ([0x80] ++ replicate (Z.to_nat p) 0) = 1 + p) as Hl.
  { zlen_simpl. unfold zlen. rewrite length_replicate. lia. }
  destruct (HV_MD5Update_ok ctx msg ([0x80] ++ replicate (Z.to_nat p) 0) (replicate (63 - Z.to_nat p) 0) Hr) as (c1 & U1 & R1);
    [rewrite Hl; lia|].
  rewrite <- PADDING_prefix, Hl in U1 by lia. rewrite U1. cbn [mbind option_bind].
  destruct (HV_MD5Update_ok c1 _ (le64 (8 * zlen msg)) [] R1) as (c2 & U2 & R2); [done|].
  rewrite app_nil_r in U2. change (zlen (le64 _)) with 8 in U2. rewrite U2. cbn [mbind option_bind].
  destruct R2 as (_ & -> & _). unfold rfc_pad. fold p. rewrite <- app_assoc. rewrite <- (app_assoc [128]).
  match goal with |- context [whole ?c ?i ?l] => generalize (whole c i l) end. by intros [[[? ?] ?] ?].
Qed.

Lemma absorb_rfc n : forall s l, absorb HV_MD5Transform n s l = absorb rfc_block n s l.
Proof. induction n as [|n IH]; intros s l; [done|]. simpl. by rewrite IH, transform_rfc. Qed.

Lemma final_rfc ctx msg : rep ctx msg -> HV_MD5Final ctx = Some (rfc_md5 msg).
Proof.
  intros Hr. rewrite (HV_MD5Final_ok _ _ Hr). unfold whole, rfc_md5, nblocks. cbv zeta. rewrite absorb_rfc.
  destruct (absorb _ _ _ _) as [[[a b] c] d]. rewrite encode_words. cbn [flat_map]. by rewrite app_nil_r.
Qed.

(** Updates one after the other. *)
Fixpoint update_all (ctx : HV_MD5_CTX) (pieces : list (list Z)) : option HV_MD5_CTX :=
  match pieces with
  | [] => Some ctx
  | p :: pieces => ctx ← HV_MD5Update ctx p (zlen p); update_all ctx pieces
  end.

Lemma update_all_ok pieces : forall ctx msg, rep ctx msg -> Forall (fun p => zlen p + 64 < 2 ^ 32) pieces ->
  exists ctx', update_all ctx pieces = Some ctx' /\ rep ctx' (msg ++ concat pieces).
Proof.
  induction pieces as [|p ps IH]; intros ctx msg Hr Hp; simpl; [rewrite app_nil_r; eauto|].
  apply Forall_cons_1 in Hp as [Hp Hps]. destruct (HV_MD5Update_ok ctx msg p [] Hr Hp) as (c1 & U & R).
  rewrite app_nil_r in U. rewrite U. cbn [mbind option_bind]. rewrite app_assoc. by apply IH.
Qed.

(** C30. hv_md5 computes the MD5 of RFC 1321: the unrolled block function, the
    buffer and the padding give the digest of the table-driven description, for
    any contents of the uninitialised buffer and any input of fewer than
    2^32 - 64 bytes. *)
Theorem hv_md5_rfc garbage input : length garbage = 64%nat -> zlen input + 64 < 2 ^ 32 ->
  hv_md5 garbage input (zlen input) = Some (rfc_md5 input).
Proof.
  intros Hg Hi. unfold hv_md5.
  destruct (HV_MD5Update_ok (HV_MD5Init garbage) [] input [] (md5_rep_init _ Hg) Hi) as (c & U & R).
  rewrite app_nil_r in U. rewrite U. by apply final_rfc.
Qed.
Lemma hv_md5_rfc_witness : hv_md5 (replicate 64 0) [97; 98; 99] 3 = Some (rfc_md5 [97; 98; 99]).
Proof. apply (hv_md5_rfc (replicate 64 0) [97; 98; 99]); reflexivity. Defined.

(** The digest does not depend on how the message is cut: a context fed any
    sequence of pieces (each of fewer than 2^32 - 64 bytes, their total
    unlimited) ends with the digest of their concatenation. *)
Lemma md5_stream garbage pieces : length garbage = 64%nat -> Forall (fun p => zlen p + 64 < 2 ^ 32) pieces ->
  (ctx ← update_all (HV_MD5Init garbage) pieces; HV_MD5Final ctx) = Some (rfc_md5 (concat pieces)).
Proof.
  intros Hg Hp. destruct (update_all_ok pieces (HV_MD5Init garbage) [] (md5_rep_init _ Hg) Hp) as (c & U & R).
  rewrite U. by apply final_rfc.
Qed.
Lemma md5_stream_witness :
  (ctx ← update_all (HV_MD5Init (replicate 64 0)) [[97]; []; [98; 99]]; HV_MD5Final ctx) = Some (rfc_md5 [97; 98; 99]).
Proof. apply (md5_stream (replicate 64 0) [[97]; []; [98; 99]]); [reflexivity|]. repeat constructor. Defined.

End Md5.
