(* ===== verification/Sha1.v ===== *)
(** The SHA-1 digest of util/sha1.c: the unrolled block function with its
    sixteen-word circular schedule, the buffered update, the padding loop and the
    hexadecimal form; against the description of FIPS 180-4. *)
From S2P Require Import Prelude Hash.
From Stdlib Require Import ZifyNat.
Import Hash.

Module Sha1.

(** * The block function *)

Definition rol (value bits : Z) : Z := Z.lor (u32 (Z.shiftl value bits)) (Z.shiftr value (32 - bits)).

(** [BYTE_ORDER] of the machine. *)
Inductive byte_order := LITTLE_ENDIAN | BIG_ENDIAN.

(** The block copied into the union, seen through its words [l]. *)
Definition le_word (b0 b1 b2 b3 : Z) : Z :=
  Z.lor (Z.lor (Z.lor b0 (Z.shiftl b1 8)) (Z.shiftl b2 16)) (Z.shiftl b3 24).
Definition load_word (e : byte_order) (b0 b1 b2 b3 : Z) : Z :=
  match e with LITTLE_ENDIAN => le_word b0 b1 b2 b3 | BIG_ENDIAN => le_word b3 b2 b1 b0 end.
Fixpoint load (e : byte_order) (c : list Z) : list Z :=
  match c with
  | b0 :: b1 :: b2 :: b3 :: c => load_word e b0 b1 b2 b3 :: load e c
  | _ => []
  end.

(** [blk0(i)] and [blk(i)] store the word they return. *)
Definition blk0 (e : byte_order) (l : list Z) (i : nat) : Z * list Z :=
  match e with
  | LITTLE_ENDIAN =>
      let w := Z.lor (Z.land (rol (nth i l 0) 24) 0xFF00FF00) (Z.land (rol (nth i l 0) 8) 0x00FF00FF) in
      (w, <[i := w]> l)
  | BIG_ENDIAN => (nth i l 0, l)
  end.
Definition at15 (i : nat) : nat := (i mod 16)%nat.
Definition blk (l : list Z) (i : nat) : Z * list Z :=
  let w := rol (Z.lxor (Z.lxor (Z.lxor (nth (at15 (i + 13)) l 0) (nth (at15 (i + 8)) l 0))
                               (nth (at15 (i + 2)) l 0)) (nth (at15 i) l 0)) 1 in
  (w, <[at15 i := w]> l).

(** [z += f + word + K + rol(v,5); w = rol(w,30)]: the new [z] and [w]. *)
Definition round (f word K v w z : Z) : Z * Z :=
  (u32 (z + u32 (u32 (u32 (f + word) + K) + rol v 5)), rol w 30).
Definition R_op : Type := byte_order -> list Z -> nat -> Z -> Z -> Z -> Z -> Z -> Z * Z * list Z.
Definition R0 : R_op := fun e l i v w x y z =>
  let '(b, l) := blk0 e l i in (round (Z.lxor (Z.land w (Z.lxor x y)) y) b 0x5A827999 v w z, l).
Definition R1 : R_op := fun _ l i v w x y z =>
  let '(b, l) := blk l i in (round (Z.lxor (Z.land w (Z.lxor x y)) y) b 0x5A827999 v w z, l).
Definition R2 : R_op := fun _ l i v w x y z =>
  let '(b, l) := blk l i in (round (Z.lxor (Z.lxor w x) y) b 0x6ED9EBA1 v w z, l).
Definition R3 : R_op := fun _ l i v w x y z =>
  let '(b, l) := blk l i in (round (Z.lor (Z.land (Z.lor w x) y) (Z.land w x)) b 0x8F1BBCDC v w z, l).
Definition R4 : R_op := fun _ l i v w x y z =>
  let '(b, l) := blk l i in (round (Z.lxor (Z.lxor w x) y) b 0xCA62C1D6 v w z, l).

Definition words : Type := Z * Z * Z * Z * Z.
Inductive reg := Ra | Rb | Rc | Rd | Re.
Definition rget (s : words) (r : reg) : Z :=
  let '(a, b, c, d, e) := s in match r with Ra => a | Rb => b | Rc => c | Rd => d | Re => e end.
Definition rput (s : words) (r : reg) (n : Z) : words :=
  let '(a, b, c, d, e) := s in
  match r with
  | Ra => (n, b, c, d, e) | Rb => (a, n, c, d, e) | Rc => (a, b, n, d, e)
  | Rd => (a, b, c, n, e) | Re => (a, b, c, d, n)
  end.

(** The lines of the unrolled function: a macro with its registers and index. *)
Inductive line_t := line (op : R_op) (v w x y z : reg) (i : nat).
Definition sha1_line (e : byte_order) (st : words * list Z) (ln : line_t) : words * list Z :=
  let '(s, l) := st in
  let '(line op v w x y z i) := ln in
  let '(zn, wn, l) := op e l i (rget s v) (rget s w) (rget s x) (rget s y) (rget s z) in
  (rput (rput s z zn) w wn, l).
Definition sha1_lines : list line_t :=
  [line R0 Ra Rb Rc Rd Re  0;
   line R0 Re Ra Rb Rc Rd  1;
   line R0 Rd Re Ra Rb Rc  2;
   line R0 Rc Rd Re Ra Rb  3;
   line R0 Rb Rc Rd Re Ra  4;
   line R0 Ra Rb Rc Rd Re  5;
   line R0 Re Ra Rb Rc Rd  6;
   line R0 Rd Re Ra Rb Rc  7;
   line R0 Rc Rd Re Ra Rb  8;
   line R0 Rb Rc Rd Re Ra  9;
   line R0 Ra Rb Rc Rd Re 10;
   line R0 Re Ra Rb Rc Rd 11;
   line R0 Rd Re Ra Rb Rc 12;
   line R0 Rc Rd Re Ra Rb 13;
   line R0 Rb Rc Rd Re Ra 14;
   line R0 Ra Rb Rc Rd Re 15;
   line R1 Re Ra Rb Rc Rd 16;
   line R1 Rd Re Ra Rb Rc 17;
   line R1 Rc Rd Re Ra Rb 18;
   line R1 Rb Rc Rd Re Ra 19;
   line R2 Ra Rb Rc Rd Re 20;
   line R2 Re Ra Rb Rc Rd 21;
   line R2 Rd Re Ra Rb Rc 22;
   line R2 Rc Rd Re Ra Rb 23;
   line R2 Rb Rc Rd Re Ra 24;
   line R2 Ra Rb Rc Rd Re 25;
   line R2 Re Ra Rb Rc Rd 26;
   line R2 Rd Re Ra Rb Rc 27;
   line R2 Rc Rd Re Ra Rb 28;
   line R2 Rb Rc Rd Re Ra 29;
   line R2 Ra Rb Rc Rd Re 30;
   line R2 Re Ra Rb Rc Rd 31;
   line R2 Rd Re Ra Rb Rc 32;
   line R2 Rc Rd Re Ra Rb 33;
   line R2 Rb Rc Rd Re Ra 34;
   line R2 Ra Rb Rc Rd Re 35;
   line R2 Re Ra Rb Rc Rd 36;
   line R2 Rd Re Ra Rb Rc 37;
   line R2 Rc Rd Re Ra Rb 38;
   line R2 Rb Rc Rd Re Ra 39;
   line R3 Ra Rb Rc Rd Re 40;
   line R3 Re Ra Rb Rc Rd 41;
   line R3 Rd Re Ra Rb Rc 42;
   line R3 Rc Rd Re Ra Rb 43;
   line R3 Rb Rc Rd Re Ra 44;
   line R3 Ra Rb Rc Rd Re 45;
   line R3 Re Ra Rb Rc Rd 46;
   line R3 Rd Re Ra Rb Rc 47;
   line R3 Rc Rd Re Ra Rb 48;
   line R3 Rb Rc Rd Re Ra 49;
   line R3 Ra Rb Rc Rd Re 50;
   line R3 Re Ra Rb Rc Rd 51;
   line R3 Rd Re Ra Rb Rc 52;
   line R3 Rc Rd Re Ra Rb 53;
   line R3 Rb Rc Rd Re Ra 54;
   line R3 Ra Rb Rc Rd Re 55;
   line R3 Re Ra Rb Rc Rd 56;
   line R3 Rd Re Ra Rb Rc 57;
   line R3 Rc Rd Re Ra Rb 58;
   line R3 Rb Rc Rd Re Ra 59;
   line R4 Ra Rb Rc Rd Re 60;
   line R4 Re Ra Rb Rc Rd 61;
   line R4 Rd Re Ra Rb Rc 62;
   line R4 Rc Rd Re Ra Rb 63;
   line R4 Rb Rc Rd Re Ra 64;
   line R4 Ra Rb Rc Rd Re 65;
   line R4 Re Ra Rb Rc Rd 66;
   line R4 Rd Re Ra Rb Rc 67;
   line R4 Rc Rd Re Ra Rb 68;
   line R4 Rb Rc Rd Re Ra 69;
   line R4 Ra Rb Rc Rd Re 70;
   line R4 Re Ra Rb Rc Rd 71;
   line R4 Rd Re Ra Rb Rc 72;
   line R4 Rc Rd Re Ra Rb 73;
   line R4 Rb Rc Rd Re Ra 74;
   line R4 Ra Rb Rc Rd Re 75;
   line R4 Re Ra Rb Rc Rd 76;
   line R4 Rd Re Ra Rb Rc 77;
   line R4 Rc Rd Re Ra Rb 78;
   line R4 Rb Rc Rd Re Ra 79].

Definition HV_SHA1Transform (e : byte_order) (state : words) (buffer : list Z) : words :=
  let '(s0, s1, s2, s3, s4) := state in
  let '((a, b, c, d, e), _) := fold_left (sha1_line e) sha1_lines ((s0, s1, s2, s3, s4), load e buffer) in
  (u32 (s0 + a), u32 (s1 + b), u32 (s2 + c), u32 (s3 + d), u32 (s4 + e)).

(** * The context *)

Record HV_SHA1_CTX := mk_ctx { state : words; count0 : Z; count1 : Z; buffer : list Z }.

(** The buffer is uninitialised memory. *)
Definition HV_SHA1Init (garbage : list Z) : HV_SHA1_CTX :=
  mk_ctx (0x67452301, 0xEFCDAB89, 0x98BADCFE, 0x10325476, 0xC3D2E1F0) 0 0 garbage.

Section Order.
Context (e : byte_order).

Definition HV_SHA1Update (context : HV_SHA1_CTX) (data : list Z) (len : Z) : option HV_SHA1_CTX :=
  let j := count0 context in
  let c0 := u32 (count0 context + u32 (Z.shiftl len 3)) in
  let c1 := if c0 <? j then u32 (count1 context + 1) else count1 context in
  let c1 := u32 (c1 + Z.shiftr len 29) in
  let j := Z.land (Z.shiftr j 3) 63 in
  '(st, buf) ← buffer_update (HV_SHA1Transform e) (63 <? u32 (j + len)) (fun i => u32 (i + 63) <? len)
                 j data len (state context) (buffer context);
  Some (mk_ctx st c0 c1 buf).

(** [while ((count[0] & 504) != 448)] a zero byte. *)
Fixpoint pad_loop (fuel : nat) (context : HV_SHA1_CTX) : option HV_SHA1_CTX :=
  if Z.land (count0 context) 504 =? 448 then Some context
  else match fuel with
       | O => None
       | S f => context ← HV_SHA1Update context [0] 1; pad_loop f context
       end.

(** Byte [i] of words stored most significant byte first. *)
Definition be_byte (ws : list Z) (i : nat) : Z := Z.land (Z.shiftr (nth (i / 4) ws 0) ((3 - Z.of_nat i mod 4) * 8)) 255.

Definition HV_SHA1Final (context : HV_SHA1_CTX) : option (list Z) :=
  let finalcount := map (be_byte [count1 context; count0 context]) (seq 0 8) in
  context ← HV_SHA1Update context [0x80] 1;
  context ← pad_loop 64 context;
  context ← HV_SHA1Update context finalcount 8;
  let '(s0, s1, s2, s3, s4) := state context in
  Some (map (be_byte [s0; s1; s2; s3; s4]) (seq 0 20)).

(** [HV_SHA1] feeds the string byte by byte and terminates the digest. *)
Fixpoint feed (context : HV_SHA1_CTX) (str : list Z) : option HV_SHA1_CTX :=
  match str with
  | [] => Some context
  | c :: str => context ← HV_SHA1Update context [c] 1; feed context str
  end.
Definition HV_SHA1 (garbage str : list Z) : option (list Z) :=
  context ← feed (HV_SHA1Init garbage) str; digest ← HV_SHA1Final context; Some (digest ++ [0]).

Definition hv_sha1 (garbage input : list Z) (inputlen : Z) : option (list Z) :=
  context ← HV_SHA1Update (HV_SHA1Init garbage) input inputlen; HV_SHA1Final context.

Definition i2hex (i : Z) : Z := if i <? 10 then i + 48 else i - 10 + 97.

Definition hv_sha1_hex (garbage input : list Z) (inputlen outputlen : Z) : option (list Z) :=
  if outputlen <? 40 then Some []
  else
    digest ← hv_sha1 garbage input inputlen;
    let hex := flat_map (fun b => [i2hex (Z.shiftr b 4); i2hex (Z.land b 0x0F)]) digest in
    Some (if 40 <? outputlen then hex ++ [0] else hex).

End Order.

Example sha1_abc : hv_sha1_hex LITTLE_ENDIAN (replicate 64 7) (bytes_of_string "abc") 3 41
  = Some (bytes_of_string "a9993e364706816aba3e25717850c26c9cd0d89d" ++ [0]).
Proof. vm_compute. reflexivity. Qed.
Example sha1_two_blocks : hv_sha1_hex BIG_ENDIAN (replicate 64 7) (bytes_of_string "abcdbcdecdefdefgefghfghighijhijkijkljklmklmnlmnomnopnopq") 56 40
  = Some (bytes_of_string "84983e441c3bd26ebaae4aa1f95129e5e54670f1").
Proof. vm_compute. reflexivity. Qed.

(** * FIPS 180-4 *)

Definition rotl (x n : Z) : Z := Z.lor (u32 (Z.shiftl x n)) (Z.shiftr x (32 - n)).
Definition fips_f (t : nat) (x y z : Z) : Z :=
  match (t / 20)%nat with
  | 0%nat => Z.lxor (Z.land x y) (Z.land (Z.lnot x) z)
  | 2%nat => Z.lxor (Z.lxor (Z.land x y) (Z.land x z)) (Z.land y z)
  | _ => Z.lxor (Z.lxor x y) z
  end.
Definition fips_K (t : nat) : Z := nth (t / 20) [0x5A827999; 0x6ED9EBA1; 0x8F1BBCDC; 0xCA62C1D6] 0.

(** The message schedule: sixteen big-endian words and the [n] that follow. *)
Fixpoint be_words (c : list Z) : list Z :=
  match c with
  | b0 :: b1 :: b2 :: b3 :: c => le_word b3 b2 b1 b0 :: be_words c
  | _ => []
  end.
Fixpoint fips_W (block : list Z) (n : nat) : list Z :=
  match n with
  | O => be_words block
  | S n =>
      let W := fips_W block n in let t := length W in
      W ++ [rotl (Z.lxor (Z.lxor (Z.lxor (nth (t - 3) W 0) (nth (t - 8) W 0)) (nth (t - 14) W 0)) (nth (t - 16) W 0)) 1]
  end.
Definition fips_step (W : list Z) (s : words) (t : nat) : words :=
  let '(a, b, c, d, e) := s in
  (u32 (rotl a 5 + fips_f t b c d + e + fips_K t + nth t W 0), a, rotl b 30, c, d).
Definition fips_block (s : words) (block : list Z) : words :=
  let '(h0, h1, h2, h3, h4) := s in
  let '(a, b, c, d, e) := fold_left (fips_step (fips_W block 64)) (seq 0 80) s in
  (u32 (h0 + a), u32 (h1 + b), u32 (h2 + c), u32 (h3 + d), u32 (h4 + e)).

Definition be64 (n : Z) : list Z := map (fun i => Z.shiftr n (8 * i) mod 256) [7; 6; 5; 4; 3; 2; 1; 0].
Definition fips_pad (msg : list Z) : list Z :=
  [0x80] ++ replicate (Z.to_nat ((55 - zlen msg) mod 64)) 0 ++ be64 (8 * zlen msg).
Definition fips_sha1 (msg : list Z) : list Z :=
  let padded := msg ++ fips_pad msg in
  let '(a, b, c, d, e) :=
    absorb fips_block (length padded / 64) (0x67452301, 0xEFCDAB89, 0x98BADCFE, 0x10325476, 0xC3D2E1F0) padded in
  flat_map (fun w => map (fun i => Z.shiftr w (8 * i) mod 256) [3; 2; 1; 0]) [a; b; c; d; e].

(** * Bit identities *)

Lemma ch_eq x y z : Z.lxor (Z.land x (Z.lxor y z)) z = Z.lxor (Z.land x y) (Z.land (Z.lnot x) z).
Proof.
  apply Z.bits_inj'. intros n Hn. rewrite !Z.lxor_spec, !Z.land_spec, Z.lxor_spec, Z.lnot_spec by done.
  by destruct (Z.testbit x n), (Z.testbit y n), (Z.testbit z n).
Qed.
Lemma maj_eq x y z :
  Z.lor (Z.land (Z.lor x y) z) (Z.land x y) = Z.lxor (Z.lxor (Z.land x y) (Z.land x z)) (Z.land y z).
Proof.
  apply Z.bits_inj'. intros n Hn. rewrite !Z.lxor_spec, !Z.lor_spec, !Z.land_spec, Z.lor_spec.
  by destruct (Z.testbit x n), (Z.testbit y n), (Z.testbit z n).
Qed.

Lemma byte_bits b n : is_byte b -> 8 <= n -> Z.testbit b n = false.
Proof.
  intros Hb Hn. rewrite <- (Z.mod_small b (2 ^ 8)) by (unfold is_byte in Hb; lia). apply Z.mod_pow2_bits_high; lia.
Qed.
Lemma u32_bits x n : 0 <= n < 32 -> Z.testbit (u32 x) n = Z.testbit x n.
Proof. intros Hn. change (u32 x) with (x mod 2 ^ 32). apply Z.mod_pow2_bits_low; lia. Qed.
Lemma u32_bits_high x n : 32 <= n -> Z.testbit (u32 x) n = false.
Proof. intros Hn. change (u32 x) with (x mod 2 ^ 32). apply Z.mod_pow2_bits_high. lia. Qed.

Lemma le_word_bits b0 b1 b2 b3 n : Z.testbit (le_word b0 b1 b2 b3) n =
  Z.testbit b0 n || Z.testbit b1 (n - 8) || Z.testbit b2 (n - 16) || Z.testbit b3 (n - 24).
Proof.
  destruct (decide (0 <= n)).
  - unfold le_word. rewrite !Z.lor_spec, !Z.shiftl_spec by done. done.
  - rewrite !Z.testbit_neg_r by lia. done.
Qed.

(** [blk0] on a little-endian machine reverses the bytes of the word. *)
Lemma blk0_swap b0 b1 b2 b3 : is_byte b0 -> is_byte b1 -> is_byte b2 -> is_byte b3 ->
  let w := le_word b0 b1 b2 b3 in
  Z.lor (Z.land (rol w 24) 0xFF00FF00) (Z.land (rol w 8) 0x00FF00FF) = le_word b3 b2 b1 b0.
Proof.
  intros H0 H1 H2 H3 w. apply Z.bits_inj'. intros n Hn.
  unfold rol. rewrite Z.lor_spec, !Z.land_spec, !Z.lor_spec, !Z.shiftr_spec by done.
  destruct (decide (n < 32)) as [Hlt|Hge].
  - rewrite !u32_bits, !Z.shiftl_spec by lia. subst w. rewrite !le_word_bits.
    assert (n ∈ seqZ 0 32) as Hin by (apply elem_of_seqZ; lia).
    change (seqZ 0 32) with [0;1;2;3;4;5;6;7;8;9;10;11;12;13;14;15;16;17;18;19;20;21;22;23;24;25;26;27;28;29;30;31] in Hin.
    rewrite list_elem_of_In in Hin. simpl in Hin. clear Hn Hlt.
    repeat (destruct Hin as [<-|Hin]; [
      repeat match goal with |- context [Z.testbit ?b ?k] =>
        let v := eval vm_compute in k in progress change (Z.testbit b k) with (Z.testbit b v) end;
      repeat match goal with |- context [Z.testbit (Zpos ?b) ?k] =>
        let v := eval vm_compute in (Z.testbit (Zpos b) k) in change (Z.testbit (Zpos b) k) with v end;
      repeat match goal with
        | |- context [Z.testbit ?b (Zneg ?k)] => rewrite (Z.testbit_neg_r b (Zneg k)) by lia
        | |- context [Z.testbit ?b (Zpos ?k)] => rewrite (byte_bits b (Zpos k)) by (done || lia) end;
      by rewrite ?andb_true_r, ?andb_false_r, ?orb_false_r, ?orb_true_r|]); done.
  - subst w. rewrite !u32_bits_high, !le_word_bits by lia.
    rewrite !(byte_bits b0), !(byte_bits b1), !(byte_bits b2), !(byte_bits b3) by (done || lia). done.
Qed.

(** * The circular schedule *)

(** What the words of a block become when they are first used. *)
Definition first_use (e : byte_order) (w : Z) : Z :=
  match e with
  | LITTLE_ENDIAN => Z.lor (Z.land (rol w 24) 0xFF00FF00) (Z.land (rol w 8) 0x00FF00FF)
  | BIG_ENDIAN => w
  end.

Lemma be_words_load e n : forall c, length c = (4 * n)%nat -> Bytes c ->
  be_words c = map (first_use e) (load e c) /\ length (load e c) = n.
Proof.
  induction n as [|n IH]; intros c Hl Hc; [by destruct c|].
  destruct c as [|b0 [|b1 [|b2 [|b3 c]]]]; simpl in Hl; try lia.
  apply Forall_cons_1 in Hc as [H0 Hc]. apply Forall_cons_1 in Hc as [H1 Hc].
  apply Forall_cons_1 in Hc as [H2 Hc]. apply Forall_cons_1 in Hc as [H3 Hc].
  destruct (IH c) as [E L]; [lia|done|]. simpl. rewrite E, L. split; [|done]. f_equal.
  destruct e; [symmetry; by apply blk0_swap|done].
Qed.

Lemma fips_W_length block n : length (fips_W block n) = (length (be_words block) + n)%nat.
Proof. induction n as [|n IH]; simpl; [lia|]. rewrite length_app, IH. simpl. lia. Qed.

Lemma fips_W_nth block n m t : (t < length (be_words block) + n)%nat -> (n <= m)%nat ->
  nth t (fips_W block m) 0 = nth t (fips_W block n) 0.
Proof.
  intros Ht. induction m as [|m IH]; intros Hm; [by replace n with 0%nat by lia|].
  destruct (decide (n = S m)) as [->|]; [done|]. rewrite <- IH by lia. simpl.
  rewrite app_nth1 by (rewrite fips_W_length; lia). done.
Qed.

Lemma fips_W_rec block t : length (be_words block) = 16%nat -> (16 <= t < 80)%nat ->
  let W := fips_W block 64 in
  nth t W 0 = rotl (Z.lxor (Z.lxor (Z.lxor (nth (t - 3) W 0) (nth (t - 8) W 0)) (nth (t - 14) W 0)) (nth (t - 16) W 0)) 1.
Proof.
  intros Hl Ht W. subst W. rewrite (fips_W_nth block (S (t - 16)) 64) by lia.
  rewrite !(fips_W_nth block (t - 16) 64 (t - _)) by lia. cbn [fips_W].
  assert (length (fips_W block (t - 16)) = t) as E by (rewrite fips_W_length; lia).
  rewrite app_nth2, E, Nat.sub_diag by lia. done.
Qed.

(** The buffer before step [t]: the last sixteen words of the schedule, or the
    words of the block that are still to be used. *)
Definition sched_at (W raw : list Z) (t : nat) (l : list Z) : Prop :=
  length l = 16%nat /\ forall j, (j < 16)%nat ->
    nth j l 0 = if (j <? t)%nat then nth (t - 1 - (t - 1 - j) mod 16) W 0 else nth j raw 0.

Definition sched (e : byte_order) (t : nat) (l : list Z) : Z * list Z :=
  if (t <? 16)%nat then blk0 e l t else blk l t.

Lemma nth_insert_eq (l : list Z) i v : (i < length l)%nat -> nth i (<[i := v]> l) 0 = v.
Proof. intros Hi. rewrite nth_lookup, list_lookup_insert_eq by done. done. Qed.
Lemma nth_insert_ne (l : list Z) i j v : i <> j -> nth j (<[i := v]> l) 0 = nth j l 0.
Proof. intros Hi. by rewrite !nth_lookup, list_lookup_insert_ne. Qed.

Lemma sched_put W raw t l w : sched_at W raw t l -> w = nth t W 0 -> sched_at W raw (S t) (<[at15 t := w]> l).
Proof.
  intros [Hl Hs] Hw. unfold at15. split; [by rewrite length_insert|]. intros j Hj.
  pose proof (Nat.mod_upper_bound t 16 ltac:(lia)) as Hb.
  destruct (decide (j = t mod 16)%nat) as [->|Hne].
  - rewrite nth_insert_eq by lia. rewrite Hw.
    destruct (Nat.ltb_spec (t mod 16) (S t)); [|pose proof (Nat.mod_le t 16); lia].
    f_equal. assert ((S t - 1 - t mod 16) mod 16 = 0)%nat as -> by (lia). lia.
  - rewrite nth_insert_ne, Hs by done.
    destruct (Nat.ltb_spec j t), (Nat.ltb_spec j (S t)); try lia. f_equal. lia.
Qed.

Lemma sched_ok e block t l : length block = 64%nat -> Bytes block -> (t < 80)%nat ->
  forall W, W = fips_W block 64 -> sched_at W (load e block) t l ->
  fst (sched e t l) = nth t W 0 /\ sched_at W (load e block) (S t) (snd (sched e t l)).
Proof.
  intros Hb Hbytes Ht W HW Hs. destruct (be_words_load e 16 block Hb Hbytes) as [Ew Lw].
  assert (length (be_words block) = 16%nat) as L16 by (by rewrite Ew, length_map).
  pose proof Hs as [Hl Hn]. unfold sched. destruct (Nat.ltb_spec t 16) as [H16|H16].
  - assert (nth t W 0 = first_use e (nth t l 0)) as EW.
    { rewrite HW, (fips_W_nth block 0 64) by lia. cbn [fips_W]. rewrite Ew.
      rewrite (Hn t H16). destruct (Nat.ltb_spec t t); [lia|].
      rewrite nth_indep with (d' := first_use e 0) by (rewrite length_map; lia). by rewrite map_nth. }
    pose proof (sched_put W _ t l _ Hs eq_refl) as Hput. unfold at15 in Hput. rewrite Nat.mod_small in Hput by lia.
    rewrite EW in Hput |- *. destruct e; cbn [first_use blk0 fst snd] in *; (split; [done|]); [done|].
    rewrite list_insert_id in Hput; [done|]. destruct (lookup_lt_is_Some_2 l t) as [x Hx]; [lia|]. by rewrite Hx, (nth_lookup_Some l t 0 x Hx).
  - assert (nth t W 0 = fst (blk l t)) as EW.
    { rewrite HW, fips_W_rec, <- HW by lia. unfold blk. cbn [fst]. unfold at15.
      rewrite !Hn by (apply Nat.mod_upper_bound; lia).
      repeat match goal with |- context [(?a <? t)%nat] => destruct (Nat.ltb_spec a t); [|exfalso; lia] end.
      change rol with rotl.
      replace (t - 1 - (t - 1 - (t + 13) mod 16) mod 16)%nat with (t - 3)%nat by lia.
      replace (t - 1 - (t - 1 - (t + 8) mod 16) mod 16)%nat with (t - 8)%nat by lia.
      replace (t - 1 - (t - 1 - (t + 2) mod 16) mod 16)%nat with (t - 14)%nat by lia.
      replace (t - 1 - (t - 1 - t mod 16) mod 16)%nat with (t - 16)%nat by lia. done. }
    split; [done|]. change (snd (blk l t)) with (<[at15 t := fst (blk l t)]> l). rewrite <- EW. by apply sched_put.
Qed.

(** * The unrolled lines *)

(** Line [t]: the registers turn by one at every line. *)
Definition op_at (t : nat) : R_op :=
  if (t <? 16)%nat then R0 else if (t <? 20)%nat then R1 else if (t <? 40)%nat then R2
  else if (t <? 60)%nat then R3 else R4.
Definition regs_at (t : nat) : reg * reg * reg * reg * reg :=
  match (t mod 5)%nat with
  | 0%nat => (Ra, Rb, Rc, Rd, Re) | 1%nat => (Re, Ra, Rb, Rc, Rd) | 2%nat => (Rd, Re, Ra, Rb, Rc)
  | 3%nat => (Rc, Rd, Re, Ra, Rb) | _ => (Rb, Rc, Rd, Re, Ra)
  end.
Definition line_at (t : nat) : line_t := let '(v, w, x, y, z) := regs_at t in line (op_at t) v w x y z t.
Lemma transform_lines_at : sha1_lines = map line_at (seq 0 80).
Proof. reflexivity. Qed.

Lemma op_at_ok e t l v w x y z : (t < 80)%nat ->
  op_at t e l t v w x y z =
  (u32 (rotl v 5 + fips_f t w x y + z + fips_K t + fst (sched e t l)), rotl w 30, snd (sched e t l)).
Proof.
  intros Ht.
  assert (forall f b K, u32 (z + u32 (u32 (u32 (f + b) + K) + rol v 5)) = u32 (rotl v 5 + f + z + K + b)) as Esum.
  { intros f b K. unfold u32. rewrite Z.add_mod_idemp_r by lia. change rol with rotl.
    rewrite <- (Z.add_mod_idemp_r z) by lia. rewrite Z.add_mod_idemp_l by lia. rewrite Z.add_mod_idemp_r by lia.
    rewrite <- (Z.add_mod_idemp_r z) by lia. rewrite <- Z.add_assoc. rewrite Z.add_mod_idemp_l by lia.
    rewrite Z.add_mod_idemp_r by lia. f_equal. lia. }
  unfold op_at, sched, fips_f, fips_K.
  destruct (Nat.ltb_spec t 16); [|destruct (Nat.ltb_spec t 20); [|destruct (Nat.ltb_spec t 40); [|destruct (Nat.ltb_spec t 60)]]].
  - replace (t / 20)%nat with 0%nat by lia. unfold R0, round. destruct (blk0 e l t). rewrite Esum, ch_eq. done.
  - replace (t / 20)%nat with 0%nat by lia. unfold R1, round. destruct (blk l t). rewrite Esum, ch_eq. done.
  - replace (t / 20)%nat with 1%nat by lia. unfold R2, round. destruct (blk l t). rewrite Esum. done.
  - replace (t / 20)%nat with 2%nat by lia. unfold R3, round. destruct (blk l t). rewrite Esum, maj_eq. done.
  - replace (t / 20)%nat with 3%nat by lia. unfold R4, round. destruct (blk l t). rewrite Esum. done.
Qed.

(** The registers read in the order of line [t]. *)
Definition view (t : nat) (s : words) : words :=
  let '(v, w, x, y, z) := regs_at t in (rget s v, rget s w, rget s x, rget s y, rget s z).

Lemma run_line_step e t s l W : (t < 80)%nat -> fst (sched e t l) = nth t W 0 ->
  let st := sha1_line e (s, l) (line_at t) in
  view (S t) (fst st) = fips_step W (view t s) t /\ snd st = snd (sched e t l).
Proof.
  intros Ht Hw st. destruct s as [[[[a b] c] d] e']. subst st. unfold line_at, view, regs_at.
  assert (S t mod 5 = match (t mod 5)%nat with 0 => 1 | 1 => 2 | 2 => 3 | 3 => 4 | _ => 0 end)%nat as ->.
  { assert (t mod 5 < 5)%nat by lia. destruct (t mod 5)%nat as [|[|[|[|[|]]]]] eqn:E; lia. }
  assert (t mod 5 < 5)%nat as H5 by lia.
  destruct (t mod 5)%nat as [|[|[|[|[|]]]]]; [..|lia]; cbn [sha1_line rget];
    rewrite op_at_ok by done; rewrite Hw; cbn [fst snd rput rget fips_step]; done.
Qed.

Lemma run_lines_fips e block n : length block = 64%nat -> Bytes block -> forall W, W = fips_W block 64 ->
  forall s, (n <= 80)%nat ->
  let st := fold_left (sha1_line e) (map line_at (seq 0 n)) (s, load e block) in
  view n (fst st) = fold_left (fips_step W) (seq 0 n) (view 0 s) /\ sched_at W (load e block) n (snd st).
Proof.
  intros Hb Hc W HW s. destruct (be_words_load e 16 block Hb Hc) as [_ L].
  induction n as [|n IH]; intros Hn; [split; [done|]; split; [done|]; intros j Hj; by destruct (Nat.ltb_spec j 0); [lia|]|].
  rewrite seq_S, map_app, !fold_left_app. cbn [map fold_left Nat.add]. destruct IH as [IHv IHs]; [lia|].
  destruct (fold_left (sha1_line e) (map line_at (seq 0 n)) (s, load e block)) as [s' l']. cbn [fst snd] in *.
  destruct (sched_ok e block n l' Hb Hc ltac:(lia) W HW IHs) as [Hw Hs'].
  destruct (run_line_step e n s' l' W ltac:(lia) Hw) as [Hv Hl]. rewrite Hv, IHv, Hl. done.
Qed.

Lemma transform_fips e s block : length block = 64%nat -> Bytes block ->
  HV_SHA1Transform e s block = fips_block s block.
Proof.
  intros Hb Hc. destruct s as [[[[h0 h1] h2] h3] h4]. unfold HV_SHA1Transform, fips_block.
  rewrite transform_lines_at.
  destruct (run_lines_fips e block 80 Hb Hc _ eq_refl (h0, h1, h2, h3, h4) ltac:(lia)) as [Hv _].
  change (view 0 (h0, h1, h2, h3, h4)) with (h0, h1, h2, h3, h4) in Hv. rewrite <- Hv.
  destruct (fold_left (sha1_line e) _ _) as [s l]. destruct s as [[[[a b] c] d] e']. done.
Qed.

(** * The context and the message it has absorbed *)

Definition init_words : words := (0x67452301, 0xEFCDAB89, 0x98BADCFE, 0x10325476, 0xC3D2E1F0).

Section Digest.
Context (e : byte_order).

Definition rep (ctx : HV_SHA1_CTX) (msg : list Z) : Prop :=
  (count0 ctx, count1 ctx) = bit_count (zlen msg) /\
  state ctx = whole (HV_SHA1Transform e) init_words msg /\
  holds (buffer ctx) msg.

Lemma sha1_rep_init garbage : length garbage = 64%nat -> rep (HV_SHA1Init garbage) [].
Proof. intros Hl. by split_and!. Qed.

(** The carry tested against either operand of the addition. *)
Lemma carry_sym a b : 0 <= a < 2 ^ 32 -> 0 <= b < 2 ^ 32 -> (u32 (a + b) <? a) = (u32 (a + b) <? b).
Proof. intros Ha Hb. unfold u32. zcases; exfalso; zdm. Qed.

Lemma HV_SHA1Update_ok ctx msg input : rep ctx msg -> zlen input + 64 < 2 ^ 32 ->
  exists ctx', HV_SHA1Update e ctx input (zlen input) = Some ctx' /\ rep ctx' (msg ++ input).
Proof.
  intros (Hc & Hs & Hh) Hb. pose proof (zlen_nonneg input) as Hi0. pose proof (zlen_nonneg msg) as Hm0.
  injection Hc as E0 E1. unfold HV_SHA1Update. rewrite E0, E1, Hs, bit_count_index by lia.
  assert (0 <= zlen msg mod 64 < 64) as Hx by (apply Z.mod_pos_bound; lia).
  cbv zeta. rewrite carry_sym by apply u32_range. rewrite (u32_small (_ + zlen input)) by lia.
  pose proof (bit_count_add (zlen msg) (zlen input) Hm0 ltac:(lia)) as Hcount. rewrite <- zlen_app in Hcount.
  destruct (buffer_update_ok (HV_SHA1Transform e) (63 <? zlen msg mod 64 + zlen input) (fun i => u32 (i + 63) <? zlen input)
    init_words msg input [] (buffer ctx) (zlen msg mod 64)) as (buf & Hu & Hh'); [done|done|done|zcases| |].
  { intros k Hk. rewrite u32_small by lia. zcases. }
  rewrite app_nil_r in Hu. rewrite Hu. cbn [mbind option_bind]. eexists. split; [done|].
  split_and!; [|done|done]. simpl. by rewrite Hcount.
Qed.

(** The padding loop stops at the first message length of 56 modulo 64. *)
Lemma pad_test n : 0 <= n -> (Z.land (u32 (8 * n)) 504 =? 448) = (n mod 64 =? 56).
Proof.
  intros Hn. change 504 with (Z.shiftl (Z.ones 6) 3).
  assert (u32 (8 * n) = Z.shiftl (n mod 2 ^ 29) 3) as ->.
  { rewrite Z.shiftl_mul_pow2 by lia. unfold u32. change (2 ^ 3) with 8. change (2 ^ 29) with 536870912. zdm. }
  rewrite <- Z.shiftl_land, Z.land_ones, Z.shiftl_mul_pow2 by lia.
  change (2 ^ 6) with 64. change (2 ^ 3) with 8. change (2 ^ 29) with 536870912.
  assert ((n mod 536870912) mod 64 = n mod 64) as -> by zdm.
  destruct (Z.eqb_spec (n mod 64) 56) as [->|]; [done|]. apply Z.eqb_neq. lia.
Qed.

Lemma pad_loop_ok n : forall fuel ctx msg, (n <= fuel)%nat -> rep ctx msg ->
  (zlen msg + Z.of_nat n) mod 64 = 56 -> (n < 64)%nat ->
  exists ctx', pad_loop e fuel ctx = Some ctx' /\ rep ctx' (msg ++ replicate n 0).
Proof.
  induction n as [|n IH]; intros fuel ctx msg Hf Hr Hn Hb; pose proof (zlen_nonneg msg) as Hm;
    pose proof Hr as (Hc & _); injection Hc as E0 _.
  - exists ctx. rewrite app_nil_r. split; [|done]. rewrite Z.add_0_r in Hn.
    destruct fuel; simpl; rewrite E0, pad_test, Hn by lia; done.
  - destruct fuel as [|fuel]; [lia|]. simpl. rewrite E0, pad_test by lia.
    destruct (Z.eqb_spec (zlen msg mod 64) 56); [exfalso; zdm|].
    destruct (HV_SHA1Update_ok ctx msg [0] Hr ltac:(done)) as (c1 & U & R). change (zlen [0]) with 1 in U.
    rewrite U. cbn [mbind option_bind]. destruct (IH fuel c1 (msg ++ [0])) as (c2 & P & R2);
      [lia|done|rewrite zlen_app; change (zlen [0]) with 1; rewrite <- Hn; f_equal; lia|lia|].
    exists c2. split; [done|]. by rewrite <- app_assoc in R2.
Qed.

Lemma finalcount_bits n : 0 <= n ->
  map (be_byte [u32 (8 * n / 2 ^ 32); u32 (8 * n)]) (seq 0 8) = be64 (8 * n).
Proof.
  intros Hn. unfold be64. cbn [map seq]. unfold be_byte.
  change (0 / 4)%nat with 0%nat. change (1 / 4)%nat with 0%nat. change (2 / 4)%nat with 0%nat. change (3 / 4)%nat with 0%nat.
  change (4 / 4)%nat with 1%nat. change (5 / 4)%nat with 1%nat. change (6 / 4)%nat with 1%nat. change (7 / 4)%nat with 1%nat.
  cbn [nth]. bits_to_arith. unfold u32.
  repeat (f_equal; [zdm|]). f_equal. zdm.
Qed.

Lemma digest_bytes s0 s1 s2 s3 s4 : map (be_byte [s0; s1; s2; s3; s4]) (seq 0 20) =
  flat_map (fun w => map (fun i => Z.shiftr w (8 * i) mod 256) [3; 2; 1; 0]) [s0; s1; s2; s3; s4].
Proof.
  assert (forall i, be_byte [s0; s1; s2; s3; s4] i
    = Z.shiftr (nth (i / 4) [s0; s1; s2; s3; s4] 0) ((3 - Z.of_nat i mod 4) * 8) mod 256) as E.
  { intros i. unfold be_byte. by rewrite (land_mask _ 255 8). }
  rewrite (map_ext _ _ E). reflexivity.
Qed.

Lemma fips_pad_Bytes msg : Bytes (fips_pad msg).
Proof.
  unfold fips_pad, be64. apply Bytes_app. split; [by repeat constructor|]. apply Bytes_app. split.
  - apply Forall_replicate. done.
  - apply Forall_map, Forall_true. intros i. apply Z.mod_pos_bound. lia.
Qed.

Lemma absorb_fips n : forall s l, Bytes l -> (64 * n <= length l)%nat ->
  absorb (HV_SHA1Transform e) n s l = absorb fips_block n s l.
Proof.
  induction n as [|n IH]; intros s l Hl Hn; [done|]. cbn [absorb].
  rewrite transform_fips by (rewrite ?length_take; try apply Forall_take; done || lia).
  apply IH; [by apply Forall_drop|rewrite length_drop; lia].
Qed.

Lemma final_fips ctx msg : rep ctx msg -> Bytes msg -> HV_SHA1Final e ctx = Some (fips_sha1 msg).
Proof.
  intros Hr Hbytes. pose proof (zlen_nonneg msg) as Hm. pose proof Hr as (Hc & _). injection Hc as E0 E1.
  unfold HV_SHA1Final. rewrite E0, E1, finalcount_bits by lia.
  destruct (HV_SHA1Update_ok ctx msg [0x80] Hr ltac:(done)) as (c1 & U1 & R1). change (zlen [128]) with 1 in U1.
  rewrite U1. cbn [mbind option_bind].
  pose proof (Z.mod_pos_bound (55 - zlen msg) 64 ltac:(lia)) as Hp.
  destruct (pad_loop_ok (Z.to_nat ((55 - zlen msg) mod 64)) 64 c1 (msg ++ [0x80])) as (c2 & U2 & R2);
    [lia|done|rewrite zlen_app; change (zlen [128]) with 1; zdm|lia|].
  rewrite U2. cbn [mbind option_bind].
  destruct (HV_SHA1Update_ok c2 _ (be64 (8 * zlen msg)) R2 ltac:(done)) as (c3 & U3 & R3).
  change (zlen (be64 _)) with 8 in U3. rewrite U3. cbn [mbind option_bind].
  destruct R3 as (_ & -> & _). rewrite <- !app_assoc. fold (fips_pad msg).
  unfold whole, fips_sha1. cbv zeta.
  rewrite absorb_fips; [|apply Bytes_app; split; [done|apply fips_pad_Bytes]|unfold nblocks; lia].
  unfold nblocks, init_words. destruct (absorb _ _ _ _) as [[[[? ?] ?] ?] ?]. by rewrite digest_bytes.
Qed.

Lemma feed_ok str : forall ctx msg, rep ctx msg ->
  exists ctx', feed e ctx str = Some ctx' /\ rep ctx' (msg ++ str).
Proof.
  induction str as [|c str IH]; intros ctx msg Hr; [rewrite app_nil_r; by exists ctx|].
  destruct (HV_SHA1Update_ok ctx msg [c] Hr ltac:(done)) as (c1 & U & R). change (zlen [c]) with 1 in U.
  cbn [feed]. rewrite U. cbn [mbind option_bind]. destruct (IH c1 _ R) as (c2 & F & R2). exists c2.
  split; [done|]. by rewrite <- app_assoc in R2.
Qed.

End Digest.

Lemma fips_sha1_length msg : length (fips_sha1 msg) = 20%nat.
Proof. unfold fips_sha1. cbv zeta. by destruct (absorb _ _ _ _) as [[[[? ?] ?] ?] ?]. Qed.
Lemma fips_sha1_Bytes msg : Bytes (fips_sha1 msg).
Proof.
  unfold fips_sha1. cbv zeta. destruct (absorb _ _ _ _) as [[[[? ?] ?] ?] ?]. cbn [flat_map map app].
  repeat constructor; apply Z.mod_pos_bound; lia.
Qed.

(** C26. hv_sha1 computes the SHA-1 of FIPS 180-4 on a machine of either byte
    order: the unrolled rounds on a circular sixteen-word schedule, the buffer and
    the padding loop give the digest of the standard's eighty-word schedule, for
    any contents of the uninitialised buffer and any input of fewer than
    2^32 - 64 bytes. *)
Theorem hv_sha1_fips e garbage input : length garbage = 64%nat -> Bytes input -> zlen input + 64 < 2 ^ 32 ->
  hv_sha1 e garbage input (zlen input) = Some (fips_sha1 input).
Proof.
  intros Hg Hb Hi. unfold hv_sha1.
  destruct (HV_SHA1Update_ok e (HV_SHA1Init garbage) [] input (sha1_rep_init e _ Hg) Hi) as (c & U & R).
  rewrite U. by apply final_fips.
Qed.
Lemma hv_sha1_fips_witness : hv_sha1 LITTLE_ENDIAN (replicate 64 0) [97; 98; 99] 3 = Some (fips_sha1 [97; 98; 99]).
Proof. apply (hv_sha1_fips LITTLE_ENDIAN (replicate 64 0) [97; 98; 99]); [reflexivity|repeat constructor; done|reflexivity]. Defined.

(** HV_SHA1, which feeds the context one byte at a time, gives the same
    digest followed by a terminator, for inputs of any length. *)
Theorem HV_SHA1_fips e garbage str : length garbage = 64%nat -> Bytes str ->
  HV_SHA1 e garbage str = Some (fips_sha1 str ++ [0]).
Proof.
  intros Hg Hb. unfold HV_SHA1. destruct (feed_ok e str (HV_SHA1Init garbage) [] (sha1_rep_init e _ Hg)) as (c & F & R).
  rewrite F. cbn [mbind option_bind]. by rewrite (final_fips e c str R Hb).
Qed.
Lemma HV_SHA1_fips_witness : HV_SHA1 BIG_ENDIAN (replicate 64 0) [97; 98] = Some (fips_sha1 [97; 98] ++ [0]).
Proof. apply (HV_SHA1_fips BIG_ENDIAN (replicate 64 0) [97; 98]); [reflexivity|repeat constructor; done]. Defined.

End Sha1.
