(* ===== verification/WebSocket.v ===== *)
(** WebSocket framing: the incremental parser, the masking and the frame builder
    of http/websocket_parser.c, the wrappers of http/wsdef.c, and the callbacks
    of http/WebSocketParser.cpp that turn frames into messages. *)
From S2P Require Import Prelude Hash Sha1 Base64.

Module WebSocket.

(** * Flags *)

Definition WS_OP_CONTINUE : Z := 0x0.
Definition WS_OP_CLOSE : Z := 0x8.
Definition WS_FIN : Z := 0x10.
Definition WS_HAS_MASK : Z := 0x20.
Definition WS_OP_MASK : Z := 0xF.

(** * The parser *)

Inductive state_t := s_start | s_head | s_length | s_mask | s_body.

(** The application pointer [data] is the state the callbacks act on. *)
Record websocket_parser := mk_parser {
  state : state_t; flags : Z; mask : list Z; mask_offset : Z;
  length_ : Z; require : Z; offset : Z }.
#[global] Instance parser_rebuild : Rebuild websocket_parser :=
  fun r => mk_parser (state r) (flags r) (mask r) (mask_offset r) (length_ r) (require r) (offset r).

Definition websocket_parser_init : websocket_parser := mk_parser s_start 0 [0; 0; 0; 0] 0 0 0 0.

(** [dst[i] = src[i] ^ mask[(i + mask_offset) % 4]] for [i < len]. *)
Definition mask_byte (mask : list Z) (mask_offset i b : Z) : option Z :=
  m ← zget mask ((i + mask_offset) mod 4); Some (Z.lxor b m).
Definition websocket_decode (src : list Z) (len : Z) (mask : list Z) (mask_offset : Z) : option (list Z * Z) :=
  dst ← for_loop (Z.to_nat len) 0 (fun i dst =>
          b ← zget src i; c ← mask_byte mask mask_offset i b; Some (dst ++ [c])) [];
  Some (dst, u8 ((len + mask_offset) mod 4)).
Definition websocket_parser_decode (src : list Z) (len : Z) (parser : websocket_parser)
    : option (list Z * websocket_parser) :=
  '(dst, off) ← websocket_decode src len (mask parser) (mask_offset parser);
  Some (dst, parser.[mask_offset := off]).

Section Execute.
Context {U : Type}.

(** A callback's result, the parser and the application state it leaves; [None]
    when it raises an exception. *)
Definition cb_result : Type := option (Z * websocket_parser * U).
Record websocket_parser_settings := mk_settings {
  on_frame_header : option (websocket_parser -> U -> cb_result);
  on_frame_body : option (websocket_parser -> U -> list Z -> cb_result);
  on_frame_end : option (websocket_parser -> U -> cb_result) }.
Definition websocket_parser_settings_init : websocket_parser_settings := mk_settings None None None.

(** [websocket_parser_execute] has returned [n], or goes on after [p], [frame_offset]. *)
Inductive outcome :=
| Return (n : Z) (parser : websocket_parser) (u : U)
| Next (p frame_offset : Z) (parser : websocket_parser) (u : U).

Context (settings : websocket_parser_settings).
(** The bytes and the address of the first. *)
Context (data : list Z) (addr : Z).

Definition GET_NPARSED (p : Z) : Z := if p =? zlen data then zlen data else p.

Definition NOTIFY_CB (cb : option (websocket_parser -> U -> cb_result)) (p : Z) (parser : websocket_parser) (u : U)
    (k : websocket_parser -> U -> option outcome) : option outcome :=
  match cb with
  | None => k parser u
  | Some f =>
      '(r, parser, u) ← f parser u;
      if r =? 0 then k parser u else Some (Return (GET_NPARSED p) parser u)
  end.
Definition EMIT_DATA_CB (cb : option (websocket_parser -> U -> list Z -> cb_result)) (at_ len p : Z)
    (parser : websocket_parser) (u : U) (k : websocket_parser -> U -> option outcome) : option outcome :=
  match cb with
  | None => k parser u
  | Some f =>
      bytes ← zslice data at_ len;
      '(r, parser, u) ← f parser u bytes;
      if r =? 0 then k parser u else Some (Return (GET_NPARSED p) parser u)
  end.

(** A frame without payload, or the start of its payload. *)
Definition begin_body (p : Z) (parser : websocket_parser) (u : U) (k : websocket_parser -> U -> option outcome)
    : option outcome :=
  if negb (length_ parser =? 0) then
    let parser := parser.[state := s_body] in
    let parser := parser.[require := length_ parser] in
    NOTIFY_CB (on_frame_header settings) p parser u k
  else
    let parser := parser.[state := s_start] in
    NOTIFY_CB (on_frame_header settings) p parser u (fun parser u =>
    NOTIFY_CB (on_frame_end settings) p parser u k).
Definition after_length (p : Z) (parser : websocket_parser) (u : U) (k : websocket_parser -> U -> option outcome)
    : option outcome :=
  if has_flag (flags parser) WS_HAS_MASK then
    k (parser.[state := s_mask].[require := 4]) u
  else begin_body p parser u k.

(** [while (p < end && parser->require)] of the extended length. *)
Fixpoint length_loop (fuel : nat) (p frame_offset : Z) (parser : websocket_parser)
    : option (Z * Z * websocket_parser) :=
  if (p <? zlen data) && negb (require parser =? 0) then
    match fuel with
    | O => None
    | S fuel =>
        b ← zget data p;
        let parser := parser.[length_ := u64 (Z.shiftl (length_ parser) 8)] in
        let parser := parser.[length_ := Z.lor (length_ parser) b] in
        let parser := parser.[require := u64 (require parser - 1)] in
        length_loop fuel (p + 1) (u64 (frame_offset + 1)) parser
    end
  else Some (p, frame_offset, parser).
Fixpoint mask_loop (fuel : nat) (p frame_offset : Z) (parser : websocket_parser)
    : option (Z * Z * websocket_parser) :=
  if (p <? zlen data) && negb (require parser =? 0) then
    match fuel with
    | O => None
    | S fuel =>
        b ← zget data p;
        m ← zset (mask parser) (u64 (4 - require parser)) b;
        let parser := parser.[mask := m].[require := u64 (require parser - 1)] in
        mask_loop fuel (p + 1) (u64 (frame_offset + 1)) parser
    end
  else Some (p, frame_offset, parser).

Definition parser_step (p frame_offset : Z) (parser : websocket_parser) (u : U) : option outcome :=
  match state parser with
  | s_start =>
      c ← zget data p;
      let parser := parser.[offset := 0].[length_ := 0].[mask_offset := 0].[flags := Z.land c WS_OP_MASK] in
      let parser := if has_flag c (Z.shiftl 1 7) then parser.[flags := Z.lor (flags parser) WS_FIN] else parser in
      Some (Next p (u64 (frame_offset + 1)) (parser.[state := s_head]) u)
  | s_head =>
      c ← zget data p;
      let parser := parser.[length_ := Z.land c 0x7F] in
      let parser := if has_flag c 0x80 then parser.[flags := Z.lor (flags parser) WS_HAS_MASK] else parser in
      let next parser u := Some (Next p (u64 (frame_offset + 1)) parser u) in
      if 126 <=? length_ parser then
        let parser := parser.[require := if length_ parser =? 127 then 8 else 2] in
        next (parser.[length_ := 0].[state := s_length]) u
      else after_length p parser u next
  | s_length =>
      '(p, frame_offset, parser) ← length_loop (length data) p frame_offset parser;
      let p := p - 1 in
      let next parser u := Some (Next p frame_offset parser u) in
      if require parser =? 0 then after_length p parser u next else next parser u
  | s_mask =>
      '(p, frame_offset, parser) ← mask_loop (length data) p frame_offset parser;
      let p := p - 1 in
      let next parser u := Some (Next p frame_offset parser u) in
      if require parser =? 0 then begin_body p parser u next else next parser u
  | s_body =>
      let finish p frame_offset parser u :=
        if require parser =? 0 then
          NOTIFY_CB (on_frame_end settings) p (parser.[state := s_start]) u (fun parser u =>
            Some (Next p frame_offset parser u))
        else Some (Next p frame_offset parser u) in
      if negb (require parser =? 0) then
        if u64 (addr + p + require parser) <=? addr + zlen data then
          EMIT_DATA_CB (on_frame_body settings) p (require parser) p parser u (fun parser u =>
            let p := p + require parser in
            finish (p - 1) (u64 p) (parser.[require := 0]) u)
        else
          EMIT_DATA_CB (on_frame_body settings) p (zlen data - p) p parser u (fun parser u =>
            let parser := parser.[require := u64 (require parser - (zlen data - p))] in
            let p := zlen data in
            let parser := parser.[offset := u64 (offset parser + (p - frame_offset))] in
            finish (p - 1) 0 parser u)
      else finish p frame_offset parser u
  end.

(** [for (p = data; p != end; p++)]. *)
Fixpoint execute_loop (fuel : nat) (p frame_offset : Z) (parser : websocket_parser) (u : U)
    : option (Z * websocket_parser * U) :=
  if p =? zlen data then Some (GET_NPARSED p, parser, u)
  else match fuel with
       | O => None
       | S fuel =>
           o ← parser_step p frame_offset parser u;
           match o with
           | Return n parser u => Some (n, parser, u)
           | Next p frame_offset parser u => execute_loop fuel (p + 1) frame_offset parser u
           end
       end.
Definition websocket_parser_execute (parser : websocket_parser) (u : U) : option (Z * websocket_parser * U) :=
  execute_loop (length data) 0 0 parser u.

End Execute.
Arguments websocket_parser_settings : clear implicits.

(** * Messages from frames *)

Inductive ws_parser_state := WS_FRAME_BEGIN | WS_FRAME_HEADER | WS_FRAME_BODY | WS_FRAME_END | WS_FRAME_FIN.

(** [delivered] records the calls of [onMessage]. *)
Record WebSocketParser := mk_wp {
  wp_state : ws_parser_state; opcode : Z; message : list Z; onMessage : bool; delivered : list (Z * list Z) }.
#[global] Instance wp_rebuild : Rebuild WebSocketParser :=
  fun r => mk_wp (wp_state r) (opcode r) (message r) (onMessage r) (delivered r).

Definition MAX_PAYLOAD_LENGTH : Z := Z.shiftl 1 24.
(** [std::string::reserve] raises [length_error] above [max_size]. *)
Definition string_max_size : Z := 2 ^ 63 - 1.

(** The capacity grows only if it is below the amount reserved, so the call that
    may fail is the one with an amount above [max_size]. *)
Definition wp_on_frame_header (parser : websocket_parser) (wp : WebSocketParser) : @cb_result WebSocketParser :=
  let op := Z.land (flags parser) WS_OP_MASK in
  let wp := if negb (op =? WS_OP_CONTINUE) then wp.[opcode := op] else wp in
  let len := i32 (length_ parser) in
  let reserve_length := Z.min (i32 (len + 1)) MAX_PAYLOAD_LENGTH in
  if string_max_size <? u64 reserve_length then None
  else
    let wp := match wp_state wp with
              | WS_FRAME_BEGIN | WS_FRAME_FIN => wp.[message := []]
              | _ => wp
              end in
    Some (0, parser, wp.[wp_state := WS_FRAME_HEADER]).

Definition wp_on_frame_body (parser : websocket_parser) (wp : WebSocketParser) (at_ : list Z) : @cb_result WebSocketParser :=
  let wp := wp.[wp_state := WS_FRAME_BODY] in
  '(at_, parser) ← (if has_flag (flags parser) WS_HAS_MASK
                    then websocket_parser_decode at_ (zlen at_) parser else Some (at_, parser));
  Some (0, parser, wp.[message := message wp ++ at_]).

Definition wp_on_frame_end (parser : websocket_parser) (wp : WebSocketParser) : @cb_result WebSocketParser :=
  let wp := wp.[wp_state := WS_FRAME_END] in
  let wp := if has_flag (flags parser) WS_FIN then
              let wp := wp.[wp_state := WS_FRAME_FIN] in
              if onMessage wp then wp.[delivered := delivered wp ++ [(opcode wp, message wp)]] else wp
            else wp in
  Some (0, parser, wp).

Definition cbs : websocket_parser_settings WebSocketParser :=
  mk_settings (Some wp_on_frame_header) (Some wp_on_frame_body) (Some wp_on_frame_end).

(** [WebSocketParser()], with [onMessage] set afterwards or not. *)
Definition WebSocketParser_new (on : bool) : websocket_parser * WebSocketParser :=
  (websocket_parser_init, mk_wp WS_FRAME_BEGIN WS_OP_CLOSE [] on []).

(** The count returned is an [int]. *)
Definition FeedRecvData (data : list Z) (addr : Z) (ws : websocket_parser * WebSocketParser)
    : option (Z * (websocket_parser * WebSocketParser)) :=
  '(n, parser, wp) ← websocket_parser_execute cbs data addr ws.1 ws.2; Some (i32 n, (parser, wp)).

(** * Building frames *)

Definition websocket_calc_frame_size (flags data_len : Z) : Z :=
  let size := u64 (data_len + 2) in
  let size := if 126 <=? data_len then if 0xFFFF <? data_len then u64 (size + 8) else u64 (size + 2) else size in
  if has_flag flags WS_HAS_MASK then u64 (size + 4) else size.

(** The first two bytes and the length; the frame and [body_offset]. *)
Definition build_header (frame : list Z) (flags data_len : Z) : option (list Z * Z) :=
  frame ← zset frame 0 0;
  frame ← zset frame 1 0;
  frame ← (if has_flag flags WS_FIN then zset frame 0 (Z.shiftl 1 7) else Some frame);
  f0 ← zget frame 0; frame ← zset frame 0 (Z.lor f0 (Z.land flags WS_OP_MASK));
  frame ← (if has_flag flags WS_HAS_MASK then zset frame 1 (Z.shiftl 1 7) else Some frame);
  f1 ← zget frame 1;
  if data_len <? 126 then
    frame ← zset frame 1 (Z.lor f1 data_len); Some (frame, 2)
  else if data_len <=? 0xFFFF then
    frame ← zset frame 1 (Z.lor f1 126);
    frame ← zset frame 2 (u8 (Z.shiftr data_len 8));
    frame ← zset frame 3 (Z.land data_len 0xFF);
    Some (frame, 4)
  else
    frame ← zset frame 1 (Z.lor f1 127);
    frame ← zset frame 2 (Z.land (Z.shiftr data_len 56) 0xFF);
    frame ← zset frame 3 (Z.land (Z.shiftr data_len 48) 0xFF);
    frame ← zset frame 4 (Z.land (Z.shiftr data_len 40) 0xFF);
    frame ← zset frame 5 (Z.land (Z.shiftr data_len 32) 0xFF);
    frame ← zset frame 6 (Z.land (Z.shiftr data_len 24) 0xFF);
    frame ← zset frame 7 (Z.land (Z.shiftr data_len 16) 0xFF);
    frame ← zset frame 8 (Z.land (Z.shiftr data_len 8) 0xFF);
    frame ← zset frame 9 (Z.land data_len 0xFF);
    Some (frame, 10).

(** The masked payload is written after the mask in the frame itself, which is the
    one given or, when [mask] is [NULL], whatever the frame holds there. *)
Definition build_body (frame : list Z) (body_offset flags : Z) (mask : option (list Z)) (data : list Z) (data_len : Z)
    : option (list Z * Z) :=
  if has_flag flags WS_HAS_MASK then
    frame ← match mask with Some m => m ← zslice m 0 4; zcopy frame body_offset m | None => Some frame end;
    m ← zslice frame body_offset 4;
    '(dst, _) ← websocket_decode data data_len m 0;
    frame ← zcopy frame (body_offset + 4) dst;
    Some (frame, u64 (body_offset + 4 + data_len))
  else
    src ← zslice data 0 data_len;
    frame ← zcopy frame body_offset src;
    Some (frame, u64 (body_offset + data_len)).

Definition websocket_build_frame (frame : list Z) (flags : Z) (mask : option (list Z)) (data : list Z) (data_len : Z)
    : option (list Z * Z) :=
  '(frame, body_offset) ← build_header frame flags data_len;
  build_body frame body_offset flags mask data data_len.

(** * wsdef.c *)

Definition ws_magic : list Z := bytes_of_string "258EAFA5-E914-47DA-95CA-C5AB0DC85B11".

Definition ws_encode_key (e : Sha1.byte_order) (garbage key accept : list Z) : option (list Z) :=
  ctx ← Sha1.HV_SHA1Update e (Sha1.HV_SHA1Init garbage) key (u32 (zlen key));
  ctx ← Sha1.HV_SHA1Update e ctx ws_magic (zlen ws_magic);
  digest ← Sha1.HV_SHA1Final e ctx;
  '(accept, _) ← Base64.hv_base64_encode digest accept;
  Some accept.

Definition ws_calc_frame_size (data_len : Z) (has_mask : bool) : Z :=
  let size := i32 (data_len + 2) in
  let size := if 126 <=? data_len then if 0xFFFF <? data_len then i32 (size + 8) else i32 (size + 2) else size in
  if has_mask then i32 (size + 4) else size.

Definition ws_build_frame (out data : list Z) (data_len : Z) (mask : list Z) (has_mask : bool) (opcode : Z) (fin : bool)
    : option (list Z * Z) :=
  let flags := opcode in
  let flags := if fin then Z.lor flags WS_FIN else flags in
  let flags := if has_mask then Z.lor flags WS_HAS_MASK else flags in
  '(out, n) ← websocket_build_frame out flags (Some mask) data (u64 data_len);
  Some (out, i32 n).

(** [rand()] supplies [imask]. *)
Definition ws_client_build_frame (imask : Z) (out data : list Z) (data_len opcode : Z) (fin : bool)
    : option (list Z * Z) :=
  let mask := map (fun i => Z.land (Z.shiftr imask (8 * i)) 0xff) [0; 1; 2; 3] in
  ws_build_frame out data data_len mask true opcode fin.
Definition ws_server_build_frame (out data : list Z) (data_len opcode : Z) (fin : bool) : option (list Z * Z) :=
  ws_build_frame out data data_len [0; 0; 0; 0] false opcode fin.

Example accept_sample : ws_encode_key Sha1.LITTLE_ENDIAN (replicate 64 0) (bytes_of_string "dGhlIHNhbXBsZSBub25jZQ==") (replicate 28 0)
  = Some (bytes_of_string "s3pPLMBiTxaQ9kYGzzhZRbK+xOo=").
Proof. vm_compute. reflexivity. Qed.
Example hello_masked : ws_build_frame (replicate 11 0) (bytes_of_string "Hello") 5 [0x37; 0xfa; 0x21; 0x3d] true 1 true
  = Some ([0x81; 0x85; 0x37; 0xfa; 0x21; 0x3d; 0x7f; 0x9f; 0x4d; 0x51; 0x58], 11).
Proof. vm_compute. reflexivity. Qed.
Example hello_parsed : option_map (fun r => delivered r.2.2)
    (FeedRecvData [0x01; 0x83; 0x37; 0xfa; 0x21; 0x3d; 0x7f; 0x9f; 0x4d; 0x80; 0x02; 0x6c; 0x6f] 4096 (WebSocketParser_new true))
  = Some [(1, bytes_of_string "Hello")].
Proof. vm_compute. reflexivity. Qed.

End WebSocket.
