(* ===== verification/WebSocketThm.v ===== *)
(** WebSocket framing, proofs: the parser with the callbacks of WebSocketParser is a
    machine that takes one byte at a time; frames built by ws_build_frame have the
    layout of RFC 6455 and come out of the parser as the messages they carry; the
    handshake key is the base64 of a SHA-1. *)
From S2P Require Import Prelude Hash Sha1 Base64 WebSocket.
Import WebSocket.

Module WebSocketThm.

(** * The parser one byte at a time *)

(** The mask applied to successive bytes. *)
Fixpoint unmask (mask : list Z) (off : Z) (l : list Z) : list Z :=
  match l with
  | [] => []
  | b :: l => Z.lxor b (nth (Z.to_nat (off mod 4)) mask 0) :: unmask mask (off + 1) l
  end.

Definition st : Type := websocket_parser * WebSocketParser.

Definition header1 (ps : websocket_parser) (wp : WebSocketParser) : WebSocketParser :=
  let op := Z.land (flags ps) WS_OP_MASK in
  mk_wp WS_FRAME_HEADER (if op =? WS_OP_CONTINUE then opcode wp else op)
    (match wp_state wp with WS_FRAME_BEGIN | WS_FRAME_FIN => [] | _ => message wp end) (onMessage wp) (delivered wp).
Definition end1 (ps : websocket_parser) (wp : WebSocketParser) : WebSocketParser :=
  let fin := has_flag (flags ps) WS_FIN in
  mk_wp (if fin then WS_FRAME_FIN else WS_FRAME_END) (opcode wp) (message wp) (onMessage wp)
    (if fin && onMessage wp then delivered wp ++ [(opcode wp, message wp)] else delivered wp).
Definition body1 (s : st) (l : list Z) : st :=
  let '(ps, wp) := s in
  let masked := has_flag (flags ps) WS_HAS_MASK in
  (if masked then ps.[mask_offset := (zlen l + mask_offset ps) mod 4] else ps,
   mk_wp WS_FRAME_BODY (opcode wp) (message wp ++ if masked then unmask (mask ps) (mask_offset ps) l else l)
     (onMessage wp) (delivered wp)).

Definition begin1 (s : st) : st :=
  let '(ps, wp) := s in
  if length_ ps =? 0 then let ps := ps.[state := s_start] in (ps, end1 ps (header1 ps wp))
  else let ps := ps.[state := s_body].[require := length_ ps] in (ps, header1 ps wp).
Definition after1 (s : st) : st :=
  if has_flag (flags s.1) WS_HAS_MASK then (s.1.[state := s_mask].[require := 4], s.2) else begin1 s.

Definition length1 (ps : websocket_parser) (b : Z) : websocket_parser :=
  ps.[length_ := Z.lor (u64 (Z.shiftl (length_ ps) 8)) b].[require := require ps - 1].
Definition mask1 (ps : websocket_parser) (b : Z) : websocket_parser :=
  ps.[mask := <[Z.to_nat (4 - require ps) := b]> (mask ps)].[require := require ps - 1].
Definition take1 (s : st) (l : list Z) : st := let '(ps, wp) := body1 s l in (ps.[require := require ps - zlen l], wp).
Definition finish1 (s : st) : st :=
  if require s.1 =? 0 then let ps := s.1.[state := s_start] in (ps, end1 ps s.2) else s.

Definition feed1 (s : st) (b : Z) : st :=
  let '(ps, wp) := s in
  match state ps with
  | s_start =>
      let fl := Z.land b WS_OP_MASK in
      (mk_parser s_head (if has_flag b 128 then Z.lor fl WS_FIN else fl) (mask ps) 0 0 (require ps) (offset ps), wp)
  | s_head =>
      let n := Z.land b 127 in
      let ps := ps.[flags := if has_flag b 128 then Z.lor (flags ps) WS_HAS_MASK else flags ps] in
      if 126 <=? n then (ps.[require := if n =? 127 then 8 else 2].[length_ := 0].[state := s_length], wp)
      else after1 (ps.[length_ := n], wp)
  | s_length => let ps := length1 ps b in if require ps =? 0 then after1 (ps, wp) else (ps, wp)
  | s_mask => let ps := mask1 ps b in if require ps =? 0 then begin1 (ps, wp) else (ps, wp)
  | s_body => finish1 (take1 s [b])
  end.

(** Every payload announced fits an [int]. *)
Definition LIMIT : Z := 2 ^ 31 - 1.
Fixpoint small (s : st) (data : list Z) : Prop :=
  length_ s.1 < LIMIT /\ match data with [] => True | b :: data => small (feed1 s b) data end.

Lemma small_app s d1 d2 : small s (d1 ++ d2) <-> small s d1 /\ small (fold_left feed1 d1 s) d2.
Proof.
  revert s. induction d1 as [|b d1 IH]; intros s; simpl; [|rewrite IH; naive_solver].
  destruct d2; simpl; naive_solver.
Qed.
Lemma small_here s d : small s d -> length_ s.1 < LIMIT.
Proof. destruct d; simpl; naive_solver. Qed.

Record wf (ps : websocket_parser) : Prop := mk_wf {
  wf_mask : length (mask ps) = 4%nat;
  wf_off : 0 <= mask_offset ps < 4;
  wf_len : 0 <= length_ ps;
  wf_req : match state ps with
           | s_length => 0 < require ps <= 8
           | s_mask => 0 < require ps <= 4
           | s_body => 0 < require ps <= length_ ps
           | _ => True
           end }.

(** * Masking *)

Lemma mask_byte_ok mask off i b : length mask = 4%nat ->
  mask_byte mask off i b = Some (Z.lxor b (nth (Z.to_nat ((i + off) mod 4)) mask 0)).
Proof.
  intros Hm. unfold mask_byte. pose proof (Z.mod_pos_bound (i + off) 4 ltac:(lia)) as Hb.
  rewrite zget_Some by (unfold zlen; lia).
  destruct (lookup_lt_is_Some_2 mask (Z.to_nat ((i + off) mod 4))) as [m Em]; [lia|].
  by rewrite Em, (nth_lookup_Some _ _ 0 _ Em).
Qed.

Lemma decode_loop_ok mask off l : length mask = 4%nat -> forall pre dst,
  for_loop (length l) (zlen pre) (fun i dst =>
    b ← zget (pre ++ l) i; c ← mask_byte mask off i b; Some (dst ++ [c])) dst
  = Some (dst ++ unmask mask (zlen pre + off) l).
Proof.
  intros Hm. induction l as [|b l IH]; intros pre dst; [simpl; by rewrite app_nil_r|].
  cbn [length for_loop]. rewrite zget_middle by done. cbn [mbind option_bind]. rewrite mask_byte_ok by done.
  cbn [mbind option_bind]. specialize (IH (pre ++ [b])). rewrite <- (app_assoc pre [b] l) in IH. cbn [app] in IH.
  rewrite zlen_app in IH. change (zlen [b]) with 1 in IH. rewrite IH. cbn [unmask].
  rewrite <- app_assoc. cbn [app]. do 4 f_equal. lia.
Qed.

Lemma websocket_decode_ok mask off l : length mask = 4%nat ->
  websocket_decode l (zlen l) mask off = Some (unmask mask off l, (zlen l + off) mod 4).
Proof.
  intros Hm. unfold websocket_decode. replace (Z.to_nat (zlen l)) with (length l) by (unfold zlen; lia).
  pose proof (decode_loop_ok mask off l Hm [] []) as E. cbn [app zlen] in E. change (zlen []) with 0 in E.
  rewrite E. cbn [mbind option_bind]. rewrite u8_small by zdm. done.
Qed.

Lemma unmask_length mask off l : length (unmask mask off l) = length l.
Proof. revert off. induction l as [|b l IH]; intros off; simpl; [done|]. by rewrite IH. Qed.
Lemma unmask_app mask off l k : unmask mask off (l ++ k) = unmask mask off l ++ unmask mask (zlen l + off) k.
Proof.
  revert off. induction l as [|b l IH]; intros off; [done|]. simpl. rewrite IH. do 3 f_equal. zlen_simpl. lia.
Qed.
Lemma unmask_mod mask off off' l : off mod 4 = off' mod 4 -> unmask mask off l = unmask mask off' l.
Proof.
  revert off off'. induction l as [|b l IH]; intros off off' E; [done|]. simpl. rewrite E. f_equal. apply IH. zdm.
Qed.
Lemma unmask_twice mask off l : unmask mask off (unmask mask off l) = l.
Proof.
  revert off. induction l as [|b l IH]; intros off; [done|]. simpl. rewrite IH, Z.lxor_assoc, Z.lxor_nilpotent, Z.lxor_0_r. done.
Qed.

(** * Steps of the parser against bytes *)

(** The running offset, which nothing reads, is left out. *)
Definition norm (s : st) : st := (s.1.[offset := 0], s.2).

Lemma norm_feed1 s b : norm (feed1 s b) = feed1 (norm s) b.
Proof.
  destruct s as [[sta fl mk mo le rq ofs] wp]. unfold norm. destruct sta; simpl; try done.
  - unfold after1, begin1. cbn. repeat (case_match; cbn); done.
  - unfold length1, after1, begin1. cbn. repeat (case_match; cbn); done.
  - unfold mask1, begin1. cbn. repeat (case_match; cbn); done.
  - unfold finish1, take1, body1. cbn. repeat (case_match; cbn); simplify_eq; try done; unfold over in *; simpl in *; congruence.
Qed.
Lemma norm_fold l : forall s, norm (fold_left feed1 l s) = fold_left feed1 l (norm s).
Proof. induction l as [|b l IH]; intros s; simpl; [done|]. by rewrite IH, norm_feed1. Qed.

Section Steps.
Context (data : list Z).
Notation notify := (NOTIFY_CB data).
Notation outcome := (@outcome WebSocketParser).

Lemma notify_header p ps wp (k : _ -> _ -> option outcome) : 0 <= length_ ps < LIMIT ->
  notify (on_frame_header cbs) p ps wp k = k ps (header1 ps wp).
Proof.
  intros Hl. unfold NOTIFY_CB, LIMIT in *. cbn [on_frame_header cbs]. unfold wp_on_frame_header.
  rewrite (i32_small (length_ ps)), i32_small by lia.
  assert (string_max_size <? u64 (Z.min (length_ ps + 1) MAX_PAYLOAD_LENGTH) = false) as ->.
  { apply Z.ltb_ge. change MAX_PAYLOAD_LENGTH with 16777216. unfold string_max_size. rewrite u64_small; lia. }
  cbn [mbind option_bind]. unfold header1. destruct wp as [[] op ms on dl]; cbn; by destruct (_ =? WS_OP_CONTINUE).
Qed.
Lemma notify_end p ps wp (k : _ -> _ -> option outcome) :
  notify (on_frame_end cbs) p ps wp k = k ps (end1 ps wp).
Proof.
  unfold NOTIFY_CB. cbn [on_frame_end cbs]. unfold wp_on_frame_end, end1. cbn.
  destruct (has_flag (flags ps) WS_FIN), wp as [s op ms [] dl]; done.
Qed.

Lemma begin_body_ok p ps wp (k : _ -> _ -> option outcome) : 0 <= length_ ps < LIMIT ->
  begin_body cbs data p ps wp k = k (begin1 (ps, wp)).1 (begin1 (ps, wp)).2.
Proof.
  intros Hl. unfold begin_body, begin1. destruct (length_ ps =? 0); cbn [negb]; cbv zeta.
  - rewrite notify_header, notify_end by done. done.
  - rewrite notify_header by done. done.
Qed.
Lemma after_length_ok p ps wp (k : _ -> _ -> option outcome) : 0 <= length_ ps < LIMIT ->
  after_length cbs data p ps wp k = k (after1 (ps, wp)).1 (after1 (ps, wp)).2.
Proof.
  intros Hl. unfold after_length, after1. cbn [fst snd]. destruct (has_flag _ _); [done|]. by apply begin_body_ok.
Qed.

Lemma length_after1 s : length_ (after1 s).1 = length_ s.1.
Proof. destruct s as [ps wp]. unfold after1, begin1. cbn. repeat (case_match; cbn); done. Qed.
Lemma length_begin1 s : length_ (begin1 s).1 = length_ s.1.
Proof. destruct s as [ps wp]. unfold begin1. cbn. repeat (case_match; cbn); done. Qed.

(** The loop over the length bytes, and the bytes it takes. *)
Lemma length_loop_ok rest : forall fuel pre fo ps wp, data = pre ++ rest -> (length rest <= fuel)%nat ->
  state ps = s_length -> 0 < require ps <= 8 -> rest <> [] ->
  exists chunk rest' fo' ps', rest = chunk ++ rest' /\ chunk <> [] /\
    length_loop data fuel (zlen pre) fo ps = Some (zlen pre + zlen chunk, fo', ps') /\
    fold_left feed1 chunk (ps, wp) = (if require ps' =? 0 then after1 (ps', wp) else (ps', wp)).
Proof.
  induction rest as [|b rest IH]; intros fuel pre fo ps wp Hd Hf Hs Hr Hne; [done|].
  destruct fuel as [|fuel]; [simpl in Hf; lia|]. cbn [length_loop].
  assert (zlen data = zlen pre + (1 + zlen rest)) as Hdl by (rewrite Hd; by zlen_simpl).
  pose proof (zlen_nonneg rest). destruct (Z.ltb_spec (zlen pre) (zlen data)); [|lia].
  destruct (Z.eqb_spec (require ps) 0); [lia|]. cbn [andb negb]. rewrite Hd, zget_middle by done. rewrite <- Hd.
  cbn [mbind option_bind]. cbv zeta. rewrite (u64_small (require _ - 1)) by (cbn; lia).
  set (ps1 := length1 ps b).
  assert (feed1 (ps, wp) b = if require ps1 =? 0 then after1 (ps1, wp) else (ps1, wp)) as Hf1.
  { unfold feed1. rewrite Hs. done. }
  replace (zlen pre + 1) with (zlen (pre ++ [b])) by (zlen_simpl; done).
  destruct (decide (require ps = 1)) as [Hq|Hq]; [|destruct rest as [|c rest]].
  - exists [b], rest, (u64 (fo + 1)), ps1. split_and!; [done|done| |done].
    assert (require ps1 = 0) as E0 by (cbn; lia). change (zlen [b]) with 1. rewrite zlen_app. change (zlen [b]) with 1.
    change (length_loop data fuel (zlen pre + 1) (u64 (fo + 1)) ps1 = Some (zlen pre + 1, u64 (fo + 1), ps1)).
    destruct fuel; cbn [length_loop]; rewrite E0; simpl; by rewrite andb_false_r.
  - exists [b], [], (u64 (fo + 1)), ps1. split_and!; [done|done| |done].
    change (length_loop data fuel (zlen (pre ++ [b])) (u64 (fo + 1)) ps1 = Some (zlen pre + zlen [b], u64 (fo + 1), ps1)).
    rewrite zlen_app. rewrite zlen_nil in Hdl. change (zlen [b]) with 1.
    destruct fuel; cbn [length_loop]; rewrite ltb_false by lia; done.
  - destruct (IH fuel (pre ++ [b]) (u64 (fo + 1)) ps1 wp) as (chunk & rest' & fo' & ps' & E & Hc & HL & HF);
      [by rewrite <- app_assoc|simpl in *; lia|done|cbn; lia|done|].
    exists (b :: chunk), rest', fo', ps'. split_and!; [by rewrite E|done| |].
    + etransitivity; [exact HL|]. zlen_simpl. do 3 f_equal. lia.
    + cbn [fold_left]. rewrite Hf1. assert (require ps1 =? 0 = false) as -> by (apply Z.eqb_neq; cbn; lia). done.
Qed.

Lemma mask_loop_ok rest : forall fuel pre fo ps wp, data = pre ++ rest -> (length rest <= fuel)%nat ->
  state ps = s_mask -> 0 < require ps <= 4 -> length (mask ps) = 4%nat -> rest <> [] ->
  exists chunk rest' fo' ps', rest = chunk ++ rest' /\ chunk <> [] /\
    mask_loop data fuel (zlen pre) fo ps = Some (zlen pre + zlen chunk, fo', ps') /\ length_ ps' = length_ ps /\
    fold_left feed1 chunk (ps, wp) = (if require ps' =? 0 then begin1 (ps', wp) else (ps', wp)).
Proof.
  induction rest as [|b rest IH]; intros fuel pre fo ps wp Hd Hf Hs Hr Hm Hne; [done|].
  destruct fuel as [|fuel]; [simpl in Hf; lia|]. cbn [mask_loop].
  assert (zlen data = zlen pre + (1 + zlen rest)) as Hdl by (rewrite Hd; by zlen_simpl).
  pose proof (zlen_nonneg rest). destruct (Z.ltb_spec (zlen pre) (zlen data)); [|lia].
  destruct (Z.eqb_spec (require ps) 0); [lia|]. cbn [andb negb]. rewrite Hd, zget_middle by done. rewrite <- Hd.
  cbn [mbind option_bind]. rewrite (u64_small (4 - _)), (u64_small (require _ - 1)) by lia.
  unfold zset. destruct (Z.leb_spec 0 (4 - require ps)); [|lia].
  destruct (Z.ltb_spec (4 - require ps) (zlen (mask ps))); [|unfold zlen in *; lia]. cbn [andb mbind option_bind]. cbv zeta.
  set (ps1 := mask1 ps b).
  assert (feed1 (ps, wp) b = if require ps1 =? 0 then begin1 (ps1, wp) else (ps1, wp)) as Hf1.
  { unfold feed1. rewrite Hs. done. }
  replace (zlen pre + 1) with (zlen (pre ++ [b])) by (zlen_simpl; done).
  destruct (decide (require ps = 1)) as [Hq|Hq]; [|destruct rest as [|c rest]].
  - exists [b], rest, (u64 (fo + 1)), ps1. split_and!; [done|done| |done|done].
    assert (require ps1 = 0) as E0 by (cbn; lia). change (zlen [b]) with 1. rewrite zlen_app. change (zlen [b]) with 1.
    change (mask_loop data fuel (zlen pre + 1) (u64 (fo + 1)) ps1 = Some (zlen pre + 1, u64 (fo + 1), ps1)).
    destruct fuel; cbn [mask_loop]; rewrite E0; simpl; by rewrite andb_false_r.
  - exists [b], [], (u64 (fo + 1)), ps1. split_and!; [done|done| |done|done].
    change (mask_loop data fuel (zlen (pre ++ [b])) (u64 (fo + 1)) ps1 = Some (zlen pre + zlen [b], u64 (fo + 1), ps1)).
    rewrite zlen_app. rewrite zlen_nil in Hdl. change (zlen [b]) with 1.
    destruct fuel; cbn [mask_loop]; rewrite ltb_false by lia; done.
  - destruct (IH fuel (pre ++ [b]) (u64 (fo + 1)) ps1 wp) as (chunk & rest' & fo' & ps' & E & Hc & HL & HLe & HF);
      [by rewrite <- app_assoc|simpl in *; lia|done|cbn; lia|unfold ps1, mask1; cbn; by rewrite length_insert|done|].
    exists (b :: chunk), rest', fo', ps'. split_and!; [by rewrite E|done| |done|].
    + etransitivity; [exact HL|]. zlen_simpl. do 3 f_equal. lia.
    + cbn [fold_left]. rewrite Hf1. assert (require ps1 =? 0 = false) as -> by (apply Z.eqb_neq; cbn; lia). done.
Qed.
End Steps.

(** * The payload *)

Lemma take1_app s l k : 0 <= mask_offset s.1 -> l <> [] -> take1 (take1 s l) k = take1 s (l ++ k).
Proof.
  destruct s as [ps wp]. intros Ho Hl. unfold take1, body1. cbn. unfold over.
  destruct (has_flag (flags ps) WS_HAS_MASK) eqn:E; cbn; rewrite E; cbn; f_equal; f_equal.
  all: rewrite ?zlen_app, <- ?app_assoc, ?unmask_app; try zdm.
  - do 2 f_equal. apply unmask_mod. zdm.
  - done.
Qed.

Lemma body1_require s l : require (body1 s l).1 = require s.1.
Proof. destruct s as [ps wp]. unfold body1. by destruct (has_flag _ _). Qed.
Lemma take1_req s l : require (take1 s l).1 = require s.1 - zlen l.
Proof. destruct s as [ps wp]. unfold take1, body1. cbn. by destruct (has_flag _ _). Qed.
Lemma take1_state s l : state (take1 s l).1 = state s.1 /\ length_ (take1 s l).1 = length_ s.1 /\
  flags (take1 s l).1 = flags s.1 /\ mask (take1 s l).1 = mask s.1.
Proof. destruct s as [ps wp]. unfold take1, body1. cbn. by destruct (has_flag _ _). Qed.
Lemma take1_off s l : 0 <= mask_offset s.1 < 4 -> 0 <= mask_offset (take1 s l).1 < 4.
Proof.
  destruct s as [ps wp]. unfold take1, body1. cbn. intros H. destruct (has_flag _ _); [|done].
  cbn. apply Z.mod_pos_bound. lia.
Qed.

(** Payload bytes one by one are the payload at once. *)
Lemma feed1_body l : forall s, state s.1 = s_body -> 0 <= mask_offset s.1 < 4 -> zlen l <= require s.1 -> l <> [] ->
  fold_left feed1 l s = finish1 (take1 s l).
Proof.
  induction l as [|b l IH]; intros s Hs Ho Hr Hne; [done|]. rewrite fold_left_cons.
  assert (feed1 s b = finish1 (take1 s [b])) as ->. { destruct s as [ps wp]. unfold feed1. cbn in Hs. by rewrite Hs. }
  destruct l as [|c l]; [done|]. rewrite zlen_cons in Hr. pose proof (zlen_nonneg l). rewrite zlen_cons in Hr.
  unfold finish1 at 1. rewrite take1_req. change (zlen [b]) with 1. destruct (Z.eqb_spec (require s.1 - 1) 0); [lia|].
  rewrite IH; [by rewrite take1_app by (done || lia)|by rewrite (proj1 (take1_state _ _))|by apply take1_off| |done].
  rewrite take1_req, zlen_cons. change (zlen [b]) with 1. lia.
Qed.

(** * Well-formed parsers *)

Lemma wf_begin1 s : length (mask s.1) = 4%nat -> 0 <= mask_offset s.1 < 4 -> 0 <= length_ s.1 -> wf (begin1 s).1.
Proof.
  destruct s as [ps wp]. cbn. intros. unfold begin1. destruct (Z.eqb_spec (length_ ps) 0); split; cbn; done || lia.
Qed.
Lemma wf_after1 s : length (mask s.1) = 4%nat -> 0 <= mask_offset s.1 < 4 -> 0 <= length_ s.1 -> wf (after1 s).1.
Proof. intros. unfold after1. destruct (has_flag _ _); [|by apply wf_begin1]. split; cbn; done || lia. Qed.

Lemma wf_feed1 s b : wf s.1 -> 0 <= b -> wf (feed1 s b).1.
Proof.
  destruct s as [ps wp]. intros [Hm Ho Hl Hr] Hb. cbn [fst] in *. unfold feed1. destruct (state ps) eqn:Es.
  - split; cbn; done || lia.
  - assert (0 <= Z.land b 127) by (apply Z.land_nonneg; lia). cbv zeta.
    destruct (126 <=? _); [|by apply wf_after1]. split; cbn; try done. by destruct (_ =? 127).
  - assert (0 <= length_ (length1 ps b)) by (apply Z.lor_nonneg; split; [apply u64_range|done]).
    cbv zeta. destruct (Z.eqb_spec (require (length1 ps b)) 0) as [|Hq]; [by apply wf_after1|].
    split; cbn [fst]; try done. cbn in *. rewrite Es. lia.
  - assert (length (mask (mask1 ps b)) = 4%nat) by (cbn; by rewrite length_insert).
    cbv zeta. destruct (Z.eqb_spec (require (mask1 ps b)) 0) as [|Hq]; [by apply wf_begin1|].
    split; cbn [fst]; try done. cbn in *. rewrite Es. lia.
  - pose proof (take1_state (ps, wp) [b]) as (E1 & E2 & E3 & E4). pose proof (take1_off (ps, wp) [b] Ho) as Ho'.
    pose proof (take1_req (ps, wp) [b]) as Hq. change (zlen [b]) with 1 in Hq. cbn [fst] in *.
    unfold finish1. destruct (Z.eqb_spec (require (take1 (ps, wp) [b]).1) 0).
    + rewrite <- E4 in Hm. rewrite <- E2 in Hl. split; [exact Hm|exact Ho'|exact Hl|done].
    + split; rewrite ?E4, ?E2, ?E1, ?Es; done || lia.
Qed.
Lemma wf_fold l : forall s, wf s.1 -> Bytes l -> wf (fold_left feed1 l s).1.
Proof.
  induction l as [|b l IH]; intros s Hs Hl; [done|]. apply Forall_cons_1 in Hl as [Hb Hl]. apply IH; [|done].
  apply wf_feed1; [done|apply Hb].
Qed.

Lemma emit_ok data pre chunk post p (ps : websocket_parser) wp (k : _ -> _ -> option (@outcome WebSocketParser)) :
  data = pre ++ chunk ++ post -> length (mask ps) = 4%nat ->
  EMIT_DATA_CB data (on_frame_body cbs) (zlen pre) (zlen chunk) p ps wp k
  = k (body1 (ps, wp) chunk).1 (body1 (ps, wp) chunk).2.
Proof.
  intros -> Hm. unfold EMIT_DATA_CB. cbn [on_frame_body cbs]. rewrite zslice_app by done. cbn [mbind option_bind].
  unfold wp_on_frame_body, body1, websocket_parser_decode. destruct (has_flag (flags ps) WS_HAS_MASK).
  - rewrite websocket_decode_ok by done. cbn [mbind option_bind]. done.
  - done.
Qed.

Lemma feed1_head ps wp b : state ps = s_head -> feed1 (ps, wp) b =
  let n := Z.land b 127 in
  let ps := ps.[flags := if has_flag b 128 then Z.lor (flags ps) WS_HAS_MASK else flags ps] in
  if 126 <=? n then (ps.[require := if n =? 127 then 8 else 2].[length_ := 0].[state := s_length], wp)
  else after1 (ps.[length_ := n], wp).
Proof. unfold feed1. by intros ->. Qed.

(** One turn of the loop takes a non-empty chunk of the bytes left. *)
Lemma step_ok data addr pre rest fo ps wp :
  data = pre ++ rest -> rest <> [] -> zlen data < 2 ^ 31 -> 0 <= addr < 2 ^ 62 -> Bytes rest -> wf ps -> small (ps, wp) rest ->
  exists chunk rest' fo' ps' wp', rest = chunk ++ rest' /\ chunk <> [] /\
    parser_step cbs data addr (zlen pre) fo ps wp = Some (Next (zlen pre + zlen chunk - 1) fo' ps' wp') /\
    norm (ps', wp') = norm (fold_left feed1 chunk (ps, wp)).
Proof.
  intros Hd Hne Hlen Haddr Hbytes Hwf Hsm. destruct rest as [|b rest]; [done|]. unfold parser_step.
  assert (zlen data = zlen pre + (1 + zlen rest)) as Hdl by (rewrite Hd; by zlen_simpl).
  pose proof (zlen_nonneg rest) as Hrn. pose proof (wf_len _ Hwf) as Hl0. pose proof (zlen_nonneg pre) as Hpn.
  assert (zget data (zlen pre) = Some b) as Hg by (rewrite Hd; by apply zget_middle).
  destruct (state ps) eqn:Es.
  - rewrite Hg. exists [b], rest. do 3 eexists. split_and!; [done|done| |].
    + cbn [mbind option_bind]. replace (zlen pre + zlen [b] - 1) with (zlen pre) by (change (zlen [b]) with 1; lia). reflexivity.
    + cbn [fold_left feed1]. rewrite Es. change (Z.shiftl 1 7) with 128. by destruct (has_flag b 128).
  - rewrite Hg. cbn [mbind option_bind]. cbv zeta.
    apply proj2, small_here in Hsm. exists [b], rest. change (fold_left feed1 [b] (ps, wp)) with (feed1 (ps, wp) b).
    replace (zlen pre + zlen [b] - 1) with (zlen pre) by (change (zlen [b]) with 1; lia).
    assert (0 <= Z.land b 127) as H0 by (apply Z.land_nonneg; lia).
    rewrite feed1_head in Hsm |- * by done. cbv zeta in Hsm |- *.
    assert (forall x y, (if has_flag b 128 then ps.[length_ := x].[flags := y] else ps.[length_ := x])
      = ps.[flags := if has_flag b 128 then y else flags ps].[length_ := x]) as Eb by (intros; by destruct (has_flag b 128)).
    rewrite Eb. change (flags (ps.[length_ := _])) with (flags ps).
    change (length_ (_.[length_ := Z.land b 127])) with (Z.land b 127).
    destruct (126 <=? Z.land b 127); [do 3 eexists; by split_and!|].
    rewrite length_after1 in Hsm. cbn in Hsm. rewrite after_length_ok by (cbn; lia).
    do 3 eexists. split_and!; [done|done|done|]. by rewrite <- surjective_pairing.
  - pose proof (wf_req _ Hwf) as Hr. rewrite Es in Hr.
    destruct (length_loop_ok data (b :: rest) (length data) pre fo ps wp) as (chunk & rest' & fo' & ps' & E & Hc & HL & HF);
      [done|rewrite Hd, length_app; lia|done|done|done|].
    rewrite HL. cbn [mbind option_bind]. cbv zeta. exists chunk, rest'. rewrite HF.
    rewrite E in Hsm, Hbytes. apply small_app in Hsm as [_ Hsm]. apply small_here in Hsm.
    apply Bytes_app in Hbytes as [Hbc _]. pose proof (wf_len _ (wf_fold chunk (ps, wp) Hwf Hbc)) as Hnn. rewrite HF in Hsm, Hnn.
    destruct (Z.eqb_spec (require ps') 0).
    + rewrite length_after1 in Hsm, Hnn.
      rewrite after_length_ok by done. do 3 eexists. split_and!; [done|done|done|by rewrite <- surjective_pairing].
    + do 3 eexists. by split_and!.
  - pose proof (wf_req _ Hwf) as Hr. rewrite Es in Hr.
    destruct (mask_loop_ok data (b :: rest) (length data) pre fo ps wp) as (chunk & rest' & fo' & ps' & E & Hc & HL & HLe & HF);
      [done|rewrite Hd, length_app; lia|done|done|apply Hwf|done|].
    rewrite HL. cbn [mbind option_bind]. cbv zeta. exists chunk, rest'. rewrite HF. apply small_here in Hsm.
    destruct (Z.eqb_spec (require ps') 0); [|do 3 eexists; by split_and!].
    rewrite begin_body_ok by (by rewrite HLe). do 3 eexists. split_and!; [done|done|done|by rewrite <- surjective_pairing].
  - pose proof (wf_req _ Hwf) as Hr. rewrite Es in Hr. apply small_here in Hsm. cbn [fst] in Hsm. unfold LIMIT in Hsm.
    destruct (Z.eqb_spec (require ps) 0) as [|_]; [lia|]. cbn [negb].
    rewrite u64_small by (unfold zlen in *; lia).
    destruct (Z.leb_spec (addr + zlen pre + require ps) (addr + zlen data)) as [Hle|Hgt].
    + set (n := Z.to_nat (require ps)). set (chunk := take n (b :: rest)).
      assert (zlen chunk = require ps) as Hn by (unfold chunk, zlen in *; rewrite length_take; simpl; lia).
      assert (chunk <> []) as Hc by (intros E0; rewrite E0, zlen_nil in Hn; lia).
      exists chunk, (drop n (b :: rest)). rewrite <- Hn.
      erewrite (emit_ok _ pre chunk (drop n (b :: rest))); [|by unfold chunk; rewrite take_drop|apply Hwf].
      rewrite feed1_body; [|done|apply Hwf|cbn; lia|done].
      unfold take1. pose proof (body1_require (ps, wp) chunk) as Hq. destruct (body1 (ps, wp) chunk) as [ps1 wp1].
      cbn [fst snd] in *. cbv zeta. rewrite Hq, <- Hn, Z.sub_diag. cbn [require over parser_rebuild Z.eqb].
      change (require (_.[require := 0])) with 0. cbn [Z.eqb]. rewrite notify_end.
      do 3 eexists. split_and!; [by unfold chunk; rewrite take_drop|done|done|done].
    + exists (b :: rest), []. replace (zlen data - zlen pre) with (zlen (b :: rest)) by (rewrite zlen_cons; lia).
      erewrite (emit_ok _ pre (b :: rest) []); [|by rewrite app_nil_r|apply Hwf].
      rewrite feed1_body; [|done|apply Hwf|rewrite zlen_cons; cbn; lia|done].
      unfold take1. pose proof (body1_require (ps, wp) (b :: rest)) as Hq. destruct (body1 (ps, wp) (b :: rest)) as [ps1 wp1].
      cbn [fst snd] in *. cbv zeta. rewrite Hq. rewrite (u64_small (require ps - _)) by (rewrite zlen_cons; lia).
      set (q := require ps - zlen (b :: rest)). unfold finish1.
      change (require ((ps1.[require := q]).[offset := _])) with q. change (require (ps1.[require := q], wp1).1) with q.
      rewrite zlen_cons in *. destruct (Z.eqb_spec q 0); [unfold q in *; rewrite ?zlen_cons in *; lia|].
      do 3 eexists. split_and!; [by rewrite app_nil_r|done|do 2 f_equal; lia|done].
Qed.

Lemma length_norm s : length_ (norm s).1 = length_ s.1.
Proof. done. Qed.
Lemma small_norm d : forall s, small (norm s) d <-> small s d.
Proof. induction d as [|b d IH]; intros s; cbn [small]; rewrite length_norm; [done|]. by rewrite <- norm_feed1, IH. Qed.
Lemma wf_norm s : wf (norm s).1 <-> wf s.1.
Proof. split; intros [? ? ? ?]; by split. Qed.

(** Whatever the chunk, the parser takes all of it, and ends where taking its
    bytes one at a time ends. *)
Lemma execute_loop_ok data addr : zlen data < 2 ^ 31 -> 0 <= addr < 2 ^ 62 -> forall n rest pre fo ps wp fuel,
  (length rest <= n)%nat -> (n <= fuel)%nat ->
  data = pre ++ rest -> Bytes rest -> wf ps -> small (ps, wp) rest ->
  exists ps' wp', execute_loop cbs data addr fuel (zlen pre) fo ps wp = Some (zlen data, ps', wp') /\
    norm (ps', wp') = norm (fold_left feed1 rest (ps, wp)).
Proof.
  intros Hlen Haddr. induction n as [|n IH]; intros rest pre fo ps wp fuel Hn Hf Hd Hb Hwf Hsm.
  all: destruct rest as [|b rest].
  1, 3: rewrite app_nil_r in Hd; subst pre; exists ps, wp; destruct fuel; cbn [execute_loop];
      rewrite Z.eqb_refl; unfold GET_NPARSED; by rewrite Z.eqb_refl.
  { simpl in Hn. lia. }
  destruct fuel as [|fuel]; [lia|]. cbn [execute_loop].
  destruct (Z.eqb_spec (zlen pre) (zlen data)) as [E|_].
  { rewrite Hd, zlen_app, zlen_cons in E. pose proof (zlen_nonneg rest). lia. }
  destruct (step_ok data addr pre (b :: rest) fo ps wp) as (chunk & rest' & fo' & ps' & wp' & E & Hc & HS & HF); try done.
  rewrite HS. cbn [mbind option_bind].
  replace (zlen pre + zlen chunk - 1 + 1) with (zlen (pre ++ chunk)) by (rewrite zlen_app; lia).
  rewrite E in Hb, Hsm. apply Bytes_app in Hb as [Hb1 Hb2]. apply small_app in Hsm as [_ Hsm].
  destruct (IH rest' (pre ++ chunk) fo' ps' wp' fuel) as (ps2 & wp2 & HE & HN).
  - assert (length (b :: rest) = length chunk + length rest')%nat as El by (by rewrite E, length_app).
    destruct chunk; [done|]. cbn [length] in *. lia.
  - lia.
  - by rewrite <- app_assoc, <- E.
  - done.
  - apply (wf_norm (ps', wp')). rewrite HF. apply wf_norm, wf_fold; done.
  - rewrite <- small_norm, HF, small_norm. done.
  - exists ps2, wp2. split; [done|]. rewrite HN, E, fold_left_app, !norm_fold, HF. by rewrite norm_fold.
Qed.

Lemma ws_feed_ok data addr ps wp : zlen data < 2 ^ 31 -> 0 <= addr < 2 ^ 62 -> Bytes data -> wf ps -> small (ps, wp) data ->
  exists s', FeedRecvData data addr (ps, wp) = Some (zlen data, s') /\ norm s' = norm (fold_left feed1 data (ps, wp)).
Proof.
  intros Hlen Haddr Hb Hwf Hsm. unfold FeedRecvData, websocket_parser_execute.
  destruct (execute_loop_ok data addr Hlen Haddr (length data) data [] 0 ps wp (length data)) as (ps' & wp' & E & HN); try done.
  change (zlen []) with 0 in E. cbn [fst snd]. rewrite E. cbn [mbind option_bind].
  rewrite i32_small by (pose proof (zlen_nonneg data); lia). eauto.
Qed.

(** Chunks received one after the other, each at its address. *)
Fixpoint feed_chunks (s : st) (chunks : list (Z * list Z)) : option st :=
  match chunks with
  | [] => Some s
  | (addr, data) :: chunks => '(n, s) ← FeedRecvData data addr s; if n =? zlen data then feed_chunks s chunks else None
  end.
Definition fits (chunk : Z * list Z) : Prop := 0 <= chunk.1 < 2 ^ 62 /\ zlen chunk.2 < 2 ^ 31 /\ Bytes chunk.2.

Lemma feed_chunks_ok chunks : forall s, Forall fits chunks -> wf s.1 -> small s (concat (map snd chunks)) ->
  exists s', feed_chunks s chunks = Some s' /\ norm s' = norm (fold_left feed1 (concat (map snd chunks)) s).
Proof.
  induction chunks as [|[addr data] chunks IH]; intros s Hc Hwf Hsm; [by exists s|].
  apply Forall_cons_1 in Hc as [(Ha & Hl & Hb) Hc]. cbn [fst snd map concat] in *. apply small_app in Hsm as [Hs1 Hs2].
  destruct s as [ps wp]. destruct (ws_feed_ok data addr ps wp Hl Ha Hb Hwf Hs1) as (s1 & E & HN). cbn [feed_chunks].
  rewrite E. cbn [mbind option_bind]. rewrite Z.eqb_refl.
  destruct (IH s1 Hc) as (s2 & E2 & HN2).
  - apply wf_norm. rewrite HN. apply wf_norm, wf_fold; done.
  - rewrite <- small_norm, HN, small_norm. done.
  - exists s2. split; [done|]. rewrite HN2, fold_left_app, !norm_fold, HN. by rewrite norm_fold.
Qed.

(** * Frames on the wire *)

Record frame := mk_frame { f_op : Z; f_fin : bool; f_mask : option (list Z); f_data : list Z }.

(** The layout of RFC 6455, section 5.2. *)
Definition be_bytes (k : nat) (n : Z) : list Z := map (fun i => (n / 2 ^ (8 * Z.of_nat i)) mod 256) (rev (seq 0 k)).
Definition masked (f : frame) : bool := match f_mask f with Some _ => true | None => false end.
Definition wire_length (masked : bool) (n : Z) : list Z :=
  let top := if masked then 128 else 0 in
  if n <? 126 then [top + n] else if n <? 65536 then (top + 126) :: be_bytes 2 n else (top + 127) :: be_bytes 8 n.
Definition wire (f : frame) : list Z :=
  [(if f_fin f then 128 else 0) + f_op f] ++ wire_length (masked f) (zlen (f_data f)) ++
  match f_mask f with
  | Some m => m ++ unmask m 0 (f_data f)
  | None => f_data f
  end.

Record frame_ok (f : frame) : Prop := mk_frame_ok {
  fo_op : 0 <= f_op f < 16;
  fo_mask : match f_mask f with Some m => length m = 4%nat /\ Bytes m | None => True end;
  fo_data : Bytes (f_data f);
  fo_len : zlen (f_data f) < LIMIT }.

(** What the callbacks of [WebSocketParser] make of any sequence of frames: payloads
    gathered up to a final frame, under the last opcode other than continuation. *)
Fixpoint assembled (op : Z) (acc : list Z) (frames : list frame) : list (Z * list Z) :=
  match frames with
  | [] => []
  | f :: frames =>
      let op := if f_op f =? 0 then op else f_op f in
      let acc := acc ++ f_data f in
      if f_fin f then (op, acc) :: assembled op [] frames else assembled op acc frames
  end.

(** ** Header bytes *)

Lemma hdr0 op (fin : bool) : 0 <= op < 16 ->
  let b := (if fin then 128 else 0) + op in Z.land b WS_OP_MASK = op /\ has_flag b 128 = fin.
Proof.
  intros Hop. pose proof (seqZ_check (fun op => let b := (if fin then 128 else 0) + op in
    (Z.land b WS_OP_MASK =? op) && eqb (has_flag b 128) fin) 16) as C.
  specialize (C ltac:(by destruct fin; vm_compute) op Hop). cbv beta zeta in C.
  apply andb_true_iff in C as [C1 C2]. apply Z.eqb_eq in C1. apply eqb_prop in C2. done.
Qed.
Lemma hdr1 n (msk : bool) : 0 <= n < 128 ->
  let b := (if msk then 128 else 0) + n in Z.land b 127 = n /\ has_flag b 128 = msk.
Proof.
  intros Hop. pose proof (seqZ_check (fun n => let b := (if msk then 128 else 0) + n in
    (Z.land b 127 =? n) && eqb (has_flag b 128) msk) 128) as C.
  specialize (C ltac:(by destruct msk; vm_compute) n Hop). cbv beta zeta in C.
  apply andb_true_iff in C as [C1 C2]. apply Z.eqb_eq in C1. apply eqb_prop in C2. done.
Qed.

Definition fl (op : Z) (fin msk : bool) : Z :=
  let x := if fin then Z.lor op WS_FIN else op in if msk then Z.lor x WS_HAS_MASK else x.
Lemma fl_bits op (fin msk : bool) : 0 <= op < 16 ->
  Z.land (fl op fin msk) WS_OP_MASK = op /\ has_flag (fl op fin msk) WS_FIN = fin /\ has_flag (fl op fin msk) WS_HAS_MASK = msk.
Proof.
  intros Hop. pose proof (seqZ_check (fun op => (Z.land (fl op fin msk) WS_OP_MASK =? op) &&
    (eqb (has_flag (fl op fin msk) WS_FIN) fin && eqb (has_flag (fl op fin msk) WS_HAS_MASK) msk)) 16) as C.
  specialize (C ltac:(by destruct fin, msk; vm_compute) op Hop). cbv beta in C.
  apply andb_true_iff in C as [C1 C2]. apply andb_true_iff in C2 as [C2 C3].
  apply Z.eqb_eq in C1. apply eqb_prop in C2, C3. done.
Qed.

(** ** Length bytes *)

Definition accum (a b : Z) : Z := a * 256 + b.
Lemma lor_accum a b : 0 <= a -> is_byte b -> a * 256 < 2 ^ 64 -> Z.lor (u64 (Z.shiftl a 8)) b = accum a b.
Proof.
  intros Ha Hb Hlt. rewrite u64_small by (rewrite Z.shiftl_mul_pow2 by lia; change (2 ^ 8) with 256; lia). by apply lor_byte.
Qed.

Lemma accum_ge l : forall a, 0 <= a -> Bytes l -> a <= fold_left accum l a.
Proof.
  induction l as [|b l IH]; intros a Ha Hl; cbn [fold_left]; [lia|]. apply Forall_cons_1 in Hl as [Hb Hl]. unfold is_byte in Hb.
  etransitivity; [|apply IH; [|done]]; unfold accum; lia.
Qed.

Lemma feed_length l : forall ps wp, state ps = s_length -> require ps = zlen l -> (0 < length l <= 8)%nat -> Bytes l ->
  0 <= length_ ps -> fold_left accum l (length_ ps) < LIMIT ->
  small (ps, wp) l /\
  fold_left feed1 l (ps, wp) = after1 (ps.[length_ := fold_left accum l (length_ ps)].[require := 0], wp).
Proof.
  induction l as [|b l IH]; intros ps wp Hs Hr Hl Hb H0 Hlim; [simpl in Hl; lia|].
  apply Forall_cons_1 in Hb as [Hb Hbl]. cbn [fold_left small] in *.
  assert (0 <= accum (length_ ps) b) as Ha by (unfold accum, is_byte in *; lia).
  pose proof (accum_ge l (accum (length_ ps) b) Ha Hbl) as Hge.
  assert (length_ ps < LIMIT) as Hps by (unfold accum, is_byte, LIMIT in *; lia).
  assert (length1 ps b = ps.[length_ := accum (length_ ps) b].[require := require ps - 1]) as E1.
  { unfold length1. by rewrite lor_accum by (done || unfold LIMIT in *; lia). }
  rewrite zlen_cons in Hr. pose proof (zlen_nonneg l).
  assert (feed1 (ps, wp) b = if l then after1 (length1 ps b, wp) else (length1 ps b, wp)) as Ef.
  { unfold feed1. rewrite Hs. cbv zeta. change (require (length1 ps b)) with (require ps - 1). rewrite Hr.
    destruct l; [done|]. rewrite zlen_cons. pose proof (zlen_nonneg l). by destruct (Z.eqb_spec (1 + (1 + zlen l) - 1) 0); [lia|]. }
  rewrite Ef. destruct l as [|c l].
  - cbn [fold_left small]. rewrite length_after1, E1. cbn in Hr. rewrite Hr. done.
  - destruct (IH (length1 ps b) wp) as [IHs IHf]; [done|cbn; lia|simpl in *; lia|done|by rewrite E1|by rewrite E1|].
    split; [done|]. rewrite IHf, E1. done.
Qed.

Lemma feed_mask m ps wp : state ps = s_mask -> require ps = 4 -> length (mask ps) = 4%nat -> length m = 4%nat ->
  length_ ps < LIMIT ->
  small (ps, wp) m /\ fold_left feed1 m (ps, wp) = begin1 (ps.[mask := m].[require := 0], wp).
Proof.
  intros Hs Hr Hm Hl Hlim. destruct m as [|m0 [|m1 [|m2 [|m3 [|]]]]]; try done.
  destruct ps as [sta f mk mo le rq ofs]. cbn in Hs, Hr, Hm, Hlim. subst sta rq.
  destruct mk as [|k0 [|k1 [|k2 [|k3 [|]]]]]; try done. cbn [fold_left small fst].
  assert (feed1 (mk_parser s_mask f [k0; k1; k2; k3] mo le 4 ofs, wp) m0 = (mk_parser s_mask f [m0; k1; k2; k3] mo le 3 ofs, wp)) as -> by done.
  assert (feed1 (mk_parser s_mask f [m0; k1; k2; k3] mo le 3 ofs, wp) m1 = (mk_parser s_mask f [m0; m1; k2; k3] mo le 2 ofs, wp)) as -> by done.
  assert (feed1 (mk_parser s_mask f [m0; m1; k2; k3] mo le 2 ofs, wp) m2 = (mk_parser s_mask f [m0; m1; m2; k3] mo le 1 ofs, wp)) as -> by done.
  assert (feed1 (mk_parser s_mask f [m0; m1; m2; k3] mo le 1 ofs, wp) m3
          = begin1 (mk_parser s_mask f [m0; m1; m2; m3] mo le 0 ofs, wp)) as -> by done.
  by rewrite length_begin1.
Qed.

Lemma be_bytes_2 n : 0 <= n < 65536 -> fold_left accum (be_bytes 2 n) 0 = n.
Proof.
  intros Hn. change (fold_left accum (be_bytes 2 n) 0) with (accum (accum 0 (n / 2 ^ 8 mod 256)) (n / 2 ^ 0 mod 256)).
  unfold accum. change (2 ^ 8) with 256. change (2 ^ 0) with 1. zdm.
Qed.
Lemma be_bytes_8 n : 0 <= n < 2 ^ 32 -> fold_left accum (be_bytes 8 n) 0 = n.
Proof.
  intros Hn. unfold be_bytes. cbn [map rev seq app fold_left].
  repeat match goal with |- context [2 ^ ?k] => let v := eval vm_compute in (2 ^ k) in change (2 ^ k) with v end.
  change (2 ^ 32) with 4294967296 in Hn. unfold accum.
  rewrite (Z.div_small n 72057594037927936), (Z.div_small n 281474976710656), (Z.div_small n 1099511627776),
    (Z.div_small n 4294967296) by lia. rewrite Zmod_0_l. zdm.
Qed.
Lemma be_bytes_Bytes k n : Bytes (be_bytes k n).
Proof. unfold be_bytes. apply Forall_map, Forall_true. intros i. apply Z.mod_pos_bound. lia. Qed.
Lemma be_bytes_length k n : length (be_bytes k n) = k.
Proof. unfold be_bytes. by rewrite length_map, length_rev, length_seq. Qed.

(** The first byte and the length. *)
Lemma feed_header ps wp op fin msk n : state ps = s_start -> 0 <= op < 16 -> 0 <= n < LIMIT -> length_ ps < LIMIT ->
  let hd := [(if fin : bool then 128 else 0) + op] ++ wire_length msk n in
  small (ps, wp) hd /\ exists sx rq,
    fold_left feed1 hd (ps, wp) = after1 (mk_parser sx (fl op fin msk) (mask ps) 0 n rq (offset ps), wp).
Proof.
  intros Hs Hop Hn Hlim. destruct (hdr0 op fin Hop) as [Eop Efin]. cbv zeta in Eop, Efin.
  cbn [app]. cbn [fold_left small fst].
  assert (feed1 (ps, wp) ((if fin then 128 else 0) + op) = (mk_parser s_head (fl op fin false) (mask ps) 0 0 (require ps) (offset ps), wp)) as ->.
  { unfold feed1. rewrite Hs, Efin, Eop. done. }
  set (p1 := mk_parser s_head _ _ _ _ _ _).
  assert (forall k, 0 <= k < 128 -> feed1 (p1, wp) ((if msk then 128 else 0) + k) =
     let ps := p1.[flags := fl op fin msk] in
     if 126 <=? k then (ps.[require := if k =? 127 then 8 else 2].[length_ := 0].[state := s_length], wp)
     else after1 (ps.[length_ := k], wp)) as Eh.
  { intros k Hk. destruct (hdr1 k msk Hk) as [E1 E2]. cbv zeta in E1, E2. rewrite feed1_head by done. rewrite E1, E2.
    by destruct msk. }
  unfold wire_length. cbv zeta. destruct (Z.ltb_spec n 126); [|destruct (Z.ltb_spec n 65536)].
  - cbn [fold_left small]. rewrite Eh by lia. destruct (Z.leb_spec 126 n); [lia|]. cbv zeta.
    rewrite length_after1. split; [split_and!; [exact Hlim|done|apply Hn|done]|]. by do 2 eexists.
  - cbn [fold_left small]. rewrite Eh by lia. change (126 <=? 126) with true. change (126 =? 127) with false. cbv iota zeta.
    destruct (feed_length (be_bytes 2 n) (p1.[flags := fl op fin msk].[require := 2].[length_ := 0].[state := s_length]) wp)
      as [S1 F1]; try done; [rewrite be_bytes_length; lia|apply be_bytes_Bytes|change (fold_left accum (be_bytes 2 n) 0 < LIMIT); rewrite be_bytes_2; unfold LIMIT in *; lia|].
    split; [by split_and!|].
    match type of F1 with context [fold_left accum _ ?x] => change x with 0 in F1 end.
    rewrite F1, be_bytes_2 by lia. by do 2 eexists.
  - cbn [fold_left small]. rewrite Eh by lia. change (126 <=? 127) with true. change (127 =? 127) with true. cbv iota zeta.
    destruct (feed_length (be_bytes 8 n) (p1.[flags := fl op fin msk].[require := 8].[length_ := 0].[state := s_length]) wp)
      as [S1 F1]; try done; [rewrite be_bytes_length; lia|apply be_bytes_Bytes|change (fold_left accum (be_bytes 8 n) 0 < LIMIT); rewrite be_bytes_8; unfold LIMIT in *; lia|].
    split; [by split_and!|].
    match type of F1 with context [fold_left accum _ ?x] => change x with 0 in F1 end.
    rewrite F1, be_bytes_8 by (unfold LIMIT in *; lia). by do 2 eexists.
Qed.

(** What a whole frame does to the message under assembly. *)
Definition deliver1 (wp : WebSocketParser) (f : frame) : WebSocketParser :=
  let op := if f_op f =? 0 then opcode wp else f_op f in
  let msg := (match wp_state wp with WS_FRAME_BEGIN | WS_FRAME_FIN => [] | _ => message wp end) ++ f_data f in
  mk_wp (if f_fin f then WS_FRAME_FIN else WS_FRAME_END) op msg (onMessage wp)
    (if f_fin f && onMessage wp then delivered wp ++ [(op, msg)] else delivered wp).

Lemma small_body l : forall s, state s.1 = s_body -> 0 <= mask_offset s.1 < 4 -> zlen l <= require s.1 ->
  length_ s.1 < LIMIT -> small s l.
Proof.
  induction l as [|b l IH]; intros s Hs Ho Hr Hl; cbn [small]; [done|]. split; [done|].
  pose proof (feed1_body [b] s Hs Ho) as E. rewrite zlen_cons in Hr. pose proof (zlen_nonneg l).
  change (fold_left feed1 [b] s) with (feed1 s b) in E. change (zlen [b]) with 1 in E. rewrite E by (done || lia).
  destruct (take1_state s [b]) as (E1 & E2 & _). unfold finish1. rewrite take1_req. change (zlen [b]) with 1.
  destruct (Z.eqb_spec (require s.1 - 1) 0).
  - destruct l; [|rewrite zlen_cons in *; pose proof (zlen_nonneg l); lia]. cbn [small]. split; [|done].
    change (length_ (take1 s [b]).1 < LIMIT). by rewrite E2.
  - apply IH; [by rewrite E1|by apply take1_off| |by rewrite E2]. rewrite take1_req. change (zlen [b]) with 1. lia.
Qed.

Lemma feed_payload ps wp (f : frame) : frame_ok f -> flags ps = fl (f_op f) (f_fin f) (masked f) ->
  length_ ps = zlen (f_data f) -> mask_offset ps = 0 -> length (mask ps) = 4%nat ->
  let body := if masked f then unmask (mask ps) 0 (f_data f) else f_data f in
  small (begin1 (ps, wp)) body /\
  exists ps', fold_left feed1 body (begin1 (ps, wp)) = (ps', deliver1 wp f) /\ state ps' = s_start /\ wf ps'.
Proof.
  intros Hok Hfl Hlen Hoff Hm. destruct (fl_bits (f_op f) (f_fin f) (masked f) (fo_op f Hok)) as (B1 & B2 & B3).
  rewrite <- Hfl in B1, B2, B3. pose proof (fo_len f Hok) as Hlim. cbv zeta.
  set (body := if masked f then _ else _).
  assert (zlen body = zlen (f_data f)) as Hbl. { unfold body. destruct (masked f); [|done]. unfold zlen. by rewrite unmask_length. }
  unfold begin1. destruct (Z.eqb_spec (length_ ps) 0) as [E0|E0].
  - assert (f_data f = []) as Ed. { destruct (f_data f); [done|]. rewrite zlen_cons in Hlen. pose proof (zlen_nonneg l). lia. }
    assert (body = []) as ->. { unfold body. rewrite Ed. by destruct (masked f). }
    split; [split; [unfold over; cbn; rewrite E0; done|done]|]. exists (ps.[state := s_start]). split_and!; [|done|split; cbn; done || lia].
    cbn [fold_left]. f_equal. unfold deliver1, header1, end1. cbn. rewrite B1, B2, Ed, app_nil_r. done.
  - set (ps1 := ps.[state := s_body].[require := length_ ps]).
    assert (body <> []) as Hb. { intros Eb. rewrite Eb, zlen_nil in Hbl. lia. }
    assert (0 <= mask_offset (ps1, header1 ps1 wp).1 < 4) as Ho1 by (cbn; lia).
    split; [apply small_body; [done|done|cbn; lia|cbn; lia]|].
    rewrite feed1_body; [|done|done|cbn; lia|done]. unfold finish1. rewrite take1_req.
    assert (require (ps1, header1 ps1 wp).1 - zlen body = 0) as -> by (cbn; lia). cbn [Z.eqb].
    destruct (take1_state (ps1, header1 ps1 wp) body) as (T1 & T2 & T3 & T4).
    pose proof (take1_off _ body Ho1) as T5.
    exists ((take1 (ps1, header1 ps1 wp) body).1.[state := s_start]). split_and!; [|done|].
    + f_equal. unfold take1, body1. change (flags ps1) with (flags ps). rewrite B3.
      change (mask_offset ps1) with (mask_offset ps). rewrite Hoff. change (mask ps1) with (mask ps).
      assert ((if masked f then unmask (mask ps) 0 body else body) = f_data f) as Hu.
      { unfold body. destruct (masked f); [apply unmask_twice|done]. }
      rewrite Hu. unfold end1, deliver1, header1. change (flags ps1) with (flags ps). rewrite B1.
      assert (forall p : websocket_parser, flags p = flags ps -> has_flag (flags p) WS_FIN = f_fin f) as Bf by (intros p ->; done).
      rewrite Bf by (by destruct (masked f)). done.
    + split; [change (length (mask (take1 (ps1, header1 ps1 wp) body).1) = 4%nat); by rewrite T4|exact T5| |done].
      change (0 <= length_ (take1 (ps1, header1 ps1 wp) body).1). rewrite T2. cbn. rewrite Hlen. apply zlen_nonneg.
Qed.

Lemma feed_frame f ps wp : frame_ok f -> state ps = s_start -> wf ps -> length_ ps < LIMIT ->
  small (ps, wp) (wire f) /\
  exists ps', fold_left feed1 (wire f) (ps, wp) = (ps', deliver1 wp f) /\ state ps' = s_start /\ wf ps'.
Proof.
  intros Hok Hs Hwf Hlim. pose proof (zlen_nonneg (f_data f)) as Hn. pose proof (fo_len f Hok) as Hl.
  destruct (feed_header ps wp (f_op f) (f_fin f) (masked f) (zlen (f_data f)) Hs (fo_op f Hok) ltac:(lia) Hlim) as [S1 (sx & rq & F1)].
  set (p1 := mk_parser sx _ _ _ _ _ _) in F1. unfold wire. rewrite app_assoc.
  set (hd := [(if f_fin f then 128 else 0) + f_op f] ++ wire_length (masked f) (zlen (f_data f))) in *.
  rewrite small_app, fold_left_app, F1.
  pose proof (fo_mask f Hok) as Hfm. destruct (fl_bits (f_op f) (f_fin f) (masked f) (fo_op f Hok)) as (_ & _ & B3).
  unfold after1. cbn [fst snd]. change (flags p1) with (fl (f_op f) (f_fin f) (masked f)). rewrite B3.
  assert (masked f = if f_mask f then true else false) as Em by (unfold masked; by destruct (f_mask f)).
  destruct (f_mask f) as [m|] eqn:Ef.
  - rewrite Em. destruct Hfm as [Hm4 Hmb].
    destruct (feed_mask m (p1.[state := s_mask].[require := 4]) wp) as [S2 F2]; try done; [apply Hwf|].
    rewrite small_app, fold_left_app, F2.
    destruct (feed_payload (p1.[state := s_mask].[require := 4].[mask := m].[require := 0]) wp f) as [S3 F3]; try done.
    rewrite Em in S3, F3. done.
  - rewrite Em. destruct (feed_payload p1 wp f) as [S3 F3]; try done; [apply Hwf|]. rewrite Em in S3, F3. done.
Qed.

Lemma feed_frames frames : forall ps wp, Forall frame_ok frames -> state ps = s_start -> wf ps -> length_ ps < LIMIT ->
  small (ps, wp) (concat (map wire frames)) /\
  (fold_left feed1 (concat (map wire frames)) (ps, wp)).2 = fold_left deliver1 frames wp.
Proof.
  induction frames as [|f frames IH]; intros ps wp Hok Hs Hwf Hlim; [done|].
  apply Forall_cons_1 in Hok as [Hf Hok]. cbn [map concat fold_left]. rewrite small_app, fold_left_app.
  destruct (feed_frame f ps wp Hf Hs Hwf Hlim) as [S1 (ps' & F1 & Hs' & Hwf')]. rewrite F1.
  destruct (IH ps' (deliver1 wp f) Hok Hs' Hwf') as [S2 F2]; [|done].
  rewrite <- (app_nil_r (wire f)) in S1. apply small_app, proj2, small_here in S1. by rewrite F1 in S1.
Qed.

Lemma deliver_assembled frames : forall wp, onMessage wp = true ->
  delivered (fold_left deliver1 frames wp) = delivered wp ++
    assembled (opcode wp) (match wp_state wp with WS_FRAME_BEGIN | WS_FRAME_FIN => [] | _ => message wp end) frames.
Proof.
  induction frames as [|f frames IH]; intros wp Hon; cbn [fold_left assembled]; [by rewrite app_nil_r|].
  rewrite IH by done. unfold deliver1. cbn. rewrite Hon. destruct (f_fin f); cbn; [by rewrite <- app_assoc|done].
Qed.

(** Frames on the wire, received in any chunks, are assembled by the callbacks. *)
Lemma frames_delivered frames chunks : Forall frame_ok frames -> Forall fits chunks ->
  concat (map snd chunks) = concat (map wire frames) ->
  exists s', feed_chunks (WebSocketParser_new true) chunks = Some s' /\
    delivered s'.2 = assembled WS_OP_CLOSE [] frames.
Proof.
  intros Hf Hc E. destruct (feed_frames frames websocket_parser_init (WebSocketParser_new true).2) as [Hsm Hfold];
    [done|done|by split|done|].
  destruct (feed_chunks_ok chunks (WebSocketParser_new true)) as (s' & Es & HN); [done|by split|by rewrite E|].
  exists s'. split; [done|]. assert (s'.2 = (norm s').2) as -> by done. rewrite HN, E. cbn [norm snd].
  unfold WebSocketParser_new in *. cbn [snd] in *. rewrite Hfold. by apply deliver_assembled.
Qed.

(** C22. The parser consumes any chunk of well-formed bytes and its state does not
    depend on how the bytes are cut: a chunk and the same chunk in two pieces lead
    to the same parser (but for its unused running offset) and the same messages,
    from any well-formed state, as long as no payload of 2^31 - 1 bytes or more
    is announced. *)
Theorem ws_chunking s d1 d2 a a1 a2 : wf s.1 -> small s (d1 ++ d2) ->
  fits (a, d1 ++ d2) -> fits (a1, d1) -> fits (a2, d2) ->
  exists s1 s2, feed_chunks s [(a, d1 ++ d2)] = Some s1 /\ feed_chunks s [(a1, d1); (a2, d2)] = Some s2 /\ norm s1 = norm s2.
Proof.
  intros Hwf Hsm F F1 F2.
  destruct (feed_chunks_ok [(a, d1 ++ d2)] s) as (s1 & E1 & N1); [by constructor|done|by cbn; rewrite app_nil_r|].
  destruct (feed_chunks_ok [(a1, d1); (a2, d2)] s) as (s2 & E2 & N2); [by repeat constructor; try apply F1; try apply F2|done|by cbn; rewrite app_nil_r|].
  exists s1, s2. split_and!; [done|done|]. rewrite N1, N2. cbn. by rewrite !app_nil_r.
Qed.

(** * Building frames *)

Lemma build_header_ok op fin msk n out : 0 <= op < 16 -> 0 <= n < 2 ^ 32 ->
  let hd := [(if fin : bool then 128 else 0) + op] ++ wire_length msk n in
  zlen hd <= zlen out ->
  build_header out (fl op fin msk) n = Some (hd ++ drop (length hd) out, zlen hd).
Proof.
  intros Hop Hn hd Hlen. subst hd. destruct (fl_bits op fin msk Hop) as (B1 & B2 & B3). unfold build_header.
  rewrite B1, B2, B3.
  assert (E0 : Z.lor (if fin then Z.shiftl 1 7 else 0) op = (if fin then 128 else 0) + op).
  { pose proof (seqZ_check (fun op => Z.lor (if fin then Z.shiftl 1 7 else 0) op =? (if fin then 128 else 0) + op) 16
      ltac:(by destruct fin; vm_compute) op Hop) as C. by apply Z.eqb_eq in C. }
  assert (E1 : forall k, 0 <= k < 128 -> Z.lor (if msk then Z.shiftl 1 7 else 0) k = (if msk then 128 else 0) + k).
  { intros k Hk. pose proof (seqZ_check (fun k => Z.lor (if msk then Z.shiftl 1 7 else 0) k =? (if msk then 128 else 0) + k) 128
      ltac:(by destruct msk; vm_compute) k Hk) as C. by apply Z.eqb_eq in C. }
  unfold wire_length in *. cbv zeta in *. destruct (Z.ltb_spec n 126); [|destruct (Z.ltb_spec n 65536)].
  - destruct out as [|o0 [|o1 out]]; [unfold zlen in Hlen; simpl in Hlen; lia..|].
    specialize (E1 n ltac:(lia)). clear Hlen. cbn [app length drop].
    rewrite <- E0, <- E1. destruct fin, msk; repeat (zset_lit || zget_lit); reflexivity.
  - assert (n <=? 0xFFFF = true) as -> by (apply Z.leb_le; lia). specialize (E1 126 ltac:(lia)).
    destruct out as [|o0 [|o1 [|o2 [|o3 out]]]]; [unfold zlen in Hlen; simpl in Hlen; lia..|]. clear Hlen.
    unfold be_bytes. cbn [app length drop map rev seq]. rewrite <- E0, <- E1.
    assert (u8 (Z.shiftr n 8) = (n / 2 ^ (8 * Z.of_nat 1)) mod 256) as -> by (by rewrite Z.shiftr_div_pow2 by lia).
    assert (Z.land n 0xFF = (n / 2 ^ (8 * Z.of_nat 0)) mod 256) as -> by (rewrite (land_mask n 255 8), Z.div_1_r by done; done).
    destruct fin, msk; repeat (zset_lit || zget_lit); reflexivity.
  - assert (n <=? 0xFFFF = false) as -> by (apply Z.leb_gt; lia). specialize (E1 127 ltac:(lia)).
    destruct out as [|o0 [|o1 [|o2 [|o3 [|o4 [|o5 [|o6 [|o7 [|o8 [|o9 out]]]]]]]]]]; [unfold zlen in Hlen; simpl in Hlen; lia..|]. clear Hlen.
    unfold be_bytes. cbn [app length drop map rev seq]. rewrite <- E0, <- E1.
    assert (Eb : forall i : nat, (n / 2 ^ (8 * Z.of_nat i)) mod 256 = Z.land (Z.shiftr n (8 * Z.of_nat i)) 0xFF).
    { intros i. rewrite Z.shiftr_div_pow2 by lia. by rewrite (land_mask _ 255 8). }
    rewrite !Eb. destruct fin, msk; repeat (zset_lit || zget_lit); reflexivity.
Qed.

Lemma split_at {A} (l : list A) n : n <= zlen l -> 0 <= n ->
  exists a b, l = a ++ b /\ zlen a = n /\ b = drop (Z.to_nat n) l.
Proof.
  intros Hn H0. exists (take (Z.to_nat n) l), (drop (Z.to_nat n) l). rewrite take_drop. split_and!; [done| |done].
  unfold zlen in *. rewrite length_take. lia.
Qed.

Lemma build_body_ok hd tail flags m data : has_flag flags WS_HAS_MASK = true -> length m = 4%nat ->
  4 + zlen data <= zlen tail -> zlen hd + 4 + zlen data < 2 ^ 64 ->
  build_body (hd ++ tail) (zlen hd) flags (Some m) data (zlen data)
  = Some (hd ++ m ++ unmask m 0 data ++ drop (4 + length data) tail, zlen hd + 4 + zlen data).
Proof.
  intros Hf Hm Ht Hb. unfold build_body. rewrite Hf. pose proof (zlen_nonneg data). pose proof (zlen_nonneg hd).
  assert (zslice m 0 4 = Some m) as ->.
  { rewrite <- (app_nil_r m) at 1. apply (zslice_app [] m []); [done|unfold zlen; lia]. }
  destruct (split_at tail 4) as (t4 & t' & -> & Ht4 & _); [lia..|]. rewrite zlen_app in Ht.
  destruct (split_at t' (zlen data)) as (tb & t2 & -> & Htb & _); [lia..|].
  assert (zlen m = 4) as Hm4 by (unfold zlen; lia).
  cbn [mbind option_bind]. rewrite zcopy_at by (done || lia). cbn [mbind option_bind].
  rewrite (zslice_app hd m) by (done || lia). cbn [mbind option_bind]. rewrite websocket_decode_ok by done. cbn [mbind option_bind].
  rewrite (app_assoc hd m). rewrite zcopy_at; [|rewrite zlen_app; lia|unfold zlen; rewrite unmask_length; unfold zlen in Htb; lia].
  cbn [mbind option_bind]. rewrite u64_small by lia. do 2 f_equal. rewrite <- app_assoc. do 3 f_equal.
  rewrite app_assoc, drop_app_ge by (rewrite length_app; unfold zlen in *; lia).
  rewrite length_app. replace (_ - _)%nat with 0%nat by (unfold zlen in *; lia). done.
Qed.

Lemma build_plain_ok hd tail flags m data : has_flag flags WS_HAS_MASK = false ->
  zlen data <= zlen tail -> zlen hd + zlen data < 2 ^ 64 ->
  build_body (hd ++ tail) (zlen hd) flags (Some m) data (zlen data)
  = Some (hd ++ data ++ drop (length data) tail, zlen hd + zlen data).
Proof.
  intros Hf Ht Hb. unfold build_body. rewrite Hf. pose proof (zlen_nonneg data). pose proof (zlen_nonneg hd).
  assert (zslice data 0 (zlen data) = Some data) as ->.
  { rewrite <- (app_nil_r data) at 1. by apply (zslice_app [] data []). }
  destruct (split_at tail (zlen data)) as (tb & t2 & -> & Htb & _); [lia..|].
  cbn [mbind option_bind]. rewrite zcopy_at by (done || lia). cbn [mbind option_bind]. rewrite u64_small by lia.
  do 4 f_equal. rewrite drop_app_ge by (unfold zlen in *; lia).
  replace (_ - _)%nat with 0%nat by (unfold zlen in *; lia). done.
Qed.

Definition the_frame (data mask : list Z) (has_mask : bool) (opcode : Z) (fin : bool) : frame :=
  mk_frame opcode fin (if has_mask then Some mask else None) data.

Lemma wire_length_size msk n :
  zlen (wire_length msk n) = if n <? 126 then 1 else if n <? 65536 then 3 else 9.
Proof. unfold wire_length. cbv zeta. destruct (n <? 126), (n <? 65536); reflexivity. Qed.

Lemma wire_size data mask (has_mask : bool) opcode fin : length mask = 4%nat -> zlen data + 14 < 2 ^ 31 ->
  zlen (wire (the_frame data mask has_mask opcode fin)) = ws_calc_frame_size (zlen data) has_mask /\
  zlen ([(if fin then 128 else 0) + opcode] ++ wire_length has_mask (zlen data)) + (if has_mask then 4 else 0) + zlen data
    = ws_calc_frame_size (zlen data) has_mask.
Proof.
  intros Hm Hd. pose proof (zlen_nonneg data) as Hn. unfold wire, the_frame, masked. cbn [f_op f_fin f_mask f_data].
  assert (zlen mask = 4) as Hm4 by (unfold zlen; lia).
  pose proof (wire_length_size has_mask (zlen data)) as Hw.
  unfold ws_calc_frame_size. rewrite !(i32_small (_ + 2)) by lia.
  destruct has_mask; cbv iota; rewrite !zlen_app, Hw, ?Hm4, ?zlen_cons, ?zlen_nil.
  1: assert (zlen (unmask mask 0 data) = zlen data) as -> by (unfold zlen; by rewrite unmask_length).
  all: zcases; rewrite ?i32_small by (rewrite ?i32_small by lia; lia); lia.
Qed.

Lemma build_frame_ok out data mask has_mask opcode fin : frame_ok (the_frame data mask has_mask opcode fin) ->
  length mask = 4%nat -> zlen data + 14 < 2 ^ 31 -> ws_calc_frame_size (zlen data) has_mask <= zlen out ->
  ws_build_frame out data (zlen data) mask has_mask opcode fin
  = Some (wire (the_frame data mask has_mask opcode fin) ++ drop (Z.to_nat (ws_calc_frame_size (zlen data) has_mask)) out,
          ws_calc_frame_size (zlen data) has_mask).
Proof.
  intros Hok Hm Hd Hout. pose proof (zlen_nonneg data) as Hn. pose proof (fo_op _ Hok) as Hop. cbn in Hop.
  destruct (wire_size data mask has_mask opcode fin Hm Hd) as [W1 W2]. unfold ws_build_frame. cbv zeta. fold (fl opcode fin has_mask).
  rewrite u64_small by lia. unfold websocket_build_frame.
  destruct (fl_bits opcode fin has_mask Hop) as (_ & _ & B3).
  unfold wire, the_frame, masked in W1 |- *. cbn [f_op f_fin f_mask f_data] in W1 |- *.
  replace (if if has_mask then Some mask else None then true else false) with has_mask in W1 |- * by (by destruct has_mask).
  assert (zlen ([(if fin then 128 else 0) + opcode] ++ wire_length has_mask (zlen data)) <= zlen out) as Hle by (destruct has_mask; lia).
  rewrite build_header_ok by (done || lia). cbn [mbind option_bind].
  set (hd := [(if fin then 128 else 0) + opcode] ++ wire_length has_mask (zlen data)) in *.
  assert (zlen (drop (length hd) out) = zlen out - zlen hd) as Hdr by (unfold zlen in *; rewrite length_drop; lia).
  assert (0 <= zlen hd <= 10) as Hhd.
  { unfold hd. rewrite zlen_app, wire_length_size. change (zlen [_]) with 1. zcases. }
  rewrite app_assoc. fold hd. clearbody hd. destruct has_mask.
  - cbv iota in W2.
    rewrite build_body_ok by (done || lia). cbn [mbind option_bind]. rewrite W2, i32_small by lia.
    rewrite <- !app_assoc, drop_drop. do 6 f_equal. unfold zlen in *. lia.
  - cbv iota in W2.
    rewrite build_plain_ok by (done || lia). cbn [mbind option_bind]. rewrite Z.add_0_r in W2. rewrite W2, i32_small by lia.
    rewrite <- !app_assoc, drop_drop. do 5 f_equal. unfold zlen in *. lia.
Qed.

(** C31. ws_build_frame writes the RFC 6455 layout of the frame into the first
    bytes of the buffer, masked when asked, leaves the rest of the buffer, and
    returns the size ws_calc_frame_size announces, in all three length formats. *)
Theorem ws_build_frame_wire out data mask has_mask opcode fin : frame_ok (the_frame data mask has_mask opcode fin) ->
  length mask = 4%nat -> zlen data + 14 < 2 ^ 31 -> ws_calc_frame_size (zlen data) has_mask <= zlen out ->
  let w := wire (the_frame data mask has_mask opcode fin) in
  ws_build_frame out data (zlen data) mask has_mask opcode fin = Some (w ++ drop (length w) out, zlen w) /\
  zlen w = ws_calc_frame_size (zlen data) has_mask.
Proof.
  intros Hok Hm Hd Hout w. destruct (wire_size data mask has_mask opcode fin Hm Hd) as [W _]. fold w in W.
  split; [|done]. rewrite build_frame_ok by done. fold w. rewrite <- W. do 4 f_equal. unfold zlen. lia.
Qed.
Lemma ws_build_frame_wire_witness :
  ws_build_frame (replicate 12 7) [1; 2] 2 [9; 8; 7; 6] true 2 true = Some ([0x82; 0x82; 9; 8; 7; 6; 8; 10] ++ replicate 4 7, 8) /\
  8 = ws_calc_frame_size 2 true.
Proof.
  apply (ws_build_frame_wire (replicate 12 7) [1; 2] [9; 8; 7; 6] true 2 true); [|reflexivity|reflexivity|vm_compute; discriminate].
  split; [split; [discriminate|reflexivity]|split; [reflexivity|]|..|reflexivity]; repeat constructor; discriminate.
Defined.

(** One frame to send: data, mask, whether to mask, opcode, whether it is the last. *)
Record send := mk_send { sd_data : list Z; sd_mask : list Z; sd_masked : bool; sd_op : Z; sd_fin : bool }.
Definition send_frame (s : send) : frame := the_frame (sd_data s) (sd_mask s) (sd_masked s) (sd_op s) (sd_fin s).
Record send_ok (s : send) : Prop := mk_send_ok {
  so_op : 0 <= sd_op s < 16; so_mask : length (sd_mask s) = 4%nat /\ Bytes (sd_mask s);
  so_data : Bytes (sd_data s); so_len : zlen (sd_data s) + 14 < 2 ^ 31 }.
(** The frame built in a buffer of just its size. *)
Definition send_bytes (s : send) : option (list Z) :=
  let n := ws_calc_frame_size (zlen (sd_data s)) (sd_masked s) in
  '(out, size) ← ws_build_frame (replicate (Z.to_nat n) 0) (sd_data s) (zlen (sd_data s)) (sd_mask s) (sd_masked s) (sd_op s) (sd_fin s);
  zslice out 0 size.

Lemma send_frame_ok s : send_ok s -> frame_ok (send_frame s).
Proof.
  intros [Ho [Hm Hmb] Hd Hl]. split; cbn; [done|by destruct (sd_masked s)|done|unfold LIMIT; lia].
Qed.
Lemma send_bytes_ok s : send_ok s -> send_bytes s = Some (wire (send_frame s)).
Proof.
  intros Hs. pose proof (send_frame_ok s Hs) as Hf. destruct Hs as [Ho [Hm Hmb] Hd Hl]. unfold send_bytes. cbv zeta.
  destruct (wire_size (sd_data s) (sd_mask s) (sd_masked s) (sd_op s) (sd_fin s) Hm Hl) as [W _].
  set (n := ws_calc_frame_size _ _) in *. pose proof (zlen_nonneg (wire (send_frame s))) as H0. fold (send_frame s) in W.
  rewrite build_frame_ok; try done.
  - fold n. cbn [mbind option_bind]. rewrite drop_replicate, Nat.sub_diag, app_nil_r.
    rewrite <- (app_nil_r (wire _)) at 1. by apply (zslice_app []).
  - fold n. unfold zlen. rewrite length_replicate. lia.
Qed.

(** Whatever frames are built and sent, the callbacks assemble them. *)
Lemma sends_assembled sends chunks : Forall send_ok sends -> Forall fits chunks ->
  mapM send_bytes sends ≫= (fun bufs => Some (concat bufs)) = Some (concat (map snd chunks)) ->
  exists s', feed_chunks (WebSocketParser_new true) chunks = Some s' /\
    delivered s'.2 = assembled WS_OP_CLOSE [] (map send_frame sends).
Proof.
  intros Hs Hc E. apply frames_delivered; [|done|].
  - apply Forall_map. eapply Forall_impl; [exact Hs|]. intros s. apply send_frame_ok.
  - assert (mapM send_bytes sends = Some (map (fun s => wire (send_frame s)) sends)) as E1.
    { apply mapM_Some. clear E. induction Hs as [|s l H1 H2 IH]; cbn; constructor; [by apply send_bytes_ok|done]. }
    rewrite E1 in E. cbn in E. injection E as <-. by rewrite map_map.
Qed.

(** ** Messages *)

(** A message and how its sender splits it: its opcode, the first fragment and the
    others, each with its own mask or none. *)
Record fragment := mk_fragment { fr_data : list Z; fr_mask : list Z; fr_masked : bool }.
Record ws_message := mk_message { ms_op : Z; ms_first : fragment; ms_rest : list fragment }.

(** RFC 6455, 5.4: the first frame has the opcode, the others are continuations, and
    the last one has the FIN bit. *)
Fixpoint fragment_sends (op : Z) (f : fragment) (fs : list fragment) : list send :=
  match fs with
  | [] => [mk_send (fr_data f) (fr_mask f) (fr_masked f) op true]
  | g :: fs => mk_send (fr_data f) (fr_mask f) (fr_masked f) op false :: fragment_sends WS_OP_CONTINUE g fs
  end.
Definition message_sends (m : ws_message) : list send := fragment_sends (ms_op m) (ms_first m) (ms_rest m).
(** What the receiver is to be told: the opcode and the whole payload. *)
Definition message_sent (m : ws_message) : Z * list Z :=
  (ms_op m, concat (map fr_data (ms_first m :: ms_rest m))).

Record fragment_ok (f : fragment) : Prop := mk_fragment_ok {
  fg_mask : length (fr_mask f) = 4%nat /\ Bytes (fr_mask f);
  fg_data : Bytes (fr_data f); fg_len : zlen (fr_data f) + 14 < 2 ^ 31 }.
Definition message_ok (m : ws_message) : Prop :=
  0 < ms_op m < 16 /\ fragment_ok (ms_first m) /\ Forall fragment_ok (ms_rest m).

Lemma fragment_sends_ok fs : forall op f, 0 <= op < 16 -> fragment_ok f -> Forall fragment_ok fs ->
  Forall send_ok (fragment_sends op f fs).
Proof.
  induction fs as [|g fs IH]; intros op f Hop [Hm Hd Hl] Hfs; cbn [fragment_sends]; constructor; try (by split); [done|].
  apply Forall_cons_1 in Hfs as [Hg Hfs]. by apply IH.
Qed.

(** The fragments of a message are gathered into it, and the next message starts
    afresh. *)
Lemma assembled_fragments fs : forall op o f acc frames,
  assembled o acc (map send_frame (fragment_sends op f fs) ++ frames)
  = let o' := if op =? 0 then o else op in
    (o', acc ++ concat (map fr_data (f :: fs))) :: assembled o' [] frames.
Proof.
  induction fs as [|g fs IH]; intros op o f acc frames; cbn; [by rewrite app_nil_r|].
  rewrite IH. cbn. by rewrite <- app_assoc.
Qed.

Lemma assembled_messages msgs : forall o, Forall message_ok msgs ->
  assembled o [] (map send_frame (concat (map message_sends msgs))) = map message_sent msgs.
Proof.
  induction msgs as [|m msgs IH]; intros o Hm; [done|]. apply Forall_cons_1 in Hm as [(Hop & _) Hm].
  cbn [map concat]. rewrite map_app. unfold message_sends at 1.
  assert (ms_op m =? 0 = false) as E by (apply Z.eqb_neq; lia).
  rewrite assembled_fragments. cbv zeta. rewrite E, IH by done. done.
Qed.

(** C14. Messages that are sent one after the other, no frame of one between the
    fragments of another ([control_frame_takes_over] is such a frame), each split into any number of
    fragments with any masks and built frame by frame by ws_build_frame, and received
    in any chunks at any addresses, are delivered by the parser and its callbacks as
    exactly those messages: each once, in order, with its own opcode and its whole
    payload, and every chunk is consumed entirely. *)
Theorem ws_roundtrip msgs chunks : Forall message_ok msgs -> Forall fits chunks ->
  mapM send_bytes (concat (map message_sends msgs)) ≫= (fun bufs => Some (concat bufs)) = Some (concat (map snd chunks)) ->
  exists s', feed_chunks (WebSocketParser_new true) chunks = Some s' /\ delivered s'.2 = map message_sent msgs.
Proof.
  intros Hm Hc E. rewrite <- (assembled_messages msgs WS_OP_CLOSE) by done. apply sends_assembled; [|done|done].
  apply Forall_concat, Forall_map. eapply Forall_impl; [exact Hm|]. intros m (Hop & Hf & Hr).
  apply fragment_sends_ok; [lia|done..].
Qed.
Lemma ws_roundtrip_witness : exists s',
  feed_chunks (WebSocketParser_new true)
    [(4096, [1; 131; 9]); (4096, [8; 7; 6; 104; 109; 107]); (8192, [128; 2; 72; 73; 137; 1]); (0, [80])] = Some s' /\
    delivered s'.2 = [(1, [97; 101; 108; 72; 73]); (9, [80])].
Proof.
  apply (ws_roundtrip
    [mk_message 1 (mk_fragment [97; 101; 108] [9; 8; 7; 6] true) [mk_fragment [72; 73] [0; 0; 0; 0] false];
     mk_message 9 (mk_fragment [80] [0; 0; 0; 0] false) []]).
  - repeat constructor; discriminate.
  - repeat constructor; discriminate.
  - reflexivity.
Defined.

(** RFC 6455, 5.4 lets a control frame stand between the fragments of a message. Such a
    frame takes the message over: the first fragment is delivered in front of the
    control payload, and the rest of the message as a second control message. *)
Lemma control_frame_takes_over op a ctl p b chunks :
  0 < op < 16 -> 0 < ctl < 16 -> fragment_ok a -> fragment_ok p -> fragment_ok b -> Forall fits chunks ->
  mapM send_bytes [mk_send (fr_data a) (fr_mask a) (fr_masked a) op false;
                   mk_send (fr_data p) (fr_mask p) (fr_masked p) ctl true;
                   mk_send (fr_data b) (fr_mask b) (fr_masked b) WS_OP_CONTINUE true]
    ≫= (fun bufs => Some (concat bufs)) = Some (concat (map snd chunks)) ->
  exists s', feed_chunks (WebSocketParser_new true) chunks = Some s' /\
    delivered s'.2 = [(ctl, fr_data a ++ fr_data p); (ctl, fr_data b)].
Proof.
  intros Hop Hctl [Ha1 Ha2 Ha3] [Hp1 Hp2 Hp3] [Hb1 Hb2 Hb3] Hc E.
  match type of E with mapM _ ?l ≫= _ = _ => destruct (sends_assembled l chunks) as (s' & Es & Hd) end;
    [repeat apply Forall_cons_2; try apply Forall_nil_2; split; cbn; done || lia|done|done|].
  exists s'. split; [done|]. rewrite Hd. cbn. by destruct (Z.eqb_spec op 0), (Z.eqb_spec ctl 0); try lia.
Qed.

(** * The handshake key *)

(** ws_encode_key writes Sec-WebSocket-Accept: the RFC 4648 text of the SHA-1
    of the client's key followed by the protocol's GUID, 28 characters, for any
    non-huge key, and nothing after them. *)
Lemma ws_encode_key_ok e garbage key out rest : length garbage = 64%nat -> Bytes key -> zlen key + 64 < 2 ^ 32 ->
  zlen out = 28 ->
  ws_encode_key e garbage key (out ++ rest) = Some (Base64.rfc4648 (Sha1.fips_sha1 (key ++ ws_magic)) ++ rest).
Proof.
  intros Hg Hb Hk Ho. unfold ws_encode_key. rewrite u32_small by (pose proof (zlen_nonneg key); lia).
  destruct (Sha1.HV_SHA1Update_ok e (Sha1.HV_SHA1Init garbage) [] key (Sha1.sha1_rep_init e _ Hg) Hk) as (c1 & U1 & R1).
  rewrite U1. cbn [mbind option_bind].
  destruct (Sha1.HV_SHA1Update_ok e c1 _ ws_magic R1 ltac:(done)) as (c2 & U2 & R2). rewrite U2. cbn [mbind option_bind].
  assert (Bytes ws_magic) as Hm by (by repeat constructor).
  rewrite (Sha1.final_fips e c2 (key ++ ws_magic) R2) by (by apply Bytes_app). cbn [mbind option_bind].
  pose proof (Sha1.fips_sha1_length (key ++ ws_magic)) as L20. pose proof (Sha1.fips_sha1_Bytes (key ++ ws_magic)) as B20.
  rewrite Base64.encode_rfc4648; [done| |done|unfold zlen; by rewrite L20|unfold zlen in *; rewrite L20; done].
  intros E. by rewrite E in L20.
Qed.
Lemma ws_encode_key_ok_witness : ws_encode_key Sha1.LITTLE_ENDIAN (replicate 64 0) [65; 66] (replicate 28 0 ++ [9])
  = Some (Base64.rfc4648 (Sha1.fips_sha1 ([65; 66] ++ ws_magic)) ++ [9]).
Proof.
  apply (ws_encode_key_ok Sha1.LITTLE_ENDIAN (replicate 64 0) [65; 66] (replicate 28 0) [9]);
    [reflexivity|by repeat constructor|reflexivity|reflexivity].
Defined.

Lemma ws_chunking_witness : exists s1 s2,
  feed_chunks (WebSocketParser_new true) [(0, [129; 2; 65; 66])] = Some s1 /\
  feed_chunks (WebSocketParser_new true) [(64, [129; 2; 65]); (0, [66])] = Some s2 /\ norm s1 = norm s2.
Proof.
  apply (ws_chunking (WebSocketParser_new true) [129; 2; 65] [66] 0 64 0).
  - by split.
  - repeat (split; [reflexivity|]). exact I.
  - repeat constructor; discriminate.
  - repeat constructor; discriminate.
  - repeat constructor; discriminate.
Defined.

(** Hostile lengths are not rejected. A header announcing 2^31 bytes makes the
    callback reserve a negative amount, which is an exception; and with callbacks
    that accept it, a length close to 2^64 makes [p + require] wrap round, so that
    the parser reports a body that runs past the bytes received. *)
Theorem ws_hostile_lengths :
  FeedRecvData [130; 127; 0; 0; 0; 0; 128; 0; 0; 0] 4096 (WebSocketParser_new true) = None /\
  websocket_parser_execute (mk_settings None (Some (fun ps (u : unit) _ => Some (0, ps, u))) None)
    [130; 127; 255; 255; 255; 255; 255; 255; 255; 255; 7] 4096 websocket_parser_init tt = None.
Proof. split; vm_compute; reflexivity. Qed.

End WebSocketThm.
