(* ===== verification/ReadBuf.v ===== *)
(** The read path of an io: its read buffer and the splitting of the byte stream
    into packages (event/unpack.c, and the readbuf and hio_handle_read parts of
    event/hevent.c and event/nio.c). *)
From S2P Require Import Prelude HMath.
Import HMath.

Module ReadBuf.

Definition HLOOP_READ_BUFSIZE : Z := 8192.
Definition READ_BUFSIZE_HIGH_WATER : Z := 65536.
Definition DEFAULT_PACKAGE_MAX_LENGTH : Z := Z.shiftl 1 21.
Definition HIO_READ_ONCE : Z := 0x1.
Definition HIO_READ_UNTIL_LENGTH : Z := 0x2.
Definition HIO_READ_UNTIL_DELIM : Z := 0x4.
Definition ERR_INVALID_PARAM : Z := 1011.
Definition ERR_OVER_LIMIT : Z := 1022.

(** * Settings *)

Inductive unpack_coding_e := ENCODE_BY_VARINT | ENCODE_BY_LITTLE_ENDIAN | ENCODE_BY_BIG_ENDIAN | ENCODE_BY_ASN1 | CODING_OTHER.
Inductive unpack_mode_e :=
| UNPACK_MODE_NONE
| UNPACK_BY_FIXED_LENGTH (fixed_length : Z)
| UNPACK_BY_DELIMITER (delimiter : list Z)
| UNPACK_BY_LENGTH_FIELD (body_offset length_field_offset length_field_bytes length_adjustment : Z) (coding : unpack_coding_e).
Record unpack_setting_t := mk_setting { mode : unpack_mode_e; package_max_length : Z }.

(** * The io *)

(** [mem] is the memory [readbuf.base] points to, the io's own or the loop's.
    [freed] says that the buffer a running handler holds pointers into has been
    freed; reads through those pointers fail. *)
Record hio := mk_hio {
  mem : list Z; freed : bool; blen : Z; head : Z; tail : Z;
  read_flags : Z; read_until : Z; max_read_bufsize : Z; small_readbytes_cnt : Z; alloced_readbuf : bool;
  setting : option unpack_setting_t;
  closed : bool; close_later : bool; error : Z; async_close : bool; reading : bool;
  write_queue_empty : bool; loop_mem : list Z }.
#[global] Instance hio_rebuild : Rebuild hio :=
  fun r => mk_hio (mem r) (freed r) (blen r) (head r) (tail r) (read_flags r) (read_until r) (max_read_bufsize r)
    (small_readbytes_cnt r) (alloced_readbuf r) (setting r) (closed r) (close_later r) (error r) (async_close r)
    (reading r) (write_queue_empty r) (loop_mem r).

(** Bytes through a pointer taken before the callbacks ran. *)
Definition held (io : hio) (p n : Z) : option (list Z) := if freed io then None else zslice (mem io) p n.
Definition held_byte (io : hio) (p : Z) : option Z := if freed io then None else zget (mem io) p.

(** * Buffers *)

Definition resize (l : list Z) (n : Z) : list Z := take (Z.to_nat n) l ++ replicate (Z.to_nat n - length l) 0.

Definition hio_close_async (io : hio) : hio := io.[async_close := true].

Definition hio_alloc_readbuf (io : hio) (len : Z) : hio :=
  if max_read_bufsize io <? u32 len then hio_close_async (io.[error := ERR_OVER_LIMIT])
  else
    let io := if alloced_readbuf io then io.[mem := resize (mem io) len] else io.[mem := replicate (Z.to_nat len) 0] in
    io.[blen := len].[alloced_readbuf := true].[small_readbytes_cnt := 0].

Definition hio_free_readbuf (io : hio) : hio :=
  if alloced_readbuf io then
    io.[freed := true].[alloced_readbuf := false].[mem := loop_mem io].[blen := zlen (loop_mem io)]
  else io.

Definition hio_memmove_readbuf (io : hio) : option hio :=
  if tail io =? head io then Some (io.[head := 0].[tail := 0])
  else if head io <? tail io then
    let size := tail io - head io in
    src ← zslice (mem io) (head io) size;
    m ← zcopy (mem io) 0 src;
    Some (io.[mem := m].[head := 0].[tail := size])
  else Some io.

Definition hio_set_readbuf (io : hio) (buf : list Z) : hio :=
  let io := hio_free_readbuf io in
  io.[mem := buf].[blen := zlen buf].[head := 0].[tail := 0].[alloced_readbuf := false].

(** [hio_close] on the loop's thread, as far as the read path sees it: it waits for
    the write queue unless there is an error, and frees the buffer. *)
Definition hio_close (io : hio) : hio :=
  if closed io then io
  else if negb (write_queue_empty io) && (error io =? 0) && negb (close_later io) then io.[close_later := true]
  else hio_free_readbuf (io.[closed := true].[reading := false]).

Definition hio_unset_unpack (io : hio) : hio :=
  match setting io with None => io | Some _ => hio_free_readbuf (io.[setting := None]) end.

(** The settings are stored normalised: a length of 0 means the default, an
    unspecified coding means big-endian. A failed assertion is [None]. *)
Definition hio_set_unpack (io : hio) (s : option unpack_setting_t) : option hio :=
  let io := hio_unset_unpack io in
  match s with
  | None => Some io
  | Some s =>
      let s := mk_setting (mode s) (if package_max_length s =? 0 then DEFAULT_PACKAGE_MAX_LENGTH else package_max_length s) in
      let max := package_max_length s in
      let install len := Some (hio_alloc_readbuf (io.[setting := Some s].[blen := len].[max_read_bufsize := max]) len) in
      match mode s with
      | UNPACK_BY_FIXED_LENGTH n => if negb (n =? 0) && (n <=? max) then install n else None
      | UNPACK_BY_LENGTH_FIELD bo lo lb _ _ => if lo + lb <=? bo then install (Z.min HLOOP_READ_BUFSIZE max) else None
      | _ => install (Z.min HLOOP_READ_BUFSIZE max)
      end
  end.

Section Callbacks.
(** The read callback: what the application keeps, and whether it closes the io. *)
Context {U : Type} (read_cb : option (U -> list Z -> U * bool)).
Implicit Types (io : hio) (u : U).

Definition hio_read_cb io u (p len : Z) : option (hio * U) :=
  let io := if has_flag (read_flags io) HIO_READ_ONCE
            then io.[read_flags := Z.land (read_flags io) (Z.lnot HIO_READ_ONCE)].[reading := false] else io in
  '(io, u) ←
    match read_cb with
    | Some cb =>
        if closed io then Some (io, u)
        else
          bytes ← held io p len;
          let '(u, c) := cb u bytes in
          Some (if c : bool then hio_close io else io, u)
    | None => Some (io, u)
    end;
  Some (if alloced_readbuf io && (READ_BUFSIZE_HIGH_WATER <? blen io) then
          if len <? blen io / 2 then io.[small_readbytes_cnt := u32 (small_readbytes_cnt io + 1)]
          else io.[small_readbytes_cnt := 0]
        else io, u).

(** The bytes from [p] on are moved to the start of the buffer. *)
Definition keep_rest io (p remain : Z) : option hio :=
  let io := io.[head := 0].[tail := remain] in
  if remain =? 0 then Some io
  else if (p =? 0) && negb (freed io) then Some io
  else
    src ← held io p remain;
    m ← zcopy (mem io) 0 src;
    Some (io.[mem := m]).

(** ** Packages of a fixed length *)

Fixpoint fixed_loop (fuel : nat) io u (fixed_length p remain handled : Z) : option (hio * U * Z * Z * Z) :=
  if fixed_length <=? remain then
    match fuel with
    | O => None
    | S fuel =>
        '(io, u) ← hio_read_cb io u p fixed_length;
        fixed_loop fuel io u fixed_length (p + fixed_length) (remain - fixed_length) (handled + fixed_length)
    end
  else Some (io, u, p, remain, handled).
Definition hio_unpack_by_fixed_length io u (fixed_length buf readbytes : Z) : option (hio * U * Z) :=
  if blen io <? fixed_length then None
  else
    let sp := head io in let ep := buf + readbytes in
    '(io, u, p, remain, handled) ← fixed_loop (Z.to_nat (ep - sp)) io u fixed_length sp (ep - sp) 0;
    io ← keep_rest io p remain;
    Some (io, u, handled).

(** ** Packages ended by a delimiter *)

(** [p[i] != delimiter[i]] stops the comparison. *)
Fixpoint matches io (p : Z) (delimiter : list Z) : option bool :=
  match delimiter with
  | [] => Some true
  | d :: delimiter => c ← held_byte io p; if c =? d then matches io (p + 1) delimiter else Some false
  end.
Fixpoint delim_loop (fuel : nat) io u (delimiter : list Z) (sp p remain handled : Z) : option (hio * U * Z * Z) :=
  let n := zlen delimiter in
  if n <=? remain then
    match fuel with
    | O => None
    | S fuel =>
        mt ← matches io p delimiter;
        if mt : bool then
          let p := p + n in
          '(io, u) ← hio_read_cb io u sp (p - sp);
          delim_loop fuel io u delimiter p p (remain - n) (handled + (p - sp))
        else delim_loop fuel io u delimiter sp (p + 1) (remain - 1) handled
    end
  else Some (io, u, sp, handled).
Definition hio_unpack_by_delimiter io u (delimiter : list Z) (max buf readbytes : Z) : option (hio * U * Z) :=
  let sp := head io in let ep := buf + readbytes in
  let p := buf - zlen delimiter + 1 in
  let p := if p <? sp then sp else p in
  '(io, u, sp, handled) ← delim_loop (Z.to_nat (ep - p + 1)) io u delimiter sp p (ep - p) 0;
  let remain := ep - sp in
  io ← keep_rest io sp remain;
  if negb (remain =? 0) && (tail io =? blen io) then
    if max <=? blen io then
      Some (hio_close (io.[error := ERR_OVER_LIMIT]), u, -1)
    else Some (hio_alloc_readbuf io (Z.min (blen io * 2) max), u, handled)
  else Some (io, u, handled).

(** ** Packages with a length field *)

(** The value of the field at [lp]: the body length and the length of the head;
    nothing yet; or an error. *)
Inductive field := Field (body_len head_len : Z) | Incomplete | Bad (err : Z).
Fixpoint be_field io (n : nat) (lp body_len : Z) : option Z :=
  match n with
  | O => Some body_len
  | S n => b ← held_byte io lp; be_field io n (lp + 1) (Z.lor (u32 (Z.shiftl body_len 8)) b)
  end.
Fixpoint le_field io (n : nat) (i lp body_len : Z) : option Z :=
  match n with
  | O => Some body_len
  | S n => b ← held_byte io lp; le_field io n (i + 1) (lp + 1) (Z.lor body_len (u32 (Z.shiftl b (i * 8))))
  end.
Definition length_field io (bo lo lb : Z) (coding : unpack_coding_e) (p ep head_len : Z) : option field :=
  let lp := p + lo in
  let variable decode :=
    tl ← held io lp (zlen (mem io) - lp);
    '(body_len, len) ← decode tl (Some (ep - lp));
    let varint_bytes := default 0 len in
    Some (if varint_bytes =? 0 then Incomplete
          else if varint_bytes =? -1 then Bad ERR_OVER_LIMIT
          else Field (u32 body_len) (u32 (bo + varint_bytes - lb))) in
  match coding with
  | ENCODE_BY_BIG_ENDIAN => v ← be_field io (Z.to_nat lb) lp 0; Some (Field v head_len)
  | ENCODE_BY_LITTLE_ENDIAN => v ← le_field io (Z.to_nat lb) 0 lp 0; Some (Field v head_len)
  | ENCODE_BY_VARINT => variable varint_decode
  | ENCODE_BY_ASN1 => variable asn1_decode
  | CODING_OTHER => Some (Bad ERR_INVALID_PARAM)
  end.

Inductive loop_end := LoopDone (p remain handled package_len : Z) | LoopFail.
Fixpoint field_loop (fuel : nat) io u (bo lo lb adj : Z) (coding : unpack_coding_e)
    (p ep remain handled head_len package_len : Z) : option (hio * U * loop_end) :=
  if bo <=? remain then
    match fuel with
    | O => None
    | S fuel =>
        f ← length_field io bo lo lb coding p ep head_len;
        match f with
        | Incomplete => Some (io, u, LoopDone p remain handled package_len)
        | Bad err => Some (hio_close (io.[error := err]), u, LoopFail)
        | Field body_len head_len =>
            let package_len := u32 (head_len + body_len + adj) in
            if package_len <=? remain then
              '(io, u) ← hio_read_cb io u p package_len;
              field_loop fuel io u bo lo lb adj coding (p + package_len) ep (remain - package_len)
                (handled + package_len) head_len package_len
            else Some (io, u, LoopDone p remain handled package_len)
        end
    end
  else Some (io, u, LoopDone p remain handled package_len).

(** [LIMIT(lower, v, upper)]. *)
Definition LIMIT (lower v upper : Z) : Z := if v <? lower then lower else if upper <? v then upper else v.

Definition hio_unpack_by_length_field io u (bo lo lb adj : Z) (coding : unpack_coding_e) (max buf readbytes : Z)
    : option (hio * U * Z) :=
  let sp := head io in let ep := buf + readbytes in
  '(io, u, r) ← field_loop (Z.to_nat (ep - sp + 1)) io u bo lo lb adj coding sp ep (ep - sp) 0 bo bo;
  match r with
  | LoopFail => Some (io, u, -1)
  | LoopDone p remain handled package_len =>
      io ← keep_rest io p remain;
      if negb (remain =? 0) && (blen io <? package_len) then
        if max <? package_len then
          Some (hio_close (io.[error := ERR_OVER_LIMIT]), u, -1)
        else Some (hio_alloc_readbuf io (LIMIT package_len (blen io * 2) max), u, handled)
      else Some (io, u, handled)
  end.

Definition hio_unpack io u (s : unpack_setting_t) (buf readbytes : Z) : option (hio * U * Z) :=
  match mode s with
  | UNPACK_BY_FIXED_LENGTH n => hio_unpack_by_fixed_length io u n buf readbytes
  | UNPACK_BY_DELIMITER d => hio_unpack_by_delimiter io u d (package_max_length s) buf readbytes
  | UNPACK_BY_LENGTH_FIELD bo lo lb adj c =>
      hio_unpack_by_length_field io u bo lo lb adj c (package_max_length s) buf readbytes
  | UNPACK_MODE_NONE => '(io, u) ← hio_read_cb io u buf readbytes; Some (io, u, readbytes)
  end.

(** * What the io asked for *)

Definition reset_if_empty io : hio := if head io =? tail io then io.[head := 0].[tail := 0] else io.

(** The index of the first [delim] among [n] bytes at [p], if any. *)
Fixpoint find_delim io (n : nat) (p delim : Z) : option (option Z) :=
  match n with
  | O => Some None
  | S n => c ← held_byte io p; if c =? delim then Some (Some p) else find_delim io n (p + 1) delim
  end.

(** The buffer is grown when full, compacted, or shrunk after small reads. *)
Definition autosize io : option hio :=
  let io := reset_if_empty io in
  if tail io =? blen io then
    if head io =? 0 then Some (hio_alloc_readbuf io (i32 (blen io * 2)))
    else hio_memmove_readbuf io
  else
    let small_size := blen io / 2 in
    Some (if (tail io <? small_size) && (3 <=? small_readbytes_cnt io) then hio_alloc_readbuf io small_size else io).

Definition hio_handle_read io u (buf readbytes : Z) : option (hio * U) :=
  let io := io.[freed := false] in
  match setting io with
  | Some s => '(io, u, _) ← hio_unpack io u s buf readbytes; io ← autosize io; Some (io, u)
  | None =>
      let sp := head io in let ep := buf + readbytes in
      if has_flag (read_flags io) HIO_READ_UNTIL_LENGTH then
        '(io, u) ←
          (if read_until io <=? ep - sp then
             let len := read_until io in
             let io := reset_if_empty (io.[head := head io + len]) in
             hio_read_cb (io.[read_flags := Z.land (read_flags io) (Z.lnot HIO_READ_UNTIL_LENGTH)]) u sp len
           else Some (io, u));
        io ← autosize io; Some (io, u)
      else if has_flag (read_flags io) HIO_READ_UNTIL_DELIM then
        r ← find_delim io (Z.to_nat readbytes) buf (u8 (read_until io));
        match r with
        | Some p =>
            let len := p - sp + 1 in
            let io := reset_if_empty (io.[head := head io + len]) in
            hio_read_cb (io.[read_flags := Z.land (read_flags io) (Z.lnot HIO_READ_UNTIL_DELIM)]) u sp len
        | None => io ← autosize io; Some (io, u)
        end
      else
        let io := io.[head := 0].[tail := 0] in
        '(io, u) ← hio_read_cb io u sp (ep - sp);
        io ← autosize io; Some (io, u)
  end.

(** * Reading *)

(** The room [nio_read] offers to [recv]; it must be positive. *)
Definition read_room io : Z :=
  if has_flag (read_flags io) HIO_READ_UNTIL_LENGTH
  then i32 (read_until io - (tail io - head io)) else i32 (blen io - tail io).

(** The bytes [recv] stored, at most as many as the room, are handled. *)
Definition nio_received io u (len : Z) (chunk : list Z) : option (hio * U) :=
  let buf := tail io in
  m ← zcopy (mem io) buf chunk;
  m ← (if zlen chunk <? len then zset m (buf + zlen chunk) 0 else Some m);
  hio_handle_read (io.[mem := m].[tail := tail io + zlen chunk]) u buf (zlen chunk).

(** What [recv] may do: bytes (none at the end of a stream), a datagram cut to the
    room, nothing yet, or an error. *)
Inductive recv_result := Received (chunk : list Z) | Truncated (chunk : list Z) | WouldBlock | RecvError (err : Z).

(** [stream] tells a stream socket from a datagram one; TLS sockets, which read on
    while their cache is full, are left out. *)
Definition nio_read (stream : bool) io u (r : recv_result) : option (hio * U) :=
  let len := read_room io in
  if len <=? 0 then None
  else
    match r with
    | WouldBlock => Some (io, u)
    | RecvError err => let io := io.[error := err] in Some (if stream then hio_close io else io, u)
    | Truncated chunk => nio_received io u len chunk
    | Received chunk =>
        if (zlen chunk =? 0) && stream then Some (hio_close io, u) else nio_received io u len chunk
    end.

Definition hio_read_once io : hio := io.[read_flags := Z.lor (read_flags io) HIO_READ_ONCE].[reading := true].

Definition hio_read_until_length io u (len : Z) : option (hio * U * Z) :=
  let io := io.[freed := false] in
  if len =? 0 then Some (io, u, 0)
  else if len <=? tail io - head io then
    let buf := head io in
    let io := reset_if_empty (io.[head := head io + len]) in
    '(io, u) ← hio_read_cb io u buf len;
    Some (io, u, len)
  else
    let io := io.[read_flags := HIO_READ_UNTIL_LENGTH].[read_until := len] in
    io ← (if (1024 <? head io) || (tail io - head io <? 1024) then hio_memmove_readbuf io else Some io);
    let need_len := i32 (head io + len) in
    let io := if negb (alloced_readbuf io) || (blen io <? need_len) then hio_alloc_readbuf io need_len else io in
    Some (hio_read_once io, u, 0).

(** [while (p <= ep)] compares one byte more than the buffer holds. *)
Definition hio_read_until_delim io u (delim : Z) : option (hio * U * Z) :=
  let io := io.[freed := false] in
  r ← (if 0 <? tail io - head io then find_delim io (Z.to_nat (tail io - head io + 1)) (head io) delim else Some None);
  match r with
  | Some p =>
      let sp := head io in let len := p - sp + 1 in
      let io := reset_if_empty (io.[head := head io + len]) in
      '(io, u) ← hio_read_cb io u sp len;
      Some (io, u, len)
  | None =>
      let io := io.[read_flags := HIO_READ_UNTIL_DELIM].[read_until := delim] in
      let io := if negb (alloced_readbuf io) || (blen io <? HLOOP_READ_BUFSIZE) then hio_alloc_readbuf io HLOOP_READ_BUFSIZE else io in
      Some (hio_read_once io, u, 0)
  end.

Definition hio_read_remain io u : option (hio * U * Z) :=
  let io := io.[freed := false] in
  let remain := tail io - head io in
  if 0 <? remain then
    let buf := head io in
    '(io, u) ← hio_read_cb (io.[head := 0].[tail := 0]) u buf remain;
    Some (io, u, remain)
  else Some (io, u, remain).

End Callbacks.
End ReadBuf.
