(* ===== verification/ReadBufThm.v ===== *)
(** The read path, proofs: what a splitter of the byte stream promises, and that the
    three unpackers implement one, however the stream is received. *)
From S2P Require Import Prelude Hash HMath ReadBuf.
Import HMath ReadBuf.

Module ReadBufThm.

(** * What a splitter promises *)

(** The first package of the bytes received: its length; nothing complete yet; or
    a header that cannot be right. *)
Inductive verdict := Cut (k : nat) | More | Fail.

(** A splitter decides on the bytes it has seen: a decision does not change when
    more bytes arrive. [need] is the size that completes what is pending. *)
Class Splitter := mk_splitter {
  cut : list Z -> verdict;
  need : list Z -> Z;
  cut_bound : forall l k, cut l = Cut k -> (0 < k <= length l)%nat;
  cut_stable : forall l m k, cut l = Cut k -> cut (l ++ m) = Cut k;
  need_more : forall l, cut l = More -> zlen l < need l }.

Section Packages.
Context `{Splitter}.

(** The packages at the front of the bytes received, and what is left. *)
Fixpoint split_n (fuel : nat) (l : list Z) : list (list Z) * list Z :=
  match fuel with
  | O => ([], l)
  | S fuel =>
      match cut l with
      | Cut k => let '(ps, r) := split_n fuel (drop k l) in (take k l :: ps, r)
      | _ => ([], l)
      end
  end.
Definition split (l : list Z) : list (list Z) * list Z := split_n (length l) l.

Lemma split_n_enough n : forall m l, (length l <= n)%nat -> (n <= m)%nat -> split_n m l = split_n n l.
Proof.
  induction n as [|n IH]; intros m l Hl Hm.
  - destruct l; [|simpl in Hl; lia]. destruct m; [done|]. cbn [split_n]. destruct (cut []) as [k| |] eqn:E; [|done..].
    apply cut_bound in E. simpl in E. lia.
  - destruct m as [|m]; [lia|]. cbn [split_n]. destruct (cut l) as [k| |] eqn:E; [|done..].
    apply cut_bound in E. rewrite (IH m) by (rewrite ?length_drop; lia). done.
Qed.
Lemma split_fuel n l : (length l <= n)%nat -> split_n n l = split l.
Proof. intros Hn. by apply split_n_enough. Qed.

Lemma split_cut l k : cut l = Cut k -> split l = (take k l :: (split (drop k l)).1, (split (drop k l)).2).
Proof.
  intros E. pose proof (cut_bound _ _ E) as Hb. unfold split at 1. destruct (length l) as [|n] eqn:El; [lia|].
  cbn [split_n]. rewrite E, split_fuel by (rewrite length_drop; lia). by destruct (split (drop k l)).
Qed.
Lemma split_nocut l : (forall k, cut l <> Cut k) -> split l = ([], l).
Proof.
  intros E. unfold split. destruct (length l); [done|]. cbn [split_n]. by destruct (cut l) as [k| |] eqn:E'; [destruct (E k)|..].
Qed.

(** Cutting the stream is indifferent to where its bytes were received. *)
Lemma split_app n : forall l m, (length l <= n)%nat ->
  split (l ++ m) = ((split l).1 ++ (split ((split l).2 ++ m)).1, (split ((split l).2 ++ m)).2).
Proof.
  induction n as [|n IH]; intros l m Hl; (destruct (cut l) as [k| |] eqn:E;
    [|rewrite (split_nocut l) by (intros k' E'; congruence); cbn [fst snd app]; apply surjective_pairing..]).
  { apply cut_bound in E. lia. }
  pose proof (cut_bound _ _ E) as Hb.
  rewrite (split_cut l k E), (split_cut (l ++ m) k (cut_stable _ _ _ E)).
  rewrite drop_app_le, take_app_le by lia. rewrite IH by (rewrite length_drop; lia). done.
Qed.
Lemma split_append l m : split (l ++ m) = ((split l).1 ++ (split ((split l).2 ++ m)).1, (split ((split l).2 ++ m)).2).
Proof. by apply (split_app (length l)). Qed.

(** Nothing is lost or reordered. *)
Lemma split_concat n : forall l, (length l <= n)%nat -> concat (split l).1 ++ (split l).2 = l.
Proof.
  induction n as [|n IH]; intros l Hl; (destruct (cut l) as [k| |] eqn:E;
    [|by rewrite (split_nocut l) by (intros k' E'; congruence)..]).
  { apply cut_bound in E. lia. }
  pose proof (cut_bound _ _ E) as Hb.
  rewrite (split_cut l k E). cbn [fst snd concat]. rewrite <- app_assoc, IH by (rewrite length_drop; lia). apply take_drop.
Qed.
Lemma split_rest n : forall l, (length l <= n)%nat -> forall k, cut (split l).2 <> Cut k.
Proof.
  induction n as [|n IH]; intros l Hl k0; (destruct (cut l) as [k| |] eqn:E;
    [|rewrite (split_nocut l) by (intros k' E'; congruence); cbn; congruence..]).
  { apply cut_bound in E. lia. }
  pose proof (cut_bound _ _ E) as Hb.
  rewrite (split_cut l k E). cbn [snd]. apply IH. rewrite length_drop. lia.
Qed.
End Packages.
Arguments Splitter : clear implicits.

(** * The recording callback *)

Definition record (u : list (list Z)) (bytes : list Z) : list (list Z) * bool := (u ++ [bytes], false).
Notation cb := (Some record).

(** The parts of an io a package does not change. *)
Definition core (io : hio) : hio := io.[read_flags := 0].[small_readbytes_cnt := 0].[reading := false].

Lemma core_fields io io' : core io = core io' ->
  mem io = mem io' /\ freed io = freed io' /\ blen io = blen io' /\ head io = head io' /\ tail io = tail io' /\
  alloced_readbuf io = alloced_readbuf io' /\ closed io = closed io' /\ max_read_bufsize io = max_read_bufsize io' /\
  setting io = setting io' /\ async_close io = async_close io'.
Proof.
  intros E. split_and!; [exact (f_equal mem E)|exact (f_equal freed E)|exact (f_equal blen E)|exact (f_equal head E)|exact (f_equal tail E)
    |exact (f_equal alloced_readbuf E)|exact (f_equal closed E)|exact (f_equal max_read_bufsize E)|exact (f_equal setting E)|exact (f_equal async_close E)].
Qed.

(** The bytes [l] lie at [p] of a buffer that is alive. *)
Definition holds_at (io : hio) (p : Z) (l : list Z) : Prop :=
  freed io = false /\ closed io = false /\ 0 <= p /\ zslice (mem io) p (zlen l) = Some l.

Lemma holds_core io io' p l : core io = core io' -> holds_at io p l -> holds_at io' p l.
Proof. intros E (H1 & H2 & H3 & H4). apply core_fields in E. unfold holds_at. naive_solver congruence. Qed.

Lemma zslice_split {A} (m l : list A) p k : 0 <= p -> (k <= length l)%nat -> zslice m p (zlen l) = Some l ->
  zslice m p (Z.of_nat k) = Some (take k l) /\ zslice m (p + Z.of_nat k) (zlen (drop k l)) = Some (drop k l).
Proof.
  intros Hp Hk. unfold zslice. pose proof (zlen_nonneg l). unfold zlen in *.
  destruct (Z.leb_spec 0 p); [|lia]. destruct (Z.leb_spec 0 (Z.of_nat (length l))); [|lia].
  destruct (Z.leb_spec (p + Z.of_nat (length l)) (Z.of_nat (length m))); [|done]. cbn [andb]. intros [= E].
  rewrite length_drop. zcases. rewrite !Nat2Z.id in *.
  split; f_equal.
  - rewrite <- E. rewrite take_take. f_equal. lia.
  - rewrite <- E at 2. rewrite skipn_firstn_comm, drop_drop. repeat (f_equal; try lia).
Qed.

Lemma holds_drop io p l k : (k <= length l)%nat -> holds_at io p l -> holds_at io (p + Z.of_nat k) (drop k l).
Proof.
  intros Hk (H1 & H2 & H3 & H4). destruct (zslice_split _ _ _ k H3 Hk H4) as [_ E]. split_and!; [done|done|lia|done].
Qed.

(** A package given to the callback. *)
Lemma read_cb_ok io u p l k : holds_at io p l -> (k <= length l)%nat ->
  exists io', hio_read_cb cb io u p (Z.of_nat k) = Some (io', u ++ [take k l]) /\ core io = core io' /\
    (read_flags io = 0 -> read_flags io' = 0) /\
    (blen io / 2 <= Z.of_nat k -> small_readbytes_cnt io = 0 -> small_readbytes_cnt io' = 0).
Proof.
  intros (H1 & H2 & H3 & H4) Hk. destruct (zslice_split _ _ _ k H3 Hk H4) as [E _]. unfold hio_read_cb.
  set (io1 := if has_flag _ _ then _ else io).
  assert (core io = core io1 /\ small_readbytes_cnt io1 = small_readbytes_cnt io) as [Ec Es] by (unfold io1; by destruct (has_flag _ _)).
  assert (read_flags io = 0 -> read_flags io1 = 0) as Er by (intros Er; unfold io1; by rewrite Er).
  pose proof (core_fields _ _ Ec) as (C1 & C2 & C3 & C4 & C5 & C6 & C7 & _). rewrite <- C7, H2. unfold held. rewrite <- C1, <- C2, H1, E.
  cbn [mbind option_bind record]. eexists. split; [reflexivity|]. rewrite <- C3. split_and!.
  - rewrite Ec. by repeat case_match.
  - intros E0. apply Er in E0. by repeat case_match.
  - intros Hb H0. case_match; [|congruence]. case_match eqn:Hlt; [|done]. apply Z.ltb_lt in Hlt. lia.
Qed.

(** Moving what is left to the front. *)
Lemma keep_rest_ok io p r : holds_at io p r ->
  exists m, keep_rest io p (zlen r) = Some (io.[head := 0].[tail := zlen r].[mem := m]) /\
    length m = length (mem io) /\ take (length r) m = r.
Proof.
  intros (H1 & H2 & H3 & H4). unfold keep_rest. cbv zeta. destruct (Z.eqb_spec (zlen r) 0) as [E|E].
  { exists (mem io). destruct r; [|rewrite zlen_cons in E; pose proof (zlen_nonneg r); lia]. by destruct io. }
  change (freed (_.[tail := _])) with (freed io). rewrite H1. cbn [negb]. rewrite andb_true_r.
  assert (zslice (mem io) p (zlen r) = Some (take (length r) (drop (Z.to_nat p) (mem io))) /\ p + zlen r <= zlen (mem io)) as [Es Hb].
  { revert H4. unfold zslice. unfold zlen. rewrite Nat2Z.id. case_match eqn:C; [|done]. intros _. split; [done|].
    apply andb_true_iff in C as [_ C]. apply Z.leb_le in C. lia. }
  destruct (Z.eqb_spec p 0) as [->|Hp].
  - exists (mem io). rewrite H4 in Es. injection Es as Es. split_and!; [by destruct io|done|by symmetry].
  - unfold held. change (freed (_.[tail := _])) with (freed io). change (mem (_.[tail := _])) with (mem io). rewrite H1, H4.
    cbn [mbind option_bind]. unfold zcopy. pose proof (zlen_nonneg r). zcases.
    eexists. split; [reflexivity|]. cbn [Z.to_nat take app Nat.add]. split.
    + rewrite length_app, length_drop. unfold zlen in *. lia.
    + by rewrite take_app_length.
Qed.

(** * The buffer between reads *)

Definition max_of (s : unpack_setting_t) : Z := package_max_length s.
Definition fixed_extra (s : unpack_setting_t) (io : hio) : Prop :=
  match mode s with UNPACK_BY_FIXED_LENGTH n => blen io = n /\ small_readbytes_cnt io = 0 | _ => True end.

(** The io holds exactly the pending bytes [r], at the front of its own buffer. *)
Record pending (s : unpack_setting_t) (io : hio) (r : list Z) : Prop := mk_pending {
  pd_setting : setting io = Some s;
  pd_alloced : alloced_readbuf io = true;
  pd_open : closed io = false /\ async_close io = false;
  pd_head : head io = 0;
  pd_tail : tail io = zlen r;
  pd_mem : zlen (mem io) = blen io;
  pd_fits : zlen r <= blen io <= max_of s /\ 0 < blen io;
  pd_bytes : take (length r) (mem io) = r;
  pd_max : max_read_bufsize io = max_of s;
  pd_flags : read_flags io = 0;
  pd_extra : fixed_extra s io }.

(** Only unpackers without a fixed package size run into the maximum. *)
Definition may_give_up (s : unpack_setting_t) : Prop :=
  match mode s with UNPACK_BY_FIXED_LENGTH _ => False | _ => True end.

(** The io has been given up because a package is too big. *)
Definition over (io : hio) : Prop := error io = ERR_OVER_LIMIT /\ (closed io = true \/ async_close io = true) /\ head io = 0.

Lemma alloc_ok s io r n : pending s io r -> zlen r <= n <= max_of s -> max_of s < 2 ^ 30 -> 0 < n ->
  (match mode s with UNPACK_BY_FIXED_LENGTH k => n = k | _ => True end) ->
  pending s (hio_alloc_readbuf io n) r /\ blen (hio_alloc_readbuf io n) = n.
Proof.
  intros [P1 P2 [P3 P3'] P4 P5 P6 P7 P8 P9 P10 P11] Hn Hm H0 Hx. unfold hio_alloc_readbuf. rewrite P9, u32_small by lia.
  destruct (Z.ltb_spec (max_of s) n); [lia|]. rewrite P2. split; [|done].
  split; try done.
  - cbn. unfold resize, zlen. rewrite length_app, length_take, length_replicate. unfold zlen in P6. lia.
  - change (mem _) with (resize (mem io) n). unfold resize, zlen in *. rewrite take_app_le by (rewrite length_take; lia).
    rewrite take_take. rewrite Nat.min_l by lia. done.
  - unfold fixed_extra in *. by destruct (mode s).
Qed.

Lemma autosize_ok s io r : pending s io r -> max_of s < 2 ^ 30 ->
  (match mode s with UNPACK_BY_FIXED_LENGTH k => zlen r < k | _ => True end) ->
  exists io', autosize io = Some io' /\
    ((pending s io' r /\ zlen r < blen io') \/ (over io' /\ may_give_up s /\ max_of s < 2 * zlen r)).
Proof.
  intros Hp Hm Hx. pose proof Hp as [P1 P2 P3 P4 P5 P6 P7 P8 P9 P10 P11]. unfold autosize.
  assert (reset_if_empty io = io) as ->.
  { unfold reset_if_empty. rewrite P4, P5. destruct (Z.eqb_spec 0 (zlen r)) as [E|]; [|done].
    rewrite <- E in P5. destruct io. cbn in P4, P5. by subst. }
  cbv zeta. rewrite P4, P5. pose proof (zlen_nonneg r) as Hr. change (0 =? 0) with true. cbv iota.
  destruct (Z.eqb_spec (zlen r) (blen io)) as [E|E].
  - eexists. split; [reflexivity|]. rewrite i32_small by lia.
    assert (match mode s with UNPACK_BY_FIXED_LENGTH k => False | _ => True end) as Hnf.
    { unfold fixed_extra in P11. destruct (mode s); try done. lia. }
    destruct (decide (blen io * 2 <= max_of s)) as [Hle|Hgt].
    + left. destruct (alloc_ok s io r (blen io * 2)) as [Q1 Q2]; [done|lia|lia|lia|by destruct (mode s)|]. split; [done|lia].
    + right. unfold hio_alloc_readbuf. rewrite P9, u32_small by lia. destruct (Z.ltb_spec (max_of s) (blen io * 2)); [|lia].
      split; [by split_and!; [|right|]|split; [|lia]]. unfold may_give_up. by destruct (mode s).
  - eexists. split; [reflexivity|]. left. destruct (Z.ltb_spec (zlen r) (blen io / 2)) as [Hs|Hs]; cbn [andb]; [|split; [done|lia]].
    destruct (Z.leb_spec 3 (small_readbytes_cnt io)); [|split; [done|lia]].
    assert (match mode s with UNPACK_BY_FIXED_LENGTH k => False | _ => True end) as Hnf.
    { unfold fixed_extra in P11. destruct (mode s); try done. lia. }
    destruct (alloc_ok s io r (blen io / 2)) as [Q1 Q2]; [done|zdm|lia|lia|by destruct (mode s)|]. split; [done|lia].
Qed.

(** * An unpacker implements a splitter *)

(** With the bytes [r] pending and [c] just stored after them, the unpacker gives
    the callback the packages of [r ++ c] and leaves the rest pending, or gives up
    because what is pending needs more than half of the maximum. *)
Class Implements (s : unpack_setting_t) (SP : Splitter) : Prop := mk_implements {
  unpack_ok : forall io u r c, pending s io (r ++ c) -> freed io = false -> c <> [] ->
    cut r = More -> cut (split (r ++ c)).2 = More ->
    exists io' n, hio_unpack cb io u s (zlen r) (zlen c) = Some (io', u ++ (split (r ++ c)).1, n) /\
      (pending s io' (split (r ++ c)).2 \/ (over io' /\ may_give_up s /\ max_of s < 2 * need (split (r ++ c)).2));
  unpack_fixed : forall k r, mode s = UNPACK_BY_FIXED_LENGTH k -> cut r = More -> zlen r < k }.

Section Stream.
Context (s : unpack_setting_t) (SP : Splitter) `{!Implements s SP} (Hmax : max_of s < 2 ^ 30).

Lemma over_autosize io : over io -> exists io', autosize io = Some io' /\ over io'.
Proof.
  intros (E & C & H0). unfold autosize. set (io1 := reset_if_empty io).
  assert (error io1 = error io /\ closed io1 = closed io /\ async_close io1 = async_close io /\ head io1 = 0) as (E1 & C1 & A1 & H1).
  { unfold io1, reset_if_empty. by destruct (head io =? tail io). }
  assert (over io1) as Ho by (unfold over; by rewrite E1, C1, A1, H1). clearbody io1.
  assert (forall n, over (hio_alloc_readbuf io1 n)) as Ha.
  { intros n. unfold hio_alloc_readbuf, over in *. destruct (_ <? u32 n); [|by destruct (alloced_readbuf io1)].
    split_and!; [done|by right|apply H1]. }
  cbv zeta. rewrite H1. change (0 =? 0) with true. cbv iota. destruct (tail io1 =? blen io1); [eauto|].
  eexists. split; [reflexivity|]. by destruct (_ && _).
Qed.

Lemma nio_read_ok io u r c : pending s io r -> zlen r < blen io -> c <> [] -> zlen c <= blen io - zlen r ->
  cut r = More -> cut (split (r ++ c)).2 = More ->
  exists io', nio_read cb true io u (Received c) = Some (io', u ++ (split (r ++ c)).1) /\
    ((pending s io' (split (r ++ c)).2 /\ zlen (split (r ++ c)).2 < blen io') \/
     (over io' /\ may_give_up s /\ max_of s < 2 * need (split (r ++ c)).2)).
Proof.
  intros Hp Hroom Hc Hfit Hr Hr'. pose proof Hp as [P1 P2 P3 P4 P5 P6 P7 P8 P9 P10 P11].
  pose proof (zlen_nonneg r) as Hr0. pose proof (zlen_nonneg c) as Hc0. unfold nio_read.
  assert (read_room io = blen io - zlen r) as ->. { unfold read_room. rewrite P10, P5. cbn. apply i32_small. lia. }
  cbv zeta. destruct (Z.leb_spec (blen io - zlen r) 0); [lia|].
  destruct (Z.eqb_spec (zlen c) 0) as [E0|_]; [destruct c; [done|rewrite zlen_cons in E0; pose proof (zlen_nonneg c); lia]|]. cbn [andb].
  unfold nio_received. rewrite P5.
  destruct (Hash.Hash.zcopy_take (mem io) c (zlen r)) as (m1 & -> & Hl1 & Ht1); [lia|lia|]. cbn [mbind option_bind].
  rewrite P8 in Ht1 || (unfold zlen in Ht1; rewrite Nat2Z.id, P8 in Ht1).
  assert (exists m2, (if zlen c <? blen io - zlen r then zset m1 (zlen r + zlen c) 0 else Some m1) = Some m2 /\
     length m2 = length (mem io) /\ take (length (r ++ c)) m2 = r ++ c) as (m2 & -> & Hl2 & Ht2).
  { rewrite length_app. destruct (Z.ltb_spec (zlen c) (blen io - zlen r)); [|exists m1; done].
    unfold zset. unfold zlen in *. zcases. eexists. split; [reflexivity|]. rewrite length_insert. split; [done|].
    rewrite take_insert_ge by lia. done. }
  cbn [mbind option_bind]. unfold hio_handle_read. set (io1 := _.[freed := false]).
  assert (setting io1 = Some s) as -> by done.
  assert (pending s io1 (r ++ c)) as Hp1.
  { split; try done; cbn; rewrite ?zlen_app; unfold zlen in *; try lia. }
  destruct (unpack_ok io1 u r c Hp1 eq_refl Hc Hr Hr') as (io2 & n & -> & Hres). cbn [mbind option_bind].
  destruct Hres as [Hp2|(Ho & Hg & Hn)].
  - destruct (autosize_ok s io2 _ Hp2 Hmax) as (io3 & -> & H3).
    { destruct (mode s) eqn:Em; try done. by apply (unpack_fixed _ _ Em). }
    cbn [mbind option_bind]. exists io3. split; [done|]. destruct H3 as [H3|(H3 & Hg & H4)]; [by left|right].
    split_and!; [done|done|]. pose proof (need_more _ Hr'). lia.
  - destruct (over_autosize io2 Ho) as (io3 & -> & Ho3). cbn [mbind option_bind]. exists io3. split; [done|]. by right.
Qed.

(** [recv] hands over the bytes of the stream in pieces of at most [S n] bytes and
    no more than there is room for, until the io is given up. *)
Fixpoint pump (io : hio) (u : list (list Z)) (stream : list Z) (ns : list nat) : option (hio * list (list Z) * list Z) :=
  match ns, stream with
  | [], _ | _, [] => Some (io, u, stream)
  | n :: ns, _ =>
      if closed io || async_close io then Some (io, u, stream)
      else
        let k := Nat.min (S n) (Z.to_nat (read_room io)) in
        '(io, u) ← nio_read cb true io u (Received (take k stream));
        pump io u (drop k stream) ns
  end.

(** The headers of the stream are all acceptable. *)
Definition sound (stream : list Z) : Prop := forall a b, stream = a ++ b -> cut (split a).2 = More.

Lemma pump_ok ns : forall got stream io, pending s io (split got).2 -> zlen (split got).2 < blen io -> sound (got ++ stream) ->
  exists io' got' rest, pump io (split got).1 stream ns = Some (io', (split got').1, rest) /\ got ++ stream = got' ++ rest /\
    ((pending s io' (split got').2 /\ zlen (split got').2 < blen io') \/ (over io' /\ may_give_up s /\ max_of s < 2 * need (split got').2)).
Proof.
  induction ns as [|n ns IH]; intros got stream io Hp Hroom Hs; [exists io, got, stream; by split_and!; [..|left]|].
  destruct stream as [|b stream]; [exists io, got, []; by split_and!; [..|left]|]. cbn [pump].
  pose proof (pd_open _ _ _ Hp) as [Hc Ha]. rewrite Hc, Ha. cbn [orb].
  assert (read_room io = blen io - zlen (split got).2) as Hrr.
  { unfold read_room. rewrite (pd_flags _ _ _ Hp), (pd_tail _ _ _ Hp). cbn. apply i32_small.
    pose proof (pd_fits _ _ _ Hp). pose proof (zlen_nonneg (split got).2). lia. }
  set (k := Nat.min (S n) (Z.to_nat (read_room io))). set (c := take k (b :: stream)). set (d := drop k (b :: stream)).
  assert (0 < k)%nat as Hk by (unfold k; lia).
  assert (c <> []) as Hcn by (unfold c; destruct k; [lia|done]).
  assert (b :: stream = c ++ d) as Hsplit by (unfold c, d; by rewrite take_drop).
  assert (zlen c <= blen io - zlen (split got).2) as Hfit by (unfold c, zlen at 1; rewrite length_take; unfold k; lia).
  pose proof (split_append got c) as Esp.
  assert (cut (split got).2 = More) as Hm1 by (by apply (Hs got (b :: stream))).
  assert (cut (split (got ++ c)).2 = More) as Hm2 by (apply (Hs (got ++ c) (d)); rewrite <- app_assoc, <- Hsplit; done).
  rewrite Esp in Hm2. cbn [snd] in Hm2.
  destruct (nio_read_ok io (split got).1 (split got).2 c) as (io1 & E & Hres); try done. rewrite E. cbn [mbind option_bind].
  assert ((split got).1 ++ (split ((split got).2 ++ c)).1 = (split (got ++ c)).1) as -> by (by rewrite Esp).
  assert ((split ((split got).2 ++ c)).2 = (split (got ++ c)).2) as E2 by (by rewrite Esp). rewrite E2 in Hres.
  clearbody c d. rewrite Hsplit, app_assoc. destruct Hres as [[Hp1 Hr1]|Ho].
  - apply IH; [done|done|]. by rewrite <- app_assoc, <- Hsplit.
  - assert (pump io1 (split (got ++ c)).1 (d) ns = Some (io1, (split (got ++ c)).1, d)) as ->.
    { destruct ns as [|m ns], (d); try done. cbn [pump]. destruct Ho as [(_ & [->| ->] & _) _]; by rewrite ?orb_true_r. }
    exists io1, (got ++ c), (d). split_and!; [done|done|by right].
Qed.

End Stream.

(** What is common to the ends of the three unpackers. *)
Lemma finish_ok s io io1 l p r : pending s io l -> core io = core io1 -> read_flags io1 = 0 -> fixed_extra s io1 ->
  holds_at io1 p r -> zlen r <= zlen l ->
  exists io2, keep_rest io1 p (zlen r) = Some io2 /\ pending s io2 r /\ blen io2 = blen io.
Proof.
  intros [P1 P2 P3 P4 P5 P6 P7 P8 P9 P10 P11] Ec Hf Hx Hh Hle. pose proof (core_fields _ _ Ec) as (C1 & C2 & C3 & C4 & C5 & C6 & C7 & C8 & C9 & C10).
  destruct (keep_rest_ok io1 p r Hh) as (m & -> & Hl & Ht). eexists. split; [reflexivity|]. split; [|by cbn].
  split; try done; cbn; rewrite <- ?C1, <- ?C3, <- ?C6, <- ?C7, <- ?C8, <- ?C9, <- ?C10 in *; try done; try lia.
  unfold zlen in *. lia.
Qed.

Lemma pending_holds s io l : pending s io l -> freed io = false -> holds_at io 0 l.
Proof.
  intros [P1 P2 P3 P4 P5 P6 P7 P8 P9 P10 P11] Hf. split_and!; [done|apply P3|done|].
  unfold zslice. pose proof (zlen_nonneg l). destruct (Z.leb_spec 0 (zlen l)); [|lia].
  destruct (Z.leb_spec (0 + zlen l) (zlen (mem io))); [|lia]. cbn [andb Z.leb Z.compare]. f_equal.
  change (Z.to_nat 0) with 0%nat. rewrite drop_0. unfold zlen. rewrite Nat2Z.id. done.
Qed.

(** Giving up on an io that is open. *)
Lemma close_over io : closed io = false -> head io = 0 -> over (hio_close (io.[error := ERR_OVER_LIMIT])).
Proof.
  intros Hc Hh. unfold hio_close. change (closed (io.[error := _])) with (closed io). rewrite Hc.
  change (error (io.[error := ERR_OVER_LIMIT]) =? 0) with false. rewrite andb_false_r. cbn [andb].
  unfold hio_free_readbuf. case_match; (split_and!; [done|by left|done]).
Qed.

Lemma split_rest_length `{Splitter} l : zlen (split l).2 <= zlen l.
Proof. rewrite <- (split_concat (length l) l) at 2 by done. rewrite zlen_app. pose proof (zlen_nonneg (concat (split l).1)). lia. Qed.

(** * Packages of a fixed length *)

Section Fixed.
Context (n : Z) (Hn : 0 < n).

#[export] Program Instance fixed_splitter : Splitter :=
  {| cut l := if n <=? zlen l then Cut (Z.to_nat n) else More; need _ := n |}.
Next Obligation. intros l k. cbn. destruct (Z.leb_spec n (zlen l)); [|done]. intros [= <-]. unfold zlen in *. lia. Qed.
Next Obligation.
  intros l m k. cbn. destruct (Z.leb_spec n (zlen l)); [|done]. intros E. rewrite zlen_app. pose proof (zlen_nonneg m).
  by destruct (Z.leb_spec n (zlen l + zlen m)); [|lia].
Qed.
Next Obligation. intros l. cbn. by destruct (Z.leb_spec n (zlen l)). Qed.

Lemma fixed_loop_ok fuel : forall io u p l h, (length l <= fuel)%nat -> holds_at io p l -> read_flags io = 0 ->
  blen io = n -> small_readbytes_cnt io = 0 ->
  exists io' h', fixed_loop cb fuel io u n p (zlen l) h
      = Some (io', u ++ (split l).1, p + (zlen l - zlen (split l).2), zlen (split l).2, h') /\
    core io = core io' /\ read_flags io' = 0 /\ small_readbytes_cnt io' = 0 /\
    holds_at io' (p + (zlen l - zlen (split l).2)) (split l).2.
Proof.
  induction fuel as [|fuel IH]; intros io u p l h Hf Hh Hfl Hb Hs.
  - destruct l; [|simpl in Hf; lia]. exists io, h. cbn. rewrite zlen_nil. destruct (Z.leb_spec n 0); [lia|]. rewrite app_nil_r, Z.add_0_r. done.
  - cbn [fixed_loop]. destruct (Z.leb_spec n (zlen l)) as [Hle|Hgt].
    + assert (cut l = Cut (Z.to_nat n)) as Ec by (cbn; by destruct (Z.leb_spec n (zlen l)); [|lia]).
      assert (Z.to_nat n <= length l)%nat as Hk by (unfold zlen in Hle; lia).
      destruct (read_cb_ok io u p l (Z.to_nat n) Hh Hk) as (io1 & E & C & F & S). rewrite Z2Nat.id in E by lia. rewrite E. cbn [mbind option_bind].
      pose proof (core_fields _ _ C) as (_ & _ & C3 & _).
      replace (zlen l - n) with (zlen (drop (Z.to_nat n) l)) by (unfold zlen in *; rewrite length_drop; lia).
      destruct (IH io1 (u ++ [take (Z.to_nat n) l]) (p + n) (drop (Z.to_nat n) l) (h + n)) as (io2 & h2 & E2 & C2 & F2 & S2 & H2).
      * rewrite length_drop. lia.
      * apply (holds_core io); [done|]. replace n with (Z.of_nat (Z.to_nat n)) at 1 by lia. by apply holds_drop.
      * by apply F.
      * congruence.
      * apply S; [|done]. rewrite Hb. zdm.
      * exists io2, h2. rewrite E2, (split_cut l _ Ec). cbn [fst snd].
        assert (p + n + (zlen (drop (Z.to_nat n) l) - zlen (split (drop (Z.to_nat n) l)).2)
          = p + (zlen l - zlen (split (drop (Z.to_nat n) l)).2)) as Ep by (unfold zlen in *; rewrite length_drop; lia).
        rewrite Ep in *. split_and!; [by rewrite <- app_assoc|congruence|done|done|done].
    + assert (split l = ([], l)) as ->. { apply split_nocut. intros k. cbn. by destruct (Z.leb_spec n (zlen l)); [lia|]. }
      exists io, h. cbn [fst snd]. rewrite app_nil_r, Z.sub_diag, Z.add_0_r. done.
Qed.

#[export] Instance fixed_implements max : Implements (mk_setting (UNPACK_BY_FIXED_LENGTH n) max) fixed_splitter.
Proof.
  split.
  - intros io u r c Hp Hf Hc Hr Hr'. pose proof Hp as [P1 P2 P3 P4 P5 P6 P7 P8 P9 P10 [P11 P12]].
    cbn [hio_unpack mode package_max_length]. unfold hio_unpack, hio_unpack_by_fixed_length. cbn [mode].
    rewrite P11, Z.ltb_irrefl, P4. cbv zeta. rewrite Z.sub_0_r, <- zlen_app.
    destruct (fixed_loop_ok (Z.to_nat (zlen (r ++ c))) io u 0 (r ++ c) 0) as (io1 & h1 & E & C & F & S & Hh);
      [unfold zlen; lia|by eapply pending_holds|done|done|done|]. rewrite E. cbn [mbind option_bind].
    pose proof (core_fields _ _ C) as (_ & _ & C3 & _).
    destruct (finish_ok _ io io1 (r ++ c) _ _ Hp C F ltac:(by split; [congruence|]) Hh (split_rest_length _)) as (io2 & -> & Hp2 & _).
    cbn [mbind option_bind]. do 2 eexists. split; [reflexivity|]. by left.
  - intros k r [= <-]. cbn. by destruct (Z.leb_spec n (zlen r)).
Qed.
End Fixed.

(** * Packages ended by a delimiter *)

Fixpoint starts (d l : list Z) : bool :=
  match d, l with
  | [], _ => true
  | x :: d, y :: l => (y =? x) && starts d l
  | _ :: _, [] => false
  end.
(** The first place where [d] occurs. *)
Fixpoint find (d l : list Z) : option nat :=
  if starts d l then Some 0%nat
  else match l with [] => None | _ :: l => i ← find d l; Some (S i) end.

Lemma starts_length d : forall l, starts d l = true -> (length d <= length l)%nat.
Proof.
  induction d as [|x d IH]; intros [|y l]; simpl; try done; [lia..|]. intros E. apply andb_true_iff in E as [_ E].
  apply IH in E. lia.
Qed.
Lemma starts_app d : forall l m, (length d <= length l)%nat -> starts d (l ++ m) = starts d l.
Proof. induction d as [|x d IH]; intros [|y l] m Hl; simpl in *; try done; [lia|]. by rewrite IH by lia. Qed.

Lemma find_Some d l i : find d l = Some i ->
  starts d (drop i l) = true /\ (i + length d <= length l)%nat /\ forall j, (j < i)%nat -> starts d (drop j l) = false.
Proof.
  revert i. induction l as [|y l IH]; intros i; cbn [find].
  - destruct (starts d []) eqn:E; [|done]. intros [= <-]. apply starts_length in E as E'. split_and!; [done|done|lia].
  - destruct (starts d (y :: l)) eqn:E.
    + intros [= <-]. apply starts_length in E as E'. split_and!; [done|done|lia].
    + destruct (find d l) as [k|]; [|done]. intros [= <-]. destruct (IH k eq_refl) as (H1 & H2 & H3).
      split_and!; [done|simpl; lia|]. intros [|j] Hj; [done|]. apply H3. lia.
Qed.
Lemma find_first d l i : starts d (drop i l) = true -> (i <= length l)%nat ->
  (forall j, (j < i)%nat -> starts d (drop j l) = false) -> find d l = Some i.
Proof.
  revert l. induction i as [|i IH]; intros l Hs Hi Hj.
  - rewrite drop_0 in Hs. destruct l; cbn [find]; by rewrite Hs.
  - destruct l as [|y l]; [simpl in Hi; lia|]. cbn [find]. pose proof (Hj 0%nat ltac:(lia)) as H0. rewrite drop_0 in H0. rewrite H0.
    rewrite (IH l); [done|done|simpl in Hi; lia|]. intros j Hlt. apply (Hj (S j)). lia.
Qed.
Lemma find_None d l : find d l = None <-> forall j, (j <= length l)%nat -> starts d (drop j l) = false.
Proof.
  induction l as [|y l IH]; cbn [find].
  - split; [intros E j Hj; destruct j; [rewrite drop_0; by destruct (starts d [])|simpl in Hj; lia]|].
    intros E. specialize (E 0%nat ltac:(lia)). rewrite drop_0 in E. by rewrite E.
  - destruct (starts d (y :: l)) eqn:E.
    + split; [done|]. intros H. specialize (H 0%nat ltac:(lia)). rewrite drop_0 in H. congruence.
    + split.
      * intros H j Hj. destruct j as [|j]; [done|]. destruct (find d l); [done|]. apply IH; [done|simpl in Hj; lia].
      * intros H. destruct (find d l) as [i|] eqn:Ef; [|done]. apply find_Some in Ef as (H1 & H2 & _).
        specialize (H (S i) ltac:(simpl; lia)). cbn [drop] in H. congruence.
Qed.

Lemma holds_byte io p x l : holds_at io p (x :: l) -> held_byte io p = Some x.
Proof.
  intros (H1 & H2 & H3 & H4). unfold held_byte. rewrite H1. unfold zslice in H4. case_match eqn:C; [|done].
  apply andb_true_iff in C as [_ C]. apply Z.leb_le in C. rewrite zlen_cons in C. pose proof (zlen_nonneg l).
  rewrite zget_Some by lia. injection H4 as E. apply (f_equal (fun k => k !! 0%nat)) in E.
  rewrite lookup_take_lt in E by (rewrite zlen_cons; lia). by rewrite lookup_drop, Nat.add_0_r in E.
Qed.

Lemma matches_ok io d : forall p l, holds_at io p l -> (length d <= length l)%nat -> matches io p d = Some (starts d l).
Proof.
  induction d as [|x d IH]; intros p l Hh Hl; [done|]. destruct l as [|y l]; [simpl in Hl; lia|]. cbn [matches starts].
  rewrite (holds_byte io p y l Hh). cbn [mbind option_bind]. destruct (y =? x); [|done]. cbn [andb].
  apply IH; [|simpl in Hl; lia]. apply (holds_drop io p (y :: l) 1); [simpl; lia|done].
Qed.

Lemma nonempty_pos {A} (l : list A) : l <> [] -> (0 < length l)%nat.
Proof. destruct l; [done|simpl; lia]. Qed.

Section Delimiter.
Context (d : list Z) (Hd : d <> []).

#[export] Program Instance delim_splitter : Splitter :=
  {| cut l := match find d l with Some i => Cut (i + length d) | None => More end; need l := zlen l + 1 |}.
Next Obligation.
  intros l k. cbn. destruct (find d l) as [i|] eqn:E; [|done]. intros [= <-]. apply find_Some in E as (_ & H & _).
  destruct d; [done|]. simpl in *. lia.
Qed.
Next Obligation.
  intros l m k. cbn. destruct (find d l) as [i|] eqn:E; [|done]. intros [= <-]. apply find_Some in E as (H1 & H2 & H3).
  assert (forall j, (j <= i)%nat -> starts d (drop j (l ++ m)) = starts d (drop j l)) as Ha.
  { intros j Hj. rewrite drop_app_le by lia. apply starts_app. rewrite length_drop. lia. }
  rewrite (find_first d (l ++ m) i); [done|by rewrite Ha|rewrite length_app; lia|].
  intros j Hj. rewrite Ha by lia. by apply H3.
Qed.
Next Obligation. intros l _. cbn. lia. Qed.

Lemma delim_loop_ok fuel : forall io u sp l i h, holds_at io sp l -> read_flags io = 0 ->
  (i <= length l)%nat -> (length l - i < fuel)%nat -> (forall j, (j < i)%nat -> starts d (drop j l) = false) ->
  exists io' h', delim_loop cb fuel io u d sp (sp + Z.of_nat i) (zlen l - Z.of_nat i) h
      = Some (io', u ++ (split l).1, sp + (zlen l - zlen (split l).2), h') /\
    core io = core io' /\ read_flags io' = 0 /\ holds_at io' (sp + (zlen l - zlen (split l).2)) (split l).2.
Proof.
  induction fuel as [|fuel IH]; intros io u sp l i h Hh Hfl Hi Hf Hj; [lia|]. cbn [delim_loop]. cbv zeta.
  destruct (Z.leb_spec (zlen d) (zlen l - Z.of_nat i)) as [Hle|Hgt].
  - assert (length d <= length (drop i l))%nat as Hdl by (rewrite length_drop; unfold zlen in *; lia).
    rewrite (matches_ok io d _ (drop i l)) by (done || by apply holds_drop). cbn [mbind option_bind].
    pose proof (nonempty_pos d Hd) as Hd0. rewrite length_drop in Hdl.
    destruct (starts d (drop i l)) eqn:Es.
    + set (k := (i + length d)%nat).
      assert (cut l = Cut k) as Ec by (cbn; by rewrite (find_first d l i)).
      destruct (read_cb_ok io u sp l k Hh ltac:(unfold k; lia)) as (io1 & E & C & F & _).
      replace (sp + Z.of_nat i + zlen d - sp) with (Z.of_nat k) by (unfold k, zlen; lia). rewrite E. cbn [mbind option_bind].
      destruct (IH io1 (u ++ [take k l]) (sp + Z.of_nat k) (drop k l) 0%nat (h + Z.of_nat k)) as (io2 & h2 & E2 & C2 & F2 & H2).
      * apply (holds_core io); [done|]. apply holds_drop; [unfold k; lia|done].
      * by apply F.
      * lia.
      * rewrite length_drop. unfold k. lia.
      * lia.
      * exists io2, h2. rewrite (split_cut l _ Ec). cbn [fst snd].
        assert (zlen (drop k l) = zlen l - Z.of_nat k) as Hdk by (unfold zlen, k; rewrite length_drop; lia).
        rewrite Z.add_0_r, Z.sub_0_r in E2. rewrite Hdk in E2, H2.
        replace (sp + Z.of_nat i + zlen d) with (sp + Z.of_nat k) by (unfold k, zlen; lia).
        replace (zlen l - Z.of_nat i - zlen d) with (zlen l - Z.of_nat k) by (unfold k, zlen; lia).
        replace (sp + Z.of_nat k + (zlen l - Z.of_nat k - zlen (split (drop k l)).2)) with (sp + (zlen l - zlen (split (drop k l)).2)) in E2, H2 by lia.
        rewrite E2. split_and!; [by rewrite <- app_assoc|congruence|done|done].
    + destruct (IH io u sp l (S i) h) as (io2 & h2 & E2 & R2); [done|done|lia|lia| |].
      { intros j Hlt. destruct (decide (j = i)) as [->|]; [done|]. apply Hj. lia. }
      exists io2, h2. split; [|done].
      replace (sp + Z.of_nat i + 1) with (sp + Z.of_nat (S i)) by lia.
      replace (zlen l - Z.of_nat i - 1) with (zlen l - Z.of_nat (S i)) by lia. done.
  - assert (split l = ([], l)) as ->.
    { apply split_nocut. intros k. cbn. assert (find d l = None) as ->; [|done]. apply find_None. intros j Hjl.
      destruct (decide (j < i)%nat); [by apply Hj|]. destruct (starts d (drop j l)) eqn:Es; [|done].
      apply starts_length in Es. rewrite length_drop in Es. unfold zlen in Hgt. lia. }
    exists io, h. cbn [fst snd]. rewrite app_nil_r, Z.sub_diag, Z.add_0_r. done.
Qed.

#[export] Instance delim_implements max : max < 2 ^ 30 -> Implements (mk_setting (UNPACK_BY_DELIMITER d) max) delim_splitter.
Proof.
  intros Hmax. split; [|done]. intros io u r c Hp Hf Hc Hr Hr'. pose proof Hp as [P1 P2 P3 P4 P5 P6 P7 P8 P9 P10 P11].
  unfold hio_unpack. cbn [mode package_max_length]. unfold hio_unpack_by_delimiter. rewrite P4. cbv zeta.
  pose proof (nonempty_pos d Hd) as Hd0. pose proof (nonempty_pos c Hc) as Hc0.
  set (i := Z.to_nat (Z.max 0 (zlen r - zlen d + 1))).
  assert ((if zlen r - zlen d + 1 <? 0 then 0 else zlen r - zlen d + 1) = 0 + Z.of_nat i) as -> by (unfold i; zcases).
  rewrite Z.sub_0_r || idtac. rewrite <- zlen_app.
  assert (i <= length r)%nat as Hi by (unfold i, zlen; lia).
  destruct (delim_loop_ok (Z.to_nat (zlen (r ++ c) - (0 + Z.of_nat i) + 1)) io u 0 (r ++ c) i 0) as (io1 & h1 & E & C & F & Hh).
  { by eapply pending_holds. } { done. } { rewrite length_app. lia. } { unfold zlen. rewrite length_app. lia. }
  { intros j Hj. assert (j + length d <= length r)%nat by (unfold i, zlen in *; lia).
    rewrite drop_app_le by lia. rewrite starts_app by (rewrite length_drop; lia).
    cbn in Hr. destruct (find d r) eqn:Ef; [done|]. apply (proj1 (find_None d r) Ef). lia. }
  rewrite Z.add_0_l in E |- *. rewrite E. cbn [mbind option_bind]. rewrite !Z.add_0_l in *.
  replace (zlen (r ++ c) - (zlen (r ++ c) - zlen (split (r ++ c)).2)) with (zlen (split (r ++ c)).2) by lia.
  destruct (finish_ok _ io io1 (r ++ c) _ _ Hp C F I Hh (split_rest_length _)) as (io2 & -> & Hp2 & Hb2). cbn [mbind option_bind].
  set (r' := (split (r ++ c)).2) in *. pose proof (pd_tail _ _ _ Hp2) as T2. pose proof (pd_fits _ _ _ Hp2) as F2. cbn in F2.
  pose proof (zlen_nonneg r').
  destruct (negb (zlen r' =? 0) && (tail io2 =? blen io2)) eqn:Eb; [|do 2 eexists; split; [reflexivity|by left]].
  apply andb_true_iff in Eb as [_ Eb]. apply Z.eqb_eq in Eb. destruct (Z.leb_spec max (blen io2)) as [Hm|Hm].
  - do 2 eexists. split; [reflexivity|]. right. split_and!; [|done|cbn; lia]. apply close_over; apply Hp2.
  - do 2 eexists. split; [reflexivity|]. left. apply alloc_ok; [done|cbn; lia|cbn; lia|lia|done].
Qed.
End Delimiter.

(** * Packages with a length field *)

(** ** Variable-length fields depend only on the bytes they take *)

Lemma zget_app_l {A} (a m : list A) i : i < zlen a -> zget (a ++ m) i = zget a i.
Proof.
  intros Hi. destruct (decide (0 <= i)) as [H0|H0].
  - rewrite !zget_Some by (rewrite ?zlen_app; pose proof (zlen_nonneg m); lia). apply lookup_app_l. unfold zlen in Hi. lia.
  - by rewrite !zget_None by lia.
Qed.

(** What a decoder returns with [n] bytes: the value and the length, 0 when they
    are not enough, -1 when they are wrong. *)
Class Decoder (decode : list Z -> option Z -> option (Z * option Z)) : Prop := mk_decoder {
  dec_total : forall a, a <> [] -> exists v k, decode a (Some (zlen a)) = Some (v, Some k);
  dec_tail : forall a m, a <> [] -> decode (a ++ m) (Some (zlen a)) = decode a (Some (zlen a));
  dec_stable : forall a m v k, a <> [] -> decode a (Some (zlen a)) = Some (v, Some k) -> k <> 0 ->
    decode (a ++ m) (Some (zlen (a ++ m))) = Some (v, Some k) }.

Lemma varint_loop_total a f : forall ret bytes bits, a <> [] -> 0 <= bytes <= zlen a ->
  exists v k, varint_decode_loop f a (Some (zlen a)) ret bytes bits = Some (v, Some k).
Proof.
  induction f as [|f IH]; intros ret bytes bits Ha Hb; cbn [varint_decode_loop]; [by do 2 eexists|].
  unfold not_enough. assert (zlen a <> 0) as H0 by (destruct a; [done|rewrite zlen_cons; pose proof (zlen_nonneg a); lia]).
  destruct (Z.eqb_spec (zlen a) 0); [lia|]. cbn [negb andb]. destruct (Z.eqb_spec bytes (zlen a)); [by do 2 eexists|].
  destruct (zget_is_Some a bytes) as [p ->]; [lia|]. cbn [mbind option_bind]. cbv zeta. case_match; [by do 2 eexists|]. apply IH; [done|lia].
Qed.

(** Longer input and a larger limit give the same answer, unless it was "not
    enough"; a larger input alone always does. *)
Lemma varint_loop_more a m N f : a <> [] -> zlen a <= N -> forall ret bytes bits, 0 <= bytes <= zlen a ->
  (N = zlen a \/ forall v, varint_decode_loop f a (Some (zlen a)) ret bytes bits <> Some (v, Some 0)) ->
  forall v k, varint_decode_loop f a (Some (zlen a)) ret bytes bits = Some (v, Some k) ->
  varint_decode_loop f (a ++ m) (Some N) ret bytes bits = Some (v, Some k).
Proof.
  intros Ha HN. assert (zlen a <> 0) as H0 by (destruct a; [done|rewrite zlen_cons; pose proof (zlen_nonneg a); lia]).
  induction f as [|f IH]; intros ret bytes bits Hb Hor v k; cbn [varint_decode_loop]; [done|].
  cbn [varint_decode_loop] in Hor. unfold not_enough in *.
  destruct (Z.eqb_spec (zlen a) 0) as [|_]; [lia|]. destruct (Z.eqb_spec N 0) as [|_]; [lia|]. cbn [negb andb] in *.
  destruct (Z.eqb_spec bytes (zlen a)) as [E|E].
  - intros [= <- <-]. destruct Hor as [->|Hor]; [by destruct (Z.eqb_spec bytes (zlen a)); [|lia]|]. by destruct (Hor 0).
  - destruct (Z.eqb_spec bytes N); [lia|]. rewrite zget_app_l by lia.
    destruct (zget a bytes) as [p|]; [|done]. cbn [mbind option_bind] in *. cbv zeta in *. case_match; [done|]. apply IH; [lia|done].
Qed.

#[export] Instance varint_decoder : Decoder varint_decode.
Proof.
  split.
  - intros a Ha. apply varint_loop_total; [done|]. pose proof (zlen_nonneg a). lia.
  - intros a m Ha. pose proof (zlen_nonneg a). destruct (varint_loop_total a 10 0 0 0 Ha ltac:(lia)) as (v & k & E). unfold varint_decode. rewrite E.
    apply (varint_loop_more a m (zlen a) 10 Ha); [lia|lia|by left|done].
  - intros a m v k Ha E Hk. pose proof (zlen_nonneg a). pose proof (zlen_nonneg m). apply (varint_loop_more a m (zlen (a ++ m)) 10 Ha); [rewrite zlen_app; lia|lia| |done].
    right. intros v' E'. unfold varint_decode in E. congruence.
Qed.

Lemma asn1_loop_total a n : forall ret bytes, a <> [] -> 0 <= bytes <= zlen a ->
  exists v k, asn1_decode_loop n a (Some (zlen a)) ret bytes = Some (v, Some k).
Proof.
  induction n as [|n IH]; intros ret bytes Ha Hb; cbn [asn1_decode_loop]; [by do 2 eexists|].
  unfold not_enough. assert (zlen a <> 0) as H0 by (destruct a; [done|rewrite zlen_cons; pose proof (zlen_nonneg a); lia]).
  destruct (Z.eqb_spec (zlen a) 0); [lia|]. cbn [negb andb]. destruct (Z.eqb_spec bytes (zlen a)); [by do 2 eexists|].
  destruct (zget_is_Some a bytes) as [p ->]; [lia|]. cbn [mbind option_bind]. apply IH; [done|lia].
Qed.
Lemma asn1_loop_more a m N n : a <> [] -> zlen a <= N -> forall ret bytes, 0 <= bytes <= zlen a ->
  (N = zlen a \/ forall v, asn1_decode_loop n a (Some (zlen a)) ret bytes <> Some (v, Some 0)) ->
  forall v k, asn1_decode_loop n a (Some (zlen a)) ret bytes = Some (v, Some k) ->
  asn1_decode_loop n (a ++ m) (Some N) ret bytes = Some (v, Some k).
Proof.
  intros Ha HN. assert (zlen a <> 0) as H0 by (destruct a; [done|rewrite zlen_cons; pose proof (zlen_nonneg a); lia]).
  induction n as [|n IH]; intros ret bytes Hb Hor v k; cbn [asn1_decode_loop]; [done|].
  cbn [asn1_decode_loop] in Hor. unfold not_enough in *.
  destruct (Z.eqb_spec (zlen a) 0) as [|_]; [lia|]. destruct (Z.eqb_spec N 0) as [|_]; [lia|]. cbn [negb andb] in *.
  destruct (Z.eqb_spec bytes (zlen a)) as [E|E].
  - intros [= <- <-]. destruct Hor as [->|Hor]; [by destruct (Z.eqb_spec bytes (zlen a)); [|lia]|]. by destruct (Hor 0).
  - destruct (Z.eqb_spec bytes N); [lia|]. rewrite zget_app_l by lia.
    destruct (zget a bytes) as [p|]; [|done]. cbn [mbind option_bind] in *. apply IH; [lia|done].
Qed.

#[export] Instance asn1_decoder : Decoder asn1_decode.
Proof.
  split; unfold asn1_decode.
  - intros a Ha. destruct a as [|t a]; [done|]. rewrite zget_0. cbn [mbind option_bind].
    pose proof (zlen_nonneg a). do 2 (case_match; [by do 2 eexists|]). apply asn1_loop_total; [done|rewrite zlen_cons; lia].
  - intros a m Ha. destruct a as [|t a]; [done|]. cbn [app]. rewrite !zget_0. cbn [mbind option_bind]. pose proof (zlen_nonneg a).
    do 2 (case_match; [done|]).
    destruct (asn1_loop_total (t :: a) (Z.to_nat (Z.land t 127)) 0 1 Ha ltac:(rewrite zlen_cons; lia)) as (v & k & E). rewrite E.
    apply (asn1_loop_more (t :: a) m _ _ Ha); [lia|rewrite zlen_cons; lia|by left|done].
  - intros a m v k Ha. destruct a as [|t a]; [done|]. cbn [app]. rewrite !zget_0. cbn [mbind option_bind]. pose proof (zlen_nonneg a). pose proof (zlen_nonneg m).
    do 2 (case_match; [done|]). intros E Hk.
    apply (asn1_loop_more (t :: a) m _ _ Ha); [cbn [app]; rewrite !zlen_cons, zlen_app; lia|rewrite zlen_cons; lia| |done].
    right. intros v' E'. congruence.
Qed.

(** ** The field *)

Definition be_value (l : list Z) : Z := fold_left (fun v b => Z.lor (u32 (Z.shiftl v 8)) b) l 0.
Fixpoint le_value (l : list Z) (i v : Z) : Z :=
  match l with [] => v | b :: l => le_value l (i + 1) (Z.lor v (u32 (Z.shiftl b (i * 8)))) end.

Lemma be_field_ok io n : forall p l v, holds_at io p l -> (n <= length l)%nat ->
  be_field io n p v = Some (fold_left (fun v b => Z.lor (u32 (Z.shiftl v 8)) b) (take n l) v).
Proof.
  induction n as [|n IH]; intros p l v Hh Hl; [done|]. destruct l as [|b l]; [simpl in Hl; lia|]. cbn [be_field take fold_left].
  rewrite (holds_byte io p b l Hh). cbn [mbind option_bind]. apply IH; [|simpl in Hl; lia].
  apply (holds_drop io p (b :: l) 1); [simpl; lia|done].
Qed.
Lemma le_field_ok io n : forall i p l v, holds_at io p l -> (n <= length l)%nat ->
  le_field io n i p v = Some (le_value (take n l) i v).
Proof.
  induction n as [|n IH]; intros i p l v Hh Hl; [done|]. destruct l as [|b l]; [simpl in Hl; lia|]. cbn [le_field take le_value].
  rewrite (holds_byte io p b l Hh). cbn [mbind option_bind]. apply IH; [|simpl in Hl; lia].
  apply (holds_drop io p (b :: l) 1); [simpl; lia|done].
Qed.

Lemma holds_split io p l : holds_at io p l -> exists pre post, mem io = pre ++ l ++ post /\ zlen pre = p.
Proof.
  intros (H1 & H2 & H3 & H4). unfold zslice in H4. case_match eqn:C; [|done]. apply andb_true_iff in C as [_ C]. apply Z.leb_le in C.
  injection H4 as E. exists (take (Z.to_nat p) (mem io)), (drop (length l) (drop (Z.to_nat p) (mem io))).
  unfold zlen in *. rewrite Nat2Z.id in E. split; [|rewrite length_take; lia].
  rewrite <- E at 1. by rewrite !take_drop.
Qed.

Section Field.
Context (bo lo lb adj : Z) (coding : unpack_coding_e).
Context (Hlo : 0 <= lo) (Hlb : 0 < lb) (Hbo : lo + lb <= bo < 2 ^ 16).

(** The field read from the bytes that start with it. *)
Definition field_of (a : list Z) : field :=
  let variable (r : option (Z * option Z)) :=
    match r with
    | Some (v, Some k) =>
        if k =? 0 then Incomplete else if k =? -1 then Bad ERR_OVER_LIMIT else Field (u32 v) (u32 (bo + k - lb))
    | _ => Incomplete
    end in
  match coding with
  | ENCODE_BY_BIG_ENDIAN => Field (be_value (take (Z.to_nat lb) a)) bo
  | ENCODE_BY_LITTLE_ENDIAN => Field (le_value (take (Z.to_nat lb) a) 0 0) bo
  | ENCODE_BY_VARINT => variable (varint_decode a (Some (zlen a)))
  | ENCODE_BY_ASN1 => variable (asn1_decode a (Some (zlen a)))
  | CODING_OTHER => Bad ERR_INVALID_PARAM
  end.

Lemma field_stable a m b h : (Z.to_nat lb <= length a)%nat -> field_of a = Field b h -> field_of (a ++ m) = Field b h.
Proof.
  intros Hl. assert (a <> []) as Ha by (intros ->; simpl in Hl; lia).
  unfold field_of. rewrite take_app_le by done. destruct coding; try done.
  - destruct (dec_total (decode := varint_decode) a Ha) as (v & k & E). rewrite E. destruct (Z.eqb_spec k 0); [done|].
    rewrite (dec_stable a m v k Ha E) by done. by destruct (Z.eqb_spec k 0).
  - destruct (dec_total (decode := asn1_decode) a Ha) as (v & k & E). rewrite E. destruct (Z.eqb_spec k 0); [done|].
    rewrite (dec_stable a m v k Ha E) by done. by destruct (Z.eqb_spec k 0).
Qed.

Definition announced (b h : Z) : Z := u32 (h + b + adj).

Definition field_cut (l : list Z) : verdict :=
  if zlen l <? bo then More
  else match field_of (drop (Z.to_nat lo) l) with
       | Incomplete => More
       | Bad _ => Fail
       | Field b h =>
           if announced b h =? 0 then Fail
           else if announced b h <=? zlen l then Cut (Z.to_nat (announced b h)) else More
       end.
Definition field_need (l : list Z) : Z :=
  if zlen l <? bo then bo
  else match field_of (drop (Z.to_nat lo) l) with Field b h => announced b h | _ => zlen l + 1 end.

#[export] Program Instance field_splitter : Splitter := {| cut := field_cut; need := field_need |}.
Next Obligation.
  intros l k. unfold field_cut. destruct (zlen l <? bo); [done|]. destruct (field_of _) as [b h| |]; [|done..].
  pose proof (u32_range (h + b + adj)). fold (announced b h) in *. destruct (Z.eqb_spec (announced b h) 0); [done|].
  destruct (Z.leb_spec (announced b h) (zlen l)); [|done]. intros [= <-]. unfold zlen in *. lia.
Qed.
Next Obligation.
  intros l m k. unfold field_cut. destruct (Z.ltb_spec (zlen l) bo) as [|Hl]; [done|]. rewrite zlen_app. pose proof (zlen_nonneg m).
  destruct (Z.ltb_spec (zlen l + zlen m) bo); [lia|]. rewrite drop_app_le by (unfold zlen in Hl; lia).
  destruct (field_of (drop (Z.to_nat lo) l)) as [b h| |] eqn:E; [|done..].
  rewrite (field_stable _ m b h) by (done || rewrite length_drop; unfold zlen in Hl; lia).
  destruct (announced b h =? 0); [done|]. destruct (Z.leb_spec (announced b h) (zlen l)); [|done].
  by destruct (Z.leb_spec (announced b h) (zlen l + zlen m)); [|lia].
Qed.
Next Obligation.
  intros l. unfold field_cut, field_need. destruct (Z.ltb_spec (zlen l) bo); [done|]. destruct (field_of _) as [b h| |]; try done; [|lia].
  destruct (announced b h =? 0); [done|]. by destruct (Z.leb_spec (announced b h) (zlen l)).
Qed.

Lemma need_bo l : cut l = More -> bo <= need l.
Proof. intros E. pose proof (need_more l E) as H. unfold need, field_splitter, field_need in *. destruct (Z.ltb_spec (zlen l) bo); lia. Qed.

Definition hl_ok (head_len : Z) : Prop :=
  match coding with ENCODE_BY_BIG_ENDIAN | ENCODE_BY_LITTLE_ENDIAN => head_len = bo | _ => True end.

Lemma length_field_ok io p l head_len : holds_at io p l -> bo <= zlen l -> hl_ok head_len ->
  length_field io bo lo lb coding p (p + zlen l) head_len = Some (field_of (drop (Z.to_nat lo) l)).
Proof.
  intros Hh Hl Hhl. set (a := drop (Z.to_nat lo) l).
  assert (length a = length l - Z.to_nat lo)%nat as Hla by (unfold a; by rewrite length_drop).
  assert (holds_at io (p + lo) a) as Hha.
  { unfold a. replace lo with (Z.of_nat (Z.to_nat lo)) at 1 by lia. apply holds_drop; [unfold zlen in Hl; lia|done]. }
  assert (zlen a = p + zlen l - (p + lo)) as Hza by (unfold zlen in *; lia).
  assert (a <> []) as Ha by (intros E; rewrite E in Hza; rewrite zlen_nil in Hza; lia).
  assert (exists post, held io (p + lo) (zlen (mem io) - (p + lo)) = Some (a ++ post)) as [post Hheld].
  { destruct (holds_split io (p + lo) a Hha) as (pre & post & Em & Ep). exists post. unfold held. rewrite (proj1 Hha), Em.
    rewrite <- (app_nil_r (a ++ post)) at 1. apply zslice_app; [done|]. rewrite !zlen_app. lia. }
  unfold length_field, field_of, hl_ok in *. cbv zeta. rewrite <- Hza, Hheld. cbn [mbind option_bind].
  destruct coding.
  - rewrite dec_tail by done. destruct (dec_total (decode := varint_decode) a Ha) as (v & k & E). rewrite E. done.
  - rewrite (le_field_ok io _ _ _ a) by (done || unfold zlen in *; lia). cbn [mbind option_bind]. by rewrite Hhl.
  - rewrite (be_field_ok io _ _ a) by (done || unfold zlen in *; lia). cbn [mbind option_bind]. by rewrite Hhl.
  - rewrite dec_tail by done. destruct (dec_total (decode := asn1_decode) a Ha) as (v & k & E). rewrite E. done.
  - done.
Qed.

Lemma field_hl b h a : field_of a = Field b h -> hl_ok h.
Proof. unfold field_of, hl_ok. destruct coding; try done; by intros [= _ <-]. Qed.

Lemma field_loop_ok fuel : forall io u p l hd hl pl L, holds_at io p l -> read_flags io = 0 ->
  (length l < fuel)%nat -> hl_ok hl -> zlen l <= L -> (pl <= L \/ pl = bo) -> cut (split l).2 = More ->
  exists io' hd' pl', field_loop cb fuel io u bo lo lb adj coding p (p + zlen l) (zlen l) hd hl pl
      = Some (io', u ++ (split l).1, LoopDone (p + (zlen l - zlen (split l).2)) (zlen (split l).2) hd' pl') /\
    core io = core io' /\ read_flags io' = 0 /\ holds_at io' (p + (zlen l - zlen (split l).2)) (split l).2 /\
    (pl' <= L \/ pl' <= need (split l).2).
Proof.
  induction fuel as [|fuel IH]; intros io u p l hd hl pl L Hh Hfl Hf Hhl HL Hpl Hm; [lia|]. cbn [field_loop].
  destruct (Z.leb_spec bo (zlen l)) as [Hle|Hgt].
  - rewrite length_field_ok by done. cbn [mbind option_bind].
    assert (cut l = match field_of (drop (Z.to_nat lo) l) with
       | Incomplete => More | Bad _ => Fail
       | Field b h => if announced b h =? 0 then Fail
           else if announced b h <=? zlen l then Cut (Z.to_nat (announced b h)) else More end) as Ec.
    { unfold cut, field_splitter, field_cut. by rewrite ltb_false. }
    assert (need l = match field_of (drop (Z.to_nat lo) l) with Field b h => announced b h | _ => zlen l + 1 end) as En.
    { unfold need, field_splitter, field_need. by rewrite ltb_false. }
    destruct (field_of (drop (Z.to_nat lo) l)) as [b h| |err] eqn:Ef.
    + fold (announced b h). cbv zeta. pose proof (u32_range (h + b + adj)) as Hu. fold (announced b h) in Hu.
      revert Ec. destruct (Z.eqb_spec (announced b h) 0) as [E0|E0]; [intros Ec|].
      { rewrite (split_nocut l) in Hm by (intros k E; congruence). cbn [snd] in Hm. congruence. }
      destruct (Z.leb_spec (announced b h) (zlen l)) as [Hk|Hk]; intros Ec.
      * set (k := Z.to_nat (announced b h)) in *.
        assert (announced b h = Z.of_nat k) as Ek by (unfold k; lia). rewrite Ek in *.
        destruct (read_cb_ok io u p l k Hh ltac:(unfold zlen in Hk; lia)) as (io1 & E & C & F & _). rewrite E. cbn [mbind option_bind].
        rewrite (split_cut l k Ec) in *. cbn [fst snd] in *.
        assert (zlen (drop k l) = zlen l - Z.of_nat k) as Hdk by (unfold zlen in *; rewrite length_drop; lia).
        destruct (IH io1 (u ++ [take k l]) (p + Z.of_nat k) (drop k l) (hd + Z.of_nat k) h (Z.of_nat k) L) as (io2 & hd2 & pl2 & E2 & C2 & F2 & H2 & N2).
        -- apply (holds_core io); [done|]. apply holds_drop; [unfold zlen in Hk; lia|done].
        -- by apply F.
        -- rewrite length_drop. unfold zlen in *. lia.
        -- by eapply field_hl.
        -- lia.
        -- left. lia.
        -- done.
        -- rewrite Hdk in E2, H2. exists io2, hd2, pl2.
           replace (p + Z.of_nat k + (zlen l - Z.of_nat k)) with (p + zlen l) in E2 by lia.
           replace (p + Z.of_nat k + (zlen l - Z.of_nat k - zlen (split (drop k l)).2)) with (p + (zlen l - zlen (split (drop k l)).2)) in E2, H2 by lia.
           rewrite E2. split_and!; [by rewrite <- app_assoc|congruence|done|done|done].
      * rewrite (split_nocut l) by (intros k E; congruence). exists io, hd, (announced b h). cbn [fst snd].
        rewrite app_nil_r, Z.sub_diag, Z.add_0_r. split_and!; [done|done|done|done|]. right. lia.
    + rewrite (split_nocut l) by (intros k E; congruence). exists io, hd, pl. cbn [fst snd].
      rewrite app_nil_r, Z.sub_diag, Z.add_0_r. split_and!; [done|done|done|done|]. destruct Hpl; [by left|right]. lia.
    + rewrite (split_nocut l) in Hm by (intros k E; congruence). cbn [snd] in Hm. congruence.
  - assert (split l = ([], l)) as E.
    { apply split_nocut. intros k. unfold cut, field_splitter, field_cut. by destruct (Z.ltb_spec (zlen l) bo); [|lia]. }
    rewrite E in Hm |- *. exists io, hd, pl. cbn [fst snd] in *. rewrite app_nil_r, Z.sub_diag, Z.add_0_r.
    split_and!; [done|done|done|done|]. destruct Hpl; [by left|right]. pose proof (need_bo l Hm). lia.
Qed.

#[export] Instance field_implements max : max < 2 ^ 30 ->
  Implements (mk_setting (UNPACK_BY_LENGTH_FIELD bo lo lb adj coding) max) field_splitter.
Proof.
  intros Hmax. split; [|done]. intros io u r c Hp Hf Hc Hr Hr'. pose proof Hp as [P1 P2 P3 P4 P5 P6 P7 P8 P9 P10 P11].
  unfold hio_unpack. cbn [mode package_max_length]. unfold hio_unpack_by_length_field. rewrite P4. cbv zeta.
  rewrite Z.sub_0_r, <- zlen_app.
  destruct (field_loop_ok (Z.to_nat (zlen (r ++ c) + 1)) io u 0 (r ++ c) 0 bo bo (zlen (r ++ c))) as (io1 & h1 & pl & E & C & F & Hh & Hpl).
  { by eapply pending_holds. } { done. } { unfold zlen. lia. } { unfold hl_ok. by destruct coding. } { lia. } { by right. } { done. }
  rewrite Z.add_0_l in E. rewrite E. cbn [mbind option_bind].
  destruct (finish_ok _ io io1 (r ++ c) _ _ Hp C F I Hh (split_rest_length _)) as (io2 & -> & Hp2 & Hb2). cbn [mbind option_bind].
  set (r' := (split (r ++ c)).2) in *. pose proof (pd_fits _ _ _ Hp2) as F2. cbn in F2. cbn in P7.
  pose proof (zlen_nonneg r').
  destruct (negb (zlen r' =? 0) && (blen io2 <? pl)) eqn:Eb; [|do 2 eexists; split; [reflexivity|by left]].
  apply andb_true_iff in Eb as [_ Eb]. apply Z.ltb_lt in Eb. destruct (Z.ltb_spec max pl) as [Hm|Hm].
  - do 2 eexists. split; [reflexivity|]. right. split_and!; [apply close_over; apply Hp2|done|]. change (max_of _) with max. lia.
  - do 2 eexists. split; [reflexivity|]. left. apply alloc_ok; [done| |cbn; lia| |done]; unfold LIMIT; cbn [max_of package_max_length]; zcases.
Qed.
End Field.

(** * Streams *)

(** An io that has just been readied: it uses the loop's buffer, which is empty. *)
Record fresh (io : hio) : Prop := mk_fresh {
  fr_open : closed io = false /\ async_close io = false;
  fr_empty : head io = 0 /\ tail io = 0;
  fr_plain : setting io = None /\ alloced_readbuf io = false /\ read_flags io = 0 }.

Lemma install_ok io s n : fresh io -> 0 < n <= max_of s -> max_of s < 2 ^ 30 -> 
  (match mode s with UNPACK_BY_FIXED_LENGTH k => n = k | _ => True end) ->
  let io' := hio_alloc_readbuf (io.[setting := Some s].[blen := n].[max_read_bufsize := package_max_length s]) n in
  pending s io' [] /\ zlen (@nil Z) < blen io'.
Proof.
  intros [[F1 F2] [F3 F4] (F5 & F6 & F7)] Hn Hm Hx. unfold hio_alloc_readbuf.
  change (max_read_bufsize (_.[max_read_bufsize := _])) with (max_of s). rewrite u32_small by lia.
  destruct (Z.ltb_spec (max_of s) n); [lia|].
  change (alloced_readbuf (_.[max_read_bufsize := _])) with (alloced_readbuf io). rewrite F6. cbv zeta. split; [|rewrite zlen_nil; cbn; lia].
  split; try done.
  - cbn. unfold zlen. rewrite length_replicate. lia.
  - cbn. rewrite zlen_nil. lia.
  - unfold fixed_extra. by destruct (mode s).
Qed.

Lemma set_unpack_ok io s : fresh io -> 0 < max_of s < 2 ^ 30 ->
  (match mode s with
   | UNPACK_BY_FIXED_LENGTH n => 0 < n <= max_of s
   | UNPACK_BY_LENGTH_FIELD bo lo lb _ _ => lo + lb <= bo
   | _ => True end) ->
  exists io', hio_set_unpack io (Some s) = Some io' /\ pending s io' [] /\ zlen (@nil Z) < blen io'.
Proof.
  intros Hf Hm Hx. unfold hio_set_unpack, hio_unset_unpack. rewrite (proj1 (fr_plain _ Hf)). destruct s as [md mx].
  cbn [mode package_max_length max_of] in *. unfold max_of in *. cbn [package_max_length] in *.
  destruct (Z.eqb_spec mx 0) as [|_]; [lia|]. cbv zeta.
  destruct md as [|n|d|bo lo lb adj c].
  - eexists. split; [reflexivity|]. apply install_ok; [done|unfold HLOOP_READ_BUFSIZE, max_of; cbn [package_max_length]; lia|unfold max_of; cbn [package_max_length]; lia|done].
  - destruct (Z.eqb_spec n 0) as [|_]; [lia|]. cbn [negb andb]. destruct (Z.leb_spec n mx); [|lia].
    eexists. split; [reflexivity|]. apply install_ok; [done|unfold HLOOP_READ_BUFSIZE, max_of; cbn [package_max_length]; lia|unfold max_of; cbn [package_max_length]; lia|done].
  - eexists. split; [reflexivity|]. apply install_ok; [done|unfold HLOOP_READ_BUFSIZE, max_of; cbn [package_max_length]; lia|unfold max_of; cbn [package_max_length]; lia|done].
  - destruct (Z.leb_spec (lo + lb) bo); [|lia]. eexists. split; [reflexivity|]. apply install_ok; [done|unfold HLOOP_READ_BUFSIZE, max_of; cbn [package_max_length]; lia|unfold max_of; cbn [package_max_length]; lia|done].
Qed.

(** The io after [hio_set_unpack], fed a stream by any sequence of [recv]s. *)
Definition receive (io : hio) (s : unpack_setting_t) (stream : list Z) (ns : list nat) : option (hio * list (list Z) * list Z) :=
  io ← hio_set_unpack io (Some s); pump io [] stream ns.

Lemma receive_ok io s SP (I : Implements s SP) stream ns : fresh io -> 0 < max_of s < 2 ^ 30 ->
  (match mode s with
   | UNPACK_BY_FIXED_LENGTH n => 0 < n <= max_of s
   | UNPACK_BY_LENGTH_FIELD bo lo lb _ _ => lo + lb <= bo
   | _ => True end) -> sound SP stream ->
  exists io' got rest, receive io s stream ns = Some (io', (split got).1, rest) /\ stream = got ++ rest /\
    ((pending s io' (split got).2 /\ 0 < read_room io') \/
     (over io' /\ may_give_up s /\ max_of s < 2 * need (split got).2)).
Proof.
  intros Hf Hm Hx Hs. destruct (set_unpack_ok io s Hf Hm Hx) as (io1 & E & Hp & Hr). unfold receive. rewrite E. cbn [mbind option_bind].
  assert (split [] = ([], [])) as Es by done.
  destruct (pump_ok s SP ltac:(lia) ns [] stream io1) as (io2 & got & rest & E2 & Eg & Hres); [by rewrite Es|by rewrite Es|done|].
  rewrite Es in E2. exists io2, got, rest. split_and!; [done|done|]. destruct Hres as [[H1 H2]|H]; [left|by right].
  split; [done|]. unfold read_room. rewrite (pd_flags _ _ _ H1), (pd_tail _ _ _ H1). change (has_flag 0 HIO_READ_UNTIL_LENGTH) with false. cbv iota.
  pose proof (pd_fits _ _ _ H1). pose proof (zlen_nonneg (split got).2). rewrite i32_small; lia.
Qed.

Lemma sound_total SP stream : (forall l, cut (Splitter := SP) l <> Fail) -> sound SP stream.
Proof.
  intros Hn a b _. pose proof (split_rest (length a) a ltac:(done)) as Hr. specialize (Hn (split a).2).
  destruct (cut (split a).2) as [k| |] eqn:E; [by destruct (Hr k)|done|done].
Qed.

(** Fixed-length unpacking: however the stream is received, the packages
    given to the callback are its consecutive blocks of the fixed length, what is
    left is kept for the next read, there is always room to read, and the io is
    never given up. *)
Lemma unpack_fixed_stream io n max stream ns (Hn : 0 < n) : fresh io -> n <= max < 2 ^ 30 ->
  exists io' got rest,
    receive io (mk_setting (UNPACK_BY_FIXED_LENGTH n) max) stream ns = Some (io', (split (H := fixed_splitter n Hn) got).1, rest) /\
    stream = got ++ rest /\ zlen (split (H := fixed_splitter n Hn) got).2 < n /\
    pending (mk_setting (UNPACK_BY_FIXED_LENGTH n) max) io' (split (H := fixed_splitter n Hn) got).2 /\ 0 < read_room io'.
Proof.
  intros Hf Hm. destruct (receive_ok io (mk_setting (UNPACK_BY_FIXED_LENGTH n) max) _ (fixed_implements n Hn max) stream ns)
    as (io' & got & rest & E & Eg & Hres); [done|cbn; lia|cbn; lia| |].
  { apply sound_total. intros l. cbn. by destruct (n <=? zlen l). }
  exists io', got, rest. destruct Hres as [[H1 H2]|(_ & [] & _)]. split_and!; [done|done| |done|done].
  pose proof (split_rest (H := fixed_splitter n Hn) (length got) got ltac:(done)) as Hr. cbn in Hr.
  destruct (Z.leb_spec n (zlen (split (H := fixed_splitter n Hn) got).2)); [by destruct (Hr _ eq_refl)|done].
Qed.
Definition io0 : hio :=
  mk_hio (replicate 64 0) false 64 0 0 0 0 (2 ^ 24) 0 false None false false 0 false true true (replicate 64 0).
Lemma fresh0 : fresh io0.
Proof. by split. Qed.
Lemma unpack_fixed_stream_witness : exists io' got rest,
  receive io0 (mk_setting (UNPACK_BY_FIXED_LENGTH 3) 64) [1; 2; 3; 4; 5; 6; 7] [0; 5; 5]%nat
    = Some (io', (split (H := fixed_splitter 3 eq_refl) got).1, rest) /\
  [1; 2; 3; 4; 5; 6; 7] = got ++ rest /\ zlen (split (H := fixed_splitter 3 eq_refl) got).2 < 3 /\
  pending (mk_setting (UNPACK_BY_FIXED_LENGTH 3) 64) io' (split (H := fixed_splitter 3 eq_refl) got).2 /\ 0 < read_room io'.
Proof. apply (unpack_fixed_stream io0 3 64 [1; 2; 3; 4; 5; 6; 7] [0; 5; 5]%nat eq_refl); [exact fresh0|split; [discriminate|reflexivity]]. Defined.

(** C16. Delimiter unpacking: however the stream is received, the packages given
    to the callback are its segments up to and including each occurrence of the
    delimiter, searched from the left, also when a delimiter is split between
    reads; the rest, which holds no delimiter, is kept; there is always room to
    read, unless what is pending exceeds half of the maximum and the io is given
    up. *)
Theorem unpack_delimiter_stream io d max stream ns (Hd : d <> []) : fresh io -> 0 < max < 2 ^ 30 ->
  let s := mk_setting (UNPACK_BY_DELIMITER d) max in
  let cuts := split (H := delim_splitter d Hd) in
  exists io' got rest, receive io s stream ns = Some (io', (cuts got).1, rest) /\ stream = got ++ rest /\
    find d (cuts got).2 = None /\
    ((pending s io' (cuts got).2 /\ 0 < read_room io') \/ (over io' /\ max < 2 * (zlen (cuts got).2 + 1))).
Proof.
  intros Hf Hm s cuts. destruct (receive_ok io s _ (delim_implements d Hd max (proj2 Hm)) stream ns)
    as (io' & got & rest & E & Eg & Hres); [done|done|done| |].
  { apply sound_total. intros l. cbn. by destruct (find d l). }
  exists io', got, rest. split_and!; [done|done| |destruct Hres as [H|(H1 & _ & H2)]; [by left|by right]].
  pose proof (split_rest (H := delim_splitter d Hd) (length got) got ltac:(done)) as Hr. cbn in Hr. fold cuts in Hr.
  destruct (find d (cuts got).2) as [i|]; [|done]. by destruct (Hr _ eq_refl).
Qed.
Lemma crlf : [13; 10] <> []. Proof. discriminate. Qed.
Lemma unpack_delimiter_stream_witness :
  let s := mk_setting (UNPACK_BY_DELIMITER [13; 10]) 64 in
  let cuts := split (H := delim_splitter [13; 10] crlf) in
  exists io' got rest, receive io0 s [97; 13; 10; 98; 13; 13; 10; 99] [1; 0; 9]%nat = Some (io', (cuts got).1, rest) /\
    [97; 13; 10; 98; 13; 13; 10; 99] = got ++ rest /\ find [13; 10] (cuts got).2 = None /\
    ((pending s io' (cuts got).2 /\ 0 < read_room io') \/ (over io' /\ 64 < 2 * (zlen (cuts got).2 + 1))).
Proof.
  apply (unpack_delimiter_stream io0 [13; 10] 64 [97; 13; 10; 98; 13; 13; 10; 99] [1; 0; 9]%nat crlf);
    [exact fresh0|split; reflexivity].
Defined.

(** C17. Length-field unpacking, for big- and little-endian, varint and ASN.1
    lengths: however the stream is received, the packages given to the callback
    are cut where the header of each says, as long as the headers are sound (no
    malformed length, no announced length that is 0 modulo 2^32); what is left is
    kept for the next read, with room to read, unless the pending package needs
    more than half of the maximum and the io is given up. *)
Theorem unpack_field_stream io bo lo lb adj coding max stream ns (H1 : 0 <= lo) (H2 : 0 < lb) (H3 : lo + lb <= bo < 2 ^ 16) :
  fresh io -> 0 < max < 2 ^ 30 ->
  let s := mk_setting (UNPACK_BY_LENGTH_FIELD bo lo lb adj coding) max in
  let SP := field_splitter bo lo lb adj coding H1 H2 H3 in
  sound SP stream ->
  exists io' got rest, receive io s stream ns = Some (io', (split (H := SP) got).1, rest) /\ stream = got ++ rest /\
    ((pending s io' (split (H := SP) got).2 /\ 0 < read_room io') \/
     (over io' /\ max < 2 * field_need bo lo lb adj coding (split (H := SP) got).2)).
Proof.
  intros Hf Hm s SP Hs. destruct (receive_ok io s SP (field_implements bo lo lb adj coding H1 H2 H3 max (proj2 Hm)) stream ns)
    as (io' & got & rest & E & Eg & Hres); [done|done|cbn; lia|done|].
  exists io', got, rest. split_and!; [done|done|]. destruct Hres as [H|(Ha & _ & Hb)]; [by left|by right].
Qed.

Lemma g1 : 0 <= 1. Proof. lia. Qed.
Lemma g2 : 0 < 1. Proof. lia. Qed.
Lemma g3 : 1 + 1 <= 2 < 2 ^ 16. Proof. lia. Qed.
Definition mqtt_splitter : Splitter := field_splitter 2 1 1 0 ENCODE_BY_VARINT g1 g2 g3.
(** Soundness of a concrete stream is checked on its prefixes. *)
Lemma sound_check SP stream :
  forallb (fun k => match cut (Splitter := SP) (split (H := SP) (take k stream)).2 with More => true | _ => false end) (seq 0 (S (length stream))) = true ->
  sound SP stream.
Proof.
  rewrite forallb_forall. intros H a b E. specialize (H (length a)). rewrite E in H.
  rewrite take_app_length in H. specialize (H ltac:(apply in_seq; rewrite length_app; lia)). by destruct (cut _).
Qed.
Lemma unpack_field_stream_witness :
  let s := mk_setting (UNPACK_BY_LENGTH_FIELD 2 1 1 0 ENCODE_BY_VARINT) 64 in
  exists io' got rest, receive io0 s [48; 2; 7; 8; 48; 129; 1] [2; 9]%nat = Some (io', (split (H := mqtt_splitter) got).1, rest) /\
    [48; 2; 7; 8; 48; 129; 1] = got ++ rest /\
    ((pending s io' (split (H := mqtt_splitter) got).2 /\ 0 < read_room io') \/
     (over io' /\ 64 < 2 * field_need 2 1 1 0 ENCODE_BY_VARINT (split (H := mqtt_splitter) got).2)).
Proof.
  apply (unpack_field_stream io0 2 1 1 0 ENCODE_BY_VARINT 64 [48; 2; 7; 8; 48; 129; 1] [2; 9]%nat g1 g2 g3);
    [exact fresh0|split; reflexivity|]. apply sound_check. reflexivity.
Defined.

(** * What goes wrong *)

Lemma read_cb_empty io u p : read_flags io = 0 -> closed io = false -> freed io = false -> 0 <= p <= zlen (mem io) ->
  exists io' u', hio_read_cb cb io u p 0 = Some (io', u') /\ core io = core io' /\ read_flags io' = 0.
Proof.
  intros Hr Hc Hf Hp. assert (holds_at io p []) as Hh.
  { split_and!; [done|done|lia|]. change (zlen []) with 0. unfold zslice. zcases. done. }
  destruct (read_cb_ok io u p [] 0 Hh ltac:(done)) as (io' & E & C & F & _). exists io', (u ++ [take 0 []]). split_and!; [done|done|by apply F].
Qed.

(** C37. An announced length whose total is 0 modulo 2^32 makes the length-field
    unpacker loop for ever: with a 5-byte head holding a 4-byte big-endian length
    (the recommended setting), a header of FF FF FF FB announces 2^32 - 5 bytes,
    the package length wraps to 0, and no number of iterations is enough. *)
Theorem unpack_zero_length_hangs fuel io u p l flag hd pl :
  holds_at io p l -> read_flags io = 0 -> take 5 l = [flag; 255; 255; 255; 251] ->
  field_loop cb fuel io u 5 1 4 0 ENCODE_BY_BIG_ENDIAN p (p + zlen l) (zlen l) hd 5 pl = None.
Proof.
  intros Hh Hr Hl. assert (5 <= zlen l) as H5.
  { apply (f_equal length) in Hl. rewrite length_take in Hl. change (length [_; _; _; _; _]) with 5%nat in Hl. unfold zlen. lia. }
  revert io u hd pl Hh Hr. induction fuel as [|fuel IH]; intros io u hd pl Hh Hr; cbn [field_loop];
    (destruct (Z.leb_spec 5 (zlen l)); [|lia]); [done|].
  assert (1 + 4 <= 5 < 2 ^ 16) as Hb by lia. rewrite (length_field_ok 5 1 4 ENCODE_BY_BIG_ENDIAN ltac:(lia) ltac:(lia) Hb io p l 5 Hh H5 eq_refl). unfold field_of.
  assert (take (Z.to_nat 4) (drop (Z.to_nat 1) l) = [255; 255; 255; 251]) as ->.
  { change (Z.to_nat 4) with 4%nat. change (Z.to_nat 1) with 1%nat. destruct l as [|a l]; [done|]. cbn in Hl |- *. by injection Hl as _ Hl. }
  cbn [mbind option_bind]. cbv zeta. change (u32 (5 + be_value [255; 255; 255; 251] + 0)) with 0.
  destruct (Z.leb_spec 0 (zlen l)); [|lia].
  destruct (holds_split io p l Hh) as (pre & post & Em & Ep). pose proof (zlen_nonneg pre). pose proof (zlen_nonneg l). pose proof (zlen_nonneg post).
  destruct (read_cb_empty io u p) as (io' & u' & -> & C & F); [done|apply Hh|apply Hh|rewrite Em, !zlen_app; lia|].
  cbn [mbind option_bind]. rewrite Z.add_0_r, Z.sub_0_r. apply IH; [|done]. by apply (holds_core io).
Qed.
Lemma unpack_zero_length_hangs_witness :
  field_loop cb 1000 (io0.[mem := [1; 255; 255; 255; 251; 0]]) [] 5 1 4 0 ENCODE_BY_BIG_ENDIAN 0 5 5 0 5 5 = None.
Proof.
  apply (unpack_zero_length_hangs 1000 (io0.[mem := [1; 255; 255; 255; 251; 0]]) [] 0 [1; 255; 255; 255; 251] 1);
    [repeat split; discriminate|reflexivity|reflexivity].
Defined.

(** [hio_close] closes at once, instead of waiting for the write queue. *)
Definition closes_now (io : hio) : Prop := write_queue_empty io = true \/ error io <> 0 \/ close_later io = true.

(** A callback that closes the io frees the buffer the unpacker reads. *)
Lemma read_cb_closes {U} (f : U -> list Z -> U * bool) io u u' p l k : holds_at io p l -> (k <= length l)%nat ->
  alloced_readbuf io = true -> closes_now io -> f u (take k l) = (u', true) ->
  exists io', hio_read_cb (Some f) io u p (Z.of_nat k) = Some (io', u') /\ freed io' = true /\ closed io' = true.
Proof.
  intros (H1 & H2 & H3 & H4) Hk Ha Hc Hf. destruct (zslice_split _ _ _ k H3 Hk H4) as [E _]. unfold hio_read_cb.
  set (io1 := if has_flag _ _ then _ else io).
  assert (core io = core io1 /\ (write_queue_empty io1 = write_queue_empty io /\ error io1 = error io /\ close_later io1 = close_later io))
    as [Ec (W & Er & Cl)] by (unfold io1; by destruct (has_flag _ _)).
  pose proof (core_fields _ _ Ec) as (C1 & C2 & _ & _ & _ & C6 & C7 & _). rewrite <- C7, H2. unfold held. rewrite <- C1, <- C2, H1, E.
  cbn [mbind option_bind]. rewrite Hf. unfold hio_close. rewrite <- C7, H2, W, Er, Cl.
  assert (negb (write_queue_empty io) && (error io =? 0) && negb (close_later io) = false) as ->.
  { destruct Hc as [-> | [He | ->]]; [done| |by rewrite andb_false_r]. rewrite (proj2 (Z.eqb_neq _ _) He). by rewrite andb_false_r. }
  unfold hio_free_readbuf. change (alloced_readbuf (_.[reading := _])) with (alloced_readbuf io1). rewrite <- C6, Ha. by eexists.
Qed.

(** The bytes before the first delimiter are passed over one by one. *)
Lemma delim_scan {U} (f : option (U -> list Z -> U * bool)) d io u sp l i h fuel : find d l = Some i -> holds_at io sp l ->
  forall n j, (j + n = i)%nat ->
  delim_loop f (n + fuel) io u d sp (sp + Z.of_nat j) (zlen l - Z.of_nat j) h
  = delim_loop f fuel io u d sp (sp + Z.of_nat i) (zlen l - Z.of_nat i) h.
Proof.
  intros Hf Hh. apply find_Some in Hf as (_ & Hi & Hno). induction n as [|n IH]; intros j Hj.
  { by replace j with i by lia. }
  cbn [Nat.add delim_loop]. cbv zeta. destruct (Z.leb_spec (zlen d) (zlen l - Z.of_nat j)); [|unfold zlen in *; lia].
  rewrite (matches_ok io d _ (drop j l)) by (rewrite ?length_drop; first [lia | apply holds_drop; [lia|done]]).
  cbn [mbind option_bind]. rewrite Hno by lia. rewrite <- (IH (S j)) by lia. f_equal; lia.
Qed.

(** Through a pointer into the freed buffer nothing can be read. *)
Lemma matches_freed io p d : freed io = true -> d <> [] -> matches io p d = None.
Proof. intros Hf Hd. destruct d; [done|]. cbn. unfold held_byte. by rewrite Hf. Qed.
Lemma keep_rest_freed io p n : freed io = true -> 0 < n -> keep_rest io p n = None.
Proof.
  intros Hf Hn. unfold keep_rest. cbv zeta. change (freed (_.[tail := _])) with (freed io).
  destruct (Z.eqb_spec n 0); [lia|]. rewrite Hf, andb_false_r. unfold held. change (freed (_.[tail := _])) with (freed io). by rewrite Hf.
Qed.

(** C38. A callback that closes the io while more bytes are pending leaves the delimiter
    unpacker with pointers into the freed buffer. Whatever the application, when the
    bytes held are a first package, its delimiter and at least one byte more, and the
    callback closes on that package, the loop goes on after it with the buffer freed,
    and its next access, the comparison of the next bytes with the delimiter or the
    move of the bytes left to the front, reads the freed buffer: that access has no
    result, and so has the whole call. *)
Theorem close_in_callback_uses_freed {U} (f : U -> list Z -> U * bool) io u u' d max pkg rest r :
  d <> [] -> rest <> [] -> let l := pkg ++ d ++ rest in let k := (length pkg + length d)%nat in
  find d l = Some (length pkg) -> (r < k)%nat -> holds_at io (head io) l ->
  alloced_readbuf io = true -> closes_now io -> f u (pkg ++ d) = (u', true) ->
  exists io', let p := head io + Z.of_nat k in
    hio_read_cb (Some f) io u (head io) (Z.of_nat k) = Some (io', u') /\ freed io' = true /\ closed io' = true /\
    (forall fuel, delim_loop (Some f) (S (length pkg) + fuel) io u d (head io) (head io) (zlen l) 0
                  = delim_loop (Some f) fuel io' u' d p p (zlen rest) (Z.of_nat k)) /\
    (zlen d <= zlen rest -> matches io' p d = None) /\ keep_rest io' p (zlen rest) = None /\
    hio_unpack_by_delimiter (Some f) io u d max (head io + Z.of_nat r) (zlen l - Z.of_nat r) = None.
Proof.
  intros Hd Hrest l k Hfind Hr Hh Ha Hc Hf. pose proof (nonempty_pos d Hd) as Hd0. pose proof (nonempty_pos rest Hrest) as Hr0.
  assert (length l = k + length rest)%nat as Hl by (unfold l, k; rewrite !length_app; lia).
  assert (take k l = pkg ++ d) as Htk by (unfold k, l; rewrite app_assoc; apply take_app_length'; by rewrite length_app).
  destruct (read_cb_closes f io u u' (head io) l k Hh ltac:(lia) Ha Hc ltac:(by rewrite Htk)) as (io' & E & Hfr & Hcl).
  set (p := head io + Z.of_nat k).
  assert (forall i fuel, (i <= length pkg)%nat ->
    delim_loop (Some f) (S (length pkg - i) + fuel) io u d (head io) (head io + Z.of_nat i) (zlen l - Z.of_nat i) 0
    = delim_loop (Some f) fuel io' u' d p p (zlen rest) (Z.of_nat k)) as Hloop.
  { intros i fuel Hi. rewrite Nat.add_succ_comm, (delim_scan (Some f) d io u (head io) l (length pkg)) by (done || lia).
    cbn [delim_loop]. cbv zeta. destruct (Z.leb_spec (zlen d) (zlen l - Z.of_nat (length pkg))); [|unfold zlen, k in *; lia].
    rewrite (matches_ok io d _ (drop (length pkg) l)) by (rewrite ?length_drop; first [lia | apply holds_drop; [lia|done]]).
    apply find_Some in Hfind as (-> & _). cbn [mbind option_bind].
    replace (head io + Z.of_nat (length pkg) + zlen d) with p by (unfold p, k, zlen; lia).
    replace (p - head io) with (Z.of_nat k) by (unfold p; lia). rewrite E. cbn [mbind option_bind].
    f_equal; unfold zlen, k in *; lia. }
  assert (forall fuel, (delim_loop (Some f) fuel io' u' d p p (zlen rest) (Z.of_nat k)) = None \/
    delim_loop (Some f) fuel io' u' d p p (zlen rest) (Z.of_nat k) = Some (io', u', p, Z.of_nat k)) as Hnext.
  { intros [|fuel]; cbn [delim_loop]; destruct (zlen d <=? zlen rest); [by left|by right| |by right]. left. by rewrite matches_freed. }
  assert (0 < zlen rest) as Hz by (unfold zlen; lia).
  exists io'. fold p. split_and!; [done..| |intros _; by apply matches_freed|by apply keep_rest_freed|].
  { intros fuel. specialize (Hloop 0%nat fuel ltac:(lia)). rewrite Nat.sub_0_r, Z.add_0_r, Z.sub_0_r in Hloop. done. }
  unfold hio_unpack_by_delimiter. cbv zeta. set (i := Z.to_nat (Z.max 0 (Z.of_nat r - zlen d + 1))).
  assert ((if head io + Z.of_nat r - zlen d + 1 <? head io then head io else head io + Z.of_nat r - zlen d + 1) = head io + Z.of_nat i) as ->
    by (unfold i; zcases).
  assert (i <= length pkg)%nat as Hi by (unfold i, k, zlen in *; lia).
  replace (head io + Z.of_nat r + (zlen l - Z.of_nat r)) with (head io + zlen l) by lia.
  replace (head io + zlen l - (head io + Z.of_nat i)) with (zlen l - Z.of_nat i) by lia.
  replace (Z.to_nat (zlen l - Z.of_nat i + 1)) with (S (length pkg - i) + (length d + length rest))%nat by (unfold zlen, k in *; lia).
  rewrite (Hloop i (length d + length rest)%nat Hi).
  destruct (Hnext (length d + length rest)%nat) as [-> | ->]; [done|]. cbn [mbind option_bind].
  replace (head io + zlen l - p) with (zlen rest) by (unfold p, zlen; lia). by rewrite keep_rest_freed.
Qed.
Lemma close_in_callback_uses_freed_witness :
  let io := io0.[mem := [97; 10; 98; 10; 0]].[tail := 4].[alloced_readbuf := true].[write_queue_empty := true] in
  hio_unpack_by_delimiter (Some (fun (u : list (list Z)) b => (u ++ [b], true))) io [] [10] 64 0 4 = None /\
  hio_unpack_by_delimiter (Some (fun (u : list (list Z)) b => (u ++ [b], false))) io [] [10] 64 0 4 <> None.
Proof.
  split; [|discriminate].
  destruct (close_in_callback_uses_freed (fun (u : list (list Z)) b => (u ++ [b], true))
    (io0.[mem := [97; 10; 98; 10; 0]].[tail := 4].[alloced_readbuf := true].[write_queue_empty := true]) [] [[97; 10]] [10] 64 [97] [98; 10] 0)
    as (io' & _ & _ & _ & _ & _ & _ & H); [discriminate|discriminate|reflexivity|simpl; lia|repeat split; discriminate|reflexivity|left; reflexivity|reflexivity|].
  exact H.
Defined.

(** hio_read_until_delim looks one byte past the bytes received: a stale
    delimiter just after them is taken for one received, the callback gets it, and
    the head of the buffer passes its tail. *)
Theorem read_until_delim_stale io u a : read_flags io = 0 -> closed io = false -> head io = 0 -> tail io = 1 ->
  take 2 (mem io) = [a; 10] -> a <> 10 ->
  exists io', hio_read_until_delim cb io u 10 = Some (io', u ++ [[a; 10]], 2) /\ head io' = 2 /\ tail io' = 1.
Proof.
  intros Hr Hc Hh Ht Hm Ha. destruct (mem io) as [|b [|c m]] eqn:Em; try done. cbn in Hm. injection Hm as -> ->.
  set (io1 := io.[freed := false]). assert (mem io1 = a :: 10 :: m) as Em1 by done.
  assert (holds_at (io1.[head := 2]) 0 [a; 10]) as Hho.
  { split_and!; [done|done|done|]. change (mem (io1.[head := 2])) with (mem io). rewrite Em. apply (zslice_app [] [a; 10] m); done. }
  unfold hio_read_until_delim. fold io1. change (head io1) with (head io). change (tail io1) with (tail io). rewrite Hh, Ht.
  change (0 <? 1 - 0) with true. change (Z.to_nat (1 - 0 + 1)) with 2%nat. cbv iota. cbn [find_delim].
  unfold held_byte. change (freed io1) with false. rewrite Em1. cbv iota. rewrite zget_0. cbn [mbind option_bind].
  destruct (Z.eqb_spec a 10); [done|]. change (0 + 1) with 1. rewrite (zget_middle [a] 10 m) by done. cbn [mbind option_bind].
  rewrite Z.eqb_refl. cbn [mbind option_bind]. cbv zeta. change (0 + (1 - 0 + 1)) with 2. change (1 - 0 + 1) with 2.
  unfold reset_if_empty. change (head (io1.[head := 2])) with 2. change (tail (io1.[head := 2])) with (tail io). rewrite Ht. change (2 =? 1) with false. cbv iota.
  destruct (read_cb_ok (io1.[head := 2]) u 0 [a; 10] 2 Hho ltac:(simpl; lia)) as (io2 & E & C & _). change (Z.of_nat 2) with 2 in E.
  rewrite E. cbn [mbind option_bind]. exists io2. pose proof (core_fields _ _ C) as (_ & _ & _ & C4 & C5 & _). split_and!; [done|by rewrite <- C4|by rewrite <- C5].
Qed.
Lemma read_until_delim_stale_witness : exists io',
  hio_read_until_delim cb (io0.[mem := [97; 10; 0]].[tail := 1]) [] 10 = Some (io', [[97; 10]], 2) /\ head io' = 2 /\ tail io' = 1.
Proof. apply (read_until_delim_stale (io0.[mem := [97; 10; 0]].[tail := 1]) [] 97); first [reflexivity|discriminate]. Defined.

End ReadBufThm.
