(* ===== verification/WritePath.v ===== *)
(** The write path of a stream socket (event/nio.c): writing at once or queueing,
    flushing the queue when the socket is writable, closing now or after the
    flush; and what reaches the peer. *)
From S2P Require Import Prelude.

Module WritePath.

(** * State *)

(** [offset_buf_t]: the first [offset] bytes of [base] have been sent. *)
Record offset_buf := mk_buf { base : list Z; offset : Z }.
Definition buf_len (b : offset_buf) : Z := zlen (base b).

(** [wire] records the bytes the kernel has accepted, [posted_close] that
    [hio_close_async] has posted an event. *)
Record hio := mk_hio {
  write_queue : list offset_buf; write_bufsize : Z; max_write_bufsize : Z;
  closed : bool; close : bool; error : Z; want_write : bool; posted_close : bool; wire : list Z }.
#[global] Instance hio_rebuild : Rebuild hio :=
  fun r => mk_hio (write_queue r) (write_bufsize r) (max_write_bufsize r) (closed r) (close r) (error r)
    (want_write r) (posted_close r) (wire r).

Definition ERR_OVER_LIMIT : Z := 1022.

(** What [send] does with a buffer: takes at most [n] of its bytes; would block;
    fails. *)
Inductive send_result := Sent (n : nat) | Again | SendError (err : Z).

(** [__nio_write] of a TCP socket: the count and the io, or the errno. The results
    of the calls to come are an input; when they run out the call would block. Its
    length parameter is an [int], so that a [size_t] length is cut to 32 bits. *)
Inductive attempt := Wrote (nwrite : Z) (io : hio) | Blocked | Failed (err : Z).
Definition next (sends : list send_result) : send_result * list send_result :=
  match sends with [] => (Again, []) | r :: sends => (r, sends) end.
Definition nio_send (io : hio) (buf : list Z) (r : send_result) : attempt :=
  match r with
  | Sent n => let sent := take n (take (Z.to_nat (i32 (zlen buf))) buf) in Wrote (zlen sent) (io.[wire := wire io ++ sent])
  | Again => Blocked
  | SendError err => Failed err
  end.

(** * Operations *)

Definition hio_close_async (io : hio) : hio := io.[posted_close := true].
Definition hio_add_write (io : hio) : hio := io.[want_write := true].
Definition hio_del_write (io : hio) : hio := io.[want_write := false].

(** [hio_done]: the buffers of the queue are freed. *)
Definition hio_done (io : hio) : hio := (hio_del_write io).[write_queue := []].

(** [hio_close] on the loop's thread, of an io that is not being destroyed. *)
Definition hio_close (io : hio) : hio :=
  if closed io then io
  else if negb (bool_decide (write_queue io = [])) && (error io =? 0) && negb (close io) then io.[close := true]
  else hio_done (io.[closed := true]).

(** The timer of a close that waits for the flush, and the event of
    [hio_close_async] for an io whose [id] is still the same. *)
Definition ETIMEDOUT : Z := 110.
Definition close_timeout_cb (io : hio) : hio := hio_close (io.[error := ETIMEDOUT]).
Definition hio_close_event_cb (io : hio) : hio := hio_close io.

Section Callbacks.
(** The write callback: what the application keeps, and whether it closes the io. *)
Context {U : Type} (write_cb : option (U -> list Z -> U * bool)).
Implicit Types (io : hio) (u : U).

Definition hio_write_cb io u (bytes : list Z) : hio * U :=
  match write_cb with
  | Some cb => if closed io then (io, u) else let '(u, c) := cb u bytes in (if c : bool then hio_close io else io, u)
  | None => (io, u)
  end.

(** The end of [hio_write4] that gives the io up. *)
Definition write_error io u : hio * U * Z := (hio_close_async io, u, -1).

(** [enqueue]: what is not written is queued, or is too much. *)
Definition enqueue io u (buf : list Z) (nwrite : Z) : hio * U * Z :=
  let done io := let '(io, u) := if 0 <? nwrite then hio_write_cb io u (take (Z.to_nat nwrite) buf) else (io, u) in (io, u, nwrite) in
  if nwrite <? zlen buf then
    let unwritten_len := zlen buf - nwrite in
    if max_write_bufsize io <? write_bufsize io + unwritten_len then write_error (io.[error := ERR_OVER_LIMIT]) u
    else
      let remain := mk_buf (drop (Z.to_nat nwrite) buf) 0 in
      done (io.[write_queue := write_queue io ++ [remain]].[write_bufsize := u32 (write_bufsize io + unwritten_len)])
  else done io.

Definition hio_write4 io u (buf : list Z) (sends : list send_result) : hio * U * Z * list send_result :=
  if closed io then (io, u, -1, sends)
  else if bool_decide (write_queue io = []) then
    let '(r, sends) := next sends in
    match nio_send io buf r with
    | Blocked => (enqueue (hio_add_write io) u buf 0, sends)
    | Failed err => (write_error (io.[error := err]) u, sends)
    | Wrote nwrite io =>
        if nwrite =? zlen buf then (enqueue io u buf nwrite, sends)
        else if nwrite =? 0 then (write_error io u, sends)
        else (enqueue (hio_add_write io) u buf nwrite, sends)
    end
  else (enqueue io u buf 0, sends).

(** [nio_write]: the queue is sent from its front until the socket would block;
    then an io that waits to be closed is closed. [None] is the freeing of a buffer
    the callback has already freed. *)
Fixpoint nio_write (fuel : nat) io u (sends : list send_result) : option (hio * U * list send_result) :=
  match write_queue io with
  | [] => Some (if close io then hio_close (io.[close := false]) else io, u, sends)
  | pbuf :: rest =>
      match fuel with
      | O => None
      | S fuel =>
          let buf := drop (Z.to_nat (offset pbuf)) (base pbuf) in
          let '(r, sends) := next sends in
          match nio_send io buf r with
          | Blocked => Some (io, u, sends)
          | Failed err => Some (hio_close (io.[error := err]), u, sends)
          | Wrote nwrite io =>
              if nwrite =? 0 then Some (hio_close io, u, sends)
              else
                let pbuf := mk_buf (base pbuf) (offset pbuf + nwrite) in
                let io := io.[write_queue := pbuf :: rest].[write_bufsize := u32 (write_bufsize io - nwrite)] in
                let '(io, u) := hio_write_cb io u (take (Z.to_nat nwrite) buf) in
                if nwrite =? zlen buf then
                  match write_queue io with
                  | [] => None
                  | _ :: rest =>
                      let io := io.[write_queue := rest] in
                      if closed io then Some (io, u, sends) else nio_write fuel io u sends
                  end
                else Some (io, u, sends)
          end
      end
  end.

(** The writable half of [hio_handle_events], for an io that is not connecting. *)
Definition handle_writable io u (sends : list send_result) : option (hio * U * list send_result) :=
  if want_write io then
    let io := if bool_decide (write_queue io = []) then hio_del_write io else io in
    nio_write (S (length sends)) io u sends
  else Some (io, u, sends).

End Callbacks.
End WritePath.
