(* ===== verification/WritePathThm.v ===== *)
(** What the write path promises: bytes reach the wire once and in order, a close
    waits for them, and the queue drains while the socket takes bytes. *)
From S2P Require Import Prelude WritePath.

Module WritePathThm.
Import WritePath.

(** * Runs of the application and the socket *)

(** The application writes and closes; the loop reports the socket writable, the
    close timer or a posted close. [sends] is what the kernel answers. *)
Inductive op :=
| Write (buf : list Z) (sends : list send_result)
| Writable (sends : list send_result)
| Close | CloseTimeout | CloseEvent.

(** The bytes queued and not yet sent. *)
Definition unsent (b : offset_buf) : list Z := drop (Z.to_nat (offset b)) (base b).
Definition pending (io : hio) : list Z := concat (map unsent (write_queue io)).

Definition init_io (max : Z) : hio := mk_hio [] 0 max false false 0 false false [].

Section Runs.
Context {U : Type} (write_cb : option (U -> list Z -> U * bool)).

(** The third part collects the data of the writes that returned no error. *)
Definition state : Type := hio * U * list Z.
Definition step (s : state) (o : op) : option state :=
  let '(io, u, accepted) := s in
  match o with
  | Write buf sends =>
      let '(io, u, r, _) := hio_write4 write_cb io u buf sends in
      Some (io, u, if 0 <=? r then accepted ++ buf else accepted)
  | Writable sends => '(io, u, _) ← handle_writable write_cb io u sends; Some (io, u, accepted)
  | Close => Some (hio_close io, u, accepted)
  | CloseTimeout => Some (close_timeout_cb io, u, accepted)
  | CloseEvent => Some (hio_close_event_cb io, u, accepted)
  end.
Fixpoint run (s : state) (ops : list op) : option state :=
  match ops with [] => Some s | o :: ops => s ← step s o; run s ops end.
End Runs.

(** Buffers fit the [int] that [__nio_write] takes; a failed [send] sets [errno]. *)
Definition op_ok (o : op) : Prop :=
  match o with Write buf _ => zlen buf < 2147483648 | Writable sends => SendError 0 ∉ sends | _ => True end.

(** * Invariant *)

Definition buf_ok (b : offset_buf) : Prop := 0 <= offset b < zlen (base b) /\ zlen (base b) < 2147483648.

Record wf (io : hio) : Prop := {
  wf_bufs : Forall buf_ok (write_queue io);
  wf_max : zlen (pending io) <= max_write_bufsize io < 4294967296;
  wf_open : if closed io then write_queue io = [] else
    write_bufsize io = zlen (pending io) /\ (close io = true -> write_queue io <> []);
  wf_interest : write_queue io <> [] -> want_write io = true }.

(** Nothing has failed so far. *)
Definition healthy (io : hio) : Prop := error io = 0 /\ posted_close io = false.

(** A callback that only records: [log] is what it was told. *)
Class Recorder {U} (cb : U -> list Z -> U * bool) (log : U -> list Z) : Prop := {
  recorder_log u b : log (cb u b).1 = log u ++ b;
  recorder_open u b : (cb u b).2 = false }.

Section Inv.
Context {U : Type} {cb : U -> list Z -> U * bool} {log : U -> list Z}.

(** What is on the wire, then what is queued, is what was accepted; only a forced
    close loses bytes. *)
Record Inv (s : state (U:=U)) : Prop := {
  inv_wf : wf s.1.1;
  inv_stream : healthy s.1.1 -> log s.1.2 = wire s.1.1 /\
    exists lost, wire s.1.1 ++ pending s.1.1 ++ lost = s.2 /\ (closed s.1.1 = false -> lost = []) }.

Context `{HR : !Recorder cb log}.

Lemma hio_write_cb_rec io u b : closed io = false ->
  exists u', hio_write_cb (Some cb) io u b = (io, u') /\ log u' = log u ++ b.
Proof.
  intros Hc. unfold hio_write_cb. rewrite Hc. pose proof (recorder_log u b) as Hl. pose proof (recorder_open u b) as Ho.
  destruct (cb u b) as [u' c]. cbn in *. subst c. eauto.
Qed.

Lemma hio_close_inv io u acc : Inv (io, u, acc) -> Inv (hio_close io, u, acc).
Proof.
  intros [W S]. unfold hio_close. destruct (closed io) eqn:Hc; [done|]. cbn [fst snd] in *.
  pose proof (wf_open _ W) as Ho. rewrite Hc in Ho.
  case_bool_decide as Hq; cbn [negb andb].
  - split; [|]; cbn [fst snd].
    + split; cbn; try done. pose proof (wf_max _ W); pose proof (zlen_nonneg (pending io)). rewrite zlen_nil. lia.
    + intros H. destruct (S H) as (Hl&lost&Hs&Hn). split; [done|]. exists lost. unfold pending in Hs. rewrite Hq in Hs. split; [done|].
      cbn. done.
  - destruct (error io =? 0) eqn:He; cbn [negb andb]; [destruct (close io) eqn:Hcl; cbn [negb andb]|].
    2: { split; cbn [fst snd]; [|exact S]. destruct W; split; cbn; rewrite ?Hc; done || tauto. }
    all: split; cbn [fst snd]; [split; cbn; try done; pose proof (wf_max _ W); pose proof (zlen_nonneg (pending io)); rewrite zlen_nil; lia|].
    all: intros H; destruct (S H) as (Hl&lost&Hs&_); split; [done|]; exists (pending io ++ lost); split; [cbn; done|done].
Qed.

(** Giving the io up leaves nothing to promise but the shape. *)
Lemma unhealthy_inv io u acc : wf io -> ~ healthy io -> Inv (io, u, acc).
Proof. by split. Qed.

Lemma wf_set_error io e : wf io -> wf (io.[error := e]).
Proof. by intros [? ? ? ?]; split. Qed.
Lemma wf_close_async io : wf io -> wf (hio_close_async io).
Proof. by intros [? ? ? ?]; split. Qed.
Lemma wf_add_write io : wf io -> wf (hio_add_write io).
Proof. by intros [? ? ? ?]; split. Qed.
Lemma wf_wire io w : wf io -> wf (io.[wire := w]).
Proof. by intros [? ? ? ?]; split. Qed.

Lemma write_error_inv io u acc : wf io -> Inv ((write_error io u).1.1, u, acc).
Proof. intros W. apply unhealthy_inv; [by apply wf_close_async|]. cbn. by intros [_ ?]. Qed.

Lemma pending_snoc q b : concat (map unsent (q ++ [b])) = concat (map unsent q) ++ unsent b.
Proof. rewrite map_app, concat_app. cbn. by rewrite app_nil_r. Qed.

(** [enqueue] after the first [nwrite] bytes went out, on an io that is ready for
    the rest. *)
Lemma enqueue_inv io u acc buf n : closed io = false -> wf io -> (n <= length buf)%nat -> zlen buf < 2147483648 ->
  ((n < length buf)%nat -> want_write io = true) ->
  (healthy io -> log u ++ take n buf = wire io /\ wire io ++ pending io ++ drop n buf = acc ++ buf) ->
  forall io' u' r, enqueue (Some cb) io u buf (Z.of_nat n) = (io', u', r) ->
  Inv (io', u', if 0 <=? r then acc ++ buf else acc).
Proof.
  intros Hc W Hn Hb Hw Hs io' u' r. unfold enqueue. cbv zeta.
  assert (Hd : forall io0, closed io0 = false -> exists u0, (if 0 <? Z.of_nat n then hio_write_cb (Some cb) io0 u (take (Z.to_nat (Z.of_nat n)) buf)
     else (io0, u)) = (io0, u0) /\ log u0 = log u ++ take n buf).
  { intros io0 H0. rewrite Nat2Z.id. destruct n; [exists u; rewrite take_0, app_nil_r; done|]. apply hio_write_cb_rec. done. }
  assert (Hnn : (0 <=? Z.of_nat n) = true) by lia.
  pose proof (wf_open _ W) as Ho. rewrite Hc in Ho. destruct Ho as [Hsz Hcl].
  pose proof (wf_max _ W) as Hm. pose proof (zlen_nonneg (pending io)) as Hp.
  destruct (Z.ltb_spec (Z.of_nat n) (zlen buf)); [destruct (Z.ltb_spec (max_write_bufsize io) (write_bufsize io + (zlen buf - Z.of_nat n)))|].
  - intros [= <- <- <-]. apply (write_error_inv (io.[error := ERR_OVER_LIMIT])). by apply wf_set_error.
  - match goal with |- context[if 0 <? Z.of_nat n then hio_write_cb _ ?i _ _ else _] =>
      destruct (Hd i Hc) as (u0&->&Hu0) end.
    intros [= <- <- <-]. rewrite Hnn. unfold zlen in *.
    set (q := mk_buf (drop (Z.to_nat (Z.of_nat n)) buf) 0).
    assert (Hq : unsent q = drop n buf) by (unfold q, unsent; cbn; rewrite Nat2Z.id; done).
    assert (Hbo : buf_ok q) by (unfold q, buf_ok, zlen; cbn; rewrite Nat2Z.id, length_drop; lia).
    split; cbn [fst snd].
    + split; cbn; unfold pending, zlen; cbn; rewrite ?pending_snoc, ?Hq, ?length_app, ?length_drop.
      * apply Forall_app. split; [apply W|by constructor].
      * unfold pending in *. lia.
      * rewrite Hc. split; [|intros _ E; by destruct (write_queue io)]. rewrite u32_small; unfold pending in *; lia.
      * intros _. apply Hw. lia.
    + intros Hh. destruct (Hs Hh) as [Hl Ha]. cbn. split; [congruence|]. exists []. unfold pending in *. cbn.
      rewrite pending_snoc, Hq, app_nil_r. done.
  - destruct (Hd io Hc) as (u0&->&Hu0). intros [= <- <- <-]. rewrite Hnn.
    split; [done|]. cbn [fst snd]. intros Hh. destruct (Hs Hh) as [Hl Ha]. split; [congruence|].
    exists []. rewrite drop_ge in Ha by (unfold zlen in *; lia). done.
Qed.

Lemma nio_send_small io buf n : zlen buf < 2147483648 ->
  nio_send io buf (Sent n) = Wrote (Z.of_nat (n `min` length buf)) (io.[wire := wire io ++ take n buf]).
Proof.
  intros Hb. cbn. pose proof (zlen_nonneg buf). rewrite i32_small by lia.
  unfold zlen. rewrite Nat2Z.id, (take_ge buf (length buf)) by done. by rewrite length_take.
Qed.

Lemma hio_write4_inv io u acc buf sends io' u' r sends' : zlen buf < 2147483648 -> Inv (io, u, acc) ->
  hio_write4 (Some cb) io u buf sends = (io', u', r, sends') -> Inv (io', u', if 0 <=? r then acc ++ buf else acc).
Proof.
  intros Hb [W S]. cbn [fst snd] in *. unfold hio_write4. destruct (closed io) eqn:Hc; [rewrite <- Hc in S; by intros [= <- <- <- <-]; split|].
  assert (Hs : healthy io -> log u = wire io /\ wire io ++ pending io = acc).
  { intros Hh. destruct (S Hh) as (?&lost&<-&Hl). rewrite (Hl eq_refl), app_nil_r. done. }
  case_bool_decide as Hq.
  - destruct (next sends) as [[n| |err] rest].
    + rewrite nio_send_small by done.
      assert (Hp : pending io = []) by (unfold pending; by rewrite Hq).
      set (k := (n `min` length buf)%nat). assert (Hk : take n buf = take k buf).
      { unfold k. destruct (decide (n <= length buf)%nat); [by rewrite Nat.min_l by lia|]. rewrite Nat.min_r by lia. by rewrite !take_ge by lia. }
      rewrite Hk. destruct (Z.of_nat k =? zlen buf) eqn:Ek; [|destruct (Z.of_nat k =? 0)].
      * intros [= E <-]. eapply (enqueue_inv (io.[wire := wire io ++ take k buf]) u acc buf k); try done.
        -- by apply wf_wire. -- lia. -- unfold zlen in *; lia.
        -- intros Hh. destruct (Hs Hh) as [-> Ha]. split; [done|]. change (pending _) with (pending io).
           rewrite Hp in *. cbn. rewrite <- Ha, app_nil_r, <- app_assoc, take_drop. done.
      * intros [= <- <- <- <-]. eapply (write_error_inv (io.[wire := _])). by apply wf_wire.
      * intros [= E <-]. eapply (enqueue_inv (hio_add_write (io.[wire := wire io ++ take k buf])) u acc buf k); try done.
        -- by apply wf_add_write, wf_wire. -- lia.
        -- intros Hh. destruct (Hs Hh) as [-> Ha]. split; [done|]. change (pending _) with (pending io).
           rewrite Hp in *. cbn. rewrite <- Ha, app_nil_r, <- app_assoc, take_drop. done.
    + intros [= E <-]. eapply (enqueue_inv (hio_add_write io) u acc buf 0); try done; [by apply wf_add_write|lia|].
      intros Hh. destruct (Hs Hh) as [-> Ha]. rewrite take_0, app_nil_r. split; [done|]. rewrite app_assoc. exact (f_equal (fun l => l ++ buf) Ha).
    + intros [= <- <- <- <-]. eapply (write_error_inv (io.[error := err])). by apply wf_set_error.
  - intros [= E <-]. eapply (enqueue_inv io u acc buf 0); try done; [lia|intros _; by apply W|].
    intros Hh. destruct (Hs Hh) as [-> Ha]. rewrite take_0, app_nil_r. split; [done|]. rewrite app_assoc. exact (f_equal (fun l => l ++ buf) Ha).
Qed.

(** Inside the loop of [nio_write] an io that waits to be closed may have an empty
    queue. *)
Definition core (io : hio) : hio := io.[close := false].

Lemma wf_core io : wf io -> wf (core io).
Proof. intros [B M O I]. split; try done. cbn. destruct (closed io); [done|]. by destruct O. Qed.
Lemma wf_of_core io : wf (core io) -> write_queue io <> [] -> wf io.
Proof. intros [B M O I] Hq. split; try done. cbn in O. destruct (closed io); [done|]. by destruct O. Qed.
Lemma Inv_to_core io u acc : Inv (io, u, acc) -> Inv (core io, u, acc).
Proof. intros [W S]. split; [by apply wf_core|done]. Qed.
Lemma Inv_of_core io u acc : Inv (core io, u, acc) -> write_queue io <> [] -> Inv (io, u, acc).
Proof. intros [W S] Hq. split; [by apply wf_of_core|done]. Qed.

(** The front buffer after [k] bytes more, and its removal when that is all of it. *)
Definition advance_front (io : hio) (b : offset_buf) (rest : list offset_buf) (k : nat) : hio :=
  io.[wire := wire io ++ take k (unsent b)].[write_queue := mk_buf (base b) (offset b + Z.of_nat k) :: rest]
    .[write_bufsize := u32 (write_bufsize io - Z.of_nat k)].
Definition retire (io : hio) (b : offset_buf) (rest : list offset_buf) : hio :=
  (advance_front io b rest (length (unsent b))).[write_queue := rest].

Lemma unsent_advance b k : 0 <= offset b -> unsent (mk_buf (base b) (offset b + Z.of_nat k)) = drop k (unsent b).
Proof. intros Ho. unfold unsent. cbn. rewrite drop_drop. f_equal. lia. Qed.

Lemma length_unsent b : buf_ok b -> Z.of_nat (length (unsent b)) = zlen (base b) - offset b.
Proof. intros [? ?]. unfold unsent, zlen in *. rewrite length_drop. lia. Qed.

Lemma pending_cons io b rest : write_queue io = b :: rest -> pending io = unsent b ++ concat (map unsent rest).
Proof. unfold pending. by intros ->. Qed.

(** The stream is the same before and after, [k] bytes further. *)
Lemma advance_stream io b rest k : buf_ok b -> write_queue io = b :: rest ->
  wire (advance_front io b rest k) ++ pending (advance_front io b rest k) = wire io ++ pending io.
Proof.
  intros [Ho _] Hq. rewrite (pending_cons _ _ _ Hq). unfold pending. cbn. rewrite unsent_advance by lia.
  rewrite <- (take_drop k (unsent b)) at 3. by rewrite <- !app_assoc.
Qed.
Lemma retire_stream io b rest : buf_ok b -> write_queue io = b :: rest ->
  wire (retire io b rest) ++ pending (retire io b rest) = wire io ++ pending io.
Proof.
  intros Hb Hq. rewrite (pending_cons _ _ _ Hq). unfold pending. cbn. rewrite take_ge by done. by rewrite <- app_assoc.
Qed.

Lemma front_facts io b rest : closed io = false -> wf (core io) -> write_queue io = b :: rest ->
  buf_ok b /\ Forall buf_ok rest /\
  zlen (unsent b) + zlen (concat (map unsent rest)) <= max_write_bufsize io < 4294967296 /\
  write_bufsize io = zlen (unsent b) + zlen (concat (map unsent rest)) /\ want_write io = true.
Proof.
  intros Hc [B M O I] Hq. change (pending (core io)) with (pending io) in *. rewrite (pending_cons _ _ _ Hq) in *.
  rewrite zlen_app in *. cbn in *. rewrite Hc, Hq in *. inversion B; subst. destruct O. by rewrite I.
Qed.

Lemma advance_wf io b rest k : closed io = false -> wf (core io) -> write_queue io = b :: rest -> (k < length (unsent b))%nat ->
  wf (advance_front io b rest k).
Proof.
  intros Hc W Hq Hk. destruct (front_facts io b rest Hc W Hq) as (Hb&Hr&M&Hs&Hi). pose proof (length_unsent _ Hb) as Hl. destruct Hb as [Ho Hz].
  pose proof (zlen_nonneg (concat (map unsent rest))).
  assert (Hp : zlen (pending (advance_front io b rest k)) = zlen (unsent b) - Z.of_nat k + zlen (concat (map unsent rest))).
  { unfold pending. cbn. rewrite zlen_app, unsent_advance by lia. unfold zlen. rewrite length_drop. lia. }
  split; rewrite ?Hp; cbn; rewrite ?Hc.
  - constructor; [split; cbn; lia|done].
  - unfold zlen in *. lia.
  - split; [|done]. rewrite u32_small; unfold zlen in *; lia.
  - done.
Qed.
Lemma retire_wf io b rest : closed io = false -> wf (core io) -> write_queue io = b :: rest -> wf (core (retire io b rest)).
Proof.
  intros Hc W Hq. destruct (front_facts io b rest Hc W Hq) as (Hb&Hr&M&Hs&Hi). pose proof (length_unsent _ Hb) as Hl.
  pose proof (zlen_nonneg (concat (map unsent rest))).
  assert (Hp : pending (core (retire io b rest)) = concat (map unsent rest)) by done.
  split; rewrite ?Hp; cbn; rewrite ?Hc.
  - done.
  - unfold zlen in *. lia.
  - split; [|done]. rewrite u32_small; unfold zlen in *; lia.
  - done.
Qed.

(** One pass of the loop. *)
Lemma nio_write_sent f io u sends b rest n : closed io = false -> write_queue io = b :: rest -> buf_ok b -> n <> O ->
  exists u' k, k = (n `min` length (unsent b))%nat /\ log u' = log u ++ take k (unsent b) /\
    nio_write (Some cb) (S f) io u (Sent n :: sends) =
    if decide (k = length (unsent b)) then nio_write (Some cb) f (retire io b rest) u' sends
    else Some (advance_front io b rest k, u', sends).
Proof.
  intros Hc Hq Hb Hn. pose proof (length_unsent _ Hb) as Hl. destruct Hb as [Ho Hz].
  set (k := (n `min` length (unsent b))%nat).
  assert (Hk : take n (unsent b) = take k (unsent b)).
  { unfold k. destruct (decide (n <= length (unsent b))%nat); [by rewrite Nat.min_l by lia|]. rewrite Nat.min_r by lia. by rewrite !take_ge by lia. }
  destruct (hio_write_cb_rec (advance_front io b rest k) u (take k (unsent b)) Hc) as (u'&Hcb&Hlog).
  exists u', k. split; [done|]. split; [done|].
  cbn [nio_write next]. rewrite Hq. cbv zeta. change (drop (Z.to_nat (offset b)) (base b)) with (unsent b).
  rewrite nio_send_small by (unfold zlen in *; lia). fold k. rewrite Hk, Nat2Z.id.
  assert (Hk0 : (Z.of_nat k =? 0) = false) by lia. rewrite Hk0.
  unfold advance_front in Hcb. cbn in Hcb |- *. rewrite Hcb. unfold zlen. case_decide as He.
  - rewrite (proj2 (Z.eqb_eq _ _)) by lia. cbn. rewrite Hc. unfold retire, advance_front. by rewrite <- He.
  - by rewrite (proj2 (Z.eqb_neq _ _)) by lia.
Qed.

Lemma Inv_retire io u u' acc b rest : closed io = false -> write_queue io = b :: rest -> log u' = log u ++ unsent b ->
  Inv (core io, u, acc) -> Inv (core (retire io b rest), u', acc).
Proof.
  intros Hc Hq Hu [W S]. split; [by apply retire_wf|]. cbn [fst snd] in *. intros Hh.
  destruct (S Hh) as (Hl&lost&Ha&Hn). specialize (Hn Hc) as ->.
  destruct (front_facts io b rest Hc W Hq) as (Hb&_). split; [cbn; rewrite take_ge by done; cbn in Hl; congruence|].
  exists []. split; [|done]. rewrite app_nil_r in *. rewrite <- Ha. exact (retire_stream io b rest Hb Hq).
Qed.
Lemma Inv_advance io u u' acc b rest k : closed io = false -> write_queue io = b :: rest -> log u' = log u ++ take k (unsent b) ->
  (k < length (unsent b))%nat -> Inv (core io, u, acc) -> Inv (advance_front io b rest k, u', acc).
Proof.
  intros Hc Hq Hu Hk [W S]. split; [by apply advance_wf|]. cbn [fst snd] in *. intros Hh.
  destruct (S Hh) as (Hl&lost&Ha&Hn). specialize (Hn Hc) as ->.
  destruct (front_facts io b rest Hc W Hq) as (Hb&_). split; [cbn in *; congruence|].
  exists []. split; [|done]. rewrite app_nil_r in *. rewrite <- Ha. exact (advance_stream io b rest k Hb Hq).
Qed.

Lemma nio_write_inv fuel : forall io u sends acc, (length sends < fuel)%nat -> SendError 0 ∉ sends ->
  closed io = false -> Inv (core io, u, acc) ->
  exists io' u' sends', nio_write (Some cb) fuel io u sends = Some (io', u', sends') /\ Inv (io', u', acc).
Proof.
  induction fuel as [|f IH]; intros io u sends acc Hf Hs Hc HI; [lia|].
  destruct (write_queue io) as [|b rest] eqn:Hq.
  { cbn. rewrite Hq. do 3 eexists. split; [reflexivity|]. destruct (close io) eqn:Hcl.
    - apply hio_close_inv, HI.
    - destruct HI as [W St]. split; [|done]. destruct W as [B M O I]. split; try done. cbn in O |- *. rewrite Hc in *. destruct O. by rewrite Hcl. }
  destruct HI as [W St]. destruct (front_facts io b rest Hc W Hq) as (Hb&_).
  assert (HI : Inv (io, u, acc)) by (apply Inv_of_core; [by split|by rewrite Hq]).
  destruct sends as [|[n| |e] sends].
  - cbn. rewrite Hq. eauto.
  - destruct n as [|n].
    + cbn. rewrite Hq. cbn. do 3 eexists. split; [reflexivity|]. rewrite app_nil_r. apply hio_close_inv. by destruct HI; split; destruct io.
    + destruct (nio_write_sent f io u sends b rest (S n) Hc Hq Hb ltac:(done)) as (u'&k&Hk&Hu&->). case_decide as He.
      * apply IH; [cbn in Hf; lia|set_solver|done|]. apply (Inv_retire _ u); try done. by rewrite Hu, take_ge by lia.
      * do 3 eexists. split; [reflexivity|]. apply (Inv_advance _ u); try done; lia.
  - cbn. rewrite Hq. eauto.
  - cbn. rewrite Hq. do 3 eexists. split; [reflexivity|]. apply hio_close_inv, unhealthy_inv; [apply wf_set_error, HI|].
    intros [He _]. cbn in He. subst e. set_solver.
Qed.

Lemma step_inv s o : op_ok o -> Inv s -> exists s', step (Some cb) s o = Some s' /\ Inv s'.
Proof.
  destruct s as [[io u] acc]. intros Ho HI. destruct o as [buf sends|sends| | |]; cbn [step].
  - destruct (hio_write4 _ _ _ _ _) as [[[io' u'] r] sends'] eqn:E. eexists. split; [reflexivity|].
    by eapply hio_write4_inv.
  - unfold handle_writable. destruct (want_write io) eqn:Hw; [|cbn; eauto].
    case_bool_decide as Hq.
    + destruct (closed io) eqn:Hc.
      { cbn. rewrite Hq. eexists. split; [reflexivity|].
        assert (HJ : Inv (hio_del_write io, u, acc)) by (destruct HI as [[B M O I] S]; split; [split|]; done).
        destruct (close io); [|done]. cbn. unfold hio_close. cbn. rewrite Hc. by apply (Inv_to_core (hio_del_write io)). }
      destruct (nio_write_inv (S (length sends)) (hio_del_write io) u sends acc) as (io'&u'&s'&->&HJ); [lia|done|done| |cbn; eauto].
      apply (Inv_to_core (hio_del_write io)). destruct HI as [[B M O I] S]; split; [split|]; done.
    + assert (Hc : closed io = false).
      { pose proof (wf_open _ (inv_wf _ HI)) as O. cbn in O. by destruct (closed io). }
      destruct (nio_write_inv (S (length sends)) io u sends acc) as (io'&u'&s'&->&HJ); [lia|done|done| |cbn; eauto].
      by apply Inv_to_core.
  - eexists. split; [reflexivity|]. by apply hio_close_inv.
  - eexists. split; [reflexivity|]. apply hio_close_inv, unhealthy_inv; [apply wf_set_error, HI|]. by intros [? _].
  - eexists. split; [reflexivity|]. by apply hio_close_inv.
Qed.

Lemma run_inv s ops : Forall op_ok ops -> Inv s -> exists s', run (Some cb) s ops = Some s' /\ Inv s'.
Proof.
  intros Ho. revert s. induction Ho as [|o ops Ho _ IH]; intros s HI; [cbn; eauto|].
  destruct (step_inv s o Ho HI) as (s'&Hs&HJ). cbn [run]. rewrite Hs. by apply IH.
Qed.

Lemma init_inv max u : 0 <= max < 4294967296 -> log u = [] -> Inv (init_io max, u, []).
Proof.
  intros Hm Hu. split; cbn [fst snd].
  - split; cbn; [constructor|unfold pending; cbn; rewrite zlen_nil; lia|done|done].
  - intros _. split; [done|]. by exists [].
Qed.

(** * Draining *)

(** The socket takes at least one byte. *)
Definition takes (r : send_result) : Prop := exists n, r = Sent (S n).
Definition round_ok (sends : list send_result) : Prop := sends <> [] /\ Forall takes sends.

(** [io'] continues [io]: the same stream with no more to send, or closed after all
    of it. *)
Definition drained (io io' : hio) : Prop :=
  error io' = error io /\ posted_close io' = posted_close io /\
  if closed io' then close io = true /\ write_queue io' = [] /\ wire io' = wire io ++ pending io
  else close io' = close io /\ wf io' /\ wire io' ++ pending io' = wire io ++ pending io.

Lemma drained_trans io io1 io2 : error io1 = error io -> posted_close io1 = posted_close io -> close io1 = close io ->
  wire io1 ++ pending io1 = wire io ++ pending io -> drained io1 io2 -> drained io io2.
Proof.
  unfold drained. intros E P C St (->&->&H). repeat split; try done. rewrite <- St. destruct (closed io2); naive_solver congruence.
Qed.

Lemma pending_nil io : wf io -> pending io = [] -> write_queue io = [].
Proof.
  intros [B _ _ _]. unfold pending. destruct B as [|b q Hb _]; [done|]. cbn. intros E.
  apply app_nil in E as [E _]. pose proof (length_unsent _ Hb) as Hl. rewrite E in Hl. destruct Hb. cbn in Hl. lia.
Qed.

Lemma nio_write_drained fuel : forall io u sends, (length sends < fuel)%nat -> Forall takes sends ->
  closed io = false -> wf (core io) ->
  exists io' u' sends', nio_write (Some cb) fuel io u sends = Some (io', u', sends') /\ drained io io' /\
    (closed io' = false -> sends <> [] -> write_queue io <> [] -> zlen (pending io') < zlen (pending io)) /\
    (closed io' = false -> zlen (pending io') <= zlen (pending io)).
Proof.
  induction fuel as [|f IH]; intros io u sends Hf Hs Hc W; [lia|].
  destruct (write_queue io) as [|b rest] eqn:Hq.
  { cbn. rewrite Hq. do 3 eexists. split; [reflexivity|]. destruct (close io) eqn:Hcl.
    - unfold hio_close. cbn. rewrite Hc, Hq. cbn. split; [|done]. repeat split; try done. cbn. unfold pending. by rewrite Hq, app_nil_r.
    - split; [|done]. repeat split; try done. rewrite Hc. split; [done|]. split; [|done].
      destruct W as [B M O I]. split; try done. cbn in O |- *. rewrite Hc in *. destruct O. by rewrite Hcl. }
  destruct (front_facts io b rest Hc W Hq) as (Hb&_). pose proof (length_unsent _ Hb) as Hl.
  destruct Hs as [|r sends [n ->] Hs].
  { cbn. rewrite Hq. do 3 eexists. split; [reflexivity|]. split; [|done]. repeat split; try done. rewrite Hc.
    split; [done|]. split; [|done]. apply wf_of_core; [done|by rewrite Hq]. }
  destruct (nio_write_sent f io u sends b rest (S n) Hc Hq Hb ltac:(done)) as (u'&k&Hk&Hu&->).
  assert (Hz : zlen (pending io) = zlen (unsent b) + zlen (concat (map unsent rest))) by (by rewrite (pending_cons _ _ _ Hq), zlen_app).
  destruct Hb as [Ho Hbz]. case_decide as He.
  - destruct (IH (retire io b rest) u' sends) as (io'&u2&s2&->&Hd&_&Hlt); [cbn in Hf; lia|done|done|by apply retire_wf|].
    do 3 eexists. split; [reflexivity|]. split; [|].
    + eapply drained_trans; [..|exact Hd]; try done. apply retire_stream; [by split|done].
    + assert (Hp : zlen (pending (retire io b rest)) = zlen (concat (map unsent rest))) by done.
      unfold zlen in *. split; intros Hc'; specialize (Hlt Hc'); lia.
  - do 3 eexists. split; [reflexivity|]. split.
    + repeat split; try done. cbn. rewrite Hc. split; [done|]. split; [apply advance_wf; [done..|lia]|]. apply advance_stream; [by split|done].
    + assert (Hp : zlen (pending (advance_front io b rest k)) = zlen (unsent b) - Z.of_nat k + zlen (concat (map unsent rest))).
      { unfold pending. cbn. rewrite zlen_app, unsent_advance by lia. unfold zlen. rewrite length_drop. lia. }
      unfold zlen in *. lia.
Qed.

Lemma handle_writable_drained io u sends : round_ok sends -> wf io -> closed io = false ->
  exists io' u' sends', handle_writable (Some cb) io u sends = Some (io', u', sends') /\ drained io io' /\
    (closed io' = false -> write_queue io <> [] -> zlen (pending io') < zlen (pending io)) /\
    (closed io' = false -> zlen (pending io') <= zlen (pending io)).
Proof.
  intros [Hne Hs] W Hc. unfold handle_writable. destruct (want_write io) eqn:Hw.
  - case_bool_decide as Hq.
    + destruct (nio_write_drained (S (length sends)) (hio_del_write io) u sends) as (io'&u'&s'&->&Hd&_&H2); [lia|done|done| |].
      { apply (wf_core (hio_del_write io)). destruct W; split; done. }
      do 3 eexists. split; [reflexivity|]. split; [by eapply drained_trans; [..|exact Hd]|]. by split.
    + destruct (nio_write_drained (S (length sends)) io u sends) as (io'&u'&s'&->&Hd&H1&H2); [lia|done|done|by apply wf_core|].
      do 3 eexists. split; [reflexivity|]. split; [done|]. split; auto.
  - do 3 eexists. split; [reflexivity|]. split; [|split; [|done]].
    + repeat split; try done. by rewrite Hc.
    + intros _ Hq. by rewrite (wf_interest _ W Hq) in Hw.
Qed.

Lemma closed_idle io u acc rounds : closed io = true -> write_queue io = [] -> 
  exists io', run (Some cb) (io, u, acc) (map Writable rounds) = Some (io', u, acc) /\ write_queue io' = [] /\ wire io' = wire io /\ closed io' = true.
Proof.
  revert io. induction rounds as [|sends rounds IH]; intros io Hc Hq; [cbn; eauto 6|]. cbn [run map step].
  unfold handle_writable. destruct (want_write io); [|by apply IH].
  rewrite bool_decide_eq_true_2 by done. cbn. rewrite Hq. cbn. destruct (close io); cbn.
  - unfold hio_close. cbn. rewrite Hc. apply (IH (core (hio_del_write io))); done.
  - apply (IH (hio_del_write io)); done.
Qed.

Lemma rounds_drain rounds : Forall round_ok rounds -> forall io u acc, wf io -> closed io = false ->
  zlen (pending io) <= Z.of_nat (length rounds) ->
  exists io' u', run (Some cb) (io, u, acc) (map Writable rounds) = Some (io', u', acc) /\
    write_queue io' = [] /\ wire io' = wire io ++ pending io /\ closed io' = close io.
Proof.
  induction 1 as [|sends rounds Hr _ IH]; intros io u acc W Hc Hlen.
  { assert (Hp : pending io = []) by (apply nil_length_inv; unfold zlen in Hlen; cbn in Hlen; lia).
    cbn. pose proof (pending_nil io W Hp) as Hq. pose proof (wf_open _ W) as O. rewrite Hc in O. do 2 eexists. split; [reflexivity|].
    rewrite Hp, app_nil_r, Hc. repeat split; try done. destruct (close io); [|done]. by destruct O as [_ []]. }
  destruct (handle_writable_drained io u sends Hr W Hc) as (io'&u'&s'&Hh&Hd&H1&H2).
  cbn [run map step]. rewrite Hh. cbn. destruct (closed io') eqn:Hc'.
  - destruct Hd as (_&_&Hd). rewrite Hc' in Hd. destruct Hd as (Hcl&Hq&Hw).
    destruct (closed_idle io' u' acc rounds Hc' Hq) as (io2&->&?&?&?). do 2 eexists. split; [reflexivity|]. naive_solver congruence.
  - destruct Hd as (_&_&Hd). rewrite Hc' in Hd. destruct Hd as (Hcl&W'&Hw).
    destruct (IH io' u' acc W' Hc') as (io2&u2&->&?&?&?).
    { destruct (decide (write_queue io = [])) as [Hq|Hq]; [|specialize (H1 eq_refl Hq); cbn in Hlen; lia].
      assert (zlen (pending io) = 0) by (unfold pending; by rewrite Hq). specialize (H2 eq_refl). cbn in Hlen. lia. }
    do 2 eexists. split; [reflexivity|]. naive_solver congruence.
Qed.

Lemma run_app s ops1 ops2 : run (Some cb) s (ops1 ++ ops2) = s ← run (Some cb) s ops1; run (Some cb) s ops2.
Proof. revert s. induction ops1 as [|o ops1 IH]; intros s; [done|]. cbn. destruct (step _ s o); [apply IH|done]. Qed.

End Inv.

(** * The promises *)

(** C12. With a write callback that only records what it is told (it does not close the
    io, [Recorder]): whatever the application writes and closes outside it and whatever
    the kernel answers, the run returns, no buffer is freed twice, the queue keeps its shape (offsets inside buffers,
    [write_bufsize] the bytes pending and at most its limit, write interest while
    there are any), and as long as nothing has failed ([healthy]) the bytes on the wire followed
    by those pending are the data of the accepted writes, the callback having been
    told of the ones on the wire; only a close repeated before the flush loses any. *)
Theorem write_stream {U} (cb : U -> list Z -> U * bool) (log : U -> list Z) `{!Recorder cb log} max u ops :
  0 <= max < 4294967296 -> log u = [] -> Forall op_ok ops ->
  exists io u' accepted, run (Some cb) (init_io max, u, []) ops = Some (io, u', accepted) /\ wf io /\
    (healthy io -> log u' = wire io /\
      exists lost, wire io ++ pending io ++ lost = accepted /\ (closed io = false -> lost = [])).
Proof.
  intros Hm Hu Ho. destruct (run_inv (init_io max, u, []) ops Ho (init_inv max u Hm Hu)) as ([[io u'] acc]&Hr&[W S]).
  by exists io, u', acc.
Qed.

(** C18. Once the socket takes bytes again, with a write callback that only records
    ([Recorder]) and nothing failed so far ([healthy]), the queue drains: after as many writable
    events as there are bytes pending, each taking at least one, every accepted byte
    is on the wire, and a close that waited has happened, after the flush. *)
Theorem write_drains {U} (cb : U -> list Z -> U * bool) (log : U -> list Z) `{!Recorder cb log} max u ops io u' accepted rounds :
  0 <= max < 4294967296 -> log u = [] -> Forall op_ok ops ->
  run (Some cb) (init_io max, u, []) ops = Some (io, u', accepted) -> healthy io -> closed io = false ->
  Forall round_ok rounds -> zlen (pending io) <= Z.of_nat (length rounds) ->
  exists io2 u2, run (Some cb) (init_io max, u, []) (ops ++ map Writable rounds) = Some (io2, u2, accepted) /\
    write_queue io2 = [] /\ wire io2 = accepted /\ closed io2 = close io.
Proof.
  intros Hm Hu Ho Hr Hh Hc Hrs Hl.
  destruct (run_inv _ ops Ho (init_inv (log:=log) max u Hm Hu)) as ([[io0 u0] acc0]&Hr0&[W S]).
  rewrite Hr in Hr0. injection Hr0 as <- <- <-. cbn [fst snd] in *. destruct (S Hh) as (_&lost&Hs&Hn).
  rewrite (Hn Hc), app_nil_r in Hs.
  destruct (rounds_drain rounds Hrs io u' accepted W Hc Hl) as (io2&u2&H2&Hq&Hw&Hcl).
  exists io2, u2. rewrite run_app, Hr. cbn. by rewrite Hw.
Qed.

(** C39. A write callback that calls [hio_close] while a close already waits for the
    flush makes [nio_write] free the buffer it is sending a second time. *)
Theorem close_in_write_cb_double_free {U} (cb : U -> list Z -> U * bool) io u b rest n sends fuel :
  (forall u bytes, (cb u bytes).2 = true) -> closed io = false -> close io = true ->
  write_queue io = b :: rest -> buf_ok b -> (length (unsent b) <= n)%nat ->
  nio_write (Some cb) (S fuel) io u (Sent n :: sends) = None.
Proof.
  intros Hcb Hc Hcl Hq Hb Hn. pose proof (length_unsent _ Hb) as Hl. destruct Hb as [Ho Hz].
  cbn [nio_write next]. rewrite Hq. cbv zeta. change (drop (Z.to_nat (offset b)) (base b)) with (unsent b).
  rewrite nio_send_small by (unfold zlen in *; lia). rewrite Nat.min_r by lia. unfold zlen in *.
  rewrite (proj2 (Z.eqb_neq _ _)) by lia. rewrite Z.eqb_refl. unfold hio_write_cb. cbn. rewrite Hc.
  specialize (Hcb u (take (Z.to_nat (Z.of_nat (length (unsent b)))) (unsent b))).
  destruct (cb u _) as [u' c]. cbn in Hcb. subst c. unfold hio_close. cbn. rewrite Hc, Hcl. by rewrite andb_false_r.
Qed.

(** * Witnesses *)

Definition recording : list Z -> list Z -> list Z * bool := fun u b => (u ++ b, false).
#[global] Instance recording_recorder : Recorder recording (fun u => u).
Proof. by split. Qed.

(** A write that blocks half way, a second one, a close, and an event that takes
    part of the queue. *)
Definition sample_ops : list op :=
  [Write [1; 2; 3; 4] [Sent 2]; Write [5; 6] []; Close; Writable [Sent 5; Sent 1]].

Lemma sample_ops_ok : Forall op_ok sample_ops.
Proof. repeat constructor; cbn; try lia. by rewrite !elem_of_cons, elem_of_nil; naive_solver. Qed.

Lemma write_stream_witness : exists io u' accepted,
  run (Some recording) (init_io 100, [], []) sample_ops = Some (io, u', accepted) /\ wf io /\
    (healthy io -> u' = wire io /\
      exists lost, wire io ++ pending io ++ lost = accepted /\ (closed io = false -> lost = [])).
Proof. apply (write_stream recording (fun u => u) 100 [] sample_ops); [lia|done|apply sample_ops_ok]. Defined.

Lemma write_drains_witness : exists io2 u2,
  run (Some recording) (init_io 100, [], []) (sample_ops ++ map Writable [[Sent 1]]) = Some (io2, u2, [1; 2; 3; 4; 5; 6]) /\
    write_queue io2 = [] /\ wire io2 = [1; 2; 3; 4; 5; 6] /\ closed io2 = true.
Proof.
  apply (write_drains recording (fun u => u) 100 [] sample_ops
    (mk_hio [mk_buf [5; 6] 1] 1 100 false true 0 true false [1; 2; 3; 4; 5]) [1; 2; 3; 4; 5] [1; 2; 3; 4; 5; 6]);
    [lia|done|apply sample_ops_ok|reflexivity|done|done| |reflexivity].
  repeat constructor; [done|by exists O].
Defined.

Lemma close_in_write_cb_double_free_witness :
  nio_write (Some (fun (u : unit) (_ : list Z) => (u, true))) 2
    (mk_hio [mk_buf [5; 6] 1] 1 100 false true 0 true false []) tt [Sent 1] = None.
Proof. apply (close_in_write_cb_double_free _ _ tt (mk_buf [5; 6] 1) [] 1 [] 1); try done; cbn; lia. Defined.

End WritePathThm.
