(* ===== verification/TopicTree.v ===== *)
(** The MQTT broker's topic tree (mqtt/topic_tree.h, mqtt/topic_tree.cpp): topic
    levels, the tree of subscriptions and retained messages, and its queries. *)
From S2P Require Import Prelude.
From Stdlib Require Import Ascii String.
From stdpp Require Import strings.
Local Open Scope string_scope.
Local Open Scope Z_scope.

Module TopicTree.

(** * Data *)

(** A session is known by its identity; whether it still exists, which is what
    [lock] and [expired] of a [weak_ptr] tell, is an argument [live] of the
    operations. *)
Definition session := Z.

Record SubscriptionInfo := mk_sub { sub_session : session; sub_qos : Z; is_shared : bool; share_name : string }.
Record RetainedMessage := mk_retained { payload : list Z; ret_qos : Z; ret_dup : bool }.

(** A node owns its children, which an [unordered_map] finds by level; the order of
    the list stands for the order in which the map is walked. *)
Inductive TopicNode := mk_node {
  name_ : string; subscribers : list SubscriptionInfo;
  retained_message : option RetainedMessage; children : list (string * TopicNode) }.

Definition new_node (token : string) : TopicNode := mk_node token [] None [].
Definition set_subscribers (node : TopicNode) (l : list SubscriptionInfo) : TopicNode :=
  mk_node (name_ node) l (retained_message node) (children node).
Definition set_retained (node : TopicNode) (m : option RetainedMessage) : TopicNode :=
  mk_node (name_ node) (subscribers node) m (children node).

(** [children.find] and [children[token] = child]. *)
Fixpoint find_child (l : list (string * TopicNode)) (token : string) : option TopicNode :=
  match l with
  | [] => None
  | (k, c) :: l => if bool_decide (k = token) then Some c else find_child l token
  end.
Fixpoint put_child (l : list (string * TopicNode)) (token : string) (child : TopicNode) : list (string * TopicNode) :=
  match l with
  | [] => [(token, child)]
  | (k, c) :: l => if bool_decide (k = token) then (k, child) :: l else (k, c) :: put_child l token child
  end.
Definition set_child (node : TopicNode) (token : string) (child : TopicNode) : TopicNode :=
  mk_node (name_ node) (subscribers node) (retained_message node) (put_child (children node) token child).

(** * A node's subscribers *)

Section Node.
Context (live : session -> bool).

Definition add_subscriber (node : TopicNode) (s : session) (qos : Z) (shared : bool) (share : string) : TopicNode :=
  let same sub := live (sub_session sub) && live s && (sub_session sub =? s) && (sub_qos sub =? qos)
    && Bool.eqb (is_shared sub) shared && bool_decide (share_name sub = share) in
  if existsb same (subscribers node) then node
  else set_subscribers node (subscribers node ++ [mk_sub s qos shared share]).

Definition remove_subscriber (node : TopicNode) (s : session) (share : string) : TopicNode :=
  let removed sub := live (sub_session sub) && (sub_session sub =? s)
    && (bool_decide (share = "") || bool_decide (share_name sub = share)) in
  set_subscribers node (List.filter (fun sub => negb (removed sub)) (subscribers node)).

Definition clean_expired_subscribers (node : TopicNode) : TopicNode :=
  set_subscribers node (List.filter (fun sub => live (sub_session sub)) (subscribers node)).
End Node.

(** * Topics *)

Definition slash : Ascii.ascii := "/"%char.

(** [getline] with the delimiter '/' until it fails; [token] is what the current
    call has extracted. A call that meets the end with nothing extracted fails. *)
Fixpoint getlines (token : string) (s : string) : list string :=
  match s with
  | EmptyString => if bool_decide (token = "") then [] else [token]
  | String c s => if bool_decide (c = slash) then token :: getlines "" s else getlines (token +:+ String c "") s
  end.

(** [topic.back()]. *)
Fixpoint back (c : Ascii.ascii) (s : string) : Ascii.ascii :=
  match s with EmptyString => c | String c s => back c s end.

Definition split_topic (topic : string) : list string :=
  match topic with
  | EmptyString => []
  | String c s => getlines "" topic ++ (if bool_decide (back c s = slash) then [""] else [])
  end.

(** [find_first_of("#+") != npos]. *)
Fixpoint has_wildcard_char (s : string) : bool :=
  match s with
  | EmptyString => false
  | String c s => bool_decide (c = "#"%char) || bool_decide (c = "+"%char) || has_wildcard_char s
  end.

Definition is_valid_topic_level (level : string) (allow_wildcard : bool) : bool :=
  if bool_decide (level = "") then true
  else if allow_wildcard && (bool_decide (level = "+") || bool_decide (level = "#")) then true
  else if has_wildcard_char level then false
  else if 65535 <? Z.of_nat (String.length level) then false
  else true.

(** The loop over the levels, [rest] those from [i] on. *)
Fixpoint valid_levels (allow_wildcard : bool) (tokens : list string) (i : nat) (rest : list string) : bool :=
  match rest with
  | [] => true
  | token :: rest =>
      if negb (is_valid_topic_level token allow_wildcard) then false
      else if bool_decide (token = "#") && negb (i =? length tokens - 1)%nat then false
      else if (i =? 0)%nat && bool_decide (token = "$share") then
        if (length tokens <? 3)%nat then false
        else if bool_decide (tokens !! 1%nat = Some "") then false
        else true
      else valid_levels allow_wildcard tokens (S i) rest
  end.

Definition is_valid_topic (topic : string) (allow_wildcard : bool) : bool :=
  if bool_decide (topic = "") then false
  else let tokens := split_topic topic in valid_levels allow_wildcard tokens 0 tokens.

Definition is_valid_topic_filter (topic_filter : string) : bool := is_valid_topic topic_filter true.

(** [is_wildcard_match]: the loop returns early with [Some]. *)
Fixpoint wildcard_loop (filter_len : nat) (topic_tokens : list string) (i : nat) (rest : list string) : option bool :=
  match rest with
  | [] => None
  | filter_token :: rest =>
      if bool_decide (filter_token = "#") then Some (i =? filter_len - 1)%nat
      else if bool_decide (filter_token = "+") then
        if (length topic_tokens <=? i)%nat then Some false
        else wildcard_loop filter_len topic_tokens (S i) rest
      else if negb (bool_decide (topic_tokens !! i = Some filter_token)) then Some false
      else wildcard_loop filter_len topic_tokens (S i) rest
  end.
Definition is_wildcard_match (filter_tokens topic_tokens : list string) : bool :=
  match wildcard_loop (length filter_tokens) topic_tokens 0 filter_tokens with
  | Some r => r
  | None => (length filter_tokens =? length topic_tokens)%nat
      || ((0 <? length filter_tokens)%nat && bool_decide (filter_tokens !! (length filter_tokens - 1)%nat = Some "#"))
  end.

(** * The tree *)

(** The loop of [get_or_create_node] from a node on: the tree with the nodes it
    created and whether it reached one. *)
Fixpoint walk (create : bool) (node : TopicNode) (tokens : list string) : TopicNode * bool :=
  match tokens with
  | [] => (node, true)
  | token :: rest =>
      if bool_decide (token = "#") && negb (bool_decide (rest = [])) then (node, false)
      else
        match find_child (children node) token with
        | Some child => let '(child, found) := walk create child rest in (set_child node token child, found)
        | None =>
            if create then let '(child, found) := walk create (new_node token) rest in (set_child node token child, found)
            else (node, false)
        end
  end.
Definition get_or_create_node (root : TopicNode) (tokens : list string) (create : bool) : TopicNode * bool :=
  match tokens with [] => (root, false) | _ => walk create root tokens end.

(** The node a walk reached, which the tree shares with its caller, and its update
    in place. *)
Fixpoint node_at (node : TopicNode) (tokens : list string) : option TopicNode :=
  match tokens with
  | [] => Some node
  | token :: rest => child ← find_child (children node) token; node_at child rest
  end.
Fixpoint alter_at (f : TopicNode -> TopicNode) (node : TopicNode) (tokens : list string) : TopicNode :=
  match tokens with
  | [] => f node
  | token :: rest =>
      match find_child (children node) token with
      | Some child => set_child node token (alter_at f child rest)
      | None => node
      end
  end.

Definition TopicTree : TopicNode := mk_node "/" [] None [].

Section Tree.
Context (live : session -> bool).

(** What [subscribe] does at the node: an equal subscription is replaced. *)
Definition subscribe_node (s : session) (qos : Z) (shared : bool) (share : string) (node : TopicNode) : TopicNode :=
  let same sub := live (sub_session sub) && (sub_session sub =? s)
    && Bool.eqb (is_shared sub) shared && bool_decide (share_name sub = share) in
  let node := if existsb same (subscribers node) then remove_subscriber live node s share else node in
  add_subscriber live node s qos shared share.

Definition subscribe (root : TopicNode) (topic_filter : string) (s : session) (qos : Z) (shared : bool) (share : string)
  : TopicNode * bool :=
  if negb (is_valid_topic_filter topic_filter) then (root, false)
  else
    let tokens := split_topic topic_filter in
    let '(root, found) := get_or_create_node root tokens true in
    if negb found then (root, false)
    else (alter_at (subscribe_node s qos shared share) root tokens, true).

Definition unsubscribe (root : TopicNode) (topic_filter : string) (s : session) (share : string) : TopicNode * bool :=
  if negb (is_valid_topic_filter topic_filter) then (root, false)
  else
    let tokens := split_topic topic_filter in
    let '(root, found) := get_or_create_node root tokens false in
    if negb found then (root, false)
    else (alter_at (fun node => remove_subscriber live node s share) root tokens, true).

(** The subscriptions of a node that [collect_subscribers] appends. *)
Definition publishable (for_publish : bool) (node : TopicNode) : list SubscriptionInfo :=
  List.filter (fun sub => negb for_publish || negb (is_shared sub)) (subscribers node).
Definition hash_subscribers (for_publish : bool) (node : TopicNode) : list SubscriptionInfo :=
  match find_child (children node) "#" with Some child => publishable for_publish child | None => [] end.

(** The recursion of [collect_subscribers] over the levels from [depth] on. *)
Fixpoint collect_subscribers (node : TopicNode) (tokens : list string) (for_publish : bool) : list SubscriptionInfo :=
  match tokens with
  | [] => publishable for_publish node ++ hash_subscribers for_publish node
  | current_token :: rest =>
      match find_child (children node) current_token with
      | Some child => collect_subscribers child rest for_publish | None => [] end
      ++ match find_child (children node) "+" with
         | Some child => collect_subscribers child rest for_publish | None => [] end
      ++ hash_subscribers for_publish node
  end.

(** One result per session that still exists, the first. *)
Fixpoint unique_results (seen : list session) (results : list SubscriptionInfo) : list SubscriptionInfo :=
  match results with
  | [] => []
  | r :: results =>
      if live (sub_session r) && negb (bool_decide (sub_session r ∈ seen))
      then r :: unique_results (sub_session r :: seen) results
      else unique_results seen results
  end.

Definition get_subscribers (root : TopicNode) (topic : string) : list SubscriptionInfo :=
  if negb (is_valid_topic topic false) then []
  else
    let results := collect_subscribers root (split_topic topic) true in
    List.filter (fun r => live (sub_session r)) (unique_results [] results).

(** * Retained messages *)

Definition clear_retained_message (root : TopicNode) (topic : string) : TopicNode * bool :=
  if negb (is_valid_topic topic false) then (root, false)
  else
    let tokens := split_topic topic in
    let '(root, found) := get_or_create_node root tokens false in
    if negb found then (root, false) else (alter_at (fun node => set_retained node None) root tokens, true).

Definition set_retained_message (root : TopicNode) (topic : string) (bytes : list Z) (qos : Z) (dup : bool) : TopicNode :=
  if negb (is_valid_topic topic false) then root
  else
    let tokens := split_topic topic in
    let '(root, found) := get_or_create_node root tokens true in
    if negb found then root
    else alter_at (fun node => set_retained node
      (if bool_decide (bytes = []) then None else Some (mk_retained bytes qos dup))) root tokens.

(** [path.empty() ? name : path + "/" + name]. *)
Definition child_path (path name : string) : string :=
  if bool_decide (path = "") then name else path +:+ "/" +:+ name.

(** The queue that serves a "#": breadth first, [fuel] the nodes it may visit. *)
Fixpoint collect_all (fuel : nat) (queue : list (TopicNode * string)) : list (string * RetainedMessage) :=
  match fuel, queue with
  | S fuel, (node, path) :: queue =>
      match retained_message node with Some m => [(if bool_decide (path = "") then "/" else path, m)] | None => [] end
      ++ collect_all fuel (queue ++ map (fun kc => (snd kc, child_path path (fst kc))) (children node))
  | _, _ => []
  end.

(** The number of nodes, which [collect_statistics] counts too. *)
Fixpoint total_nodes (node : TopicNode) : nat :=
  match node with mk_node _ _ _ cs => S (list_sum (map (fun kc => total_nodes (snd kc)) cs)) end.

Fixpoint collect_retained_messages (tokens : list string) (node : TopicNode) (current_path : string)
  : list (string * RetainedMessage) :=
  match tokens with
  | [] => match retained_message node with Some m => [(current_path, m)] | None => [] end
  | current_token :: rest =>
      let new_path := if bool_decide (current_path = "") then "" else current_path +:+ "/" in
      if bool_decide (current_token = "+") then
        concat (map (fun kc =>
          if bool_decide (fst kc = "+") || bool_decide (fst kc = "#") then []
          else collect_retained_messages rest (snd kc) (new_path +:+ fst kc)) (children node))
      else if bool_decide (current_token = "#") then collect_all (total_nodes node) [(node, current_path)]
      else
        match find_child (children node) current_token with
        | Some child => collect_retained_messages rest child (new_path +:+ current_token) | None => [] end
        ++ match find_child (children node) "+" with
           | Some child => collect_retained_messages rest child (new_path +:+ current_token) | None => [] end
  end.

Definition get_retained_messages (root : TopicNode) (topic_filter : string) : list (string * RetainedMessage) :=
  if negb (is_valid_topic_filter topic_filter) then []
  else collect_retained_messages (split_topic topic_filter) root "".

(** * Walks over the whole tree *)

Fixpoint session_subscriptions (s : session) (path : string) (node : TopicNode) : list string :=
  match node with
  | mk_node _ subs _ cs =>
      (if existsb (fun sub => live (sub_session sub) && (sub_session sub =? s)) subs
       then [if bool_decide (path = "") then "/" else path] else [])
      ++ concat (map (fun kc => session_subscriptions s (child_path path (fst kc)) (snd kc)) cs)
  end.
Definition get_session_subscriptions (root : TopicNode) (s : session) : list string := session_subscriptions s "" root.

Fixpoint clean_expired_subscriptions (node : TopicNode) : TopicNode :=
  match node with
  | mk_node n subs r cs =>
      clean_expired_subscribers live (mk_node n subs r (map (fun kc => (fst kc, clean_expired_subscriptions (snd kc))) cs))
  end.

(** [collect_statistics]: nodes, subscribers, retained messages and depth. *)
Record Statistics := mk_stats {
  stat_nodes : Z; stat_subscribers : Z; stat_retained : Z; max_depth : Z }.
Fixpoint collect_statistics (node : TopicNode) (depth : Z) (stats : Statistics) : Statistics :=
  match node with
  | mk_node _ subs r cs =>
      fold_left (fun stats kc => collect_statistics (snd kc) (depth + 1) stats) cs
        (mk_stats (stat_nodes stats + 1) (stat_subscribers stats + zlen subs)
          (stat_retained stats + match r with Some _ => 1 | None => 0 end) (Z.max (max_depth stats) depth))
  end.
Definition get_statistics (root : TopicNode) : Statistics := collect_statistics root 0 (mk_stats 0 0 0 0).

End Tree.
End TopicTree.
