(* ===== verification/TopicTreeThm.v ===== *)
(** The topic tree implements a store of subscriptions and retained messages indexed
    by topic filters; its queries select by [is_wildcard_match]. *)
From S2P Require Import Prelude TopicTree.
From Stdlib Require Import Ascii String.
From stdpp Require Import strings.
Local Open Scope Z_scope.

Module TopicTreeThm.
Import TopicTree.

(** * The tree as a store indexed by paths *)

Definition data : Type := list SubscriptionInfo * option RetainedMessage.
Definition no_data : data := ([], None).
Definition node_data (node : TopicNode) : data := (subscribers node, retained_message node).
Definition data_at (node : TopicNode) (p : list string) : data :=
  match node_at node p with Some n => node_data n | None => no_data end.

Lemma find_put l k c k' : find_child (put_child l k c) k' = if bool_decide (k = k') then Some c else find_child l k'.
Proof.
  induction l as [|[k0 c0] l IH]; cbn; [done|].
  destruct (decide (k0 = k)) as [->|]; [rewrite (bool_decide_eq_true_2 (k = k)) by done; cbn; by case_bool_decide|].
  rewrite (bool_decide_eq_false_2 (k0 = k)) by done. cbn. rewrite IH. repeat case_bool_decide; congruence.
Qed.

Lemma data_at_cons node k p : data_at node (k :: p) =
  match find_child (children node) k with Some c => data_at c p | None => no_data end.
Proof. unfold data_at. cbn. by destruct (find_child (children node) k). Qed.

Lemma data_at_set_child node k c p : data_at (set_child node k c) p =
  match p with [] => node_data node | k' :: p' => if bool_decide (k = k') then data_at c p' else data_at node p end.
Proof.
  destruct p as [|k' p']; [done|]. rewrite !data_at_cons. cbn. rewrite find_put. by case_bool_decide.
Qed.

Lemma data_at_new token p : data_at (new_node token) p = no_data.
Proof. destruct p; [done|]. by rewrite data_at_cons. Qed.

(** "#" is the last level only. *)
Fixpoint hash_last (tokens : list string) : bool :=
  match tokens with
  | [] => true
  | token :: rest => (negb (bool_decide (token = "#")) || bool_decide (rest = [])) && hash_last rest
  end.

(** Creating nodes changes no data; it reaches the node when "#" is last. *)
Lemma walk_data create tokens : forall node p, data_at (walk create node tokens).1 p = data_at node p.
Proof.
  induction tokens as [|t rest IH]; intros node p; [done|]. cbn [walk].
  destruct (bool_decide (t = "#") && _); [done|].
  destruct (find_child (children node) t) as [c|] eqn:E.
  - specialize (IH c). destruct (walk create c rest) as [c' found]. cbn [fst] in *. rewrite data_at_set_child.
    destruct p as [|k p]; [done|]. case_bool_decide; [|done]. subst. by rewrite IH, data_at_cons, E.
  - destruct create; [|done]. specialize (IH (new_node t)). destruct (walk _ (new_node t) rest) as [c' found]. cbn [fst] in *.
    rewrite data_at_set_child. destruct p as [|k p]; [done|]. case_bool_decide; [|done]. subst.
    by rewrite IH, data_at_cons, E, data_at_new.
Qed.

Lemma walk_found create tokens : forall node,
  (walk create node tokens).2 = hash_last tokens && (create || bool_decide (is_Some (node_at node tokens))).
Proof.
  induction tokens as [|t rest IH]; intros node; cbn [walk hash_last].
  { by destruct create. }
  destruct (bool_decide (t = "#")), (bool_decide (rest = [])); cbn [negb andb orb fst snd node_at]; try done.
  all: destruct (find_child (children node) t) as [c|] eqn:E; cbn [mbind option_bind].
  all: try (specialize (IH c); destruct (walk create c rest); cbn in *; done).
  all: destruct create; [specialize (IH (new_node t)); destruct (walk true (new_node t) rest); cbn in *; done|].
  all: cbn; by rewrite ?andb_false_r.
Qed.

Lemma walk_node_at create tokens : forall node, (walk create node tokens).2 = true ->
  is_Some (node_at (walk create node tokens).1 tokens).
Proof.
  induction tokens as [|t rest IH]; intros node; cbn [walk]; [by eexists|].
  destruct (bool_decide (t = "#") && _); [done|].
  destruct (find_child (children node) t) as [c|]; [|destruct create; [|done]].
  - specialize (IH c). destruct (walk create c rest) as [c' found]. cbn in *. rewrite find_put, bool_decide_eq_true_2 by done. done.
  - specialize (IH (new_node t)). destruct (walk true (new_node t) rest) as [c' found]. cbn in *.
    rewrite find_put, bool_decide_eq_true_2 by done. done.
Qed.

Lemma alter_at_data f tokens : (forall n, children (f n) = children n) -> forall node p, is_Some (node_at node tokens) ->
  data_at (alter_at f node tokens) p =
  if bool_decide (p = tokens) then match node_at node tokens with Some n => node_data (f n) | None => no_data end
  else data_at node p.
Proof.
  intros Hf. induction tokens as [|t rest IH]; intros node p H; cbn [alter_at node_at] in *.
  - destruct p; [done|]. rewrite bool_decide_eq_false_2 by done. by rewrite !data_at_cons, Hf.
  - destruct (find_child (children node) t) as [c|] eqn:E; cbn [mbind option_bind] in *; [|by destruct H].
    rewrite data_at_set_child. destruct p as [|k p]; [by rewrite bool_decide_eq_false_2|].
    case_bool_decide; subst.
    + rewrite IH by done. rewrite data_at_cons, E. repeat case_bool_decide; congruence.
    + rewrite (bool_decide_eq_false_2 (k :: p = t :: rest)) by congruence. done.
Qed.

(** * Runs against the abstract store *)

Inductive op :=
| Subscribe (topic_filter : string) (s : session) (qos : Z) (shared : bool) (share : string)
| Unsubscribe (topic_filter : string) (s : session) (share : string)
| SetRetained (topic : string) (bytes : list Z) (qos : Z) (dup : bool)
| ClearRetained (topic : string)
| CleanExpired.

Definition step (root : TopicNode) (lo : (session -> bool) * op) : TopicNode :=
  match lo.2 with
  | Subscribe f s q sh n => (subscribe lo.1 root f s q sh n).1
  | Unsubscribe f s n => (unsubscribe lo.1 root f s n).1
  | SetRetained t b q d => set_retained_message root t b q d
  | ClearRetained t => (clear_retained_message root t).1
  | CleanExpired => clean_expired_subscriptions lo.1 root
  end.
Definition run (root : TopicNode) (ops : list ((session -> bool) * op)) : TopicNode := fold_left step ops root.

Definition store := list string -> data.
Definition update (A : store) (p : list string) (f : data -> data) : store :=
  fun p' => if bool_decide (p' = p) then f (A p) else A p'.

(** An operation on a node as one on its data. *)
Definition on_data (f : TopicNode -> TopicNode) (d : data) : data := node_data (f (mk_node "" d.1 d.2 [])).

(** What each operation promises: the data of one filter changes, that of no other. *)
Definition abs_step (A : store) (lo : (session -> bool) * op) : store :=
  let at_filter f g := if is_valid_topic_filter f && hash_last (split_topic f) then update A (split_topic f) (on_data g) else A in
  let at_topic t g := if is_valid_topic t false && hash_last (split_topic t) then update A (split_topic t) (on_data g) else A in
  match lo.2 with
  | Subscribe f s q sh n => at_filter f (subscribe_node lo.1 s q sh n)
  | Unsubscribe f s n => at_filter f (fun node => remove_subscriber lo.1 node s n)
  | SetRetained t b q d => at_topic t (fun node => set_retained node (if bool_decide (b = []) then None else Some (mk_retained b q d)))
  | ClearRetained t => at_topic t (fun node => set_retained node None)
  | CleanExpired => fun p => on_data (clean_expired_subscribers lo.1) (A p)
  end.
Definition abs_run (A : store) (ops : list ((session -> bool) * op)) : store := fold_left abs_step ops A.

(** An operation that looks at a node's data only. *)
Definition local (f : TopicNode -> TopicNode) : Prop :=
  forall n, children (f n) = children n /\ node_data (f n) = on_data f (node_data n).

Lemma local_subscribe live s q sh n : local (subscribe_node live s q sh n).
Proof.
  intros [nm subs r cs]. unfold subscribe_node, on_data, node_data, add_subscriber, remove_subscriber, set_subscribers.
  cbv zeta beta iota delta [subscribers retained_message children name_ fst snd].
  match goal with |- context[if ?b then mk_node _ (List.filter _ _) _ _ else _] => destruct b end;
  cbv zeta beta iota delta [subscribers retained_message children name_ fst snd].
  all: match goal with |- context[if ?b then _ else _] => by destruct b end.
Qed.
Lemma local_remove live s n : local (fun node => remove_subscriber live node s n).
Proof. by intros [nm subs r cs]. Qed.
Lemma local_retained m : local (fun node => set_retained node m).
Proof. by intros [nm subs r cs]. Qed.
#[local] Hint Resolve local_subscribe local_remove local_retained : hv.

(** * Topics and their levels *)

Fixpoint pieces (token : string) (s : string) : list string :=
  match s with
  | EmptyString => [token]
  | String c s => if bool_decide (c = slash) then token :: pieces "" s else pieces (token +:+ String c "") s
  end.
Fixpoint join (tokens : list string) : string :=
  match tokens with
  | [] => ""
  | [token] => token
  | token :: rest => token +:+ String slash (join rest)
  end.

Lemma str_app_nil (s : string) : s +:+ "" = s.
Proof. induction s as [|c s IH]; [done|]. change (String c s +:+ "") with (String c (s +:+ "")). by rewrite IH. Qed.
Lemma str_app_assoc (a b c : string) : (a +:+ b) +:+ c = a +:+ (b +:+ c).
Proof. induction a as [|x a IH]; [done|]. exact (f_equal (String x) IH). Qed.

Lemma getlines_pieces s : forall token c, (token = "" <-> c = slash) ->
  getlines token s ++ (if bool_decide (back c s = slash) then [""] else []) = pieces token s.
Proof.
  induction s as [|c' s IH]; intros token c Hc; cbn.
  - repeat case_bool_decide; cbn; try done; try tauto. by assert (token = "") as -> by tauto.
  - case_bool_decide; cbn.
    + f_equal. by apply IH.
    + apply IH. split; [|done]. intros E. by destruct token.
Qed.

Lemma split_topic_pieces s : s <> "" -> split_topic s = pieces "" s.
Proof.
  destruct s as [|c s]; [done|]. intros _. unfold split_topic. cbn. case_bool_decide; cbn.
  - f_equal. by apply getlines_pieces.
  - by apply getlines_pieces.
Qed.

Lemma pieces_ne s : forall token, pieces token s <> [].
Proof. induction s as [|c s IH]; intros token; cbn; [done|]. by case_bool_decide. Qed.

Lemma join_pieces s : forall token, join (pieces token s) = token +:+ s.
Proof.
  induction s as [|c s IH]; intros token; cbn; [by rewrite str_app_nil|]. case_bool_decide.
  - subst. specialize (IH ""). pose proof (pieces_ne s "") as Hne. cbn [join].
    destruct (pieces "" s) as [|x l]; [done|]. by rewrite IH.
  - by rewrite IH, str_app_assoc.
Qed.

(** The levels of a topic determine it. *)
Lemma join_split s : s <> "" -> join (split_topic s) = s.
Proof. intros H. rewrite split_topic_pieces by done. apply (join_pieces s ""). Qed.

Lemma split_topic_ne s : s <> "" -> split_topic s <> [].
Proof. intros H. rewrite split_topic_pieces by done. apply pieces_ne. Qed.

Lemma valid_topic_ne t b : is_valid_topic t b = true -> split_topic t <> [].
Proof. unfold is_valid_topic. case_bool_decide; [done|]. intros _. by apply split_topic_ne. Qed.

(** * The simulation *)

Definition simulates (root : TopicNode) (A : store) : Prop := forall p, data_at root p = A p.

Lemma get_or_create_walk root tokens create : tokens <> [] -> get_or_create_node root tokens create = walk create root tokens.
Proof. by destruct tokens. Qed.

(** Reaching a node and changing its data. *)
Lemma walk_alter_sim root A tokens create f : local f -> simulates root A ->
  (create = false -> on_data f no_data = no_data) ->
  let '(root', found) := walk create root tokens in
  simulates (if found then alter_at f root' tokens else root')
    (if hash_last tokens then update A tokens (on_data f) else A).
Proof.
  intros Hl HA H0. pose proof (walk_data create tokens root) as Hd. pose proof (walk_found create tokens root) as Hf.
  pose proof (walk_node_at create tokens root) as Hn. destruct (walk create root tokens) as [root' found]. cbn [fst snd] in *.
  destruct found.
  - symmetry in Hf. apply andb_true_iff in Hf as [-> _]. specialize (Hn eq_refl). intros p.
    rewrite alter_at_data by (done || (intros n; apply Hl)). unfold update. case_bool_decide as Hp; [|by rewrite Hd].
    rewrite <- HA, <- Hd. unfold data_at. destruct Hn as [n ->]. apply Hl.
  - destruct (hash_last tokens); [|by intros p; rewrite Hd]. symmetry in Hf. cbn in Hf. apply orb_false_iff in Hf as [-> Hf].
    apply bool_decide_eq_false in Hf. intros p. rewrite Hd, HA. unfold update. case_bool_decide as Hp; [|done]. subst p. rewrite <- HA. unfold data_at.
    destruct (node_at root tokens); [|by rewrite H0]. by destruct Hf; eexists.
Qed.

(** Induction over the nodes of a tree. *)
Lemma TopicNode_tree_ind (P : TopicNode -> Prop) :
  (forall n s r cs, (forall k c, (k, c) ∈ cs -> P c) -> P (mk_node n s r cs)) -> forall node, P node.
Proof.
  intros H. fix IH 1. intros [n s r cs]. apply H.
  assert (Hc : Forall (fun kc => P kc.2) cs) by (induction cs as [|[k c] cs IHc]; constructor; [apply IH|exact IHc]).
  intros k c Hin. exact (proj1 (Forall_forall _ _) Hc (k, c) Hin).
Qed.

Lemma find_child_elem cs k c : find_child cs k = Some c -> (k, c) ∈ cs.
Proof.
  induction cs as [|[k' c'] cs IH]; [done|]. cbn. case_bool_decide; [intros [= ->]; subst; set_solver|set_solver].
Qed.

Lemma find_child_map f cs k : find_child (map (fun kc => (kc.1, f kc.2)) cs) k = f <$> find_child cs k.
Proof. induction cs as [|[k' c'] cs IH]; [done|]. cbn. by case_bool_decide. Qed.

Lemma clean_sim live root : forall p,
  data_at (clean_expired_subscriptions live root) p = on_data (clean_expired_subscribers live) (data_at root p).
Proof.
  induction root as [n s r cs IH] using TopicNode_tree_ind. intros [|k p]; [done|].
  rewrite !data_at_cons. cbn [clean_expired_subscriptions clean_expired_subscribers set_subscribers children]. cbn.
  rewrite find_child_map. destruct (find_child cs k) as [c|] eqn:E; [|done]. cbn. eapply IH, find_child_elem, E.
Qed.

Lemma step_sim root A lo : simulates root A -> simulates (step root lo) (abs_step A lo).
Proof.
  intros HA. destruct lo as [live o]. destruct o; unfold step, abs_step; cbn [fst snd]; cbv zeta.
  - unfold subscribe, is_valid_topic_filter. destruct (is_valid_topic _ true) eqn:Hv; [|done]. cbn [negb andb].
    rewrite get_or_create_walk by (by eapply valid_topic_ne).
    pose proof (walk_alter_sim root A (split_topic topic_filter) true (subscribe_node live s qos shared share)) as H.
    destruct (walk _ root _) as [root' found]. specialize (H ltac:(auto with hv) HA ltac:(done)). by destruct found.
  - unfold unsubscribe, is_valid_topic_filter. destruct (is_valid_topic _ true) eqn:Hv; [|done]. cbn [negb andb].
    rewrite get_or_create_walk by (by eapply valid_topic_ne).
    pose proof (walk_alter_sim root A (split_topic topic_filter) false (fun node => remove_subscriber live node s share)) as H.
    destruct (walk _ root _) as [root' found]. specialize (H ltac:(auto with hv) HA ltac:(done)). by destruct found.
  - unfold set_retained_message. destruct (is_valid_topic _ false) eqn:Hv; [|done]. cbn [negb andb].
    rewrite get_or_create_walk by (by eapply valid_topic_ne).
    pose proof (walk_alter_sim root A (split_topic topic) true (fun node => set_retained node
      (if bool_decide (bytes = []) then None else Some (mk_retained bytes qos dup)))) as H.
    destruct (walk _ root _) as [root' found]. specialize (H ltac:(auto with hv) HA ltac:(done)). by destruct found.
  - unfold clear_retained_message. destruct (is_valid_topic _ false) eqn:Hv; [|done]. cbn [negb andb].
    rewrite get_or_create_walk by (by eapply valid_topic_ne).
    pose proof (walk_alter_sim root A (split_topic topic) false (fun node => set_retained node None)) as H.
    destruct (walk _ root _) as [root' found]. specialize (H ltac:(auto with hv) HA ltac:(done)). by destruct found.
  - intros p. by rewrite clean_sim, HA.
Qed.

Lemma run_sim root A ops : simulates root A -> simulates (run root ops) (abs_run A ops).
Proof. revert root A. induction ops as [|o ops IH]; intros root A HA; [done|]. by apply IH, step_sim. Qed.

Definition empty_store : store := fun _ => no_data.
Lemma new_tree_sim : simulates TopicTree empty_store.
Proof. intros [|k p]; [done|]. by rewrite data_at_cons. Qed.

(** * Matching *)

(** [is_wildcard_match] by recursion on both. *)
Fixpoint filter_match (f t : list string) : bool :=
  match f, t with
  | [], [] => true
  | [], _ :: _ => false
  | x :: f', _ =>
      if bool_decide (x = "#") then bool_decide (f' = [])
      else match t with [] => false | y :: t' => (bool_decide (x = "+") || bool_decide (x = y)) && filter_match f' t' end
  end.

Lemma wildcard_loop_match rest : forall pre tpre t, length pre = length tpre -> Forall (fun x => x <> "#") pre ->
  match wildcard_loop (length (pre ++ rest)) (tpre ++ t) (length pre) rest with
  | Some r => r
  | None => (length (pre ++ rest) =? length (tpre ++ t))%nat
      || ((0 <? length (pre ++ rest))%nat && bool_decide ((pre ++ rest) !! (length (pre ++ rest) - 1)%nat = Some "#"))
  end = filter_match rest t.
Proof.
  induction rest as [|x rest IH]; intros pre tpre t Hl Hp; cbn [wildcard_loop filter_match].
  - rewrite !app_nil_r. rewrite (bool_decide_eq_false_2 (pre !! _ = _)).
    2: { intros E. apply list_elem_of_lookup_2 in E. rewrite Forall_forall in Hp. by apply (Hp _ E). }
    rewrite andb_false_r, orb_false_r, length_app, Hl. destruct t; cbn [length].
    + apply Nat.eqb_eq. lia.
    + apply Nat.eqb_neq. lia.
  - case_bool_decide as Hx.
    + rewrite length_app. cbn [length]. apply eq_bool_prop_intro. rewrite bool_decide_spec. destruct rest; cbn [length].
      * split; [done|]. intros _. apply Is_true_true, Nat.eqb_eq. lia.
      * split; [|done]. intros H%Is_true_true%Nat.eqb_eq. lia.
    + specialize (IH (pre ++ [x])). rewrite <- app_assoc in IH. cbn [app] in IH. rewrite (length_app pre [x]) in IH. cbn [length] in IH.
      rewrite Nat.add_1_r in IH.
      assert (Hp' : Forall (fun x => x <> "#") (pre ++ [x])) by (apply Forall_app; auto).
      destruct t as [|y t].
      * rewrite app_nil_r. rewrite (proj2 (Nat.leb_le _ _)) by lia. rewrite lookup_ge_None_2 by lia.
        destruct (bool_decide (x = "+")); [done|]. by rewrite (bool_decide_eq_false_2 (None = Some x)).
      * specialize (IH (tpre ++ [y]) t). rewrite <- app_assoc in IH. cbn [app] in IH.
        specialize (IH ltac:(rewrite length_app; cbn; lia) Hp').
        assert (Hle : (length (tpre ++ y :: t) <=? length pre)%nat = false) by (apply Nat.leb_gt; rewrite length_app; cbn; lia).
        rewrite Hle. rewrite list_lookup_middle by lia.
        destruct (bool_decide (x = "+")); cbn [orb andb]; [exact IH|].
        destruct (decide (y = x)) as [->|Hy].
        -- rewrite (bool_decide_eq_true_2 (Some x = Some x)), (bool_decide_eq_true_2 (x = x)) by done. exact IH.
        -- by rewrite (bool_decide_eq_false_2 (Some y = Some x)), (bool_decide_eq_false_2 (x = y)) by congruence.
Qed.

Lemma is_wildcard_match_rec f t : is_wildcard_match f t = filter_match f t.
Proof. exact (wildcard_loop_match f [] [] t eq_refl (Forall_nil_2 _)). Qed.

(** The filters that match a topic, in the order the tree is searched. *)
Fixpoint matching (tokens : list string) : list (list string) :=
  match tokens with
  | [] => [[]; ["#"]]
  | t :: rest => map (cons t) (matching rest) ++ map (cons "+") (matching rest) ++ [["#"]]
  end.

Definition plain (t : string) : Prop := t <> "+" /\ t <> "#".

Lemma matching_spec tokens : Forall plain tokens -> forall p, p ∈ matching tokens <-> is_wildcard_match p tokens = true.
Proof.
  intros Hp p. rewrite is_wildcard_match_rec. revert p. induction Hp as [|t rest [Ht1 Ht2] _ IH]; intros p; cbn [matching].
  - rewrite !elem_of_cons, elem_of_nil. destruct p as [|x p]; cbn; [tauto|]. case_bool_decide; subst.
    + rewrite bool_decide_eq_true. split; [intros [?|[[=]|[]]]; done|intros ->; auto].
    + split; [intros [?|[[=]|[]]]; done|done].
  - rewrite !elem_of_app, list_elem_of_singleton, !list_elem_of_fmap. destruct p as [|x p]; cbn [filter_match].
    + split; [intros [(?&?&_)|[(?&?&_)|?]]; done|done].
    + case_bool_decide as Hx; subst.
      * rewrite bool_decide_eq_true. split; [|intros ->; auto]. intros [(?&[= ? ->]&_)|[(?&[= ?]&_)|[= ->]]]; done.
      * rewrite andb_true_iff, orb_true_iff, !bool_decide_eq_true, <- IH.
        split; [intros [(?&[= -> ->]&?)|[(?&[= -> ->]&?)|[= ? ?]]]; auto; done|].
        intros [[->| ->] ?]; [right; left|left]; eauto.
Qed.

Definition pub_subs (d : data) : list SubscriptionInfo := List.filter (fun sub => negb (is_shared sub)) d.1.

Lemma publishable_data node : publishable true node = pub_subs (node_data node).
Proof. done. Qed.
Lemma hash_subscribers_data node : hash_subscribers true node = pub_subs (data_at node ["#"]).
Proof. unfold hash_subscribers. rewrite data_at_cons. by destruct (find_child (children node) "#"). Qed.

Lemma concat_map_no_data k node (l : list (list string)) : find_child (children node) k = None ->
  concat (map (fun p => pub_subs (data_at node (k :: p))) l) = [].
Proof. intros H. induction l as [|p l IH]; [done|]. cbn. by rewrite data_at_cons, H, IH. Qed.

(** [collect_subscribers] gathers the subscriptions of the matching filters. *)
Lemma collect_subscribers_spec tokens : forall node,
  collect_subscribers node tokens true = concat (map (fun p => pub_subs (data_at node p)) (matching tokens)).
Proof.
  induction tokens as [|t rest IH]; intros node; cbn [collect_subscribers matching].
  - cbn. by rewrite publishable_data, hash_subscribers_data, app_nil_r.
  - rewrite !map_app, !concat_app, !map_map. cbn [map concat]. rewrite app_nil_r, hash_subscribers_data.
    assert (Hk : forall k, match find_child (children node) k with Some c => collect_subscribers c rest true | None => [] end
      = concat (map (fun p => pub_subs (data_at node (k :: p))) (matching rest))).
    { intros k. destruct (find_child (children node) k) as [c|] eqn:E; [|by rewrite concat_map_no_data].
      rewrite IH. f_equal. apply map_ext. intros p. by rewrite data_at_cons, E. }
    by rewrite !Hk.
Qed.

(** * One result per session *)

Lemma unique_results_spec live results : forall seen,
  NoDup (map sub_session (unique_results live seen results)) /\
  (forall r, r ∈ unique_results live seen results -> r ∈ results /\ live (sub_session r) = true /\ sub_session r ∉ seen) /\
  (forall r, r ∈ results -> live (sub_session r) = true -> sub_session r ∉ seen ->
    exists r', r' ∈ unique_results live seen results /\ sub_session r' = sub_session r).
Proof.
  induction results as [|r results IH]; intros seen; cbn [unique_results].
  { split; [constructor|]. split; intros r Hr; by apply elem_of_nil in Hr. }
  destruct (live (sub_session r)) eqn:Hl; cbn [andb].
  2: { destruct (IH seen) as (N&H1&H2). split; [done|]. split.
       - intros r' Hr. destruct (H1 r' Hr) as (?&?&?). set_solver.
       - intros r' [->|Hr]%elem_of_cons Hl'; [congruence|]. by apply H2. }
  case_bool_decide as Hs; cbn [negb].
  - destruct (IH seen) as (N&H1&H2). split; [done|]. split.
    + intros r' Hr. destruct (H1 r' Hr) as (?&?&?). set_solver.
    + intros r' [->|Hr]%elem_of_cons Hl' Hn; [done|]. by apply H2.
  - destruct (IH (sub_session r :: seen)) as (N&H1&H2). split.
    { cbn. apply NoDup_cons. split; [|done]. intros (r'&Hr'&Hin)%list_elem_of_fmap. destruct (H1 r' Hin) as (_&_&?). set_solver. }
    split.
    + intros r' [->|Hr]%elem_of_cons; [set_solver|]. destruct (H1 r' Hr) as (?&?&?). set_solver.
    + intros r' Hr Hl' Hn. destruct (decide (sub_session r' = sub_session r)) as [E|E]; [exists r; set_solver|].
      apply elem_of_cons in Hr as [->|Hr]; [done|]. destruct (H2 r' Hr Hl' ltac:(set_solver)) as (r''&?&?). exists r''. set_solver.
Qed.

Lemma filter_live_id live seen results :
  List.filter (fun r => live (sub_session r)) (unique_results live seen results) = unique_results live seen results.
Proof.
  revert seen. induction results as [|r results IH]; intros seen; [done|]. cbn.
  destruct (live (sub_session r)) eqn:Hl; cbn [andb]; [|done]. case_bool_decide; cbn; [done|]. by rewrite Hl, IH.
Qed.

(** A valid topic outside "$share" has no wildcard levels. *)
Definition ordinary (topic : string) : Prop := head (split_topic topic) <> Some "$share".

Lemma valid_levels_plain tokens rest : forall i, head tokens <> Some "$share" -> (i = 0%nat -> head rest = head tokens) ->
  valid_levels false tokens i rest = true -> Forall plain rest.
Proof.
  induction rest as [|t rest IH]; intros i Hh Hi; cbn [valid_levels]; [constructor|].
  destruct (is_valid_topic_level t false) eqn:Hl; [|done]. cbn [negb].
  destruct (bool_decide (t = "#") && _); [done|].
  assert (Ht : (i =? 0)%nat && bool_decide (t = "$share") = false).
  { destruct (Nat.eqb_spec i 0) as [E|]; [|done]. case_bool_decide; [|done]. subst t. specialize (Hi E). cbn in Hi. by destruct Hh. }
  rewrite Ht. intros H. constructor; [|by eapply (IH (S i))].
  split; intros ->; by vm_compute in Hl.
Qed.

Lemma valid_topic_plain t : is_valid_topic t false = true -> ordinary t -> Forall plain (split_topic t).
Proof.
  unfold is_valid_topic. case_bool_decide; [done|]. intros Hv Ho. by eapply (valid_levels_plain (split_topic t) _ 0).
Qed.

Lemma elem_of_pub_subs sub d : sub ∈ pub_subs d <-> sub ∈ d.1 /\ is_shared sub = false.
Proof.
  unfold pub_subs. rewrite !list_elem_of_In, filter_In. by rewrite negb_true_iff.
Qed.

(** * Retained messages *)

(** Every retained message under a node, with its path. *)
Fixpoint entries (node : TopicNode) : list (list string * RetainedMessage) :=
  match node with
  | mk_node _ _ r cs =>
      match r with Some m => [([], m)] | None => [] end
      ++ concat (map (fun kc => map (fun pm => (fst kc :: fst pm, snd pm)) (entries (snd kc))) cs)
  end.

(** Children are found by distinct levels. *)
Inductive wf : TopicNode -> Prop :=
| wf_node n s r cs : NoDup (map fst cs) -> (forall k c, (k, c) ∈ cs -> wf c) -> wf (mk_node n s r cs).

Lemma find_child_iff cs k c : NoDup (map fst cs) -> find_child cs k = Some c <-> (k, c) ∈ cs.
Proof.
  intros Hn. split; [apply find_child_elem|]. induction cs as [|[k' c'] cs IH]; [by intros ?%elem_of_nil|].
  cbn in *. apply NoDup_cons in Hn as [Hk Hn]. intros [[= -> ->]|Hin]%elem_of_cons; [by rewrite bool_decide_eq_true_2|].
  rewrite bool_decide_eq_false_2; [by apply IH|]. intros ->. apply Hk, list_elem_of_fmap. by exists (k, c).
Qed.

Lemma put_child_keys l k c : map fst (put_child l k c) = if bool_decide (k ∈ map fst l) then map fst l else map fst l ++ [k].
Proof.
  induction l as [|[k' c'] l IH]; cbn [map fst put_child]; [done|]. destruct (decide (k' = k)) as [->|Hk].
  - rewrite (bool_decide_eq_true_2 (k = k)), bool_decide_eq_true_2 by (done || set_solver). done.
  - rewrite (bool_decide_eq_false_2 (k' = k)) by done. cbn [map fst]. rewrite IH. destruct (decide (k ∈ map fst l)).
    + rewrite !bool_decide_eq_true_2; [done|set_solver|done].
    + rewrite !bool_decide_eq_false_2; [done|set_solver|done].
Qed.
Lemma put_child_elem l k c k' c' : (k', c') ∈ put_child l k c -> (k' = k /\ c' = c) \/ (k', c') ∈ l.
Proof.
  induction l as [|[k0 c0] l IH]; cbn; [set_solver|]. case_bool_decide; subst; [set_solver|].
  intros [?|?]%elem_of_cons; [set_solver|]. destruct (IH H0); set_solver.
Qed.

Lemma wf_set_child node k c : wf node -> wf c -> wf (set_child node k c).
Proof.
  intros [n s r cs Hn Hc] Hw. constructor.
  - cbn. rewrite put_child_keys. case_bool_decide as Hk; [done|]. apply NoDup_app. split; [done|]. split; [set_solver|].
    apply NoDup_singleton.
  - cbn. intros k' c' [[-> ->]|Hin]%put_child_elem; [done|by eapply Hc].
Qed.
Lemma wf_find node k c : wf node -> find_child (children node) k = Some c -> wf c.
Proof. intros [n s r cs Hn Hc] H. by eapply Hc, find_child_elem. Qed.
Lemma wf_new t : wf (new_node t).
Proof. constructor; [constructor|]. by intros k c ?%elem_of_nil. Qed.
#[local] Hint Resolve wf_set_child wf_find wf_new : hv.

Lemma walk_wf create tokens : forall node, wf node -> wf (walk create node tokens).1.
Proof.
  induction tokens as [|t rest IH]; intros node Hw; [done|]. cbn [walk]. destruct (_ && _); [done|].
  destruct (find_child (children node) t) as [c|] eqn:E; [|destruct create; [|done]].
  - specialize (IH c ltac:(eauto with hv)). destruct (walk create c rest). cbn in *. auto with hv.
  - specialize (IH (new_node t) (wf_new t)). destruct (walk true (new_node t) rest). cbn in *. auto with hv.
Qed.
Lemma wf_children n n' : children n' = children n -> wf n -> wf n'.
Proof. destruct n' as [? ? ? cs']. cbn. intros -> [n0 s r cs Hn Hc]. constructor; [exact Hn|exact Hc]. Qed.
Lemma alter_at_wf f tokens : (forall n, children (f n) = children n) -> forall node, wf node -> wf (alter_at f node tokens).
Proof.
  intros Hf. induction tokens as [|t rest IH]; intros node Hw; cbn [alter_at]; [exact (wf_children node (f node) (Hf node) Hw)|].
  destruct (find_child (children node) t) as [c|] eqn:E; [|done]. eauto with hv.
Qed.
Lemma clean_wf live node : wf node -> wf (clean_expired_subscriptions live node).
Proof.
  induction node as [n s r cs IH] using TopicNode_tree_ind. inversion 1 as [? ? ? ? Hn Hc]; subst.
  apply (wf_children (mk_node n s r (map (fun kc => (kc.1, clean_expired_subscriptions live kc.2)) cs))); [done|].
  constructor; [by rewrite map_map|]. intros k c ([k' c']&[= -> ->]&Hin)%list_elem_of_fmap. eauto.
Qed.

Lemma step_wf root lo : wf root -> wf (step root lo).
Proof.
  intros Hw. destruct lo as [live o].
  assert (Hg : forall tokens create f, (forall n, children (f n) = children n) ->
    let '(r, found) := get_or_create_node root tokens create in wf (if found then alter_at f r tokens else r)).
  { intros [|t tokens] create f Hf; cbn [get_or_create_node]; [done|].
    pose proof (walk_wf create (t :: tokens) root Hw). destruct (walk create root (t :: tokens)) as [r []]; cbn [fst] in *; [by apply alter_at_wf|done]. }
  destruct o; unfold step, subscribe, unsubscribe, set_retained_message, clear_retained_message; cbn [fst snd].
  - destruct (negb _); [done|]. specialize (Hg (split_topic topic_filter) true (subscribe_node live s qos shared share)).
    cbv zeta. destruct (get_or_create_node _ _ _) as [r []]; cbn in *; apply Hg; intros n; apply local_subscribe.
  - destruct (negb _); [done|]. specialize (Hg (split_topic topic_filter) false (fun node => remove_subscriber live node s share)).
    cbv zeta. destruct (get_or_create_node _ _ _) as [r []]; cbn in *; by apply Hg.
  - destruct (negb _); [done|]. cbv zeta.
    match goal with |- context[alter_at ?f _ _] => specialize (Hg (split_topic topic) true f) end.
    destruct (get_or_create_node _ _ _) as [r []]; cbn in *; by apply Hg.
  - destruct (negb _); [done|]. specialize (Hg (split_topic topic) false (fun node => set_retained node None)).
    cbv zeta. destruct (get_or_create_node _ _ _) as [r []]; cbn in *; by apply Hg.
  - by apply clean_wf.
Qed.
Lemma run_wf ops : forall root, wf root -> wf (run root ops).
Proof. induction ops as [|o ops IH]; intros root Hw; [done|]. by apply IH, step_wf. Qed.

Lemma entries_spec node : wf node -> forall p m, (p, m) ∈ entries node <-> (data_at node p).2 = Some m.
Proof.
  induction node as [n s r cs IH] using TopicNode_tree_ind. inversion 1 as [? ? ? ? Hn Hc]; subst. intros p m.
  cbn [entries]. rewrite elem_of_app, !list_elem_of_In, in_concat. destruct p as [|k p].
  - change (data_at (mk_node n s r cs) []) with (s, r). cbn [snd]. split.
    + intros [H0|(l&([k c]&<-&_)%in_map_iff&Hin)]; [by destruct r; cbn in H0; naive_solver|].
      apply in_map_iff in Hin as (?&[=]&_).
    + intros ->. by left; left.
  - rewrite data_at_cons. cbn [children]. split.
    + intros [H0|(l&([k' c]&<-&Hk)%in_map_iff&Hin)]; [by destruct r; cbn in H0; naive_solver|].
      apply in_map_iff in Hin as ([p' m']&[= -> -> ->]&Hin). apply list_elem_of_In in Hk, Hin. cbn in *.
      rewrite (proj2 (find_child_iff cs k c Hn)) by done. apply (IH k c); eauto.
    + destruct (find_child cs k) as [c|] eqn:E; [|done]. intros Hm. right. apply find_child_elem in E.
      eexists. split; [apply in_map_iff; exists (k, c); split; [reflexivity|by apply list_elem_of_In]|].
      apply in_map_iff. exists (p, m). split; [done|]. apply list_elem_of_In. apply (IH k c); eauto.
Qed.

(** The string a walk builds for a path. *)
Fixpoint render (path : string) (p : list string) : string :=
  match p with [] => path | k :: p => render (child_path path k) p end.
Definition place (path : string) (pm : list string * RetainedMessage) : string * RetainedMessage := (render path pm.1, pm.2).

(** Where messages are kept no level is a wildcard, and paths are not empty. *)
Definition presentable (node : TopicNode) (path : string) : Prop :=
  forall p m, (p, m) ∈ entries node -> render path p <> "" /\ Forall plain p.

Definition under (k : string) (pm : list string * RetainedMessage) : list string * RetainedMessage := (k :: pm.1, pm.2).

Lemma entries_node n s r cs : entries (mk_node n s r cs) =
  match r with Some m => [([], m)] | None => [] end ++ concat (map (fun kc => map (under kc.1) (entries kc.2)) cs).
Proof. done. Qed.

Lemma entries_child n s r cs k c pm : (k, c) ∈ cs -> pm ∈ entries c -> under k pm ∈ entries (mk_node n s r cs).
Proof.
  intros Hk Hp. rewrite entries_node. apply elem_of_app. right. apply list_elem_of_In, in_concat.
  eexists. split; [apply in_map_iff; exists (k, c); split; [reflexivity|by apply list_elem_of_In]|].
  apply in_map. by apply list_elem_of_In.
Qed.

Lemma presentable_child n s r cs path k c : presentable (mk_node n s r cs) path -> (k, c) ∈ cs ->
  presentable c (child_path path k) /\ (~ plain k -> entries c = []).
Proof.
  intros Hp Hk. split.
  - intros p m Hin. destruct (Hp (k :: p) m (entries_child n s r cs k c (p, m) Hk Hin)) as [? H2]. by inversion H2.
  - intros Hn. destruct (entries c) as [|[p m] l] eqn:E; [done|].
    destruct (Hp (k :: p) m (entries_child n s r cs k c (p, m) Hk ltac:(rewrite E; set_solver))) as [_ H2]. by inversion H2.
Qed.

Lemma map_place_under path k l : map (place path) (map (under k) l) = map (place (child_path path k)) l.
Proof. rewrite map_map. done. Qed.

Lemma map_concat_map {A B C} (f : B -> C) (g : A -> list B) l : map f (concat (map g l)) = concat (map (fun x => map f (g x)) l).
Proof. induction l as [|x l IH]; [done|]. cbn. by rewrite map_app, IH. Qed.
Lemma filter_concat_map {A B} (f : B -> bool) (g : A -> list B) l :
  List.filter f (concat (map g l)) = concat (map (fun x => List.filter f (g x)) l).
Proof. induction l as [|x l IH]; [done|]. cbn. by rewrite List.filter_app, IH. Qed.
Lemma concat_map_perm {A B} (f g : A -> list B) l : (forall x, x ∈ l -> f x ≡ₚ g x) -> concat (map f l) ≡ₚ concat (map g l).
Proof.
  induction l as [|x l IH]; intros H; [done|]. cbn. rewrite (H x) by set_solver. rewrite IH; [done|]. set_solver.
Qed.
Lemma filter_map_under f k l : List.filter f (map (under k) l) = map (under k) (List.filter (fun pm => f (under k pm)) l).
Proof. induction l as [|x l IH]; [done|]. cbn. destruct (f (under k x)); cbn; by rewrite IH. Qed.

(** The queue of "#" visits every node once. *)
Lemma collect_all_perm fuel : forall queue, (list_sum (map (fun np => total_nodes np.1) queue) <= fuel)%nat ->
  (forall node path, (node, path) ∈ queue -> presentable node path) ->
  collect_all fuel queue ≡ₚ concat (map (fun np => map (place np.2) (entries np.1)) queue).
Proof.
  induction fuel as [|fuel IH]; intros [|[node path] queue] Hf Hp; try done.
  { destruct node as [n s r cs]. cbn in Hf. lia. }
  destruct node as [n s r cs]. cbn [collect_all retained_message children].
  assert (Hp0 : presentable (mk_node n s r cs) path) by (apply Hp, elem_of_cons; by left).
  rewrite IH.
  - cbn [map concat fst snd]. rewrite entries_node, !map_app, concat_app, map_concat_map, !map_map. cbn [fst snd].
    rewrite <- app_assoc. apply Permutation_app.
    + destruct r as [m|]; [|done]. cbn. destruct (Hp0 [] m) as [Hne _]; [rewrite entries_node; set_solver|].
      cbn in Hne. by rewrite bool_decide_eq_false_2.
    + rewrite Permutation_app_comm. apply Permutation_app; [|done].
      apply concat_map_perm. intros [k c] _. by rewrite map_place_under.
  - rewrite map_app, list_sum_app, map_map. cbn in Hf |- *. unfold list_sum in *. lia.
  - intros node' path' [Hin|Hin]%elem_of_app; [apply Hp; set_solver|].
    apply list_elem_of_fmap in Hin as ([k c]&[= -> ->]&Hin).
    by apply (presentable_child n s r cs path k c Hp0).
Qed.

Lemma concat_map_single {B} t (H : TopicNode -> list B) cs : NoDup (map fst cs) ->
  concat (map (fun kc => if bool_decide (t = kc.1) then H kc.2 else []) cs)
  = match find_child cs t with Some c => H c | None => [] end.
Proof.
  induction cs as [|[k c] cs IH]; cbn; [done|]. intros [Hk Hn]%NoDup_cons. rewrite IH by done.
  destruct (decide (t = k)) as [->|Ht].
  - rewrite !bool_decide_eq_true_2 by done. destruct (find_child cs k) as [c'|] eqn:E; [|by rewrite app_nil_r].
    destruct Hk. apply list_elem_of_fmap. exists (k, c'). split; [done|]. by apply find_child_elem.
  - by rewrite (bool_decide_eq_false_2 (t = k)), (bool_decide_eq_false_2 (k = t)) by congruence.
Qed.

Lemma child_path_new path k : (if bool_decide (path = "") then "" else path +:+ "/") +:+ k = child_path path k.
Proof. unfold child_path. case_bool_decide; [done|]. by rewrite str_app_assoc. Qed.

Lemma filter_none {A} (f : A -> bool) l : (forall x, f x = false) -> List.filter f l = [].
Proof. intros H. induction l as [|x l IH]; [done|]. cbn. by rewrite H. Qed.
Lemma filter_all {A} (f : A -> bool) l : (forall x, f x = true) -> List.filter f l = l.
Proof. intros H. induction l as [|x l IH]; [done|]. cbn. by rewrite H, IH. Qed.

(** [collect_retained_messages] selects the matching messages, each once. *)
Lemma collect_retained_perm tokens : hash_last tokens = true -> forall node path, wf node -> presentable node path ->
  collect_retained_messages tokens node path
  ≡ₚ map (place path) (List.filter (fun pm => filter_match tokens pm.1) (entries node)).
Proof.
  induction tokens as [|t rest IH]; intros Hh [n s r cs] path Hw Hp; cbn [collect_retained_messages].
  { rewrite entries_node, List.filter_app, filter_concat_map. cbn [retained_message].
    assert (He : concat (map (fun kc => List.filter (fun pm => filter_match [] pm.1) (map (under kc.1) (entries kc.2))) cs) = []).
    { clear Hw Hp. induction cs as [|kc cs IHc]; [done|]. cbn. by rewrite filter_map_under, filter_none. }
    rewrite He, app_nil_r. by destruct r. }
  cbn [hash_last] in Hh. apply andb_true_iff in Hh as [Hh1 Hh]. specialize (IH Hh). cbn [children].
  inversion Hw as [? ? ? ? Hn Hc]; subst.
  assert (Hown : List.filter (fun pm => filter_match (t :: rest) pm.1) (match r with Some m => [([], m)] | None => [] end)
    = if bool_decide (t = "#") && bool_decide (rest = []) then match r with Some m => [([], m)] | None => [] end else []).
  { destruct r; cbn; [|by destruct (_ && _)]. by destruct (bool_decide (t = "#")), (bool_decide (rest = [])). }
  destruct (decide (t = "+")) as [->|Hplus]; [|destruct (decide (t = "#")) as [->|Hhash]].
  - rewrite (bool_decide_eq_true_2 ("+" = "+")) by done.
    rewrite entries_node, List.filter_app, filter_concat_map, Hown. cbn [bool_decide andb]. cbn [app].
    rewrite (bool_decide_eq_false_2 ("+" = "#")) by done. cbn [andb app]. rewrite map_concat_map.
    apply concat_map_perm. intros [k c] Hk. cbn [fst snd].
    destruct (presentable_child n s r cs path k c Hp Hk) as [Hpc Hpl].
    rewrite filter_map_under, map_place_under, child_path_new. unfold under. cbn [filter_match fst].
    rewrite (bool_decide_eq_false_2 ("+" = "#")), (bool_decide_eq_true_2 ("+" = "+")) by done. cbn [orb andb].
    destruct (decide (plain k)) as [[Hk1 Hk2]|Hk1].
    + rewrite !bool_decide_eq_false_2 by done. cbn [orb]. apply IH; eauto.
    + rewrite (Hpl Hk1). destruct (bool_decide (k = "+") || bool_decide (k = "#")) eqn:E; [done|].
      apply orb_false_iff in E as [E1%bool_decide_eq_false E2%bool_decide_eq_false]. by destruct Hk1.
  - rewrite (bool_decide_eq_false_2 ("#" = "+")), (bool_decide_eq_true_2 ("#" = "#")) by done.
    rewrite (bool_decide_eq_true_2 ("#" = "#")) in Hh1 by done. cbn in Hh1. apply bool_decide_eq_true in Hh1. subst rest.
    rewrite collect_all_perm; [cbn; by rewrite app_nil_r, filter_all| |].
    + cbn. lia.
    + intros ? ? [= -> ->]%list_elem_of_singleton. done.
  - rewrite (bool_decide_eq_false_2 (t = "+")), (bool_decide_eq_false_2 (t = "#")) by done.
    rewrite entries_node, List.filter_app, filter_concat_map, Hown. rewrite (bool_decide_eq_false_2 (t = "#")) by done.
    cbn [andb app]. rewrite map_concat_map, child_path_new.
    assert (Hplus' : match find_child cs "+" with Some c => collect_retained_messages rest c (child_path path t) | None => [] end ≡ₚ []).
    { destruct (find_child cs "+") as [c|] eqn:E; [|done]. apply find_child_elem in E.
      destruct (presentable_child n s r cs path "+" c Hp E) as [_ He]. specialize (He ltac:(intros [HH _]; by apply HH)).
      rewrite IH; [by rewrite He|by eapply Hc|]. intros p m. rewrite He. by intros ?%elem_of_nil. }
    rewrite Hplus', app_nil_r.
    trans (concat (map (fun kc => if bool_decide (t = kc.1) then
       map (place (child_path path t)) (List.filter (fun pm => filter_match rest pm.1) (entries kc.2)) else []) cs)).
    + rewrite (concat_map_single t (fun c => map (place (child_path path t)) (List.filter (fun pm => filter_match rest pm.1) (entries c)))) by done.
      destruct (find_child cs t) as [c|] eqn:E; [|done]. apply find_child_elem in E.
      apply IH; [eauto|by apply (presentable_child n s r cs path t c Hp E)].
    + apply concat_map_perm. intros [k c] Hk. cbn [fst snd]. rewrite filter_map_under, map_place_under. unfold under. cbn [filter_match fst].
      rewrite (bool_decide_eq_false_2 (t = "#")), (bool_decide_eq_false_2 (t = "+")) by done. cbn [orb].
      destruct (decide (t = k)) as [->|Hk']; [by rewrite bool_decide_eq_true_2|].
      rewrite (bool_decide_eq_false_2 (t = k)) by done. cbn [andb]. by rewrite filter_none.
Qed.

Lemma NoDup_entries node : wf node -> NoDup (map fst (entries node)).
Proof.
  induction node as [n s r cs IH] using TopicNode_tree_ind. inversion 1 as [? ? ? ? Hn Hc]; subst.
  rewrite entries_node, map_app.
  assert (Hcs : forall cs', (forall k c, (k, c) ∈ cs' -> NoDup (map fst (entries c))) -> NoDup (map fst cs') ->
    NoDup (map fst (concat (map (fun kc => map (under kc.1) (entries kc.2)) cs'))) /\
    forall p, p ∈ map fst (concat (map (fun kc => map (under kc.1) (entries kc.2)) cs')) -> exists k p', p = k :: p' /\ k ∈ map fst cs').
  { clear. induction cs' as [|[k c] cs' IH]; intros Hc Hn.
    { split; [constructor|]. by intros p ?%elem_of_nil. }
    cbn in *. apply NoDup_cons in Hn as [Hk Hn].
    destruct (IH ltac:(intros; eapply Hc; apply elem_of_cons; by right) Hn) as [H1 H2]. rewrite map_app, map_map. split.
    - apply NoDup_app. split_and!; [|intros p (x&->&_)%list_elem_of_fmap (k'&p'&[= <- _]&?)%H2; done|done].
      change (NoDup (map (fun x => k :: fst x) (entries c))). rewrite <- (map_map fst (cons k)). apply (NoDup_fmap_2 (cons k)). eapply Hc. apply elem_of_cons; by left.
    - intros p [(x&->&_)%list_elem_of_fmap|(k'&p'&->&?)%H2]%elem_of_app; do 2 eexists; (split; [reflexivity|]); set_solver. }
  destruct (Hcs cs ltac:(eauto) Hn) as [H1 H2]. apply NoDup_app. split_and!; [destruct r; [apply NoDup_singleton|constructor]| |done].
  intros p Hp (k&p'&->&_)%H2. destruct r; [by apply list_elem_of_singleton in Hp|by apply elem_of_nil in Hp].
Qed.

Lemma render_join path p : path <> "" -> render path p = join (path :: p).
Proof.
  revert path. induction p as [|k p IH]; intros path Hp; [done|]. cbn [render].
  rewrite IH; unfold child_path; rewrite (bool_decide_eq_false_2 (path = "")) by done; [|by destruct path].
  destruct p as [|k' p]; cbn [join]; rewrite ?str_app_assoc; done.
Qed.
Lemma render_root k p : k <> "" -> render "" (k :: p) = join (k :: p).
Proof. intros Hk. exact (render_join k p Hk). Qed.
Lemma join_ne k p : k <> "" -> join (k :: p) <> "".
Proof. intros Hk. destruct p; [done|]. cbn. by destruct k. Qed.

(** The messages kept by runs that retain under ordinary topics with a first level. *)
Definition titled (p : list string) : Prop := Forall plain p /\ exists k p', p = k :: p' /\ k <> "".
Definition retain_ok (lo : (session -> bool) * op) : Prop :=
  match lo.2 with SetRetained t _ _ _ => ordinary t /\ head (split_topic t) <> Some "" | _ => True end.

Lemma abs_step_titled A lo : retain_ok lo -> (forall p m, (A p).2 = Some m -> titled p) ->
  forall p m, (abs_step A lo p).2 = Some m -> titled p.
Proof.
  intros Ho HA p m. destruct lo as [live o]. destruct o; unfold abs_step; cbn [fst snd]; cbv zeta.
  - destruct (_ && _); [|by apply HA]. unfold update. case_bool_decide; [|by apply HA]. subst p.
    intros H. apply (HA _ m). rewrite <- H.
    unfold on_data, node_data, subscribe_node, add_subscriber, remove_subscriber, set_subscribers. cbn.
    destruct (existsb _ _); cbn; match goal with |- context[if ?b then _ else _] => by destruct b end.
  - destruct (_ && _); [|by apply HA]. unfold update. case_bool_decide; [|by apply HA]. subst p. apply HA.
  - destruct (is_valid_topic topic false) eqn:Hv; [|by apply HA]. cbn [andb]. destruct (hash_last _); [|by apply HA].
    unfold update. case_bool_decide; [|by apply HA]. subst p. intros _. destruct Ho as [Ho Hs].
    split; [by apply valid_topic_plain|]. pose proof (valid_topic_ne _ _ Hv). destruct (split_topic topic) as [|k p]; [done|].
    do 2 eexists. split; [reflexivity|]. cbn in Hs. congruence.
  - destruct (_ && _); [|by apply HA]. unfold update. case_bool_decide; [done|by apply HA].
  - apply HA.
Qed.
Lemma abs_run_titled ops : forall A, Forall retain_ok ops -> (forall p m, (A p).2 = Some m -> titled p) ->
  forall p m, (abs_run A ops p).2 = Some m -> titled p.
Proof.
  induction ops as [|o ops IH]; intros A Ho HA; [done|]. inversion Ho; subst. apply IH; [done|]. by apply abs_step_titled.
Qed.

Lemma titled_presentable root : wf root -> (forall p m, (data_at root p).2 = Some m -> titled p) -> presentable root "".
Proof.
  intros Hw Ht p m Hin. apply entries_spec in Hin; [|done]. destruct (Ht p m Hin) as (Hp&k&p'&->&Hk).
  rewrite render_root by done. split; [by apply join_ne|done].
Qed.

(** A valid filter outside "$share" has "#" in its last level only. *)
Lemma valid_levels_hash tokens rest : forall i, head tokens <> Some "$share" -> (i = 0%nat -> head rest = head tokens) ->
  (i + length rest = length tokens)%nat -> valid_levels true tokens i rest = true -> hash_last rest = true.
Proof.
  induction rest as [|t rest IH]; intros i Hh Hi Hl; cbn [valid_levels hash_last]; [done|]. cbn [length] in Hl.
  destruct (negb _); [done|]. destruct (bool_decide (t = "#")) eqn:Et; cbn [negb andb orb].
  - destruct (Nat.eqb_spec i (length tokens - 1)) as [Ei|]; cbn [negb]; [|done]. destruct rest; [|cbn in Hl; lia].
    intros _. by rewrite bool_decide_eq_true_2.
  - assert (Ht : (i =? 0)%nat && bool_decide (t = "$share") = false).
    { destruct (Nat.eqb_spec i 0) as [E|]; [|done]. apply bool_decide_eq_false. intros ->. specialize (Hi E). cbn in Hi. by destruct Hh. }
    rewrite Ht. eapply (IH (S i)); try done. lia.
Qed.
Lemma valid_filter_hash f : is_valid_topic_filter f = true -> ordinary f -> hash_last (split_topic f) = true.
Proof.
  unfold is_valid_topic_filter, is_valid_topic. case_bool_decide; [done|]. intros Hv Ho.
  by eapply (valid_levels_hash (split_topic f) _ 0).
Qed.

(** * The promises *)

(** C10. After any operations on a new tree, the data of a filter is what those
    operations leave in a store indexed by filters, and [get_subscribers] gives one
    entry for each existing session with a non-shared subscription whose filter
    matches the topic by [is_wildcard_match], one of those subscriptions. *)
Theorem topic_tree_delivers ops live topic : is_valid_topic topic false = true -> ordinary topic ->
  (forall p, data_at (run TopicTree ops) p = abs_run empty_store ops p) /\
  NoDup (map sub_session (get_subscribers live (run TopicTree ops) topic)) /\
  (forall r, r ∈ get_subscribers live (run TopicTree ops) topic -> live (sub_session r) = true /\ is_shared r = false /\
    exists p, is_wildcard_match p (split_topic topic) = true /\ r ∈ (abs_run empty_store ops p).1) /\
  (forall p sub, is_wildcard_match p (split_topic topic) = true -> sub ∈ (abs_run empty_store ops p).1 ->
    is_shared sub = false -> live (sub_session sub) = true ->
    exists r, r ∈ get_subscribers live (run TopicTree ops) topic /\ sub_session r = sub_session sub).
Proof.
  intros Hv Ho. pose proof (run_sim TopicTree empty_store ops new_tree_sim) as HA.
  pose proof (valid_topic_plain topic Hv Ho) as Hp. unfold get_subscribers. rewrite Hv. cbn [negb].
  rewrite filter_live_id, collect_subscribers_spec.
  destruct (unique_results_spec live (concat (map (fun p => pub_subs (data_at (run TopicTree ops) p)) (matching (split_topic topic)))) [])
    as (HN&H1&H2).
  assert (Hin : forall sub, sub ∈ concat (map (fun p => pub_subs (data_at (run TopicTree ops) p)) (matching (split_topic topic))) <->
    is_shared sub = false /\ exists p, is_wildcard_match p (split_topic topic) = true /\ sub ∈ (abs_run empty_store ops p).1).
  { intros sub. rewrite list_elem_of_In, in_concat. setoid_rewrite in_map_iff. split.
    - intros (l&(p&<-&Hm)&Hl). apply list_elem_of_In in Hl, Hm. apply elem_of_pub_subs in Hl as [? ?].
      apply matching_spec in Hm; [|done]. rewrite HA in *. eauto.
    - intros (Hs&p&Hm&Hl). exists (pub_subs (data_at (run TopicTree ops) p)). split.
      + exists p. split; [done|]. apply list_elem_of_In. by apply matching_spec.
      + apply list_elem_of_In, elem_of_pub_subs. by rewrite HA. }
  split; [exact HA|]. split; [exact HN|]. split.
  - intros r Hr. destruct (H1 r Hr) as (Hr'&Hl&_). apply Hin in Hr' as (?&?). done.
  - intros p sub Hm Hs Hsh Hl. apply H2; [|done|apply not_elem_of_nil]. apply Hin. eauto.
Qed.

(** C23. When messages are retained under ordinary topics that do not start with a
    slash, [get_retained_messages] gives exactly the messages last retained under a
    topic the filter matches, each once and under its topic. *)
Theorem retained_messages_match ops topic_filter : Forall retain_ok ops ->
  is_valid_topic_filter topic_filter = true -> ordinary topic_filter ->
  exists L, NoDup (map fst L) /\ (forall p m, (p, m) ∈ L <-> (abs_run empty_store ops p).2 = Some m) /\
    get_retained_messages (run TopicTree ops) topic_filter
    ≡ₚ map (fun pm => (join pm.1, pm.2)) (List.filter (fun pm => is_wildcard_match (split_topic topic_filter) pm.1) L).
Proof.
  intros Hr Hv Ho. pose proof (run_sim TopicTree empty_store ops new_tree_sim) as HA.
  assert (Hw : wf (run TopicTree ops)) by (apply run_wf, (wf_new "/")).
  assert (Ht : forall p m, (data_at (run TopicTree ops) p).2 = Some m -> titled p).
  { intros p m. rewrite HA. by apply abs_run_titled. }
  exists (entries (run TopicTree ops)). split; [by apply NoDup_entries|]. split.
  { intros p m. rewrite entries_spec by done. by rewrite HA. }
  unfold get_retained_messages. rewrite Hv. cbn [negb].
  rewrite collect_retained_perm; [|by apply valid_filter_hash|done|by apply titled_presentable].
  rewrite (filter_ext _ (fun pm => is_wildcard_match (split_topic topic_filter) pm.1)) by (intros pm; by rewrite is_wildcard_match_rec).
  apply reflexive_eq, map_ext_in. intros [p m] [Hin _]%filter_In. apply list_elem_of_In in Hin.
  unfold place. cbn. apply entries_spec in Hin; [|done]. destruct (Ht p m Hin) as (_&k&p'&->&Hk). by rewrite render_root.
Qed.

Lemma filter_match_refl p : Forall plain p -> filter_match p p = true.
Proof.
  induction 1 as [|k p [H1 H2] _ IH]; [done|]. cbn. rewrite (bool_decide_eq_false_2 (k = "#")) by done.
  rewrite (bool_decide_eq_true_2 (k = k)), orb_true_r by done. done.
Qed.

Lemma plain_hash_last p : Forall plain p -> hash_last p = true.
Proof. induction 1 as [|k p [_ H2] _ IH]; [done|]. cbn. by rewrite (bool_decide_eq_false_2 (k = "#")). Qed.

Lemma valid_levels_filter tokens rest : forall i,
  valid_levels false tokens i rest = true -> valid_levels true tokens i rest = true.
Proof.
  induction rest as [|k rest IH]; intros i; [done|]. cbn [valid_levels].
  assert (Hk : is_valid_topic_level k false = true -> is_valid_topic_level k true = true).
  { unfold is_valid_topic_level. by destruct (bool_decide (k = "")), (bool_decide (k = "+")), (bool_decide (k = "#")). }
  destruct (is_valid_topic_level k false); [|done]. rewrite Hk by done. cbn [negb].
  destruct (_ && negb _); [done|]. destruct (_ && bool_decide (k = "$share")); [done|]. apply IH.
Qed.
Lemma valid_topic_is_filter t : is_valid_topic t false = true -> is_valid_topic t true = true.
Proof. unfold is_valid_topic. case_bool_decide; [done|]. apply valid_levels_filter. Qed.

Lemma split_topic_slash t : t <> "" -> split_topic (String slash t) = "" :: split_topic t.
Proof.
  intros Ht. rewrite !split_topic_pieces by done. cbn [pieces]. by rewrite (bool_decide_eq_true_2 (slash = slash)).
Qed.

(** A tree in which one message is kept, asked for by its topic. *)
Lemma retained_only ops topic m : is_valid_topic topic false = true -> ordinary topic ->
  render "" (split_topic topic) <> "" ->
  (forall p m', (abs_run empty_store ops p).2 = Some m' <-> p = split_topic topic /\ m' = m) ->
  get_retained_messages (run TopicTree ops) topic = [(render "" (split_topic topic), m)].
Proof.
  intros Hv Ho Hr Hb.
  pose proof (valid_topic_plain topic Hv Ho) as Hp. pose proof (run_sim TopicTree empty_store ops new_tree_sim) as HA.
  assert (Hw : wf (run TopicTree ops)) by (apply run_wf, (wf_new "/")). pose proof (plain_hash_last _ Hp) as Hl.
  assert (He : forall p m', (p, m') ∈ entries (run TopicTree ops) <-> p = split_topic topic /\ m' = m)
    by (intros p m'; by rewrite entries_spec, HA by done).
  assert (Hen : entries (run TopicTree ops) = [(split_topic topic, m)]).
  { pose proof (NoDup_entries _ Hw) as HN. destruct (entries (run TopicTree ops)) as [|[p m1] [|[p' m2] l]].
    - exfalso. eapply not_elem_of_nil. apply He. by split.
    - destruct (proj1 (He p m1)) as [-> ->]; [set_solver|done].
    - destruct (proj1 (He p m1)) as [-> ->]; [set_solver|]. destruct (proj1 (He p' m2)) as [-> ->]; [set_solver|].
      cbn in HN. apply NoDup_cons in HN as [HN _]. set_solver. }
  apply Permutation_singleton_r. unfold get_retained_messages, is_valid_topic_filter.
  rewrite (valid_topic_is_filter topic Hv). cbn [negb]. rewrite collect_retained_perm; [|done|done|].
  - rewrite Hen. cbn [List.filter fst]. by rewrite filter_match_refl.
  - by intros p m' [-> ->]%He.
Qed.

Lemma abs_retained_new live topic bytes q d : is_valid_topic topic false = true -> ordinary topic -> bytes <> [] ->
  forall p m, (abs_step empty_store (live, SetRetained topic bytes q d) p).2 = Some m <-> p = split_topic topic /\ m = mk_retained bytes q d.
Proof.
  intros Hv Ho Hb p m. pose proof (plain_hash_last _ (valid_topic_plain topic Hv Ho)) as Hl.
  unfold abs_step. cbn [fst snd]. rewrite Hv, Hl. cbn [andb].
  unfold update. case_bool_decide as Ep; [|split; [done|tauto]]. unfold on_data, node_data. cbn.
  rewrite bool_decide_eq_false_2 by done. split; [intros [= <-]; done|intros [_ ->]; done].
Qed.

(** A message retained in a new tree, asked for by its topic. *)
Lemma retained_new_tree topic bytes q d : is_valid_topic topic false = true -> ordinary topic ->
  render "" (split_topic topic) <> "" -> bytes <> [] ->
  get_retained_messages (set_retained_message TopicTree topic bytes q d) topic
  = [(render "" (split_topic topic), mk_retained bytes q d)].
Proof.
  intros Hv Ho Hr Hb. apply (retained_only [(fun _ : session => true, SetRetained topic bytes q d)]); [done..|].
  by apply abs_retained_new.
Qed.

(** A subscription changes no retained message. *)
Lemma abs_subscribe_retained A live f s q sh n p : (abs_step A (live, Subscribe f s q sh n) p).2 = (A p).2.
Proof.
  unfold abs_step. cbn [fst snd]. cbv zeta. destruct (_ && _); [|done]. unfold update. case_bool_decide; [|done]. subst p.
  unfold on_data, node_data, subscribe_node, add_subscriber, remove_subscriber, set_subscribers. cbn.
  destruct (existsb _ _); cbn; match goal with |- context[if ?b then _ else _] => by destruct b end.
Qed.
Lemma retained_subscribed live topic bytes q d f s q' sh n : is_valid_topic topic false = true -> ordinary topic ->
  render "" (split_topic topic) <> "" -> bytes <> [] ->
  get_retained_messages (subscribe live (set_retained_message TopicTree topic bytes q d) f s q' sh n).1 topic
  = [(render "" (split_topic topic), mk_retained bytes q d)].
Proof.
  intros Hv Ho Hr Hb. apply (retained_only [(live, SetRetained topic bytes q d); (live, Subscribe f s q' sh n)]); [done..|].
  intros p m. unfold abs_run. cbn [fold_left]. rewrite abs_subscribe_retained. by apply abs_retained_new.
Qed.

Lemma render_split t : t <> "" -> head (split_topic t) <> Some "" -> render "" (split_topic t) = t.
Proof.
  intros Ht Hh. pose proof (split_topic_ne t Ht) as Hne. rewrite <- (join_split t Ht) at 2.
  destruct (split_topic t) as [|k p]; [done|]. apply render_root. cbn in Hh. congruence.
Qed.

(** A message retained under a topic that starts with a slash comes back under
    the topic without it. *)
Lemma leading_slash_lost t bytes q d :
  is_valid_topic (String slash t) false = true -> t <> "" -> head (split_topic t) <> Some "" -> bytes <> [] ->
  get_retained_messages (set_retained_message TopicTree (String slash t) bytes q d) (String slash t)
  = [(t, mk_retained bytes q d)].
Proof.
  intros Hv Ht Hh Hb.
  assert (Hr : render "" (split_topic (String slash t)) = t) by (rewrite split_topic_slash by done; by apply render_split).
  rewrite retained_new_tree by (done || (unfold ordinary; by rewrite split_topic_slash) || by rewrite Hr). by rewrite Hr.
Qed.

(** * Witnesses *)

(** Two sessions subscribe with wildcards, one of them twice, and a third goes away. *)
Definition sample_ops : list ((session -> bool) * op) :=
  map (pair (fun _ => true)) [Subscribe "home/+/temp" 1 0 false ""; Subscribe "home/#" 2 1 false "";
    Subscribe "home/hall/temp" 1 2 false ""; Subscribe "#" 3 0 false ""; SetRetained "home/hall/temp" [50; 49] 1 false;
    SetRetained "home/attic" [51] 0 false].

Lemma topic_tree_delivers_witness :
  get_subscribers (fun s => negb (s =? 3)) (run TopicTree sample_ops) "home/hall/temp"
    = [mk_sub 1 2 false ""; mk_sub 2 1 false ""] /\
  NoDup (map sub_session (get_subscribers (fun s => negb (s =? 3)) (run TopicTree sample_ops) "home/hall/temp")).
Proof.
  split; [vm_compute; reflexivity|].
  apply (topic_tree_delivers sample_ops (fun s => negb (s =? 3)) "home/hall/temp"); [vm_compute; reflexivity|].
  unfold ordinary. vm_compute. intros [=].
Defined.

Lemma retained_messages_match_witness :
  exists L, NoDup (map fst L) /\ (forall p m, (p, m) ∈ L <-> (abs_run empty_store sample_ops p).2 = Some m) /\
    get_retained_messages (run TopicTree sample_ops) "home/+/temp"
    ≡ₚ map (fun pm => (join pm.1, pm.2)) (List.filter (fun pm => is_wildcard_match (split_topic "home/+/temp") pm.1) L).
Proof.
  apply (retained_messages_match sample_ops "home/+/temp").
  - repeat constructor; unfold ordinary; vm_compute; intros [=].
  - vm_compute. reflexivity.
  - unfold ordinary. vm_compute. intros [=].
Defined.

Lemma leading_slash_lost_witness :
  get_retained_messages (set_retained_message TopicTree "/hall" [1] 0 false) "/hall" = [("hall", mk_retained [1] 0 false)].
Proof. apply (leading_slash_lost "hall" [1] 0 false); [vm_compute; reflexivity|done|vm_compute; intros [=]|done]. Defined.

(** Subscribing again without a share name removes the shared subscription that the
    session has at the same filter. *)
Example resubscribe_drops_shared : let live := fun _ : session => true in
  let root := (subscribe live TopicTree "a" 1 0 true "group").1 in
  let root := (subscribe live root "a" 1 0 false "").1 in
  let root := (subscribe live root "a" 1 1 false "").1 in
  (data_at root ["a"]).1 = [mk_sub 1 1 false ""].
Proof. reflexivity. Qed.

End TopicTreeThm.
