(* ===== verification/MqttProtocol.v ===== *)
(** MQTT packets (mqtt/mqtt_protocol.h, mqtt/mqtt_protocol.c, base/hendian.h): the
    fixed header, and reading and writing fields in a buffer. *)
From S2P Require Import Prelude HMath.

Module MqttProtocol.
Import HMath.

Definition MQTT_PROTOCOL_V31 : Z := 3.
Definition MQTT_PROTOCOL_V311 : Z := 4.
Definition MQTT_PROTOCOL_V5 : Z := 5.
Definition MQTT_PROTOCOL_NAME : list Z := bytes_of_string "MQTT".
Definition MQTT_PROTOCOL_NAME_v31 : list Z := bytes_of_string "MQIsdp".

Definition MQTT_CONN_CLEAN_SESSION : Z := 2.
Definition MQTT_CONN_HAS_WILL : Z := 4.
Definition MQTT_CONN_WILL_RETAIN : Z := 32.
Definition MQTT_CONN_HAS_PASSWORD : Z := 64.
Definition MQTT_CONN_HAS_USERNAME : Z := 128.

Definition MQTT_TYPE_CONNECT : Z := 1.
Definition MQTT_TYPE_CONNACK : Z := 2.
Definition MQTT_TYPE_PUBLISH : Z := 3.
Definition MQTT_TYPE_PUBACK : Z := 4.
Definition MQTT_TYPE_PUBREC : Z := 5.
Definition MQTT_TYPE_PUBREL : Z := 6.
Definition MQTT_TYPE_PUBCOMP : Z := 7.
Definition MQTT_TYPE_SUBSCRIBE : Z := 8.
Definition MQTT_TYPE_SUBACK : Z := 9.
Definition MQTT_TYPE_UNSUBSCRIBE : Z := 10.
Definition MQTT_TYPE_UNSUBACK : Z := 11.
Definition MQTT_TYPE_PINGREQ : Z := 12.
Definition MQTT_TYPE_PINGRESP : Z := 13.
Definition MQTT_TYPE_DISCONNECT : Z := 14.
Definition MQTT_CONNACK_ACCEPTED : Z := 0.

(** The bit-fields of [mqtt_head_t] keep 4, 1, 2 and 1 bits. *)
Record mqtt_head_t := mk_head { type : Z; dup : Z; qos : Z; retain : Z; length_ : Z }.
#[global] Instance head_rebuild : Rebuild mqtt_head_t :=
  fun h => mk_head (type h) (dup h) (qos h) (retain h) (length_ h).

(** [mqtt_message_t]; [prop] holds [prop.data] up to [prop.len]. A length of 0 in a
    message to send means that the text is zero-terminated. *)
Record mqtt_message_t := mk_message {
  topic_len : Z; topic : list Z; payload_len : Z; payload : list Z; msg_qos : Z; msg_retain : Z; prop : list Z }.

Record mqtt_conn_t := mk_conn {
  protocol : list Z; conn_version : Z; conn_flag : Z; conn_keepalive : Z; conn_client_id : list Z;
  conn_will_topic : list Z; conn_will_payload : list Z; user_name : list Z; conn_password : list Z }.

(** * Writing *)

(** A buffer and the offset of [p] in it; writing outside gives [None]. *)
Definition writer : Type := list Z * Z.
Definition PUSH_N (v : list Z) (w : writer) : option writer :=
  buf ← zcopy w.1 w.2 v; Some (buf, w.2 + zlen v).
Definition be16 (v : Z) : list Z := [u8 (Z.shiftr v 8); u8 v].
Definition PUSH8 (v : Z) : writer -> option writer := PUSH_N [u8 v].
Definition PUSH16 (v : Z) : writer -> option writer := PUSH_N (be16 v).

(** What the code has written: the bytes before [p]. *)
Definition written (w : writer) : list Z := take (Z.to_nat w.2) w.1.

Definition mqtt_estimate_length (head : mqtt_head_t) : Z := i32 (u32 (1 + 4 + length_ head)).

(** [mqtt_head_pack] at [p]: the writer after the header. *)
Definition mqtt_head_pack (head : mqtt_head_t) (w : writer) : option writer :=
  let b := Z.lor (Z.lor (Z.lor (Z.shiftl (type head) 4) (Z.shiftl (dup head) 3)) (Z.shiftl (qos head) 1)) (retain head) in
  '(buf, p) ← PUSH8 b w;
  '(out, bytes) ← varint_encode (length_ head) (drop (Z.to_nat p) buf);
  Some (take (Z.to_nat p) buf ++ out, p + bytes).

(** * Reading *)

(** [POP8], [POP16] at offset [p]: the value and the next offset. *)
Definition POP8 (buf : list Z) (p : Z) : option (Z * Z) := v ← zget buf p; Some (v, p + 1).
Definition POP16 (buf : list Z) (p : Z) : option (Z * Z) :=
  hi ← zget buf p; lo ← zget buf (p + 1); Some (hi * 256 + lo, p + 2).

(** [mqtt_head_unpack] of the packet at [p], [len] its length: the header and the
    number of its bytes, 0 or less when there is none. *)
Definition mqtt_head_unpack (buf : list Z) (len : Z) : option (mqtt_head_t * Z) :=
  b ← zget buf 0;
  '(v, bytes) ← varint_decode (drop 1 buf) (Some (len - 1));
  let head := mk_head (Z.land (Z.shiftr b 4) 15) (Z.land (Z.shiftr b 3) 1) (Z.land (Z.shiftr b 1) 3) (Z.land b 1) (u32 v) in
  let bytes := default 0 bytes in
  Some (head, if bytes <=? 0 then bytes else 1 + bytes).

End MqttProtocol.
