(* ===== verification/MqttClient.v ===== *)
(** The MQTT client (mqtt/mqtt_client.c): logging in, publishing and subscribing,
    and the packets it receives. *)
From S2P Require Import Prelude HMath MqttProtocol.

Module MqttClient.
Import HMath MqttProtocol.

(** * State *)

(** The io of the client, as far as it is concerned: whether it has closed it,
    whether writes fail, and the bytes it has handed over. *)
Record hio := mk_hio { closed : bool; refuses : bool; accepted : list Z }.

(** [hio_write]; of the count it returns, only the sign is used. *)
Definition hio_write (io : hio) (buf : list Z) : hio * Z :=
  if closed io || refuses io then (io, -1) else (mk_hio (closed io) (refuses io) (accepted io ++ buf), 0).

Record reconn_setting_t := mk_reconn {
  min_delay : Z; max_delay : Z; cur_delay : Z; delay_policy : Z; max_retry_cnt : Z; cur_retry_cnt : Z }.
#[global] Instance reconn_rebuild : Rebuild reconn_setting_t :=
  fun r => mk_reconn (min_delay r) (max_delay r) (cur_delay r) (delay_policy r) (max_retry_cnt r) (cur_retry_cnt r).

(** [events] are the types the callback was told, [timer] the delay of the
    reconnect timer or 0 for the connect timer. *)
Record mqtt_client_t := mk_client {
  protocol_version : Z; clean_session : bool; keepalive : Z; client_id : list Z; will : option mqtt_message_t;
  username : list Z; password : list Z; connected : bool; ping_cnt : Z; head : mqtt_head_t; error : Z; mid : Z;
  message : mqtt_message_t; s_mid : Z; io : hio; timer : option Z; heartbeat : option Z; events : list Z;
  reconn_setting : option reconn_setting_t }.
#[global] Instance client_rebuild : Rebuild mqtt_client_t :=
  fun c => mk_client (protocol_version c) (clean_session c) (keepalive c) (client_id c) (will c)
    (username c) (password c) (connected c) (ping_cnt c) (head c) (error c) (mid c)
    (message c) (s_mid c) (io c) (timer c) (heartbeat c) (events c) (reconn_setting c).

Definition DEFAULT_MQTT_KEEPALIVE : Z := 60.
Definition ETIMEDOUT : Z := 110.

(** [mqtt_client_new]. *)
Definition no_message : mqtt_message_t := mk_message 0 [] 0 [] 0 0 [].
Definition mqtt_client_new : mqtt_client_t :=
  mk_client MQTT_PROTOCOL_V311 false DEFAULT_MQTT_KEEPALIVE [] None [] [] false 0 (mk_head 0 0 0 0 0) 0 0
    no_message 0 (mk_hio false false []) None None [] None.

(** [strlen] of the text at the start of a block that is ended by a zero or its end. *)
Fixpoint strlen (s : list Z) : Z :=
  match s with [] => 0 | c :: s => if c =? 0 then 0 else 1 + strlen s end.

Implicit Types (cli : mqtt_client_t).

Definition mqtt_next_mid cli : mqtt_client_t * Z := let mid := u16 (s_mid cli + 1) in (cli.[s_mid := mid], mid).

Definition mqtt_client_send cli (buf : list Z) : mqtt_client_t * Z :=
  let '(i, nwrite) := hio_write (io cli) buf in (cli.[io := i], nwrite).

Definition hio_close cli : mqtt_client_t := cli.[io := mk_hio true (refuses (io cli)) (accepted (io cli))].

(** * Small packets *)

Definition mqtt_send_head cli (type_ length : Z) : option (mqtt_client_t * Z) :=
  w ← mqtt_head_pack (mk_head type_ 0 0 0 (u32 length)) (repeat 0 8, 0); Some (mqtt_client_send cli (written w)).

Definition mqtt_send_head_with_mid cli (type_ mid : Z) : option (mqtt_client_t * Z) :=
  w ← mqtt_head_pack (mk_head type_ 0 (if type_ =? MQTT_TYPE_PUBREL then 1 else 0) 0 2) (repeat 0 8, 0);
  w ← PUSH16 mid w; Some (mqtt_client_send cli (written w)).

Definition mqtt_send_ping cli : option mqtt_client_t :=
  let cnt := ping_cnt cli in
  let cli := cli.[ping_cnt := cnt + 1] in
  if cnt =? 3 then Some (hio_close cli) else fst <$> mqtt_send_head cli MQTT_TYPE_PINGREQ 0.
Definition mqtt_send_pong cli : option mqtt_client_t := fst <$> mqtt_send_head cli MQTT_TYPE_PINGRESP 0.
Definition mqtt_send_disconnect cli : option mqtt_client_t := fst <$> mqtt_send_head cli MQTT_TYPE_DISCONNECT 0.

(** * Login *)

(** A length-prefixed field of [n] bytes of [s]. *)
Definition PUSH_FIELD (s : list Z) (n : Z) (w : writer) : option writer :=
  w ← PUSH16 n w; s ← zslice s 0 n; PUSH_N s w.
Definition when (b : bool) (f : writer -> option writer) (w : writer) : option writer := if b then f w else Some w.

(** The lengths of the will's topic and payload; 0 and 0 without a will. *)
Definition will_lens cli : Z * Z :=
  match will cli with
  | Some w => (u16 (if topic_len w =? 0 then strlen (topic w) else topic_len w),
               u16 (if payload_len w =? 0 then strlen (payload w) else payload_len w))
  | None => (0, 0)
  end.
Definition flag (b : bool) (f : Z) : Z := if b then f else 0.

(** [random_id] is what [hv_random_string] gives. *)
Definition mqtt_client_login cli (random_id : list Z) : option (mqtt_client_t * Z) :=
  let v5 := protocol_version cli =? MQTT_PROTOCOL_V5 in
  let v31 := protocol_version cli =? MQTT_PROTOCOL_V31 in
  let cli := if strlen (client_id cli) =? 0 then cli.[client_id := random_id] else cli in
  let cid_len := u16 (strlen (client_id cli)) in
  let cli := if cid_len =? 0 then cli.[clean_session := true] else cli in
  let '(will_topic_len, will_payload_len) := will_lens cli in
  let has_will := negb (will_topic_len =? 0) && negb (will_payload_len =? 0) in
  let the_will := default no_message (will cli) in
  let username_len := u16 (strlen (username cli)) in
  let password_len := u16 (strlen (password cli)) in
  let has_username := negb (username_len =? 0) in
  let has_password := negb (password_len =? 0) in
  let conn_flags :=
    Z.lor (flag (clean_session cli) MQTT_CONN_CLEAN_SESSION)
    (Z.lor (if has_will then Z.lor MQTT_CONN_HAS_WILL (Z.lor (Z.shiftl (Z.land (msg_qos the_will) 3) 3)
              (flag (negb (msg_retain the_will =? 0)) MQTT_CONN_WILL_RETAIN)) else 0)
    (Z.lor (flag has_username MQTT_CONN_HAS_USERNAME) (flag has_password MQTT_CONN_HAS_PASSWORD))) in
  let len := 2 + 1 + 1 + 2 + 2 + (if v31 then 6 else 4) + b2z v5 + cid_len
    + (if has_will then b2z v5 + (2 + will_topic_len) + (2 + will_payload_len) else 0)
    + (if has_username then 2 + username_len else 0) + (if has_password then 2 + password_len else 0) in
  let head := mk_head MQTT_TYPE_CONNECT 0 0 0 (u32 len) in
  w ← mqtt_head_pack head (repeat 0 (Z.to_nat (mqtt_estimate_length head)), 0);
  w ← (if v31 then PUSH_FIELD MQTT_PROTOCOL_NAME_v31 6 w else PUSH_FIELD MQTT_PROTOCOL_NAME 4 w);
  w ← PUSH8 (protocol_version cli) w;
  w ← PUSH8 conn_flags w;
  w ← PUSH16 (keepalive cli) w;
  w ← when v5 (PUSH8 0) w;
  w ← PUSH16 cid_len w;
  w ← when (0 <? cid_len) (fun w => s ← zslice (client_id cli) 0 cid_len; PUSH_N s w) w;
  w ← when has_will (fun w =>
    w ← when v5 (PUSH8 0) w;
    w ← PUSH_FIELD (topic the_will) will_topic_len w;
    PUSH_FIELD (payload the_will) will_payload_len w) w;
  w ← when has_username (PUSH_FIELD (username cli) username_len) w;
  w ← when has_password (PUSH_FIELD (password cli) password_len) w;
  let '(cli, nwrite) := mqtt_client_send cli (written w) in
  Some (cli, if nwrite <? 0 then nwrite else 0).

(** * Publishing and subscribing *)

Definition mqtt_client_publish cli (msg : mqtt_message_t) : option (mqtt_client_t * Z) :=
  if negb (connected cli) then Some (cli, -2)
  else
    let topic_len := i32 (if topic_len msg =? 0 then strlen (topic msg) else topic_len msg) in
    let payload_len := i32 (if payload_len msg =? 0 then strlen (payload msg) else payload_len msg) in
    let v5 := protocol_version cli =? MQTT_PROTOCOL_V5 in
    let len := 2 + topic_len + payload_len + (if 0 <? msg_qos msg then 2 else 0) + b2z v5 in
    let head := mk_head MQTT_TYPE_PUBLISH 0 (Z.land (msg_qos msg) 3) (Z.land (msg_retain msg) 1) (u32 len) in
    let buflen := mqtt_estimate_length head - payload_len in
    w ← mqtt_head_pack head (repeat 0 (Z.to_nat buflen), 0);
    w ← PUSH_FIELD (topic msg) topic_len w;
    '(cli, mid, w) ← (if negb (msg_qos msg =? 0)
      then let '(cli, mid) := mqtt_next_mid cli in w ← PUSH16 mid w; Some (cli, mid, w)
      else Some (cli, 0, w));
    w ← when v5 (PUSH8 0) w;
    let '(cli, nwrite) := mqtt_client_send cli (written w) in
    if nwrite <? 0 then Some (cli, nwrite)
    else
      data ← zslice (payload msg) 0 payload_len;
      let '(cli, nwrite) := mqtt_client_send cli data in
      Some (cli, if nwrite <? 0 then nwrite else mid).

Definition mqtt_client_subscribe cli (topic : list Z) (qos : Z) : option (mqtt_client_t * Z) :=
  if negb (connected cli) then Some (cli, -2)
  else
    let topic_len := i32 (strlen topic) in
    let v5 := protocol_version cli =? MQTT_PROTOCOL_V5 in
    let head := mk_head MQTT_TYPE_SUBSCRIBE 0 1 0 (u32 (2 + 2 + topic_len + 1 + b2z v5)) in
    w ← mqtt_head_pack head (repeat 0 (Z.to_nat (mqtt_estimate_length head)), 0);
    let '(cli, mid) := mqtt_next_mid cli in
    w ← PUSH16 mid w;
    w ← when v5 (PUSH8 0) w;
    w ← PUSH_FIELD topic topic_len w;
    w ← PUSH8 (Z.land qos 3) w;
    let '(cli, nwrite) := mqtt_client_send cli (written w) in
    Some (cli, if nwrite <? 0 then nwrite else mid).

Definition mqtt_client_unsubscribe cli (topic : list Z) : option (mqtt_client_t * Z) :=
  if negb (connected cli) then Some (cli, -2)
  else
    let topic_len := i32 (strlen topic) in
    let v5 := protocol_version cli =? MQTT_PROTOCOL_V5 in
    let head := mk_head MQTT_TYPE_UNSUBSCRIBE 0 1 0 (u32 (2 + 2 + topic_len + b2z v5)) in
    w ← mqtt_head_pack head (repeat 0 (Z.to_nat (mqtt_estimate_length head)), 0);
    let '(cli, mid) := mqtt_next_mid cli in
    w ← PUSH16 mid w;
    w ← when v5 (PUSH8 0) w;
    w ← PUSH_FIELD topic topic_len w;
    let '(cli, nwrite) := mqtt_client_send cli (written w) in
    Some (cli, if nwrite <? 0 then nwrite else mid).

Definition mqtt_client_disconnect cli : option mqtt_client_t :=
  let cli := cli.[reconn_setting := None] in hio_close <$> mqtt_send_disconnect cli.

(** * Reconnecting *)

Definition reconn_setting_reset (r : reconn_setting_t) : reconn_setting_t := r.[cur_delay := 0].[cur_retry_cnt := 0].
Definition reconn_setting_can_retry (r : reconn_setting_t) : reconn_setting_t * bool :=
  let r := r.[cur_retry_cnt := u32 (cur_retry_cnt r + 1)] in
  (r, (max_retry_cnt r =? INFINITE) || (cur_retry_cnt r <=? max_retry_cnt r)).
Definition reconn_setting_calc_delay (r : reconn_setting_t) : reconn_setting_t * Z :=
  let d := if delay_policy r =? 0 then min_delay r
           else if delay_policy r =? 1 then u32 (cur_delay r + min_delay r)
           else u32 (cur_delay r * delay_policy r) in
  let d := Z.min (Z.max d (min_delay r)) (max_delay r) in
  (r.[cur_delay := d], d).

Definition mqtt_client_add_reconnect_timer cli : mqtt_client_t :=
  match reconn_setting cli with
  | None => cli
  | Some r =>
      let '(r, can) := reconn_setting_can_retry r in
      if can then let '(r, delay) := reconn_setting_calc_delay r in cli.[reconn_setting := Some r].[timer := Some delay]
      else cli.[reconn_setting := Some r]
  end.

Definition set_type cli (t : Z) : mqtt_client_t := cli.[head := (head cli).[type := t]].
Definition notify cli : mqtt_client_t := cli.[events := events cli ++ [type (head cli)]].

Definition on_close cli : mqtt_client_t :=
  mqtt_client_add_reconnect_timer (notify (set_type (cli.[connected := false]) MQTT_TYPE_DISCONNECT)).

Definition connect_timeout_cb cli : mqtt_client_t := hio_close (cli.[timer := None].[error := ETIMEDOUT]).

Definition on_connect cli (random_id : list Z) : option mqtt_client_t :=
  let cli := notify (set_type cli MQTT_TYPE_CONNECT) in
  let cli := cli.[reconn_setting := reconn_setting_reset <$> reconn_setting cli] in
  fst <$> mqtt_client_login cli random_id.

(** * Receiving *)

(** [mqtt_v5_skip_properties]: [Some None] when they are malformed. *)
Definition mqtt_v5_skip_properties (buf : list Z) (p end_ : Z) : option (option Z) :=
  let bytes := end_ - p in
  if bytes <=? 0 then Some None
  else
    '(v, bytes) ← varint_decode (drop (Z.to_nat p) buf) (Some bytes);
    let prop_len := i32 v in
    let bytes := default 0 bytes in
    if bytes <=? 0 then Some None
    else let p := p + bytes in if end_ <? p + prop_len then Some None else Some (Some (p + prop_len)).

(** Properties are there for version 5 when anything is left. *)
Definition skip_if_v5 cli (buf : list Z) (p end_ : Z) : option (option Z) :=
  if (protocol_version cli =? MQTT_PROTOCOL_V5) && (p <? end_) then mqtt_v5_skip_properties buf p end_ else Some (Some p).

Definition on_connack cli (buf : list Z) (p end_ : Z) : option mqtt_client_t :=
  if length_ (head cli) <? 2 then Some (hio_close cli)
  else
    '(conn_flags, p) ← POP8 buf p;
    '(rc, p) ← POP8 buf p;
    if negb (rc =? MQTT_CONNACK_ACCEPTED) then Some (hio_close (cli.[error := rc]))
    else
      q ← skip_if_v5 cli buf p end_;
      match q with
      | None => Some (hio_close cli)
      | Some _ =>
          let cli := cli.[connected := true].[timer := None] in
          let cli := if keepalive cli =? 0 then cli else cli.[ping_cnt := 0].[heartbeat := Some (keepalive cli * 1000)] in
          Some (notify cli)
      end.

(** The topic and the payload are those the callback finds at the pointers. *)
Definition on_publish cli (buf : list Z) (p end_ : Z) : option mqtt_client_t :=
  if length_ (head cli) <? 2 then Some (hio_close cli)
  else
    '(topic_len, p) ← POP16 buf p;
    if end_ - p <? topic_len then Some (hio_close (cli.[message := mk_message topic_len [] 0 [] 0 0 []]))
    else
      topic ← zslice buf p topic_len;
      let p := p + topic_len in
      let msg0 := mk_message topic_len topic 0 [] 0 0 [] in
      let qos := qos (head cli) in
      if (0 <? qos) && (end_ - p <? 2) then Some (hio_close (cli.[message := msg0]))
      else
        '(m, p) ← (if 0 <? qos then POP16 buf p else Some (mid cli, p));
        let cli := cli.[mid := m] in
        q ← skip_if_v5 cli buf p end_;
        match q with
        | None => Some (hio_close (cli.[message := msg0]))
        | Some p =>
            payload ← zslice buf p (end_ - p);
            let cli := cli.[message := mk_message topic_len topic (end_ - p) payload qos 0 []] in
            cli ← (if qos =? 1 then fst <$> mqtt_send_head_with_mid cli MQTT_TYPE_PUBACK m
                   else if qos =? 2 then fst <$> mqtt_send_head_with_mid cli MQTT_TYPE_PUBREC m
                   else Some cli);
            Some (notify cli)
        end.

Definition on_puback cli (buf : list Z) (p end_ : Z) : option mqtt_client_t :=
  if length_ (head cli) <? 2 then Some (hio_close cli)
  else
    '(m, p) ← POP16 buf p;
    let cli := cli.[mid := m] in
    cli ← (if type (head cli) =? MQTT_TYPE_PUBREC then fst <$> mqtt_send_head_with_mid cli MQTT_TYPE_PUBREL m
           else if type (head cli) =? MQTT_TYPE_PUBREL then fst <$> mqtt_send_head_with_mid cli MQTT_TYPE_PUBCOMP m
           else Some cli);
    Some (notify cli).

Definition on_suback cli (buf : list Z) (p end_ : Z) : option mqtt_client_t :=
  if length_ (head cli) <? 2 then Some (hio_close cli)
  else
    '(m, p) ← POP16 buf p;
    let cli := cli.[mid := m] in
    q ← skip_if_v5 cli buf p end_;
    match q with None => Some (hio_close cli) | Some _ => Some (notify cli) end.

(** [on_packet] of a whole packet; [None] is a read outside it. *)
Definition on_packet cli (buf : list Z) : option mqtt_client_t :=
  let end_ := zlen buf in
  '(h, headlen) ← mqtt_head_unpack buf end_;
  let cli := cli.[head := h] in
  let t := type h in
  if headlen <=? 0 then Some cli
  else if t =? MQTT_TYPE_CONNACK then on_connack cli buf headlen end_
  else if t =? MQTT_TYPE_PUBLISH then on_publish cli buf headlen end_
  else if (t =? MQTT_TYPE_PUBACK) || (t =? MQTT_TYPE_PUBREC) || (t =? MQTT_TYPE_PUBREL) || (t =? MQTT_TYPE_PUBCOMP)
  then on_puback cli buf headlen end_
  else if (t =? MQTT_TYPE_SUBACK) || (t =? MQTT_TYPE_UNSUBACK) then on_suback cli buf headlen end_
  else if t =? MQTT_TYPE_PINGREQ then mqtt_send_pong cli
  else if t =? MQTT_TYPE_PINGRESP then Some (cli.[ping_cnt := 0])
  else Some (hio_close cli).

End MqttClient.
