(* ===== verification/MqttServer.v ===== *)
(** The MQTT broker (mqtt/mqtt_server.h, mqtt/mqtt_server.cpp): sessions, the packets
    they send, and the distribution of messages through the topic tree. *)
From S2P Require Import Prelude HMath MqttProtocol TopicTree.
From Stdlib Require Import Ascii String.
Local Open Scope list_scope.
Local Open Scope Z_scope.

Module MqttServer.
Import HMath MqttProtocol.

(** * Sessions *)

(** [sent] are the bytes written to the session's channel, which is there until the
    session is closed. *)
Record MqttSession := mk_session {
  channel_open : bool; version : Z; will_topic : list Z; will_payload : list Z; will_prop : list Z; mid : Z; sent : list Z }.
#[global] Instance session_rebuild : Rebuild MqttSession :=
  fun s => mk_session (channel_open s) (version s) (will_topic s) (will_payload s) (will_prop s) (mid s) (sent s).
Definition new_session : MqttSession := mk_session true MQTT_PROTOCOL_V311 [] [] [] 0 [].

Implicit Types (s : MqttSession).

Definition write s (buff : list Z) : MqttSession := if channel_open s then s.[sent := sent s ++ buff] else s.
Definition close s : MqttSession := s.[channel_open := false].

(** [parseProp] at offset [p]: the properties and the offset after them; [Some None]
    is the null pointer. *)
Definition parseProp s (buf : list Z) (p : Z) : option (option (list Z * Z)) :=
  if negb (version s =? MQTT_PROTOCOL_V5) then Some (Some ([], p))
  else
    '(v, prop_bytes) ← varint_decode (drop (Z.to_nat p) buf) (Some 0);
    let prop_len := i32 v in
    let prop_bytes := default 0 prop_bytes in
    if prop_bytes <=? 0 then Some None
    else
      data ← zslice buf (p + prop_bytes) (u16 prop_len);
      Some (Some (data, p + prop_bytes + prop_len)).
(** Using the pointer: a null one is read. *)
Definition parse_prop s buf p : option (list Z * Z) := r ← parseProp s buf p; r.

Definition send s (type_ : Z) (data : list Z) : option MqttSession :=
  w ← mqtt_head_pack (mk_head type_ 0 0 0 (u32 (zlen data))) (repeat 0 8, 0);
  let s := write s (written w) in
  Some (if zlen data =? 0 then s else write s data).

(** [MqttSession::publish]; the properties of the message may be uninitialised. *)
Definition publish_session s (msg : mqtt_message_t) (initialised : bool) : option MqttSession :=
  let v5 := version s =? MQTT_PROTOCOL_V5 in
  if v5 && negb initialised then None
  else
    '(propb, propl) ← (if v5 then varint_encode (zlen (prop msg)) (repeat 0 5) else Some ([], 0));
    let head_length := u32 (2 + topic_len msg + payload_len msg + (if msg_qos msg =? 0 then 0 else 2)
      + (if v5 then propl + zlen (prop msg) else 0)) in
    let head := mk_head MQTT_TYPE_PUBLISH 0 (Z.land (msg_qos msg) 3) (Z.land (msg_retain msg) 1) head_length in
    w ← mqtt_head_pack head (repeat 0 (Z.to_nat (u32 (head_length - payload_len msg + 12))), 0);
    w ← PUSH16 (topic_len msg) w;
    topic ← zslice (topic msg) 0 (topic_len msg);
    w ← PUSH_N topic w;
    '(s, w) ← (if qos head =? 0 then Some (s, w) else let m := u16 (mid s + 1) in w ← PUSH16 m w; Some (s.[mid := m], w));
    w ← (if v5 then w ← PUSH_N (take (Z.to_nat propl) propb) w; PUSH_N (prop msg) w else Some w);
    let s := write s (written w) in
    if payload_len msg =? 0 then Some s
    else data ← zslice (payload msg) 0 (payload_len msg); Some (write s data).

Definition sendAck s (type_ m reason : Z) : option MqttSession :=
  let v5 := version s =? MQTT_PROTOCOL_V5 in
  let head := mk_head type_ 0 (if type_ =? MQTT_TYPE_PUBREL then 1 else 0) 0 (if v5 then 4 else 2) in
  w ← mqtt_head_pack head (repeat 0 12, 0);
  w ← PUSH16 m w;
  w ← (if v5 then w ← PUSH8 reason w; PUSH8 0 w else Some w);
  Some (write s (written w)).

(** * The broker *)

(** The sessions that exist, by identity; [published] are the messages the
    application was told of. *)
Record Server := mk_server { topic_tree : TopicTree.TopicNode; sessions : gmap Z MqttSession; published : list mqtt_message_t }.
#[global] Instance server_rebuild : Rebuild Server := fun v => mk_server (topic_tree v) (sessions v) (published v).
Definition new_server : Server := mk_server TopicTree.TopicTree ∅ [].

Implicit Types (srv : Server).

Definition live srv (id : Z) : bool := bool_decide (is_Some (sessions srv !! id)).
Definition string_of_bytes (l : list Z) : string := string_of_list_ascii (map (fun b => ascii_of_N (Z.to_N b)) l).

Definition on_session srv (id : Z) (f : MqttSession -> option MqttSession) : option Server :=
  match sessions srv !! id with
  | Some s => s ← f s; Some (srv.[sessions := <[id := s]> (sessions srv)])
  | None => Some srv
  end.

(** The loop of [MqttServer::publish] over the matches. *)
Fixpoint publish_all srv (msg : mqtt_message_t) (matchs : list TopicTree.SubscriptionInfo) : option Server :=
  match matchs with
  | [] => Some srv
  | it :: matchs =>
      srv ← on_session srv (TopicTree.sub_session it) (fun s => publish_session s msg true);
      publish_all srv msg matchs
  end.
Definition publish srv (msg : mqtt_message_t) : option Server :=
  topic ← zslice (topic msg) 0 (topic_len msg);
  publish_all srv msg (TopicTree.get_subscribers (live srv) (topic_tree srv) (string_of_bytes topic)).

(** The will of a session that ends. *)
Definition closeSession srv (id : Z) : option Server :=
  match sessions srv !! id with
  | Some s =>
      if zlen (will_topic s) =? 0 then Some srv
      else
        srv ← publish srv (mk_message (zlen (will_topic s)) (will_topic s) (zlen (will_payload s)) (will_payload s) 0 0 (will_prop s));
        on_session srv id (fun s => Some (s.[will_topic := []].[will_payload := []].[will_prop := []]))
  | None => Some srv
  end.

(** [onConnection]: a channel opens with a session of its own; when it is gone, so
    is the session. *)
Definition connect srv (id : Z) : Server := srv.[sessions := <[id := new_session]> (sessions srv)].
Definition disconnect srv (id : Z) : option Server :=
  srv ← closeSession srv id; Some (srv.[sessions := delete id (sessions srv)]).

(** * Packets *)

(** [POPSTR]: the field as a slice, which is there when [p] stays within the packet. *)
Definition POPSTR (buf : list Z) (p : Z) : option (Z * Z * Z) :=
  '(len, p) ← POP16 buf p; Some (p, len, p + len).

(** Reading continues when [b], otherwise the handler returns. *)
Definition unless_past {A} (p end_ : Z) (dflt : option A) (k : option A) : option A := if end_ <? p then dflt else k.

(** The will in CONNECT: the broker, the topic and the payload, the offset, and
    whether the handler returns. *)
Definition read_will srv (id : Z) s (buf : list Z) (cflag p end_ : Z) : option (Server * list Z * list Z * Z * bool) :=
  if negb (has_flag cflag MQTT_CONN_HAS_WILL) then Some (srv, [], [], p, false)
  else
    '(wprop, p) ← parse_prop s buf p;
    '(t, t_len, p) ← POPSTR buf p;
    if end_ <? p then Some (srv, [], [], p, true)
    else
      '(y, y_len, p) ← POPSTR buf p;
      if end_ <? p then Some (srv, [], [], p, true)
      else
        wt ← zslice buf t t_len; wp ← zslice buf y y_len;
        srv ← on_session srv id (fun s => Some (s.[will_prop := wprop].[will_topic := wt].[will_payload := wp]));
        Some (srv, wt, wp, p, false).

Section Handlers.
(** [onAuth], which accepts every connection unless the application sets it. *)
Context (onAuth : mqtt_conn_t -> Z).

Definition on_connect srv (id : Z) (buf : list Z) (p end_ : Z) : option Server :=
  '(proto, proto_len, p) ← POPSTR buf p;
  '(ver, p) ← POP8 buf p;
  '(cflag, p) ← POP8 buf p;
  '(keepalive, p) ← POP16 buf p;
  srv ← on_session srv id (fun s => Some (s.[version := ver]));
  s ← sessions srv !! id;
  '(_, p) ← parse_prop s buf p;
  '(cid, cid_len, p) ← POPSTR buf p;
  unless_past p end_ (Some srv) (
  '(srv, wt, wp, p, stop) ← read_will srv id s buf cflag p end_;
  if stop : bool then Some srv
  else
    '(u, u_len, p) ← (if has_flag cflag MQTT_CONN_HAS_USERNAME then POPSTR buf p else Some (0, 0, p));
    unless_past p end_ (Some srv) (
    '(w, w_len, p) ← (if has_flag cflag MQTT_CONN_HAS_PASSWORD then POPSTR buf p else Some (0, 0, p));
    unless_past p end_ (Some srv) (
    proto ← zslice buf proto proto_len; cid ← zslice buf cid cid_len; u ← zslice buf u u_len; w ← zslice buf w w_len;
    let conn := mk_conn proto ver cflag keepalive cid wt wp u w in
    on_session srv id (fun s => send s MQTT_TYPE_CONNACK ([0; u8 (onAuth conn)] ++ (if ver =? MQTT_PROTOCOL_V5 then [0] else [])))))).

Definition on_publish srv (id : Z) (head : mqtt_head_t) (buf : list Z) (p : Z) : option Server :=
  if length_ head <? 2 then on_session srv id (fun s => Some (close s))
  else
    let end_ := p + length_ head in
    '(topic_len, p) ← POP16 buf p;
    let topic_at := p in
    let p := p + topic_len in
    if (0 <? qos head) && (end_ - p <? 2) then on_session srv id (fun s => Some (close s))
    else
      '(m, p) ← (if 0 <? qos head then POP16 buf p else Some (0, p));
      s ← sessions srv !! id;
      '(props, p) ← parse_prop s buf p;
      let payload_len := u32 (end_ - p) in
      payload ← zslice buf p payload_len;
      topic ← zslice buf topic_at topic_len;
      let message := mk_message topic_len topic payload_len payload (qos head) (retain head) props in
      srv ← (if qos head =? 1 then on_session srv id (fun s => sendAck s MQTT_TYPE_PUBACK m 0)
             else if qos head =? 2 then on_session srv id (fun s => sendAck s MQTT_TYPE_PUBREC m 0)
             else Some srv);
      start0 ← zget buf 0;
      srv ← (if negb (Z.land start0 1 =? 0) then
               kept ← (if 0 <? payload_len then zslice buf 0 end_ else Some []);
               Some (srv.[topic_tree := TopicTree.set_retained_message (topic_tree srv) (string_of_bytes topic) kept (qos head) (negb (dup head =? 0))])
             else Some srv);
      srv ← publish srv message;
      Some (srv.[published := published srv ++ [message]]).

Definition on_puback srv (id : Z) (head : mqtt_head_t) (buf : list Z) (p : Z) : option Server :=
  if length_ head <? 2 then on_session srv id (fun s => Some (close s))
  else
    '(m, p) ← POP16 buf p;
    if type head =? MQTT_TYPE_PUBREC then on_session srv id (fun s => sendAck s MQTT_TYPE_PUBREL m 0)
    else if type head =? MQTT_TYPE_PUBREL then on_session srv id (fun s => sendAck s MQTT_TYPE_PUBCOMP m 0)
    else Some srv.

(** A retained message as it is sent. *)
Definition retained_message (name : string) (m : TopicTree.RetainedMessage) (qos : Z) : mqtt_message_t :=
  let topic := bytes_of_string name in
  mk_message (zlen topic) topic (zlen (TopicTree.payload m)) (TopicTree.payload m) (Z.min qos (TopicTree.ret_qos m)) 1 [].
(** The retained messages, whose properties are left uninitialised. *)
Fixpoint send_retained srv (id qos : Z) (msgs : list (string * TopicTree.RetainedMessage)) : option Server :=
  match msgs with
  | [] => Some srv
  | (name, m) :: msgs =>
      srv ← on_session srv id (fun s => publish_session s (retained_message name m qos) false);
      send_retained srv id qos msgs
  end.

(** The answer to SUBSCRIBE. *)
Definition suback_data s (m q : Z) : list Z := be16 m ++ [q] ++ (if version s =? MQTT_PROTOCOL_V5 then [0] else []).

Definition on_subscribe srv (id : Z) (head : mqtt_head_t) (buf : list Z) (p : Z) : option Server :=
  if length_ head <=? 1 then Some srv
  else
    '(m, p) ← POP16 buf p;
    s ← sessions srv !! id;
    '(_, p) ← parse_prop s buf p;
    '(topic_len, p) ← POP16 buf p;
    let topic_at := p in
    '(q, p) ← POP8 buf (p + topic_len);
    srv ← on_session srv id (fun s => send s MQTT_TYPE_SUBACK (suback_data s m q));
    topic ← zslice buf topic_at topic_len;
    let name := string_of_bytes topic in
    let srv := srv.[topic_tree := (TopicTree.subscribe (live srv) (topic_tree srv) name id q false "").1] in
    send_retained srv id q (TopicTree.get_retained_messages (topic_tree srv) name).

Definition on_unsubscribe srv (id : Z) (head : mqtt_head_t) (buf : list Z) (p : Z) : option Server :=
  if length_ head <=? 1 then Some srv
  else
    '(m, p) ← POP16 buf p;
    s ← sessions srv !! id;
    '(_, p) ← parse_prop s buf p;
    srv ← on_session srv id (fun s => sendAck s MQTT_TYPE_UNSUBACK m 0);
    '(topic_len, p) ← POP16 buf p;
    topic ← zslice buf p topic_len;
    Some (srv.[topic_tree := (TopicTree.unsubscribe (live srv) (topic_tree srv) (string_of_bytes topic) id "").1]).

Definition onMqttMessage srv (id : Z) (head : mqtt_head_t) (buf : list Z) (p : Z) : option Server :=
  let t := type head in
  if t =? MQTT_TYPE_CONNECT then on_connect srv id buf p (p + length_ head)
  else if t =? MQTT_TYPE_PUBLISH then on_publish srv id head buf p
  else if (t =? MQTT_TYPE_PUBACK) || (t =? MQTT_TYPE_PUBREC) || (t =? MQTT_TYPE_PUBREL) || (t =? MQTT_TYPE_PUBCOMP)
  then on_puback srv id head buf p
  else if t =? MQTT_TYPE_SUBSCRIBE then on_subscribe srv id head buf p
  else if t =? MQTT_TYPE_UNSUBSCRIBE then on_unsubscribe srv id head buf p
  else if t =? MQTT_TYPE_PINGREQ then on_session srv id (fun s => send s MQTT_TYPE_PINGRESP [])
  else if t =? MQTT_TYPE_DISCONNECT then on_session srv id (fun s => Some (close s))
  else Some srv.

(** [onMessage] of the TCP server: a packet from the unpacker. [None] is a read
    outside the packet or through a null pointer. *)
Definition onMessage srv (id : Z) (buf : list Z) : option Server :=
  '(head, headlen) ← mqtt_head_unpack buf (zlen buf);
  if (headlen <=? 0) || (zlen buf <? u32 (headlen + length_ head)) then Some srv
  else onMqttMessage srv id head buf headlen.

End Handlers.
End MqttServer.
