(* ===== verification/MqttThm.v ===== *)
(** What the MQTT client and the broker promise each other: packets are read as they
    were written, connections are set up, messages reach the matching sessions. *)
From S2P Require Import Prelude HMath MqttProtocol MqttClient MqttServer TopicTree TopicTreeThm.

Local Open Scope list_scope.
Local Open Scope Z_scope.

Module MqttThm.
Import HMath MqttProtocol.

(** * Writing packets *)

(** [w] has written [d] and has room for [n] bytes more. *)
Definition Wr (w : writer) (d : list Z) (n : Z) : Prop :=
  exists room, w = (d ++ room, zlen d) /\ zlen room = n.

Lemma Wr_start n : 0 <= n -> Wr (repeat 0 (Z.to_nat n), 0) [] n.
Proof. intros Hn. exists (repeat 0 (Z.to_nat n)). split; [done|]. unfold zlen. rewrite repeat_length. lia. Qed.

Lemma Wr_written w d n : Wr w d n -> written w = d.
Proof. intros (room&->&_). unfold written, zlen. cbn. by rewrite Nat2Z.id, take_app_length. Qed.

Lemma push_ok w d n v : Wr w d n -> zlen v <= n -> exists w', PUSH_N v w = Some w' /\ Wr w' (d ++ v) (n - zlen v).
Proof.
  intros (room&->&Hn) Hv. unfold PUSH_N. cbn [fst snd].
  set (mid := take (length v) room). set (post := drop (length v) room).
  assert (Hr : room = mid ++ post) by (unfold mid, post; by rewrite take_drop).
  assert (Hm : zlen mid = zlen v) by (unfold mid, zlen in *; rewrite length_take; lia).
  rewrite Hr; rewrite (zcopy_at d mid post v (zlen d)) by done. cbn [mbind option_bind]. eexists. split; [reflexivity|].
  exists post. rewrite app_assoc, zlen_app. split; [done|]. unfold post, zlen in *. rewrite length_drop. lia.
Qed.

Lemma push8_ok w d n v : Wr w d n -> 1 <= n -> exists w', PUSH8 v w = Some w' /\ Wr w' (d ++ [u8 v]) (n - 1).
Proof. intros Hw Hn. by apply (push_ok w d n [u8 v]). Qed.
Lemma push16_ok w d n v : Wr w d n -> 2 <= n -> exists w', PUSH16 v w = Some w' /\ Wr w' (d ++ be16 v) (n - 2).
Proof. intros Hw Hn. by apply (push_ok w d n (be16 v)). Qed.

(** * The fixed header *)

Record head_ok (h : mqtt_head_t) : Prop := {
  ok_type : 0 <= type h < 16; ok_dup : 0 <= dup h < 2; ok_qos : 0 <= qos h < 4; ok_retain : 0 <= retain h < 2;
  ok_length : 0 <= length_ h < 268435456 }.

Definition head_byte (h : mqtt_head_t) : Z := type h * 16 + dup h * 8 + qos h * 2 + retain h.
Definition head_bytes (h : mqtt_head_t) : list Z := head_byte h :: groups 10 (length_ h).

Lemma groups_4 v : 0 <= v < 268435456 -> 1 <= zlen (groups 10 v) <= 4.
Proof.
  intros Hv. split; [by apply groups_pos; lia|]. cbn [groups].
  destruct (Z.ltb_spec v 128); [by zlen_simpl|]. destruct (Z.ltb_spec (v / 128) 128); [by zlen_simpl|].
  destruct (Z.ltb_spec (v / 128 / 128) 128); [by zlen_simpl|].
  destruct (Z.ltb_spec (v / 128 / 128 / 128) 128); [by zlen_simpl|]. zdm.
Qed.

Lemma zlen_head_bytes h : head_ok h -> 2 <= zlen (head_bytes h) <= 5.
Proof. intros H. unfold head_bytes. rewrite zlen_cons. pose proof (groups_4 _ (ok_length _ H)). lia. Qed.

Lemma head_fields h : head_ok h ->
  u8 (Z.lor (Z.lor (Z.lor (Z.shiftl (type h) 4) (Z.shiftl (dup h) 3)) (Z.shiftl (qos h) 1)) (retain h)) = head_byte h.
Proof.
  intros [Ht Hd Hq Hr _]. unfold head_byte. destruct h as [t d q r l]. cbn in *.
  pose proof (seqZ_check (fun x => u8 (Z.lor (Z.lor (Z.lor (Z.shiftl (x / 16) 4) (Z.shiftl (x / 8 mod 2) 3)) (Z.shiftl (x / 2 mod 4) 1)) (x mod 2)) =? x)
    256 ltac:(by vm_compute) (t * 16 + d * 8 + q * 2 + r) ltac:(lia)) as H. cbv beta in H.
  apply Z.eqb_eq in H.
  replace ((t * 16 + d * 8 + q * 2 + r) / 16) with t in H by zdm.
  replace ((t * 16 + d * 8 + q * 2 + r) / 8 mod 2) with d in H by zdm.
  replace ((t * 16 + d * 8 + q * 2 + r) / 2 mod 4) with q in H by zdm.
  replace ((t * 16 + d * 8 + q * 2 + r) mod 2) with r in H by zdm. done.
Qed.

Lemma head_pack_ok w d n h : Wr w d n -> head_ok h -> 5 <= n ->
  exists w', mqtt_head_pack h w = Some w' /\ Wr w' (d ++ head_bytes h) (n - zlen (head_bytes h)).
Proof.
  intros Hw Hh Hn. pose proof (ok_length _ Hh) as Hl. pose proof (groups_4 _ Hl) as Hg. unfold mqtt_head_pack.
  destruct (push8_ok w d n (Z.lor (Z.lor (Z.lor (Z.shiftl (type h) 4) (Z.shiftl (dup h) 3)) (Z.shiftl (qos h) 1)) (retain h)) Hw ltac:(lia))
    as (w1&->&(room&->&Hr)). cbn [mbind option_bind]. rewrite head_fields by done.
  set (g := groups 10 (length_ h)) in *.
  assert (Hd : drop (Z.to_nat (zlen (d ++ [head_byte h]))) ((d ++ [head_byte h]) ++ room) = room).
  { unfold zlen. by rewrite Nat2Z.id, drop_app_length. }
  assert (Ht : take (Z.to_nat (zlen (d ++ [head_byte h]))) ((d ++ [head_byte h]) ++ room) = d ++ [head_byte h]).
  { unfold zlen. by rewrite Nat2Z.id, take_app_length. }
  rewrite Hd, Ht.
  pose proof (varint_encode_groups 10 (length_ h) [] (take (length g) room) (drop (length g) room)) as He.
  cbn [app] in He. change (zlen []) with 0 in He. fold g in He. unfold varint_encode. rewrite take_drop in He.
  rewrite He; [|lia|cbn; lia|rewrite length_take; unfold zlen in *; lia]. cbn [mbind option_bind].
  eexists. split; [reflexivity|]. exists (drop (length g) room). unfold head_bytes. fold g. split.
  - rewrite <- !app_assoc. cbn [app]. f_equal. rewrite !zlen_app, !zlen_cons. change (zlen []) with 0. lia.
  - rewrite zlen_cons. unfold zlen in *. rewrite length_drop. lia.
Qed.

Lemma head_bits h : head_ok h ->
  Z.land (Z.shiftr (head_byte h) 4) 15 = type h /\ Z.land (Z.shiftr (head_byte h) 3) 1 = dup h /\
  Z.land (Z.shiftr (head_byte h) 1) 3 = qos h /\ Z.land (head_byte h) 1 = retain h.
Proof.
  intros [Ht Hd Hq Hr _]. unfold head_byte. bits_to_arith.
  rewrite !(fun z => land_mask z 1 1 ltac:(lia) eq_refl). change (2 ^ 1) with 2. split_and!; zdm.
Qed.

Lemma head_unpack_ok h rest : head_ok h -> zlen (head_bytes h) + zlen rest < 2147483648 ->
  mqtt_head_unpack (head_bytes h ++ rest) (zlen (head_bytes h ++ rest)) = Some (h, zlen (head_bytes h)).
Proof.
  intros Hh Hz. pose proof (ok_length _ Hh) as Hl. pose proof (groups_4 _ Hl) as Hg. unfold mqtt_head_unpack, head_bytes in *.
  cbn [app]. rewrite zget_0. cbn [mbind option_bind]. change (drop 1 (head_byte h :: groups 10 (length_ h) ++ rest)) with (groups 10 (length_ h) ++ rest).
  rewrite zlen_cons, zlen_app. set (len := 1 + (zlen (groups 10 (length_ h)) + zlen rest) - 1).
  pose proof (varint_decode_groups 10 (length_ h) [] rest (Some len) 0) as Hd. cbn [app] in Hd. change (zlen []) with 0 in Hd. change (7 * 0) with 0 in Hd.
  unfold varint_decode. pose proof (zlen_nonneg rest) as Hrn. rewrite Hd; [|lia|lia|cbn; lia|cbn; lia|cbn; lia|].
  2: { right. right. exists len. split; [done|]. unfold len. lia. }
  cbn [mbind option_bind set_len fmap option_fmap default]. 
  replace (0 + length_ h * 2 ^ 0) with (length_ h) by lia. rewrite u32_small by lia.
  replace (0 + zlen (groups 10 (length_ h))) with (zlen (groups 10 (length_ h))) by lia.
  unfold set_len. remember (groups 10 (length_ h)) as g. cbn. destruct (Z.leb_spec (zlen g) 0); [lia|]. rewrite zlen_cons.
  destruct (head_bits h Hh) as (->&->&->&->). by destruct h.
Qed.

(** * Reading packets *)

Lemma be16_val v : 0 <= v < 65536 -> exists hi lo, be16 v = [hi; lo] /\ hi * 256 + lo = v /\ 0 <= hi < 256 /\ 0 <= lo < 256.
Proof.
  intros Hv. exists (u8 (Z.shiftr v 8)), (u8 v). split; [done|]. unfold u8. bits_to_arith. split_and!; zdm.
Qed.

Lemma pop8_at pre v post p : p = zlen pre -> POP8 (pre ++ v :: post) p = Some (v, p + 1).
Proof. intros ->. unfold POP8. by rewrite zget_middle. Qed.
Lemma pop16_at pre v post p : p = zlen pre -> 0 <= v < 65536 -> POP16 (pre ++ be16 v ++ post) p = Some (v, p + 2).
Proof.
  intros -> Hv. destruct (be16_val v Hv) as (hi&lo&->&<-&_). unfold POP16. cbn [app].
  rewrite (zget_middle pre hi (lo :: post) (zlen pre) eq_refl). cbn [mbind option_bind].
  pose proof (zget_middle (pre ++ [hi]) lo post (zlen pre + 1)) as Hg. rewrite <- app_assoc in Hg. cbn [app] in Hg.
  rewrite Hg; [done|]. by rewrite zlen_app.
Qed.
Lemma slice_at (pre x post : list Z) p n : p = zlen pre -> n = zlen x -> zslice (pre ++ x ++ post) p n = Some x.
Proof. intros -> ->. by apply zslice_app. Qed.
Lemma slice_all (x : list Z) n : n = zlen x -> zslice x 0 n = Some x.
Proof. intros ->. pose proof (zslice_app [] x [] 0 (zlen x) eq_refl eq_refl) as H. by rewrite app_nil_r in H. Qed.

Lemma drop_at (pre post : list Z) p : p = zlen pre -> drop (Z.to_nat p) (pre ++ post) = post.
Proof. intros ->. unfold zlen. by rewrite Nat2Z.id, drop_app_length. Qed.

(** The version 5 properties: their length, then their bytes. *)
Definition props (v5 : bool) (pr : list Z) : list Z := if v5 then groups 10 (zlen pr) ++ pr else [].

Lemma varint_at v post len : 0 <= v < 268435456 -> len = 0 \/ zlen (groups 10 v) <= len ->
  varint_decode (groups 10 v ++ post) (Some len) = Some (v, Some (zlen (groups 10 v))).
Proof.
  intros Hv Hl. pose proof (groups_4 _ Hv).
  pose proof (varint_decode_groups 10 v [] post (Some len) 0) as Hd. cbn [app] in Hd. change (zlen []) with 0 in Hd.
  change (7 * 0) with 0 in Hd. unfold varint_decode. rewrite Hd; [|lia|lia|cbn; lia|cbn; lia|cbn; lia|].
  - unfold set_len. cbn [fmap option_fmap option_map]. repeat f_equal; lia.
  - destruct Hl as [->|Hl]; [auto|]. right. right. exists len. split; [done|]. lia.
Qed.

Lemma parse_prop_at s (pre pr post : list Z) p : p = zlen pre -> zlen pr < 65536 ->
  MqttServer.parse_prop s (pre ++ props (MqttServer.version s =? MQTT_PROTOCOL_V5) pr ++ post) p
  = Some (if MqttServer.version s =? MQTT_PROTOCOL_V5 then pr else [], p + zlen (props (MqttServer.version s =? MQTT_PROTOCOL_V5) pr)).
Proof.
  intros Hp Hl. pose proof (zlen_nonneg pr) as Hn. unfold MqttServer.parse_prop, MqttServer.parseProp.
  destruct (MqttServer.version s =? MQTT_PROTOCOL_V5); cbn [negb props]; [|by rewrite zlen_nil, Z.add_0_r].
  rewrite <- !app_assoc, drop_at by done. rewrite varint_at by lia. cbn [mbind option_bind default].
  pose proof (groups_4 (zlen pr) ltac:(lia)). unfold from_option, id.
  destruct (Z.leb_spec (zlen (groups 10 (zlen pr))) 0); [lia|]. rewrite i32_small, u16_small by lia.
  rewrite (app_assoc pre), (slice_at (pre ++ groups 10 (zlen pr)) pr post) by (rewrite ?zlen_app; lia || done). cbn [mbind option_bind]. do 2 f_equal. rewrite zlen_app. lia.
Qed.

(** * PUBLISH packets *)

Definition publish_head (q r len : Z) : mqtt_head_t := mk_head MQTT_TYPE_PUBLISH 0 q r len.
Definition publish_body (v5 : bool) (t m pr pay : list Z) : list Z := be16 (zlen t) ++ t ++ m ++ props v5 pr ++ pay.
Definition publish_packet (v5 : bool) (q r : Z) (t m pr pay : list Z) : list Z :=
  head_bytes (publish_head q r (zlen (publish_body v5 t m pr pay))) ++ publish_body v5 t m pr pay.

Lemma zlen_publish_body v5 t m pr pay : zlen (publish_body v5 t m pr pay) = 2 + zlen t + zlen m + zlen (props v5 pr) + zlen pay.
Proof. unfold publish_body. rewrite !zlen_app. change (zlen (be16 (zlen t))) with 2. lia. Qed.

Lemma publish_head_ok q r len : 0 <= q < 4 -> 0 <= r < 2 -> 0 <= len < 268435456 -> head_ok (publish_head q r len).
Proof. intros Hq Hr Hl. split; cbn; unfold MQTT_TYPE_PUBLISH; lia. Qed.

(** ** The client's side *)

(** An io that takes what it is given. *)
Definition writable (cli : MqttClient.mqtt_client_t) : Prop :=
  MqttClient.closed (MqttClient.io cli) = false /\ MqttClient.refuses (MqttClient.io cli) = false.
Definition took (cli : MqttClient.mqtt_client_t) (bytes : list Z) : MqttClient.mqtt_client_t :=
  cli.[MqttClient.io := MqttClient.mk_hio false false (MqttClient.accepted (MqttClient.io cli) ++ bytes)].

Lemma client_send_ok cli bytes : writable cli -> MqttClient.mqtt_client_send cli bytes = (took cli bytes, 0).
Proof. intros [Hc Hr]. unfold MqttClient.mqtt_client_send, MqttClient.hio_write. by rewrite Hc, Hr. Qed.
Lemma writable_took cli bytes : writable (took cli bytes).
Proof. done. Qed.
Lemma took_took cli a b : took (took cli a) b = took cli (a ++ b).
Proof. unfold took. destruct cli. cbn. by rewrite <- app_assoc. Qed.
Lemma accepted_took cli a : MqttClient.accepted (MqttClient.io (took cli a)) = MqttClient.accepted (MqttClient.io cli) ++ a.
Proof. done. Qed.
Lemma took_nil cli : writable cli -> took cli [] = cli.
Proof. intros [Hc Hr]. unfold took. destruct cli as [? ? ? ? ? ? ? ? ? ? ? ? ? ? [c r a]]. cbn in *. subst. by rewrite app_nil_r. Qed.

Lemma push_field_ok w d n s len : Wr w d n -> len = zlen s -> 2 + zlen s <= n ->
  exists w', MqttClient.PUSH_FIELD s len w = Some w' /\ Wr w' (d ++ be16 (zlen s) ++ s) (n - (2 + zlen s)).
Proof.
  intros Hw -> Hn. pose proof (zlen_nonneg s). unfold MqttClient.PUSH_FIELD.
  destruct (push16_ok w d n (zlen s) Hw ltac:(lia)) as (w1&->&H1). cbn [mbind option_bind]. rewrite slice_all by done. cbn [mbind option_bind].
  destruct (push_ok w1 _ _ s H1 ltac:(lia)) as (w2&->&H2). exists w2. rewrite app_assoc. replace (n - (2 + zlen s)) with (n - 2 - zlen s) by lia. done.
Qed.

Lemma when_ok (b : bool) f w d n x : Wr w d n ->
  (b = true -> exists w', f w = Some w' /\ Wr w' (d ++ x) (n - zlen x)) ->
  exists w', MqttClient.when b f w = Some w' /\ Wr w' (d ++ if b then x else []) (n - zlen (if b then x else [])).
Proof.
  intros Hw Hf. unfold MqttClient.when. destruct b; [by apply Hf|]. exists w. by rewrite app_nil_r, zlen_nil, Z.sub_0_r.
Qed.

(** The text a length and a block of memory stand for is the whole block. *)
Definition whole (s : list Z) (n : Z) : Prop := (if n =? 0 then MqttClient.strlen s else n) = zlen s.

Record sendable (cli : MqttClient.mqtt_client_t) (msg : mqtt_message_t) : Prop := {
  snd_conn : MqttClient.connected cli = true; snd_io : writable cli;
  snd_topic : whole (topic msg) (topic_len msg); snd_payload : whole (payload msg) (payload_len msg);
  snd_tlen : zlen (topic msg) < 65536; snd_qos : 0 <= msg_qos msg < 3; snd_retain : 0 <= msg_retain msg < 2;
  snd_len : 2 + zlen (topic msg) + 2 + 5 + zlen (payload msg) < 268435456 }.

Definition is_v5 (v : Z) : bool := v =? MQTT_PROTOCOL_V5.
Lemma zlen_props_nil v5 : zlen (props v5 []) = b2z v5.
Proof. by destruct v5. Qed.

(** The client's next packet identifier, which a message of QoS 0 does not use. *)
Definition publish_mid (cli : MqttClient.mqtt_client_t) (msg : mqtt_message_t) : Z :=
  if msg_qos msg =? 0 then 0 else u16 (MqttClient.s_mid cli + 1).
Definition mid_bytes (q m : Z) : list Z := if q =? 0 then [] else be16 m.
Definition client_packet (cli : MqttClient.mqtt_client_t) (msg : mqtt_message_t) : list Z :=
  publish_packet (is_v5 (MqttClient.protocol_version cli)) (msg_qos msg) (msg_retain msg) (topic msg)
    (mid_bytes (msg_qos msg) (publish_mid cli msg)) [] (payload msg).

Lemma zlen_mid_bytes q m : zlen (mid_bytes q m) = if q =? 0 then 0 else 2.
Proof. unfold mid_bytes. by destruct (q =? 0). Qed.

Lemma client_publish_ok cli msg : sendable cli msg -> exists cli',
  MqttClient.mqtt_client_publish cli msg = Some (cli', publish_mid cli msg) /\
  MqttClient.accepted (MqttClient.io cli') = MqttClient.accepted (MqttClient.io cli) ++ client_packet cli msg.
Proof.
  intros [Hc Hw Ht Hp Htl Hq Hr Hl]. unfold MqttClient.mqtt_client_publish. rewrite Hc. cbn [negb]. cbv zeta.
  unfold whole in Ht, Hp. rewrite Ht, Hp. pose proof (zlen_nonneg (topic msg)) as Hn1. pose proof (zlen_nonneg (payload msg)) as Hn2.
  rewrite !i32_small by lia. fold (is_v5 (MqttClient.protocol_version cli)). set (v5 := is_v5 (MqttClient.protocol_version cli)).
  set (m := publish_mid cli msg). set (mb := mid_bytes (msg_qos msg) m).
  assert (Hb2 : 0 <= b2z v5 <= 1) by (by destruct v5).
  assert (Hmb : zlen mb = if 0 <? msg_qos msg then 2 else 0).
  { unfold mb. rewrite zlen_mid_bytes. destruct (Z.eqb_spec (msg_qos msg) 0), (Z.ltb_spec 0 (msg_qos msg)); lia. }
  assert (Hmb2 : 0 <= zlen mb <= 2) by (rewrite Hmb; destruct (0 <? msg_qos msg); lia).
  set (len := 2 + zlen (topic msg) + zlen (payload msg) + (if 0 <? msg_qos msg then 2 else 0) + b2z v5).
  assert (Hlen2 : len = 2 + zlen (topic msg) + zlen (payload msg) + zlen mb + b2z v5) by (unfold len; rewrite Hmb; done).
  clearbody len.
  assert (Hlen : len = zlen (publish_body v5 (topic msg) mb [] (payload msg))).
  { rewrite zlen_publish_body, zlen_props_nil. lia. }
  rewrite (u32_small len) by (lia).
  rewrite (land_mask _ 3 2), (land_mask _ 1 1) by (lia || done). change (2 ^ 2) with 4. change (2 ^ 1) with 2. rewrite !Z.mod_small by lia.
  fold (publish_head (msg_qos msg) (msg_retain msg) len).
  assert (Hh : head_ok (publish_head (msg_qos msg) (msg_retain msg) len)) by (apply publish_head_ok; lia).
  assert (Hest : mqtt_estimate_length (publish_head (msg_qos msg) (msg_retain msg) len) = 5 + len).
  { unfold mqtt_estimate_length. cbn [publish_head length_]. rewrite u32_small, i32_small by (lia). lia. }
  rewrite Hest. pose proof (Wr_start (5 + len - zlen (payload msg)) ltac:(lia)) as W0.
  destruct (head_pack_ok _ _ _ _ W0 Hh ltac:(lia)) as (w1&->&W1). cbn [mbind option_bind app] in *.
  pose proof (zlen_head_bytes _ Hh) as Hhb.
  destruct (push_field_ok w1 _ _ (topic msg) (zlen (topic msg)) W1 eq_refl ltac:(lia)) as (w2&->&W2). cbn [mbind option_bind].
  assert (Hmid : exists cli1 w3, (if negb (msg_qos msg =? 0)
      then let '(cli, mid) := MqttClient.mqtt_next_mid cli in w ← PUSH16 mid w2; Some (cli, mid, w) else Some (cli, 0, w2)) = Some (cli1, m, w3) /\
      MqttClient.io cli1 = MqttClient.io cli /\
      Wr w3 ((head_bytes (publish_head (msg_qos msg) (msg_retain msg) len) ++ be16 (zlen (topic msg)) ++ topic msg) ++ mb)
        (5 + len - zlen (payload msg) - zlen (head_bytes (publish_head (msg_qos msg) (msg_retain msg) len)) - (2 + zlen (topic msg)) - zlen mb)).
  { unfold m, mb, publish_mid, mid_bytes in *. destruct (Z.eqb_spec (msg_qos msg) 0) as [E|E]; cbn [negb].
    - exists cli, w2. split; [done|]. split; [done|]. rewrite app_nil_r. change (zlen []) with 0. rewrite Z.sub_0_r. exact W2.
    - unfold MqttClient.mqtt_next_mid. cbv zeta.
      destruct (push16_ok w2 _ _ (u16 (MqttClient.s_mid cli + 1)) W2) as (w3&->&W3).
      { revert Hlen2. change (zlen (be16 _)) with 2. lia. }
      cbn [mbind option_bind]. do 2 eexists. split; [reflexivity|]. done. }
  destruct Hmid as (cli1&w3&->&Hio&W3). cbn [mbind option_bind].
  destruct (when_ok v5 (PUSH8 0) w3 _ _ [0] W3) as (w4&->&W4).
  { intros E. apply (push8_ok w3 _ _ 0 W3). rewrite E in *. cbn in *. lia. }
  cbn [mbind option_bind]. assert (Hw1 : writable cli1) by (unfold writable; by rewrite Hio).
  rewrite client_send_ok by done. change (0 <? 0) with false. cbn iota. rewrite slice_all by done. cbn [mbind option_bind].
  rewrite client_send_ok by apply writable_took. change (0 <? 0) with false. cbn iota. eexists. split; [reflexivity|]. rewrite took_took, accepted_took, Hio. f_equal.
  rewrite (Wr_written _ _ _ W4). unfold client_packet, publish_packet. fold v5. fold m. fold mb. rewrite <- Hlen.
  unfold publish_body. rewrite <- !app_assoc. by do 4 f_equal.
Qed.

(** ** The session's side *)

(** A message whose lengths are those of its parts. *)
Record msg_ok (msg : mqtt_message_t) : Prop := {
  mo_topic : topic_len msg = zlen (topic msg); mo_payload : payload_len msg = zlen (payload msg);
  mo_tlen : zlen (topic msg) < 65536; mo_plen : zlen (prop msg) < 65536; mo_qos : 0 <= msg_qos msg < 3; mo_retain : 0 <= msg_retain msg < 2;
  mo_len : 2 + zlen (topic msg) + 2 + 5 + zlen (prop msg) + zlen (payload msg) < 268435456 }.

Definition session_mid (s : MqttServer.MqttSession) (msg : mqtt_message_t) : Z :=
  if msg_qos msg =? 0 then MqttServer.mid s else u16 (MqttServer.mid s + 1).
Definition session_packet (s : MqttServer.MqttSession) (msg : mqtt_message_t) : list Z :=
  publish_packet (is_v5 (MqttServer.version s)) (msg_qos msg) (msg_retain msg) (topic msg)
    (mid_bytes (msg_qos msg) (session_mid s msg)) (prop msg) (payload msg).
(** The session after a message. *)
Definition told (s : MqttServer.MqttSession) (msg : mqtt_message_t) : MqttServer.MqttSession :=
  MqttServer.write (s.[MqttServer.mid := session_mid s msg]) (session_packet s msg).

Lemma write_write s a b : MqttServer.write (MqttServer.write s a) b = MqttServer.write s (a ++ b).
Proof. unfold MqttServer.write. destruct s as [[] ? ? ? ? ? ?]; cbn; [by rewrite <- app_assoc|done]. Qed.

Lemma push_props_ok (v5 : bool) pr w d n : zlen pr < 65536 -> Wr w d n -> zlen (props v5 pr) <= n ->
  exists propb propl,
    (if v5 then varint_encode (zlen pr) (repeat 0 5) else Some ([], 0)) = Some (propb, propl) /\
    (if v5 then propl + zlen pr else 0) = zlen (props v5 pr) /\
    exists w', (if v5 then w ← PUSH_N (take (Z.to_nat propl) propb) w; PUSH_N pr w else Some w) = Some w' /\
      Wr w' (d ++ props v5 pr) (n - zlen (props v5 pr)).
Proof.
  intros Hl Hw Hn. destruct v5; cbn [props] in *.
  2: { exists [], 0. split_and!; [done..|]. exists w. by rewrite app_nil_r, zlen_nil, Z.sub_0_r. }
  pose proof (zlen_nonneg pr) as Hp. set (g := groups 10 (zlen pr)) in *. assert (Hg : 1 <= zlen g <= 4) by (apply groups_4; lia).
  pose proof (varint_encode_groups 10 (zlen pr) [] (take (length g) (repeat 0 5)) (drop (length g) (repeat 0 5))) as He.
  rewrite take_drop in He. fold g in He. change ([] ++ g ++ ?x) with (g ++ x) in He.
  exists (g ++ drop (length g) (repeat 0 5)), (zlen g). split.
  { unfold varint_encode. apply He; [lia|cbn; lia|]. rewrite length_take, repeat_length. unfold zlen in Hg. lia. }
  rewrite zlen_app in *. split; [done|].
  assert (Ht : take (Z.to_nat (zlen g)) (g ++ drop (length g) (repeat 0 5)) = g) by (unfold zlen; by rewrite Nat2Z.id, take_app_length).
  rewrite Ht. destruct (push_ok w d n g Hw ltac:(lia)) as (w1&->&W1). cbn [mbind option_bind].
  destruct (push_ok w1 _ _ pr W1 ltac:(lia)) as (w2&->&W2). exists w2. split; [done|].
  rewrite app_assoc. by replace (n - (zlen g + zlen pr)) with (n - zlen g - zlen pr) by lia.
Qed.

Lemma publish_session_ok s msg b : msg_ok msg -> (is_v5 (MqttServer.version s) = true -> b = true) ->
  MqttServer.publish_session s msg b = Some (told s msg).
Proof.
  intros [Ht Hp Htl Hpl Hq Hr Hl] Hb. unfold MqttServer.publish_session. fold (is_v5 (MqttServer.version s)). cbv zeta.
  set (v5 := is_v5 (MqttServer.version s)) in *.
  assert (Hv : v5 && negb b = false) by (destruct v5; [by rewrite Hb|done]). rewrite Hv.
  pose proof (zlen_nonneg (topic msg)) as Hn1. pose proof (zlen_nonneg (payload msg)) as Hn2. pose proof (zlen_nonneg (prop msg)) as Hn3.
  assert (Hpr : 0 <= zlen (props v5 (prop msg)) <= 4 + zlen (prop msg)).
  { destruct v5; cbn [props]; [|change (zlen []) with 0; lia]. rewrite zlen_app. pose proof (groups_4 (zlen (prop msg)) ltac:(lia)). lia. }
  set (mb := mid_bytes (msg_qos msg) (session_mid s msg)).
  assert (Hmb : zlen mb = if msg_qos msg =? 0 then 0 else 2) by apply zlen_mid_bytes.
  assert (Hmb2 : 0 <= zlen mb <= 2) by (rewrite Hmb; destruct (msg_qos msg =? 0); lia).
  set (len := zlen (publish_body v5 (topic msg) mb (prop msg) (payload msg))).
  pose proof (zlen_publish_body v5 (topic msg) mb (prop msg) (payload msg)) as Hlen. fold len in Hlen.
  assert (Hh : head_ok (publish_head (msg_qos msg) (msg_retain msg) len)) by (apply publish_head_ok; lia).
  pose proof (zlen_head_bytes _ Hh) as Hhb.
  pose proof (Wr_start (len - zlen (payload msg) + 12) ltac:(lia)) as W0.
  destruct (head_pack_ok _ _ _ _ W0 Hh ltac:(lia)) as (w1&E1&W1). cbn [app] in W1.
  destruct (push16_ok w1 _ _ (zlen (topic msg)) W1 ltac:(lia)) as (w2&E2&W2).
  destruct (push_ok w2 _ _ (topic msg) W2 ltac:(lia)) as (w3&E3&W3).
  assert (H4 : exists w4, (if msg_qos msg =? 0 then Some (s, w3) else w ← PUSH16 (u16 (MqttServer.mid s + 1)) w3; Some (s.[MqttServer.mid := u16 (MqttServer.mid s + 1)], w))
    = Some (s.[MqttServer.mid := session_mid s msg], w4) /\
    Wr w4 (((head_bytes (publish_head (msg_qos msg) (msg_retain msg) len) ++ be16 (zlen (topic msg))) ++ topic msg) ++ mb)
      (len - zlen (payload msg) + 12 - zlen (head_bytes (publish_head (msg_qos msg) (msg_retain msg) len)) - 2 - zlen (topic msg) - zlen mb)).
  { unfold mb, mid_bytes, session_mid in *. destruct (Z.eqb_spec (msg_qos msg) 0) as [E|E].
    - exists w3. split; [by destruct s|]. rewrite app_nil_r. change (zlen []) with 0. by rewrite Z.sub_0_r.
    - destruct (push16_ok w3 _ _ (u16 (MqttServer.mid s + 1)) W3) as (w4&->&W4); [revert Hlen; change (zlen (be16 _)) with 2; lia|].
      exists w4. by split. }
  destruct H4 as (w4&E4&W4).
  destruct (push_props_ok v5 (prop msg) w4 _ _ Hpl W4 ltac:(lia)) as (propb&propl&Ep&Epl&w5&E5&W5).
  rewrite Ep. cbn [mbind option_bind]. rewrite Epl, Ht, Hp.
  replace (2 + zlen (topic msg) + zlen (payload msg) + (if msg_qos msg =? 0 then 0 else 2) + zlen (props v5 (prop msg))) with len by (rewrite Hlen, <- Hmb; lia).
  rewrite (u32_small len), (u32_small (len - _ + 12)) by lia.
  rewrite (land_mask _ 3 2), (land_mask _ 1 1) by (lia || done). change (2 ^ 2) with 4. change (2 ^ 1) with 2. rewrite !Z.mod_small by lia.
  fold (publish_head (msg_qos msg) (msg_retain msg) len). rewrite E1. cbn [mbind option_bind]. rewrite E2. cbn [mbind option_bind].
  rewrite (slice_all (topic msg)) by done. cbn [mbind option_bind]. rewrite E3. cbn [mbind option_bind]. change (qos (publish_head (msg_qos msg) (msg_retain msg) len)) with (msg_qos msg).
  rewrite E4. cbn [mbind option_bind]. rewrite E5. cbn [mbind option_bind]. rewrite (Wr_written _ _ _ W5).
  assert (Hpk : session_packet s msg = ((((head_bytes (publish_head (msg_qos msg) (msg_retain msg) len) ++ be16 (zlen (topic msg))) ++ topic msg) ++ mb) ++ props v5 (prop msg)) ++ payload msg).
  { unfold session_packet, publish_packet. fold v5 mb len. unfold publish_body. by rewrite <- !app_assoc. }
  unfold told. rewrite Hpk. destruct (Z.eqb_spec (zlen (payload msg)) 0) as [E0|E0].
  - assert (payload msg = []) as -> by (apply nil_length_inv; unfold zlen in E0; lia). by rewrite app_nil_r.
  - rewrite slice_all by done. cbn [mbind option_bind]. by rewrite write_write.
Qed.

(** ** Acknowledgements *)

Definition ack_head (t len : Z) : mqtt_head_t := mk_head t 0 (if t =? MQTT_TYPE_PUBREL then 1 else 0) 0 len.
Lemma ack_head_ok t len : 0 <= t < 16 -> 0 <= len < 5 -> head_ok (ack_head t len).
Proof. intros Ht Hl. split; cbn; try lia. by destruct (t =? MQTT_TYPE_PUBREL). Qed.

Lemma client_ack_ok cli t m : writable cli -> 0 <= t < 16 ->
  MqttClient.mqtt_send_head_with_mid cli t m = Some (took cli (head_bytes (ack_head t 2) ++ be16 m), 0).
Proof.
  intros Hw Ht. unfold MqttClient.mqtt_send_head_with_mid. fold (ack_head t 2).
  pose proof (ack_head_ok t 2 Ht ltac:(lia)) as Hh. pose proof (Wr_start 8 ltac:(lia)) as W0. change (Z.to_nat 8) with 8%nat in W0.
  destruct (head_pack_ok _ _ _ _ W0 Hh ltac:(lia)) as (w1&->&W1). cbn [mbind option_bind].
  pose proof (zlen_head_bytes _ Hh). destruct (push16_ok w1 _ _ m W1 ltac:(lia)) as (w2&->&W2). cbn [mbind option_bind].
  rewrite (Wr_written _ _ _ W2), client_send_ok by done. done.
Qed.

Definition session_ack (s : MqttServer.MqttSession) (t m : Z) : list Z :=
  let v5 := is_v5 (MqttServer.version s) in
  head_bytes (ack_head t (if v5 then 4 else 2)) ++ be16 m ++ (if v5 then [0; 0] else []).
Lemma sendAck_ok s t m : 0 <= t < 16 -> MqttServer.sendAck s t m 0 = Some (MqttServer.write s (session_ack s t m)).
Proof.
  intros Ht. unfold MqttServer.sendAck, session_ack. fold (is_v5 (MqttServer.version s)). cbv zeta. set (v5 := is_v5 (MqttServer.version s)).
  fold (ack_head t (if v5 then 4 else 2)). set (h := ack_head t (if v5 then 4 else 2)).
  assert (Hh : head_ok h) by (apply ack_head_ok; [done|by destruct v5]).
  assert (Hg : zlen (head_bytes h) = 2) by (by destruct v5). clearbody h.
  pose proof (Wr_start 12 ltac:(lia)) as W0. change (Z.to_nat 12) with 12%nat in W0.
  destruct (head_pack_ok _ _ _ _ W0 Hh ltac:(lia)) as (w1&->&W1). cbn [mbind option_bind app] in *.
  destruct (push16_ok w1 _ _ m W1 ltac:(lia)) as (w2&->&W2). cbn [mbind option_bind]. clearbody v5. destruct v5.
  - destruct (push8_ok w2 _ _ 0 W2 ltac:(lia)) as (w3&->&W3). cbn [mbind option_bind].
    destruct (push8_ok w3 _ _ 0 W3 ltac:(lia)) as (w4&->&W4). cbn [mbind option_bind]. rewrite (Wr_written _ _ _ W4).
    by rewrite <- !app_assoc.
  - cbn [mbind option_bind]. rewrite (Wr_written _ _ _ W2). by rewrite app_nil_r.
Qed.

(** The answer to a message of each QoS. *)
Definition ack_type (q : Z) : Z := if q =? 1 then MQTT_TYPE_PUBACK else MQTT_TYPE_PUBREC.

(** ** Receiving PUBLISH *)

Lemma skip_props_at cli (pre pr post : list Z) p end_ : p = zlen pre -> end_ = zlen (pre ++ props (is_v5 (MqttClient.protocol_version cli)) pr ++ post) ->
  zlen pr < 65536 -> zlen post < 268435456 ->
  MqttClient.skip_if_v5 cli (pre ++ props (is_v5 (MqttClient.protocol_version cli)) pr ++ post) p end_
  = Some (Some (p + zlen (props (is_v5 (MqttClient.protocol_version cli)) pr))).
Proof.
  intros Hp He Hl Hpost. unfold MqttClient.skip_if_v5. fold (is_v5 (MqttClient.protocol_version cli)).
  destruct (is_v5 (MqttClient.protocol_version cli)); cbn [andb props] in *; [|change (zlen []) with 0; by rewrite Z.add_0_r].
  rewrite !zlen_app in *. pose proof (zlen_nonneg pr). pose proof (zlen_nonneg post). pose proof (groups_4 (zlen pr) ltac:(lia)) as Hg.
  rewrite (proj2 (Z.ltb_lt p end_)) by lia. unfold MqttClient.mqtt_v5_skip_properties.
  rewrite (proj2 (Z.leb_gt (end_ - p) 0)) by lia. rewrite <- app_assoc, drop_at by done.
  rewrite varint_at by lia. cbn [mbind option_bind default]. unfold from_option, id.
  rewrite (proj2 (Z.leb_gt (zlen (groups 10 (zlen pr))) 0)) by lia. rewrite i32_small by lia.
  rewrite (proj2 (Z.ltb_ge end_ _)) by lia. do 2 f_equal. lia.
Qed.

(** Where the parts of a PUBLISH packet are: [p1] after the header, [p2] after the
    topic, [p3] after the identifier, [p4] the payload. *)
Record publish_layout (v5 : bool) (q r : Z) (t : list Z) (m : Z) (pr pay buf : list Z) (h : mqtt_head_t) (p1 p2 p3 p4 : Z) : Prop := {
  lo_head : head_ok h; lo_type : type h = MQTT_TYPE_PUBLISH; lo_qos : qos h = q; lo_retain : retain h = r; lo_dup : dup h = 0;
  lo_unpack : mqtt_head_unpack buf (zlen buf) = Some (h, p1);
  lo_len : zlen buf = p1 + length_ h; lo_first : zget buf 0 = Some (head_byte h);
  lo_order : 2 <= p1 <= 5 /\ p2 = p1 + 2 + zlen t /\ p3 = p2 + zlen (mid_bytes q m) /\ p4 = p3 + zlen (props v5 pr) /\
    zlen buf = p4 + zlen pay /\ zlen buf < 2147483648 /\ 0 <= zlen (mid_bytes q m) <= 2 /\ 0 <= zlen (props v5 pr);
  lo_topic_len : POP16 buf p1 = Some (zlen t, p1 + 2); lo_topic : zslice buf (p1 + 2) (zlen t) = Some t;
  lo_mid : q <> 0 -> POP16 buf p2 = Some (m, p3);
  lo_props : exists pre, buf = pre ++ props v5 pr ++ pay /\ zlen pre = p3;
  lo_payload : zslice buf p4 (zlen pay) = Some pay }.

Lemma zlen_props v5 pr : zlen pr < 65536 -> 0 <= zlen (props v5 pr) <= 4 + zlen pr.
Proof.
  intros Hl. pose proof (zlen_nonneg pr). destruct v5; cbn [props]; [|change (zlen []) with 0; lia].
  rewrite zlen_app. pose proof (groups_4 (zlen pr) ltac:(lia)). lia.
Qed.

Lemma publish_packet_layout v5 q r t m pr pay : 0 <= q < 3 -> 0 <= r < 2 -> zlen t < 65536 -> 0 <= m < 65536 -> zlen pr < 65536 ->
  2 + zlen t + 2 + 5 + zlen pr + zlen pay < 268435456 ->
  exists h p1 p2 p3 p4, publish_layout v5 q r t m pr pay (publish_packet v5 q r t (mid_bytes q m) pr pay) h p1 p2 p3 p4.
Proof.
  intros Hq Hr Ht Hm Hpl Hl. pose proof (zlen_nonneg t) as Hn1. pose proof (zlen_nonneg pay) as Hn2. pose proof (zlen_nonneg pr) as Hn3.
  pose proof (zlen_props v5 pr Hpl) as Hpr. unfold publish_packet. set (mb := mid_bytes q m).
  set (body := publish_body v5 t mb pr pay). set (h := publish_head q r (zlen body)).
  assert (Hmb2 : 0 <= zlen mb <= 2) by (unfold mb; rewrite zlen_mid_bytes; destruct (q =? 0); lia).
  assert (Hlen : zlen body = 2 + zlen t + zlen mb + zlen (props v5 pr) + zlen pay) by apply zlen_publish_body.
  assert (Hh : head_ok h) by (apply publish_head_ok; lia). pose proof (zlen_head_bytes _ Hh) as Hhb.
  set (p1 := zlen (head_bytes h)) in *.
  exists h, p1, (p1 + 2 + zlen t), (p1 + 2 + zlen t + zlen mb), (p1 + 2 + zlen t + zlen mb + zlen (props v5 pr)).
  assert (Hend : zlen (head_bytes h ++ body) = p1 + zlen body) by apply zlen_app.
  split; try done.
  - apply head_unpack_ok; [done|]. fold p1. lia.
  - fold mb. split_and!; lia.
  - apply pop16_at; [done|lia].
  - unfold body, publish_body. rewrite app_assoc. apply slice_at; [|done]. by rewrite zlen_app.
  - intros Hq0. unfold body, publish_body. rewrite !app_assoc, <- (app_assoc _ _ pay), <- (app_assoc _ mb).
    assert (Hmb : mb = be16 m) by (unfold mb, mid_bytes; by rewrite (proj2 (Z.eqb_neq q 0))). rewrite Hmb.
    change (zlen (be16 m)) with 2. apply pop16_at; [|done]. rewrite !zlen_app. fold p1. change (zlen (be16 _)) with 2. lia.
  - exists (head_bytes h ++ be16 (zlen t) ++ t ++ mb). unfold body, publish_body. rewrite <- !app_assoc. split; [done|].
    rewrite !zlen_app. fold p1. change (zlen (be16 _)) with 2. lia.
  - pose proof (slice_at (head_bytes h ++ be16 (zlen t) ++ t ++ mb ++ props v5 pr) pay [] (p1 + 2 + zlen t + zlen mb + zlen (props v5 pr)) (zlen pay)) as H.
    rewrite app_nil_r, <- !app_assoc in H. apply H; [|done]. rewrite !zlen_app. fold p1. change (zlen (be16 _)) with 2. lia.
Qed.

Lemma session_mid_range s msg : msg_qos msg <> 0 -> 0 <= session_mid s msg < 65536.
Proof. intros Hq. unfold session_mid. rewrite (proj2 (Z.eqb_neq _ _)) by done. apply u16_range. Qed.

(** A QoS 0 packet carries no identifier, whatever it is. *)
Lemma publish_packet_mid0 v5 r t m pr pay : publish_packet v5 0 r t (mid_bytes 0 m) pr pay = publish_packet v5 0 r t (mid_bytes 0 0) pr pay.
Proof. done. Qed.

Lemma session_packet_layout s msg : msg_ok msg -> exists h p1 p2 p3 p4 m, (msg_qos msg <> 0 -> m = session_mid s msg) /\
  publish_layout (is_v5 (MqttServer.version s)) (msg_qos msg) (msg_retain msg) (topic msg) m (prop msg) (payload msg)
    (session_packet s msg) h p1 p2 p3 p4.
Proof.
  intros [Ht Hp Htl Hpl Hq Hr Hl]. unfold session_packet.
  destruct (decide (msg_qos msg = 0)) as [E|E].
  - destruct (publish_packet_layout (is_v5 (MqttServer.version s)) (msg_qos msg) (msg_retain msg) (topic msg) 0 (prop msg) (payload msg))
      as (h&p1&p2&p3&p4&H); try done. exists h, p1, p2, p3, p4, 0. split; [done|]. by rewrite E, publish_packet_mid0 in *.
  - destruct (publish_packet_layout (is_v5 (MqttServer.version s)) (msg_qos msg) (msg_retain msg) (topic msg) (session_mid s msg) (prop msg) (payload msg))
      as (h&p1&p2&p3&p4&H); try done; [by apply session_mid_range|]. by exists h, p1, p2, p3, p4, (session_mid s msg).
Qed.

(** What a client that speaks the session's version makes of a message. *)
Lemma client_receives cli s msg : writable cli -> MqttClient.protocol_version cli = MqttServer.version s -> msg_ok msg ->
  exists cli', MqttClient.on_packet cli (session_packet s msg) = Some cli' /\
    MqttClient.message cli' = mk_message (zlen (topic msg)) (topic msg) (zlen (payload msg)) (payload msg) (msg_qos msg) 0 [] /\
    MqttClient.events cli' = MqttClient.events cli ++ [MQTT_TYPE_PUBLISH] /\ writable cli' /\
    MqttClient.accepted (MqttClient.io cli') = MqttClient.accepted (MqttClient.io cli) ++
      (if msg_qos msg =? 0 then [] else head_bytes (ack_head (ack_type (msg_qos msg)) 2) ++ be16 (session_mid s msg)).
Proof.
  intros Hw Hv Hok. destruct (session_packet_layout s msg Hok) as (h&p1&p2&p3&p4&m&Hm&[Hh HT HQ HR HD HU HL HF HO HTL HTO HMI (pre&HPb&HPl) HPA]).
  destruct HO as (Ho1&Ho2&Ho3&Ho4&Ho5&Ho6&Ho7&Ho8). set (buf := session_packet s msg) in *. clearbody buf.
  destruct Hok as [Ht Hp Htl Hpl Hq Hr Hl]. pose proof (zlen_nonneg (topic msg)) as Hn1. pose proof (zlen_nonneg (payload msg)) as Hn2.
  unfold MqttClient.on_packet. cbv zeta. rewrite HU. cbn [mbind option_bind]. rewrite (proj2 (Z.leb_gt p1 0)) by lia.
  rewrite HT. cbn -[MqttClient.on_publish]. set (c1 := cli.[MqttClient.head := h]).
  unfold MqttClient.on_publish. change (MqttClient.head c1) with h. rewrite HQ, (proj2 (Z.ltb_ge (length_ h) 2)) by lia.
  rewrite HTL. cbn [mbind option_bind]. rewrite (proj2 (Z.ltb_ge (zlen buf - (p1 + 2)) (zlen (topic msg)))) by lia.
  rewrite HTO. cbn [mbind option_bind]. replace (p1 + 2 + zlen (topic msg)) with p2 by lia.
  assert (Hmb : zlen (mid_bytes (msg_qos msg) m) = if msg_qos msg =? 0 then 0 else 2) by apply zlen_mid_bytes.
  assert (Hchk : (0 <? msg_qos msg) && (zlen buf - p2 <? 2) = false).
  { destruct (Z.ltb_spec 0 (msg_qos msg)); [|done]. apply Z.ltb_ge. destruct (Z.eqb_spec (msg_qos msg) 0); lia. }
  rewrite Hchk.
  assert (Hmm : exists m', (if 0 <? msg_qos msg then POP16 buf p2 else Some (MqttClient.mid c1, p2)) = Some (m', p3) /\ (msg_qos msg <> 0 -> m' = m)).
  { destruct (Z.ltb_spec 0 (msg_qos msg)); [rewrite HMI by lia; eauto|]. rewrite (proj2 (Z.eqb_eq (msg_qos msg) 0)) in Hmb by lia.
    exists (MqttClient.mid c1). split; [do 2 f_equal; lia|lia]. }
  destruct Hmm as (m'&->&Hm'). cbn [mbind option_bind]. set (c2 := c1.[MqttClient.mid := m']).
  assert (Hc2 : is_v5 (MqttClient.protocol_version c2) = is_v5 (MqttServer.version s)) by (by rewrite <- Hv).
  assert (Hsk : MqttClient.skip_if_v5 c2 buf p3 (zlen buf) = Some (Some p4)).
  { pose proof (zlen_nonneg (prop msg)). rewrite <- Hc2 in *. rewrite HPb. rewrite skip_props_at by (done || lia). do 2 f_equal. lia. }
  rewrite Hsk. cbn [mbind option_bind]. replace (zlen buf - p4) with (zlen (payload msg)) by lia. rewrite HPA. cbn [mbind option_bind].
  set (c3 := c2.[MqttClient.message := _]). assert (Hw3 : writable c3) by done.
  unfold ack_type. destruct (Z.eqb_spec (msg_qos msg) 1) as [E1|E1]; [|destruct (Z.eqb_spec (msg_qos msg) 2) as [E2|E2]].
  3: { eexists. split; [reflexivity|]. rewrite (proj2 (Z.eqb_eq (msg_qos msg) 0)) by lia. cbn. rewrite HT, app_nil_r. done. }
  all: rewrite client_ack_ok by (done || (unfold MQTT_TYPE_PUBACK, MQTT_TYPE_PUBREC; lia)); eexists; (split; [reflexivity|]).
  all: rewrite (proj2 (Z.eqb_neq (msg_qos msg) 0)), (Hm' ltac:(lia)), (Hm ltac:(lia)) by lia; cbn -[head_bytes]; rewrite HT; done.
Qed.

(** * The broker *)

Definition receivers (srv : MqttServer.Server) (name : string) : list Z :=
  map TopicTree.sub_session (TopicTree.get_subscribers (MqttServer.live srv) (MqttServer.topic_tree srv) name).

Lemma receivers_NoDup srv name : NoDup (receivers srv name).
Proof.
  unfold receivers, TopicTree.get_subscribers. destruct (negb _); [constructor|]. rewrite TopicTreeThm.filter_live_id.
  apply TopicTreeThm.unique_results_spec.
Qed.

Lemma on_session_lookup srv id f s s' : MqttServer.sessions srv !! id = Some s -> f s = Some s' ->
  MqttServer.on_session srv id f = Some (srv.[MqttServer.sessions := <[id := s']> (MqttServer.sessions srv)]).
Proof. intros Hs Hf. unfold MqttServer.on_session. by rewrite Hs, Hf. Qed.

Lemma publish_all_ok msg matchs : msg_ok msg -> forall srv, NoDup (map TopicTree.sub_session matchs) ->
  exists srv', MqttServer.publish_all srv msg matchs = Some srv' /\
    MqttServer.topic_tree srv' = MqttServer.topic_tree srv /\ MqttServer.published srv' = MqttServer.published srv /\
    forall i, MqttServer.sessions srv' !! i =
      (fun s => if bool_decide (i ∈ map TopicTree.sub_session matchs) then told s msg else s) <$> MqttServer.sessions srv !! i.
Proof.
  intros Hok. induction matchs as [|it matchs IH]; intros srv HN; cbn [MqttServer.publish_all map].
  { exists srv. split_and!; [done..|]. intros i. rewrite bool_decide_eq_false_2 by apply not_elem_of_nil. by destruct (MqttServer.sessions srv !! i). }
  cbn [map] in HN. apply NoDup_cons in HN as [Hi HN]. 
  assert (exists k : Z, TopicTree.sub_session it = k) as [k Hk0] by eauto. rewrite Hk0 in *.
  destruct (MqttServer.sessions srv !! k) as [s|] eqn:Es.
  - rewrite (on_session_lookup srv k _ s (told s msg) Es) by (apply publish_session_ok; done). cbn [mbind option_bind].
    destruct (IH (srv.[MqttServer.sessions := <[k := told s msg]> (MqttServer.sessions srv)]) HN) as (srv'&Hpa&Ht&Hp&Hs).
    exists srv'. split_and!; [exact Hpa|done|done|]. intros i. rewrite Hs.
    change (MqttServer.sessions (srv.[MqttServer.sessions := <[k := told s msg]> (MqttServer.sessions srv)]))
      with (<[k := told s msg]> (MqttServer.sessions srv)). destruct (decide (i = k)) as [->|Hk].
    + rewrite lookup_insert_eq, Es. cbn [fmap option_fmap option_map]. rewrite (bool_decide_eq_false_2 (k ∈ map _ matchs)) by done.
      by rewrite bool_decide_eq_true_2 by (apply elem_of_cons; by left).
    + rewrite lookup_insert_ne by done. destruct (MqttServer.sessions srv !! i); [|done]. cbn. f_equal.
      assert (Hb : bool_decide (i ∈ map TopicTree.sub_session matchs) = bool_decide (i ∈ k :: map TopicTree.sub_session matchs)).
      { apply bool_decide_ext. rewrite elem_of_cons. tauto. }
      by rewrite Hb.
  - unfold MqttServer.on_session. rewrite Es. cbn [mbind option_bind].
    destruct (IH srv HN) as (srv'&->&Ht&Hp&Hs). exists srv'. split_and!; [done..|]. intros i. rewrite Hs.
    destruct (MqttServer.sessions srv !! i) eqn:Ei; [|done]. cbn. f_equal.
    assert (Hk : i <> k) by congruence.
    assert (Hb : bool_decide (i ∈ map TopicTree.sub_session matchs) = bool_decide (i ∈ k :: map TopicTree.sub_session matchs)).
    { apply bool_decide_ext. rewrite elem_of_cons. tauto. }
    by rewrite Hb.
Qed.

(** [publish] tells the sessions the topic tree selects, and no others. *)
Lemma publish_ok srv msg : msg_ok msg -> exists srv', MqttServer.publish srv msg = Some srv' /\
  MqttServer.topic_tree srv' = MqttServer.topic_tree srv /\ MqttServer.published srv' = MqttServer.published srv /\
  forall i, MqttServer.sessions srv' !! i =
    (fun s => if bool_decide (i ∈ receivers srv (MqttServer.string_of_bytes (topic msg))) then told s msg else s)
      <$> MqttServer.sessions srv !! i.
Proof.
  intros Hok. unfold MqttServer.publish. rewrite (slice_all (topic msg)) by apply (mo_topic _ Hok). cbn [mbind option_bind].
  apply publish_all_ok; [done|apply receivers_NoDup].
Qed.

(** ** A message from a client *)

Lemma client_packet_layout cli msg : sendable cli msg -> exists h p1 p2 p3 p4,
  publish_layout (is_v5 (MqttClient.protocol_version cli)) (msg_qos msg) (msg_retain msg) (topic msg) (publish_mid cli msg) [] (payload msg)
    (client_packet cli msg) h p1 p2 p3 p4.
Proof.
  intros [Hc Hw Ht Hp Htl Hq Hr Hl]. apply publish_packet_layout; try done; [|change (zlen []) with 0; lia].
  unfold publish_mid. destruct (msg_qos msg =? 0); [lia|apply u16_range].
Qed.

(** The message as the broker hands it on. *)
Definition forwarded (msg : mqtt_message_t) : mqtt_message_t :=
  mk_message (zlen (topic msg)) (topic msg) (zlen (payload msg)) (payload msg) (msg_qos msg) (msg_retain msg) [].
Lemma forwarded_ok cli msg : sendable cli msg -> msg_ok (forwarded msg).
Proof. intros [Hc Hw Ht Hp Htl Hq Hr Hl]. split; cbn; try done. change (zlen []) with 0. lia. Qed.

(** The publisher's session after the acknowledgement. *)
Definition acked (s : MqttServer.MqttSession) (q m : Z) : MqttServer.MqttSession :=
  if q =? 0 then s else MqttServer.write s (session_ack s (ack_type q) m).
(** What is retained: the whole packet. *)
Definition retained_tree (tree : TopicTree.TopicNode) (msg : mqtt_message_t) (packet : list Z) : TopicTree.TopicNode :=
  if msg_retain msg =? 0 then tree
  else TopicTree.set_retained_message tree (MqttServer.string_of_bytes (topic msg))
    (if 0 <? zlen (payload msg) then packet else []) (msg_qos msg) false.

Lemma server_reads onAuth srv id s cli msg : MqttServer.sessions srv !! id = Some s ->
  is_v5 (MqttServer.version s) = is_v5 (MqttClient.protocol_version cli) -> sendable cli msg ->
  MqttServer.onMessage onAuth srv id (client_packet cli msg) =
    srv' ← MqttServer.publish (MqttServer.mk_server (retained_tree (MqttServer.topic_tree srv) msg (client_packet cli msg))
      (<[id := acked s (msg_qos msg) (publish_mid cli msg)]> (MqttServer.sessions srv)) (MqttServer.published srv)) (forwarded msg);
    Some (srv'.[MqttServer.published := MqttServer.published srv' ++ [forwarded msg]]).
Proof.
  intros Hs Hv Hok. destruct (client_packet_layout cli msg Hok) as (h&p1&p2&p3&p4&[Hh HT HQ HR HD HU HL HF HO HTL HTO HMI (pre&HPb&HPl) HPA]).
  destruct HO as (Ho1&Ho2&Ho3&Ho4&Ho5&Ho6&Ho7&Ho8). set (buf := client_packet cli msg) in *. clearbody buf.
  destruct Hok as [Hc Hw Ht Hp Htl Hq Hr Hl]. pose proof (zlen_nonneg (topic msg)) as Hn1. pose proof (zlen_nonneg (payload msg)) as Hn2.
  set (m := publish_mid cli msg) in *.
  unfold MqttServer.onMessage. rewrite HU. cbn [mbind option_bind]. rewrite (proj2 (Z.leb_gt p1 0)), <- HL, u32_small, Z.ltb_irrefl by lia. cbn [orb].
  unfold MqttServer.onMqttMessage. rewrite HT. cbn -[MqttServer.on_publish]. unfold MqttServer.on_publish.
  rewrite (proj2 (Z.ltb_ge (length_ h) 2)), HTL by lia. cbn [mbind option_bind]. rewrite HQ, HR, HD, <- HL.
  replace (p1 + 2 + zlen (topic msg)) with p2 by lia.
  assert (Hmb : zlen (mid_bytes (msg_qos msg) m) = if msg_qos msg =? 0 then 0 else 2) by apply zlen_mid_bytes.
  assert (Hchk : (0 <? msg_qos msg) && (zlen buf - p2 <? 2) = false).
  { destruct (Z.ltb_spec 0 (msg_qos msg)); [|done]. apply Z.ltb_ge. destruct (Z.eqb_spec (msg_qos msg) 0); lia. }
  rewrite Hchk.
  assert (Hmm : (if 0 <? msg_qos msg then POP16 buf p2 else Some (0, p2)) = Some (m, p3)).
  { destruct (Z.ltb_spec 0 (msg_qos msg)); [by rewrite HMI by lia|]. rewrite (proj2 (Z.eqb_eq (msg_qos msg) 0)) in Hmb by lia.
    unfold m, publish_mid. rewrite (proj2 (Z.eqb_eq (msg_qos msg) 0)) by lia. do 2 f_equal. lia. }
  rewrite Hmm. cbn [mbind option_bind]. rewrite Hs. cbn [mbind option_bind].
  assert (Hpp : MqttServer.parse_prop s buf p3 = Some ([], p4)).
  { rewrite <- Hv in *. rewrite HPb. unfold is_v5 in *. rewrite parse_prop_at by done. do 2 f_equal; [by destruct (_ =? _)|lia]. }
  rewrite Hpp. cbn [mbind option_bind]. replace (zlen buf - p4) with (zlen (payload msg)) by lia. rewrite u32_small, HPA by lia. cbn [mbind option_bind].
  rewrite HTO. cbn [mbind option_bind]. fold (forwarded msg).
  assert (Hack : (if msg_qos msg =? 1 then MqttServer.on_session srv id (fun s => MqttServer.sendAck s MQTT_TYPE_PUBACK m 0)
      else if msg_qos msg =? 2 then MqttServer.on_session srv id (fun s => MqttServer.sendAck s MQTT_TYPE_PUBREC m 0) else Some srv)
    = Some (srv.[MqttServer.sessions := <[id := acked s (msg_qos msg) m]> (MqttServer.sessions srv)])).
  { unfold acked, ack_type. destruct (Z.eqb_spec (msg_qos msg) 1) as [E|E]; [|destruct (Z.eqb_spec (msg_qos msg) 2) as [E2|E2]].
    3: { rewrite (proj2 (Z.eqb_eq (msg_qos msg) 0)) by lia. rewrite insert_id by done. by destruct srv. }
    all: rewrite (proj2 (Z.eqb_neq (msg_qos msg) 0)) by lia; apply (on_session_lookup srv id _ s); [done|].
    all: apply sendAck_ok; unfold MQTT_TYPE_PUBACK, MQTT_TYPE_PUBREC; lia. }
  rewrite Hack, HF. cbn [mbind option_bind]. destruct (head_bits h Hh) as (_&_&_&->). rewrite HR.
  unfold retained_tree. destruct (Z.eqb_spec (msg_retain msg) 0) as [E0|E0]; cbn [negb]; [by destruct srv|].
  replace (zslice buf 0 (zlen buf)) with (Some buf) by (symmetry; by apply slice_all).
  destruct (0 <? zlen (payload msg)); cbn [mbind option_bind]; done.
Qed.

(** Retaining a message changes no subscription. *)
Lemma get_subscribers_retained live tree name bytes q d topic :
  TopicTree.get_subscribers live (TopicTree.set_retained_message tree name bytes q d) topic = TopicTree.get_subscribers live tree topic.
Proof.
  unfold TopicTree.get_subscribers. destruct (negb _); [done|]. cbv zeta. rewrite !TopicTreeThm.collect_subscribers_spec.
  do 3 f_equal. apply map_ext. intros p. unfold TopicTreeThm.pub_subs. f_equal.
  pose proof (TopicTreeThm.step_sim tree (TopicTreeThm.data_at tree) (live, TopicTreeThm.SetRetained name bytes q d) ltac:(done) p) as H.
  unfold TopicTreeThm.step, TopicTreeThm.abs_step in H. cbn [fst snd] in H. rewrite H. clear H.
  destruct (_ && _); [|done]. unfold TopicTreeThm.update. case_bool_decide as E; [|done]. by subst p.
Qed.

Lemma get_subscribers_ext live live' tree topic : (forall k, live k = live' k) ->
  TopicTree.get_subscribers live tree topic = TopicTree.get_subscribers live' tree topic.
Proof.
  intros H. unfold TopicTree.get_subscribers. destruct (negb _); [done|]. cbv zeta. rewrite !TopicTreeThm.filter_live_id.
  generalize (TopicTree.collect_subscribers tree (TopicTree.split_topic topic) true) as l. generalize (@nil TopicTree.session) as seen.
  intros seen l. revert seen. induction l as [|r l IH]; intros seen; [done|]. cbn. rewrite H, !IH. done.
Qed.

(** C9. A client's [mqtt_client_publish] sends one packet; the broker acknowledges it
    by its QoS and tells exactly the sessions its topic tree selects for the topic;
    and a client of such a session reads the same topic, payload and QoS from the
    bytes its session is sent. *)
Theorem publish_end_to_end onAuth srv id s cli msg : MqttServer.sessions srv !! id = Some s ->
  is_v5 (MqttServer.version s) = is_v5 (MqttClient.protocol_version cli) -> sendable cli msg ->
  (exists cli', MqttClient.mqtt_client_publish cli msg = Some (cli', publish_mid cli msg) /\
    MqttClient.accepted (MqttClient.io cli') = MqttClient.accepted (MqttClient.io cli) ++ client_packet cli msg) /\
  (exists srv', MqttServer.onMessage onAuth srv id (client_packet cli msg) = Some srv' /\
    MqttServer.published srv' = MqttServer.published srv ++ [forwarded msg] /\
    forall i, MqttServer.sessions srv' !! i =
      (fun si => let si := if bool_decide (i = id) then acked si (msg_qos msg) (publish_mid cli msg) else si in
         if bool_decide (i ∈ receivers srv (MqttServer.string_of_bytes (topic msg))) then told si (forwarded msg) else si)
        <$> MqttServer.sessions srv !! i) /\
  (forall si c, writable c -> MqttClient.protocol_version c = MqttServer.version si ->
    exists c', MqttClient.on_packet c (session_packet si (forwarded msg)) = Some c' /\
      topic (MqttClient.message c') = topic msg /\ payload (MqttClient.message c') = payload msg /\
      msg_qos (MqttClient.message c') = msg_qos msg /\ MqttClient.events c' = MqttClient.events c ++ [MQTT_TYPE_PUBLISH]).
Proof.
  intros Hs Hv Hok. pose proof (forwarded_ok cli msg Hok) as Hf. split; [by apply client_publish_ok|]. split.
  - rewrite (server_reads onAuth srv id s cli msg Hs Hv Hok).
    set (srv1 := MqttServer.mk_server _ _ _). destruct (publish_ok srv1 (forwarded msg) Hf) as (srv'&->&Ht&Hp&Hl). cbn [mbind option_bind].
    eexists. split; [reflexivity|]. split; [cbn; by rewrite Hp|]. intros i. cbn. rewrite Hl.
    assert (Hrec : receivers srv1 (MqttServer.string_of_bytes (topic msg)) = receivers srv (MqttServer.string_of_bytes (topic msg))).
    { unfold receivers. f_equal.
      assert (Hlv : forall k, MqttServer.live srv1 k = MqttServer.live srv k).
      { intros k. unfold MqttServer.live. cbn. apply bool_decide_ext. destruct (decide (k = id)) as [->|Hk].
        - rewrite lookup_insert_eq, Hs. split; by eexists.
        - by rewrite lookup_insert_ne. }
      cbn [srv1 MqttServer.topic_tree]. unfold retained_tree. destruct (msg_retain msg =? 0); rewrite ?get_subscribers_retained; by apply get_subscribers_ext. }
    change (topic (forwarded msg)) with (topic msg). rewrite Hrec. cbn. destruct (decide (i = id)) as [->|Hi].
    + rewrite lookup_insert_eq, Hs. cbn. by rewrite (bool_decide_eq_true_2 (id = id)).
    + rewrite lookup_insert_ne by done. by rewrite (bool_decide_eq_false_2 (i = id)).
  - intros si c Hw Hc. destruct (client_receives c si (forwarded msg) Hw Hc Hf) as (c'&Hp&Hm&He&_). exists c'. by rewrite Hm.
Qed.

(** * Witnesses *)

Definition sample_publisher : MqttClient.mqtt_client_t := MqttClient.mqtt_client_new.[MqttClient.connected := true].
Definition sample_msg : mqtt_message_t := mk_message 0 (bytes_of_string "a/b") 0 [7; 8] 1 0 [].
Definition sample_retained : mqtt_message_t := mk_message 0 (bytes_of_string "a/b") 0 [7; 8] 1 1 [].
Lemma sample_sendable : sendable sample_publisher sample_msg.
Proof. split; try done; vm_compute; by split. Qed.
Lemma sample_retained_sendable : sendable sample_publisher sample_retained.
Proof. split; try done; vm_compute; by split. Qed.

(** Session 1 subscribes to a/+, session 2 publishes. *)
Definition sample_server : MqttServer.Server :=
  let srv := MqttServer.connect (MqttServer.connect MqttServer.new_server 1) 2 in
  srv.[MqttServer.topic_tree := (TopicTree.subscribe (MqttServer.live srv) (MqttServer.topic_tree srv) "a/+" 1 2 false "").1].

Lemma publish_end_to_end_witness : receivers sample_server "a/b" = [1] /\
  exists srv', MqttServer.onMessage (fun _ => 0) sample_server 2 (client_packet sample_publisher sample_msg) = Some srv' /\
    MqttServer.published srv' = [forwarded sample_msg] /\
    MqttServer.sessions srv' !! 1 = Some (told MqttServer.new_session (forwarded sample_msg)).
Proof.
  split; [vm_compute; reflexivity|].
  destruct (publish_end_to_end (fun _ => 0) sample_server 2 MqttServer.new_session sample_publisher sample_msg
    ltac:(reflexivity) ltac:(reflexivity) sample_sendable) as (_&(srv'&H1&H2&H3)&_).
  exists srv'. split; [exact H1|]. split; [exact H2|]. rewrite (H3 1). reflexivity.
Defined.

End MqttThm.
