(* ===== verification/MqttConnThm.v ===== *)
(** Logging in: the CONNECT packet of the client, what the broker reads from it, and
    the answer; and acknowledgements that the two sides read differently. *)
From S2P Require Import Prelude HMath MqttProtocol MqttClient MqttServer TopicTree TopicTreeThm MqttThm.
Local Open Scope list_scope.
Local Open Scope Z_scope.

Module MqttConnThm.
Import HMath MqttProtocol MqttThm.

(** * Connecting *)

(** What is left of the packet at an offset. *)
Definition At (buf : list Z) (p : Z) (l : list Z) : Prop := exists pre, buf = pre ++ l /\ zlen pre = p.
Definition field (s : list Z) : list Z := be16 (zlen s) ++ s.
Definition field_if (b : bool) (s : list Z) : list Z := if b then field s else [].

Lemma At_end buf p l : At buf p l -> p + zlen l = zlen buf.
Proof. intros (pre&->&<-). by rewrite zlen_app. Qed.
Lemma At_app buf p a l : At buf p (a ++ l) -> At buf (p + zlen a) l.
Proof. intros (pre&->&<-). exists (pre ++ a). by rewrite zlen_app, app_assoc. Qed.
Lemma At_pop8 buf p v l : At buf p (v :: l) -> POP8 buf p = Some (v, p + 1) /\ At buf (p + 1) l.
Proof. intros H. split; [destruct H as (pre&->&<-); by apply pop8_at|]. by apply (At_app buf p [v] l). Qed.
Lemma At_pop16 buf p v l : 0 <= v < 65536 -> At buf p (be16 v ++ l) -> POP16 buf p = Some (v, p + 2) /\ At buf (p + 2) l.
Proof. intros Hv H. split; [destruct H as (pre&->&<-); by apply pop16_at|]. by apply (At_app buf p (be16 v) l). Qed.
Lemma At_popstr buf p s l : zlen s < 65536 -> At buf p (field s ++ l) ->
  MqttServer.POPSTR buf p = Some (p + 2, zlen s, p + 2 + zlen s) /\ zslice buf (p + 2) (zlen s) = Some s /\ At buf (p + 2 + zlen s) l.
Proof.
  intros Hs H. unfold field in H. rewrite <- app_assoc in H. pose proof (zlen_nonneg s).
  destruct (At_pop16 buf p (zlen s) _ ltac:(lia) H) as [Hp H1]. unfold MqttServer.POPSTR. rewrite Hp. split; [done|].
  split; [destruct H1 as (pre&->&Hpre); by apply slice_at|by apply At_app].
Qed.
Lemma At_props s buf p pr l : zlen pr < 65536 -> At buf p (props (is_v5 (MqttServer.version s)) pr ++ l) ->
  MqttServer.parse_prop s buf p = Some (if is_v5 (MqttServer.version s) then pr else [], p + zlen (props (is_v5 (MqttServer.version s)) pr)) /\
  At buf (p + zlen (props (is_v5 (MqttServer.version s)) pr)) l.
Proof. intros Hl H. split; [destruct H as (pre&->&<-); by apply parse_prop_at|by apply At_app]. Qed.

(** A client that can log in: texts fit their length fields, a will has both parts. *)
Record loginable (cli : MqttClient.mqtt_client_t) : Prop := {
  li_io : writable cli; li_version : 3 <= MqttClient.protocol_version cli <= 5; li_keepalive : 0 <= MqttClient.keepalive cli < 65536;
  li_id : MqttClient.strlen (MqttClient.client_id cli) = zlen (MqttClient.client_id cli); li_id_len : 0 < zlen (MqttClient.client_id cli) < 65536;
  li_user : MqttClient.strlen (MqttClient.username cli) = zlen (MqttClient.username cli); li_user_len : zlen (MqttClient.username cli) < 65536;
  li_pass : MqttClient.strlen (MqttClient.password cli) = zlen (MqttClient.password cli); li_pass_len : zlen (MqttClient.password cli) < 65536;
  li_will : forall w, MqttClient.will cli = Some w -> whole (topic w) (topic_len w) /\ whole (payload w) (payload_len w) /\
    0 < zlen (topic w) < 65536 /\ 0 < zlen (payload w) < 65536 /\ 0 <= msg_qos w < 3 }.

Definition has_text (s : list Z) : bool := negb (zlen s =? 0).
Definition has_will (cli : MqttClient.mqtt_client_t) : bool := match MqttClient.will cli with Some _ => true | None => false end.
Definition the_will (cli : MqttClient.mqtt_client_t) : mqtt_message_t := default MqttClient.no_message (MqttClient.will cli).
Definition proto_name (cli : MqttClient.mqtt_client_t) : list Z :=
  if MqttClient.protocol_version cli =? MQTT_PROTOCOL_V31 then MQTT_PROTOCOL_NAME_v31 else MQTT_PROTOCOL_NAME.

Definition connect_flags (cli : MqttClient.mqtt_client_t) : Z :=
  Z.lor (MqttClient.flag (MqttClient.clean_session cli) MQTT_CONN_CLEAN_SESSION)
    (Z.lor (if has_will cli then Z.lor MQTT_CONN_HAS_WILL (Z.lor (Z.shiftl (Z.land (msg_qos (the_will cli)) 3) 3)
              (MqttClient.flag (negb (msg_retain (the_will cli) =? 0)) MQTT_CONN_WILL_RETAIN)) else 0)
    (Z.lor (MqttClient.flag (has_text (MqttClient.username cli)) MQTT_CONN_HAS_USERNAME)
      (MqttClient.flag (has_text (MqttClient.password cli)) MQTT_CONN_HAS_PASSWORD))).

Definition will_part (cli : MqttClient.mqtt_client_t) : list Z :=
  if has_will cli then props (is_v5 (MqttClient.protocol_version cli)) [] ++ field (topic (the_will cli)) ++ field (payload (the_will cli)) else [].
Definition connect_body (cli : MqttClient.mqtt_client_t) : list Z :=
  field (proto_name cli) ++ [MqttClient.protocol_version cli; connect_flags cli] ++ be16 (MqttClient.keepalive cli)
  ++ props (is_v5 (MqttClient.protocol_version cli)) [] ++ field (MqttClient.client_id cli) ++ will_part cli
  ++ field_if (has_text (MqttClient.username cli)) (MqttClient.username cli)
  ++ field_if (has_text (MqttClient.password cli)) (MqttClient.password cli).
Definition connect_head (cli : MqttClient.mqtt_client_t) : mqtt_head_t := mk_head MQTT_TYPE_CONNECT 0 0 0 (zlen (connect_body cli)).
Definition connect_packet (cli : MqttClient.mqtt_client_t) : list Z := head_bytes (connect_head cli) ++ connect_body cli.

Lemma flags_facts cli : (forall w, MqttClient.will cli = Some w -> 0 <= msg_qos w < 3) ->
  0 <= connect_flags cli < 256 /\ has_flag (connect_flags cli) MQTT_CONN_HAS_WILL = has_will cli /\
  has_flag (connect_flags cli) MQTT_CONN_HAS_USERNAME = has_text (MqttClient.username cli) /\
  has_flag (connect_flags cli) MQTT_CONN_HAS_PASSWORD = has_text (MqttClient.password cli).
Proof.
  intros Hw. unfold connect_flags, has_will, the_will.
  destruct (MqttClient.will cli) as [w|]; cbn [default]; [specialize (Hw w eq_refl)|clear Hw].
  - unfold from_option, id. assert (msg_qos w = 0 \/ msg_qos w = 1 \/ msg_qos w = 2) as [->|[->| ->]] by lia.
    all: destruct (MqttClient.clean_session cli), (negb (msg_retain w =? 0)), (has_text (MqttClient.username cli)), (has_text (MqttClient.password cli)).
    all: vm_compute; done.
  - destruct (MqttClient.clean_session cli), (has_text (MqttClient.username cli)), (has_text (MqttClient.password cli)); vm_compute; done.
Qed.

Lemma zlen_field s : zlen (field s) = 2 + zlen s.
Proof. unfold field. by rewrite zlen_app. Qed.
Lemma zlen_field_if b s : zlen (field_if b s) = if b then 2 + zlen s else 0.
Proof. destruct b; [apply zlen_field|done]. Qed.
Lemma has_text_len s : zlen (field_if (has_text s) s) = if has_text s then 2 + zlen s else 0.
Proof. apply zlen_field_if. Qed.

Lemma login_will cli : loginable cli ->
  MqttClient.will_lens cli = (zlen (topic (the_will cli)), zlen (payload (the_will cli))) /\
  negb (zlen (topic (the_will cli)) =? 0) && negb (zlen (payload (the_will cli)) =? 0) = has_will cli /\
  zlen (topic (the_will cli)) < 65536 /\ zlen (payload (the_will cli)) < 65536.
Proof.
  intros H. pose proof (li_will _ H) as Hw. unfold MqttClient.will_lens, the_will, has_will.
  destruct (MqttClient.will cli) as [w|]; [|done]. destruct (Hw w eq_refl) as (Ht&Hp&Hlt&Hlp&_). cbn [default]. unfold from_option, id.
  unfold whole in *. rewrite Ht, Hp, !u16_small by lia. rewrite !(proj2 (Z.eqb_neq _ _)) by lia. split_and!; try done; lia.
Qed.

Lemma zlen_connect_body cli : zlen (connect_body cli) =
  2 + 1 + 1 + 2 + 2 + (if MqttClient.protocol_version cli =? MQTT_PROTOCOL_V31 then 6 else 4) + b2z (is_v5 (MqttClient.protocol_version cli))
  + zlen (MqttClient.client_id cli)
  + (if has_will cli then b2z (is_v5 (MqttClient.protocol_version cli)) + (2 + zlen (topic (the_will cli))) + (2 + zlen (payload (the_will cli))) else 0)
  + (if has_text (MqttClient.username cli) then 2 + zlen (MqttClient.username cli) else 0)
  + (if has_text (MqttClient.password cli) then 2 + zlen (MqttClient.password cli) else 0).
Proof.
  unfold connect_body. rewrite !zlen_app, !zlen_field, !zlen_field_if, zlen_props_nil. change (zlen (be16 _)) with 2.
  assert (Hw : zlen (will_part cli) = if has_will cli then b2z (is_v5 (MqttClient.protocol_version cli)) + (2 + zlen (topic (the_will cli))) + (2 + zlen (payload (the_will cli))) else 0).
  { unfold will_part. destruct (has_will cli); [|done]. rewrite !zlen_app, !zlen_field, zlen_props_nil. lia. }
  rewrite Hw. change (zlen [MqttClient.protocol_version cli; connect_flags cli]) with 2.
  assert (Hn : zlen (proto_name cli) = if MqttClient.protocol_version cli =? MQTT_PROTOCOL_V31 then 6 else 4) by (unfold proto_name; by destruct (_ =? _)).
  rewrite Hn. lia.
Qed.

Lemma connect_body_bound cli : 0 < zlen (MqttClient.client_id cli) < 65536 -> zlen (MqttClient.username cli) < 65536 ->
  zlen (MqttClient.password cli) < 65536 -> zlen (topic (the_will cli)) < 65536 -> zlen (payload (the_will cli)) < 65536 ->
  0 <= zlen (connect_body cli) < 268435000.
Proof.
  intros. split; [apply zlen_nonneg|]. rewrite zlen_connect_body. 
  destruct (_ =? MQTT_PROTOCOL_V31), (has_will cli), (has_text (MqttClient.username cli)), (has_text (MqttClient.password cli)), (is_v5 _); cbn [b2z]; lia.
Qed.

(** [w] has written [d] and has room for [rest]. *)
Definition Wf (w : writer) (d rest : list Z) : Prop := exists n, Wr w d n /\ zlen rest <= n.

Lemma Wf_push w d x rest : Wf w d (x ++ rest) -> exists w', PUSH_N x w = Some w' /\ Wf w' (d ++ x) rest.
Proof.
  intros (n&Hw&Hn). rewrite zlen_app in Hn. pose proof (zlen_nonneg rest). destruct (push_ok w d n x Hw ltac:(lia)) as (w'&->&Hw').
  exists w'. split; [done|]. eexists. split; [done|]. lia.
Qed.
Lemma Wf_push8 w d v rest : 0 <= v < 256 -> Wf w d (v :: rest) -> exists w', PUSH8 v w = Some w' /\ Wf w' (d ++ [v]) rest.
Proof. intros Hv Hw. unfold PUSH8. rewrite u8_small by done. by apply (Wf_push w d [v] rest). Qed.
Lemma Wf_push16 w d v rest : Wf w d (be16 v ++ rest) -> exists w', PUSH16 v w = Some w' /\ Wf w' (d ++ be16 v) rest.
Proof. apply Wf_push. Qed.
Lemma Wf_field w d s rest n : n = zlen s -> Wf w d (field s ++ rest) -> exists w', MqttClient.PUSH_FIELD s n w = Some w' /\ Wf w' (d ++ field s) rest.
Proof.
  intros -> Hw. unfold field in Hw. rewrite <- app_assoc in Hw. unfold MqttClient.PUSH_FIELD.
  destruct (Wf_push16 w d _ _ Hw) as (w1&->&W1). cbn [mbind option_bind]. rewrite slice_all by done. cbn [mbind option_bind].
  destruct (Wf_push w1 _ _ _ W1) as (w2&->&W2). exists w2. unfold field. by rewrite app_assoc.
Qed.
Lemma Wf_when w d (b : bool) f x rest : Wf w d ((if b then x else []) ++ rest) ->
  (Wf w d (x ++ rest) -> exists w', f w = Some w' /\ Wf w' (d ++ x) rest) ->
  exists w', MqttClient.when b f w = Some w' /\ Wf w' (d ++ if b then x else []) rest.
Proof. intros Hw Hf. unfold MqttClient.when. destruct b; [by apply Hf|]. exists w. by rewrite app_nil_r. Qed.

(** The packet after the protocol name. *)
Definition proto_rest (cli : MqttClient.mqtt_client_t) : list Z :=
  [MqttClient.protocol_version cli; connect_flags cli] ++ be16 (MqttClient.keepalive cli)
  ++ props (is_v5 (MqttClient.protocol_version cli)) [] ++ field (MqttClient.client_id cli) ++ will_part cli
  ++ field_if (has_text (MqttClient.username cli)) (MqttClient.username cli)
  ++ field_if (has_text (MqttClient.password cli)) (MqttClient.password cli).

Lemma login_ok cli random_id : loginable cli ->
  MqttClient.mqtt_client_login cli random_id = Some (took cli (connect_packet cli), 0).
Proof.
  intros H. destruct (login_will cli H) as (Hwl&Hhw&Hwt&Hwp).
  destruct (flags_facts cli) as [Hf _]; [intros w Hw; by destruct (li_will _ H w Hw) as (_&_&_&_&?)|].
  destruct H as [Hio Hv Hk Hid Hidl Hu Hul Hp Hpl Hwill]. unfold MqttClient.mqtt_client_login.
  rewrite Hid. rewrite (proj2 (Z.eqb_neq (zlen (MqttClient.client_id cli)) 0)) by lia. rewrite Hid, u16_small by lia.
  rewrite (proj2 (Z.eqb_neq (zlen (MqttClient.client_id cli)) 0)), (proj2 (Z.ltb_lt 0 (zlen (MqttClient.client_id cli)))) by lia.
  rewrite Hwl, Hhw, Hu, Hp. pose proof (zlen_nonneg (MqttClient.username cli)). pose proof (zlen_nonneg (MqttClient.password cli)).
  rewrite !(u16_small (zlen _)) by lia. cbv zeta. fold (the_will cli). fold (has_text (MqttClient.username cli)). fold (has_text (MqttClient.password cli)).
  fold (connect_flags cli). fold (is_v5 (MqttClient.protocol_version cli)). rewrite <- (zlen_connect_body cli).
  set (v5 := is_v5 (MqttClient.protocol_version cli)) in *. pose proof (connect_body_bound cli Hidl Hul Hpl Hwt Hwp) as Hbd.
  rewrite u32_small by lia. fold (connect_head cli).
  assert (Hh : head_ok (connect_head cli)) by (split; cbn [connect_head type dup qos retain length_]; unfold MQTT_TYPE_CONNECT; lia). pose proof (zlen_head_bytes _ Hh) as Hhb.
  assert (Hest : mqtt_estimate_length (connect_head cli) = 5 + zlen (connect_body cli)).
  { unfold mqtt_estimate_length. cbn [connect_head length_]. rewrite u32_small, i32_small by lia. lia. }
  rewrite Hest. pose proof (Wr_start (5 + zlen (connect_body cli)) ltac:(lia)) as W0.
  destruct (head_pack_ok _ _ _ _ W0 Hh ltac:(lia)) as (w1&->&W1'). cbn [mbind option_bind app] in *.
  assert (W1 : Wf w1 (head_bytes (connect_head cli)) (connect_body cli)) by (eexists; split; [done|lia]). unfold connect_body in W1.
  assert (Hproto : exists w2, (if MqttClient.protocol_version cli =? MQTT_PROTOCOL_V31 then MqttClient.PUSH_FIELD MQTT_PROTOCOL_NAME_v31 6 w1
      else MqttClient.PUSH_FIELD MQTT_PROTOCOL_NAME 4 w1) = Some w2 /\
      Wf w2 (head_bytes (connect_head cli) ++ field (proto_name cli)) (proto_rest cli)).
  { unfold proto_name in *. by destruct (_ =? MQTT_PROTOCOL_V31); apply Wf_field. }
  destruct Hproto as (w2&->&W2). unfold proto_rest in W2. cbn [mbind option_bind app] in *.
  destruct (Wf_push8 w2 _ (MqttClient.protocol_version cli) _ ltac:(lia) W2) as (w3&->&W3). cbn [mbind option_bind].
  destruct (Wf_push8 w3 _ (connect_flags cli) _ ltac:(lia) W3) as (w4&->&W4). cbn [mbind option_bind].
  destruct (Wf_push16 w4 _ _ _ W4) as (w5&->&W5). cbn [mbind option_bind]. fold v5 in W5.
  destruct (Wf_when w5 _ v5 (PUSH8 0) [0] _ W5) as (w6&->&W6); [by apply Wf_push8|]. cbn [mbind option_bind].
  unfold field in W6 at 2. rewrite <- app_assoc in W6. destruct (Wf_push16 w6 _ _ _ W6) as (w7&->&W7). cbn [mbind option_bind MqttClient.when].
  rewrite slice_all by done. cbn [mbind option_bind]. destruct (Wf_push w7 _ _ _ W7) as (w8&->&W8). cbn [mbind option_bind].
  match goal with |- context[MqttClient.when (has_will cli) ?f w8] => destruct (Wf_when w8 _ (has_will cli) f _ _ W8) as (w9&->&W9) end.
  { intros W. rewrite <- !app_assoc in W. destruct (Wf_when w8 _ v5 (PUSH8 0) [0] _ W) as (u1&->&U1); [by apply Wf_push8|]. cbn [mbind option_bind].
    destruct (Wf_field u1 _ _ _ _ eq_refl U1) as (u2&->&U2). cbn [mbind option_bind]. destruct (Wf_field u2 _ _ _ _ eq_refl U2) as (u3&->&U3).
    exists u3. split; [done|]. rewrite <- !app_assoc in *. done. }
  cbn [mbind option_bind].
  match goal with |- context[MqttClient.when (has_text (MqttClient.username cli)) ?f w9] => destruct (Wf_when w9 _ (has_text (MqttClient.username cli)) f _ _ W9) as (w10&->&W10) end.
  { by apply Wf_field. }
  cbn [mbind option_bind]. rewrite <- (app_nil_r (field_if _ (MqttClient.password cli))) in W10.
  match goal with |- context[MqttClient.when (has_text (MqttClient.password cli)) ?f w10] => destruct (Wf_when w10 _ (has_text (MqttClient.password cli)) f _ _ W10) as (w11&->&W11) end.
  { by apply Wf_field. }
  cbn [mbind option_bind]. destruct W11 as (n&W11&_). rewrite (Wr_written _ _ _ W11), client_send_ok by done. change (0 <? 0) with false. cbn iota.
  do 3 f_equal. unfold connect_packet, connect_body, will_part, field. fold v5. rewrite <- !app_assoc. done.
Qed.

(** * The broker's answer *)

Definition connack_data (v rc : Z) : list Z := [0; rc] ++ (if v =? MQTT_PROTOCOL_V5 then [0] else []).
Definition small_packet (t : Z) (data : list Z) : list Z := head_bytes (mk_head t 0 0 0 (zlen data)) ++ data.

Lemma small_head_ok t (data : list Z) : 0 <= t < 16 -> zlen data < 268435456 -> head_ok (mk_head t 0 0 0 (zlen data)).
Proof. intros Ht Hd. pose proof (zlen_nonneg data). split; cbn; lia. Qed.

Lemma send_ok s t data : 0 <= t < 16 -> 0 < zlen data < 268435456 ->
  MqttServer.send s t data = Some (MqttServer.write s (small_packet t data)).
Proof.
  intros Ht Hd. unfold MqttServer.send. rewrite u32_small by lia. pose proof (small_head_ok t data Ht ltac:(lia)) as Hh.
  pose proof (Wr_start 8 ltac:(lia)) as W0. change (Z.to_nat 8) with 8%nat in W0.
  destruct (head_pack_ok _ _ _ _ W0 Hh ltac:(lia)) as (w1&->&W1). cbn [mbind option_bind]. rewrite (Wr_written _ _ _ W1).
  rewrite (proj2 (Z.eqb_neq (zlen data) 0)) by lia. by rewrite write_write.
Qed.

(** What [onAuth] is shown. *)
Definition conn_of (cli : MqttClient.mqtt_client_t) : mqtt_conn_t :=
  mk_conn (proto_name cli) (MqttClient.protocol_version cli) (connect_flags cli) (MqttClient.keepalive cli) (MqttClient.client_id cli)
    (topic (the_will cli)) (payload (the_will cli)) (MqttClient.username cli) (MqttClient.password cli).
(** The session of the client, before the answer is written. *)
Definition welcomed (s : MqttServer.MqttSession) (cli : MqttClient.mqtt_client_t) : MqttServer.MqttSession :=
  let s := s.[MqttServer.version := MqttClient.protocol_version cli] in
  if has_will cli
  then s.[MqttServer.will_prop := []].[MqttServer.will_topic := topic (the_will cli)].[MqttServer.will_payload := payload (the_will cli)]
  else s.

Lemma popstr_if buf p (b : bool) s l : zlen s < 65536 -> (b = false -> s = []) -> At buf p (field_if b s ++ l) ->
  exists q q', (if b then MqttServer.POPSTR buf p else Some (0, 0, p)) = Some (q, zlen s, q') /\ zslice buf q (zlen s) = Some s /\ At buf q' l.
Proof.
  intros Hs Hb H. destruct b; [destruct (At_popstr buf p s l Hs H) as (H1&H2&H3); eauto|]. rewrite (Hb eq_refl).
  exists 0, p. split; [done|]. split; [|done]. pose proof (zlen_nonneg buf). unfold zslice. change (zlen []) with 0. by zcases.
Qed.
Lemma has_text_nil s : has_text s = false -> s = [].
Proof. unfold has_text. intros H%negb_false_iff%Z.eqb_eq. apply nil_length_inv. unfold zlen in H. lia. Qed.
Lemma At_le buf p l : At buf p l -> p <= zlen buf.
Proof. intros H. pose proof (At_end _ _ _ H). pose proof (zlen_nonneg l). lia. Qed.
Lemma no_will cli : has_will cli = false -> the_will cli = MqttClient.no_message.
Proof. unfold has_will, the_will. by destruct (MqttClient.will cli). Qed.

Definition willed (srv : MqttServer.Server) (id : Z) (s : MqttServer.MqttSession) (cli : MqttClient.mqtt_client_t) : MqttServer.Server :=
  if has_will cli then srv.[MqttServer.sessions := <[id := s.[MqttServer.will_prop := []].[MqttServer.will_topic := topic (the_will cli)]
    .[MqttServer.will_payload := payload (the_will cli)]]> (MqttServer.sessions srv)]
  else srv.

Lemma read_will_ok srv id s buf cli cflag p l : MqttServer.sessions srv !! id = Some s ->
  MqttServer.version s = MqttClient.protocol_version cli -> has_flag cflag MQTT_CONN_HAS_WILL = has_will cli ->
  zlen (topic (the_will cli)) < 65536 -> zlen (payload (the_will cli)) < 65536 -> At buf p (will_part cli ++ l) ->
  exists p2, MqttServer.read_will srv id s buf cflag p (zlen buf)
    = Some (willed srv id s cli, topic (the_will cli), payload (the_will cli), p2, false) /\ At buf p2 l.
Proof.
  intros Hs Hv Hf Ht Hp A0. unfold MqttServer.read_will, willed, will_part in *. rewrite Hf. destruct (has_will cli) eqn:Hw; cbn [negb].
  2: { rewrite (no_will cli Hw). eauto. }
  rewrite <- Hv, <- !app_assoc in A0. destruct (At_props s buf _ [] _ ltac:(done) A0) as (->&A1). cbn [mbind option_bind].
  destruct (At_popstr buf _ _ _ Ht A1) as (->&S1&A2). cbn [mbind option_bind]. rewrite (proj2 (Z.ltb_ge (zlen buf) _)) by (by eapply At_le).
  destruct (At_popstr buf _ _ _ Hp A2) as (->&S2&A3). cbn [mbind option_bind]. rewrite (proj2 (Z.ltb_ge (zlen buf) _)) by (by eapply At_le).
  rewrite S1. cbn [mbind option_bind]. rewrite S2. cbn [mbind option_bind]. erewrite on_session_lookup; [|exact Hs|reflexivity]. cbn [mbind option_bind].
  eexists. split; [|exact A3]. by destruct (is_v5 (MqttServer.version s)).
Qed.

Lemma server_connects onAuth srv id s cli : MqttServer.sessions srv !! id = Some s -> loginable cli ->
  MqttServer.onMessage onAuth srv id (connect_packet cli) = Some (srv.[MqttServer.sessions :=
    <[id := MqttServer.write (welcomed s cli) (small_packet MQTT_TYPE_CONNACK (connack_data (MqttClient.protocol_version cli) (u8 (onAuth (conn_of cli)))))]>
      (MqttServer.sessions srv)]).
Proof.
  intros Hs H. destruct (login_will cli H) as (Hwl&Hhw&Hwt&Hwp).
  destruct (flags_facts cli) as (Hf&Hfw&Hfu&Hfp); [intros w Hw; by destruct (li_will _ H w Hw) as (_&_&_&_&?)|].
  destruct H as [Hio Hv Hk Hid Hidl Hu Hul Hp Hpl Hwill].
  pose proof (connect_body_bound cli Hidl Hul Hpl Hwt Hwp) as Hbd. set (h := connect_head cli).
  assert (Hh : head_ok h) by (apply (small_head_ok MQTT_TYPE_CONNECT (connect_body cli)); [unfold MQTT_TYPE_CONNECT; lia|lia]). pose proof (zlen_head_bytes _ Hh) as Hhb.
  assert (Hlen : zlen (connect_packet cli) = zlen (head_bytes h) + zlen (connect_body cli)) by apply zlen_app.
  assert (HU : mqtt_head_unpack (connect_packet cli) (zlen (connect_packet cli)) = Some (h, zlen (head_bytes h))) by (apply head_unpack_ok; [done|lia]).
  unfold MqttServer.onMessage. rewrite HU. cbn [mbind option_bind].
  change (length_ h) with (zlen (connect_body cli)). rewrite (proj2 (Z.leb_gt (zlen (head_bytes h)) 0)), u32_small, Hlen, Z.ltb_irrefl by lia. cbn [orb].
  unfold MqttServer.onMqttMessage. change (type h) with 1. change (length_ h) with (zlen (connect_body cli)). cbn -[MqttServer.on_connect zlen connect_body connect_packet head_bytes]. rewrite <- Hlen.
  assert (A0 : At (connect_packet cli) (zlen (head_bytes h)) (connect_body cli)) by (exists (head_bytes h); split; reflexivity).
  set (buf := connect_packet cli) in *. clearbody buf. unfold connect_body in A0. unfold MqttServer.on_connect.
  assert (Hpn : zlen (proto_name cli) < 65536) by (unfold proto_name; by destruct (MqttClient.protocol_version cli =? MQTT_PROTOCOL_V31); vm_compute).
  destruct (At_popstr buf _ _ _ Hpn A0) as (->&S0&A1). cbn [mbind option_bind app] in *.
  destruct (At_pop8 buf _ _ _ A1) as (->&A2). cbn [mbind option_bind]. destruct (At_pop8 buf _ _ _ A2) as (->&A3). cbn [mbind option_bind].
  destruct (At_pop16 buf _ _ _ Hk A3) as (->&A4). cbn [mbind option_bind].
  set (s1 := s.[MqttServer.version := MqttClient.protocol_version cli]).
  rewrite (on_session_lookup srv id (fun s => Some (s.[MqttServer.version := MqttClient.protocol_version cli])) s s1 Hs eq_refl). cbn [mbind option_bind]. set (srv1 := srv.[MqttServer.sessions := _]).
  assert (Hs1 : MqttServer.sessions srv1 !! id = Some s1) by (cbn; by rewrite lookup_insert_eq). rewrite Hs1. cbn [mbind option_bind].
  change (MqttClient.protocol_version cli) with (MqttServer.version s1) in A4 at 1.
  destruct (At_props s1 buf _ [] _ ltac:(done) A4) as (->&A5). cbn [mbind option_bind].
  destruct (At_popstr buf _ (MqttClient.client_id cli) _ ltac:(lia) A5) as (->&S5&A6). cbn [mbind option_bind].
  unfold MqttServer.unless_past. rewrite (proj2 (Z.ltb_ge (zlen buf) _)) by (by eapply At_le).
  destruct (read_will_ok srv1 id s1 buf cli _ _ _ Hs1 eq_refl Hfw Hwt Hwp A6) as (p2&->&A7). cbn [mbind option_bind].
  rewrite Hfu. destruct (popstr_if buf p2 _ _ _ Hul (has_text_nil _) A7) as (q&q'&->&S7&A8). cbn [mbind option_bind].
  rewrite (proj2 (Z.ltb_ge (zlen buf) _)) by (by eapply At_le). rewrite Hfp. rewrite <- (app_nil_r (field_if _ (MqttClient.password cli))) in A8.
  destruct (popstr_if buf q' _ _ _ Hpl (has_text_nil _) A8) as (r&r'&->&S8&A9). cbn [mbind option_bind].
  rewrite (proj2 (Z.ltb_ge (zlen buf) _)) by (by eapply At_le). rewrite S0. cbn [mbind option_bind]. rewrite S5. cbn [mbind option_bind].
  rewrite S7. cbn [mbind option_bind]. rewrite S8. cbn [mbind option_bind]. fold (conn_of cli).
  assert (Hs2 : MqttServer.sessions (willed srv1 id s1 cli) !! id = Some (welcomed s cli)).
  { unfold willed, welcomed. destruct (has_will cli); [|exact Hs1]. apply lookup_insert_eq. }
  fold (connack_data (MqttClient.protocol_version cli) (u8 (onAuth (conn_of cli)))).
  erewrite on_session_lookup; [|exact Hs2|].
  2: { apply send_ok; [unfold MQTT_TYPE_CONNACK; lia|]. unfold connack_data. destruct (MqttClient.protocol_version cli =? MQTT_PROTOCOL_V5); unfold zlen; cbn [length app]; lia. }
  f_equal. unfold willed, srv1. destruct srv. destruct (has_will cli); cbn; by rewrite ?insert_insert_eq.
Qed.

(** The client on the answer: connected, or closed with the reason. *)
Lemma client_connack c v rc : writable c -> MqttClient.protocol_version c = v -> 0 <= rc < 256 ->
  exists c', MqttClient.on_packet c (small_packet MQTT_TYPE_CONNACK (connack_data v rc)) = Some c' /\
    if rc =? 0 then MqttClient.connected c' = true /\ writable c'
    else MqttClient.closed (MqttClient.io c') = true /\ MqttClient.error c' = rc.
Proof.
  intros Hw Hv Hrc. unfold connack_data. destruct (Z.eqb_spec v MQTT_PROTOCOL_V5) as [E|E].
  - change (small_packet MQTT_TYPE_CONNACK ([0; rc] ++ [0])) with [32; 3; 0; rc; 0]. unfold MqttClient.on_packet. cbv zeta.
    change (mqtt_head_unpack [32; 3; 0; rc; 0] (zlen [32; 3; 0; rc; 0])) with (Some (mk_head 2 0 0 0 3, 2)). cbn [mbind option_bind].
    cbn -[MqttClient.on_connack]. unfold MqttClient.on_connack, MqttClient.skip_if_v5. cbn -[Z.eqb MqttClient.mqtt_v5_skip_properties MqttClient.hio_close POP8 zlen]. rewrite Hv, E.
    change (POP8 [32; 3; 0; rc; 0] 2) with (Some (0, 3)). cbn [mbind option_bind]. change (POP8 [32; 3; 0; rc; 0] 3) with (Some (rc, 4)). cbn [mbind option_bind].
    unfold MQTT_CONNACK_ACCEPTED. destruct (Z.eqb_spec rc 0) as [->|Hr]; cbn [negb]; [|by eexists; split].
    change (MqttClient.mqtt_v5_skip_properties [32; 3; 0; 0; 0] 4 5) with (Some (Some 5)). cbn. eexists. split; [reflexivity|]. by destruct (MqttClient.keepalive c =? 0).
  - change (small_packet MQTT_TYPE_CONNACK ([0; rc] ++ [])) with [32; 2; 0; rc]. unfold MqttClient.on_packet. cbv zeta.
    change (mqtt_head_unpack [32; 2; 0; rc] (zlen [32; 2; 0; rc])) with (Some (mk_head 2 0 0 0 2, 2)). cbn [mbind option_bind].
    cbn -[MqttClient.on_connack]. unfold MqttClient.on_connack, MqttClient.skip_if_v5. cbn -[Z.eqb MqttClient.mqtt_v5_skip_properties MqttClient.hio_close POP8 zlen].
    change (POP8 [32; 2; 0; rc] 2) with (Some (0, 3)). cbn [mbind option_bind]. change (POP8 [32; 2; 0; rc] 3) with (Some (rc, 4)). cbn [mbind option_bind].
    unfold MQTT_CONNACK_ACCEPTED. destruct (Z.eqb_spec rc 0) as [->|Hr]; cbn [negb]; [|by eexists; split].
    rewrite Hv, (proj2 (Z.eqb_neq v MQTT_PROTOCOL_V5)) by done. cbn. eexists. split; [reflexivity|]. by destruct (MqttClient.keepalive c =? 0).
Qed.

(** C13. Logging in: the client sends one CONNECT packet within its buffer; the broker
    reads from it the client's version, flags, keep-alive, identifier, will, user
    name and password, shows them to [onAuth], keeps version and will, and answers;
    and the client takes the answer as a connection, or closes with its reason. *)
Theorem connect_handshake onAuth srv id s cli random_id : MqttServer.sessions srv !! id = Some s -> loginable cli ->
  let rc := u8 (onAuth (conn_of cli)) in
  let answer := small_packet MQTT_TYPE_CONNACK (connack_data (MqttClient.protocol_version cli) rc) in
  exists cli' srv' c',
    MqttClient.mqtt_client_login cli random_id = Some (cli', 0) /\
    MqttClient.accepted (MqttClient.io cli') = MqttClient.accepted (MqttClient.io cli) ++ connect_packet cli /\
    MqttServer.onMessage onAuth srv id (connect_packet cli) = Some srv' /\
    MqttServer.sessions srv' = <[id := MqttServer.write (welcomed s cli) answer]> (MqttServer.sessions srv) /\
    MqttClient.on_packet cli' answer = Some c' /\
    if rc =? 0 then MqttClient.connected c' = true /\ writable c'
    else MqttClient.closed (MqttClient.io c') = true /\ MqttClient.error c' = rc.
Proof.
  intros Hs H rc answer. destruct (client_connack (took cli (connect_packet cli)) (MqttClient.protocol_version cli) rc) as (c'&Hc&Hr);
    [apply writable_took|done|apply u8_range|].
  do 3 eexists. split; [by apply login_ok|]. split; [apply accepted_took|]. split; [by apply server_connects|]. by split.
Qed.

(** * Acknowledging a subscription *)

(** The broker answers SUBSCRIBE of version 5 with the reason before the empty
    properties; the client, which expects the properties first, takes QoS 2 for the
    length of properties that are not there and closes the connection. *)
Lemma suback_v5_qos2_closes s c m : MqttServer.version s = MQTT_PROTOCOL_V5 -> MqttClient.protocol_version c = MQTT_PROTOCOL_V5 ->
  0 <= m < 65536 -> exists packet c',
    MqttServer.send s MQTT_TYPE_SUBACK (MqttServer.suback_data s m 2) = Some (MqttServer.write s packet) /\
    MqttClient.on_packet c packet = Some c' /\ MqttClient.closed (MqttClient.io c') = true.
Proof.
  intros Hs Hc Hm. destruct (be16_val m Hm) as (hi&lo&Hb&<-&Hhi&Hlo). unfold MqttServer.suback_data. rewrite Hs, Hb. cbn [app Z.eqb Pos.eqb MQTT_PROTOCOL_V5].
  eexists _, _. split; [apply send_ok; [unfold MQTT_TYPE_SUBACK; lia|done]|].
  change (small_packet MQTT_TYPE_SUBACK [hi; lo; 2; 0]) with [144; 4; hi; lo; 2; 0]. unfold MqttClient.on_packet. cbv zeta.
  change (mqtt_head_unpack [144; 4; hi; lo; 2; 0] (zlen [144; 4; hi; lo; 2; 0])) with (Some (mk_head 9 0 0 0 4, 2)). cbn [mbind option_bind].
  cbn -[MqttClient.on_suback]. unfold MqttClient.on_suback, MqttClient.skip_if_v5. cbn -[Z.eqb MqttClient.mqtt_v5_skip_properties POP16 zlen]. change (POP16 [144; 4; hi; lo; 2; 0] 2) with (Some (hi * 256 + lo, 4)). cbn [mbind option_bind]. rewrite Hc.
  change (MqttClient.mqtt_v5_skip_properties [144; 4; hi; lo; 2; 0] 4 6) with (Some (@None Z)). cbn. by split.
Qed.

(** * Retained messages *)

Lemma byte_ascii b : is_byte b -> Z.of_N (Ascii.N_of_ascii (Ascii.ascii_of_N (Z.to_N b))) = b.
Proof. intros Hb. unfold is_byte in Hb. rewrite Ascii.N_ascii_embedding by lia. lia. Qed.
Lemma bytes_string l : Bytes l -> bytes_of_string (MqttServer.string_of_bytes l) = l.
Proof.
  intros Hl. unfold bytes_of_string, MqttServer.string_of_bytes. rewrite String.list_ascii_of_string_of_list_ascii, map_map.
  induction Hl as [|b l Hb _ IH]; [done|]. cbn. by rewrite byte_ascii, IH.
Qed.

(** A client's SUBSCRIBE. *)
Definition subscribe_body (v5 : bool) (m : Z) (t : list Z) (q : Z) : list Z := be16 m ++ props v5 [] ++ field t ++ [q].
Definition subscribe_head (len : Z) : mqtt_head_t := mk_head MQTT_TYPE_SUBSCRIBE 0 1 0 len.
Definition subscribe_packet (v5 : bool) (m : Z) (t : list Z) (q : Z) : list Z :=
  head_bytes (subscribe_head (zlen (subscribe_body v5 m t q))) ++ subscribe_body v5 m t q.

Lemma zlen_subscribe_body v5 m t q : zlen (subscribe_body v5 m t q) = 2 + 2 + zlen t + 1 + b2z v5.
Proof. unfold subscribe_body. rewrite !zlen_app, zlen_field, zlen_props_nil. change (zlen (be16 m)) with 2. change (zlen [q]) with 1. lia. Qed.
Lemma subscribe_head_ok len : 0 <= len < 268435456 -> head_ok (subscribe_head len).
Proof. intros H. split; cbn [subscribe_head type dup qos retain length_]; unfold MQTT_TYPE_SUBSCRIBE; lia. Qed.

Lemma client_subscribe_ok c t q : MqttClient.connected c = true -> writable c -> MqttClient.strlen t = zlen t -> zlen t < 65536 ->
  0 <= q < 3 ->
  let m := u16 (MqttClient.s_mid c + 1) in
  MqttClient.mqtt_client_subscribe c t q =
    Some (took (c.[MqttClient.s_mid := m]) (subscribe_packet (is_v5 (MqttClient.protocol_version c)) m t q), m).
Proof.
  intros Hc Hw Ht Htl Hq m. unfold MqttClient.mqtt_client_subscribe. rewrite Hc. cbn [negb]. cbv zeta. rewrite Ht.
  pose proof (zlen_nonneg t). rewrite i32_small by lia. fold (is_v5 (MqttClient.protocol_version c)).
  set (v5 := is_v5 (MqttClient.protocol_version c)). rewrite <- (zlen_subscribe_body v5 m t q).
  assert (Hl : 0 <= zlen (subscribe_body v5 m t q) < 65600) by (rewrite zlen_subscribe_body; destruct v5; cbn; lia).
  rewrite u32_small by lia. fold (subscribe_head (zlen (subscribe_body v5 m t q))). set (h := subscribe_head _).
  assert (Hh : head_ok h) by (apply subscribe_head_ok; lia). pose proof (zlen_head_bytes _ Hh) as Hhb.
  assert (Hest : mqtt_estimate_length h = 5 + zlen (subscribe_body v5 m t q)).
  { unfold mqtt_estimate_length. change (length_ h) with (zlen (subscribe_body v5 m t q)). rewrite u32_small, i32_small by lia. lia. }
  rewrite Hest. pose proof (Wr_start (5 + zlen (subscribe_body v5 m t q)) ltac:(lia)) as W0.
  destruct (head_pack_ok _ _ _ _ W0 Hh ltac:(lia)) as (w1&->&W1'). cbn [mbind option_bind app] in *.
  assert (W1 : Wf w1 (head_bytes h) (subscribe_body v5 m t q)) by (eexists; split; [done|lia]). unfold subscribe_body in W1.
  unfold MqttClient.mqtt_next_mid. fold m. cbv beta iota zeta.
  destruct (Wf_push16 w1 _ _ _ W1) as (w2&->&W2). cbn [mbind option_bind].
  destruct (Wf_when w2 _ v5 (PUSH8 0) [0] _ W2) as (w3&->&W3); [by apply Wf_push8|]. cbn [mbind option_bind].
  destruct (Wf_field w3 _ _ _ _ eq_refl W3) as (w4&->&W4). cbn [mbind option_bind].
  rewrite (land_mask _ 3 2) by (lia || done). change (2 ^ 2) with 4. rewrite Z.mod_small by lia.
  destruct (Wf_push8 w4 _ q [] ltac:(lia) W4) as (w5&->&W5). cbn [mbind option_bind].
  destruct W5 as (n&W5&_). rewrite (Wr_written _ _ _ W5), client_send_ok by done. cbv iota beta. change (0 <? 0) with false. cbv iota.
  do 3 f_equal. unfold subscribe_packet, subscribe_body. fold h. rewrite <- !app_assoc. done.
Qed.

(** The broker on it: acknowledged, subscribed, and sent what is retained. *)
Lemma server_subscribes onAuth srv (id : Z) s m t q : MqttServer.sessions srv !! id = Some s -> 0 <= m < 65536 -> zlen t < 65536 -> 0 <= q < 3 ->
  let name := MqttServer.string_of_bytes t in
  let srv1 := srv.[MqttServer.sessions :=
    <[id := MqttServer.write s (small_packet MQTT_TYPE_SUBACK (MqttServer.suback_data s m q))]> (MqttServer.sessions srv)] in
  let tree := (TopicTree.subscribe (MqttServer.live srv1) (MqttServer.topic_tree srv) name id q false "").1 in
  MqttServer.onMessage onAuth srv id (subscribe_packet (is_v5 (MqttServer.version s)) m t q)
  = MqttServer.send_retained (srv1.[MqttServer.topic_tree := tree]) id q (TopicTree.get_retained_messages tree name).
Proof.
  intros Hs Hm Ht Hq name srv1 tree. set (v5 := is_v5 (MqttServer.version s)). unfold subscribe_packet.
  pose proof (zlen_nonneg t). assert (Hl : 5 <= zlen (subscribe_body v5 m t q) < 65600) by (rewrite zlen_subscribe_body; destruct v5; cbn; lia).
  set (h := subscribe_head _). assert (Hh : head_ok h) by (apply subscribe_head_ok; lia). pose proof (zlen_head_bytes _ Hh) as Hhb.
  unfold MqttServer.onMessage. rewrite head_unpack_ok by (done || lia). cbn [mbind option_bind].
  change (length_ h) with (zlen (subscribe_body v5 m t q)). rewrite zlen_app.
  rewrite (proj2 (Z.leb_gt (zlen (head_bytes h)) 0)), u32_small, Z.ltb_irrefl by lia. cbn [orb].
  unfold MqttServer.onMqttMessage. change (type h) with MQTT_TYPE_SUBSCRIBE. cbn -[MqttServer.on_subscribe zlen subscribe_body head_bytes].
  assert (A0 : At (head_bytes h ++ subscribe_body v5 m t q) (zlen (head_bytes h)) (subscribe_body v5 m t q)) by (by eexists).
  set (buf := head_bytes h ++ _) in *. clearbody buf. unfold MqttServer.on_subscribe.
  change (length_ h) with (zlen (subscribe_body v5 m t q)). rewrite (proj2 (Z.leb_gt _ 1)) by lia. unfold subscribe_body in A0.
  destruct (At_pop16 buf _ _ _ Hm A0) as (->&A1). cbn [mbind option_bind]. rewrite Hs. cbn [mbind option_bind].
  destruct (At_props s buf _ [] _ ltac:(done) A1) as (->&A2). cbn [mbind option_bind].
  set (p := zlen (head_bytes h) + 2 + _) in *.
  destruct (At_popstr buf _ _ _ Ht A2) as (_&S3&A3). unfold field in A2. rewrite <- app_assoc in A2.
  destruct (At_pop16 buf _ _ _ (conj (zlen_nonneg t) Ht) A2) as (->&_). cbn [mbind option_bind].
  destruct (At_pop8 buf _ _ _ A3) as (->&_). cbn [mbind option_bind].
  rewrite (on_session_lookup srv id _ s (MqttServer.write s (small_packet MQTT_TYPE_SUBACK (MqttServer.suback_data s m q))) Hs).
  2: { apply send_ok; [unfold MQTT_TYPE_SUBACK; lia|]. unfold MqttServer.suback_data. rewrite !zlen_app. change (zlen (be16 m)) with 2. change (zlen [q]) with 1.
       destruct (MqttServer.version s =? MQTT_PROTOCOL_V5); [change (zlen [0]) with 1|change (zlen []) with 0]; lia. }
  cbn [mbind option_bind]. rewrite S3. cbn [mbind option_bind]. done.
Qed.

(** No one is subscribed in a new tree. *)
Lemma receivers_new srv name : MqttServer.topic_tree srv = TopicTree.TopicTree -> receivers srv name = [].
Proof.
  intros E. unfold receivers, TopicTree.get_subscribers. rewrite E. destruct (negb _); [done|].
  rewrite TopicTreeThm.filter_live_id, TopicTreeThm.collect_subscribers_spec.
  assert (H : concat (map (fun p => TopicTreeThm.pub_subs (TopicTreeThm.data_at TopicTree.TopicTree p)) (TopicTreeThm.matching (TopicTree.split_topic name))) = []);
    [|by rewrite H].
  induction (TopicTreeThm.matching (TopicTree.split_topic name)) as [|p l IH]; [done|]. cbn [map concat]. rewrite IH, TopicTreeThm.new_tree_sim. done.
Qed.

(** A retained PUBLISH to a broker without subscriptions. *)
Lemma server_retains onAuth srv id s cli msg : MqttServer.sessions srv !! id = Some s -> MqttServer.topic_tree srv = TopicTree.TopicTree ->
  is_v5 (MqttServer.version s) = is_v5 (MqttClient.protocol_version cli) -> sendable cli msg -> msg_retain msg = 1 -> payload msg <> [] ->
  exists srv1, MqttServer.onMessage onAuth srv id (client_packet cli msg) = Some srv1 /\
    MqttServer.topic_tree srv1 = TopicTree.set_retained_message TopicTree.TopicTree (MqttServer.string_of_bytes (topic msg))
      (client_packet cli msg) (msg_qos msg) false /\
    forall i, i <> id -> MqttServer.sessions srv1 !! i = MqttServer.sessions srv !! i.
Proof.
  intros Hs Hn Hv Hok Hr Hp. rewrite (server_reads onAuth srv id s cli msg Hs Hv Hok). set (srv0 := MqttServer.mk_server _ _ _).
  destruct (publish_ok srv0 (forwarded msg) (forwarded_ok cli msg Hok)) as (srv'&->&Ht&_&Hl). cbn [mbind option_bind].
  eexists. split; [reflexivity|]. split.
  - change (MqttServer.topic_tree srv' = TopicTree.set_retained_message TopicTree.TopicTree (MqttServer.string_of_bytes (topic msg))
      (client_packet cli msg) (msg_qos msg) false).
    rewrite Ht. change (MqttServer.topic_tree srv0) with (retained_tree (MqttServer.topic_tree srv) msg (client_packet cli msg)).
    unfold retained_tree. rewrite Hn, Hr. cbn [Z.eqb]. destruct (Z.ltb_spec 0 (zlen (payload msg))) as [|H0]; [done|].
    destruct (payload msg) as [|x l]; [done|]. rewrite zlen_cons in H0. pose proof (zlen_nonneg l). lia.
  - intros i Hi. change (MqttServer.sessions srv' !! i = MqttServer.sessions srv !! i). rewrite Hl.
    assert (Hrec : receivers srv0 (MqttServer.string_of_bytes (topic (forwarded msg))) = []).
    { rewrite <- (receivers_new srv (MqttServer.string_of_bytes (topic msg)) Hn). unfold receivers. f_equal.
      change (MqttServer.topic_tree srv0) with (retained_tree (MqttServer.topic_tree srv) msg (client_packet cli msg)).
      change (topic (forwarded msg)) with (topic msg).
      unfold retained_tree. rewrite Hr. cbn [Z.eqb]. rewrite get_subscribers_retained. apply get_subscribers_ext.
      intros k. unfold MqttServer.live. cbn. apply bool_decide_ext. destruct (decide (k = id)) as [->|Hk].
      + rewrite lookup_insert_eq, Hs. split; by eexists.
      + by rewrite lookup_insert_ne. }
    rewrite Hrec. cbn. rewrite lookup_insert_ne by done. rewrite bool_decide_eq_false_2 by apply not_elem_of_nil.
    by destruct (MqttServer.sessions srv !! i).
Qed.

(** C36. What the broker keeps of a retained PUBLISH is the whole packet. A client
    publishes a retained message to a broker that has no subscriptions yet, and another
    client, not of MQTT 5, then subscribes to its topic with [mqtt_client_subscribe]: run through
    [onMessage], the broker answers the subscription with SUBACK and one PUBLISH, from
    which the subscriber reads, as the payload, the publisher's packet with its header,
    topic and identifier instead of the payload that was published. *)
Theorem retained_payload_is_packet onAuth srv id s id2 s2 cli msg c q :
  MqttServer.sessions srv !! id = Some s -> MqttServer.sessions srv !! id2 = Some s2 -> id2 <> id ->
  MqttServer.topic_tree srv = TopicTree.TopicTree -> MqttServer.channel_open s2 = true ->
  is_v5 (MqttServer.version s) = is_v5 (MqttClient.protocol_version cli) ->
  sendable cli msg -> msg_retain msg = 1 -> payload msg <> [] -> Bytes (topic msg) -> MqttClient.strlen (topic msg) = zlen (topic msg) ->
  let name := MqttServer.string_of_bytes (topic msg) in
  TopicTree.is_valid_topic name false = true -> TopicTreeThm.ordinary name -> head (TopicTree.split_topic name) <> Some ""%string ->
  2 + zlen (topic msg) + 2 + 5 + zlen (client_packet cli msg) < 268435456 ->
  is_v5 (MqttServer.version s2) = false -> MqttClient.protocol_version c = MqttServer.version s2 ->
  MqttClient.connected c = true -> writable c -> 0 <= q < 3 ->
  exists srv1 c1 m request srv2 s2' reply c',
    MqttServer.onMessage onAuth srv id (client_packet cli msg) = Some srv1 /\
    MqttClient.mqtt_client_subscribe c (topic msg) q = Some (c1, m) /\
    MqttClient.accepted (MqttClient.io c1) = MqttClient.accepted (MqttClient.io c) ++ request /\
    MqttServer.onMessage onAuth srv1 id2 request = Some srv2 /\
    MqttServer.sessions srv2 !! id2 = Some s2' /\
    MqttServer.sent s2' = MqttServer.sent s2 ++ small_packet MQTT_TYPE_SUBACK (MqttServer.suback_data s2 m q) ++ reply /\
    MqttClient.on_packet c1 reply = Some c' /\
    topic (MqttClient.message c') = topic msg /\ payload (MqttClient.message c') = client_packet cli msg.
Proof.
  intros Hs Hs2 Hid Hn Hop Hv Hok Hr Hp Hb Hst name Hvt Ho Hh Hlen Hv2 Hc Hco Hw Hq.
  destruct (server_retains onAuth srv id s cli msg Hs Hn Hv Hok Hr Hp) as (srv1&E1&T1&S1).
  set (packet := client_packet cli msg) in *. set (m := u16 (MqttClient.s_mid c + 1)). pose proof (u16_range (MqttClient.s_mid c + 1)) as Hmr. fold m in Hmr.
  assert (Htl : zlen (topic msg) < 65536) by apply Hok. set (kept := TopicTree.mk_retained packet (msg_qos msg) false).
  assert (Hn0 : name <> ""%string) by (intros E; by rewrite E in Hvt).
  set (reply := MqttServer.retained_message name kept q).
  assert (Hm : msg_ok reply).
  { assert (Ht : topic reply = topic msg) by (by apply bytes_string). pose proof (snd_qos _ _ Hok) as Hqq.
    split; rewrite ?Ht; try done; cbn [reply MqttServer.retained_message topic_len payload_len payload msg_qos msg_retain prop TopicTree.payload TopicTree.ret_qos].
    - by rewrite <- Ht.
    - unfold kept. cbn [TopicTree.ret_qos]. lia.
    - change (zlen []) with 0. unfold kept. cbn [TopicTree.payload]. lia. }
  set (suback := small_packet MQTT_TYPE_SUBACK (MqttServer.suback_data s2 m q)). set (sa := MqttServer.write s2 suback).
  set (c1 := took (c.[MqttClient.s_mid := m]) (subscribe_packet (is_v5 (MqttClient.protocol_version c)) m (topic msg) q)).
  assert (Hva : MqttServer.version sa = MqttServer.version s2) by (unfold sa, MqttServer.write; by rewrite Hop).
  destruct (client_receives c1 sa reply ltac:(done) ltac:(by rewrite Hva) Hm) as (c'&Hp'&Hm'&_).
  exists srv1, c1, m, (subscribe_packet (is_v5 (MqttClient.protocol_version c)) m (topic msg) q). do 2 eexists. exists (session_packet sa reply), c'.
  split; [done|]. split; [by apply client_subscribe_ok|]. split; [done|].
  assert (Hs1 : MqttServer.sessions srv1 !! id2 = Some s2) by (by rewrite S1). rewrite Hc.
  rewrite (server_subscribes onAuth srv1 id2 s2 m (topic msg) q Hs1 Hmr Htl Hq). cbv zeta. fold suback. fold sa. fold name. rewrite T1. fold name. fold packet.
  rewrite TopicTreeThm.retained_subscribed; [|done|done|by rewrite TopicTreeThm.render_split|].
  2: { unfold packet, client_packet, publish_packet, head_bytes. done. }
  rewrite TopicTreeThm.render_split by done. fold kept. cbn [MqttServer.send_retained]. fold reply.
  erewrite (on_session_lookup _ id2 _ sa (told sa reply)); [|exact (lookup_insert_eq _ _ _)|apply publish_session_ok; [done|by rewrite Hva, Hv2]].
  cbn [mbind option_bind MqttServer.send_retained]. split; [reflexivity|]. split; [exact (lookup_insert_eq _ _ _)|].
  split; [unfold told, sa, MqttServer.write; rewrite Hop; cbn; rewrite Hop; cbn; by rewrite <- app_assoc|].
  split; [done|]. rewrite Hm'. split; [by apply bytes_string|done].
Qed.

(** * Witnesses *)

Definition sample_login : MqttClient.mqtt_client_t :=
  MqttClient.mqtt_client_new.[MqttClient.client_id := [99; 49]].[MqttClient.username := [117]]
    .[MqttClient.will := Some (mk_message 0 [103] 0 [98; 121; 101] 1 0 [])].

Lemma sample_loginable : loginable sample_login.
Proof. split; try (cbn; lia || done). intros w [= <-]. cbn. by split_and!; try lia. Qed.

Lemma connect_handshake_witness : exists cli' srv' c',
  MqttClient.mqtt_client_login sample_login [] = Some (cli', 0) /\
  MqttClient.accepted (MqttClient.io cli') = connect_packet sample_login /\
  MqttServer.onMessage (fun _ => 0) (MqttServer.connect MqttServer.new_server 1) 1 (connect_packet sample_login) = Some srv' /\
  MqttClient.on_packet cli' (small_packet MQTT_TYPE_CONNACK (connack_data 4 0)) = Some c' /\ MqttClient.connected c' = true.
Proof.
  destruct (connect_handshake (fun _ => 0) (MqttServer.connect MqttServer.new_server 1) 1 MqttServer.new_session sample_login [] ltac:(reflexivity) sample_loginable)
    as (cli'&srv'&c'&H1&H2&H3&_&H5&H6&_).
  exists cli', srv', c'. split; [exact H1|]. split; [exact H2|]. split; [exact H3|]. split; [exact H5|exact H6].
Defined.

Lemma suback_v5_qos2_closes_witness : exists packet c',
  MqttServer.send (MqttServer.new_session.[MqttServer.version := 5]) MQTT_TYPE_SUBACK
    (MqttServer.suback_data (MqttServer.new_session.[MqttServer.version := 5]) 1 2) = Some (MqttServer.write (MqttServer.new_session.[MqttServer.version := 5]) packet) /\
  MqttClient.on_packet (sample_login.[MqttClient.protocol_version := 5]) packet = Some c' /\ MqttClient.closed (MqttClient.io c') = true.
Proof. apply (suback_v5_qos2_closes (MqttServer.new_session.[MqttServer.version := 5]) (sample_login.[MqttClient.protocol_version := 5]) 1); [done|done|lia]. Defined.

(** Client 1 publishes, client 2 subscribes. *)
Lemma retained_payload_is_packet_witness : exists srv1 srv2 s2' reply c',
  let srv := MqttServer.connect (MqttServer.connect MqttServer.new_server 1) 2 in
  MqttServer.onMessage (fun _ => 0) srv 1 (client_packet sample_publisher sample_retained) = Some srv1 /\
  MqttServer.onMessage (fun _ => 0) srv1 2 [0x82; 8; 0; 1; 0; 3; 97; 47; 98; 1] = Some srv2 /\
  MqttServer.sessions srv2 !! 2 = Some s2' /\ MqttServer.sent s2' = [0x90; 3; 0; 1; 1] ++ reply /\
  MqttClient.on_packet (took (sample_publisher.[MqttClient.s_mid := 1]) [0x82; 8; 0; 1; 0; 3; 97; 47; 98; 1]) reply = Some c' /\
  payload (MqttClient.message c') = client_packet sample_publisher sample_retained /\ payload sample_retained = [7; 8].
Proof.
  destruct (retained_payload_is_packet (fun _ => 0) (MqttServer.connect (MqttServer.connect MqttServer.new_server 1) 2) 1 MqttServer.new_session
    2 MqttServer.new_session sample_publisher sample_retained sample_publisher 1) as (srv1&c1&m&request&srv2&s2'&reply&c'&H1&H2&H3&H4&H5&H6&H7&_&H9).
  - reflexivity.
  - reflexivity.
  - done.
  - reflexivity.
  - reflexivity.
  - reflexivity.
  - apply sample_retained_sendable.
  - reflexivity.
  - done.
  - repeat constructor; lia.
  - reflexivity.
  - vm_compute. reflexivity.
  - unfold TopicTreeThm.ordinary. vm_compute. intros [=].
  - vm_compute. intros [=].
  - vm_compute. reflexivity.
  - reflexivity.
  - reflexivity.
  - reflexivity.
  - done.
  - lia.
  - vm_compute in H2. injection H2 as <- <-. cbn in H3. subst request. exists srv1, srv2, s2', reply, c'.
    split; [exact H1|]. split; [exact H4|]. split; [exact H5|]. split; [exact H6|]. split; [exact H7|]. split; [exact H9|reflexivity].
Defined.

End MqttConnThm.
