(* ===== verification/Dns.v ===== *)
(** Names, records, messages and lookups of protocol/dns.h and protocol/dns.c. A
    [char*] to record data is a block of memory and an offset; a block that has gone
    out of scope is no longer in the memory. *)
From S2P Require Import Prelude.

Module Dns.

Definition DNS_QUERY : Z := 0.
Definition DNS_RESPONSE : Z := 1.
Definition DNS_TYPE_A : Z := 1.
Definition DNS_CLASS_IN : Z := 1.
Definition ERR_SOCKET : Z := -1011.
Definition ERR_RECVFROM : Z := -1018.
Definition ERR_SENDTO : Z := -1019.
Definition ERR_INVALID_PACKAGE : Z := 1019.
Definition ERR_MISMATCH : Z := 1023.

Definition memory : Type := gmap Z (list Z).
Definition pointer : Type := Z * Z.
Definition load (m : memory) (p : pointer) (n : Z) : option (list Z) :=
  block ← m !! p.1; zslice block p.2 n.

(** The bit-fields [rd .. ra] keep one bit each, [opcode] and [rcode] four. *)
Record dnshdr_t := mk_hdr {
  transaction_id : Z; rd : Z; tc : Z; aa : Z; opcode : Z; qr : Z; rcode : Z; cd : Z; ad : Z; res : Z; ra : Z;
  nquestion : Z; nanswer : Z; nauthority : Z; naddtional : Z }.
#[global] Instance hdr_rebuild : Rebuild dnshdr_t := fun h =>
  mk_hdr (transaction_id h) (rd h) (tc h) (aa h) (opcode h) (qr h) (rcode h) (cd h) (ad h) (res h) (ra h)
         (nquestion h) (nanswer h) (nauthority h) (naddtional h).

Record dns_rr_t := mk_rr {
  name : list Z; rtype : Z; rclass : Z; ttl : Z; datalen : Z; data : option pointer }.
#[global] Instance rr_rebuild : Rebuild dns_rr_t := fun r =>
  mk_rr (name r) (rtype r) (rclass r) (ttl r) (datalen r) (data r).

(** A null array is the empty list. *)
Record dns_t := mk_dns {
  hdr : dnshdr_t; questions : list dns_rr_t; answers : list dns_rr_t;
  authorities : list dns_rr_t; addtionals : list dns_rr_t }.
#[global] Instance dns_rebuild : Rebuild dns_t := fun d =>
  mk_dns (hdr d) (questions d) (answers d) (authorities d) (addtionals d).

Definition zero_hdr : dnshdr_t := mk_hdr 0 0 0 0 0 0 0 0 0 0 0 0 0 0 0.
Definition zero_rr : dns_rr_t := mk_rr (replicate 256 0) 0 0 0 0 None.
Definition zero_dns : dns_t := mk_dns zero_hdr [] [] [] [].

Definition dns_free (d : dns_t) : dns_t := mk_dns (hdr d) [] [] [] [].

(** * Names *)

Definition dot : Z := 46.

(** [p] is the rest of the memory of the domain; [b] and [plen] are offsets in [buf]. *)
Fixpoint name_encode_loop (p buf : list Z) (b plen buflen len : Z) : option (list Z * Z) :=
  match p with
  | [] => None
  | c :: p' =>
      if c =? 0 then
        buf ← zset buf plen (u8 len);
        buf ← zset buf b 0;
        Some (buf, if negb (len =? 0) then buflen + 1 else buflen)
      else if negb (c =? dot) then
        buf ← zset buf b c;
        name_encode_loop p' buf (b + 1) plen (buflen + 1) (len + 1)
      else
        buf ← zset buf plen (u8 len);
        name_encode_loop p' buf (b + 1) b (buflen + 1) 0
  end.
Definition dns_name_encode (domain buf : list Z) : option (list Z * Z) :=
  name_encode_loop domain buf 1 0 1 0.

(** [p] is the rest of the memory of the encoded name, [d] an offset in [domain]; a
    [char] is signed. *)
Fixpoint name_decode_loop (p domain : list Z) (d buflen len : Z) : option (list Z * Z) :=
  match p with
  | [] => None
  | c :: p' =>
      if c =? 0 then
        domain ← zset domain d 0;
        Some (domain, buflen + 1)
      else if len =? 0 then
        domain ← zset domain d dot;
        name_decode_loop p' domain (d + 1) (buflen + 1) (i8 c)
      else
        domain ← zset domain d c;
        name_decode_loop p' domain (d + 1) (buflen + 1) (len - 1)
  end.
Definition dns_name_decode (buf domain : list Z) : option (list Z * Z) :=
  match buf with
  | [] => None
  | c :: p => name_decode_loop p domain 0 1 (i8 c)
  end.

(** * Records *)

(** The bytes that a store of [htons(v)], [htonl(v)] leaves in memory. *)
Definition htons (v : Z) : list Z := [u8 (Z.shiftr v 8); u8 v].
Definition htonl (v : Z) : list Z := [u8 (Z.shiftr v 24); u8 (Z.shiftr v 16); u8 (Z.shiftr v 8); u8 v].
Definition ntohs (buf : list Z) (p : Z) : option Z :=
  a ← zget buf p; b ← zget buf (p + 1); Some (a * 256 + b).
Definition ntohl (buf : list Z) (p : Z) : option Z :=
  hi ← ntohs buf p; lo ← ntohs buf (p + 2); Some (hi * 65536 + lo).

Section Stack.

(** What [encoded_name] holds when [dns_rr_pack] starts. *)
Context (encoded_name : list Z).

(** [dns_rr_pack(rr, buf + off, len)]: [buf] after it, and what it returns. *)
Definition dns_rr_pack (m : memory) (rr : dns_rr_t) (buf : list Z) (off len : Z) : option (list Z * Z) :=
  '(encoded_name, encoded_namelen) ← dns_name_encode (name rr) encoded_name;
  let packetlen := encoded_namelen + 2 + 2 + (if data rr then 4 + 2 + datalen rr else 0) in
  if len <? packetlen then Some (buf, -1) else
  bytes ← zslice encoded_name 0 encoded_namelen;
  buf ← zcopy buf off bytes;
  let p := off + encoded_namelen in
  buf ← zcopy buf p (htons (rtype rr));
  buf ← zcopy buf (p + 2) (htons (rclass rr));
  match data rr with
  | Some ptr =>
      if negb (datalen rr =? 0) then
        buf ← zcopy buf (p + 4) (htonl (ttl rr));
        buf ← zcopy buf (p + 8) (htons (datalen rr));
        bytes ← load m ptr (datalen rr);
        buf ← zcopy buf (p + 10) bytes;
        Some (buf, packetlen)
      else Some (buf, packetlen)
  | None => Some (buf, packetlen)
  end.

(** One of the loops of [dns_pack] over the records [rrs + i ..], [n] to go: the
    offset reached, or -1. *)
Fixpoint pack_rrs (m : memory) (n : nat) (rrs : list dns_rr_t) (i : Z) (buf : list Z) (off len : Z)
  : option (list Z * Z) :=
  match n with
  | O => Some (buf, off)
  | S n' =>
      rr ← zget rrs i;
      '(buf, packetlen) ← dns_rr_pack m rr buf off (len - off);
      if packetlen <? 0 then Some (buf, -1) else pack_rrs m n' rrs (i + 1) buf (off + packetlen) len
  end.

Definition hdr_bytes (h : dnshdr_t) : list Z :=
  htons (transaction_id h) ++
  [qr h * 128 + opcode h * 8 + aa h * 4 + tc h * 2 + rd h;
   ra h * 128 + res h * 64 + ad h * 32 + cd h * 16 + rcode h] ++
  htons (nquestion h) ++ htons (nanswer h) ++ htons (nauthority h) ++ htons (naddtional h).

(** [if (packetlen < 0) return -1] of the four loops. *)
Definition and_then (r : option (list Z * Z)) (k : list Z -> Z -> option (list Z * Z)) : option (list Z * Z) :=
  '(buf, off) ← r; if off <? 0 then Some (buf, -1) else k buf off.

(** [sizeof(dnshdr_t)] is a [size_t], so the comparison converts the [int len] to one
    and a negative [len] passes it. *)
Definition dns_pack (m : memory) (d : dns_t) (buf : list Z) (len : Z) : option (list Z * Z) :=
  if u64 len <? 12 then Some (buf, -1) else
  let h := hdr d in
  buf ← zcopy buf 0 (hdr_bytes h);
  and_then (pack_rrs m (Z.to_nat (nquestion h)) (questions d) 0 buf 12 len) (fun buf off =>
  and_then (pack_rrs m (Z.to_nat (nanswer h)) (answers d) 0 buf off len) (fun buf off =>
  and_then (pack_rrs m (Z.to_nat (nauthority h)) (authorities d) 0 buf off len) (fun buf off =>
  pack_rrs m (Z.to_nat (naddtional h)) (addtionals d) 0 buf off len))).

End Stack.

(** [dns_rr_unpack(buf + off, len, rr, is_question)], [blk] the block of [buf]: the
    record after it, and what it returns. *)
Definition dns_rr_unpack (blk : Z) (buf : list Z) (off len : Z) (rr : dns_rr_t) (is_question : bool)
  : option (dns_rr_t * Z) :=
  c ← zget buf off;
  '(rr, namelen) ←
    (if 192 <=? c then Some (rr, 2)
     else '(domain, namelen) ← dns_name_decode (drop (Z.to_nat off) buf) (name rr);
          Some (rr.[name := domain], namelen));
  if namelen <? 0 then Some (rr, -1) else
  let p := off + namelen in
  let o := namelen in
  if len <? o + 4 then Some (rr, -1) else
  t ← ntohs buf p;
  let rr := rr.[rtype := t] in
  k ← ntohs buf (p + 2);
  let rr := rr.[rclass := k] in
  let o := o + 4 in
  if is_question then Some (rr, o) else
  if len <? o + 6 then Some (rr, -1) else
  l ← ntohl buf (p + 4);
  let rr := rr.[ttl := l] in
  n ← ntohs buf (p + 8);
  let rr := rr.[datalen := n] in
  let o := o + 6 in
  if len <? o + datalen rr then Some (rr, -1) else
  Some (rr.[data := Some (blk, p + 10)], o + datalen rr).

(** One of the loops of [dns_unpack]: the [n] records of the zeroed array, and the
    offset reached or -1. *)
Fixpoint unpack_rrs (blk : Z) (n : nat) (buf : list Z) (off len : Z) (is_question : bool)
  : option (list dns_rr_t * Z) :=
  match n with
  | O => Some ([], off)
  | S n' =>
      '(rr, packetlen) ← dns_rr_unpack blk buf off (len - off) zero_rr is_question;
      if packetlen <? 0 then Some (rr :: replicate n' zero_rr, -1) else
      '(rrs, off) ← unpack_rrs blk n' buf (off + packetlen) len is_question;
      Some (rr :: rrs, off)
  end.

Definition bit (b k : Z) : Z := Z.land (Z.shiftr b k) 1.

Definition hdr_of_bytes (buf : list Z) : option dnshdr_t :=
  id ← ntohs buf 0; f ← zget buf 2; g ← zget buf 3;
  q ← ntohs buf 4; an ← ntohs buf 6; au ← ntohs buf 8; ar ← ntohs buf 10;
  Some (mk_hdr id (bit f 0) (bit f 1) (bit f 2) (Z.land (Z.shiftr f 3) 15) (bit f 7)
               (Z.land g 15) (bit g 4) (bit g 5) (bit g 6) (bit g 7) q an au ar).

(** [dns_unpack(buf, len, dns)]: the message, and what it returns; [len] is compared as
    a [size_t] here too. *)
Definition dns_unpack (blk : Z) (buf : list Z) (len : Z) : option (dns_t * Z) :=
  let d := zero_dns in
  if u64 len <? 12 then Some (d, -1) else
  h ← hdr_of_bytes buf;
  let d := d.[hdr := h] in
  '(rrs, off) ← unpack_rrs blk (Z.to_nat (nquestion h)) buf 12 len true;
  let d := d.[questions := rrs] in
  if off <? 0 then Some (d, -1) else
  '(rrs, off) ← unpack_rrs blk (Z.to_nat (nanswer h)) buf off len false;
  let d := d.[answers := rrs] in
  if off <? 0 then Some (d, -1) else
  '(rrs, off) ← unpack_rrs blk (Z.to_nat (nauthority h)) buf off len false;
  let d := d.[authorities := rrs] in
  if off <? 0 then Some (d, -1) else
  '(rrs, off) ← unpack_rrs blk (Z.to_nat (naddtional h)) buf off len false;
  Some (d.[addtionals := rrs], off).

(** * Queries *)

(** What the system calls answer: whether there is a socket, how much [sendto] takes
    and the datagram [recvfrom] gives. *)
Record net := mk_net { sock : bool; sendto : list Z -> Z; recvfrom : option (list Z) }.

(** The block of [dns_query]'s [buf], alive until it returns. *)
Definition QUERY_BUF : Z := 0.

Section Query.
Context (encoded_name stack_buf : list Z) (n : net).

(** What [dns_query] returns, the response and the memory it leaves. *)
Definition dns_query (m : memory) (query : dns_t) (response : dns_t) : option (Z * dns_t * memory) :=
  let dead := delete QUERY_BUF m in
  '(buf, buflen) ← dns_pack encoded_name m query stack_buf 1024;
  if buflen <? 0 then Some (buflen, response, dead) else
  if negb (sock n) then Some (ERR_SOCKET, response, dead) else
  packet ← zslice buf 0 buflen;
  if negb (sendto n packet =? buflen) then Some (ERR_SENDTO, response, dead) else
  let got := take 1024 (default [] (recvfrom n)) in
  let nrecv := zlen got in
  if nrecv <=? 0 then Some (ERR_RECVFROM, response, dead) else
  buf ← zcopy buf 0 got;
  '(response, nparse) ← dns_unpack QUERY_BUF buf nrecv;
  Some (if negb (nparse =? nrecv) then - ERR_INVALID_PACKAGE else 0, response, dead).

(** [strncpy(name, domain, 256)] into a zeroed name, [i] bytes done. *)
Fixpoint strncpy (k : nat) (domain : list Z) : option (list Z) :=
  match k, domain with
  | O, _ => Some []
  | S _, [] => None
  | S k', c :: domain' =>
      if c =? 0 then Some (replicate k 0) else rest ← strncpy k' domain'; Some (c :: rest)
  end.

(** The loop over the answers: the addresses stored and the count. *)
Fixpoint answer_loop (m : memory) (rrs : list dns_rr_t) (k : nat) (addrs : list Z) (addr_cnt naddr : Z)
  : option (list Z * Z) :=
  match k, rrs with
  | O, _ => Some (addrs, addr_cnt)
  | S _, [] => None
  | S k', rr :: rrs' =>
      if rtype rr =? DNS_TYPE_A then
        addrs ←
          (if (addr_cnt <? naddr) && (datalen rr =? 4)
           then ptr ← data rr; bytes ← load m ptr 4; zcopy addrs (4 * addr_cnt) bytes
           else Some addrs);
        answer_loop m rrs' k' addrs (addr_cnt + 1) naddr
      else answer_loop m rrs' k' addrs addr_cnt naddr
  end.

(** The query [nslookup] sends. *)
Definition lookup_query (pid : Z) (question : list Z) : dns_t :=
  let h := zero_hdr.[transaction_id := u16 pid].[qr := DNS_QUERY].[rd := 1].[nquestion := 1] in
  zero_dns.[hdr := h].[questions := [mk_rr question DNS_TYPE_A DNS_CLASS_IN 0 0 None]].

Definition nslookup (m : memory) (pid : Z) (domain addrs : list Z) (naddr : Z) : option (Z * list Z) :=
  question ← strncpy 256 domain;
  let query := lookup_query pid question in
  '(ret, resp, m) ← dns_query m query zero_dns;
  if negb (ret =? 0) then Some (ret, addrs) else
  let h := hdr resp in
  if negb (transaction_id h =? transaction_id (hdr query)) || negb (qr h =? DNS_RESPONSE) || negb (rcode h =? 0)
  then Some (- ERR_MISMATCH, addrs) else
  if nanswer h =? 0 then Some (0, addrs) else
  '(addrs, addr_cnt) ← answer_loop m (answers resp) (Z.to_nat (nanswer h)) addrs 0 naddr;
  Some (addr_cnt, addrs).

End Query.
End Dns.
