(* ===== verification/DnsThm.v ===== *)
(** What the DNS code promises: a message packed is unpacked as it was, names that do
    not fit overrun their buffers, and lookups read a dead buffer. *)
From S2P Require Import Prelude Dns.

Module DnsThm.
Import Dns.

(** * Names *)

(** A label: one to 127 bytes, none of them a dot or a zero. *)
Definition label_ok (l : list Z) : Prop :=
  1 <= zlen l <= 127 /\ Forall (fun c => 0 < c < 256 /\ c <> dot) l.
#[global] Instance label_ok_dec l : Decision (label_ok l) := _.

(** The labels after the first one, as text and as encoded. *)
Definition dotted (ls : list (list Z)) : list Z := mjoin (map (cons dot) ls).
Definition counted (ls : list (list Z)) : list Z := mjoin (map (fun l => zlen l :: l) ls).

#[global] Arguments dotted : simpl never.
#[global] Arguments counted : simpl never.

Lemma dotted_cons l ls : dotted (l :: ls) = dot :: l ++ dotted ls.
Proof. done. Qed.
Lemma counted_cons l ls : counted (l :: ls) = zlen l :: l ++ counted ls.
Proof. done. Qed.
Lemma zlen_counted ls : zlen (counted ls) = zlen (dotted ls).
Proof.
  induction ls as [|l ls IH]; [done|]. rewrite counted_cons, dotted_cons.
  zlen_simpl. lia.
Qed.

(** Room of known length can be cut. *)
Lemma room_cons {A} (r : list A) n : zlen r = 1 + n -> 0 <= n -> exists x r', r = x :: r' /\ zlen r' = n.
Proof. destruct r as [|x r]; zlen_simpl; intros; [lia|]. exists x, r. split; [done|lia]. Qed.

Lemma encode_chars l p pre x part room rest buflen :
  Forall (fun c => 0 < c < 256 /\ c <> dot) l -> zlen room = zlen l ->
  name_encode_loop (l ++ p) (pre ++ x :: part ++ room ++ rest) (zlen pre + 1 + zlen part) (zlen pre) buflen (zlen part)
  = name_encode_loop p (pre ++ x :: (part ++ l) ++ rest) (zlen pre + 1 + zlen (part ++ l)) (zlen pre)
      (buflen + zlen l) (zlen (part ++ l)).
Proof.
  intros Hl. revert part room buflen. induction Hl as [|c l [Hc Hd] Hl IH]; intros part room buflen Hr.
  - destruct room; [|zlen_simpl; pose proof (zlen_nonneg room); lia].
    rewrite app_nil_r. simpl app. by replace (buflen + zlen []) with buflen by (zlen_simpl; lia).
  - destruct (room_cons room (zlen l)) as (y & room' & -> & Hr'); [zlen_simpl; lia|apply zlen_nonneg|].
    simpl app. unfold name_encode_loop at 1; fold name_encode_loop. destruct (Z.eqb_spec c 0); [lia|].
    destruct (Z.eqb_spec c dot); [done|]. simpl negb. cbv iota.
    rewrite (app_comm_cons part), app_assoc, zset_middle by (zlen_simpl; lia). simpl.
    specialize (IH (part ++ [c]) room' (buflen + 1) Hr').
    rewrite <- !app_assoc in *. simpl in *.
    replace (zlen pre + 1 + zlen part + 1) with (zlen pre + 1 + zlen (part ++ [c])) by (zlen_simpl; lia).
    replace (zlen part + 1) with (zlen (part ++ [c])) by (zlen_simpl; lia). rewrite IH.
    f_equal; zlen_simpl; lia.
Qed.

Lemma encode_labels ls : Forall label_ok ls -> forall l tail pre x room rest buflen, label_ok l ->
  zlen room = zlen l + zlen (dotted ls) + 1 ->
  name_encode_loop (l ++ dotted ls ++ 0 :: tail) (pre ++ x :: room ++ rest) (zlen pre + 1) (zlen pre) buflen 0
  = Some (pre ++ counted (l :: ls) ++ 0 :: rest, buflen + zlen l + zlen (dotted ls) + 1).
Proof.
  induction 1 as [|l' ls Hl' _ IH]; intros l tail pre x room rest buflen [Hlen Hl] Hr.
  - assert (exists r1 y, room = r1 ++ [y] /\ zlen r1 = zlen l) as (r1 & y & -> & H1).
    { destruct room as [|y room _] using rev_ind; zlen_simpl; [lia|]. exists room, y. split; [done|].
      change (zlen (dotted [])) with 0 in *. lia. }
    pose proof (encode_chars l (0 :: tail) pre x [] r1 (y :: rest) buflen Hl H1) as E. simpl app in E.
    replace (zlen pre + 1 + zlen []) with (zlen pre + 1) in E by (zlen_simpl; lia).
    change (zlen (@nil Z)) with 0 in E. simpl app. rewrite <- app_assoc. simpl app. rewrite E. simpl.
    rewrite zset_middle by done. simpl. rewrite (app_comm_cons l), app_assoc, zset_middle by (zlen_simpl; lia).
    simpl. destruct (Z.eqb_spec (zlen l) 0); [lia|]. simpl. rewrite u8_small by lia.
    change (zlen (dotted [])) with 0.
    rewrite app_nil_r, <- app_assoc. f_equal. f_equal. lia.
  - rewrite dotted_cons in *.
    assert (exists r1 r2, room = r1 ++ r2 /\ zlen r1 = zlen l /\ zlen r2 = 1 + (zlen l' + zlen (dotted ls) + 1))
      as (r1 & r2 & -> & H1 & H2).
    { exists (take (Z.to_nat (zlen l)) room), (drop (Z.to_nat (zlen l)) room). rewrite take_drop. split; [done|].
      zlen_simpl. unfold zlen in *. rewrite length_take, length_drop. lia. }
    destruct (room_cons r2 _ H2) as (y & r3 & -> & H3); [pose proof (zlen_nonneg l'); pose proof (zlen_nonneg (dotted ls)); lia|].
    pose proof (encode_chars l (dot :: l' ++ dotted ls ++ 0 :: tail) pre x [] r1 (y :: r3 ++ rest) buflen Hl H1) as E.
    simpl app in E. replace (zlen pre + 1 + zlen []) with (zlen pre + 1) in E by (zlen_simpl; lia).
    change (zlen (@nil Z)) with 0 in E. rewrite <- !app_assoc. simpl app. rewrite <- !app_assoc. rewrite E. simpl.
    rewrite zset_middle by done. simpl. rewrite u8_small by lia.
    specialize (IH l' tail (pre ++ zlen l :: l) y r3 rest (buflen + zlen l + 1) Hl' H3).
    rewrite <- app_assoc in IH. simpl in IH.
    replace (zlen (pre ++ zlen l :: l)) with (zlen pre + 1 + zlen l) in IH by (zlen_simpl; lia). rewrite IH.
    rewrite ?counted_cons, <- !app_assoc. simpl. f_equal. f_equal; zlen_simpl; lia.
Qed.

Lemma decode_chars l p pre room rest buflen :
  Forall (fun c => 0 < c < 256 /\ c <> dot) l -> zlen room = zlen l ->
  name_decode_loop (l ++ p) (pre ++ room ++ rest) (zlen pre) buflen (zlen l)
  = name_decode_loop p ((pre ++ l) ++ rest) (zlen (pre ++ l)) (buflen + zlen l) 0.
Proof.
  intros Hl. revert pre room buflen. induction Hl as [|c l [Hc _] Hl IH]; intros pre room buflen Hr.
  - destruct room; [|zlen_simpl; pose proof (zlen_nonneg room); lia].
    rewrite app_nil_r. simpl app. by replace (buflen + zlen []) with buflen by (zlen_simpl; lia).
  - destruct (room_cons room (zlen l)) as (y & room' & -> & Hr'); [zlen_simpl; lia|apply zlen_nonneg|].
    simpl app. unfold name_decode_loop at 1; fold name_decode_loop. destruct (Z.eqb_spec c 0); [lia|].
    rewrite zlen_cons. pose proof (zlen_nonneg l). destruct (Z.eqb_spec (1 + zlen l) 0); [lia|].
    rewrite zset_middle by done. simpl.
    specialize (IH (pre ++ [c]) room' (buflen + 1) Hr'). rewrite <- !app_assoc in *. simpl in *.
    replace (zlen pre + 1) with (zlen (pre ++ [c])) by (zlen_simpl; lia).
    replace (1 + zlen l - 1) with (zlen l) by lia. rewrite IH. f_equal; zlen_simpl; lia.
Qed.

Lemma i8_small z : 0 <= z <= 127 -> i8 z = z.
Proof. intros. unfold i8. cbv zeta. rewrite u8_small by lia. zcases. Qed.

Lemma decode_labels ls : Forall label_ok ls -> forall l tail pre room rest buflen, label_ok l ->
  zlen room = zlen l + zlen (dotted ls) + 1 ->
  name_decode_loop (l ++ counted ls ++ 0 :: tail) (pre ++ room ++ rest) (zlen pre) buflen (zlen l)
  = Some (pre ++ l ++ dotted ls ++ 0 :: rest, buflen + zlen l + zlen (dotted ls) + 1).
Proof.
  induction 1 as [|l' ls Hl' _ IH]; intros l tail pre room rest buflen [Hlen Hl] Hr.
  - change (zlen (dotted [])) with 0 in *.
    assert (exists r1 y, room = r1 ++ [y] /\ zlen r1 = zlen l) as (r1 & y & -> & H1).
    { destruct room as [|y room _] using rev_ind; zlen_simpl; [lia|]. exists room, y. split; [done|lia]. }
    rewrite <- app_assoc, decode_chars by done. simpl. rewrite zset_middle by done. simpl.
    rewrite <- app_assoc. f_equal. f_equal. lia.
  - rewrite dotted_cons, counted_cons in *. zlen_simpl. pose proof (zlen_nonneg l'). pose proof (zlen_nonneg (dotted ls)).
    assert (exists r1 r2, room = r1 ++ r2 /\ zlen r1 = zlen l /\ zlen r2 = 1 + (zlen l' + zlen (dotted ls) + 1))
      as (r1 & r2 & -> & H1 & H2).
    { exists (take (Z.to_nat (zlen l)) room), (drop (Z.to_nat (zlen l)) room). rewrite take_drop. split; [done|].
      unfold zlen in *. rewrite length_take, length_drop. lia. }
    destruct (room_cons r2 _ H2) as (y & r3 & -> & H3); [lia|].
    rewrite <- app_assoc, decode_chars by done. destruct Hl' as [Hlen' Hc'] eqn:EE. clear EE.
    simpl. destruct (Z.eqb_spec (zlen l') 0); [lia|]. rewrite zset_middle by done. simpl.
    rewrite i8_small by lia. specialize (IH l' tail ((pre ++ l) ++ [dot]) r3 rest (buflen + zlen l + 1) (conj Hlen' Hc') H3).
    replace (zlen (pre ++ l) + 1) with (zlen ((pre ++ l) ++ [dot])) by (zlen_simpl; lia).
    rewrite <- !app_assoc in *. simpl in *. rewrite <- ?app_assoc. rewrite IH. f_equal. f_equal. lia.
Qed.

(** A name of labels: the text, and its encoding. *)
Definition name_text (l : list Z) (ls : list (list Z)) : list Z := l ++ dotted ls.
Definition name_code (l : list Z) (ls : list (list Z)) : list Z := zlen l :: l ++ counted ls ++ [0].

Lemma dns_name_encode_spec l ls tail buf :
  label_ok l -> Forall label_ok ls -> zlen (name_text l ls) + 2 <= zlen buf ->
  exists rest, dns_name_encode (name_text l ls ++ 0 :: tail) buf
  = Some (name_code l ls ++ rest, zlen (name_code l ls)) /\ zlen (name_code l ls) + zlen rest = zlen buf.
Proof.
  intros Hl Hls Hb. set (n := zlen l + zlen (dotted ls) + 1).
  assert (zlen (name_text l ls) = zlen l + zlen (dotted ls)) as Et by (unfold name_text; zlen_simpl; lia).
  assert (zlen (name_code l ls) = n + 1) as Ec by (unfold name_code, n; zlen_simpl; rewrite zlen_counted; lia).
  pose proof (zlen_nonneg (name_text l ls)).
  destruct (room_cons buf (zlen buf - 1)) as (x & r & -> & Hr); [lia|lia|].
  exists (drop (Z.to_nat n) r). split.
  - unfold dns_name_encode, name_text. rewrite <- app_assoc.
    rewrite <- (take_drop (Z.to_nat n) r) at 1.
    pose proof (encode_labels ls Hls l tail [] x (take (Z.to_nat n) r) (drop (Z.to_nat n) r) 1 Hl) as E.
    change (zlen (@nil Z)) with 0 in E. simpl app in E. change (0 + 1) with 1 in E. rewrite E.
    + rewrite Ec. unfold name_code, n. simpl. rewrite <- !app_assoc. do 2 f_equal. lia.
    + unfold n. unfold zlen in *. rewrite length_take. lia.
  - zlen_simpl. unfold zlen in *. rewrite length_drop. lia.
Qed.

Lemma dns_name_decode_spec l ls tail domain :
  label_ok l -> Forall label_ok ls -> zlen (name_text l ls) + 1 <= zlen domain ->
  dns_name_decode (name_code l ls ++ tail) domain
  = Some (name_text l ls ++ 0 :: drop (Z.to_nat (zlen (name_text l ls) + 1)) domain, zlen (name_code l ls)).
Proof.
  intros Hl Hls Hb. set (n := zlen l + zlen (dotted ls) + 1).
  assert (zlen (name_text l ls) + 1 = n) as Et by (unfold name_text, n; zlen_simpl; lia).
  assert (zlen (name_code l ls) = n + 1) as Ec by (unfold name_code, n; zlen_simpl; rewrite zlen_counted; lia).
  unfold dns_name_decode, name_code at 1. simpl. rewrite <- !app_assoc. simpl. destruct Hl as [Hlen Hl].
  rewrite i8_small by lia. rewrite <- (take_drop (Z.to_nat n) domain) at 1.
  pose proof (decode_labels ls Hls l tail [] (take (Z.to_nat n) domain) (drop (Z.to_nat n) domain) 1 (conj Hlen Hl)) as E.
  change (zlen (@nil Z)) with 0 in E. simpl app in E. rewrite E.
  - rewrite Ec, Et. unfold name_text, n. rewrite <- app_assoc. do 2 f_equal. lia.
  - unfold n, zlen in *. rewrite length_take. lia.
Qed.

(** The code writes one byte more than the text and its terminator. *)
Lemma encode_overrun text tail : Forall (fun c => c <> 0) text -> forall buf b plen buflen len,
  0 <= plen < b -> zlen buf <= b + zlen text ->
  name_encode_loop (text ++ 0 :: tail) buf b plen buflen len = None.
Proof.
  assert (forall (l : list Z) i v, zlen l <= i -> zset l i v = None) as Hset by (intros; unfold zset; zcases; done).
  induction 1 as [|c text Hc _ IH]; intros buf b plen buflen len Hp Hb.
  - change (zlen (@nil Z)) with 0 in Hb. simpl. destruct (zset buf plen (u8 len)) as [buf'|] eqn:E; [|done]. simpl.
    apply zset_length in E. rewrite Hset by lia. done.
  - zlen_simpl. simpl. destruct (Z.eqb_spec c 0); [done|]. destruct (negb (c =? dot)).
    + destruct (zset buf b c) as [buf'|] eqn:E; [|done]. apply zset_length in E. simpl. apply IH; lia.
    + destruct (zset buf plen (u8 len)) as [buf'|] eqn:E; [|done]. apply zset_length in E. simpl. apply IH; lia.
Qed.

(** * Records *)

(** The text of a zero-terminated array. *)
Fixpoint cstr (l : list Z) : list Z :=
  match l with [] => [] | c :: l' => if c =? 0 then [] else c :: cstr l' end.

(** What a record says, its data read from memory. *)
Definition rr_view (m : memory) (rr : dns_rr_t) : list Z * Z * Z * Z * option (list Z) :=
  (cstr (name rr), rtype rr, rclass rr, ttl rr, ptr ← data rr; load m ptr (datalen rr)).

(** Names of labels, of at most 254 bytes. *)
Definition name_wf (nm : list Z) : Prop := exists l ls tail,
  label_ok l /\ Forall label_ok ls /\ nm = name_text l ls ++ 0 :: tail /\ zlen (name_text l ls) <= 254.

(** Questions carry no data; the other records carry some. *)
Definition rr_wf (m : memory) (is_question : bool) (rr : dns_rr_t) : Prop :=
  name_wf (name rr) /\ 0 <= rtype rr < 65536 /\ 0 <= rclass rr < 65536 /\
  if is_question then ttl rr = 0 /\ datalen rr = 0 /\ data rr = None
  else 0 <= ttl rr < 4294967296 /\ 0 < datalen rr < 65536 /\
       exists ptr bytes, data rr = Some ptr /\ load m ptr (datalen rr) = Some bytes.

Definition rr_size (rr : dns_rr_t) : Z :=
  zlen (cstr (name rr)) + 6 + (if data rr then 6 + datalen rr else 0).

Lemma cstr_app text tail : Forall (fun c => c <> 0) text -> cstr (text ++ 0 :: tail) = text.
Proof. induction 1 as [|c text Hc _ IH]; [done|]. simpl. destruct (Z.eqb_spec c 0); [done|]. by rewrite IH. Qed.

Lemma name_text_nonzero l ls : label_ok l -> Forall label_ok ls -> Forall (fun c => c <> 0) (name_text l ls).
Proof.
  assert (forall l, label_ok l -> Forall (fun c => c <> 0) l) as Hl.
  { intros k [_ Hk]. eapply Forall_impl; [exact Hk|]. simpl. lia. }
  intros H Hls. apply Forall_app. split; [by apply Hl|]. induction Hls as [|k ls Hk _ IH]; [constructor|].
  rewrite dotted_cons. constructor; [done|]. apply Forall_app. split; [by apply Hl|done].
Qed.

Lemma zlen_htons v : zlen (htons v) = 2.
Proof. done. Qed.
Lemma zlen_htonl v : zlen (htonl v) = 4.
Proof. done. Qed.

Lemma ntohs_at pre v post p : p = zlen pre -> 0 <= v < 65536 -> ntohs (pre ++ htons v ++ post) p = Some v.
Proof.
  intros -> Hv. unfold ntohs, htons. simpl app.
  rewrite (zget_middle _ _ _ (zlen pre)) by done. simpl.
  rewrite zget_app_r by lia. simpl. rewrite zget_Some by (zlen_simpl; pose proof (zlen_nonneg post); lia). simpl.
  f_equal. bits_to_arith. unfold u8. zdm.
Qed.

Lemma ntohl_at pre v post p : p = zlen pre -> 0 <= v < 4294967296 -> ntohl (pre ++ htonl v ++ post) p = Some v.
Proof.
  intros -> Hv. unfold ntohl.
  assert (htonl v = htons (v / 65536) ++ htons (v mod 65536)) as ->.
  { unfold htonl, htons. simpl. bits_to_arith. unfold u8.
    repeat apply (f_equal2 cons); [zdm..|done]. }
  rewrite <- app_assoc, (ntohs_at pre _ _ (zlen pre)) by (done || zdm). cbn [mbind option_bind].
  rewrite app_assoc, ntohs_at by (zlen_simpl; rewrite ?zlen_htons; done || zdm). simpl. f_equal. zdm.
Qed.

Lemma zcopy_room {A} (pre room src : list A) d : d = zlen pre -> zlen src <= zlen room ->
  zcopy (pre ++ room) d src = Some ((pre ++ src) ++ drop (length src) room).
Proof.
  intros -> H. rewrite <- (take_drop (length src) room) at 1. rewrite zcopy_at; [by rewrite <- app_assoc|done|].
  unfold zlen in *. rewrite length_take. lia.
Qed.

Lemma zlen_drop {A} (l : list A) n : Z.of_nat n <= zlen l -> zlen (drop n l) = zlen l - Z.of_nat n.
Proof. unfold zlen. rewrite length_drop. lia. Qed.

(** A record packed, with what follows its name: [code] is what packing writes and
    unpacking reads back. *)
Definition packs_as (m : memory) (is_question : bool) (rr : dns_rr_t) (code : list Z) : Prop :=
  zlen code = rr_size rr /\
  (forall en pre room len, zlen en = 256 -> zlen code <= len -> zlen code <= zlen room ->
     dns_rr_pack en m rr (pre ++ room) (zlen pre) len
     = Some ((pre ++ code) ++ drop (length code) room, zlen code)) /\
  (forall en buf off len, zlen en = 256 -> len < zlen code -> dns_rr_pack en m rr buf off len = Some (buf, -1)) /\
  (forall blk pre post len, zlen code <= len -> exists rr',
     dns_rr_unpack blk (pre ++ code ++ post) (zlen pre) len zero_rr is_question = Some (rr', zlen code) /\
     forall m', m' !! blk = Some (pre ++ code ++ post) -> rr_view m' rr' = rr_view m rr).

(** The common start of a record. *)
Definition head_code (l : list Z) (ls : list (list Z)) (t k : Z) : list Z := name_code l ls ++ htons t ++ htons k.

Lemma unpack_head blk l ls t k pre tail len rr0 q :
  label_ok l -> Forall label_ok ls -> zlen (name_text l ls) <= 254 -> 0 <= t < 65536 -> 0 <= k < 65536 ->
  zlen (head_code l ls t k) <= len -> rr0 = zero_rr ->
  let p := zlen pre + zlen (name_code l ls) in
  let o := zlen (head_code l ls t k) in
  let buf := pre ++ head_code l ls t k ++ tail in
  let rr := mk_rr (name_text l ls ++ 0 :: drop (Z.to_nat (zlen (name_text l ls) + 1)) (replicate 256 0)) t k 0 0 None in
  dns_rr_unpack blk buf (zlen pre) len rr0 q
  = if q then Some (rr, o) else
    if len <? o + 6 then Some (rr, -1) else
    v ← ntohl buf (p + 4);
    let rr := rr.[ttl := v] in
    n ← ntohs buf (p + 8);
    let rr := rr.[datalen := n] in
    let o := o + 6 in
    if len <? o + datalen rr then Some (rr, -1) else
    Some (rr.[data := Some (blk, p + 10)], o + datalen rr).
Proof.
  intros Hl Hls Ht Hrt Hrk Hlen ->. cbv zeta. set (buf := pre ++ head_code l ls t k ++ tail).
  assert (zlen (head_code l ls t k) = zlen (name_code l ls) + 4) as Eo
    by (unfold head_code; zlen_simpl; rewrite !zlen_htons; lia).
  unfold dns_rr_unpack at 1.
  assert (zget buf (zlen pre) = Some (zlen l)) as -> by (by apply zget_middle). cbn [mbind option_bind].
  destruct Hl as [Hll Hlc]. destruct (Z.leb_spec 192 (zlen l)); [lia|].
  assert (drop (Z.to_nat (zlen pre)) buf = name_code l ls ++ (htons t ++ htons k) ++ tail) as ->.
  { unfold zlen, buf, head_code. by rewrite Nat2Z.id, drop_app_length, <- app_assoc. }
  cbn [name zero_rr]. rewrite dns_name_decode_spec by (done || (change (zlen (replicate 256 0)) with 256; lia)).
  cbn [mbind option_bind]. pose proof (zlen_nonneg (name_code l ls)). destruct (Z.ltb_spec (zlen (name_code l ls)) 0); [lia|].
  destruct (Z.ltb_spec len (zlen (name_code l ls) + 4)); [lia|].
  assert (ntohs buf (zlen pre + zlen (name_code l ls)) = Some t) as ->.
  { unfold buf, head_code. rewrite <- !app_assoc, (app_assoc pre). apply ntohs_at; [zlen_simpl; lia|done]. }
  assert (ntohs buf (zlen pre + zlen (name_code l ls) + 2) = Some k) as ->.
  { unfold buf, head_code. rewrite <- !app_assoc, (app_assoc pre), (app_assoc (pre ++ _)).
    apply ntohs_at; [zlen_simpl; rewrite zlen_htons; lia|done]. }
  cbn [mbind option_bind]. rewrite Eo. reflexivity.
Qed.

(** What follows the head of a record with data. *)
Definition data_code (rr : dns_rr_t) (bytes : list Z) : list Z := htonl (ttl rr) ++ htons (datalen rr) ++ bytes.

(** Packing up to the size check. *)
Lemma dns_rr_pack_head en m rr l ls tail buf off len :
  label_ok l -> Forall label_ok ls -> name rr = name_text l ls ++ 0 :: tail -> zlen (name_text l ls) <= 254 ->
  zlen en = 256 ->
  dns_rr_pack en m rr buf off len
  = if len <? zlen (name_code l ls) + 4 + (if data rr then 6 + datalen rr else 0) then Some (buf, -1) else
    buf ← zcopy buf off (name_code l ls);
    let p := off + zlen (name_code l ls) in
    buf ← zcopy buf p (htons (rtype rr));
    buf ← zcopy buf (p + 2) (htons (rclass rr));
    match data rr with
    | Some ptr =>
        if negb (datalen rr =? 0) then
          buf ← zcopy buf (p + 4) (htonl (ttl rr));
          buf ← zcopy buf (p + 8) (htons (datalen rr));
          bytes ← load m ptr (datalen rr);
          buf ← zcopy buf (p + 10) bytes;
          Some (buf, zlen (name_code l ls) + 4 + (6 + datalen rr))
        else Some (buf, zlen (name_code l ls) + 4 + (6 + datalen rr))
    | None => Some (buf, zlen (name_code l ls) + 4)
    end.
Proof.
  intros Hl Hls Hn Ht Hen. unfold dns_rr_pack. rewrite Hn.
  destruct (dns_name_encode_spec l ls tail en Hl Hls) as (rest & -> & _); [lia|]. cbn [mbind option_bind].
  rewrite (zslice_app [] (name_code l ls) rest) by done. cbn [mbind option_bind].
  destruct (data rr) as [ptr|].
  - replace (zlen (name_code l ls) + 2 + 2 + (4 + 2 + datalen rr)) with (zlen (name_code l ls) + 4 + (6 + datalen rr)) by lia.
    reflexivity.
  - replace (zlen (name_code l ls) + 2 + 2 + 0) with (zlen (name_code l ls) + 4) by lia.
    replace (zlen (name_code l ls) + 4 + 0) with (zlen (name_code l ls) + 4) by lia. reflexivity.
Qed.

(** One more piece copied after what is packed. *)
Ltac copy_piece Hroom :=
  rewrite zcopy_room; [cbn [mbind option_bind]|zlen_simpl; rewrite ?zlen_htons, ?zlen_htonl; lia|
    rewrite ?zlen_htons, ?zlen_htonl; rewrite ?drop_drop, ?zlen_drop; rewrite ?zlen_drop; revert Hroom; unfold zlen;
    rewrite ?length_app; simpl length; lia].

Lemma question_pack en m rr l ls tail pre room len :
  label_ok l -> Forall label_ok ls -> name rr = name_text l ls ++ 0 :: tail -> zlen (name_text l ls) <= 254 ->
  zlen en = 256 -> data rr = None -> let code := head_code l ls (rtype rr) (rclass rr) in
  zlen code <= len -> zlen code <= zlen room ->
  dns_rr_pack en m rr (pre ++ room) (zlen pre) len = Some ((pre ++ code) ++ drop (length code) room, zlen code).
Proof.
  intros Hl Hls Hn Ht Hen Hd. cbv zeta. unfold head_code. intros Hlen Hroom.
  rewrite (dns_rr_pack_head _ _ _ l ls tail), Hd by done. zlen_simpl. rewrite !zlen_htons in *.
  destruct (Z.ltb_spec len (zlen (name_code l ls) + 4 + 0)); [lia|]. cbv zeta.
  copy_piece Hroom. copy_piece Hroom. copy_piece Hroom.
  rewrite !drop_drop, !length_app, <- !app_assoc. reflexivity.
Qed.

Lemma record_pack en m rr l ls tail ptr bytes pre room len :
  label_ok l -> Forall label_ok ls -> name rr = name_text l ls ++ 0 :: tail -> zlen (name_text l ls) <= 254 ->
  zlen en = 256 -> data rr = Some ptr -> 0 < datalen rr -> load m ptr (datalen rr) = Some bytes ->
  zlen bytes = datalen rr -> let code := head_code l ls (rtype rr) (rclass rr) ++ data_code rr bytes in
  zlen code <= len -> zlen code <= zlen room ->
  dns_rr_pack en m rr (pre ++ room) (zlen pre) len = Some ((pre ++ code) ++ drop (length code) room, zlen code).
Proof.
  intros Hl Hls Hn Ht Hen Hd Hpos Hload Hb. cbv zeta. unfold head_code, data_code. intros Hlen Hroom.
  rewrite (dns_rr_pack_head _ _ _ l ls tail), Hd by done. zlen_simpl. rewrite !zlen_htons, !zlen_htonl in *.
  destruct (Z.ltb_spec len (zlen (name_code l ls) + 4 + (6 + datalen rr))); [lia|]. cbv zeta.
  destruct (Z.eqb_spec (datalen rr) 0); [lia|]. cbn [negb].
  copy_piece Hroom. copy_piece Hroom. copy_piece Hroom. copy_piece Hroom. copy_piece Hroom.
  rewrite Hload. cbn [mbind option_bind]. copy_piece Hroom.
  rewrite !drop_drop, !length_app, <- !app_assoc. rewrite !Nat.add_assoc. do 2 f_equal. lia.
Qed.

Lemma zlen_load m ptr n bytes : load m ptr n = Some bytes -> zlen bytes = n.
Proof.
  unfold load. destruct (m !! ptr.1) as [block|]; [|done]. simpl. unfold zslice.
  destruct (Z.leb_spec 0 ptr.2); [|done]. destruct (Z.leb_spec 0 n); [|done].
  destruct (Z.leb_spec (ptr.2 + n) (zlen block)); [|done]. simpl. intros E. simplify_eq.
  unfold zlen in *. rewrite length_take, length_drop. lia.
Qed.

Lemma zlen_name_code l ls : zlen (name_code l ls) = zlen (name_text l ls) + 2.
Proof. unfold name_code, name_text. zlen_simpl. rewrite zlen_counted. lia. Qed.

Lemma question_packs m rr : rr_wf m true rr -> exists code, packs_as m true rr code.
Proof.
  intros ((l & ls & tail & Hl & Hls & Hn & Ht) & Hrt & Hrk & E1 & E2 & E3).
  exists (head_code l ls (rtype rr) (rclass rr)).
  assert (cstr (name rr) = name_text l ls) as Ec by (rewrite Hn; by apply cstr_app, name_text_nonzero).
  assert (zlen (head_code l ls (rtype rr) (rclass rr)) = rr_size rr) as Esz.
  { unfold rr_size, head_code. rewrite Ec, E3. zlen_simpl. rewrite !zlen_htons, zlen_name_code. lia. }
  split; [done|]. split; [|split].
  - intros. by apply (question_pack en m rr l ls tail).
  - intros en buf off len Hen Hlt. rewrite (dns_rr_pack_head _ _ _ l ls tail), E3 by done.
    rewrite Esz in Hlt. unfold rr_size in Hlt. rewrite Ec, E3 in Hlt. rewrite zlen_name_code.
    by destruct (Z.ltb_spec len (zlen (name_text l ls) + 2 + 4 + 0)); [|lia].
  - intros blk pre post len Hlen. eexists. split; [rewrite unpack_head by done; reflexivity|].
    intros m' _. unfold rr_view. cbn [name rtype rclass ttl data datalen]. rewrite Ec, E1, E3.
    by rewrite cstr_app by by apply name_text_nonzero.
Qed.

Lemma record_packs m rr : rr_wf m false rr -> exists code, packs_as m false rr code.
Proof.
  intros ((l & ls & tail & Hl & Hls & Hn & Ht) & Hrt & Hrk & E1 & E2 & ptr & bytes & E3 & Hload).
  set (code := head_code l ls (rtype rr) (rclass rr) ++ data_code rr bytes). exists code.
  pose proof (zlen_load _ _ _ _ Hload) as Hb.
  assert (cstr (name rr) = name_text l ls) as Ec by (rewrite Hn; by apply cstr_app, name_text_nonzero).
  assert (zlen (head_code l ls (rtype rr) (rclass rr)) = zlen (name_text l ls) + 6) as Eh.
  { unfold head_code. zlen_simpl. rewrite !zlen_htons, zlen_name_code. lia. }
  assert (zlen (data_code rr bytes) = 6 + datalen rr) as Ed.
  { unfold data_code. zlen_simpl. rewrite zlen_htonl, zlen_htons. lia. }
  assert (zlen code = rr_size rr) as Esz.
  { unfold rr_size, code. rewrite Ec, E3. zlen_simpl. lia. }
  split; [done|]. split; [|split].
  - intros. by apply (record_pack en m rr l ls tail ptr bytes); [..|lia| | | |].
  - intros en buf off len Hen Hlt. rewrite (dns_rr_pack_head _ _ _ l ls tail), E3 by done.
    rewrite Esz in Hlt. unfold rr_size in Hlt. rewrite Ec, E3 in Hlt. rewrite zlen_name_code.
    by destruct (Z.ltb_spec len (zlen (name_text l ls) + 2 + 4 + (6 + datalen rr))); [|lia].
  - intros blk pre post len Hlen. unfold code in *. zlen_simpl. rewrite <- app_assoc. eexists. split.
    { rewrite unpack_head by (done || lia). cbv zeta. rewrite Eh, zlen_name_code.
      destruct (Z.ltb_spec len (zlen (name_text l ls) + 6 + 6)); [lia|].
      unfold data_code. rewrite <- !app_assoc.
      rewrite (app_assoc pre), ntohl_at by (zlen_simpl; lia). cbn [mbind option_bind].
      rewrite (app_assoc (pre ++ _)), ntohs_at by (zlen_simpl; rewrite ?zlen_htonl; lia). cbn [mbind option_bind].
      cbn [over name rtype rclass ttl data datalen]. destruct (Z.ltb_spec len (zlen (name_text l ls) + 6 + 6 + datalen rr)); [lia|]. 
      f_equal. f_equal. zlen_simpl. rewrite ?zlen_htonl, ?zlen_htons; lia. }
    intros m' Hm. unfold rr_view. cbn [over name rtype rclass ttl data datalen]. rewrite Ec, E3.
    rewrite cstr_app by by apply name_text_nonzero. cbn [mbind option_bind]. rewrite Hload. unfold load.
    cbn [fst snd]. rewrite Hm. cbn [mbind option_bind]. f_equal. unfold data_code. rewrite <- !app_assoc.
    rewrite (app_assoc pre), (app_assoc (pre ++ _)), (app_assoc ((pre ++ _) ++ _)).
    apply zslice_app; [zlen_simpl; rewrite Eh, zlen_htonl, zlen_htons; lia|done].
Qed.

(** * Messages *)

Fixpoint rrs_size (rrs : list dns_rr_t) : Z :=
  match rrs with [] => 0 | rr :: rrs' => rr_size rr + rrs_size rrs' end.

(** The same for the records of one section. *)
Definition pack_as (m : memory) (is_question : bool) (rrs : list dns_rr_t) (code : list Z) : Prop :=
  zlen code = rrs_size rrs /\
  (forall en done pre room len, zlen en = 256 -> zlen pre + zlen code <= len -> zlen code <= zlen room ->
     pack_rrs en m (length rrs) (done ++ rrs) (zlen done) (pre ++ room) (zlen pre) len
     = Some ((pre ++ code) ++ drop (length code) room, zlen pre + zlen code)) /\
  (forall en done pre room len, zlen en = 256 -> len < zlen pre + zlen code -> zlen pre <= len <= zlen (pre ++ room) ->
     exists buf, pack_rrs en m (length rrs) (done ++ rrs) (zlen done) (pre ++ room) (zlen pre) len = Some (buf, -1)) /\
  (forall blk pre post len, zlen pre + zlen code <= len -> exists rrs',
     unpack_rrs blk (length rrs) (pre ++ code ++ post) (zlen pre) len is_question
     = Some (rrs', zlen pre + zlen code) /\
     forall m', m' !! blk = Some (pre ++ code ++ post) -> map (rr_view m') rrs' = map (rr_view m) rrs).

Lemma rr_packs m q rr : rr_wf m q rr -> exists code, packs_as m q rr code.
Proof. destruct q; [apply question_packs|apply record_packs]. Qed.

Lemma pack_as_cons m q rr rrs c code :
  packs_as m q rr c -> pack_as m q rrs code -> pack_as m q (rr :: rrs) (c ++ code).
Proof.
  intros (Hs & Hp & Hf & Hu) (Hss & Hps & Hfs & Hus). pose proof (zlen_nonneg c). pose proof (zlen_nonneg code).
  split; [zlen_simpl; simpl; lia|]. split; [|split].
  - intros en done pre room len Hen Hlen Hroom. zlen_simpl. simpl pack_rrs. rewrite zget_middle by done.
    cbn [mbind option_bind]. rewrite Hp by (done || lia). cbn [mbind option_bind].
    destruct (Z.ltb_spec (zlen c) 0); [lia|].
    specialize (Hps en (done ++ [rr]) (pre ++ c) (drop (length c) room) len Hen).
    rewrite <- (app_assoc done) in Hps. simpl in Hps. zlen_simpl. change (1 + 0) with 1 in Hps.
    rewrite Hps by (rewrite ?zlen_drop by (unfold zlen in *; lia); unfold zlen in *; lia).
    rewrite drop_drop, length_app, <- !app_assoc. do 2 f_equal. lia.
  - intros en done pre room len Hen Hlen Hroom. zlen_simpl. simpl pack_rrs. rewrite zget_middle by done.
    cbn [mbind option_bind]. destruct (decide (len - zlen pre < zlen c)).
    + rewrite Hf by (done || lia). cbn [mbind option_bind]. simpl. by eexists.
    + rewrite Hp by (done || lia). cbn [mbind option_bind]. destruct (Z.ltb_spec (zlen c) 0); [lia|].
      specialize (Hfs en (done ++ [rr]) (pre ++ c) (drop (length c) room) len Hen).
      rewrite <- (app_assoc done) in Hfs. simpl in Hfs. zlen_simpl. change (1 + 0) with 1 in Hfs.
      apply Hfs; rewrite ?zlen_drop by (unfold zlen in *; lia); unfold zlen in *; lia.
  - intros blk pre post len Hlen. zlen_simpl. simpl unpack_rrs. rewrite <- app_assoc.
    destruct (Hu blk pre (code ++ post) (len - zlen pre)) as (rr' & -> & Hv); [lia|]. cbn [mbind option_bind].
    destruct (Z.ltb_spec (zlen c) 0); [lia|].
    destruct (Hus blk (pre ++ c) post len) as (rrs' & E & Hvs); [zlen_simpl; lia|].
    rewrite <- app_assoc in E, Hvs. zlen_simpl. rewrite E. cbn [mbind option_bind].
    eexists. split; [by rewrite Z.add_assoc|]. intros m' Hm. simpl. f_equal; [by apply Hv|by apply Hvs].
Qed.

Lemma section_packs m q rrs : Forall (rr_wf m q) rrs -> exists code, pack_as m q rrs code.
Proof.
  induction 1 as [|rr rrs Hrr _ (code & IH)].
  - exists []. split; [done|]. split; [|split].
    + intros. simpl. rewrite app_nil_r. do 2 f_equal. change (zlen (@nil Z)) with 0. lia.
    + intros. change (zlen (@nil Z)) with 0 in *. lia.
    + intros. exists []. simpl. split; [|done]. do 2 f_equal. change (zlen (@nil Z)) with 0. lia.
  - destruct (rr_packs m q rr Hrr) as (c & Hc). exists (c ++ code). by apply pack_as_cons.
Qed.

(** Header fields within their widths. *)
Definition is_bit (b : Z) : Prop := 0 <= b < 2.
Definition hdr_wf (h : dnshdr_t) : Prop :=
  0 <= transaction_id h < 65536 /\ is_bit (rd h) /\ is_bit (tc h) /\ is_bit (aa h) /\ 0 <= opcode h < 16 /\
  is_bit (qr h) /\ 0 <= rcode h < 16 /\ is_bit (cd h) /\ is_bit (ad h) /\ is_bit (res h) /\ is_bit (ra h) /\
  0 <= nquestion h < 65536 /\ 0 <= nanswer h < 65536 /\ 0 <= nauthority h < 65536 /\ 0 <= naddtional h < 65536.

Lemma hdr_roundtrip h tail : hdr_wf h -> hdr_of_bytes (hdr_bytes h ++ tail) = Some h.
Proof.
  unfold hdr_wf, is_bit. intros. destruct_and!.
  assert (forall i, 0 <= i < 12 -> zget (hdr_bytes h ++ tail) i = hdr_bytes h !! Z.to_nat i) as Hz.
  { intros i Hi. change 12 with (zlen (hdr_bytes h)) in Hi.
    rewrite zget_Some by (zlen_simpl; pose proof (zlen_nonneg tail); lia).
    apply lookup_app_l. unfold zlen in Hi. lia. }
  unfold hdr_of_bytes, ntohs. rewrite !Hz by lia. clear Hz. destruct h. cbn in *|-.
  repeat match goal with |- context [Z.to_nat ?i] => let n := eval vm_compute in (Z.to_nat i) in change (Z.to_nat i) with n end.
  cbn -[Z.land Z.shiftr Z.mul Z.add u8 bit]. unfold bit.
  rewrite !(land_mask _ 1 1) by (lia || reflexivity). bits_to_arith. unfold u8. f_equal. f_equal; zdm.
Qed.

Definition dns_wf (m : memory) (d : dns_t) : Prop :=
  hdr_wf (hdr d) /\
  nquestion (hdr d) = zlen (questions d) /\ nanswer (hdr d) = zlen (answers d) /\
  nauthority (hdr d) = zlen (authorities d) /\ naddtional (hdr d) = zlen (addtionals d) /\
  Forall (rr_wf m true) (questions d) /\ Forall (rr_wf m false) (answers d) /\
  Forall (rr_wf m false) (authorities d) /\ Forall (rr_wf m false) (addtionals d).

Definition dns_size (d : dns_t) : Z :=
  12 + rrs_size (questions d) + rrs_size (answers d) + rrs_size (authorities d) + rrs_size (addtionals d).

Definition dns_view (m : memory) (d : dns_t) :=
  (hdr d, map (rr_view m) (questions d), map (rr_view m) (answers d),
   map (rr_view m) (authorities d), map (rr_view m) (addtionals d)).

(** A section that fits lets the next one be packed; one that does not ends it all. *)
Lemma section_then m q rrs code en pre room len k :
  pack_as m q rrs code -> zlen en = 256 -> zlen pre <= len <= zlen (pre ++ room) ->
  (zlen pre + zlen code <= len /\
   and_then (pack_rrs en m (Z.to_nat (zlen rrs)) rrs 0 (pre ++ room) (zlen pre) len) k
   = k ((pre ++ code) ++ drop (length code) room) (zlen (pre ++ code)) /\
   zlen (pre ++ code) <= len <= zlen ((pre ++ code) ++ drop (length code) room)) \/
  (len < zlen pre + zlen code /\
   exists buf, and_then (pack_rrs en m (Z.to_nat (zlen rrs)) rrs 0 (pre ++ room) (zlen pre) len) k = Some (buf, -1)).
Proof.
  intros (_ & Hp & Hf & _) Hen Hlen. replace (Z.to_nat (zlen rrs)) with (length rrs) by (unfold zlen; lia).
  destruct (decide (zlen pre + zlen code <= len)) as [Hfit|Hbig]; [left|right].
  - specialize (Hp en [] pre room len Hen Hfit). zlen_simpl. simpl app in Hp. rewrite Hp by lia. unfold and_then. cbn [mbind option_bind].
    pose proof (zlen_nonneg pre). pose proof (zlen_nonneg code). destruct (Z.ltb_spec (zlen pre + zlen code) 0); [lia|].
    rewrite zlen_drop by (unfold zlen in *; lia). unfold zlen in *. repeat split; try done; lia.
  - split; [lia|]. destruct (Hf en [] pre room len Hen) as (buf & E); [lia|done|]. exists buf. unfold and_then.
    simpl app in E. change (zlen []) with 0 in E. by rewrite E.
Qed.

Lemma unpack_section blk m q rrs code pre post len buf :
  pack_as m q rrs code -> buf = pre ++ code ++ post -> zlen (pre ++ code) <= len ->
  exists rrs', unpack_rrs blk (Z.to_nat (zlen rrs)) buf (zlen pre) len q = Some (rrs', zlen (pre ++ code)) /\
    forall m', m' !! blk = Some buf -> map (rr_view m') rrs' = map (rr_view m) rrs.
Proof.
  intros (_ & _ & _ & Hu) -> Hlen. zlen_simpl. destruct (Hu blk pre post len) as (rrs' & E & Hv); [lia|].
  exists rrs'. split; [|done]. rewrite <- E. f_equal. unfold zlen. lia.
Qed.

(** Packing one more section, or ending there. *)
Ltac next_section P Hen Hl L :=
  lazymatch goal with
  | |- context [and_then (pack_rrs _ _ _ _ _ (?pre ++ ?room) _ ?len) ?k] =>
      destruct (section_then _ _ _ _ _ pre room len k P Hen Hl) as [(? & -> & L)|(? & buf' & ->)];
      [|zlen_simpl; split; [by eexists|lia]]
  end.

(** Packing writes the header and the four sections, or gives up. *)
Lemma dns_pack_spec en m d buf len c1 c2 c3 c4 :
  zlen en = 256 -> 0 <= len < 2147483648 -> len <= zlen buf -> hdr_wf (hdr d) ->
  nquestion (hdr d) = zlen (questions d) -> nanswer (hdr d) = zlen (answers d) ->
  nauthority (hdr d) = zlen (authorities d) -> naddtional (hdr d) = zlen (addtionals d) ->
  pack_as m true (questions d) c1 -> pack_as m false (answers d) c2 ->
  pack_as m false (authorities d) c3 -> pack_as m false (addtionals d) c4 ->
  let code := (((hdr_bytes (hdr d) ++ c1) ++ c2) ++ c3) ++ c4 in
  (len < zlen code -> exists buf', dns_pack en m d buf len = Some (buf', -1)) /\
  (zlen code <= len -> exists rest, dns_pack en m d buf len = Some (code ++ rest, zlen code) /\
     zlen (code ++ rest) = zlen buf).
Proof.
  intros Hen Hint Hlen Hh N1 N2 N3 N4 P1 P2 P3 P4. cbv zeta. unfold dns_pack. rewrite u64_small by lia.
  assert (zlen (hdr_bytes (hdr d)) = 12) as E12 by done. set (hb := hdr_bytes (hdr d)) in *. zlen_simpl.
  pose proof (zlen_nonneg c1). pose proof (zlen_nonneg c2). pose proof (zlen_nonneg c3). pose proof (zlen_nonneg c4).
  destruct (Z.ltb_spec len 12) as [|Hl12]; [split; [by eexists|lia]|].
  rewrite (zcopy_room [] buf hb) by (done || lia). cbn [mbind option_bind app]. rewrite N1, N2, N3, N4, <- E12.
  assert (zlen (hb ++ drop (length hb) buf) = zlen buf) as Ez.
  { zlen_simpl. rewrite zlen_drop by (unfold zlen in *; lia). unfold zlen. lia. }
  revert Ez. generalize (drop (length hb) buf) as room. intros room Ez. rewrite <- E12 in Hl12. rewrite <- Ez in Hlen.
  next_section P1 Hen (conj Hl12 Hlen) L1. next_section P2 Hen L1 L2. next_section P3 Hen L2 L3.
  destruct P4 as (_ & Hp & Hf & _). replace (Z.to_nat (zlen (addtionals d))) with (length (addtionals d)) by (unfold zlen; lia).
  revert L3. set (pre := ((hb ++ c1) ++ c2) ++ c3). set (r3 := drop _ (drop _ (drop _ room))). intros L3.
  assert (zlen pre = zlen hb + zlen c1 + zlen c2 + zlen c3) as Epre by (unfold pre; zlen_simpl; lia).
  split; intros Hc.
  - apply (Hf en [] pre r3 len); [done|lia|done].
  - exists (drop (length c4) r3). zlen_simpl.
    change (zlen ([] : list dns_rr_t)) with 0 in Hp.
    rewrite <- (app_nil_l (addtionals d)) at 2. rewrite Hp by (done || lia). split; [do 2 f_equal; lia|].
    rewrite <- Ez. unfold r3. rewrite !zlen_drop; unfold zlen in *; rewrite ?length_drop in *; lia.
Qed.

Lemma dns_unpack_spec blk m d c1 c2 c3 c4 rest :
  hdr_wf (hdr d) ->
  nquestion (hdr d) = zlen (questions d) -> nanswer (hdr d) = zlen (answers d) ->
  nauthority (hdr d) = zlen (authorities d) -> naddtional (hdr d) = zlen (addtionals d) ->
  pack_as m true (questions d) c1 -> pack_as m false (answers d) c2 ->
  pack_as m false (authorities d) c3 -> pack_as m false (addtionals d) c4 ->
  let code := (((hdr_bytes (hdr d) ++ c1) ++ c2) ++ c3) ++ c4 in
  zlen code = dns_size d -> dns_size d < 2147483648 ->
  exists d', dns_unpack blk (code ++ rest) (dns_size d) = Some (d', dns_size d) /\
    forall m', m' !! blk = Some (code ++ rest) -> dns_view m' d' = dns_view m d.
Proof.
  intros Hh N1 N2 N3 N4 P1 P2 P3 P4. cbv zeta. set (hb := hdr_bytes (hdr d)).
  set (code := (((hb ++ c1) ++ c2) ++ c3) ++ c4). intros Ecode Hint. rewrite <- Ecode in *. unfold dns_unpack.
  rewrite u64_small by (pose proof (zlen_nonneg code); lia).
  assert (zlen hb = 12) as E12 by done. unfold code at 1. zlen_simpl.
  pose proof (zlen_nonneg c1). pose proof (zlen_nonneg c2). pose proof (zlen_nonneg c3). pose proof (zlen_nonneg c4).
  destruct (Z.ltb_spec (zlen hb + zlen c1 + zlen c2 + zlen c3 + zlen c4) 12); [lia|].
  assert (hdr_of_bytes (code ++ rest) = Some (hdr d)) as ->.
  { unfold code. rewrite <- !app_assoc. by apply hdr_roundtrip. }
  cbn [mbind option_bind]. rewrite N1, N2, N3, N4, <- E12.
  destruct (unpack_section blk m true (questions d) c1 hb (c2 ++ c3 ++ c4 ++ rest) (zlen code) (code ++ rest) P1)
    as (q1 & -> & V1); [unfold code; by rewrite <- !app_assoc|unfold code; zlen_simpl; lia|]. cbn [mbind option_bind].
  destruct (Z.ltb_spec (zlen (hb ++ c1)) 0); [zlen_simpl; lia|].
  destruct (unpack_section blk m false (answers d) c2 (hb ++ c1) (c3 ++ c4 ++ rest) (zlen code) (code ++ rest) P2)
    as (q2 & -> & V2); [unfold code; by rewrite <- !app_assoc|unfold code; zlen_simpl; lia|]. cbn [mbind option_bind].
  destruct (Z.ltb_spec (zlen ((hb ++ c1) ++ c2)) 0); [zlen_simpl; lia|].
  destruct (unpack_section blk m false (authorities d) c3 ((hb ++ c1) ++ c2) (c4 ++ rest) (zlen code) (code ++ rest) P3)
    as (q3 & -> & V3); [unfold code; by rewrite <- !app_assoc|unfold code; zlen_simpl; lia|]. cbn [mbind option_bind].
  destruct (Z.ltb_spec (zlen (((hb ++ c1) ++ c2) ++ c3)) 0); [zlen_simpl; lia|].
  destruct (unpack_section blk m false (addtionals d) c4 (((hb ++ c1) ++ c2) ++ c3) rest (zlen code) (code ++ rest) P4)
    as (q4 & -> & V4); [unfold code; by rewrite <- !app_assoc|unfold code; zlen_simpl; lia|]. cbn [mbind option_bind].
  eexists. split; [reflexivity|]. intros m' Hm. unfold dns_view.
  cbn [over hdr questions answers authorities addtionals zero_dns].
  by rewrite (V1 m' Hm), (V2 m' Hm), (V3 m' Hm), (V4 m' Hm).
Qed.

(** C29. A well-formed message and a length that is not negative: [dns_pack] returns -1
    when the buffer is too short for the message, and otherwise its size; and
    [dns_unpack] of that many bytes gives the header and every record of the four sections back, the data read from the packed buffer. *)
Theorem dns_roundtrip en m d buf len :
  zlen en = 256 -> dns_wf m d -> 0 <= len < 2147483648 -> len <= zlen buf ->
  (len < dns_size d -> exists buf', dns_pack en m d buf len = Some (buf', -1)) /\
  (dns_size d <= len -> exists buf', dns_pack en m d buf len = Some (buf', dns_size d) /\ zlen buf' = zlen buf /\
     forall blk, exists d', dns_unpack blk buf' (dns_size d) = Some (d', dns_size d) /\
       forall m', m' !! blk = Some buf' -> dns_view m' d' = dns_view m d).
Proof.
  intros Hen (Hh & N1 & N2 & N3 & N4 & W1 & W2 & W3 & W4) Hint Hlen.
  destruct (section_packs _ _ _ W1) as (c1 & P1), (section_packs _ _ _ W2) as (c2 & P2),
    (section_packs _ _ _ W3) as (c3 & P3), (section_packs _ _ _ W4) as (c4 & P4).
  destruct (dns_pack_spec en m d buf len c1 c2 c3 c4) as [Hbig Hfit]; [done..|].
  set (code := (((hdr_bytes (hdr d) ++ c1) ++ c2) ++ c3) ++ c4) in *.
  assert (zlen code = dns_size d) as Ecode.
  { unfold code, dns_size. zlen_simpl. destruct P1 as [-> _], P2 as [-> _], P3 as [-> _], P4 as [-> _]. done. }
  rewrite Ecode in *. split; [done|]. intros Hd. destruct (Hfit Hd) as (rest & E & Ez). exists (code ++ rest).
  split; [done|]. split; [done|]. intros blk.
  apply (dns_unpack_spec blk m d c1 c2 c3 c4 rest); done || lia.
Qed.

(** The question a.bc with an answer of four bytes. *)
Definition sample_rr : dns_rr_t := mk_rr (bytes_of_string "a.bc" ++ [0]) 1 1 0 0 None.
Definition sample_mem : memory := {[7 := [127; 0; 0; 1]]}.
Definition sample_dns (id : Z) : dns_t :=
  mk_dns (mk_hdr id 1 0 0 0 1 0 0 0 0 1 1 1 0 0) [sample_rr]
    [sample_rr.[ttl := 600].[datalen := 4].[data := Some (7, 0)]] [] [].

Lemma sample_wf : dns_wf sample_mem (sample_dns 5).
Proof.
  assert (name_wf (bytes_of_string "a.bc" ++ [0])) as Hn.
  { exists [97], [[98; 99]], []. repeat split; try done; try lia; repeat constructor; try done; try lia. }
  unfold dns_wf, hdr_wf, is_bit. cbn. repeat split; try lia; repeat constructor; cbn; try lia; try done.
  exists (7, 0), [127; 0; 0; 1]. done.
Qed.

Lemma dns_roundtrip_witness : exists buf,
  dns_pack (replicate 256 0) sample_mem (sample_dns 5) (replicate 64 0) 64 = Some (buf, 42) /\
  exists d', dns_unpack 0 buf 42 = Some (d', 42) /\ dns_view {[0 := buf]} d' = dns_view sample_mem (sample_dns 5).
Proof.
  destruct (dns_roundtrip (replicate 256 0) sample_mem (sample_dns 5) (replicate 64 0) 64) as [_ H];
    [done|exact sample_wf|done|done|].
  destruct H as (buf & E & _ & H); [by vm_compute|]. exists buf. split; [exact E|].
  destruct (H 0) as (d' & E' & V). exists d'. split; [exact E'|]. apply V. exact (lookup_singleton_eq (M := gmap Z) 0 buf).
Defined.

(** * Overruns *)

(** A negative length passes the size check: a message of the header alone is written to
    the buffer and its 12 bytes are reported, whatever room there is said to be. *)
Lemma dns_pack_negative_len en m h buf len :
  - 2147483648 <= len < 0 -> nquestion h = 0 -> nanswer h = 0 -> nauthority h = 0 -> naddtional h = 0 ->
  12 <= zlen buf ->
  dns_pack en m (mk_dns h [] [] [] []) buf len = Some (hdr_bytes h ++ drop 12 buf, 12).
Proof.
  intros Hlen N1 N2 N3 N4 Hbuf. unfold dns_pack. cbn [hdr]. rewrite N1, N2, N3, N4.
  assert (u64 len = len + 18446744073709551616) as ->.
  { unfold u64. rewrite <- (Z.mod_add _ 1) by lia. rewrite Z.mod_small; lia. }
  destruct (Z.ltb_spec (len + 18446744073709551616) 12); [lia|].
  by rewrite (zcopy_room [] buf (hdr_bytes h)).
Qed.

(** A name that fills its array up to the terminator makes [dns_rr_pack] write past
    [encoded_name]: an encoded name is two bytes longer than its text. *)
Lemma dns_rr_pack_overrun en m rr text buf off len :
  zlen en = 256 -> name rr = text ++ [0] -> zlen text = 255 -> Forall (fun c => c <> 0) text ->
  dns_rr_pack en m rr buf off len = None.
Proof.
  intros Hen Hn Ht Hnz. unfold dns_rr_pack, dns_name_encode. rewrite Hn.
  by rewrite encode_overrun by (done || lia).
Qed.

(** The encoded root name is one byte long, but decoding it takes the next byte for its
    terminator: a record named by the root is misread. *)
Lemma root_name_misread tail :
  dns_name_decode (0 :: 0 :: tail) (replicate 256 0) = Some (replicate 256 0, 2) /\
  dns_name_encode [0] (replicate 256 1) = Some ([0; 0] ++ replicate 254 1, 1).
Proof. done. Qed.

(** A name in a reply longer than [rr->name] is written past it. *)
Lemma decode_overrun text tail : Forall (fun c => c <> 0) text -> forall domain d buflen len,
  zlen domain <= d + zlen text -> 0 <= d ->
  name_decode_loop (text ++ 0 :: tail) domain d buflen len = None.
Proof.
  assert (forall (l : list Z) i v, zlen l <= i -> zset l i v = None) as Hset by (intros; unfold zset; zcases; done).
  induction 1 as [|c text Hc _ IH]; intros domain d buflen len Hd Hp.
  - change (zlen (@nil Z)) with 0 in Hd. simpl. by rewrite Hset by lia.
  - zlen_simpl. simpl. destruct (Z.eqb_spec c 0); [done|]. destruct (len =? 0).
    + destruct (zset domain d dot) as [domain'|] eqn:E; [|done]. apply zset_length in E. simpl. apply IH; lia.
    + destruct (zset domain d c) as [domain'|] eqn:E; [|done]. apply zset_length in E. simpl. apply IH; lia.
Qed.

(** * Lookups *)

(** Unpacked data lies in the buffer unpacked from. *)
Definition points_into (blk : Z) (rr : dns_rr_t) : Prop := data rr = None \/ exists o, data rr = Some (blk, o).

Lemma rr_unpack_points blk buf off len q rr r :
  dns_rr_unpack blk buf off len zero_rr q = Some (rr, r) -> points_into blk rr.
Proof.
  assert (forall nm, points_into blk (zero_rr.[name := nm])) as H0 by (by left).
  unfold dns_rr_unpack. intros E. unfold points_into.
  repeat (case_match; simplify_option_eq; try (by left)); try (right; by eexists).
Qed.

Lemma unpack_rrs_points blk n buf off len q rrs o :
  unpack_rrs blk n buf off len q = Some (rrs, o) -> length rrs = n /\ Forall (points_into blk) rrs.
Proof.
  revert off rrs. induction n as [|n IH]; intros off rrs E; [simpl in E; by simplify_eq|].
  simpl in E. destruct (dns_rr_unpack _ _ _ _ _ _) as [[rr k]|] eqn:Er; [|done]. simpl in E.
  apply rr_unpack_points in Er. destruct (k <? 0); simplify_eq.
  - rewrite length_cons, length_replicate. split; [done|]. constructor; [done|]. apply Forall_replicate. by left.
  - destruct (unpack_rrs blk n _ _ _ _) as [[rrs' o']|] eqn:E'; [|done]. simpl in E. simplify_eq.
    apply IH in E' as [<- ?]. split; [done|]. by constructor.
Qed.

(** A lookup whose reply parsed has as many answers as its header says, their data in
    the buffer of [dns_query], which is gone. *)
Lemma dns_query_ok en sb n m query r resp m' :
  dns_query en sb n m query r = Some (0, resp, m') ->
  length (answers resp) = Z.to_nat (nanswer (hdr resp)) /\ Forall (points_into QUERY_BUF) (answers resp) /\
  m' !! QUERY_BUF = None.
Proof.
  unfold dns_query. intros E. destruct (dns_pack _ _ _ _ _) as [[buf l]|]; [|done]. simpl in E.
  destruct (Z.ltb_spec l 0); [simplify_eq; lia|]. destruct (sock n); [|done]. simpl in E.
  destruct (zslice buf 0 l) as [pk|]; [|done]. simpl in E. destruct (negb _); [done|].
  destruct (Z.leb_spec (zlen (take 1024 (default [] (recvfrom n)))) 0); [done|].
  destruct (zcopy _ _ _) as [buf'|]; [|done]. simpl in E.
  destruct (dns_unpack _ _ _) as [[resp' np]|] eqn:Eu; [|done]. simpl in E.
  destruct (Z.eqb_spec np (zlen (take 1024 (default [] (recvfrom n))))) as [->|]; [|done]. simpl in E. simplify_eq.
  split_and!; [| |exact (lookup_delete_eq (M := gmap Z) m QUERY_BUF)].
  all: unfold dns_unpack in Eu; destruct (u64 (zlen (take 1024 (default [] (recvfrom n)))) <? 12); [simplify_eq; lia|];
    destruct (hdr_of_bytes buf') as [h|]; [|done]; cbn [mbind option_bind] in Eu;
    destruct (unpack_rrs _ _ _ 12 _ _) as [[r1 o1]|]; [|done]; cbn [mbind option_bind] in Eu;
    destruct (Z.ltb_spec o1 0); [simplify_eq; lia|];
    destruct (unpack_rrs _ (Z.to_nat (nanswer h)) _ _ _ _) as [[r2 o2]|] eqn:E2; [|done]; cbn [mbind option_bind] in Eu;
    destruct (Z.ltb_spec o2 0); [simplify_eq; lia|];
    destruct (unpack_rrs _ _ _ o2 _ _) as [[r3 o3]|]; [|done]; cbn [mbind option_bind] in Eu;
    destruct (Z.ltb_spec o3 0); [simplify_eq; lia|];
    destruct (unpack_rrs _ _ _ o3 _ _) as [[r4 o4]|]; [|done]; cbn [mbind option_bind] in Eu;
    apply unpack_rrs_points in E2 as [? ?]; injection Eu as <- ?; done.
Qed.

Lemma answer_loop_dead m rr post addrs naddr : forall pre k cnt,
  Forall (fun r => rtype r <> DNS_TYPE_A) pre -> rtype rr = DNS_TYPE_A -> datalen rr = 4 -> cnt < naddr ->
  points_into QUERY_BUF rr -> m !! QUERY_BUF = None -> (length pre < k)%nat ->
  answer_loop m (pre ++ rr :: post) k addrs cnt naddr = None.
Proof.
  induction pre as [|r pre IH]; intros k cnt Hpre Ht Hd Hc Hp Hm Hk; (destruct k as [|k]; [simpl in Hk; lia|]); simpl.
  - rewrite Ht, Hd. destruct (Z.ltb_spec cnt naddr); [|lia]. simpl.
    destruct Hp as [->|(o & ->)]; [done|]. simpl. unfold load. simpl. by rewrite Hm.
  - apply Forall_cons in Hpre as [Hr Hpre]. destruct (Z.eqb_spec (rtype r) DNS_TYPE_A); [done|].
    apply IH; try done. simpl in Hk. lia.
Qed.

(** C40. Whenever the server's reply parses and is accepted, and its first address record
    has four bytes, [nslookup] copies the address out of [dns_query]'s own buffer after
    that function returned: no lookup with an answer has a defined result. *)
Theorem nslookup_reads_dead_buffer en sb n m pid domain addrs naddr q resp m' pre rr post :
  strncpy 256 domain = Some q ->
  dns_query en sb n m (lookup_query pid q) zero_dns = Some (0, resp, m') ->
  transaction_id (hdr resp) = u16 pid -> qr (hdr resp) = DNS_RESPONSE -> rcode (hdr resp) = 0 ->
  answers resp = pre ++ rr :: post -> Forall (fun r => rtype r <> DNS_TYPE_A) pre ->
  rtype rr = DNS_TYPE_A -> datalen rr = 4 -> 0 < naddr ->
  nslookup en sb n m pid domain addrs naddr = None.
Proof.
  intros Hq Hquery Hid Hqr Hrc Ha Hpre Ht Hd Hn. destruct (dns_query_ok _ _ _ _ _ _ _ _ Hquery) as (Hlen & Hpt & Hdead).
  rewrite Ha in Hlen, Hpt. apply Forall_app in Hpt as [_ Hpt]. apply Forall_cons in Hpt as [Hpt _].
  rewrite length_app in Hlen. simpl in Hlen.
  unfold nslookup. rewrite Hq. cbn [mbind option_bind]. rewrite Hquery. cbn [mbind option_bind].
  change (negb (0 =? 0)) with false. cbv iota. rewrite Hid, Hqr, Hrc.
  change (transaction_id (hdr (lookup_query pid q))) with (u16 pid). rewrite Z.eqb_refl. simpl.
  destruct (Z.eqb_spec (nanswer (hdr resp)) 0); [lia|]. rewrite Ha, answer_loop_dead; try done. lia.
Qed.

(** A server that answers the question a.bc. *)
Definition sample_net : net :=
  mk_net true zlen
    ('(buf, l) ← dns_pack (replicate 256 0) sample_mem (sample_dns 5) (replicate 64 0) 64; Some (take (Z.to_nat l) buf)).

Lemma nslookup_reads_dead_buffer_witness :
  nslookup (replicate 256 0) (replicate 1024 0) sample_net ∅ 5 (bytes_of_string "a.bc" ++ [0]) (replicate 4 0) 1 = None.
Proof.
  eapply (nslookup_reads_dead_buffer (replicate 256 0) (replicate 1024 0) sample_net ∅ 5 (bytes_of_string "a.bc" ++ [0])
    (replicate 4 0) 1) with (pre := []); [vm_compute; reflexivity..| | | |];
    first [apply Forall_nil; exact I|vm_compute; reflexivity].
Defined.

(** Looking up the same name without taking addresses gives the number of answers. *)
Example nslookup_counts :
  nslookup (replicate 256 0) (replicate 1024 0) sample_net ∅ 5 (bytes_of_string "a.bc" ++ [0]) [] 0 = Some (1, []).
Proof. vm_compute. reflexivity. Qed.
End DnsThm.
