(* ===== verification/Rbtree.v ===== *)
(** The red-black tree of base/rbtree.h and base/rbtree.c, at the level of its
    pointers: nodes live in a memory, every operation reads and writes their links, and
    a dereference of NULL or of a missing node is an error. The code writes each case
    twice, once for the left and once for the right; the definitions take the side. *)
From S2P Require Import Prelude.

Module Rbtree.

Abbreviation ptr := Z (only parsing).

Inductive color := RB_RED | RB_BLACK.
#[global] Instance color_eq_dec : EqDecision color.
Proof. solve_decision. Defined.

Record rb_node := mk_rb { rb_parent : option ptr; rb_right : option ptr; rb_left : option ptr; rb_color : color }.
#[global] Instance rb_rebuild : Rebuild rb_node := fun n => mk_rb (rb_parent n) (rb_right n) (rb_left n) (rb_color n).

(** [struct rb_root] and the memory of the nodes. *)
Record tree_st := mk_st { root : option ptr; mem : gmap ptr rb_node }.

(** * Access *)

Inductive side := Lft | Rgt.
Definition opp (d : side) : side := match d with Lft => Rgt | Rgt => Lft end.
Definition child (d : side) (n : rb_node) : option ptr := match d with Lft => rb_left n | Rgt => rb_right n end.

Definition get (s : tree_st) (x : ptr) : option rb_node := mem s !! x.
Definition put (s : tree_st) (x : ptr) (f : rb_node -> rb_node) : option tree_st :=
  n ← get s x; Some (mk_st (root s) (<[x := f n]> (mem s))).
Definition set_root (s : tree_st) (v : option ptr) : tree_st := mk_st v (mem s).
Definition set_parent (s : tree_st) (x : ptr) (v : option ptr) : option tree_st := put s x (fun n => n.[rb_parent := v]).
Definition set_color (s : tree_st) (x : ptr) (c : color) : option tree_st := put s x (fun n => n.[rb_color := c]).
Definition set_child (d : side) (s : tree_st) (x : ptr) (v : option ptr) : option tree_st :=
  put s x (fun n => match d with Lft => n.[rb_left := v] | Rgt => n.[rb_right := v] end).

(** [if (x) x->rb_parent = v], [if (x) x->rb_color = c]. *)
Definition set_parent_if (s : tree_st) (x : option ptr) (v : option ptr) : option tree_st :=
  match x with None => Some s | Some x => set_parent s x v end.
Definition set_color_if (s : tree_st) (x : option ptr) (c : color) : option tree_st :=
  match x with None => Some s | Some x => set_color s x c end.

(** [!x || x->rb_color == RB_BLACK]. *)
Definition is_black (s : tree_st) (x : option ptr) : option bool :=
  match x with None => Some true | Some x => n ← get s x; Some (bool_decide (rb_color n = RB_BLACK)) end.

(** The link to [x] from its parent, or the root, is redirected to [v]; the code asks
    whether [x] is the child on side [d], and takes the other side if not. *)
Definition relink (d : side) (s : tree_st) (par : option ptr) (x : ptr) (v : option ptr) : option tree_st :=
  match par with
  | None => Some (set_root s v)
  | Some p =>
      pn ← get s p;
      if bool_decide (child d pn = Some x) then set_child d s p v else set_child (opp d) s p v
  end.

Definition rb_link_node (s : tree_st) (node : ptr) (parent : option ptr) (link : option (side * ptr)) : option tree_st :=
  s ← put s node (fun _ => mk_rb parent None None RB_RED);
  match link with
  | None => Some (set_root s (Some node))
  | Some (d, p) => set_child d s p (Some node)
  end.

(** * Rotations and insertion *)

(** [__rb_rotate_left] for [Lft], [__rb_rotate_right] for [Rgt]. *)
Definition __rb_rotate (d : side) (node : ptr) (s : tree_st) : option tree_st :=
  n ← get s node; right ← child (opp d) n;
  rn ← get s right;
  s ← set_child (opp d) s node (child d rn);
  s ← set_parent_if s (child d rn) (Some node);
  s ← set_child d s right (Some node);
  n ← get s node;
  s ← set_parent s right (rb_parent n);
  s ← relink d s (rb_parent n) node (Some right);
  set_parent s node (Some right).
Definition __rb_rotate_left : ptr -> tree_st -> option tree_st := __rb_rotate Lft.
Definition __rb_rotate_right : ptr -> tree_st -> option tree_st := __rb_rotate Rgt.

Fixpoint insert_color_loop (fuel : nat) (node : ptr) (s : tree_st) : option tree_st :=
  n ← get s node;
  match rb_parent n with
  | None => Some s
  | Some parent =>
      pn ← get s parent;
      if bool_decide (rb_color pn = RB_RED) then
        match fuel with
        | O => None
        | S f =>
            gparent ← rb_parent pn;
            gn ← get s gparent;
            let d := if bool_decide (rb_left gn = Some parent) then Lft else Rgt in
            black ← is_black s (child (opp d) gn);
            match child (opp d) gn, black with
            | Some uncle, false =>
                s ← set_color s uncle RB_BLACK;
                s ← set_color s parent RB_BLACK;
                s ← set_color s gparent RB_RED;
                insert_color_loop f gparent s
            | _, _ =>
                '(parent, node, s) ←
                  (if bool_decide (child (opp d) pn = Some node)
                   then s ← __rb_rotate d parent s; Some (node, parent, s)
                   else Some (parent, node, s));
                s ← set_color s parent RB_BLACK;
                s ← set_color s gparent RB_RED;
                s ← __rb_rotate (opp d) gparent s;
                insert_color_loop f node s
            end
        end
      else Some s
  end.

(** A path of the tree has no more nodes than the memory. *)
Definition rb_insert_color (node : ptr) (s : tree_st) : option tree_st :=
  s ← insert_color_loop (size (mem s)) node s;
  r ← root s;
  set_color s r RB_BLACK.

(** * Removal *)

(** The red sibling of a node that lacks a black one on its paths: the parent is rotated
    and the sibling is a black one. *)
Definition erase_red_sibling (d : side) (parent other : ptr) (s : tree_st) : option (ptr * tree_st) :=
  on ← get s other;
  if bool_decide (rb_color on = RB_RED) then
    s ← set_color s other RB_BLACK;
    s ← set_color s parent RB_RED;
    s ← __rb_rotate d parent s;
    pn ← get s parent;
    other ← child (opp d) pn;
    Some (other, s)
  else Some (other, s).

(** A near red nephew below the black sibling is rotated to be the far one. *)
Definition erase_near_nephew (d : side) (parent other : ptr) (s : tree_st) : option (ptr * tree_st) :=
  on ← get s other;
  far ← is_black s (child (opp d) on);
  if far : bool then
    s ← set_color_if s (child d on) RB_BLACK;
    s ← set_color s other RB_RED;
    s ← __rb_rotate (opp d) other s;
    pn ← get s parent;
    other ← child (opp d) pn;
    Some (other, s)
  else Some (other, s).

(** The black sibling: [true] when the loop goes on with the parent, [false] at its
    [break]. *)
Definition erase_black_sibling (d : side) (parent other : ptr) (s : tree_st) : option (bool * tree_st) :=
  on ← get s other;
  bl ← is_black s (rb_left on);
  both ← (if bl : bool then is_black s (rb_right on) else Some false);
  if both : bool then
    s ← set_color s other RB_RED;
    Some (true, s)
  else
    '(other, s) ← erase_near_nephew d parent other s;
    pn ← get s parent;
    s ← set_color s other (rb_color pn);
    s ← set_color s parent RB_BLACK;
    on ← get s other;
    s ← set_color_if s (child (opp d) on) RB_BLACK;
    s ← __rb_rotate d parent s;
    Some (false, s).

(** The loop of [__rb_erase_color]: [node] at its end. *)
Fixpoint erase_color_loop (fuel : nat) (node parent : option ptr) (s : tree_st) : option (option ptr * tree_st) :=
  black ← is_black s node;
  if black && negb (bool_decide (node = root s)) then
    match fuel with
    | O => None
    | S f =>
        parent ← parent;
        pn ← get s parent;
        let d := if bool_decide (rb_left pn = node) then Lft else Rgt in
        other ← child (opp d) pn;
        '(other, s) ← erase_red_sibling d parent other s;
        '(up, s) ← erase_black_sibling d parent other s;
        if up : bool then
          pn ← get s parent;
          erase_color_loop f (Some parent) (rb_parent pn) s
        else Some (root s, s)
    end
  else Some (node, s).

Definition __rb_erase_color (node parent : option ptr) (s : tree_st) : option tree_st :=
  '(node, s) ← erase_color_loop (size (mem s)) node parent s;
  set_color_if s node RB_BLACK.

(** [while (x->child) x = x->child]. *)
Fixpoint go_down (d : side) (fuel : nat) (s : tree_st) (x : ptr) : option ptr :=
  n ← get s x;
  match child d n with
  | None => Some x
  | Some y => match fuel with O => None | S f => go_down d f s y end
  end.

(** Taking a node with at most one child out. *)
Definition splice (s : tree_st) (node : ptr) (child_ parent : option ptr) : option tree_st :=
  s ← set_parent_if s child_ parent;
  relink Lft s parent node child_.

(** The node with two children: its successor takes its place. *)
Definition erase_two (old : ptr) (s : tree_st) : option tree_st :=
  on ← get s old;
  right ← rb_right on;
  node ← go_down Lft (size (mem s)) s right;
  n ← get s node;
  let child_ := rb_right n in
  let parent := rb_parent n in
  let color_ := rb_color n in
  s ← splice s node child_ parent;
  n ← get s node;
  let parent := if bool_decide (rb_parent n = Some old) then Some node else parent in
  on ← get s old;
  s ← put s node (fun _ => on);
  s ← relink Lft s (rb_parent on) old (Some node);
  on ← get s old;
  left ← rb_left on;
  s ← set_parent s left (Some node);
  on ← get s old;
  s ← set_parent_if s (rb_right on) (Some node);
  if bool_decide (color_ = RB_BLACK) then __rb_erase_color child_ parent s else Some s.

Definition rb_erase (node : ptr) (s : tree_st) : option tree_st :=
  n ← get s node;
  let one child_ :=
    let parent := rb_parent n in
    let color_ := rb_color n in
    s ← splice s node child_ parent;
    if bool_decide (color_ = RB_BLACK) then __rb_erase_color child_ parent s else Some s in
  match rb_left n, rb_right n with
  | None, r => one r
  | l, None => one l
  | Some _, Some _ => erase_two node s
  end.

(** * Traversal *)

Definition rb_end (d : side) (s : tree_st) : option (option ptr) :=
  match root s with
  | None => Some None
  | Some n => n ← go_down d (size (mem s)) s n; Some (Some n)
  end.
Definition rb_first : tree_st -> option (option ptr) := rb_end Lft.
Definition rb_last : tree_st -> option (option ptr) := rb_end Rgt.

(** [while (node->rb_parent && node == node->rb_parent->child) node = node->rb_parent],
    then [node->rb_parent]. *)
Fixpoint go_up (d : side) (fuel : nat) (s : tree_st) (node : ptr) : option (option ptr) :=
  n ← get s node;
  match rb_parent n with
  | None => Some None
  | Some p =>
      pn ← get s p;
      if bool_decide (child d pn = Some node)
      then match fuel with O => None | S f => go_up d f s p end
      else Some (Some p)
  end.

(** [rb_next] for [Rgt], [rb_prev] for [Lft]. *)
Definition rb_step (d : side) (node : ptr) (s : tree_st) : option (option ptr) :=
  n ← get s node;
  match child d n with
  | Some y => n ← go_down (opp d) (size (mem s)) s y; Some (Some n)
  | None => go_up d (size (mem s)) s node
  end.
Definition rb_next : ptr -> tree_st -> option (option ptr) := rb_step Rgt.
Definition rb_prev : ptr -> tree_st -> option (option ptr) := rb_step Lft.

Definition rb_replace_node (victim newnode : ptr) (s : tree_st) : option tree_st :=
  v ← get s victim;
  s ← relink Lft s (rb_parent v) victim (Some newnode);
  v ← get s victim;
  s ← set_parent_if s (rb_left v) (Some newnode);
  v ← get s victim;
  s ← set_parent_if s (rb_right v) (Some newnode);
  v ← get s victim;
  put s newnode (fun _ => v).

End Rbtree.
