(* ===== verification/RbtreeThm.v ===== *)
(** The red-black tree keeps its colours, its order and its links: the pointer
    structure is related to trees, and the operations to trees seen through a zipper. *)
From S2P Require Import Prelude Rbtree.

Module RbtreeThm.
Import Rbtree.

(** * Trees *)

Inductive tree := E | T (c : color) (l : tree) (x : ptr) (r : tree).

(** A node whose child on side [d] is [a]. *)
Definition N (d : side) (c : color) (a : tree) (x : ptr) (b : tree) : tree :=
  match d with Lft => T c a x b | Rgt => T c b x a end.

Definition rootp (t : tree) : option ptr := match t with E => None | T _ _ x _ => Some x end.
Fixpoint keys (t : tree) : list ptr := match t with E => [] | T _ l x r => keys l ++ x :: keys r end.

(** A node above a hole on side [d], with the subtree on its other side. *)
Record frame := F { f_side : side; f_color : color; f_key : ptr; f_sib : tree }.
Definition fill (f : frame) (t : tree) : tree := N (f_side f) (f_color f) t (f_key f) (f_sib f).
Fixpoint plug (k : list frame) (t : tree) : tree := match k with [] => t | f :: k' => plug k' (fill f t) end.
Definition ctxp (k : list frame) : option ptr := match k with [] => None | f :: _ => Some (f_key f) end.
Fixpoint ckeys (k : list frame) : list ptr :=
  match k with [] => [] | f :: k' => f_key f :: keys (f_sib f) ++ ckeys k' end.

(** The nodes of a tree in memory, below a parent; and those of a context, around a
    hole that is linked to [p]. *)
Fixpoint rep (m : gmap ptr rb_node) (par : option ptr) (t : tree) : Prop :=
  match t with
  | E => True
  | T c l x r => m !! x = Some (mk_rb par (rootp r) (rootp l) c) /\ rep m (Some x) l /\ rep m (Some x) r
  end.
Definition node_of (d : side) (par a b : option ptr) (c : color) : rb_node :=
  match d with Lft => mk_rb par b a c | Rgt => mk_rb par a b c end.
Fixpoint crep (m : gmap ptr rb_node) (k : list frame) (rt p : option ptr) : Prop :=
  match k with
  | [] => rt = p
  | f :: k' => m !! f_key f = Some (node_of (f_side f) (ctxp k') p (rootp (f_sib f)) (f_color f)) /\
               rep m (Some (f_key f)) (f_sib f) /\ crep m k' rt (Some (f_key f))
  end.

(** The state holds the tree [t]. *)
Record Rep (s : tree_st) (t : tree) : Prop := {
  R_rep : rep (mem s) None t; R_root : root s = rootp t; R_nodup : NoDup (keys t) }.

Lemma rep_N m par d c a x b :
  rep m par (N d c a x b) <->
  m !! x = Some (node_of d par (rootp a) (rootp b) c) /\ rep m (Some x) a /\ rep m (Some x) b.
Proof. destruct d; simpl; tauto. Qed.
Lemma rootp_N d c a x b : rootp (N d c a x b) = Some x.
Proof. by destruct d. Qed.

Lemma rep_plug m k t rt : (rep m None (plug k t) /\ rt = rootp (plug k t)) <-> (crep m k rt (rootp t) /\ rep m (ctxp k) t).
Proof.
  revert t. induction k as [|f k IH]; intros t; simpl; [tauto|]. rewrite IH. unfold fill.
  rewrite rep_N, rootp_N. tauto.
Qed.

Lemma keys_N d c a x b : keys (N d c a x b) ≡ₚ x :: keys a ++ keys b.
Proof. destruct d; simpl; [by rewrite Permutation_middle|]. rewrite <- Permutation_middle. by rewrite (Permutation_app_comm (keys b)). Qed.
Lemma keys_plug k t : keys (plug k t) ≡ₚ keys t ++ ckeys k.
Proof.
  revert t. induction k as [|f k IH]; intros t; simpl; [by rewrite app_nil_r|]. rewrite IH. unfold fill.
  rewrite keys_N. simpl. rewrite <- Permutation_middle. by rewrite app_assoc.
Qed.

(** Order of the keys. *)
Lemma plug_app j k t : plug (j ++ k) t = plug k (plug j t).
Proof. revert t. induction j; intros; simpl; auto. Qed.
Lemma keys_plug_eq k t t' : keys t = keys t' -> keys (plug k t) = keys (plug k t').
Proof.
  revert t t'. induction k as [|f k IH]; intros t t' H; [done|]. simpl. apply IH. unfold fill, N.
  destruct (f_side f); simpl; by rewrite H.
Qed.

(** What the focus holds, and that all else is apart from it. *)
Lemma Rep_focus s k t : Rep s (plug k t) <->
  crep (mem s) k (root s) (rootp t) /\ rep (mem s) (ctxp k) t /\ NoDup (keys t ++ ckeys k).
Proof.
  split.
  - intros [H1 H2 H3]. destruct (proj1 (rep_plug _ k t _) (conj H1 H2)). split_and!; [done|done|]. by rewrite <- keys_plug.
  - intros (H1 & H2 & H3). destruct (proj2 (rep_plug _ k t _) (conj H1 H2)). split; [done|done|]. by rewrite keys_plug.
Qed.

Lemma rep_frame m m' par t : (forall z, z ∈ keys t -> m' !! z = m !! z) -> rep m par t -> rep m' par t.
Proof.
  revert par. induction t as [|c l IHl x r IHr]; intros par H; [done|]. simpl in *. intros (H1 & H2 & H3).
  rewrite H by set_solver. split_and!; [done|apply IHl; [set_solver|done]|apply IHr; [set_solver|done]].
Qed.
Lemma crep_frame m m' k rt p : (forall z, z ∈ ckeys k -> m' !! z = m !! z) -> crep m k rt p -> crep m' k rt p.
Proof.
  revert p. induction k as [|f k IH]; intros p H; [done|]. simpl in *. intros (H1 & H2 & H3).
  rewrite H by set_solver. split_and!; [done|eapply rep_frame; [|done]; set_solver|apply IH; [set_solver|done]].
Qed.

(** A subtree under a new parent. *)
Lemma rep_reparent m m' par par' t :
  (forall z, z ∈ keys t -> Some z <> rootp t -> m' !! z = m !! z) -> NoDup (keys t) ->
  (forall x n, rootp t = Some x -> m !! x = Some n -> m' !! x = Some (n.[rb_parent := par'])) ->
  rep m par t -> rep m' par' t.
Proof.
  destruct t as [|c l x r]; [done|]. simpl. intros H Hnd Hx (H1 & H2 & H3). specialize (Hx x _ eq_refl H1).
  apply NoDup_app in Hnd as (N1 & N2 & N3). apply NoDup_cons in N3 as [N3 N4].
  split_and!; [done| |]; (eapply rep_frame; [|done]); intros z Hz; apply H; set_solver.
Qed.

(** * Steps *)

(** From [t] to [t']: the same keys in the same order, and the memory of no other node
    written. *)
Record moves (s : tree_st) (t : tree) (s' : tree_st) (t' : tree) : Prop := {
  M_rep : Rep s' t'; M_keys : keys t' = keys t; M_frame : forall z, z ∉ keys t -> mem s' !! z = mem s !! z }.

Lemma moves_refl s t : Rep s t -> moves s t s t.
Proof. by split. Qed.
Lemma moves_trans s1 t1 s2 t2 s3 t3 : moves s1 t1 s2 t2 -> moves s2 t2 s3 t3 -> moves s1 t1 s3 t3.
Proof.
  intros [A1 A2 A3] [B1 B2 B3]. split; [done|congruence|]. intros z Hz. rewrite B3 by by rewrite A2. by apply A3.
Qed.

Lemma get_focus s k d c a x b :
  Rep s (plug k (N d c a x b)) -> get s x = Some (node_of d (ctxp k) (rootp a) (rootp b) c).
Proof. rewrite Rep_focus, rep_N. tauto. Qed.

Lemma elem_N d c a x b z : z ∈ keys (N d c a x b) <-> z = x \/ z ∈ keys a \/ z ∈ keys b.
Proof. rewrite keys_N. set_solver. Qed.

Lemma elem_plug k t z : z ∈ keys (plug k t) <-> z ∈ keys t \/ z ∈ ckeys k.
Proof. rewrite keys_plug. set_solver. Qed.

Lemma child_node d par a b c : child d (node_of d par a b c) = a.
Proof. by destruct d. Qed.
Lemma child_opp_node d par a b c : child (opp d) (node_of d par a b c) = b.
Proof. by destruct d. Qed.

Lemma node_of_color d par a b c c' : (node_of d par a b c).[rb_color := c'] = node_of d par a b c'.
Proof. by destruct d. Qed.

Lemma recolor c' s k d c a x b : Rep s (plug k (N d c a x b)) ->
  exists s', set_color s x c' = Some s' /\ moves s (plug k (N d c a x b)) s' (plug k (N d c' a x b)).
Proof.
  intros H. pose proof (get_focus _ _ _ _ _ _ _ H) as Hg. unfold set_color, put. rewrite Hg. simpl. eexists. split; [done|].
  rewrite Rep_focus, rep_N in H. destruct H as (H1 & (H2 & H3 & H4) & Hnd).
  rewrite keys_N in Hnd. simpl in Hnd. apply NoDup_cons in Hnd as [Hx Hnd].
  rewrite !elem_of_app in Hx. rewrite node_of_color. split; simpl.
  - rewrite Rep_focus, rep_N. simpl. rewrite rootp_N in *. split_and!.
    + eapply crep_frame; [|done]. intros z Hz. apply lookup_insert_ne. set_solver.
    + by rewrite lookup_insert_eq.
    + eapply rep_frame; [|done]. intros z Hz. apply lookup_insert_ne. set_solver.
    + eapply rep_frame; [|done]. intros z Hz. apply lookup_insert_ne. set_solver.
    + rewrite keys_N. simpl. apply NoDup_cons. split; [by rewrite !elem_of_app|done].
  - apply keys_plug_eq. by destruct d.
  - intros z Hz. apply lookup_insert_ne. intros ->. apply Hz. rewrite elem_plug, elem_N. by left; left.
Qed.

Lemma keys_rotate d c e a x b y f : keys (N d e (N d c a x b) y f) = keys (N d c a x (N d e b y f)).
Proof. destruct d; simpl; by rewrite <- app_assoc. Qed.

(** The node above the hole linked to another child. *)
Lemma crep_relink d m rt k x v s : s = mk_st rt m -> crep m k rt (Some x) -> x ∉ ckeys k ->
  exists m' rt', relink d s (ctxp k) x v = Some (mk_st rt' m') /\
    (NoDup (ckeys k) -> crep m' k rt' v) /\ (forall z, Some z <> ctxp k -> m' !! z = m !! z).
Proof.
  intros -> H Hx. destruct k as [|f k]; simpl in *.
  - by exists m, v.
  - destruct H as (H1 & H2 & H3). unfold get. simpl. rewrite H1. simpl.
    assert ((if bool_decide (child d (node_of (f_side f) (ctxp k) (Some x) (rootp (f_sib f)) (f_color f)) = Some x)
              then set_child d (mk_st rt m) (f_key f) v else set_child (opp d) (mk_st rt m) (f_key f) v)
            = Some (mk_st rt (<[f_key f := node_of (f_side f) (ctxp k) v (rootp (f_sib f)) (f_color f)]> m))) as ->.
    { assert (rootp (f_sib f) <> Some x).
      { intros Er. apply Hx. right. apply elem_of_app. left. destruct (f_sib f); simpl in *; [done|]. simplify_eq. set_solver. }
      unfold set_child, put, get. simpl. rewrite H1.
      destruct d, (f_side f); simpl; (case_bool_decide; [done || congruence|congruence || done]). }
    eexists _, _. split; [done|]. split.
    + intros Hnd. apply NoDup_cons in Hnd as [Hk _]. rewrite elem_of_app in Hk. split_and!.
      * by rewrite lookup_insert_eq.
      * eapply rep_frame; [|done]. intros z Hz. apply lookup_insert_ne. set_solver.
      * eapply crep_frame; [|done]. intros z Hz. apply lookup_insert_ne. set_solver.
    + intros z Hz. apply lookup_insert_ne. congruence.
Qed.

Lemma node_of_child d par a b c v :
  (match d with Lft => (node_of d par a b c).[rb_left := v] | Rgt => (node_of d par a b c).[rb_right := v] end)
  = node_of d par v b c.
Proof. by destruct d. Qed.
Lemma node_of_opp_child d par a b c v :
  (match opp d with Lft => (node_of d par a b c).[rb_left := v] | Rgt => (node_of d par a b c).[rb_right := v] end)
  = node_of d par a v c.
Proof. by destruct d. Qed.
Lemma node_of_parent d par a b c v : (node_of d par a b c).[rb_parent := v] = node_of d v a b c.
Proof. by destruct d. Qed.
Lemma parent_node d par a b c : rb_parent (node_of d par a b c) = par.
Proof. by destruct d. Qed.
Lemma color_node d par a b c : rb_color (node_of d par a b c) = c.
Proof. by destruct d. Qed.

Lemma put_eq s x f n : mem s !! x = Some n -> put s x f = Some (mk_st (root s) (<[x := f n]> (mem s))).
Proof. intros H. unfold put, get. by rewrite H. Qed.
Lemma set_child_eq rt m d x par a b c v : m !! x = Some (node_of d par a b c) ->
  set_child d (mk_st rt m) x v = Some (mk_st rt (<[x := node_of d par v b c]> m)).
Proof. intros H. unfold set_child. rewrite (put_eq (mk_st rt m) _ _ _ H). by destruct d. Qed.
Lemma set_opp_child_eq rt m d x par a b c v : m !! x = Some (node_of d par a b c) ->
  set_child (opp d) (mk_st rt m) x v = Some (mk_st rt (<[x := node_of d par a v c]> m)).
Proof. intros H. unfold set_child. rewrite (put_eq (mk_st rt m) _ _ _ H). by destruct d. Qed.
Lemma node_parent_eq rt m d x par a b c v : m !! x = Some (node_of d par a b c) ->
  set_parent (mk_st rt m) x v = Some (mk_st rt (<[x := node_of d v a b c]> m)).
Proof. intros H. unfold set_parent. rewrite (put_eq (mk_st rt m) _ _ _ H). by destruct d. Qed.

Lemma rootp_elem t x : rootp t = Some x -> x ∈ keys t.
Proof. destruct t; simpl; [done|]. intros. simplify_eq. set_solver. Qed.

(** [if (x) x->rb_parent = v] on the root of a subtree. *)
Lemma set_parent_if_spec s t par v : rep (mem s) par t -> NoDup (keys t) ->
  exists m', set_parent_if s (rootp t) v = Some (mk_st (root s) m') /\ rep m' v t /\
    (forall z, z ∉ keys t -> m' !! z = mem s !! z).
Proof.
  intros H Hnd. destruct t as [|c l x r]; [exists (mem s); by destruct s|].
  simpl rootp. unfold set_parent_if, set_parent, put, get. pose proof H as (Hx & _). rewrite Hx. simpl mbind.
  eexists. split; [done|]. split.
  - eapply rep_reparent; [..|done]; simpl.
    + intros z Hz Hne. apply lookup_insert_ne. congruence.
    + done.
    + intros x' n [= <-] Hx'. rewrite lookup_insert_eq. rewrite Hx in Hx'. by simplify_eq.
  - intros z Hz. apply lookup_insert_ne. intros ->. apply Hz. simpl. set_solver.
Qed.

Lemma rotate_ok d s k c e a x b y f : Rep s (plug k (N d c a x (N d e b y f))) ->
  exists s', __rb_rotate d x s = Some s' /\
    moves s (plug k (N d c a x (N d e b y f))) s' (plug k (N d e (N d c a x b) y f)).
Proof.
  intros H. pose proof H as HR. rewrite Rep_focus, !rep_N, !rootp_N in H. destruct H as (Hk & (Hx & Ha & (Hy & Hb & Hf)) & Hnd).
  rewrite !keys_N in Hnd. simpl in Hnd.
  assert (NoDup (x :: y :: keys a ++ keys b ++ keys f ++ ckeys k)) as Hnd'.
  { eapply NoDup_Permutation_proper; [|exact Hnd]. constructor. rewrite <- Permutation_middle. simpl. by rewrite <- !app_assoc. }
  clear Hnd. apply NoDup_cons in Hnd' as [Hnx Hnd]. apply NoDup_cons in Hnd as [Hny Hnd].
  apply NoDup_app in Hnd as (Na & Dab & Hnd). apply NoDup_app in Hnd as (Nb & Dbf & Hnd). apply NoDup_app in Hnd as (Nf & Dfk & Nk).
  assert (x <> y) as Hxy by set_solver.
  destruct s as [rt m]. cbn [root mem] in *. unfold __rb_rotate, get. cbn [root mem].
  rewrite Hx. cbn [mbind option_bind]. rewrite child_opp_node. cbn [mbind option_bind].
  rewrite Hy. cbn [mbind option_bind]. rewrite child_node, (set_opp_child_eq _ _ _ _ _ _ _ _ _ Hx). cbn [mbind option_bind].
  set (m1 := <[x := _]> m).
  assert (forall z, z <> x -> m1 !! z = m !! z) as E1 by (intros; by apply lookup_insert_ne).
  destruct (set_parent_if_spec (mk_st rt m1) b (Some y) (Some x)) as (m2 & -> & Rb & E2); [|done|].
  { eapply rep_frame; [|exact Hb]. intros z Hz. apply E1. set_solver. }
  cbn [mbind option_bind root mem] in *.
  assert (m2 !! y = Some (node_of d (Some x) (rootp b) (rootp f) e)) as H2y by (rewrite E2, E1 by set_solver; done).
  rewrite (set_child_eq _ _ _ _ _ _ _ _ _ H2y). cbn [mbind option_bind mem].
  rewrite lookup_insert_ne, (E2 x) by set_solver. unfold m1 at 1. rewrite lookup_insert_eq.
  cbn [mbind option_bind]. rewrite parent_node. erewrite node_parent_eq by apply lookup_insert_eq. cbn [mbind option_bind].
  rewrite insert_insert_eq. set (m3 := <[y := _]> m2).
  assert (forall z, z <> x -> z <> y -> z ∉ keys b -> m3 !! z = m !! z) as E3.
  { intros z Hzx Hzy Hzb. unfold m3. rewrite lookup_insert_ne by done. rewrite E2, E1 by done. done. }
  destruct (crep_relink d m3 rt k x (Some y) _ eq_refl) as (m4 & rt' & -> & Hk' & E4).
  { eapply crep_frame; [|exact Hk]. intros z Hz. apply E3; set_solver. }
  { set_solver. }
  cbn [mbind option_bind].
  assert (forall z, z ∉ ckeys k -> m4 !! z = m3 !! z) as E4'.
  { intros z Hz. apply E4. destruct k as [|fr k]; simpl in *; [done|]. set_solver. }
  assert (m4 !! x = Some (node_of d (ctxp k) (rootp a) (rootp b) c)) as H4x.
  { rewrite E4' by set_solver. unfold m3. rewrite lookup_insert_ne by done. rewrite E2 by set_solver. unfold m1. by rewrite lookup_insert_eq. }
  rewrite (node_parent_eq _ _ _ _ _ _ _ _ _ H4x). eexists. split; [done|]. split.
  - rewrite Rep_focus, !rep_N, !rootp_N. cbn [root mem]. split_and!.
    + eapply crep_frame; [|by apply Hk']. intros z Hz. apply lookup_insert_ne. set_solver.
    + rewrite lookup_insert_ne by done. rewrite E4' by set_solver. unfold m3. by rewrite lookup_insert_eq.
    + by rewrite lookup_insert_eq.
    + eapply rep_frame; [|exact Ha]. intros z Hz. rewrite lookup_insert_ne, E4', E3 by set_solver. done.
    + eapply rep_frame; [|exact Rb]. intros z Hz. rewrite lookup_insert_ne, E4' by set_solver. unfold m3. apply lookup_insert_ne. set_solver.
    + eapply rep_frame; [|exact Hf]. intros z Hz. rewrite lookup_insert_ne, E4', E3 by set_solver. done.
    + pose proof (R_nodup _ _ HR) as Hall. rewrite keys_plug in Hall. by rewrite keys_rotate.
  - apply keys_plug_eq, keys_rotate.
  - intros z Hz. rewrite elem_plug, !elem_N in Hz. cbn [mem].
    rewrite lookup_insert_ne, E4', E3 by set_solver. done.
Qed.

(** * Colours *)

(** [rb c n t]: the root of [t] has colour [c], no red node has a red child, and [n]
    black nodes lie on every path. *)
Inductive rb : color -> nat -> tree -> Prop :=
| rb_E : rb RB_BLACK 0 E
| rb_R n l x r : rb RB_BLACK n l -> rb RB_BLACK n r -> rb RB_RED n (T RB_RED l x r)
| rb_B n c1 c2 l x r : rb c1 n l -> rb c2 n r -> rb RB_BLACK (S n) (T RB_BLACK l x r).
Definition is_rb (t : tree) : Prop := exists n, rb RB_BLACK n t.

(** A context whose hole takes a tree with [n] black nodes on its paths, below a node of
    colour [oc]; the root is not red. *)
Inductive cok : nat -> list frame -> option color -> Prop :=
| cok_nil n : cok n [] None
| cok_B n d x sib k c oc : rb c n sib -> cok (S n) k oc -> cok n (F d RB_BLACK x sib :: k) (Some RB_BLACK)
| cok_R n d x sib k : rb RB_BLACK n sib -> cok n k (Some RB_BLACK) -> cok n (F d RB_RED x sib :: k) (Some RB_RED).

Definition compat (oc : option color) (c : color) : Prop :=
  match oc with Some RB_BLACK => True | _ => c = RB_BLACK end.

Lemma rb_NR d n a x b : rb RB_BLACK n a -> rb RB_BLACK n b -> rb RB_RED n (N d RB_RED a x b).
Proof. destruct d; by constructor. Qed.
Lemma rb_NB d n c1 c2 a x b : rb c1 n a -> rb c2 n b -> rb RB_BLACK (S n) (N d RB_BLACK a x b).
Proof. destruct d; econstructor; eassumption. Qed.
Lemma rb_N_inv d c0 c n a x b : rb c0 n (N d c a x b) -> c0 = c /\
  match c with
  | RB_RED => rb RB_BLACK n a /\ rb RB_BLACK n b
  | RB_BLACK => exists n' c1 c2, n = S n' /\ rb c1 n' a /\ rb c2 n' b
  end.
Proof. destruct d; inversion 1; subst; split; eauto 7. Qed.

Lemma plug_rb n k oc c t : cok n k oc -> rb c n t -> compat oc c -> is_rb (plug k t).
Proof.
  intros Hk. revert c t. induction Hk as [n|n d x sib k c' oc Hs Hk IH|n d x sib k Hs Hk IH]; intros c t Ht Hc; simpl in *.
  - subst. by exists n.
  - eapply IH; [by eapply rb_NB|]. destruct oc as [[]|]; done.
  - subst. eapply IH; [by apply rb_NR|done].
Qed.

Lemma plug_rb_inv k : forall N t, rb RB_BLACK N (plug k t) -> exists n c oc, rb c n t /\ cok n k oc /\ compat oc c.
Proof.
  induction k as [|[d c x sib] k IH]; intros M t H; simpl in *.
  - exists M, RB_BLACK, None. split_and!; [done|constructor|done].
  - destruct (IH _ _ H) as (n & c0 & oc & Hn & Hk & Hc). unfold fill in Hn. simpl in Hn.
    apply rb_N_inv in Hn as [-> Hn]. destruct c.
    + destruct Hn as [Ha Hb]. exists n, RB_BLACK, (Some RB_RED). split_and!; [done| |done]. constructor; [done|].
      destruct oc as [[]|]; simpl in Hc; done.
    + destruct Hn as (n' & c1 & c2 & -> & Ha & Hb). exists n', c1, (Some RB_BLACK). split_and!; [done| |done].
      by econstructor.
Qed.

Lemma rb_black_inv n t : rb RB_BLACK n t -> (t = E /\ n = 0%nat) \/ exists l x r n', t = T RB_BLACK l x r /\ n = S n'.
Proof. inversion 1; subst; eauto 8. Qed.
Lemma rb_S_inv c n t : rb c (S n) t -> exists l x r, t = T c l x r.
Proof. inversion 1; subst; eauto. Qed.
Lemma T_N d c l x r : exists a b, T c l x r = N d c a x b.
Proof. destruct d; simpl; eauto. Qed.

(** A tree that is not coloured red at its root is left as it is. *)
Lemma is_black_spec s par t c n : rep (mem s) par t -> rb c n t -> is_black s (rootp t) = Some (bool_decide (c = RB_BLACK)).
Proof.
  intros Hr Hb. destruct Hb; simpl; [done|..]; unfold get; destruct Hr as [-> _]; done.
Qed.

(** * Insertion *)

Lemma N_opp d c a x b : N (opp d) c a x b = N d c b x a.
Proof. by destruct d. Qed.
Lemma opp_opp d : opp (opp d) = d.
Proof. by destruct d. Qed.
Lemma plug_opp d c x a k t : plug (F (opp d) c x a :: k) t = plug k (N d c a x t).
Proof. by destruct d. Qed.

Lemma insert_loop_exit f s x n p pn :
  get s x = Some n -> rb_parent n = Some p -> get s p = Some pn -> rb_color pn = RB_BLACK ->
  insert_color_loop f x s = Some s.
Proof. intros H1 H2 H3 H4. destruct f; simpl; rewrite H1; simpl; rewrite H2, H3; simpl; by rewrite H4. Qed.

Lemma side_of d par p o c : o <> p ->
  (if bool_decide (rb_left (node_of d par p o c) = p) then Lft else Rgt) = d.
Proof. destruct d; simpl; intros; by case_bool_decide. Qed.

(** The roots of disjoint subtrees differ. *)
Lemma rootp_ne t t' x : NoDup (keys t ++ keys t') -> rootp t = Some x -> rootp t' <> rootp t.
Proof.
  intros Hnd Ht E. rewrite Ht in E. apply NoDup_app in Hnd as (_ & H & _).
  apply (H x); by apply rootp_elem.
Qed.

Lemma Rep_nodup s k t : Rep s (plug k t) -> NoDup (keys t).
Proof. intros H. apply Rep_focus in H as (_ & _ & H). by apply NoDup_app in H as (? & _). Qed.

Lemma Rep_sib s k d c a x b y : Rep s (plug k (N d c a x b)) -> rootp a = Some y -> rootp b <> Some y.
Proof.
  intros H Ha. apply Rep_nodup in H. rewrite keys_N in H. apply NoDup_cons in H as [_ H].
  rewrite <- Ha. by eapply rootp_ne.
Qed.

(** Read a context as part of the tree. *)
Ltac zip M := cbn [plug] in M; unfold fill in M; cbn [f_side f_color f_key f_sib] in M.

(** The child on side [opp d] of a node is moved like the one on side [d]. *)
Lemma recolor_opp c' s k d c a x d1 c1 a1 x1 b1 : Rep s (plug k (N d c a x (N d1 c1 a1 x1 b1))) ->
  exists s', set_color s x1 c' = Some s' /\
    moves s (plug k (N d c a x (N d1 c1 a1 x1 b1))) s' (plug k (N d c a x (N d1 c' a1 x1 b1))).
Proof. rewrite <- !(plug_opp d). apply recolor. Qed.

(** Red below a black node: the sibling is black, one or two rotations. *)
Lemma insert_rotate s k d d1 n l x r p sib g u oc f :
  Rep s (plug k (N d RB_BLACK (N d1 RB_RED (T RB_RED l x r) p sib) g u)) ->
  rb RB_BLACK n l -> rb RB_BLACK n r -> rb RB_BLACK n sib -> rb RB_BLACK n u -> cok (S n) k oc ->
  exists s' t',
    ('(parent, node, s) ←
        (if bool_decide (child (opp d) (node_of d1 (Some g) (Some x) (rootp sib) RB_RED) = Some x)
         then s ← __rb_rotate d p s; Some (x, p, s) else Some (p, x, s));
      s ← set_color s parent RB_BLACK; s ← set_color s g RB_RED; s ← __rb_rotate (opp d) g s;
      insert_color_loop f node s) = Some s' /\
    moves s (plug k (N d RB_BLACK (N d1 RB_RED (T RB_RED l x r) p sib) g u)) s' t' /\ is_rb t'.
Proof.
  intros H Hl Hr Hs Hu Hk.
  (* after the inner rotation, if any *)
  assert (exists s1 p1 x1 a b e, 
    (if bool_decide (child (opp d) (node_of d1 (Some g) (Some x) (rootp sib) RB_RED) = Some x)
     then s ← __rb_rotate d p s; Some (x, p, s) else Some (p, x, s)) = Some (p1, x1, s1) /\
    moves s (plug k (N d RB_BLACK (N d1 RB_RED (T RB_RED l x r) p sib) g u))
          s1 (plug k (N d RB_BLACK (N d RB_RED (N d RB_RED a x1 b) p1 e) g u)) /\
    rb RB_BLACK n a /\ rb RB_BLACK n b /\ rb RB_BLACK n e) as (s1 & p1 & x1 & a & b & e & -> & M1 & Ha & Hb & He).
  { assert (rb RB_RED n (T RB_RED l x r)) as Hx by by constructor.
    destruct (T_N d RB_RED l x r) as (a & b & Ex). rewrite Ex in *. apply rb_N_inv in Hx as [_ [Ha Hb]].
    assert (rootp sib <> Some x) as Hne.
    { eapply (Rep_sib s (F d RB_BLACK g u :: k) d1); [exact H|apply rootp_N]. }
    assert (d1 = d \/ d1 = opp d) as [->| ->] by (destruct d, d1; auto).
    - rewrite child_opp_node, bool_decide_eq_false_2 by done.
      exists s, p, x, a, b, sib. split_and!; [done|by apply moves_refl|done..].
    - rewrite child_node, bool_decide_eq_true_2 by done.
      rewrite N_opp in *. destruct (rotate_ok d s (F d RB_BLACK g u :: k) _ _ _ _ _ _ _ H) as (s1 & E1 & M1).
      rewrite E1. exists s1, x, p, sib, a, b. split_and!; [done|exact M1|done..]. }
  cbn [mbind option_bind].
  destruct (recolor RB_BLACK s1 (F d RB_BLACK g u :: k) _ _ _ _ _ (M_rep _ _ _ _ M1)) as (s2 & -> & M2). zip M2. cbn [mbind option_bind].
  destruct (recolor RB_RED s2 k _ _ _ _ _ (M_rep _ _ _ _ M2)) as (s3 & -> & M3). cbn [mbind option_bind].
  pose proof (M_rep _ _ _ _ M3) as R3. rewrite <- (N_opp d RB_RED) in R3. rewrite <- (N_opp d RB_BLACK) in R3.
  destruct (rotate_ok (opp d) s3 k _ _ _ _ _ _ _ R3) as (s4 & -> & M4). cbn [mbind option_bind].
  rewrite !N_opp in M4. pose proof (M_rep _ _ _ _ M4) as R4.
  rewrite (insert_loop_exit f s4 x1 _ p1 _
    (get_focus s4 (F d RB_BLACK p1 (N d RB_RED e g u) :: k) _ _ _ _ _ R4) (parent_node _ _ _ _ _)
    (get_focus _ _ _ _ _ _ _ R4) (color_node _ _ _ _ _)).
  eexists s4, _. split; [done|]. split.
  - eapply moves_trans; [exact M1|]. eapply moves_trans; [exact M2|]. eapply moves_trans; [exact M3|exact M4].
  - eapply plug_rb; [exact Hk| |destruct oc as [[]|]; done]. eapply rb_NB; by apply rb_NR.
Qed.

(** A red uncle: three nodes change colour. *)
Lemma insert_recolor s k d d1 n l x r p sib g lu xu ru :
  Rep s (plug k (N d RB_BLACK (N d1 RB_RED (T RB_RED l x r) p sib) g (T RB_RED lu xu ru))) ->
  rb RB_BLACK n l -> rb RB_BLACK n r -> rb RB_BLACK n sib -> rb RB_RED n (T RB_RED lu xu ru) ->
  exists s' l' r', (s ← set_color s xu RB_BLACK; s ← set_color s p RB_BLACK; set_color s g RB_RED) = Some s' /\
    moves s (plug k (N d RB_BLACK (N d1 RB_RED (T RB_RED l x r) p sib) g (T RB_RED lu xu ru)))
          s' (plug k (T RB_RED l' g r')) /\ rb RB_BLACK (S n) l' /\ rb RB_BLACK (S n) r'.
Proof.
  intros H Hl Hr Hs Hu. destruct (T_N d RB_RED lu xu ru) as (au & bu & Eu). rewrite Eu in *.
  apply rb_N_inv in Hu as [_ [Hau Hbu]].
  destruct (recolor_opp RB_BLACK s k d RB_BLACK _ g d _ _ _ _ H) as (s1 & -> & M1). cbn [mbind option_bind].
  destruct (recolor RB_BLACK s1 (F d RB_BLACK g (N d RB_BLACK au xu bu) :: k) _ _ _ _ _ (M_rep _ _ _ _ M1)) as (s2 & -> & M2). zip M2.
  cbn [mbind option_bind].
  destruct (recolor RB_RED s2 k _ _ _ _ _ (M_rep _ _ _ _ M2)) as (s3 & -> & M3).
  assert (rb RB_BLACK (S n) (N d1 RB_BLACK (T RB_RED l x r) p sib)) by (eapply rb_NB; [by constructor|done]).
  assert (rb RB_BLACK (S n) (N d RB_BLACK au xu bu)) by by eapply rb_NB.
  pose proof (moves_trans _ _ _ _ _ _ M1 (moves_trans _ _ _ _ _ _ M2 M3)) as M.
  destruct d; [exists s3, (N d1 RB_BLACK (T RB_RED l x r) p sib), (N Lft RB_BLACK au xu bu)
              |exists s3, (N Rgt RB_BLACK au xu bu), (N d1 RB_BLACK (T RB_RED l x r) p sib)];
    (split_and!; [done|exact M|done..]).
Qed.

Lemma insert_loop_ok : forall fuel k s n oc l x r,
  Rep s (plug k (T RB_RED l x r)) -> rb RB_BLACK n l -> rb RB_BLACK n r -> cok n k oc -> (length k <= fuel)%nat ->
  exists s' t', insert_color_loop fuel x s = Some s' /\ moves s (plug k (T RB_RED l x r)) s' t' /\ exists c n', rb c n' t'.
Proof.
  induction fuel as [|fuel IH]; intros k s n oc l x r H Hl Hr Hk Hlen.
  { destruct k; simpl in Hlen; [|lia]. exists s, (T RB_RED l x r). pose proof (get_focus s [] Lft _ _ _ _ H) as Hg. simpl in Hg.
    simpl. rewrite Hg. simpl. split_and!; [done|by apply moves_refl|]. exists RB_RED, n. by constructor. }
  pose proof (get_focus s k Lft _ _ _ _ H) as Hg. inversion Hk as [n0|n0 d p sib k' c oc' Hs Hk'|n0 d1 p sib k' Hs Hk']; subst.
  - exists s, (T RB_RED l x r). simpl. rewrite Hg. simpl. split_and!; [done|by apply moves_refl|]. exists RB_RED, n. by constructor.
  - pose proof (get_focus s k' _ _ _ _ _ H) as Hp. simpl in Hp.
    rewrite (insert_loop_exit _ s x _ p _ Hg eq_refl Hp (color_node _ _ _ _ _)). eexists s, _.
    split_and!; [done|by apply moves_refl|]. destruct (plug_rb n _ _ RB_RED (T RB_RED l x r) Hk) as [n' Hn']; [by constructor|done|].
    by exists RB_BLACK, n'.
  - inversion Hk' as [|n0 d g u k c oc' Hu Hk2|]; subst. zip H.
    pose proof (get_focus s (F d RB_BLACK g u :: k) d1 _ _ _ _ H) as Hp.
    pose proof (get_focus s k d _ _ _ _ H) as Hgp. rewrite rootp_N in Hgp.
    assert (rootp u <> Some p) as Hne by (eapply Rep_sib; [exact H|apply rootp_N]).
    simpl insert_color_loop. rewrite Hg. cbn [mbind option_bind node_of rb_parent ctxp f_key]. rewrite Hp. cbn [mbind option_bind].
    rewrite color_node, bool_decide_eq_true_2 by done. rewrite parent_node. cbn [mbind option_bind ctxp f_key].
    rewrite Hgp. cbn [mbind option_bind]. rewrite side_of by done. rewrite child_opp_node.
    assert (is_black s (rootp u) = Some (bool_decide (c = RB_BLACK))) as ->.
    { apply Rep_focus in H as (_ & H & _). rewrite rep_N in H. destruct H as (_ & _ & H). by eapply is_black_spec. }
    cbn [mbind option_bind]. destruct c.
    + inversion Hu; subst. cbn [rootp bool_decide].
      edestruct (insert_recolor s k d d1 n) as (s1 & l' & r' & E1 & M1 & Hl' & Hr'); [exact H|done..|].
      change (bool_decide (RB_RED = RB_BLACK)) with false. cbv iota.
      destruct (set_color s x0 RB_BLACK) as [sa|]; [|done]. cbn [mbind option_bind] in *.
      destruct (set_color sa p RB_BLACK) as [sb|]; [|done]. cbn [mbind option_bind] in *. rewrite E1. cbn [mbind option_bind].
      destruct (IH k s1 (S n) oc' l' g r' (M_rep _ _ _ _ M1) Hl' Hr' Hk2) as (s2 & t2 & E2 & M2 & Ht2); [simpl in Hlen; lia|].
      exists s2, t2. split_and!; [done|by eapply moves_trans|done].
    + change (bool_decide (RB_BLACK = RB_BLACK)) with true.
      destruct (insert_rotate s k d d1 n l x r p sib g u oc' fuel H) as (s1 & t1 & E1 & M1 & [n1 Ht1]); [done..|].
      exists s1, t1. cbn [rootp] in E1 |- *.
      split_and!; [destruct (rootp u); exact E1|exact M1|by exists RB_BLACK, n1].
Qed.

Lemma rep_dom m par t z : rep m par t -> z ∈ keys t -> is_Some (m !! z).
Proof.
  revert par. induction t as [|c l IHl x r IHr]; intros par; simpl; [set_solver|]. intros (H1 & H2 & H3) Hz.
  apply elem_of_app in Hz as [Hz|Hz]; [eauto|]. apply elem_of_cons in Hz as [->|Hz]; eauto.
Qed.

(** The memory is enough fuel: a path has distinct nodes. *)
Lemma Rep_size s t : Rep s t -> (length (keys t) <= size (mem s))%nat.
Proof.
  intros [H1 _ H3]. rewrite <- size_dom. rewrite <- (size_list_to_set (C := gset Z)) by done. apply subseteq_size.
  intros z Hz. apply elem_of_list_to_set in Hz. apply elem_of_dom. by eapply rep_dom.
Qed.
Lemma ctx_size s k t : Rep s (plug k t) -> (length k <= size (mem s))%nat.
Proof.
  intros H. apply Rep_size in H. rewrite (Permutation_length (keys_plug k t)), length_app in H.
  enough (length k <= length (ckeys k))%nat by lia. clear. induction k; simpl; [lia|]. rewrite length_app. lia.
Qed.

(** Colouring the root black. *)
Lemma blacken s t c n : Rep s t -> rb c n t -> exists s' t', set_color_if s (root s) RB_BLACK = Some s' /\
  moves s t s' t' /\ is_rb t'.
Proof.
  intros H Ht. rewrite (R_root _ _ H). inversion Ht as [|n0 l x r Hl Hr|n0 c1 c2 l x r Hl Hr]; subst; simpl rootp.
  - exists s, E. split_and!; [done|by apply moves_refl|]. by exists 0%nat.
  - destruct (recolor RB_BLACK s [] Lft _ _ _ _ H) as (s' & E' & M). exists s', (T RB_BLACK l x r).
    split_and!; [exact E'|exact M|]. exists (S n). by econstructor.
  - destruct (recolor RB_BLACK s [] Lft _ _ _ _ H) as (s' & E' & M). exists s', (T RB_BLACK l x r).
    split_and!; [exact E'|exact M|]. exists (S n0). by econstructor.
Qed.

Lemma insert_color_ok s k l x r n oc :
  Rep s (plug k (T RB_RED l x r)) -> rb RB_BLACK n l -> rb RB_BLACK n r -> cok n k oc ->
  exists s' t', rb_insert_color x s = Some s' /\ moves s (plug k (T RB_RED l x r)) s' t' /\ is_rb t'.
Proof.
  intros H Hl Hr Hk. unfold rb_insert_color.
  destruct (insert_loop_ok (size (mem s)) k s n oc l x r H Hl Hr Hk) as (s1 & t1 & -> & M1 & c & n1 & Ht1); [by eapply ctx_size|].
  cbn [mbind option_bind]. destruct (blacken s1 t1 c n1 (M_rep _ _ _ _ M1) Ht1) as (s2 & t2 & E2 & M2 & Hb).
  exists s2, t2. split_and!; [|by eapply moves_trans|done].
  destruct (root s1) as [rt|] eqn:Er; [exact E2|]. exfalso. pose proof (R_root _ _ (M_rep _ _ _ _ M1)) as E1. rewrite Er in E1.
  destruct t1; [|done]. pose proof (M_keys _ _ _ _ M1) as Ek. simpl in Ek.
  assert (x ∈ keys (plug k (T RB_RED l x r))) as Hx by (rewrite elem_plug; simpl; set_solver). rewrite <- Ek in Hx. set_solver.
Qed.

(** The link that [rb_link_node] is given for a hole. *)
Definition link_of (k : list frame) : option (side * ptr) :=
  match k with [] => None | f :: _ => Some (f_side f, f_key f) end.

Lemma link_node_ok s k x : Rep s (plug k E) -> x ∉ keys (plug k E) -> is_Some (mem s !! x) ->
  exists s', rb_link_node s x (ctxp k) (link_of k) = Some s' /\ Rep s' (plug k (T RB_RED E x E)) /\
    forall z, z <> x -> z ∉ keys (plug k E) -> mem s' !! z = mem s !! z.
Proof.
  intros H Hx [nx Hnx]. pose proof H as HR. apply Rep_focus in H as (Hk & _ & Hnd). simpl in Hnd. rewrite elem_plug in Hx.
  destruct s as [rt m]. cbn [root mem] in *. unfold rb_link_node. rewrite (put_eq (mk_st rt m) x _ nx Hnx). cbn [mbind option_bind root mem].
  set (m1 := <[x := _]> m).
  assert (crep m1 k rt None) as Hk1 by (eapply crep_frame; [|exact Hk]; intros z Hz; apply lookup_insert_ne; set_solver).
  destruct k as [|[d c y sib] k]; simpl.
  - eexists. split; [done|]. split; [|intros; by apply lookup_insert_ne]. apply (Rep_focus _ []). simpl. split_and!; try done.
    + unfold m1. by rewrite lookup_insert_eq.
    + by repeat constructor; set_solver.
  - destruct Hk1 as (Hy & Hs & Hk1). simpl in Hy, Hs, Hnd, Hx. rewrite (set_child_eq rt m1 d y _ _ _ _ _ Hy). eexists. split; [done|].
    split; [|intros z H1 H2; zip H2; rewrite elem_plug, elem_N in H2; unfold m1; cbn [mem]; rewrite !lookup_insert_ne by naive_solver; done].
    apply (Rep_focus _ (F d c y sib :: k)). simpl. split_and!; [|eapply rep_frame; [|done]|eapply crep_frame; [|done]|..|done|done|].
    + by rewrite lookup_insert_eq.
    + intros z Hz. apply lookup_insert_ne. apply NoDup_cons in Hnd as [Hnd _]. set_solver.
    + intros z Hz. apply lookup_insert_ne. apply NoDup_cons in Hnd as [Hnd _]. set_solver.
    + rewrite lookup_insert_ne by set_solver. unfold m1. by rewrite lookup_insert_eq.
    + apply NoDup_cons. split; [set_solver|done].
Qed.

(** * Removal: colours *)

Lemma red_sibling_ok s k d c t p sib cs n other :
  Rep s (plug k (N d c t p sib)) -> rb cs (S n) sib -> cok (S n) (F d c p sib :: k) (Some c) -> rootp sib = Some other ->
  exists other' s' k' c' sib', erase_red_sibling d p other s = Some (other', s') /\
    moves s (plug k (N d c t p sib)) s' (plug k' (N d c' t p sib')) /\ rootp sib' = Some other' /\
    rb RB_BLACK (S n) sib' /\ cok (S n) (F d c' p sib' :: k') (Some c') /\ (k' = k \/ c' = RB_RED).
Proof.
  intros H Hs Hk Ho. destruct (rb_S_inv _ _ _ Hs) as (l & y & r & ->). simpl in Ho. simplify_eq.
  destruct (T_N d cs l other r) as (a & b & Eo). rewrite Eo in *.
  pose proof (get_focus s (F (opp d) c p t :: k) d cs a other b) as Hg. rewrite plug_opp in Hg. specialize (Hg H).
  unfold erase_red_sibling. rewrite Hg. cbn [mbind option_bind]. rewrite color_node. destruct cs.
  - rewrite bool_decide_eq_true_2 by done. apply rb_N_inv in Hs as [_ [Ha Hb]].
    inversion Hk as [|n0 d0 x0 sib0 k0 c0 oc0 _ Hk0|n0 d0 x0 sib0 k0 Hs0 _]; subst; [|by apply rb_N_inv in Hs0 as [? _]].
    destruct (recolor_opp RB_BLACK s k d _ _ _ d _ _ _ _ H) as (s1 & -> & M1). cbn [mbind option_bind].
    destruct (recolor RB_RED s1 k _ _ _ _ _ (M_rep _ _ _ _ M1)) as (s2 & -> & M2). cbn [mbind option_bind].
    destruct (rotate_ok d s2 k _ _ _ _ _ _ _ (M_rep _ _ _ _ M2)) as (s3 & -> & M3). cbn [mbind option_bind].
    pose proof (get_focus s3 (F d RB_BLACK other b :: k) d _ _ _ _ (M_rep _ _ _ _ M3)) as Hp. rewrite Hp.
    cbn [mbind option_bind]. rewrite child_opp_node. destruct (rb_S_inv _ _ _ Ha) as (la & ya & ra & ->). cbn [rootp mbind option_bind].
    exists ya, s3, (F d RB_BLACK other b :: k), RB_RED, (T RB_BLACK la ya ra). split_and!; [done| |done|done| |by right].
    + eapply moves_trans; [exact M1|]. eapply moves_trans; [exact M2|exact M3].
    + constructor; [done|]. by econstructor.
  - rewrite bool_decide_eq_false_2 by done. exists other, s, k, c, (N d RB_BLACK a other b). split_and!; [done|by apply moves_refl|apply rootp_N|done|done|by left].
Qed.

(** Whether both children of the sibling are black. *)
Lemma both_black s d par a b y c ca cb n :
  rep (mem s) (Some y) a -> rep (mem s) (Some y) b -> rb ca n a -> rb cb n b ->
  let on := node_of d par (rootp a) (rootp b) c in
  (bl ← is_black s (rb_left on); if bl : bool then is_black s (rb_right on) else Some false)
  = Some (bool_decide (ca = RB_BLACK /\ cb = RB_BLACK)).
Proof.
  intros Ha Hb Ra Rb. pose proof (is_black_spec _ _ _ _ _ Ha Ra) as E1. pose proof (is_black_spec _ _ _ _ _ Hb Rb) as E2.
  destruct d; simpl; rewrite ?E1, ?E2; cbn [mbind option_bind]; destruct ca, cb; simpl; rewrite ?E1, ?E2; done.
Qed.

Lemma near_nephew_ok s k d c t p a other b ca cb n :
  Rep s (plug k (N d c t p (N d RB_BLACK a other b))) -> rb ca n a -> rb cb n b -> ~ (ca = RB_BLACK /\ cb = RB_BLACK) ->
  exists other' s' a' b' ca', erase_near_nephew d p other s = Some (other', s') /\
    moves s (plug k (N d c t p (N d RB_BLACK a other b))) s' (plug k (N d c t p (N d RB_BLACK a' other' b'))) /\
    rb ca' n a' /\ rb RB_RED n b'.
Proof.
  intros H Ha Hb Hnot. pose proof H as H'. rewrite <- plug_opp in H'.
  pose proof (get_focus s _ d _ _ _ _ H') as Hg. unfold erase_near_nephew. rewrite Hg. cbn [mbind option_bind].
  rewrite child_opp_node, child_node. apply Rep_focus in H' as (_ & H' & _). rewrite rep_N in H'. destruct H' as (_ & Hra & Hrb).
  rewrite (is_black_spec _ _ _ _ _ Hrb Hb). cbn [mbind option_bind]. destruct cb.
  - rewrite bool_decide_eq_false_2 by done. exists other, s, a, b, ca. split_and!; [done|by apply moves_refl|done..].
  - rewrite bool_decide_eq_true_2 by done. destruct ca; [|by destruct Hnot].
    inversion Ha as [|n0 l y r Hl Hr|]; subst. destruct (T_N d RB_RED l y r) as (a1 & a2 & Ea). rewrite Ea in *.
    apply rb_N_inv in Ha as [_ [Ha1 Ha2]]. rewrite rootp_N. cbn [set_color_if].
    rewrite <- plug_opp in H.
    destruct (recolor RB_BLACK s (F d RB_BLACK other b :: F (opp d) c p t :: k) _ _ _ _ _ H) as (s1 & -> & M1). zip M1. cbn [mbind option_bind].
    destruct (recolor RB_RED s1 (F (opp d) c p t :: k) d _ _ _ _ (M_rep _ _ _ _ M1)) as (s2 & -> & M2). cbn [mbind option_bind].
    pose proof (M_rep _ _ _ _ M2) as R2. rewrite <- (N_opp d RB_RED) in R2. rewrite <- (N_opp d RB_BLACK) in R2.
    destruct (rotate_ok (opp d) s2 (F (opp d) c p t :: k) _ _ _ _ _ _ _ R2) as (s3 & -> & M3). cbn [mbind option_bind].
    rewrite !(N_opp d RB_RED), !(N_opp d RB_BLACK) in M3. 
    pose proof (moves_trans _ _ _ _ _ _ M1 (moves_trans _ _ _ _ _ _ M2 M3)) as M. zip M. rewrite !(N_opp d c) in M.
    pose proof (get_focus s3 k d _ _ _ _ (M_rep _ _ _ _ M)) as Hp. rewrite Hp. cbn [mbind option_bind].
    rewrite child_opp_node, rootp_N. cbn [mbind option_bind].
    exists y, s3, a1, (N d RB_RED a2 other b), RB_BLACK. split_and!; [done|exact M|done|by apply rb_NR].
Qed.

Lemma black_sibling_ok s k d c t p a other b ca cb n :
  Rep s (plug k (N d c t p (N d RB_BLACK a other b))) -> rb RB_BLACK n t -> rb ca n a -> rb cb n b ->
  (exists n' oc, (c = RB_RED -> cok (S n) k oc /\ compat oc RB_RED) /\ (c = RB_BLACK -> n' = S (S n) /\ cok n' k oc)) ->
  exists up s' t', erase_black_sibling d p other s = Some (up, s') /\
    moves s (plug k (N d c t p (N d RB_BLACK a other b))) s' t' /\
    if up : bool then t' = plug k (N d c t p (N d RB_RED a other b)) /\ ca = RB_BLACK /\ cb = RB_BLACK else is_rb t'.
Proof.
  intros H Ht Ha Hb (n' & oc & Kr & Kb). pose proof H as H'. rewrite <- plug_opp in H'.
  pose proof (get_focus s _ d _ _ _ _ H') as Hg. unfold erase_black_sibling. rewrite Hg. cbn [mbind option_bind].
  apply Rep_focus in H' as (_ & H' & _). rewrite rep_N in H'. destruct H' as (_ & Hra & Hrb).
  pose proof (both_black s d (ctxp (F (opp d) c p t :: k)) a b other RB_BLACK ca cb n Hra Hrb Ha Hb) as Eb. cbv zeta in Eb.
  destruct (is_black s (rb_left _)) as [bl|]; [|done]. cbn [mbind option_bind] in Eb |- *. rewrite Eb. cbn [mbind option_bind].
  destruct (decide (ca = RB_BLACK /\ cb = RB_BLACK)) as [[-> ->]|Hnot].
  - rewrite bool_decide_eq_true_2 by done.
    destruct (recolor_opp RB_RED s k d c t p d _ _ _ _ H) as (s1 & -> & M1). cbn [mbind option_bind].
    eexists true, s1, _. split_and!; [done|exact M1|done..].
  - rewrite bool_decide_eq_false_2 by done.
    destruct (near_nephew_ok s k d c t p a other b ca cb n H Ha Hb Hnot) as (o' & s1 & a' & b' & ca' & -> & M1 & Ha' & Hb').
    cbn [mbind option_bind]. pose proof (M_rep _ _ _ _ M1) as R1. rewrite (get_focus _ _ _ _ _ _ _ R1). cbn [mbind option_bind].
    rewrite color_node. destruct (recolor_opp c s1 k d c t p d _ _ _ _ R1) as (s2 & -> & M2). cbn [mbind option_bind].
    destruct (recolor RB_BLACK s2 k _ _ _ _ _ (M_rep _ _ _ _ M2)) as (s3 & -> & M3). cbn [mbind option_bind].
    pose proof (M_rep _ _ _ _ M3) as R3. pose proof R3 as R3'. rewrite <- plug_opp in R3'.
    rewrite (get_focus _ _ _ _ _ _ _ R3'). cbn [mbind option_bind]. rewrite child_opp_node.
    inversion Hb' as [|n0 l y r Hl Hr|]; subst. cbn [rootp set_color_if]. rewrite <- (plug_opp d c o' a') in R3'.
    destruct (recolor RB_BLACK s3 (F (opp d) c o' a' :: F (opp d) RB_BLACK p t :: k) Lft _ _ _ _ R3') as (s4 & -> & M4). cbn [mbind option_bind].
    rewrite !(plug_opp d) in M4. cbn [N] in M4.
    destruct (rotate_ok d s4 k _ _ _ _ _ _ _ (M_rep _ _ _ _ M4)) as (s5 & -> & M5). cbn [mbind option_bind].
    eexists false, s5, _. split_and!; [done| |].
    + eapply moves_trans; [exact M1|]. eapply moves_trans; [exact M2|]. eapply moves_trans; [exact M3|]. eapply moves_trans; [exact M4|exact M5].
    + assert (rb RB_BLACK (S n) (N d RB_BLACK t p a')) by by eapply rb_NB.
      assert (rb RB_BLACK (S n) (T RB_BLACK l y r)) by by econstructor.
      destruct c.
      * destruct (Kr eq_refl) as [K1 K2]. eapply plug_rb; [exact K1|by apply rb_NR|done].
      * destruct (Kb eq_refl) as [-> K2]. eapply plug_rb; [exact K2|by eapply rb_NB|by destruct oc as [[]|]].
Qed.

Lemma erase_loop_red f s x n parent : get s x = Some n -> rb_color n = RB_RED ->
  erase_color_loop f (Some x) parent s = Some (Some x, s).
Proof. intros H1 H2. destruct f; simpl; rewrite H1; simpl; by rewrite H2. Qed.

Lemma root_outside s f k t : Rep s (plug (f :: k) t) -> rootp t <> root s.
Proof.
  intros H. pose proof (R_root _ _ H) as Hr. pose proof (R_nodup _ _ H) as Hnd. rewrite keys_plug in Hnd.
  apply NoDup_app in Hnd as (_ & Hd & _). rewrite Hr.
  assert (exists z, rootp (plug (f :: k) t) = Some z /\ z ∈ ckeys (f :: k)) as (z & -> & Hz).
  { clear. revert f t. induction k as [|g k IH]; intros f t.
    - exists (f_key f). simpl. unfold fill. rewrite rootp_N. set_solver.
    - destruct (IH g (fill f t)) as (z & E & Hz). exists z. split; [exact E|]. simpl in *. set_solver. }
  intros Ht. apply (Hd z); [by apply rootp_elem|done].
Qed.

Lemma erase_loop_ok : forall fuel k s n oc t,
  Rep s (plug k t) -> rb RB_BLACK n t -> cok (S n) k oc -> (length k <= fuel)%nat ->
  exists s' t', ('(node, s) ← erase_color_loop fuel (rootp t) (ctxp k) s; set_color_if s node RB_BLACK) = Some s' /\
    moves s (plug k t) s' t' /\ is_rb t'.
Proof.
  induction fuel as [|fuel IH]; intros k s n oc t H Ht Hk Hlen;
    pose proof (proj1 (Rep_focus s k t) H) as (_ & Hrt & _); pose proof (is_black_spec _ _ _ _ _ Hrt Ht) as Hbl.
  { destruct k; simpl in Hlen; [|lia]. simpl plug in *. simpl. rewrite Hbl. cbn [mbind option_bind].
    rewrite (R_root _ _ H), !bool_decide_eq_true_2 by done. simpl. rewrite <- (R_root _ _ H).
    by apply (blacken s t RB_BLACK n). }
  destruct k as [|[d c p sib] k].
  { simpl plug in *. simpl. rewrite Hbl. cbn [mbind option_bind].
    rewrite (R_root _ _ H), !bool_decide_eq_true_2 by done. simpl. rewrite <- (R_root _ _ H).
    by apply (blacken s t RB_BLACK n). }
  simpl erase_color_loop. rewrite Hbl. cbn [mbind option_bind]. rewrite bool_decide_eq_true_2 by done.
  rewrite bool_decide_eq_false_2 by (by eapply root_outside). cbn [andb negb ctxp f_key mbind option_bind].
  pose proof (root_outside _ _ _ _ H) as Hout. zip H. rewrite (get_focus _ _ _ _ _ _ _ H). cbn [mbind option_bind].
  assert (oc = Some c) as -> by (by inversion Hk).
  assert (exists cs, rb cs (S n) sib) as [cs Hs] by (inversion Hk; subst; eauto).
  destruct (rb_S_inv _ _ _ Hs) as (ls & other & rs & Es).
  assert (rootp sib <> rootp t) as Hne.
  { pose proof (Rep_nodup _ _ _ H) as Hnd. rewrite keys_N in Hnd. apply NoDup_cons in Hnd as [_ Hnd].
    rewrite Permutation_app_comm in Hnd. intros E. eapply (rootp_ne sib t); [exact Hnd|by rewrite Es|done]. }
  rewrite side_of by done. rewrite child_opp_node, Es. cbn [rootp mbind option_bind]. rewrite <- Es.
  destruct (red_sibling_ok s k d c t p sib cs n other H Hs Hk) as (o1 & s1 & k1 & c1 & sib1 & -> & M1 & Ho1 & Hs1 & Hk1 & Hor);
    [by rewrite Es|]. cbn [mbind option_bind].
  destruct (rb_S_inv _ _ _ Hs1) as (l1 & y1 & r1 & E1). rewrite E1 in Ho1. simpl in Ho1. simplify_eq.
  destruct (T_N d RB_BLACK l1 o1 r1) as (a & b & Ea). rewrite Ea in *.
  apply rb_N_inv in Hs1 as [_ (n' & ca & cb & [= <-] & Ha & Hb)].
  destruct (black_sibling_ok s1 k1 d c1 t p a o1 b ca cb n (M_rep _ _ _ _ M1) Ht Ha Hb) as (up & s2 & t2 & -> & M2 & Hup).
  { inversion Hk1 as [|n0 d0 x0 sib0 k0 c0 oc0 _ K|n0 d0 x0 sib0 k0 _ K]; subst.
    - exists (S (S n)), oc0. split; [done|]. by intros _.
    - exists 0%nat, (Some RB_BLACK). split; [by intros _|done]. }
  cbn [mbind option_bind]. pose proof (moves_trans _ _ _ _ _ _ M1 M2) as M. destruct up.
  - destruct Hup as (-> & -> & ->). pose proof (M_rep _ _ _ _ M2) as R2. rewrite (get_focus _ _ _ _ _ _ _ R2).
    cbn [mbind option_bind]. rewrite parent_node.
    assert (rb RB_RED n (N d RB_RED a o1 b)) as Hs2 by by apply rb_NR. destruct c1.
    + rewrite (erase_loop_red _ _ _ _ _ (get_focus _ _ _ _ _ _ _ R2) (color_node _ _ _ _ _)). cbn [mbind option_bind set_color_if].
      destruct (recolor RB_BLACK s2 k1 _ _ _ _ _ R2) as (s3 & -> & M3). eexists s3, _.
      split_and!; [done|exact (moves_trans _ _ _ _ _ _ M M3)|]. inversion Hk1 as [| |n0 d0 x0 sib0 k0 _ K]; subst.
      eapply plug_rb; [exact K|by eapply rb_NB|done].
    + destruct Hor as [->|]; [|done]. inversion Hk1 as [|n0 d0 x0 sib0 k0 c0 oc0 _ K|]; subst.
      destruct (IH k s2 (S n) oc0 (N d RB_BLACK t p (N d RB_RED a o1 b))) as (s3 & t3 & E3 & M3 & Ht3); [done|by eapply rb_NB|done|simpl in Hlen; lia|].
      rewrite rootp_N in E3. exists s3, t3. split_and!; [exact E3|exact (moves_trans _ _ _ _ _ _ M M3)|done].
  - destruct Hup as [n2 Hn2]. cbn [mbind option_bind].
    destruct (blacken s2 t2 RB_BLACK n2 (M_rep _ _ _ _ M2) Hn2) as (s3 & t3 & E3 & M3 & Ht3).
    exists s3, t3. split_and!; [exact E3|exact (moves_trans _ _ _ _ _ _ M M3)|done].
Qed.

(** A tree that lacks one black node on its paths is repaired. *)
Lemma erase_color_ok s k t c n oc : Rep s (plug k t) -> rb c n t -> cok (S n) k oc ->
  exists s' t', __rb_erase_color (rootp t) (ctxp k) s = Some s' /\ moves s (plug k t) s' t' /\ is_rb t'.
Proof.
  intros H Ht Hk. unfold __rb_erase_color. destruct c.
  - inversion Ht as [|n0 l x r Hl Hr|]; subst. pose proof (get_focus s k Lft _ _ _ _ H) as Hg. simpl rootp.
    rewrite (erase_loop_red _ _ _ _ _ Hg eq_refl). cbn [mbind option_bind set_color_if].
    destruct (recolor RB_BLACK s k Lft _ _ _ _ H) as (s' & -> & M). eexists s', _. split_and!; [done|exact M|].
    eapply plug_rb; [exact Hk|by eapply (rb_NB Lft)|by destruct oc as [[]|]].
  - eapply erase_loop_ok; [done|done|done|]. by eapply ctx_size.
Qed.

(** * Removal: links *)

Lemma splice_ok s k d c x ch : Rep s (plug k (N d c E x ch)) ->
  exists s', splice s x (rootp ch) (ctxp k) = Some s' /\ Rep s' (plug k ch) /\
    forall z, z ∉ keys (plug k ch) -> mem s' !! z = mem s !! z.
Proof.
  intros H. rewrite Rep_focus, rep_N, rootp_N, keys_N in H. destruct H as (Hk & (Hx & _ & Hc) & Hnd). simpl in Hnd.
  apply NoDup_cons in Hnd as [Hnx Hnd]. pose proof Hnd as Hnd0. apply NoDup_app in Hnd0 as (Nc & Dck & Nk). unfold splice.
  destruct (set_parent_if_spec s ch (Some x) (ctxp k)) as (m1 & -> & R1 & E1); [done|done|]. cbn [mbind option_bind].
  destruct (crep_relink Lft m1 (root s) k x (rootp ch) _ eq_refl) as (m2 & rt' & -> & Hk' & E2).
  { eapply crep_frame; [|exact Hk]. intros z Hz. apply E1. set_solver. }
  { set_solver. }
  assert (forall z, z ∉ ckeys k -> m2 !! z = m1 !! z) as E2'.
  { intros z Hz. apply E2. destruct k; simpl in *; set_solver. }
  eexists. split; [done|]. split.
  - rewrite Rep_focus. cbn [root mem]. split_and!; [by apply Hk'| |done].
    eapply rep_frame; [|exact R1]. intros z Hz. apply E2'. set_solver.
  - intros z Hz. rewrite elem_plug in Hz. cbn [mem]. rewrite E2', E1 by set_solver. done.
Qed.

(** The links to a node redirected to another one, which takes its fields. *)
Lemma replace_links s k c l x r y : Rep s (plug k (T c l x r)) -> y ∉ keys (plug k (T c l x r)) ->
  exists s1 s2 s3, relink Lft s (ctxp k) x (Some y) = Some s1 /\
    set_parent_if s1 (rootp l) (Some y) = Some s2 /\ set_parent_if s2 (rootp r) (Some y) = Some s3 /\
    mem s1 !! x = mem s !! x /\ mem s2 !! x = mem s !! x /\ mem s3 !! x = mem s !! x /\
    Rep (mk_st (root s3) (<[y := mk_rb (ctxp k) (rootp r) (rootp l) c]> (mem s3))) (plug k (T c l y r)) /\
    forall z, z ∉ keys (plug k (T c l x r)) -> mem s3 !! z = mem s !! z.
Proof.
  intros H Hy. rewrite Rep_focus, (rep_N _ _ Lft), (keys_N Lft) in H. destruct H as (Hk & (Hx & Hl & Hr) & Hnd).
  simpl in Hnd. apply NoDup_cons in Hnd as [Hnx Hnd]. pose proof Hnd as Hnd0. rewrite <- app_assoc in Hnd0.
  apply NoDup_app in Hnd0 as (Nl & Dl & Hnd0). apply NoDup_app in Hnd0 as (Nr & Dr & Nk).
  rewrite elem_plug, (elem_N Lft) in Hy.
  destruct (crep_relink Lft (mem s) (root s) k x (Some y) _ eq_refl) as (m1 & rt' & E & Hk' & E1); [done|set_solver|].
  assert (mk_st (root s) (mem s) = s) as Es by by destruct s. rewrite Es in E. rewrite E.
  assert (forall z, z ∉ ckeys k -> m1 !! z = mem s !! z) as E1'.
  { intros z Hz. apply E1. destruct k; simpl in *; set_solver. }
  destruct (set_parent_if_spec (mk_st rt' m1) l (Some x) (Some y)) as (m2 & E2 & R2 & F2); [|done|].
  { eapply rep_frame; [|exact Hl]. intros z Hz. apply E1'. set_solver. }
  cbn [root mem] in *.
  destruct (set_parent_if_spec (mk_st rt' m2) r (Some x) (Some y)) as (m3 & E3 & R3 & F3); [|done|].
  { eapply rep_frame; [|exact Hr]. intros z Hz. cbn [mem]. rewrite F2, E1' by set_solver. done. }
  cbn [root mem] in *. exists (mk_st rt' m1), (mk_st rt' m2), (mk_st rt' m3). cbn [root mem].
  split_and!; [done|done|done|rewrite E1' by set_solver; done|rewrite F2, E1' by set_solver; done|rewrite F3, F2, E1' by set_solver; done| |].
  - rewrite Rep_focus, (rep_N _ _ Lft), (keys_N Lft). cbn [root mem]. split_and!.
    + eapply crep_frame; [|by apply Hk']. intros z Hz. rewrite lookup_insert_ne, F3, F2 by set_solver. done.
    + by rewrite lookup_insert_eq.
    + eapply rep_frame; [|exact R2]. intros z Hz. rewrite lookup_insert_ne, F3 by set_solver. done.
    + eapply rep_frame; [|exact R3]. intros z Hz. rewrite lookup_insert_ne by set_solver. done.
    + simpl. apply NoDup_cons. split; [set_solver|done].
  - intros z Hz. rewrite elem_plug, (elem_N Lft) in Hz. rewrite F3, F2, E1' by set_solver. done.
Qed.

(** [rb_replace_node] puts the new node where the victim was: the same tree, with
    the victim's place and colour taken by the new node. *)
Lemma rb_replace_node_ok s k c l x r y :
  Rep s (plug k (T c l x r)) -> y ∉ keys (plug k (T c l x r)) -> is_Some (mem s !! y) ->
  exists s', rb_replace_node x y s = Some s' /\ Rep s' (plug k (T c l y r)).
Proof.
  intros H Hy Hn. pose proof (get_focus s k Lft _ _ _ _ H) as Hg.
  destruct (replace_links s k c l x r y H Hy) as (s1 & s2 & s3 & E1 & E2 & E3 & X1 & X2 & X3 & HR & Hf).
  unfold get in Hg. unfold rb_replace_node, get. rewrite Hg. cbn [mbind option_bind N node_of rb_parent]. rewrite E1. cbn [mbind option_bind].
  rewrite X1, Hg. cbn [mbind option_bind N node_of rb_left]. rewrite E2. cbn [mbind option_bind].
  rewrite X2, Hg. cbn [mbind option_bind N node_of rb_right]. rewrite E3. cbn [mbind option_bind]. rewrite X3, Hg. cbn [mbind option_bind].
  destruct Hn as [n Hn]. rewrite <- Hf in Hn by done. rewrite (put_eq _ _ _ _ Hn). eexists. split; [done|exact HR].
Qed.

(** * Order *)

(** The keys before and after a hole. *)
Fixpoint before (k : list frame) : list ptr :=
  match k with
  | [] => []
  | f :: k' => before k' ++ match f_side f with Lft => [] | Rgt => keys (f_sib f) ++ [f_key f] end
  end.
Fixpoint after (k : list frame) : list ptr :=
  match k with
  | [] => []
  | f :: k' => match f_side f with Lft => f_key f :: keys (f_sib f) | Rgt => [] end ++ after k'
  end.
Lemma keys_around k t : keys (plug k t) = before k ++ keys t ++ after k.
Proof.
  revert t. induction k as [|f k IH]; intros t; simpl; [by rewrite app_nil_r|]. rewrite IH. unfold fill, N.
  destruct (f_side f); simpl; rewrite <- ?app_assoc; simpl; by rewrite <- ?app_assoc.
Qed.

Lemma unzip t x : x ∈ keys t -> exists k c l r, t = plug k (T c l x r).
Proof.
  induction t as [|c l IHl y r IHr]; simpl; [set_solver|]. intros [H|H]%elem_of_app.
  - destruct (IHl H) as (k & c' & l' & r' & ->). exists (k ++ [F Lft c y r]), c', l', r'. by rewrite plug_app.
  - apply elem_of_cons in H as [->|H]; [by exists [], c, l, r|].
    destruct (IHr H) as (k & c' & l' & r' & ->). exists (k ++ [F Rgt c y l]), c', l', r'. by rewrite plug_app.
Qed.

(** Going down one side ends at a node without a child there. *)
Lemma go_down_ok d s : forall fuel c a x b par, rep (mem s) par (N d c a x b) -> (length (keys a) <= fuel)%nat ->
  exists j c' y e, N d c a x b = plug j (N d c' E y e) /\ Forall (fun f => f_side f = d) j /\ go_down d fuel s x = Some y.
Proof.
  induction fuel as [|fuel IH]; intros c a x b par H Hlen; rewrite rep_N in H; destruct H as (Hx & Ha & Hb);
    simpl; unfold get; rewrite Hx; cbn [mbind option_bind]; rewrite child_node; destruct a as [|ca al y ar]; simpl rootp.
  - exists [], c, x, b. by split_and!.
  - simpl in Hlen. rewrite length_app in Hlen. simpl in Hlen. lia.
  - exists [], c, x, b. by split_and!.
  - destruct (T_N d ca al y ar) as (a1 & a2 & Ea). rewrite Ea in *.
    assert (length (keys a1) <= fuel)%nat as Hl.
    { rewrite (Permutation_length (keys_N _ _ _ _ _)) in Hlen. simpl in Hlen. rewrite length_app in Hlen. lia. }
    destruct (IH ca a1 y a2 _ Ha Hl) as (j & c' & z & e & E1 & Hj & E2). rewrite E1.
    exists (j ++ [F d c x b]), c', z, e. rewrite plug_app. split_and!; [done| |done]. apply Forall_app. by repeat constructor.
Qed.

Lemma before_left j : Forall (fun f => f_side f = Lft) j -> before j = [].
Proof. induction 1 as [|f j Hf _ IH]; [done|]. simpl. by rewrite IH, Hf. Qed.

(** Another node at the bottom of a path. *)
Lemma cok_rekey n j d c x y l k oc : cok n (j ++ F d c x l :: k) oc -> cok n (j ++ F d c y l :: k) oc.
Proof.
  revert n oc. induction j as [|[dj cj xj lj] j IH]; intros n oc H; simpl in *; inversion H; subst; econstructor; eauto.
Qed.

(** What [rb_erase] gives: a red-black tree without the node. *)
Definition erased (s : tree_st) (t : tree) (x : ptr) (s' : tree_st) : Prop :=
  exists t' A B, Rep s' t' /\ is_rb t' /\ keys t = A ++ x :: B /\ keys t' = A ++ B /\
    forall z, z ∉ keys t -> mem s' !! z = mem s !! z.

(** The hole left by a node of colour [c] that had [n] black nodes below: repaired when
    the node was black. *)
Lemma erase_finish s0 t0 x s k ch c cc n nn oc A B :
  Rep s (plug k ch) -> rb cc n ch -> cok nn k oc -> compat oc c ->
  (if bool_decide (c = RB_BLACK) then nn = S n else nn = n /\ cc = RB_BLACK) ->
  keys t0 = A ++ x :: B -> keys (plug k ch) = A ++ B -> (forall z, z ∉ keys t0 -> mem s !! z = mem s0 !! z) ->
  exists s', (if bool_decide (c = RB_BLACK) then __rb_erase_color (rootp ch) (ctxp k) s else Some s) = Some s' /\
    erased s0 t0 x s'.
Proof.
  intros H Hc Hk Hcompat Hn Ht0 Hks Hf. destruct c.
  - rewrite bool_decide_eq_false_2 in * by done. destruct Hn as [-> ->]. exists s. split; [done|].
    exists (plug k ch), A, B. split_and!; [done| |done..]. eapply plug_rb; [done|done|]. by destruct oc as [[]|].
  - rewrite bool_decide_eq_true_2 in * by done. subst nn.
    destruct (erase_color_ok s k ch cc n oc H Hc Hk) as (s' & t' & E & M & Ht'). exists s'. split; [done|].
    exists t', A, B. split_and!; [by eapply M_rep|done|done|by rewrite (M_keys _ _ _ _ M)|].
    intros z Hz. rewrite (M_frame _ _ _ _ M); [by apply Hf|]. rewrite Hks. rewrite Ht0 in Hz. set_solver.
Qed.

Lemma erase_one s k d c x ch : Rep s (plug k (N d c E x ch)) -> is_rb (plug k (N d c E x ch)) ->
  exists s', (s ← splice s x (rootp ch) (ctxp k);
              if bool_decide (c = RB_BLACK) then __rb_erase_color (rootp ch) (ctxp k) s else Some s) = Some s' /\
    erased s (plug k (N d c E x ch)) x s'.
Proof.
  intros H [n0 Hrb]. destruct (plug_rb_inv _ _ _ Hrb) as (n & c0 & oc & Hn & Hk & Hc).
  apply rb_N_inv in Hn as [-> Hn]. destruct (splice_ok s k d c x ch H) as (s1 & -> & R1 & F1). cbn [mbind option_bind].
  assert (keys (N d c E x ch) = match d with Lft => x :: keys ch | Rgt => keys ch ++ [x] end) as Ek by by destruct d.
  assert (exists cc nn, rb cc nn ch /\ (if bool_decide (c = RB_BLACK) then n = S nn else n = nn /\ cc = RB_BLACK)) as (cc & nn & Hcc & Hnn).
  { destruct c; [destruct Hn as [_ Hn]; by exists RB_BLACK, n|]. destruct Hn as (n' & c1 & c2 & -> & _ & Hch). by exists c2, n'. }
  assert (exists A B, keys (plug k (N d c E x ch)) = A ++ x :: B /\ keys (plug k ch) = A ++ B) as (A & B & EA & EB).
  { rewrite !keys_around, Ek. destruct d.
    - exists (before k), (keys ch ++ after k). done.
    - exists (before k ++ keys ch), (after k). rewrite <- !app_assoc. done. }
  eapply (erase_finish s (plug k (N d c E x ch)) x s1 k ch c cc nn n oc A B R1 Hcc Hk Hc); [done|done|done|].
  intros z Hz. apply F1. rewrite EA in Hz. rewrite EB. set_solver.
Qed.

(** The successor taken out of the right subtree. *)
Lemma erase_two_split s k c l x r cr lr xr rr : r = T cr lr xr rr -> Rep s (plug k (T c l x r)) ->
  exists j cy y ry, r = plug j (T cy E y ry) /\ keys r = y :: keys (plug j ry) /\
    go_down Lft (size (mem s)) s xr = Some y.
Proof.
  intros -> H. pose proof (Rep_size _ _ H) as Hsz. rewrite keys_around in Hsz. simpl in Hsz. rewrite !length_app in Hsz.
  simpl in Hsz. rewrite !length_app in Hsz. simpl in Hsz.
  apply Rep_focus in H as (_ & (_ & _ & H) & _).
  destruct (go_down_ok Lft s (size (mem s)) cr lr xr rr _ H) as (j & cy & y & ry & E1 & Hj & E2); [lia|].
  exists j, cy, y, ry. split_and!; [exact E1| |done]. simpl N in E1. rewrite E1, !keys_around, before_left by done. done.
Qed.

Lemma erase_two_ok s k c cl ll xl rl x r : rootp r <> None -> Rep s (plug k (T c (T cl ll xl rl) x r)) ->
  is_rb (plug k (T c (T cl ll xl rl) x r)) ->
  exists s', erase_two x s = Some s' /\ erased s (plug k (T c (T cl ll xl rl) x r)) x s'.
Proof.
  set (l := T cl ll xl rl). intros Hr H [n0 Hrb]. destruct r as [|cr lr xr rr]; [done|]. set (r := T cr lr xr rr) in *.
  destruct (erase_two_split s k c l x r _ _ _ _ eq_refl H) as (j & cy & y & ry & Er & Ekr & Ego).
  set (K v := j ++ F Rgt c v l :: k).
  assert (forall v t, plug (K v) t = plug k (T c l v (plug j t))) as EK by (intros; unfold K; by rewrite plug_app).
  pose proof (get_focus s k Lft _ _ _ _ H) as Hgx. unfold get in Hgx. simpl N in Hgx. simpl node_of in Hgx.
  assert (plug k (T c l x r) = plug (K x) (T cy E y ry)) as E0 by (by rewrite EK, <- Er).
  pose proof H as HK. rewrite E0 in HK. rewrite E0 in Hrb.
  pose proof (get_focus s (K x) Lft _ _ _ _ HK) as Hgy. unfold get in Hgy. simpl in Hgy.
  destruct (plug_rb_inv _ _ _ Hrb) as (n & c0 & oc & Hn & Hk & Hc). apply (rb_N_inv Lft) in Hn as [-> Hn].
  destruct (splice_ok s (K x) Lft cy y ry HK) as (s1 & E1 & R1 & F1).
  assert (y ∉ keys (plug (K x) ry)) as Hy.
  { pose proof (R_nodup _ _ HK) as Hnd. rewrite keys_around in Hnd |- *. simpl in Hnd. intros Hin.
    apply NoDup_app in Hnd as (_ & D1 & Hnd). apply NoDup_cons in Hnd as [Hnd _].
    apply elem_of_app in Hin as [Hin|Hin]; [apply (D1 y); [done|set_solver]|set_solver]. }
  unfold erase_two, get. rewrite Hgx. cbn [mbind option_bind rb_right rootp r]. rewrite Ego. cbn [mbind option_bind].
  rewrite Hgy. cbn [mbind option_bind rb_right rb_parent rb_color]. rewrite E1. cbn [mbind option_bind].
  rewrite (F1 y Hy), Hgy. cbn [mbind option_bind rb_parent].
  rewrite EK in R1, Hy. pose proof (get_focus s1 k Lft _ _ _ _ R1) as Hgx1. unfold get in Hgx1. simpl N in Hgx1. simpl node_of in Hgx1.
  rewrite Hgx1. cbn [mbind option_bind].
  assert (mem s1 !! y = Some (mk_rb (ctxp (K x)) (rootp ry) None cy)) as Hgy1 by (rewrite F1 by (by rewrite EK); done).
  rewrite (put_eq _ _ _ _ Hgy1). cbn [mbind option_bind]. set (v := mk_rb (ctxp k) (rootp (plug j ry)) (Some xl) c) in *.
  set (s2 := mk_st (root s1) (<[y := v]> (mem s1))). change (rb_parent v) with (ctxp k).
  assert (Rep s2 (plug k (T c l x (plug j ry)))) as R2.
  { destruct R1 as [A1 A2 A3]. split; [|done|done]. eapply rep_frame; [|exact A1]. intros z Hz. apply lookup_insert_ne. congruence. }
  destruct (replace_links s2 k c l x (plug j ry) y R2 Hy) as (s3 & s4 & s5 & -> & E4 & E5 & X3 & X4 & X5 & R5 & F5).
  cbn [mbind option_bind].
  assert (mem s2 !! x = Some v) as Hx2. { unfold s2. cbn [mem]. rewrite lookup_insert_ne; [done|]. intros ->. apply Hy. rewrite elem_plug. simpl. set_solver. }
  rewrite X3, Hx2. cbn [mbind option_bind rb_left v rootp l]. unfold set_parent_if in E4. cbn [rootp l] in E4. rewrite E4. cbn [mbind option_bind].
  rewrite X4, Hx2. cbn [mbind option_bind rb_right v]. rewrite E5. cbn [mbind option_bind].
  assert (R6 : Rep s5 (plug (K y) ry)).
  { rewrite EK. change (mk_rb (ctxp k) (rootp (plug j ry)) (rootp l) c) with v in R5. rewrite insert_id in R5; [by destruct s5|]. rewrite F5 by done. unfold s2. cbn [mem]. by rewrite lookup_insert_eq. }
  assert ((if bool_decide (ctxp (K x) = Some x) then Some y else ctxp (K x)) = ctxp (K y)) as ->.
  { unfold K. destruct j as [|f j]; simpl; [by rewrite bool_decide_eq_true_2|]. rewrite bool_decide_eq_false_2; [done|].
    intros [= Ef]. pose proof (R_nodup _ _ R1) as Hnd. rewrite keys_plug in Hnd. apply NoDup_app in Hnd as (Hnd & _).
    simpl in Hnd. apply NoDup_app in Hnd as (_ & _ & Hnd). apply NoDup_cons in Hnd as [Hnd _]. apply Hnd.
    apply elem_plug. left. unfold fill. rewrite elem_N. left. done. }
  assert (exists cc nn, rb cc nn ry /\ (if bool_decide (cy = RB_BLACK) then n = S nn else n = nn /\ cc = RB_BLACK)) as (cc & nn & Hcc & Hnn).
  { destruct cy; [destruct Hn as [_ Hn]; by exists RB_BLACK, n|]. destruct Hn as (n' & c1 & c2 & -> & _ & Hch). by exists c2, n'. }
  eapply (erase_finish s (plug k (T c l x r)) x s5 (K y) ry cy cc nn n oc (before k ++ keys l) (keys r ++ after k));
    [exact R6|exact Hcc|by eapply cok_rekey|exact Hc|exact Hnn| | |].
  - rewrite keys_around. change (keys (T c l x r)) with (keys l ++ x :: keys r). by rewrite <- !app_assoc.
  - rewrite EK, keys_around, Ekr. change (keys (T c l y (plug j ry))) with (keys l ++ y :: keys (plug j ry)).
    by rewrite <- !app_assoc.
  - intros z Hz.
    assert (z ∉ keys (plug k (T c l x (plug j ry))) /\ z <> y) as [Hz1 Hzy].
    { rewrite keys_around in Hz |- *. change (keys (T c l x r)) with (keys l ++ x :: keys r) in Hz.
      change (keys (T c l x (plug j ry))) with (keys l ++ x :: keys (plug j ry)). rewrite Ekr in Hz. set_solver. }
    rewrite F5 by done. unfold s2. cbn [mem]. rewrite lookup_insert_ne by done. rewrite F1; [done|]. by rewrite EK.
Qed.

Lemma rb_erase_ok s t x : Rep s t -> is_rb t -> x ∈ keys t ->
  exists s', rb_erase x s = Some s' /\ erased s t x s'.
Proof.
  intros H Hrb Hx. destruct (unzip t x Hx) as (k & c & l & r & ->).
  unfold rb_erase. rewrite (get_focus s k Lft _ _ _ _ H). cbn [mbind option_bind node_of rb_left rb_right rb_parent rb_color].
  destruct l as [|cl ll xl rl]; [by apply (erase_one s k Lft)|]. simpl rootp.
  destruct r as [|cr lr xr rr]; [by apply (erase_one s k Rgt c x (T cl ll xl rl))|]. simpl rootp.
  by apply erase_two_ok.
Qed.

Lemma rb_insert_ok s k x : Rep s (plug k E) -> is_rb (plug k E) -> x ∉ keys (plug k E) -> is_Some (mem s !! x) ->
  exists s1 s' t', rb_link_node s x (ctxp k) (link_of k) = Some s1 /\ rb_insert_color x s1 = Some s' /\
    Rep s' t' /\ is_rb t' /\ keys t' = before k ++ x :: after k /\
    forall z, z <> x -> z ∉ keys (plug k E) -> mem s' !! z = mem s !! z.
Proof.
  intros H [n0 Hrb] Hx Hn. destruct (link_node_ok s k x H Hx Hn) as (s1 & E1 & R1 & F1).
  destruct (plug_rb_inv _ _ _ Hrb) as (n & c & oc & HE & Hk & _). inversion HE; subst.
  destruct (insert_color_ok s1 k E x E 0 oc R1) as (s2 & t2 & E2 & M2 & Ht2); [constructor|constructor|done|].
  exists s1, s2, t2. split_and!; [done|done|by eapply M_rep|done|by rewrite (M_keys _ _ _ _ M2), keys_around|].
  intros z Hz Hzk. rewrite (M_frame _ _ _ _ M2); [by apply F1|]. rewrite elem_plug in Hzk |- *. simpl in *. set_solver.
Qed.

(** * Traversal *)

(** The first frame whose hole is on the other side. *)
Fixpoint turn (d : side) (k : list frame) : option ptr :=
  match k with
  | [] => None
  | f :: k' => match d, f_side f with Lft, Lft | Rgt, Rgt => turn d k' | _, _ => Some (f_key f) end
  end.
Lemma turn_after k : turn Rgt k = head (after k).
Proof. induction k as [|f k IH]; [done|]. simpl. destruct (f_side f); done. Qed.
Lemma turn_before k : turn Lft k = last (before k).
Proof. induction k as [|f k IH]; [done|]. simpl. destruct (f_side f); [by rewrite app_nil_r|]. by rewrite app_assoc, last_snoc. Qed.

Lemma go_up_ok d s : forall k fuel c l x r, Rep s (plug k (T c l x r)) -> (length k <= fuel)%nat ->
  go_up d fuel s x = Some (turn d k).
Proof.
  induction k as [|f k IH]; intros fuel c l x r H Hlen; pose proof (get_focus s _ Lft _ _ _ _ H) as Hx; simpl in Hx.
  { destruct fuel; simpl; by rewrite Hx. }
  destruct fuel as [|fuel]; [simpl in Hlen; lia|]. simpl. rewrite Hx. cbn [mbind option_bind rb_parent].
  zip H. pose proof (get_focus s k _ _ _ _ _ H) as Hp. rewrite Hp. cbn [mbind option_bind].
  assert (rootp (f_sib f) <> Some x) as Hne by (by eapply Rep_sib).
  assert (exists l' r', N (f_side f) (f_color f) (T c l x r) (f_key f) (f_sib f) = T (f_color f) l' (f_key f) r') as (l' & r' & Et)
    by (destruct (f_side f); simpl; eauto).
  rewrite Et in H. specialize (IH fuel _ _ _ _ H). simpl in Hlen.
  destruct d, (f_side f); simpl; (case_bool_decide; [try congruence; by apply IH; lia|congruence || done]).
Qed.

Lemma go_down_end d s c a x b par fuel : rep (mem s) par (N d c a x b) -> (length (keys a) <= fuel)%nat ->
  go_down d fuel s x = match d with Lft => head (keys (N d c a x b)) | Rgt => last (keys (N d c a x b)) end.
Proof.
  intros H Hl. destruct (go_down_ok d s fuel c a x b par H Hl) as (j & c' & y & e & -> & Hj & ->).
  rewrite keys_around. destruct d; simpl.
  - rewrite before_left by done. done.
  - assert (after j = []) as -> by (induction Hj as [|f j Hf _ IH]; [done|]; simpl; by rewrite IH, Hf).
    by rewrite app_nil_r, app_assoc, last_snoc.
Qed.

Lemma split_unique (A B A' B' : list ptr) x : NoDup (A ++ x :: B) -> A ++ x :: B = A' ++ x :: B' -> A = A' /\ B = B'.
Proof.
  revert A'. induction A as [|a A IH]; intros [|a' A'] Hnd E; simpl in *; simplify_eq; try done.
  - apply NoDup_cons in Hnd as [Hnd _]. set_solver.
  - apply NoDup_cons in Hnd as [Hnd _]. set_solver.
  - apply NoDup_cons in Hnd as [_ Hnd]. by destruct (IH A' Hnd) as [-> ->].
Qed.

Lemma rb_step_ok d s k c l x r : Rep s (plug k (T c l x r)) ->
  rb_step d x s = Some (match d with Lft => last (before k ++ keys l) | Rgt => head (keys r ++ after k) end).
Proof.
  intros H. pose proof (Rep_size _ _ H) as Hsz. rewrite keys_around in Hsz. simpl in Hsz. rewrite !length_app in Hsz. simpl in Hsz.
  rewrite ?length_app in Hsz. pose proof (get_focus s k Lft _ _ _ _ H) as Hx. simpl in Hx. unfold rb_step. rewrite Hx. cbn [mbind option_bind].
  pose proof (proj1 (Rep_focus _ _ _) H) as (_ & (_ & Hl & Hr) & _). destruct d; simpl child.
  - destruct l as [|cl ll y rl].
    + simpl. rewrite app_nil_r, <- turn_before. eapply go_up_ok; [done|]. by eapply ctx_size.
    + simpl rootp. cbv iota. rewrite (go_down_end Rgt s cl rl y ll (Some x)); [|exact Hl|simpl in Hsz; rewrite ?length_app in Hsz; simpl in Hsz; lia].
      simpl. rewrite (last_app_cons (keys ll)), app_assoc, (last_app_cons (before k ++ keys ll)). 
      destruct (last (y :: keys rl)) eqn:E; [done|]. apply last_None in E. done.
  - destruct r as [|cr lr y rr].
    + simpl. rewrite <- turn_after. eapply go_up_ok; [done|]. by eapply ctx_size.
    + simpl rootp. cbv iota. rewrite (go_down_end Lft s cr lr y rr (Some x)); [|exact Hr|simpl in Hsz; rewrite ?length_app in Hsz; lia].
      simpl. destruct (keys lr); done.
Qed.

(** The traversals give the order: [rb_first] and [rb_last] the ends of the tree's
    keys, [rb_next] and [rb_prev] the neighbours of a node in it, or nothing at the
    ends. *)
Lemma rb_traverse s t : Rep s t ->
  rb_first s = Some (head (keys t)) /\ rb_last s = Some (last (keys t)) /\
  forall A x B, keys t = A ++ x :: B -> rb_next x s = Some (head B) /\ rb_prev x s = Some (last A).
Proof.
  intros H. pose proof (Rep_size _ _ H) as Hsz. unfold rb_first, rb_last, rb_end. rewrite (R_root _ _ H). split_and!.
  - destruct t as [|c l x r]; [done|]. simpl rootp. cbv iota. simpl in Hsz. rewrite ?length_app in Hsz.
    rewrite (go_down_end Lft s c l x r None); [|by apply R_rep|lia]. simpl. destruct (keys l); done.
  - destruct t as [|c l x r]; [done|]. simpl rootp. cbv iota. simpl in Hsz. rewrite ?length_app in Hsz. simpl in Hsz.
    rewrite (go_down_end Rgt s c r x l None); [|by apply (R_rep _ _ H)|lia]. simpl.
    destruct (last (keys l ++ x :: keys r)) eqn:E; [done|]. apply last_None in E. by destruct (keys l).
  - intros A x B E. assert (x ∈ keys t) as Hx by (rewrite E; set_solver). destruct (unzip t x Hx) as (k & c & l & r & ->).
    pose proof (R_nodup _ _ H) as Hnd. rewrite keys_around in E. simpl in E. rewrite <- app_assoc, (app_assoc (before k)) in E.
    rewrite keys_around in Hnd. simpl in Hnd. rewrite <- app_assoc, (app_assoc (before k)) in Hnd.
    simpl in E, Hnd. destruct (split_unique _ _ _ _ _ Hnd E) as [<- <-].
    split; [exact (rb_step_ok Rgt s k c l x r H)|exact (rb_step_ok Lft s k c l x r H)].
Qed.

(** * Memory *)

(** The operations allocate and free nothing. *)
Definition same_dom (s s' : tree_st) : Prop := dom (mem s') = dom (mem s).

Lemma put_dom s x f s' : put s x f = Some s' -> same_dom s s'.
Proof. unfold put, get. destruct (mem s !! x) as [n|] eqn:E; [|done]. intros [= <-]. unfold same_dom. simpl. rewrite dom_insert_lookup_L; eauto. Qed.
Lemma same_dom_trans s1 s2 s3 : same_dom s1 s2 -> same_dom s2 s3 -> same_dom s1 s3.
Proof. unfold same_dom. congruence. Qed.

Create HintDb dom discriminated.
#[export] Hint Resolve put_dom : dom.

(** Each successful step of a computation keeps the domain. *)
Ltac dom_steps :=
  repeat match goal with
  | H : mbind _ _ = Some _ |- _ => let a := fresh "a" in let E := fresh "E" in apply bind_Some in H as (a & E & H)
  | H : Some _ = Some _ |- _ => injection H as H
  | H : None = Some _ |- _ => discriminate H
  | H : (let '(_, _) := ?p in _) = Some _ |- _ => destruct p
  | H : (let _ := _ in _) = Some _ |- _ => cbv zeta in H
  | H : (if ?b then _ else _) = Some _ |- _ => destruct b
  | H : match ?o with Some _ => _ | None => _ end = Some _ |- _ => destruct o
  end; subst;
  repeat match goal with
  | H : ?f = Some ?s' |- same_dom ?s ?s' => solve [eauto with dom]
  | H : _ = Some ?s' |- same_dom ?s ?s' => eapply same_dom_trans; [|solve [eapply put_dom; exact H | eauto with dom]]; clear H
  | H : _ = Some (_, ?s') |- same_dom ?s ?s' => eapply same_dom_trans; [|solve [eauto with dom]]; clear H
  end; try reflexivity; eauto with dom.

Lemma relink_dom d s par x v s' : relink d s par x v = Some s' -> same_dom s s'.
Proof. unfold relink, set_child. intros H. dom_steps. Qed.
Lemma set_parent_if_dom s x v s' : set_parent_if s x v = Some s' -> same_dom s s'.
Proof. unfold set_parent_if, set_parent. intros H. dom_steps. Qed.
Lemma set_color_if_dom s x v s' : set_color_if s x v = Some s' -> same_dom s s'.
Proof. unfold set_color_if, set_color. intros H. dom_steps. Qed.
#[export] Hint Resolve relink_dom set_parent_if_dom set_color_if_dom : dom.
Lemma rotate_dom d x s s' : __rb_rotate d x s = Some s' -> same_dom s s'.
Proof. unfold __rb_rotate, set_child, set_parent. intros H. dom_steps. Qed.
#[export] Hint Resolve rotate_dom : dom.

Lemma insert_loop_dom f : forall x s s', insert_color_loop f x s = Some s' -> same_dom s s'.
Proof.
  induction f as [|f IH]; intros x s s' H; simpl in H; unfold set_color in H.
  - dom_steps.
  - dom_steps; try (apply IH in H; eapply same_dom_trans; [|exact H]); dom_steps.
Qed.
#[export] Hint Resolve insert_loop_dom : dom.
Lemma insert_color_dom x s s' : rb_insert_color x s = Some s' -> same_dom s s'.
Proof. unfold rb_insert_color, set_color. intros H. dom_steps. Qed.
Lemma link_node_dom s x p l s' : rb_link_node s x p l = Some s' -> same_dom s s'.
Proof. unfold rb_link_node, set_child. intros H. dom_steps. by apply put_dom in E0. Qed.

Lemma red_sibling_dom d p o s o' s' : erase_red_sibling d p o s = Some (o', s') -> same_dom s s'.
Proof. unfold erase_red_sibling, set_color. intros H. dom_steps. Qed.
Lemma near_nephew_dom d p o s o' s' : erase_near_nephew d p o s = Some (o', s') -> same_dom s s'.
Proof. unfold erase_near_nephew, set_color. intros H. dom_steps. Qed.
#[export] Hint Resolve red_sibling_dom near_nephew_dom : dom.
Lemma black_sibling_dom d p o s b s' : erase_black_sibling d p o s = Some (b, s') -> same_dom s s'.
Proof. unfold erase_black_sibling, set_color. intros H. dom_steps. Qed.
#[export] Hint Resolve black_sibling_dom : dom.
Lemma erase_loop_dom f : forall n p s n' s', erase_color_loop f n p s = Some (n', s') -> same_dom s s'.
Proof.
  induction f as [|f IH]; intros n p s n' s' H; simpl in H.
  - dom_steps.
  - dom_steps; try (apply IH in H; eapply same_dom_trans; [|exact H]); dom_steps.
Qed.
#[export] Hint Resolve erase_loop_dom : dom.
Lemma erase_color_dom n p s s' : __rb_erase_color n p s = Some s' -> same_dom s s'.
Proof. unfold __rb_erase_color. intros H. dom_steps. Qed.
#[export] Hint Resolve erase_color_dom : dom.
Lemma splice_dom s x c p s' : splice s x c p = Some s' -> same_dom s s'.
Proof. unfold splice. intros H. dom_steps. Qed.
#[export] Hint Resolve splice_dom : dom.
Lemma erase_dom x s s' : rb_erase x s = Some s' -> same_dom s s'.
Proof. unfold rb_erase, erase_two, set_parent. intros H. dom_steps. Qed.

(** * Balance *)

Fixpoint height (t : tree) : nat := match t with E => 0 | T _ l _ r => S (Nat.max (height l) (height r)) end.

Lemma rb_height c n t : rb c n t ->
  (height t <= 2 * n + (if decide (c = RB_RED) then 1 else 0))%nat /\ (2 ^ n <= S (length (keys t)))%nat.
Proof.
  induction 1 as [|n l x r _ [H1 H2] _ [H3 H4]|n c1 c2 l x r _ [H1 H2] _ [H3 H4]]; simpl in *; rewrite ?length_app; simpl.
  - lia.
  - lia.
  - destruct (decide (c1 = RB_RED)), (decide (c2 = RB_RED)); lia.
Qed.

(** The height is logarithmic in the number of nodes. *)
Lemma is_rb_height t : is_rb t -> (height t <= 2 * Nat.log2 (S (length (keys t))))%nat.
Proof.
  intros [n Hn]. apply rb_height in Hn as [H1 H2]. simpl in H1.
  assert (n <= Nat.log2 (S (length (keys t))))%nat; [|lia]. rewrite <- (Nat.log2_pow2 n) by lia. by apply Nat.log2_le_mono.
Qed.

(** C24. Insertion. A new node linked into any empty place of a red-black tree by
    [rb_link_node], then [rb_insert_color]: both succeed without following a null or
    dangling link, and leave a red-black tree of logarithmic height with all links and
    parent links in place and the node at that place of the order; no other memory is
    written, none allocated or freed. *)
Theorem rb_insert_correct s k x :
  Rep s (plug k E) -> is_rb (plug k E) -> x ∉ keys (plug k E) -> is_Some (mem s !! x) ->
  exists s1 s' t', rb_link_node s x (ctxp k) (link_of k) = Some s1 /\ rb_insert_color x s1 = Some s' /\
    Rep s' t' /\ is_rb t' /\ keys t' = before k ++ x :: after k /\
    (height t' <= 2 * Nat.log2 (S (length (keys t'))))%nat /\ dom (mem s') = dom (mem s) /\
    forall z, z <> x -> z ∉ keys (plug k E) -> mem s' !! z = mem s !! z.
Proof.
  intros H Hrb Hx Hn. destruct (rb_insert_ok s k x H Hrb Hx Hn) as (s1 & s2 & t' & E1 & E2 & HR & Hb & Ek & Hf).
  exists s1, s2, t'. split_and!; try done; [by apply is_rb_height|].
  exact (same_dom_trans _ _ _ (link_node_dom _ _ _ _ _ E1) (insert_color_dom _ _ _ E2)).
Qed.

(** A tree of two nodes, and a third one outside it. *)
Definition sample_st : tree_st :=
  mk_st (Some 2) (<[1 := mk_rb (Some 2) None None RB_RED]> (<[2 := mk_rb None None (Some 1) RB_BLACK]> {[3 := mk_rb None None None RB_RED]})).
Definition sample_tree : tree := T RB_BLACK (T RB_RED E 1 E) 2 E.
Lemma sample_rep : Rep sample_st sample_tree.
Proof. split; [by vm_compute|done|]. simpl. repeat constructor; set_solver. Qed.
Lemma sample_rb : is_rb sample_tree.
Proof. exists 1%nat. repeat econstructor. Qed.

Lemma rb_insert_correct_witness : exists s1 s' t',
  rb_link_node sample_st 3 (Some 1) (Some (Lft, 1)) = Some s1 /\ rb_insert_color 3 s1 = Some s' /\
  Rep s' t' /\ is_rb t' /\ keys t' = [3; 1; 2].
Proof.
  destruct (rb_insert_correct sample_st [F Lft RB_RED 1 E; F Lft RB_BLACK 2 E] 3 sample_rep sample_rb)
    as (s1 & s' & t' & H1 & H2 & H3 & H4 & H5 & _).
  - simpl. set_solver.
  - vm_compute. by eexists.
  - exists s1, s', t'. split; [exact H1|]. split; [exact H2|]. split; [exact H3|]. split; [exact H4|exact H5].
Defined.

(** C25. Removal. From a red-black tree that holds the node, [rb_erase] succeeds, never
    following a null or dangling link, and leaves a red-black tree of logarithmic height,
    all links and parent links in place, with the same nodes in the same order but for
    the one erased; no other memory is written, none allocated or freed. *)
Theorem rb_erase_correct s t x : Rep s t -> is_rb t -> x ∈ keys t ->
  exists s' t' A B, rb_erase x s = Some s' /\ Rep s' t' /\ is_rb t' /\ keys t = A ++ x :: B /\ keys t' = A ++ B /\
    (height t' <= 2 * Nat.log2 (S (length (keys t'))))%nat /\ dom (mem s') = dom (mem s) /\
    forall z, z ∉ keys t -> mem s' !! z = mem s !! z.
Proof.
  intros H Hrb Hx. destruct (rb_erase_ok s t x H Hrb Hx) as (s' & E' & t' & A & B & HR & Hb & Ek & Ek' & Hf).
  exists s', t', A, B. split_and!; try done; [by apply is_rb_height|exact (erase_dom _ _ _ E')].
Qed.

Lemma rb_erase_correct_witness : exists s' t', rb_erase 2 sample_st = Some s' /\ Rep s' t' /\ is_rb t' /\ keys t' = [1].
Proof.
  destruct (rb_erase_correct sample_st sample_tree 2 sample_rep sample_rb) as (s' & t' & A & B & H1 & H2 & H3 & H4 & H5 & _).
  - simpl. set_solver.
  - exists s', t'. split; [exact H1|]. split; [exact H2|]. split; [exact H3|]. rewrite H5.
    destruct A as [|a A]; [discriminate H4|]. destruct A as [|a' A]; [injection H4 as <- <-; reflexivity|].
    exfalso. destruct A; discriminate H4.
Defined.
End RbtreeThm.
