(* ===== verification/Rudp.v ===== *)
(** The table of peers of a UDP io, event/rudp.h and event/rudp.c: entries in a
    red-black tree ordered by [sockaddr_compare] of base/hsocket.c. *)
From S2P Require Import Prelude Rbtree.

Module Rudp.
Import Rbtree.

(** * Addresses *)

(** [sockaddr_u] is its 28 bytes: family, port, then the address, which [sin] has at
    offset 4 and [sin6] at offset 8. The 16-bit fields are read as a little-endian
    machine reads them. *)
Definition AF_INET : Z := 2.
Definition AF_INET6 : Z := 10.
Definition sockaddr_u : Type := list Z.
Definition byte_at (a : sockaddr_u) (i : nat) : Z := default 0 (a !! i).
Definition sa_family (a : sockaddr_u) : Z := byte_at a 0 + 256 * byte_at a 1.
Definition sin_port (a : sockaddr_u) : Z := byte_at a 2 + 256 * byte_at a 3.
Definition sin_addr (a : sockaddr_u) (n : nat) : list Z := take n (drop 4 a).
Definition sin6_addr (a : sockaddr_u) (n : nat) : list Z := take n (drop 8 a).

(** [sizeof(struct in_addr)]. *)
Definition in_addr_size : nat := 4.

(** The difference of the first bytes that differ. *)
Fixpoint memcmp (a b : list Z) : Z :=
  match a, b with
  | x :: a', y :: b' => if x =? y then memcmp a' b' else x - y
  | _, _ => 0
  end.

Definition sockaddr_compare (addr1 addr2 : sockaddr_u) : Z :=
  if negb (sa_family addr1 =? sa_family addr2) then sa_family addr1 - sa_family addr2
  else if sa_family addr1 =? AF_INET then
    if negb (sin_port addr1 =? sin_port addr2) then sin_port addr1 - sin_port addr2
    else memcmp (sin_addr addr1 in_addr_size) (sin_addr addr2 in_addr_size)
  else if sa_family addr1 =? AF_INET6 then
    if negb (sin_port addr1 =? sin_port addr2) then sin_port addr1 - sin_port addr2
    else memcmp (sin6_addr addr1 in_addr_size) (sin6_addr addr2 in_addr_size)
  else memcmp addr1 addr2.

Definition sockaddr_len (a : sockaddr_u) : nat := if sa_family a =? AF_INET then 16 else 28.

(** * The table *)

(** An entry's [rb_node] is in the memory of the tree under the entry's pointer. *)
Record rudp_entry_t := mk_entry { addr : sockaddr_u; io : option ptr }.
#[global] Instance entry_rebuild : Rebuild rudp_entry_t := fun e => mk_entry (addr e) (io e).

Record rudp_t := mk_rudp { rb_root : tree_st; entries : gmap ptr rudp_entry_t }.
#[global] Instance rudp_rebuild : Rebuild rudp_t := fun r => mk_rudp (rb_root r) (entries r).

Definition rudp_init (r : rudp_t) : rudp_t := r.[rb_root := set_root (rb_root r) None].

(** [HV_ALLOC_SIZEOF]: a zeroed entry at the address that malloc gave. *)
Definition rudp_entry_alloc (r : rudp_t) (e : ptr) : rudp_t :=
  mk_rudp (mk_st (root (rb_root r)) (<[e := mk_rb None None None RB_RED]> (mem (rb_root r))))
          (<[e := mk_entry (replicate 28 0) None]> (entries r)).
Definition rudp_entry_free (r : rudp_t) (e : ptr) : option rudp_t :=
  _ ← entries r !! e;
  Some (mk_rudp (mk_st (root (rb_root r)) (delete e (mem (rb_root r)))) (delete e (entries r))).

(** The search of [rudp_insert] and [rudp_get]: the entry with the address, or the
    parent and link of the place for it. *)
Inductive place := Exists (e : ptr) | Vacant (parent : option ptr) (link : option (side * ptr)).
Fixpoint find_place (fuel : nat) (r : rudp_t) (a : sockaddr_u) (n parent : option ptr) (link : option (side * ptr))
  : option place :=
  match n with
  | None => Some (Vacant parent link)
  | Some x =>
      match fuel with
      | O => None
      | S f =>
          e ← entries r !! x;
          nd ← get (rb_root r) x;
          let cmp := sockaddr_compare a (addr e) in
          if cmp <? 0 then find_place f r a (rb_left nd) (Some x) (Some (Lft, x))
          else if 0 <? cmp then find_place f r a (rb_right nd) (Some x) (Some (Rgt, x))
          else Some (Exists x)
      end
  end.
Definition search_place (r : rudp_t) (a : sockaddr_u) : option place :=
  find_place (size (mem (rb_root r))) r a (root (rb_root r)) None None.

Definition link_and_color (r : rudp_t) (e : ptr) (parent : option ptr) (link : option (side * ptr)) : option rudp_t :=
  s ← rb_link_node (rb_root r) e parent link;
  s ← rb_insert_color e s;
  Some (r.[rb_root := s]).

Definition rudp_insert (r : rudp_t) (entry : ptr) : option (rudp_t * bool) :=
  e ← entries r !! entry;
  p ← search_place r (addr e);
  match p with
  | Exists _ => Some (r, false)
  | Vacant parent link => r ← link_and_color r entry parent link; Some (r, true)
  end.

Fixpoint search_loop (fuel : nat) (r : rudp_t) (a : sockaddr_u) (n : option ptr) : option (option ptr) :=
  match n with
  | None => Some None
  | Some x =>
      match fuel with
      | O => None
      | S f =>
          e ← entries r !! x;
          nd ← get (rb_root r) x;
          let cmp := sockaddr_compare a (addr e) in
          if cmp <? 0 then search_loop f r a (rb_left nd)
          else if 0 <? cmp then search_loop f r a (rb_right nd)
          else Some (Some x)
      end
  end.
Definition rudp_search (r : rudp_t) (a : sockaddr_u) : option (option ptr) :=
  search_loop (size (mem (rb_root r))) r a (root (rb_root r)).

Definition rudp_remove (r : rudp_t) (a : sockaddr_u) : option (rudp_t * option ptr) :=
  e ← rudp_search r a;
  match e with
  | None => Some (r, None)
  | Some x => s ← rb_erase x (rb_root r); Some (r.[rb_root := s], Some x)
  end.

(** [fresh] is what malloc returns if the entry is created. *)
Definition rudp_get (r : rudp_t) (a : sockaddr_u) (fresh : ptr) : option (rudp_t * ptr) :=
  p ← search_place r a;
  match p with
  | Exists e => Some (r, e)
  | Vacant parent link =>
      let r := rudp_entry_alloc r fresh in
      e ← entries r !! fresh;
      let n := sockaddr_len a in
      let r := r.[entries := <[fresh := e.[addr := take n a ++ drop n (addr e)]]> (entries r)] in
      r ← link_and_color r fresh parent link;
      Some (r, fresh)
  end.

Definition rudp_del (r : rudp_t) (a : sockaddr_u) : option rudp_t :=
  e ← rudp_search r a;
  match e with
  | None => Some r
  | Some x => s ← rb_erase x (rb_root r); rudp_entry_free (r.[rb_root := s]) x
  end.

Fixpoint cleanup_loop (fuel : nat) (r : rudp_t) : option rudp_t :=
  match root (rb_root r) with
  | None => Some r
  | Some n =>
      match fuel with
      | O => None
      | S f => s ← rb_erase n (rb_root r); r ← rudp_entry_free (r.[rb_root := s]) n; cleanup_loop f r
      end
  end.
Definition rudp_cleanup (r : rudp_t) : option rudp_t := cleanup_loop (size (mem (rb_root r))) r.

(** * The io *)

(** The address of the io, its table and the entries whose close has been posted to
    the loop. *)
Record hio_rudp := mk_io { self : ptr; rudp : rudp_t; peeraddr : sockaddr_u; posted : list ptr }.
#[global] Instance hio_rudp_rebuild : Rebuild hio_rudp := fun i => mk_io (self i) (rudp i) (peeraddr i) (posted i).

Definition hio_get_rudp (i : hio_rudp) (a : option sockaddr_u) (fresh : ptr) : option (hio_rudp * ptr) :=
  '(r, e) ← rudp_get (rudp i) (default (peeraddr i) a) fresh;
  en ← entries r !! e;
  Some (i.[rudp := r.[entries := <[e := en.[io := Some (self i)]]> (entries r)]], e).

Definition hio_close_rudp (i : hio_rudp) (a : option sockaddr_u) (fresh : ptr) : option hio_rudp :=
  '(r, e) ← rudp_get (rudp i) (default (peeraddr i) a) fresh;
  Some (i.[rudp := r].[posted := posted i ++ [e]]).

(** [hio_close_rudp_event_cb] of the oldest posted event; [entry->io] is read. *)
Definition hio_close_rudp_event_cb (i : hio_rudp) : option hio_rudp :=
  match posted i with
  | [] => Some i
  | e :: rest =>
      en ← entries (rudp i) !! e;
      _ ← io en;
      r ← rudp_del (rudp i) (addr en);
      Some (i.[rudp := r].[posted := rest])
  end.

End Rudp.
