(* ===== verification/RudpThm.v ===== *)
(** The table of peers is a map from addresses to entries, as far as
    [sockaddr_compare] tells addresses apart; and what closing a peer may do. *)
From Stdlib Require Import Sorted.
From S2P Require Import Prelude Rbtree RbtreeThm Rudp.

Module RudpThm.
Import Rbtree RbtreeThm Rudp.

(** * The order of addresses *)

Lemma memcmp_refl a : memcmp a a = 0.
Proof. induction a as [|x a IH]; [done|]. simpl. by rewrite Z.eqb_refl. Qed.
Lemma memcmp_antisym a b : memcmp b a = - memcmp a b.
Proof.
  revert b. induction a as [|x a IH]; intros [|y b]; simpl; try done. rewrite (Z.eqb_sym y x).
  destruct (x =? y); [apply IH|lia].
Qed.
Lemma memcmp_0 a b : length a = length b -> memcmp a b = 0 -> a = b.
Proof.
  revert b. induction a as [|x a IH]; intros [|y b] Hl; simpl; try done. destruct (Z.eqb_spec x y) as [->|]; [|lia].
  intros H. f_equal. by apply IH; simpl in Hl; [lia|].
Qed.
Lemma memcmp_trans a b c : length a = length b -> length b = length c ->
  memcmp a b < 0 -> memcmp b c < 0 -> memcmp a c < 0.
Proof.
  revert b c. induction a as [|x a IH]; intros [|y b] [|z c] H1 H2; simpl in *; try done.
  destruct (Z.eqb_spec x y), (Z.eqb_spec y z), (Z.eqb_spec x z); intros; subst; try lia.
  eapply (IH b c); [lia|lia|done|done].
Qed.
Lemma memcmp_app a b z : length a = length b -> memcmp (a ++ z) (b ++ z) = memcmp a b.
Proof.
  revert b. induction a as [|x a IH]; intros [|y b] Hl; simpl in *; try done; [apply memcmp_refl|].
  destruct (x =? y); [apply IH; lia|done].
Qed.

(** What [sockaddr_compare] looks at, padded to one length. *)
Definition key (a : sockaddr_u) : list Z :=
  sa_family a ::
  if sa_family a =? AF_INET then (sin_port a :: sin_addr a in_addr_size) ++ replicate 23 0
  else if sa_family a =? AF_INET6 then (sin_port a :: sin6_addr a in_addr_size) ++ replicate 23 0
  else a.

Lemma length_key a : length a = 28%nat -> length (key a) = 29%nat.
Proof.
  intros H. unfold key, sin_addr, sin6_addr, in_addr_size. cbn [length].
  destruct (sa_family a =? AF_INET); [|destruct (sa_family a =? AF_INET6)];
    rewrite ?length_app, ?length_replicate; cbn [length]; rewrite ?length_take, ?length_drop; lia.
Qed.

Lemma sockaddr_compare_key a b : length a = 28%nat -> length b = 28%nat ->
  sockaddr_compare a b = memcmp (key a) (key b).
Proof.
  intros Ha Hb. unfold sockaddr_compare, key. simpl. destruct (Z.eqb_spec (sa_family a) (sa_family b)) as [E|]; [|done].
  simpl. rewrite <- E.
  assert (length (sin_addr a in_addr_size) = length (sin_addr b in_addr_size) /\
          length (sin6_addr a in_addr_size) = length (sin6_addr b in_addr_size)) as [L1 L2].
  { unfold sin_addr, sin6_addr. rewrite !length_take, !length_drop. lia. }
  destruct (sa_family a =? AF_INET); [|destruct (sa_family a =? AF_INET6); [|done]];
    simpl; (destruct (sin_port a =? sin_port b); [|done]); simpl; by rewrite memcmp_app.
Qed.

#[global] Arguments key : simpl never.
#[global] Arguments memcmp : simpl never.

(** * The table as a map *)

Definition key_of (r : rudp_t) (x : ptr) : list Z := match entries r !! x with Some e => key (addr e) | None => [] end.
Definition before_key (r : rudp_t) (x y : ptr) : Prop := memcmp (key_of r x) (key_of r y) < 0.

(** The table holds the red-black tree [t]: ordered, every node an entry with an
    address of 28 bytes, and every entry with a node. *)
Record Table (r : rudp_t) (t : tree) : Prop := {
  T_rep : Rep (rb_root r) t; T_rb : is_rb t; T_sorted : StronglySorted (before_key r) (keys t);
  T_entries : forall x, x ∈ keys t -> exists e, entries r !! x = Some e;
  T_len : forall x e, entries r !! x = Some e -> length (addr e) = 28%nat;
  T_node : forall x e, entries r !! x = Some e -> is_Some (mem (rb_root r) !! x) }.

(** The map that the table is. *)
Definition Rel (r : rudp_t) (M : gmap (list Z) ptr) : Prop := exists t, Table r t /\
  forall a x, M !! a = Some x <-> x ∈ keys t /\ key_of r x = a.

Lemma compare_key_of r t a x e : Table r t -> length a = 28%nat -> entries r !! x = Some e ->
  sockaddr_compare a (addr e) = memcmp (key a) (key_of r x).
Proof.
  intros HT Ha He. unfold key_of. rewrite He. apply sockaddr_compare_key; [done|]. by eapply T_len.
Qed.
Lemma length_key_of r t x : Table r t -> x ∈ keys t -> length (key_of r x) = 29%nat.
Proof.
  intros HT Hx. destruct (T_entries _ _ HT x Hx) as [e He]. unfold key_of. rewrite He. apply length_key. by eapply T_len.
Qed.

Lemma sorted_around {A} (R : A -> A -> Prop) l1 x l2 : StronglySorted R (l1 ++ x :: l2) ->
  (forall y, y ∈ l1 -> R y x) /\ (forall y, y ∈ l2 -> R x y).
Proof.
  induction l1 as [|y l1 IH]; simpl; intros H; apply StronglySorted_inv in H as [H1 H2].
  - split; [set_solver|]. by apply Forall_forall.
  - destruct (IH H1) as [IH1 IH2]. split; [|done]. intros z Hz. apply elem_of_cons in Hz as [->|Hz]; [|auto].
    rewrite Forall_forall in H2. apply H2. set_solver.
Qed.

(** The place of an address: every key before it is less, every key after it greater. *)
Definition fits (r : rudp_t) (a : sockaddr_u) (k : list frame) : Prop :=
  (forall z, z ∈ before k -> memcmp (key_of r z) (key a) < 0) /\ (forall z, z ∈ after k -> memcmp (key a) (key_of r z) < 0).

Lemma find_place_ok r t a : Table r t -> length a = 28%nat -> forall fuel k t',
  t = plug k t' -> fits r a k -> (length (keys t') <= fuel)%nat ->
  (exists x, find_place fuel r a (rootp t') (ctxp k) (link_of k) = Some (Exists x) /\ x ∈ keys t /\ key_of r x = key a) \/
  (exists k', find_place fuel r a (rootp t') (ctxp k) (link_of k) = Some (Vacant (ctxp k') (link_of k')) /\
     t = plug k' E /\ fits r a k').
Proof.
  intros HT Ha. induction fuel as [|fuel IH]; intros k t' Et [Hb Hf] Hlen.
  { destruct t'; simpl in Hlen; [right; by exists k|rewrite length_app in Hlen; simpl in Hlen; lia]. }
  destruct t' as [|c l x r']; [right; by exists k|]. simpl rootp. simpl in Hlen. rewrite length_app in Hlen. simpl in Hlen.
  pose proof (T_rep _ _ HT) as HR. rewrite Et in HR. pose proof (get_focus _ k Lft _ _ _ _ HR) as Hg.
  assert (x ∈ keys t) as Hx by (rewrite Et, elem_plug; simpl; set_solver).
  destruct (T_entries _ _ HT x Hx) as [e He]. pose proof (T_sorted _ _ HT) as Hs. rewrite Et, keys_around in Hs. simpl in Hs.
  rewrite <- app_assoc, (app_assoc (before k)) in Hs. simpl in Hs. destruct (sorted_around _ _ _ _ Hs) as [Hs1 Hs2].
  pose proof (length_key_of r t x HT Hx) as Lx. pose proof (length_key a Ha) as La.
  assert (forall z, z ∈ keys l \/ z ∈ keys r' -> length (key_of r z) = 29%nat) as Lz.
  { intros z Hz. apply (length_key_of r t z HT). rewrite Et, elem_plug. simpl. set_solver. }
  simpl find_place. rewrite He. cbn [mbind option_bind]. rewrite Hg. cbn [mbind option_bind node_of rb_left rb_right].
  rewrite (compare_key_of r t a x e HT Ha He). destruct (Z.ltb_spec (memcmp (key a) (key_of r x)) 0) as [Hlt|Hge].
  - apply (IH (F Lft c x r' :: k) l); [by rewrite Et| |lia]. split; simpl; [by rewrite app_nil_r|].
    intros z Hz. apply elem_of_cons in Hz as [->|Hz]; [done|]. apply elem_of_app in Hz as [Hz|Hz]; [|by apply Hf].
    eapply memcmp_trans; [| |exact Hlt|apply Hs2; set_solver]; [lia|rewrite (Lz z) by auto; lia].
  - destruct (Z.ltb_spec 0 (memcmp (key a) (key_of r x))) as [Hgt|Hle].
    + apply (IH (F Rgt c x l :: k) r'); [by rewrite Et| |lia]. rewrite memcmp_antisym in Hgt. split; simpl; [|done].
      intros z Hz. apply elem_of_app in Hz as [Hz|Hz]; [by apply Hb|]. apply elem_of_app in Hz as [Hz|Hz].
      * eapply memcmp_trans; [| |apply Hs1; set_solver|]; [rewrite (Lz z) by auto; lia|lia|lia].
      * apply list_elem_of_singleton in Hz as ->. lia.
    + left. exists x. split_and!; [done|done|]. symmetry. apply memcmp_0; [lia|lia].
Qed.

Lemma search_loop_place fuel r a : forall n p l,
  search_loop fuel r a n = (pl ← find_place fuel r a n p l; Some (match pl with Exists x => Some x | Vacant _ _ => None end)).
Proof.
  induction fuel as [|fuel IH]; intros [x|] p l; simpl; try done. destruct (entries r !! x) as [e|]; [|done]. simpl.
  destruct (get (rb_root r) x) as [nd|]; [|done]. simpl. destruct (_ <? 0); [apply IH|]. destruct (0 <? _); [apply IH|done].
Qed.

Lemma sorted_ne r t x y : Table r t -> x ∈ keys t -> y ∈ keys t -> x <> y -> key_of r x <> key_of r y.
Proof.
  intros HT Hx Hy Hne Ek. pose proof (T_sorted _ _ HT) as Hs. apply list_elem_of_split in Hx as (l1 & l2 & E). rewrite E in Hs, Hy.
  destruct (sorted_around _ _ _ _ Hs) as [H1 H2]. unfold before_key in *. apply elem_of_app in Hy as [Hy|Hy].
  - specialize (H1 y Hy). rewrite Ek, memcmp_refl in H1. lia.
  - apply elem_of_cons in Hy as [->|Hy]; [done|]. specialize (H2 y Hy). rewrite Ek, memcmp_refl in H2. lia.
Qed.

Lemma sorted_ext r r' l : (forall x, x ∈ l -> key_of r' x = key_of r x) ->
  StronglySorted (before_key r) l -> StronglySorted (before_key r') l.
Proof.
  intros Hk Hs. induction Hs as [|x l Hs IH Hx]; constructor.
  - apply IH. intros y Hy. apply Hk. set_solver.
  - rewrite Forall_forall in *. intros y Hy. unfold before_key. rewrite !Hk by set_solver. by apply Hx.
Qed.

Lemma sorted_insert {A} (R : A -> A -> Prop) l1 x l2 : StronglySorted R (l1 ++ l2) ->
  (forall y, y ∈ l1 -> R y x) -> (forall y, y ∈ l2 -> R x y) -> StronglySorted R (l1 ++ x :: l2).
Proof.
  induction l1 as [|y l1 IH]; simpl; intros Hs H1 H2.
  - constructor; [done|]. by apply Forall_forall.
  - apply StronglySorted_inv in Hs as [Hs Hy]. constructor; [apply IH; [done|intros; apply H1; set_solver|done]|].
    rewrite Forall_forall in *. intros z Hz. apply elem_of_app in Hz as [Hz|Hz]; [apply Hy; set_solver|].
    apply elem_of_cons in Hz as [->|Hz]; [apply H1; set_solver|apply Hy; set_solver].
Qed.

Lemma sorted_remove {A} (R : A -> A -> Prop) l1 x l2 : StronglySorted R (l1 ++ x :: l2) -> StronglySorted R (l1 ++ l2).
Proof.
  induction l1 as [|y l1 IH]; simpl; intros Hs; apply StronglySorted_inv in Hs as [Hs Hy]; [done|].
  constructor; [by apply IH|]. rewrite Forall_forall in *. intros z Hz. apply Hy. set_solver.
Qed.

(** The search of an address in the table. *)
Lemma search_place_ok r t a : Table r t -> length a = 28%nat ->
  (exists x, search_place r a = Some (Exists x) /\ x ∈ keys t /\ key_of r x = key a) \/
  (exists k, search_place r a = Some (Vacant (ctxp k) (link_of k)) /\ t = plug k E /\ fits r a k).
Proof.
  intros HT Ha. unfold search_place. rewrite (R_root _ _ (T_rep _ _ HT)).
  apply (find_place_ok r t a HT Ha (size (mem (rb_root r))) [] t eq_refl).
  - split; simpl; set_solver.
  - by apply Rep_size, T_rep.
Qed.

Lemma fits_fresh r a k x : fits r a k -> x ∈ keys (plug k E) -> key_of r x <> key a.
Proof.
  intros [H1 H2]. rewrite keys_around. simpl. intros Hx Ek. apply elem_of_app in Hx as [Hx|Hx].
  - specialize (H1 x Hx). rewrite Ek, memcmp_refl in H1. lia.
  - specialize (H2 x Hx). rewrite Ek, memcmp_refl in H2. lia.
Qed.

Lemma rudp_search_ok r M a : Rel r M -> length a = 28%nat -> rudp_search r a = Some (M !! key a).
Proof.
  intros (t & HT & HM) Ha. unfold rudp_search. rewrite (search_loop_place _ _ _ _ None None).
  destruct (search_place_ok r t a HT Ha) as [(x & E & Hx & Ek)|(k & E & -> & Hfit)]; unfold search_place in E; rewrite E; simpl; f_equal; symmetry.
  - by apply HM.
  - destruct (M !! key a) as [x|] eqn:Em; [|done]. apply HM in Em as [Hx Ek]. exfalso. by eapply fits_fresh.
Qed.

(** A node unlinked from the tree. *)
Lemma Table_erase r t x : Table r t -> x ∈ keys t ->
  exists s t', rb_erase x (rb_root r) = Some s /\ Table (r.[rb_root := s]) t' /\ (forall z, z ∈ keys t' <-> z ∈ keys t /\ z <> x).
Proof.
  intros HT Hx. pose proof (R_nodup _ _ (T_rep _ _ HT)) as Hnd.
  destruct (rb_erase_ok _ _ _ (T_rep _ _ HT) (T_rb _ _ HT) Hx) as (s & E & t' & A & B & HR & Hrb & Ek & Ek' & Hf).
  assert (forall z, z ∈ keys t' <-> z ∈ keys t /\ z <> x) as Hkeys.
  { intros z. rewrite Ek, Ek'. rewrite Ek in Hnd. apply NoDup_app in Hnd as (_ & D & Hnd). apply NoDup_cons in Hnd as [Hn _].
    split; [|set_solver]. intros Hz. split; [set_solver|]. intros ->. apply elem_of_app in Hz as [Hz|Hz]; [|done]. apply (D x Hz). set_solver. }
  exists s, t'. split; [done|]. split; [|done]. split; simpl; [done|done| | |by apply HT|].
  - rewrite Ek'. pose proof (T_sorted _ _ HT) as Hs. rewrite Ek in Hs. by eapply sorted_remove, Hs.
  - intros z Hz. apply Hkeys in Hz as [Hz _]. by apply HT.
  - intros z e He. apply elem_of_dom. rewrite (erase_dom _ _ _ E). apply elem_of_dom. by eapply T_node.
Qed.

(** An entry outside the tree freed. *)
Lemma Table_free r t x e : Table r t -> x ∉ keys t -> entries r !! x = Some e ->
  exists r', rudp_entry_free r x = Some r' /\ Table r' t /\ entries r' = delete x (entries r) /\
    (forall z, z <> x -> key_of r' z = key_of r z).
Proof.
  intros HT Hx He. unfold rudp_entry_free. rewrite He. simpl. eexists. split; [done|].
  assert (forall z, z <> x -> key_of (mk_rudp (mk_st (root (rb_root r)) (delete x (mem (rb_root r)))) (delete x (entries r))) z = key_of r z) as Hk.
  { intros z Hz. unfold key_of. simpl. by rewrite lookup_delete_ne. }
  split; [|done]. split; simpl.
  - destruct (T_rep _ _ HT) as [A1 A2 A3]. split; simpl; [|done|done]. eapply rep_frame; [|exact A1].
    intros z Hz. apply lookup_delete_ne. congruence.
  - apply HT.
  - eapply sorted_ext; [|by apply HT]. intros z Hz. apply Hk. congruence.
  - intros z Hz. destruct (T_entries _ _ HT z Hz) as [ez Hez]. exists ez. rewrite lookup_delete_ne; [done|congruence].
  - intros z ez Hez. apply lookup_delete_Some in Hez as [_ Hez]. by eapply T_len.
  - intros z ez Hez. apply lookup_delete_Some in Hez as [Hne Hez]. rewrite lookup_delete_ne by done. by eapply T_node.
Qed.

(** An entry outside the tree linked at the place of its address. *)
Lemma Table_link r t x k a : Table r t -> t = plug k E -> x ∉ keys t -> is_Some (entries r !! x) -> key_of r x = key a -> fits r a k ->
  exists r' t', link_and_color r x (ctxp k) (link_of k) = Some r' /\ Table r' t' /\ entries r' = entries r /\
    (forall z, z ∈ keys t' <-> z ∈ keys t \/ z = x).
Proof.
  intros HT -> Hx [ex Hex] Ek [Hb Ha].
  destruct (rb_insert_ok _ _ _ (T_rep _ _ HT) (T_rb _ _ HT) Hx) as (s1 & s2 & t' & E1 & E2 & HR & Hrb & Eks & Hf); [by eapply T_node|].
  assert (forall z, z ∈ keys t' <-> z ∈ keys (plug k E) \/ z = x) as Hkeys by (intros z; rewrite Eks, keys_around; simpl; set_solver).
  unfold link_and_color. rewrite E1. cbn [mbind option_bind]. rewrite E2. cbn [mbind option_bind].
  eexists _, t'. split; [done|]. split; [|done]. split; simpl; [done|done| | |by apply HT|].
  - rewrite Eks. apply sorted_insert.
    + pose proof (T_sorted _ _ HT) as Hs. rewrite keys_around in Hs. exact Hs.
    + intros y Hy. unfold before_key. change (key_of (r.[rb_root := s2])) with (key_of r). rewrite Ek. by apply Hb.
    + intros y Hy. unfold before_key. change (key_of (r.[rb_root := s2])) with (key_of r). rewrite Ek. by apply Ha.
  - intros z Hz. apply Hkeys in Hz as [Hz| ->]; [by apply HT|by exists ex].
  - intros z e He. apply elem_of_dom. rewrite (insert_color_dom _ _ _ E2), (link_node_dom _ _ _ _ _ E1). apply elem_of_dom. by eapply T_node.
Qed.

Lemma length_copy a : length a = 28%nat -> length (take (sockaddr_len a) a ++ drop (sockaddr_len a) (replicate 28 0)) = 28%nat.
Proof. intros H. rewrite length_app, length_take, length_drop, length_replicate. unfold sockaddr_len. case_match; lia. Qed.

(** The bytes that are copied into an entry keep its key. *)
Lemma key_copy a : length a = 28%nat -> key (take (sockaddr_len a) a ++ drop (sockaddr_len a) (replicate 28 0)) = key a.
Proof.
  intros H. unfold sockaddr_len. destruct (Z.eqb_spec (sa_family a) AF_INET) as [E|E].
  - do 28 (destruct a as [|? a]; [done|]). unfold key, sa_family, sin_port, sin_addr, byte_at in *. simpl in *. by rewrite E.
  - rewrite take_ge by lia. by rewrite drop_ge, app_nil_r by (rewrite length_replicate; lia).
Qed.

(** A fresh entry for an address. *)
Lemma Table_alloc r t x a : Table r t -> length a = 28%nat -> mem (rb_root r) !! x = None -> entries r !! x = None ->
  let r1 := rudp_entry_alloc r x in
  let e := mk_entry (take (sockaddr_len a) a ++ drop (sockaddr_len a) (replicate 28 0)) None in
  let r2 := r1.[entries := <[x := e]> (entries r1)] in
  Table r2 t /\ x ∉ keys t /\ key_of r2 x = key a /\ (forall z, z <> x -> key_of r2 z = key_of r z).
Proof.
  intros HT Ha Hm He. cbv zeta. set (e := mk_entry _ None). set (r2 := (rudp_entry_alloc r x).[entries := _]).
  assert (entries r2 = <[x := e]> (entries r)) as Ee by apply insert_insert_eq.
  assert (mem (rb_root r2) = <[x := mk_rb None None None RB_RED]> (mem (rb_root r))) as Em by done.
  assert (root (rb_root r2) = root (rb_root r)) as Er by done. clearbody r2.
  assert (x ∉ keys t) as Hx.
  { intros Hx. destruct (rep_dom _ _ _ _ (R_rep _ _ (T_rep _ _ HT)) Hx) as [n Hn]. congruence. }
  assert (forall z, z <> x -> key_of r2 z = key_of r z) as Hk.
  { intros z Hz. unfold key_of. rewrite Ee. by rewrite lookup_insert_ne. }
  split_and!; [|done| |done].
  - split.
    + destruct (T_rep _ _ HT) as [A1 A2 A3]. split; [|congruence|done]. rewrite Em. eapply rep_frame; [|exact A1].
      intros z Hz. apply lookup_insert_ne. congruence.
    + apply HT.
    + eapply sorted_ext; [|by apply HT]. intros z Hz. apply Hk. congruence.
    + intros z Hz. destruct (T_entries _ _ HT z Hz) as [ez Hez]. exists ez. rewrite Ee, lookup_insert_ne; [done|congruence].
    + intros z ez Hez. rewrite Ee in Hez. apply lookup_insert_Some in Hez as [[<- <-]|[_ Hez]]; [by apply length_copy|by eapply T_len].
    + intros z ez Hez. rewrite Ee in Hez. rewrite Em. destruct (decide (z = x)) as [->|Hne]; [rewrite lookup_insert_eq; by eexists|].
      rewrite lookup_insert_ne in Hez by congruence. rewrite lookup_insert_ne by congruence. by eapply T_node.
  - unfold key_of. rewrite Ee, lookup_insert_eq. simpl. by apply key_copy.
Qed.

(** * The operations *)

Lemma rudp_get_ok r M a p : Rel r M -> length a = 28%nat -> mem (rb_root r) !! p = None -> entries r !! p = None ->
  exists r', rudp_get r a p = Some (r', default p (M !! key a)) /\
    Rel r' (match M !! key a with Some _ => M | None => <[key a := p]> M end).
Proof.
  intros (t & HT & HM) Ha Hm He. unfold rudp_get.
  destruct (search_place_ok r t a HT Ha) as [(x & -> & Hx & Ek)|(k & -> & Et & Hfit)]; cbn [mbind option_bind].
  - assert (M !! key a = Some x) as -> by by apply HM. exists r. split; [done|]. by exists t.
  - assert (M !! key a = None) as Ea.
    { destruct (M !! key a) as [x|] eqn:Em; [|done]. apply HM in Em as [Hx Ek]. exfalso. subst t. by eapply fits_fresh. }
    rewrite Ea. destruct (Table_alloc r t p a HT Ha Hm He) as (HT2 & Hp & Ekp & Hk).
    assert (entries (rudp_entry_alloc r p) !! p = Some (mk_entry (replicate 28 0) None)) as Ep by apply lookup_insert_eq.
    rewrite Ep. cbn [mbind option_bind addr].
    set (r2 := (rudp_entry_alloc r p).[entries := _]) in *.
    assert (is_Some (entries r2 !! p)) as Hex by (unfold r2; simpl; rewrite lookup_insert_eq; by eexists).
    destruct (Table_link r2 t p k a HT2 Et Hp Hex Ekp) as (r3 & t3 & E3 & HT3 & Ee3 & Hkeys).
    { assert (forall z, z ∈ keys t -> key_of r2 z = key_of r z) as Hk' by (intros z Hz; apply Hk; congruence).
      rewrite Et, keys_around in Hk'. simpl in Hk'. destruct Hfit as [F1 F2]. split; intros z Hz; rewrite Hk' by set_solver; auto. }
    rewrite E3. cbn [mbind option_bind]. exists r3. split; [done|]. exists t3. split; [done|].
    assert (forall z, key_of r3 z = key_of r2 z) as Hk3 by (intros z; unfold key_of; by rewrite Ee3).
    intros b x. rewrite lookup_insert_Some, HM, Hkeys, Hk3. split.
    + intros [[<- <-]|[Hne [Hx Ekx]]]; [by split; [right|]|]. split; [by left|]. rewrite Hk; congruence.
    + intros [[Hx| ->] Ekx]; [|left; by rewrite <- Ekx]. right. rewrite Hk in Ekx by congruence. split; [|done].
      intros Eb. assert (M !! key a = Some x) as Em by (apply HM; split; congruence). congruence.
Qed.

Lemma Rel_erase r M t x : Table r t -> (forall a y, M !! a = Some y <-> y ∈ keys t /\ key_of r y = a) -> x ∈ keys t ->
  forall r' t', Table r' t' -> (forall z, z ∈ keys t' <-> z ∈ keys t /\ z <> x) -> (forall z, z <> x -> key_of r' z = key_of r z) ->
  Rel r' (delete (key_of r x) M).
Proof.
  intros HT HM Hx r' t' HT' Hkeys Hk. exists t'. split; [done|]. intros a y. rewrite lookup_delete_Some, HM, Hkeys. split.
  - intros [Hne [Hy Ek]]. assert (y <> x) by congruence. split; [done|]. by rewrite Hk.
  - intros [[Hy Hne] Ek]. rewrite Hk in Ek by done. split; [|done]. rewrite <- Ek.
    apply not_eq_sym. by apply (sorted_ne r t).
Qed.

Lemma rudp_remove_ok r M a : Rel r M -> length a = 28%nat ->
  exists r', rudp_remove r a = Some (r', M !! key a) /\ Rel r' (delete (key a) M) /\ entries r' = entries r.
Proof.
  intros HRel Ha. unfold rudp_remove. rewrite (rudp_search_ok r M a HRel Ha). cbn [mbind option_bind].
  destruct HRel as (t & HT & HM). destruct (M !! key a) as [x|] eqn:Ex.
  - pose proof Ex as Ex'. apply HM in Ex' as [Hx Ek]. destruct (Table_erase r t x HT Hx) as (s & t' & -> & HT' & Hkeys). cbn [mbind option_bind].
    eexists. split; [done|]. split; [|done]. rewrite <- Ek. eapply Rel_erase; [exact HT|done|done|exact HT'|done|done].
  - exists r. split; [done|]. split; [|done]. rewrite delete_id by done. by exists t.
Qed.

Lemma rudp_del_ok r M a : Rel r M -> length a = 28%nat ->
  exists r', rudp_del r a = Some r' /\ Rel r' (delete (key a) M) /\
    entries r' = match M !! key a with Some x => delete x (entries r) | None => entries r end.
Proof.
  intros HRel Ha. unfold rudp_del. rewrite (rudp_search_ok r M a HRel Ha). cbn [mbind option_bind].
  destruct HRel as (t & HT & HM). destruct (M !! key a) as [x|] eqn:Ex.
  - pose proof Ex as Ex'. apply HM in Ex' as [Hx Ek]. destruct (Table_erase r t x HT Hx) as (s & t' & -> & HT' & Hkeys). cbn [mbind option_bind].
    destruct (T_entries _ _ HT x Hx) as [e He].
    destruct (Table_free (r.[rb_root := s]) t' x e HT') as (r' & -> & HT'' & Ee & Hk); [rewrite Hkeys; tauto|done|].
    exists r'. split; [done|]. split; [|done]. rewrite <- Ek. eapply Rel_erase; [exact HT|done|done|exact HT''|done|done].
  - exists r. split; [done|]. split; [|done]. rewrite delete_id by done. by exists t.
Qed.

(** A detached entry put back. *)
Lemma rudp_insert_ok r M x e : Rel r M -> entries r !! x = Some e -> (forall a, M !! a <> Some x) ->
  exists r', rudp_insert r x = Some (r', bool_decide (M !! key (addr e) = None)) /\ entries r' = entries r /\
    Rel r' (match M !! key (addr e) with Some _ => M | None => <[key (addr e) := x]> M end).
Proof.
  intros (t & HT & HM) He Hx. unfold rudp_insert. rewrite He. cbn [mbind option_bind]. pose proof (T_len _ _ HT x e He) as Ha.
  destruct (search_place_ok r t (addr e) HT Ha) as [(y & -> & Hy & Ek)|(k & -> & Et & Hfit)]; cbn [mbind option_bind].
  - assert (M !! key (addr e) = Some y) as -> by by apply HM. exists r. split; [done|]. split; [done|]. by exists t.
  - assert (M !! key (addr e) = None) as Ea.
    { destruct (M !! key (addr e)) as [y|] eqn:Em; [|done]. apply HM in Em as [Hy Ek]. exfalso. subst t. by eapply fits_fresh. }
    rewrite Ea. assert (x ∉ keys t) as Hxt by (intros Hin; apply (Hx (key_of r x)), HM; done).
    assert (key_of r x = key (addr e)) as Ek by (unfold key_of; by rewrite He).
    destruct (Table_link r t x k (addr e) HT Et Hxt) as (r3 & t3 & -> & HT3 & Ee3 & Hkeys); [by eexists|done|done|].
    cbn [mbind option_bind]. exists r3. split; [done|]. split; [done|]. exists t3. split; [done|].
    assert (forall z, key_of r3 z = key_of r z) as Hk3 by (intros z; unfold key_of; by rewrite Ee3).
    intros b y. rewrite lookup_insert_Some, HM, Hkeys, Hk3. split.
    + intros [[<- <-]|[Hne [Hy Eky]]]; [by split; [right|]|]. split; [by left|done].
    + intros [[Hy| ->] Eky]; [|left; by rewrite <- Eky]. right. split; [|done].
      intros Eb. assert (M !! key (addr e) = Some y) as Em by (apply HM; split; congruence). congruence.
Qed.

(** * Runs *)

Inductive op := Get (a : sockaddr_u) | Search (a : sockaddr_u) | Remove (a : sockaddr_u) | Del (a : sockaddr_u).
Definition op_addr (o : op) : sockaddr_u := match o with Get a | Search a | Remove a | Del a => a end.

(** An operation with the pointer that malloc gives if it allocates. *)
Definition run_op (r : rudp_t) (o : op) (p : ptr) : option (rudp_t * option ptr) :=
  match o with
  | Get a => '(r, e) ← rudp_get r a p; Some (r, Some e)
  | Search a => e ← rudp_search r a; Some (r, e)
  | Remove a => rudp_remove r a
  | Del a => r ← rudp_del r a; Some (r, None)
  end.
Fixpoint run (r : rudp_t) (l : list (op * ptr)) : option (rudp_t * list (option ptr)) :=
  match l with
  | [] => Some (r, [])
  | (o, p) :: l => '(r, e) ← run_op r o p; '(r, es) ← run r l; Some (r, e :: es)
  end.

(** malloc gives pointers that are not in use. *)
Fixpoint fresh_ptrs (r : rudp_t) (l : list (op * ptr)) : bool :=
  match l with
  | [] => true
  | (o, p) :: l =>
      bool_decide (mem (rb_root r) !! p = None) && bool_decide (entries r !! p = None) &&
      match run_op r o p with Some (r', _) => fresh_ptrs r' l | None => true end
  end.

(** The same on a map. *)
Definition spec_op (M : gmap (list Z) ptr) (o : op) (p : ptr) : gmap (list Z) ptr * option ptr :=
  match o with
  | Get a => match M !! key a with Some x => (M, Some x) | None => (<[key a := p]> M, Some p) end
  | Search a => (M, M !! key a)
  | Remove a => (delete (key a) M, M !! key a)
  | Del a => (delete (key a) M, None)
  end.
Fixpoint spec_run (M : gmap (list Z) ptr) (l : list (op * ptr)) : gmap (list Z) ptr * list (option ptr) :=
  match l with
  | [] => (M, [])
  | (o, p) :: l => let '(M, e) := spec_op M o p in let '(M, es) := spec_run M l in (M, e :: es)
  end.

Lemma run_op_ok r M o p : Rel r M -> length (op_addr o) = 28%nat -> mem (rb_root r) !! p = None -> entries r !! p = None ->
  exists r', run_op r o p = Some (r', (spec_op M o p).2) /\ Rel r' (spec_op M o p).1.
Proof.
  intros HR Ha Hm He. destruct o as [a|a|a|a]; simpl in Ha |- *.
  - destruct (rudp_get_ok r M a p HR Ha Hm He) as (r' & -> & HR'). exists r'. simpl. by destruct (M !! key a).
  - rewrite (rudp_search_ok r M a HR Ha). by exists r.
  - destruct (rudp_remove_ok r M a HR Ha) as (r' & -> & HR' & _). by exists r'.
  - destruct (rudp_del_ok r M a HR Ha) as (r' & -> & HR' & _). by exists r'.
Qed.

Lemma Rel_empty m en : (forall x e, en !! x = Some e -> length (addr e) = 28%nat /\ is_Some (m !! x)) -> forall rt,
  Rel (rudp_init (mk_rudp (mk_st rt m) en)) ∅.
Proof.
  intros H rt. exists E. split.
  - split; simpl; [split; [done|done|constructor]|by exists 0%nat; constructor|constructor|set_solver|..]; intros x e He; by apply (H x e).
  - intros a x. rewrite lookup_empty. simpl. set_solver.
Qed.

(** C27. The table of peers is a map from addresses to entries: from an initialised
    table, any sequence of gets, searches, removals and deletions succeeds and gives the
    results of the same operations on a finite map keyed by what [sockaddr_compare]
    looks at; the table ends as that map, in a red-black tree ordered by the keys. *)
Theorem rudp_refines_map r M l : Rel r M -> Forall (fun o => length (op_addr o.1) = 28%nat) l -> fresh_ptrs r l = true ->
  exists r', run r l = Some (r', (spec_run M l).2) /\ Rel r' (spec_run M l).1.
Proof.
  intros HR Hl. revert r M HR. induction Hl as [|[o p] l Ho _ IH]; intros r M HR Hf; simpl in *; [by exists r|].
  apply andb_prop in Hf as [Hme Hf]. apply andb_prop in Hme as [Hm%bool_decide_eq_true He%bool_decide_eq_true].
  destruct (run_op_ok r M o p HR Ho Hm He) as (r1 & E1 & HR1).
  destruct (spec_op M o p) as [M1 e1] eqn:Es. simpl in E1, HR1. rewrite E1 in Hf |- *. cbn [mbind option_bind].
  destruct (IH r1 M1 HR1 Hf) as (r2 & E2 & HR2). destruct (spec_run M1 l) as [M2 es]. simpl in E2, HR2.
  rewrite E2. cbn [mbind option_bind]. by exists r2.
Qed.

Definition peer4 (port host : Z) : sockaddr_u := [2; 0; 0; port; 10; 0; 0; host] ++ replicate 20 0.
Definition sample_run : list (op * ptr) :=
  [(Get (peer4 80 1), 11); (Get (peer4 80 2), 12); (Get (peer4 81 1), 13); (Get (peer4 80 1), 14);
   (Remove (peer4 80 2), 15); (Search (peer4 80 2), 16); (Del (peer4 81 1), 17); (Search (peer4 80 1), 18)].

Lemma rudp_refines_map_witness : exists r',
  run (mk_rudp (mk_st None ∅) ∅) sample_run
    = Some (r', [Some 11; Some 12; Some 13; Some 11; Some 12; None; None; Some 11]) /\ Rel r' {[key (peer4 80 1) := 11]}.
Proof.
  destruct (rudp_refines_map (mk_rudp (mk_st None ∅) ∅) ∅ sample_run) as (r' & E & HR).
  - exact (Rel_empty ∅ ∅ (fun x e H => False_ind _ (eq_ind None (fun o => match o with None => True | Some _ => False end) I _ H)) None).
  - repeat constructor.
  - vm_compute. reflexivity.
  - exists r'. split; [rewrite E; vm_compute; reflexivity|].
    assert ((spec_run ∅ sample_run).1 = {[key (peer4 80 1) := 11]}) as <- by (vm_compute; reflexivity). exact HR.
Defined.

(** [rudp_cleanup] ends with an empty tree and frees exactly the entries of the table. *)
Lemma rudp_cleanup_ok r M : Rel r M ->
  exists r', rudp_cleanup r = Some r' /\ root (rb_root r') = None /\
    forall x, ((exists a, M !! a = Some x) -> entries r' !! x = None) /\
              ((forall a, M !! a <> Some x) -> entries r' !! x = entries r !! x).
Proof.
  intros (t & HT & HM). unfold rudp_cleanup. assert (length (keys t) <= size (mem (rb_root r)))%nat as Hsz by (by apply Rep_size, T_rep).
  enough (exists r', cleanup_loop (size (mem (rb_root r))) r = Some r' /\ root (rb_root r') = None /\
    forall x, entries r' !! x = if decide (x ∈ keys t) then None else entries r !! x) as (r' & E & Hr & Hx).
  { exists r'. split_and!; [done|done|]. intros x. rewrite Hx. split.
    - intros [a Ha]. apply HM in Ha as [Hin _]. by rewrite decide_True.
    - intros Hno. rewrite decide_False; [done|]. intros Hin. apply (Hno (key_of r x)), HM. done. }
  clear M HM. revert Hsz. generalize (size (mem (rb_root r))) as fuel. intros fuel Hsz. revert r t HT Hsz.
  induction fuel as [|fuel IH]; intros r t HT Hlen; simpl; rewrite (R_root _ _ (T_rep _ _ HT)).
  - destruct t as [|c l x r']; [|simpl in Hlen; rewrite length_app in Hlen; simpl in Hlen; lia].
    simpl. exists r. split_and!; [done|by rewrite (R_root _ _ (T_rep _ _ HT))|]. done.
  - destruct t as [|c l n rt]; [simpl; exists r; split_and!; [done|by rewrite (R_root _ _ (T_rep _ _ HT))|];
      done|].
    simpl rootp. cbv iota. assert (n ∈ keys (T c l n rt)) as Hn by (simpl; set_solver).
    destruct (Table_erase r _ n HT Hn) as (s & t' & -> & HT' & Hkeys). cbn [mbind option_bind].
    destruct (T_entries _ _ HT n Hn) as [e He].
    destruct (Table_free (r.[rb_root := s]) t' n e HT') as (r' & -> & HT'' & Ee & _); [rewrite Hkeys; tauto|done|]. cbn [mbind option_bind].
    destruct (IH r' t' HT'') as (r2 & -> & Hr2 & Hx2).
    { assert (length (keys t') < length (keys (T c l n rt)))%nat; [|lia].
      pose proof (R_nodup _ _ (T_rep _ _ HT')) as Hnd'. pose proof (R_nodup _ _ (T_rep _ _ HT)) as Hnd.
      rewrite <- !(size_list_to_set (C := gset Z)) by done. apply subset_size. split; [set_solver|].
      intros Hsub. specialize (Hsub n). rewrite !elem_of_list_to_set, Hkeys in Hsub. tauto. }
    exists r2. split_and!; [done|done|]. intros x. rewrite Hx2, Ee. simpl entries.
    destruct (decide (x ∈ keys t')) as [Hin|Hin].
    + rewrite decide_True; [done|]. by apply Hkeys in Hin as [? _].
    + destruct (decide (x = n)) as [->|Hne]; [rewrite lookup_delete_eq, decide_True; done|].
      rewrite lookup_delete_ne by done. rewrite decide_False; [done|]. intros Hin'. apply Hin, Hkeys. done.
Qed.

(** * What goes wrong *)

(** [sockaddr_compare] looks at the first four bytes of an IPv6 address only: two
    peers with the same port whose addresses agree there are one peer to the table, and
    the second is given the entry, and so the connection, of the first. *)
Lemma ipv6_peers_collide r M a b p q r1 e :
  Rel r M -> length a = 28%nat -> length b = 28%nat ->
  sa_family a = AF_INET6 -> sa_family b = AF_INET6 -> sin_port a = sin_port b -> sin6_addr a 4 = sin6_addr b 4 ->
  mem (rb_root r) !! p = None -> entries r !! p = None -> rudp_get r a p = Some (r1, e) ->
  rudp_get r1 b q = Some (r1, e).
Proof.
  intros HR La Lb Fa Fb Ep Ea Hm He Eg.
  destruct (rudp_get_ok r M a p HR La Hm He) as (r1' & Eg' & t & HT & HM). rewrite Eg in Eg'. injection Eg' as -> ->.
  assert (key b = key a) as Ek.
  { unfold key, in_addr_size. rewrite Fa, Fb. simpl. by rewrite Ep, Ea. }
  unfold rudp_get. destruct (search_place_ok r1' t b HT Lb) as [(x & -> & Hx & Ekx)|(k & _ & Et & Hfit)]; cbn [mbind option_bind].
  - repeat f_equal. rewrite Ek in Ekx. assert (match M !! key a with Some _ => M | None => <[key a := p]> M end !! key a = Some x) as E
      by (apply HM; done). destruct (M !! key a) as [y|] eqn:Ey; simpl in *; [congruence|]. rewrite lookup_insert_eq in E. congruence.
  - exfalso. assert (exists y, match M !! key a with Some _ => M | None => <[key a := p]> M end !! key a = Some y) as [y Ey].
    { destruct (M !! key a) as [y|] eqn:Ey; [by exists y|]. exists p. by rewrite lookup_insert_eq. }
    apply HM in Ey as [Hy Eky]. subst t. eapply (fits_fresh r1' b k y); [done|done|]. congruence.
Qed.

Definition peer6 (last : Z) : sockaddr_u :=
  [10; 0; 31; 144; 0; 0; 0; 0; 32; 1; 13; 184; 0; 0; 0; 0; 0; 0; 0; 0; 0; 0; 0; last; 0; 0; 0; 0].

Lemma ipv6_peers_collide_witness : exists r1,
  rudp_get (mk_rudp (mk_st None ∅) ∅) (peer6 1) 11 = Some (r1, 11) /\ rudp_get r1 (peer6 2) 12 = Some (r1, 11) /\ peer6 1 <> peer6 2.
Proof.
  eexists. split; [vm_compute; reflexivity|]. split; [|by vm_compute].
  eapply (ipv6_peers_collide (mk_rudp (mk_st None ∅) ∅) ∅ (peer6 1) (peer6 2) 11 12).
  - exact (Rel_empty ∅ ∅ (fun x e H => False_ind _ (eq_ind None (fun o => match o with None => True | Some _ => False end) I _ H)) None).
  - reflexivity.
  - reflexivity.
  - reflexivity.
  - reflexivity.
  - reflexivity.
  - reflexivity.
  - reflexivity.
  - reflexivity.
  - vm_compute. reflexivity.
Defined.

(** Closing a peer is not safe. With no entry for the peer, [hio_close_rudp] creates
    one whose io is null, and its callback follows it; with an entry, closing the peer
    twice before the loop runs posts the entry twice, and the second callback reads the
    entry that the first one freed. *)
Lemma close_peer_faults i M a p q : Rel (rudp i) M -> length a = 28%nat -> posted i = [] ->
  mem (rb_root (rudp i)) !! p = None -> entries (rudp i) !! p = None ->
  match M !! key a with
  | None => exists i', hio_close_rudp i (Some a) p = Some i' /\ hio_close_rudp_event_cb i' = None
  | Some x => (exists e, entries (rudp i) !! x = Some e /\ io e <> None) ->
      exists i1 i2 i3, hio_close_rudp i (Some a) p = Some i1 /\ hio_close_rudp i1 (Some a) q = Some i2 /\
        hio_close_rudp_event_cb i2 = Some i3 /\ hio_close_rudp_event_cb i3 = None
  end.
Proof.
  intros HR Ha Hp Hm He. pose proof HR as (t & HT & HM). unfold hio_close_rudp. cbn [default].
  destruct (search_place_ok (rudp i) t a HT Ha) as [(x & Es & Hx & Ek)|(k & Es & Et & Hfit)].
  - assert (M !! key a = Some x) as Ex by by apply HM. rewrite Ex. intros (e & Hex & Hio).
    assert (forall q, rudp_get (rudp i) a q = Some (rudp i, x)) as Eg by (intros; unfold rudp_get; rewrite Es; done).
    assert (key (addr e) = key a) as Eka by (unfold key_of in Ek; by rewrite Hex in Ek).
    destruct (rudp_del_ok (rudp i) M (addr e) HR) as (r' & Ed & _ & Ee); [by eapply T_len|].
    simpl default. rewrite Eg. cbn [mbind option_bind]. eexists _, _, _. split; [done|]. cbn [over rudp]. rewrite Eg. cbn [mbind option_bind].
    split; [done|]. unfold hio_close_rudp_event_cb at 1. cbn [over posted rudp]. rewrite Hp. cbn [app]. rewrite Hex. cbn [mbind option_bind].
    destruct (io e) as [ioe|]; [|done]. cbn [mbind option_bind].
    rewrite Ed. cbn [mbind option_bind]. split; [done|].
    unfold hio_close_rudp_event_cb. cbn [over posted rudp]. rewrite Ee, Eka, Ex, lookup_delete_eq. done.
  - destruct (M !! key a) as [x|] eqn:Ex; [exfalso; apply HM in Ex as [Hx Ek]; subst t; by eapply fits_fresh|].
    destruct (rudp_get_ok (rudp i) M a p HR Ha Hm He) as (r' & Eg & HR'). rewrite Ex in Eg, HR'. change (default p None) with p in Eg.
    change (id a) with a. rewrite Eg. cbn [mbind option_bind]. eexists. split; [done|]. unfold hio_close_rudp_event_cb. cbn [over posted rudp]. rewrite Hp. cbn [app].
    assert (exists e, entries r' !! p = Some e /\ io e = None) as (e & E1 & E2);
      [|rewrite E1; cbn [mbind option_bind]; by rewrite E2].
    unfold rudp_get in Eg. rewrite Es in Eg. cbn [mbind option_bind] in Eg.
    destruct (entries (rudp_entry_alloc (rudp i) p) !! p) as [e0|] eqn:E0; [|done]. cbn [mbind option_bind] in Eg.
    unfold rudp_entry_alloc in E0. cbn [entries] in E0. rewrite lookup_insert_eq in E0. simplify_eq.
    unfold link_and_color in Eg. destruct (rb_link_node _ _ _ _) as [s1|]; [|done]. cbn [mbind option_bind] in Eg.
    destruct (rb_insert_color p s1) as [s2|]; [|done]. cbn [mbind option_bind] in Eg. injection Eg as <-.
    cbn [over entries]. rewrite lookup_insert_eq. by eexists.
Qed.

(** A table with one peer. *)
Definition one_peer : rudp_t :=
  mk_rudp (mk_st (Some 11) {[11 := mk_rb None None None RB_BLACK]}) {[11 := mk_entry (peer4 80 1) (Some 7)]}.
Lemma Rel_one_peer : Rel one_peer {[key (peer4 80 1) := 11]}.
Proof.
  exists (T RB_BLACK E 11 E). split.
  - split; simpl.
    + split; simpl; [by vm_compute|done|by repeat constructor; set_solver].
    + exists 1%nat. by repeat econstructor.
    + by repeat constructor.
    + intros x Hx. apply list_elem_of_singleton in Hx as ->. by eexists.
    + intros x e He. apply lookup_singleton_Some in He as [<- <-]. done.
    + intros x e He. apply lookup_singleton_Some in He as [<- <-]. by eexists.
  - intros a x. rewrite lookup_singleton_Some. simpl. split.
    + intros [<- <-]. split; [set_solver|done].
    + intros [Hx <-]. apply list_elem_of_singleton in Hx as ->. done.
Qed.

Lemma close_peer_faults_witness :
  (exists i', hio_close_rudp (mk_io 7 one_peer (peer4 80 2) []) (Some (peer4 80 2)) 12 = Some i' /\ hio_close_rudp_event_cb i' = None) /\
  exists i1 i2 i3, hio_close_rudp (mk_io 7 one_peer (peer4 80 2) []) (Some (peer4 80 1)) 12 = Some i1 /\
    hio_close_rudp i1 (Some (peer4 80 1)) 13 = Some i2 /\ hio_close_rudp_event_cb i2 = Some i3 /\ hio_close_rudp_event_cb i3 = None.
Proof.
  split.
  - exact (close_peer_faults (mk_io 7 one_peer (peer4 80 2) []) _ (peer4 80 2) 12 13 Rel_one_peer eq_refl eq_refl eq_refl eq_refl).
  - pose proof (close_peer_faults (mk_io 7 one_peer (peer4 80 2) []) _ (peer4 80 1) 12 13 Rel_one_peer eq_refl eq_refl eq_refl eq_refl) as H.
    rewrite lookup_singleton_eq in H. apply H. by eexists.
Defined.
End RudpThm.
