(* ===== verification/HBase.v ===== *)
(** Strings, sizes, times and URLs of base/hbase.c. A [char*] is the memory from the
    pointer on; running off its end, without a terminator, is an error. Characters are
    bytes: the comparisons do not depend on the sign of [char], and the one place that
    computes with a character, the port of a URL, converts it. *)
From S2P Require Import Prelude.

Module HBase.

(** * Scanning *)

(** The scan to the terminator: the length. *)
Fixpoint strlen (s : list Z) : option Z :=
  match s with [] => None | c :: s' => if c =? 0 then Some 0 else n ← strlen s'; Some (n + 1) end.

(** Each character up to the terminator through [f], in place. *)
Fixpoint map_str (f : Z -> Z) (s : list Z) : option (list Z) :=
  match s with [] => None | c :: s' => if c =? 0 then Some s else r ← map_str f s'; Some (f c :: r) end.
Definition hv_strupper : list Z -> option (list Z) :=
  map_str (fun c => if (97 <=? c) && (c <=? 122) then Z.land c (Z.lnot 0x20) else c).
Definition hv_strlower : list Z -> option (list Z) :=
  map_str (fun c => if (65 <=? c) && (c <=? 90) then Z.lor c 0x20 else c).

(** The swaps of [hv_strreverse] from both ends, [b] and [e] offsets. *)
Fixpoint reverse_loop (fuel : nat) (s : list Z) (b e : Z) : option (list Z) :=
  if b <? e then
    match fuel with
    | O => None
    | S f => x ← zget s e; y ← zget s b; s ← zset s e y; s ← zset s b x; reverse_loop f s (b + 1) (e - 1)
    end
  else Some s.
Definition hv_strreverse (s : list Z) : option (list Z) :=
  n ← strlen s; reverse_loop (length s) s 0 (n - 1).

(** The copying loop: [d] is the offset of [dest], [n] a [size_t]. *)
Fixpoint copy_loop (dest : list Z) (d : Z) (src : list Z) (n : Z) : option (list Z) :=
  match src with
  | [] => None
  | c :: src' =>
      if c =? 0 then zset dest d 0
      else
        let n := u64 (n - 1) in
        if 0 <? n then dest ← zset dest d c; copy_loop dest (d + 1) src' n else zset dest d 0
  end.
Definition hv_strncpy (dest src : list Z) (n : Z) : option (list Z) := copy_loop dest 0 src n.
Definition hv_strncat (dest src : list Z) (n : Z) : option (list Z) :=
  d ← strlen dest; copy_loop dest d src (u64 (n - d)).

Fixpoint hv_strstartswith (str start : list Z) : option bool :=
  match str, start with
  | a :: str', b :: start' =>
      if negb (a =? 0) && negb (b =? 0) && (a =? b) then hv_strstartswith str' start' else Some (b =? 0)
  | _, _ => None
  end.

(** The loop of [hv_strendswith] down from the ends. *)
Fixpoint ends_loop (fuel : nat) (str end_ : list Z) (p q : Z) : option bool :=
  match fuel with
  | O => Some true
  | S f =>
      a ← zget str (p - 1); b ← zget end_ (q - 1);
      if a =? b then ends_loop f str end_ (p - 1) (q - 1) else Some false
  end.
Definition hv_strendswith (str end_ : list Z) : option bool :=
  len1 ← strlen str; len2 ← strlen end_;
  if len1 <? len2 then Some false else ends_loop (Z.to_nat len2) str end_ len1 len2.

(** [strstr]: the offset of the first occurrence, counted from [p]. *)
Fixpoint strstr (s sub : list Z) (p : Z) : option (option Z) :=
  m ← hv_strstartswith s sub;
  if m : bool then Some (Some p)
  else match s with
       | [] => None
       | c :: s' => if c =? 0 then Some None else strstr s' sub (p + 1)
       end.
Definition hv_strcontains (str sub : list Z) : option bool :=
  p ← strstr str sub 0; Some (bool_decide (is_Some p)).

Fixpoint hv_wildcard_match (str pattern : list Z) : option bool :=
  match str, pattern with
  | a :: str', b :: pattern' =>
      if negb (a =? 0) && negb (b =? 0) then
        if b =? 42 then
          m ← hv_strendswith str pattern';
          Some (if m : bool then m else (a =? 0) && (b =? 0))
        else if negb (a =? b) then Some ((a =? 0) && (b =? 0))
        else hv_wildcard_match str' pattern'
      else Some ((a =? 0) && (b =? 0))
  | _, _ => None
  end.

(** Offsets found, counted from [p]. *)
Fixpoint hv_strnchr (s : list Z) (c n p : Z) : option (option Z) :=
  match s with
  | [] => None
  | x :: s' =>
      if negb (x =? 0) && (0 <? n)
      then if x =? c then Some (Some p) else hv_strnchr s' c (n - 1) (p + 1)
      else Some None
  end.
Fixpoint strchr (s : list Z) (c p : Z) : option (option Z) :=
  match s with
  | [] => None
  | x :: s' => if x =? c then Some (Some p) else if x =? 0 then Some None else strchr s' c (p + 1)
  end.
Fixpoint hv_strnrchr (s : list Z) (c n p : Z) (last : option Z) : option (option Z) :=
  match s with
  | [] => None
  | x :: s' =>
      if negb (x =? 0) && (0 <? n)
      then hv_strnrchr s' c (n - 1) (p + 1) (if x =? c then Some p else last)
      else Some last
  end.

(** [while (--p >= filepath)]: the last slash before [n]. *)
Fixpoint dir_loop (s : list Z) (n : nat) : option (option Z) :=
  match n with
  | O => Some None
  | S p => c ← zget s (Z.of_nat p); if c =? 47 then Some (Some (Z.of_nat p)) else dir_loop s p
  end.
Definition hv_strrchr_dir (s : list Z) : option (option Z) := n ← strlen s; dir_loop s (Z.to_nat n).
Definition hv_basename (s : list Z) : option Z :=
  pos ← hv_strrchr_dir s; Some (match pos with Some p => p + 1 | None => 0 end).

(** * Numbers *)

Definition is_digit (c : Z) : bool := (48 <=? c) && (c <=? 57).

(** [size_t] arithmetic of [hv_parse_size]. *)
Definition size_unit (c n : Z) : Z :=
  if (c =? 75) || (c =? 107) then u64 (Z.shiftl n 10)
  else if (c =? 77) || (c =? 109) then u64 (Z.shiftl n 20)
  else if (c =? 71) || (c =? 103) then u64 (Z.shiftl n 30)
  else if (c =? 84) || (c =? 116) then u64 (Z.shiftl n 40)
  else n.
Fixpoint size_loop (s : list Z) (size n : Z) : option Z :=
  match s with
  | [] => None
  | c :: s' =>
      if c =? 0 then Some (u64 (size + n))
      else if is_digit c then size_loop s' size (u64 (n * 10 + c - 48))
      else size_loop s' (u64 (size + size_unit c n)) 0
  end.
Definition hv_parse_size (s : list Z) : option Z := size_loop s 0 0.

(** [time_t] arithmetic of [hv_parse_time], which overflow leaves undefined. *)
Definition t64 (z : Z) : option Z := if (-2 ^ 63 <=? z) && (z <? 2 ^ 63) then Some z else None.
Definition time_unit (c n : Z) : option Z :=
  if c =? 109 then t64 (n * 60) else if c =? 104 then t64 (n * 3600)
  else if c =? 100 then t64 (n * 86400) else if c =? 119 then t64 (n * 604800) else Some n.
Fixpoint time_loop (s : list Z) (time n : Z) : option Z :=
  match s with
  | [] => None
  | c :: s' =>
      if c =? 0 then t64 (time + n)
      else if is_digit c then n ← t64 (n * 10); n ← t64 (n + c); n ← t64 (n - 48); time_loop s' time n
      else n ← time_unit c n; time ← t64 (time + n); time_loop s' time 0
  end.
Definition hv_parse_time (s : list Z) : option Z := time_loop s 0 0.

(** [stricmp(str, word) == 0], [word] in lower case. *)
Definition stricmp_eq (s word : list Z) : option bool :=
  l ← hv_strlower s; n ← strlen l; Some (bool_decide (take (Z.to_nat n) l = word)).
Definition hv_getboolean (s : list Z) : option bool :=
  len ← strlen s;
  if len =? 0 then Some false
  else if len =? 1 then c ← zget s 0; Some ((c =? 49) || (c =? 121) || (c =? 89))
  else if len =? 2 then stricmp_eq s (bytes_of_string "on")
  else if len =? 3 then stricmp_eq s (bytes_of_string "yes")
  else if len =? 4 then stricmp_eq s (bytes_of_string "true")
  else if len =? 6 then stricmp_eq s (bytes_of_string "enable")
  else Some false.

(** * URLs *)

(** One of [fields[]]: two 16-bit numbers. *)
Record field := mk_field { off : Z; len : Z }.
Record hurl_t := mk_url {
  SCHEME : field; USERNAME : field; PASSWORD : field; HOST : field; PORT : field;
  PATH : field; QUERY : field; FRAGMENT : field; port : Z }.
#[global] Instance url_rebuild : Rebuild hurl_t := fun u =>
  mk_url (SCHEME u) (USERNAME u) (PASSWORD u) (HOST u) (PORT u) (PATH u) (QUERY u) (FRAGMENT u) (port u).
Definition no_field : field := mk_field 0 0.
Definition no_url : hurl_t := mk_url no_field no_field no_field no_field no_field no_field no_field no_field 0.

(** Assigning [off] and [len] of a field. *)
Definition span (a b : Z) : field := mk_field (u16 a) (u16 (b - a)).

(** The memory from offset [p] on. *)
Definition from (s : list Z) (p : Z) : list Z := drop (Z.to_nat p) s.

(** The loop over the digits of the port, [i] an unsigned short and the characters signed. *)
Fixpoint port_loop (s : list Z) (at_ : Z) (n : nat) (i v : Z) : option Z :=
  match n with
  | O => Some v
  | S n' => c ← zget s (at_ + i); port_loop s at_ n' (i + 1) (u16 (v * 10 + (i8 c - 48)))
  end.

(** user:pswd@ between [sp] and [ep]: the URL and the start of the host. *)
Definition parse_userinfo (s : list Z) (u : hurl_t) (sp ep : Z) : option (hurl_t * Z) :=
  pos ← hv_strnchr (from s sp) 64 (ep - sp) sp;
  match pos with
  | None => Some (u, sp)
  | Some pos =>
      pswd ← hv_strnchr (from s sp) 58 (pos - sp) sp;
      let '(u, pswd) := match pswd with
                        | Some pswd => (u.[PASSWORD := span (pswd + 1) pos], pswd)
                        | None => (u, pos)
                        end in
      Some (u.[USERNAME := span sp pswd], pos + 1)
  end.

(** host:port, ipv4:port or [ipv6]:port between [host] and [ep]. *)
Definition parse_host (s : list Z) (u : hurl_t) (host ep : Z) : option hurl_t :=
  c ← zget s host;
  '(u, host, hostend) ←
    (if c =? 91 then
       pos ← hv_strnchr (from s host) 93 (ep - host) host;
       Some (match pos with
             | Some pos => (u.[HOST := span (host + 1) pos], host + 1, pos)
             | None => (u, host, host)
             end)
     else Some (u, host, host));
  p ← hv_strnchr (from s hostend) 58 (ep - hostend) hostend;
  '(u, p) ←
    match p with
    | Some p =>
        let u := u.[PORT := span (p + 1) ep] in
        v ← port_loop s p (Z.to_nat (len (PORT u))) 1 (port u);
        Some (u.[port := v], p)
    | None =>
        https ← (if 0 <? len (SCHEME u) then hv_strstartswith s (bytes_of_string "https://" ++ [0]) else Some false);
        Some (u.[port := if https : bool then 443 else 80], ep)
    end;
  Some (if len (HOST u) =? 0 then u.[HOST := span host p] else u).

(** /path?query#fragment from [sp], where [end_] is the end of the string. *)
Definition parse_path (s : list Z) (u : hurl_t) (sp end_ : Z) : option hurl_t :=
  ep ← strchr (from s sp) 63 sp;
  let ep := default end_ ep in
  let u := u.[PATH := span sp ep] in
  if ep =? end_ then Some u else
  let sp := ep + 1 in
  ep ← strchr (from s sp) 35 sp;
  let ep := default end_ ep in
  let u := u.[QUERY := span sp ep] in
  if ep =? end_ then Some u else
  Some (u.[FRAGMENT := span (ep + 1) end_]).

Definition hv_parse_url (s : list Z) : option (Z * hurl_t) :=
  let u := no_url in
  end_ ← strlen s;
  if 65535 <? end_ then Some (-2, u) else
  ep ← strstr s (bytes_of_string "://" ++ [0]) 0;
  let '(u, sp) := match ep with
                  | Some ep => (u.[SCHEME := mk_field 0 (u16 ep)], ep + 3)
                  | None => (u, 0)
                  end in
  ep ← strchr (from s sp) 47 sp;
  let ep := default end_ ep in
  '(u, host) ← parse_userinfo s u sp ep;
  u ← parse_host s u host ep;
  if ep =? end_ then Some (0, u) else
  u ← parse_path s u ep end_;
  Some (0, u).

End HBase.
