(* ===== verification/HBaseThm.v ===== *)
(** Strings and URLs of base/hbase.c: what the scans find, copies within bounds, and a
    URL built from parts parsed into them. *)
From S2P Require Import Prelude HBase.

Module HBaseThm.
Import HBase.

(** * Scans *)

Definition nz (l : list Z) : Prop := Forall (fun c => c <> 0) l.

Lemma nz_app l k : nz (l ++ k) <-> nz l /\ nz k.
Proof. apply Forall_app. Qed.

Lemma strlen_text t tail : nz t -> strlen (t ++ 0 :: tail) = Some (zlen t).
Proof.
  induction 1 as [|c t Hc _ IH]; [done|]. simpl. destruct (Z.eqb_spec c 0); [done|]. rewrite IH. simpl. rewrite zlen_cons. f_equal. lia.
Qed.

Lemma strnchr_found a c rest n p : nz a -> c ∉ a -> c <> 0 -> zlen a < n ->
  hv_strnchr (a ++ c :: rest) c n p = Some (Some (p + zlen a)).
Proof.
  intros Ha. revert n p. induction Ha as [|x a Hx _ IH]; intros n p Hc Hc0 Hn.
  - change (zlen (@nil Z)) with 0 in *. simpl. destruct (Z.eqb_spec c 0); [done|]. destruct (Z.ltb_spec 0 n); [|lia]. simpl.
    rewrite Z.eqb_refl. do 2 f_equal. lia.
  - zlen_simpl. pose proof (zlen_nonneg a). apply not_elem_of_cons in Hc as [Hne Hc]. simpl.
    destruct (Z.eqb_spec x 0); [done|]. destruct (Z.ltb_spec 0 n); [|lia]. simpl. destruct (Z.eqb_spec x c); [congruence|].
    rewrite IH by (done || lia). do 2 f_equal. lia.
Qed.

Lemma strnchr_none a c rest p : nz a -> c ∉ a -> rest <> [] -> hv_strnchr (a ++ rest) c (zlen a) p = Some None.
Proof.
  intros Ha. revert p. induction Ha as [|x a Hx _ IH]; intros p Hc Hr.
  - destruct rest as [|y rest]; [done|]. change (zlen (@nil Z)) with 0. simpl. by rewrite andb_false_r.
  - rewrite zlen_cons. pose proof (zlen_nonneg a). apply not_elem_of_cons in Hc as [Hne Hc]. simpl.
    destruct (Z.eqb_spec x 0); [done|]. destruct (Z.ltb_spec 0 (1 + zlen a)); [|lia]. simpl. destruct (Z.eqb_spec x c); [congruence|].
    replace (1 + zlen a - 1) with (zlen a) by lia. by apply IH.
Qed.

Lemma strchr_found a c rest p : nz a -> c ∉ a -> strchr (a ++ c :: rest) c p = Some (Some (p + zlen a)).
Proof.
  intros Ha. revert p. induction Ha as [|x a Hx _ IH]; intros p Hc; simpl.
  - rewrite Z.eqb_refl. change (zlen (@nil Z)) with 0. do 2 f_equal. lia.
  - apply not_elem_of_cons in Hc as [Hne Hc]. destruct (Z.eqb_spec x c); [congruence|]. destruct (Z.eqb_spec x 0); [done|].
    rewrite IH by done. rewrite zlen_cons. do 2 f_equal. lia.
Qed.

Lemma strchr_none a c tail p : nz a -> c ∉ a -> c <> 0 -> strchr (a ++ 0 :: tail) c p = Some None.
Proof.
  intros Ha. revert p. induction Ha as [|x a Hx _ IH]; intros p Hc Hc0; cbn [app strchr].
  - destruct (Z.eqb_spec 0 c); [congruence|done].
  - apply not_elem_of_cons in Hc as [Hne Hc]. destruct (Z.eqb_spec x c); [congruence|]. destruct (Z.eqb_spec x 0); [done|]. by apply IH.
Qed.

(** The first :// of a text. *)
Definition sep : list Z := [58; 47; 47].
Lemma sep_bytes : bytes_of_string "://" = sep.
Proof. reflexivity. Qed.
Definition no_sep (t : list Z) : Prop := forall a b, t <> a ++ sep ++ b.

Lemma startswith_spec t w tail : nz t -> nz w -> hv_strstartswith (t ++ 0 :: tail) (w ++ [0]) = Some (bool_decide (w `prefix_of` t)).
Proof.
  intros Ht Hw. revert t Ht. induction Hw as [|y w Hy _ IH]; intros t Ht.
  - rewrite bool_decide_eq_true_2 by apply prefix_nil. destruct t; simpl; [done|]. by rewrite andb_false_r.
  - destruct Ht as [|x t Hx Ht]; cbn [app hv_strstartswith].
    + destruct (Z.eqb_spec y 0); [done|]. rewrite bool_decide_eq_false_2; [done|]. intros H. by apply prefix_nil_inv in H.
    + destruct (Z.eqb_spec x 0); [done|]. destruct (Z.eqb_spec y 0); [done|]. cbn [negb andb]. destruct (Z.eqb_spec x y) as [->|Hne].
      * rewrite IH by done. f_equal. apply bool_decide_ext. split; [apply prefix_cons|apply prefix_cons_inv_2].
      * rewrite bool_decide_eq_false_2; [done|]. intros H. by apply prefix_cons_inv_1 in H.
Qed.

Lemma strstr_found a rest p tail : nz a -> 58 ∉ a -> nz rest ->
  strstr (a ++ sep ++ rest ++ 0 :: tail) (sep ++ [0]) p = Some (Some (p + zlen a)).
Proof.
  intros Ha Hc Hr. revert p. induction Ha as [|x a Hx Ha IH]; intros p.
  - simpl app. pose proof (startswith_spec (sep ++ rest) sep tail) as E. rewrite <- app_assoc in E. simpl app in E.
    unfold strstr; fold strstr. rewrite E.
    + rewrite bool_decide_eq_true_2 by by exists rest. simpl. change (zlen (@nil Z)) with 0. do 2 f_equal. lia.
    + repeat (constructor; [done|]). done.
    + by repeat constructor.
  - apply not_elem_of_cons in Hc as [Hne Hc]. pose proof (startswith_spec (x :: a ++ sep ++ rest) sep tail) as E.
    rewrite <- app_comm_cons, <- !app_assoc in E. rewrite <- app_comm_cons. unfold strstr; fold strstr. rewrite E.
    + rewrite bool_decide_eq_false_2. 2: { intros H. apply prefix_cons_inv_1 in H. congruence. }
      simpl mbind. cbv iota. destruct (Z.eqb_spec x 0); [done|]. rewrite IH by done. rewrite zlen_cons. do 2 f_equal. lia.
    + constructor; [done|]. apply nz_app. split; [done|]. apply nz_app. split; [by repeat constructor|done].
    + by repeat constructor.
Qed.

Lemma strstr_none t p tail : nz t -> no_sep t -> strstr (t ++ 0 :: tail) (sep ++ [0]) p = Some None.
Proof.
  intros Ht. revert p. induction Ht as [|x t Hx Ht IH]; intros p Hn.
  - simpl. done.
  - pose proof (startswith_spec (x :: t) sep tail) as E. rewrite <- app_comm_cons in *. unfold strstr; fold strstr. rewrite E.
    + rewrite bool_decide_eq_false_2. 2: { intros [b Hb]. by apply (Hn [] b). }
      simpl mbind. cbv iota. destruct (Z.eqb_spec x 0); [done|]. apply IH. intros a b Hab. apply (Hn (x :: a) b). by rewrite Hab.
    + by constructor.
    + by repeat constructor.
Qed.

Lemma from_app pre l p : p = zlen pre -> from (pre ++ l) p = l.
Proof. intros ->. unfold from, zlen. by rewrite Nat2Z.id, drop_app_length. Qed.

(** * URLs *)

(** The parts of a URL; a password needs a user, a query a path and a fragment a query. *)
Record parts := mk_parts {
  p_scheme : option (list Z); p_user : option (list Z * option (list Z)); p_v6 : bool; p_host : list Z;
  p_port : option (list Z); p_path : option (list Z * option (list Z * option (list Z))) }.

Definition r_scheme (o : option (list Z)) : list Z := match o with Some a => a ++ sep | None => [] end.
Definition r_user (o : option (list Z * option (list Z))) : list Z :=
  match o with None => [] | Some (a, None) => a ++ [64] | Some (a, Some w) => a ++ 58 :: w ++ [64] end.
Definition r_host (v6 : bool) (h : list Z) : list Z := if v6 then 91 :: h ++ [93] else h.
Definition r_port (o : option (list Z)) : list Z := match o with Some d => 58 :: d | None => [] end.
Definition r_path (o : option (list Z * option (list Z * option (list Z)))) : list Z :=
  match o with
  | None => []
  | Some (p, None) => 47 :: p
  | Some (p, Some (q, None)) => 47 :: p ++ 63 :: q
  | Some (p, Some (q, Some f)) => 47 :: p ++ 63 :: q ++ 35 :: f
  end.
Definition r_rest (u : parts) : list Z := r_user (p_user u) ++ r_host (p_v6 u) (p_host u) ++ r_port (p_port u) ++ r_path (p_path u).
Definition render (u : parts) : list Z := r_scheme (p_scheme u) ++ r_rest u.

(** The value of decimal digits. *)
Definition number (v : Z) (d : list Z) : Z := fold_left (fun v c => v * 10 + (c - 48)) d v.

(** Text without certain characters. *)
Definition free (cs l : list Z) : Prop := Forall (fun c => c <> 0 /\ c ∉ cs) l.

(** What the scans of [hv_parse_url] ask of the parts to tell them apart. *)
Record scan_wf (u : parts) : Prop := {
  W_scheme : match p_scheme u with Some a => free [58] a /\ a <> [] | None => no_sep (r_rest u) end;
  W_user : match p_user u with None => True | Some (a, w) => free [47; 58; 64] a /\ match w with Some w => free [47; 64] w | None => True end end;
  W_host : p_host u <> [] /\ if p_v6 u then free [47; 64; 93] (p_host u) else free [47; 58; 64] (p_host u) /\ head (p_host u) <> Some 91;
  W_port : match p_port u with Some d => Forall (fun c => 48 <= c <= 57) d /\ d <> [] /\ number 0 d < 65536 | None => True end;
  W_path : match p_path u with
           | None => True
           | Some (p, q) => free [63] p /\ match q with None => True | Some (q, f) => free [35] q /\ match f with None => True | Some f => nz f end end
           end;
  W_len : zlen (render u) <= 65535 }.

(** The parts of a URL in the sense of the format documented in hbase.h: the characters
    that delimit a part do not occur in the parts before them. *)
Record parts_wf (u : parts) : Prop := {
  P_scheme : match p_scheme u with Some a => free [35; 47; 58; 63; 64] a /\ a <> [] | None => no_sep (r_rest u) end;
  P_user : match p_user u with
           | None => True
           | Some (a, w) => free [35; 47; 58; 63; 64] a /\ match w with Some w => free [35; 47; 63; 64] w | None => True end
           end;
  P_host : p_host u <> [] /\ if p_v6 u then free [35; 47; 63; 64; 91; 93] (p_host u) else free [35; 47; 58; 63; 64; 91; 93] (p_host u);
  P_port : match p_port u with Some d => Forall (fun c => 48 <= c <= 57) d /\ d <> [] /\ number 0 d < 65536 | None => True end;
  P_path : match p_path u with
           | None => True
           | Some (p, q) => free [35; 63] p /\ match q with None => True | Some (q, f) => free [35] q /\ match f with None => True | Some f => free [35] f end end
           end;
  P_len : zlen (render u) <= 65535 }.

Lemma free_nz cs l : free cs l -> nz l.
Proof. intros H. eapply Forall_impl; [exact H|]. by intros x [? _]. Qed.
Lemma free_notin cs l c : free cs l -> c ∈ cs -> c ∉ l.
Proof. intros H Hc Hin. unfold free in H. rewrite Forall_forall in H. by destruct (H c Hin). Qed.

(** What the scans ask of parts. *)
Ltac part_side :=
  first [done | by eapply free_nz | match goal with H : free _ ?a |- _ ∉ ?a => by (eapply free_notin; [exact H|]; set_solver) end
        | zlen_simpl; lia].

Lemma userinfo_ok pre o hp post u s ep :
  s = pre ++ r_user o ++ hp ++ post -> ep = zlen pre + zlen (r_user o) + zlen hp -> post <> [] -> nz hp -> 64 ∉ hp ->
  (match o with None => True | Some (a, w) => free [47; 58; 64] a /\ match w with Some w => free [47; 64] w | None => True end end) ->
  parse_userinfo s u (zlen pre) ep = Some
    (match o with
     | None => u
     | Some (a, None) => u.[USERNAME := span (zlen pre) (zlen pre + zlen a)]
     | Some (a, Some w) =>
         u.[PASSWORD := span (zlen pre + zlen a + 1) (zlen pre + zlen a + 1 + zlen w)].[USERNAME := span (zlen pre) (zlen pre + zlen a)]
     end, zlen pre + zlen (r_user o)).
Proof.
  intros Es Eep Hpost Hhp Hat Hw. unfold parse_userinfo. rewrite Es, from_app by done. pose proof (zlen_nonneg hp).
  destruct o as [[a [w|]]|]; simpl r_user in *.
  - destruct Hw as [Ha Hw]. zlen_simpl.
    assert (nz (a ++ 58 :: w)) as Haw by (apply nz_app; split; [by eapply free_nz|constructor; [done|by eapply free_nz]]).
    assert (64 ∉ a ++ 58 :: w) as H64.
    { rewrite elem_of_app, elem_of_cons. intros [H1|[H1|H1]]; [by eapply free_notin; [exact Ha| |exact H1]; set_solver|done|].
      by eapply free_notin; [exact Hw| |exact H1]; set_solver. }
    pose proof (strnchr_found (a ++ 58 :: w) 64 (hp ++ post) (ep - zlen pre) (zlen pre) Haw H64) as E1.
    rewrite <- !app_assoc in *. simpl app in *. rewrite <- !app_assoc in *. simpl app in *. rewrite E1 by (zlen_simpl; lia). cbn [mbind option_bind].
    zlen_simpl. pose proof (zlen_nonneg w).
    rewrite (strnchr_found a 58) by part_side.
    cbn [mbind option_bind]. replace (zlen pre + (zlen a + (1 + zlen w))) with (zlen pre + zlen a + 1 + zlen w) by lia.
    do 2 f_equal. lia.
  - destruct Hw as [Ha _]. zlen_simpl. pose proof (zlen_nonneg a).
    assert (64 ∉ a) as H64 by (by eapply free_notin; [exact Ha|]; set_solver).
    rewrite <- !app_assoc. simpl app. rewrite (strnchr_found a 64) by part_side. cbn [mbind option_bind].
    replace (zlen pre + zlen a - zlen pre) with (zlen a) by lia.
    rewrite strnchr_none by part_side. cbn [mbind option_bind].
    do 2 f_equal. lia.
  - change (zlen []) with 0 in *. simpl app. replace (ep - zlen pre) with (zlen hp) by lia.
    rewrite strnchr_none by done. cbn [mbind option_bind]. do 2 f_equal. lia.
Qed.

Lemma number_mono d : Forall (fun c => 48 <= c <= 57) d -> forall v, 0 <= v -> v <= number v d.
Proof.
  induction 1 as [|c d Hc _ IH]; intros v Hv; [done|]. unfold number in *. simpl. etrans; [|apply IH; lia]. lia.
Qed.

Lemma port_loop_ok s pre d post : s = pre ++ 58 :: d ++ post -> forall d2 d1 v, d = d1 ++ d2 ->
  Forall (fun c => 48 <= c <= 57) d2 -> 0 <= v -> number v d2 < 65536 ->
  port_loop s (zlen pre) (length d2) (1 + zlen d1) v = Some (number v d2).
Proof.
  intros Es. induction d2 as [|c d2 IH]; intros d1 v Ed Hd Hv Hn; [done|]. apply Forall_cons in Hd as [Hc Hd].
  assert (zget s (zlen pre + (1 + zlen d1)) = Some c) as E.
  { rewrite Es, Ed, <- app_assoc, app_comm_cons, app_assoc. apply zget_middle. zlen_simpl. lia. }
  simpl port_loop. rewrite E. cbn [mbind option_bind]. assert (i8 c = c) as -> by (unfold i8, u8; rewrite Z.mod_small by lia; destruct (Z.ltb_spec c 128); lia).
  assert (0 <= v * 10 + (c - 48) < 65536) as Hr.
  { split; [lia|]. pose proof (number_mono d2 Hd (v * 10 + (c - 48))). unfold number in *. simpl in Hn. lia. }
  rewrite u16_small by done. specialize (IH (d1 ++ [c]) (v * 10 + (c - 48))).
  replace (1 + zlen (d1 ++ [c])) with (1 + zlen d1 + 1) in IH by (zlen_simpl; lia).
  apply IH; [by rewrite <- app_assoc|done|lia|done].
Qed.

Lemma span_len a n : 0 <= n < 65536 -> len (span a (a + n)) = n.
Proof. intros. unfold span. simpl. rewrite u16_small; lia. Qed.

(** The port: its digits, or the default of the scheme. *)
Definition port_of (u : parts) : Z :=
  match p_port u with
  | Some d => number 0 d
  | None => if bool_decide (p_scheme u = Some (bytes_of_string "https")) then 443 else 80
  end.

(** The host before its port: an address in brackets is set aside at once. *)
Lemma host_name_ok s pre v6 h rest u ep :
  s = pre ++ r_host v6 h ++ rest -> zlen pre + zlen (r_host v6 h) <= ep ->
  (h <> [] /\ if v6 then free [47; 64; 93] h else free [47; 58; 64] h /\ head h <> Some 91) ->
  let b := zlen pre + (if v6 then 1 else 0) in
  (c ← zget s (zlen pre);
   if c =? 91 then pos ← hv_strnchr (from s (zlen pre)) 93 (ep - zlen pre) (zlen pre);
     Some (match pos with Some pos => (u.[HOST := span (zlen pre + 1) pos], zlen pre + 1, pos) | None => (u, zlen pre, zlen pre) end)
   else Some (u, zlen pre, zlen pre))
  = Some (if v6 then u.[HOST := span b (b + zlen h)] else u, b, if v6 then b + zlen h else b).
Proof.
  intros Es Eep [Hh0 Hh]. cbv zeta. destruct v6; simpl r_host in *.
  - assert (zget s (zlen pre) = Some 91) as -> by (rewrite Es; by apply zget_middle).
    cbn [mbind option_bind]. rewrite Z.eqb_refl. rewrite Es, from_app by done. zlen_simpl.
    pose proof (strnchr_found (91 :: h) 93 rest (ep - zlen pre) (zlen pre)) as E.
    simpl app in E |- *. rewrite <- !app_assoc. simpl app. rewrite E.
    + cbn [mbind option_bind]. zlen_simpl. replace (zlen pre + (1 + zlen h)) with (zlen pre + 1 + zlen h) by lia. done.
    + constructor; [done|by eapply free_nz].
    + apply not_elem_of_cons. split; [done|]. by eapply free_notin; [exact Hh|]; set_solver.
    + done.
    + zlen_simpl. lia.
  - destruct Hh as [Hf Hhd]. destruct h as [|c h]; [done|].
    assert (zget s (zlen pre) = Some c) as -> by (rewrite Es; by apply zget_middle).
    cbn [mbind option_bind]. simpl in Hhd. destruct (Z.eqb_spec c 91); [congruence|]. by rewrite Z.add_0_r.
Qed.

Lemma host_ok s pre v6 h o post u ep https :
  s = pre ++ r_host v6 h ++ r_port o ++ post -> post <> [] -> ep = zlen pre + zlen (r_host v6 h) + zlen (r_port o) ->
  ep <= 65535 -> HOST u = no_field -> port u = 0 ->
  (h <> [] /\ if v6 then free [47; 64; 93] h else free [47; 58; 64] h /\ head h <> Some 91) ->
  (match o with Some d => Forall (fun c => 48 <= c <= 57) d /\ d <> [] /\ number 0 d < 65536 | None => True end) ->
  (if 0 <? len (SCHEME u) then hv_strstartswith s (bytes_of_string "https://" ++ [0]) else Some false) = Some https ->
  let b := zlen pre + (if v6 then 1 else 0) in
  let hp := zlen pre + zlen (r_host v6 h) in
  let u1 := u.[HOST := span b (b + zlen h)] in
  parse_host s u (zlen pre) ep =
    Some (match o with
          | Some d => u1.[PORT := span (hp + 1) (hp + 1 + zlen d)].[port := number 0 d]
          | None => u1.[port := if https : bool then 443 else 80]
          end).
Proof.
  intros Es Hpost Eep Hs Hu Hp [Hh0 Hh] Ho Hhttps. cbv zeta. unfold parse_host.
  assert (0 < zlen h) as Hlh by (destruct h; [done|]; zlen_simpl; pose proof (zlen_nonneg h); lia).
  pose proof (zlen_nonneg pre). pose proof (zlen_nonneg post). pose proof (zlen_nonneg (r_port o)). pose proof (zlen_nonneg (r_host v6 h)).
  assert (zlen s = zlen pre + zlen (r_host v6 h) + zlen (r_port o) + zlen post) as Els by (rewrite Es; zlen_simpl; lia).
  assert (0 < zlen post) as Hlp by (destruct post; [done|]; zlen_simpl; pose proof (zlen_nonneg post); lia).
  (* the host *)
  set (b := zlen pre + (if v6 then 1 else 0)). set (he := b + zlen h).
  pose proof (host_name_ok s pre v6 h (r_port o ++ post) u ep Es ltac:(lia) (conj Hh0 Hh)) as E0. cbv zeta in E0. fold b in E0. fold he in E0.
  set (u0 := if v6 then u.[HOST := span b he] else u) in *. assert (u0 = if v6 then u.[HOST := span b he] else u) as Eu0 by done. clearbody u0.
  destruct (zget s (zlen pre)) as [c|]; [|done]. cbn [mbind option_bind] in E0 |- *. rewrite E0. cbn [mbind option_bind]. clear E0.
  (* the port *)
  set (hend := if v6 then he else b).
  set (mid := if v6 then [93] else h).
  assert (exists pre', s = pre' ++ mid ++ r_port o ++ post /\ zlen pre' = hend /\ zlen pre' + zlen mid = zlen pre + zlen (r_host v6 h) /\
          nz mid /\ 58 ∉ mid) as (pre' & Es' & Epre & Emid & Hnm & Hcm).
  { unfold hend, mid, he, b. destruct v6; simpl r_host in *.
    - exists (pre ++ 91 :: h). split_and!; [rewrite Es; simpl; rewrite <- !app_assoc; simpl; by rewrite <- ?app_assoc|zlen_simpl; lia|zlen_simpl; lia|by repeat constructor|set_solver].
    - exists pre. destruct Hh as [Hf _]. split_and!; [done|lia|lia|by eapply free_nz|by eapply free_notin; [exact Hf|]; set_solver]. }
  rewrite <- Epre. rewrite Es' at 1. rewrite from_app by done.
  destruct o as [d|]; simpl r_port in *.
  - destruct Ho as (Hd & Hd0 & Hn). zlen_simpl. pose proof (zlen_nonneg d).
    rewrite <- app_comm_cons, (strnchr_found mid 58) by part_side. cbn [mbind option_bind]. rewrite Emid. cbn [over PORT port].
    replace ep with (zlen pre + zlen (r_host v6 h) + 1 + zlen d) by lia. rewrite span_len by lia.
    pose proof (port_loop_ok s (pre' ++ mid) d post) as El. rewrite <- app_assoc in El. specialize (El Es' d [] 0 eq_refl Hd).
    change (1 + zlen []) with 1 in El. rewrite zlen_app, Emid in El.
    assert (port u0 = 0) as -> by (rewrite Eu0; by destruct v6).
    replace (Z.to_nat (zlen d)) with (length d) by (unfold zlen; lia). rewrite El by (done || lia). cbn [mbind option_bind].
    f_equal. rewrite Eu0. destruct v6; cbn [over HOST].
    + assert (len (span b he) = zlen h) as -> by (unfold he; apply span_len; simpl r_host in *; zlen_simpl; lia).
      destruct (Z.eqb_spec (zlen h) 0); [lia|]. destruct u; done.
    + rewrite Hu. simpl len. rewrite Z.eqb_refl. unfold he, b. rewrite Z.add_0_r. simpl r_host. destruct u; done.
  - change (zlen []) with 0 in *. replace (ep - zlen pre') with (zlen mid) by lia. rewrite strnchr_none by part_side.
    cbn [mbind option_bind]. assert (SCHEME u0 = SCHEME u) as -> by (rewrite Eu0; by destruct v6). rewrite Hhttps. cbn [mbind option_bind].
    f_equal. rewrite Eu0. destruct v6; cbn [over HOST].
    + assert (len (span b he) = zlen h) as -> by (unfold he; apply span_len; simpl r_host in *; zlen_simpl; lia).
      destruct (Z.eqb_spec (zlen h) 0); [lia|]. destruct u; done.
    + rewrite Hu. simpl len. rewrite Z.eqb_refl. unfold he, b. rewrite !Z.add_0_r. replace ep with (zlen pre + zlen h) by (simpl r_host in *; lia). destruct u; done.
Qed.

Lemma path_ok s pre p q tail u end_ :
  s = pre ++ r_path (Some (p, q)) ++ 0 :: tail -> end_ = zlen pre + zlen (r_path (Some (p, q))) ->
  free [63] p -> (match q with None => True | Some (q, f) => free [35] q /\ match f with None => True | Some f => nz f end end) ->
  parse_path s u (zlen pre) end_ = Some
    (let pe := zlen pre + 1 + zlen p in
     let u := u.[PATH := span (zlen pre) pe] in
     match q with
     | None => u
     | Some (q, f) =>
         let qe := pe + 1 + zlen q in
         let u := u.[QUERY := span (pe + 1) qe] in
         match f with None => u | Some f => u.[FRAGMENT := span (qe + 1) (qe + 1 + zlen f)] end
     end).
Proof.
  intros Es Ee Hp Hq. unfold parse_path. rewrite Es, from_app by done.
  assert (nz (47 :: p)) as Hnp by (constructor; [done|by eapply free_nz]).
  assert (63 ∉ 47 :: p) as H63 by (apply not_elem_of_cons; split; [done|by eapply free_notin; [exact Hp|]; set_solver]).
  pose proof (zlen_nonneg p). destruct q as [[q f]|].
  - destruct Hq as [Hq Hf].
    assert (exists x, r_path (Some (p, Some (q, f))) = (47 :: p) ++ 63 :: q ++ x /\ x = match f with Some f => 35 :: f | None => [] end)
      as (x & Er & Ex) by (destruct f; eexists; (split; [|done]); simpl; by rewrite ?app_nil_r).
    rewrite Er in *. zlen_simpl. pose proof (zlen_nonneg q). pose proof (zlen_nonneg x).
    assert (((47 :: p) ++ 63 :: q ++ x) ++ 0 :: tail = (47 :: p) ++ 63 :: (q ++ x) ++ 0 :: tail) as ->
      by (rewrite <- !app_assoc; simpl; by rewrite <- ?app_assoc).
    rewrite (strchr_found (47 :: p)) by done. cbn [mbind option_bind default id]. zlen_simpl.
    destruct (Z.eqb_spec (zlen pre + (1 + zlen p)) end_); [lia|].
    replace (pre ++ (47 :: p) ++ 63 :: (q ++ x) ++ 0 :: tail) with ((pre ++ (47 :: p) ++ [63]) ++ q ++ x ++ 0 :: tail)
      by (rewrite <- !app_assoc; simpl; by rewrite <- ?app_assoc).
    rewrite from_app by (zlen_simpl; lia). destruct f as [f|]; subst x.
    + rewrite <- app_comm_cons, (strchr_found q) by part_side. cbn [mbind option_bind default id].
      zlen_simpl. pose proof (zlen_nonneg f). destruct (Z.eqb_spec (zlen pre + (1 + zlen p) + 1 + zlen q) end_); [lia|].
      cbv zeta. f_equal. replace end_ with (zlen pre + 1 + zlen p + 1 + zlen q + 1 + zlen f) by lia.
      replace (zlen pre + (1 + zlen p)) with (zlen pre + 1 + zlen p) by lia. done.
    + simpl app. rewrite (strchr_none q) by part_side. cbn [mbind option_bind default id]. zlen_simpl. rewrite Z.eqb_refl.
      cbv zeta. f_equal. replace end_ with (zlen pre + 1 + zlen p + 1 + zlen q) by lia.
      replace (zlen pre + (1 + zlen p)) with (zlen pre + 1 + zlen p) by lia. done.
  - simpl r_path in *. rewrite (strchr_none (47 :: p)) by done. cbn [mbind option_bind default id]. rewrite Z.eqb_refl. zlen_simpl.
    cbv zeta. f_equal. by replace end_ with (zlen pre + 1 + zlen p) by lia.
Qed.

(** The text of a field. *)
Definition has (s : list Z) (f : field) (t : list Z) : Prop := zslice s (off f) (len f) = Some t.

Lemma has_span s pre t post a b : s = pre ++ t ++ post -> a = zlen pre -> b = a + zlen t -> zlen pre + zlen t <= 65535 -> has s (span a b) t.
Proof.
  intros -> -> -> H. pose proof (zlen_nonneg pre). pose proof (zlen_nonneg t). unfold has. rewrite span_len by lia.
  unfold span. simpl off. rewrite u16_small by lia. by apply zslice_app.
Qed.
Lemma has_none s : has s no_field [].
Proof. exact (zslice_app [] [] s 0 0 eq_refl eq_refl). Qed.

Lemma https_prefix a rest : 58 ∉ a -> (bytes_of_string "https://" `prefix_of` a ++ sep ++ rest) <-> a = bytes_of_string "https".
Proof.
  change (bytes_of_string "https://") with (bytes_of_string "https" ++ sep). intros Ha. split; [|intros ->; exists rest; by rewrite <- app_assoc].
  intros [k Hk]. rewrite <- app_assoc in Hk.
  assert (forall (l l' : list Z) r r', 58 ∉ l -> 58 ∉ l' -> l ++ 58 :: r = l' ++ 58 :: r' -> l = l') as Hinj.
  { induction l as [|x l IH]; intros [|y l'] r r' H1 H2 E; simpl in *; simplify_eq; try done; [set_solver|set_solver|].
    f_equal. eapply IH; [set_solver|set_solver|done]. }
  eapply Hinj; [done| |exact Hk]. vm_compute. set_solver.
Qed.
(** The authority: user, host and port. *)
Definition r_hp (u : parts) : list Z := r_host (p_v6 u) (p_host u) ++ r_port (p_port u).

Lemma digits_free cs d : Forall (fun c => 48 <= c <= 57) d -> (forall c, c ∈ cs -> c < 48 \/ 57 < c) -> free cs d.
Proof. intros H Hc. eapply Forall_impl; [exact H|]. intros x Hx. split; [simpl in Hx; lia|]. intros Hi. apply Hc in Hi. simpl in Hx. lia. Qed.
Lemma free_cons cs c l : c <> 0 -> c ∉ cs -> free cs l -> free cs (c :: l).
Proof. intros. by constructor. Qed.
Lemma free_app cs l k : free cs l -> free cs k -> free cs (l ++ k).
Proof. intros. by apply Forall_app. Qed.
Lemma free_sub cs ds l : free ds l -> cs ⊆ ds -> free cs l.
Proof. intros H Hs. eapply Forall_impl; [exact H|]. simpl. intros x [H1 H2]. split; [done|]. set_solver. Qed.
Lemma parts_scan u : parts_wf u -> scan_wf u.
Proof.
  intros [H1 H2 [H3 H3'] H4 H5 H6]. split; [| |split; [done|]| | |done].
  - destruct (p_scheme u); [|done]. destruct H1 as [H1 ?]. split; [|done]. apply (free_sub _ _ _ H1). set_solver.
  - destruct (p_user u) as [[a w]|]; [|done]. destruct H2 as [Ha Hw]. split; [apply (free_sub _ _ _ Ha); set_solver|].
    destruct w; [|done]. apply (free_sub _ _ _ Hw). set_solver.
  - destruct (p_v6 u); [apply (free_sub _ _ _ H3'); set_solver|]. split; [apply (free_sub _ _ _ H3'); set_solver|].
    destruct (p_host u) as [|c h]; [done|]. simpl. intros [= ->]. apply Forall_cons in H3' as [[_ Hc] _]. set_solver.
  - done.
  - destruct (p_path u) as [[p q]|]; [|done]. destruct H5 as [Hp Hq]. split; [apply (free_sub _ _ _ Hp); set_solver|].
    destruct q as [[q f]|]; [|done]. destruct Hq as [Hq Hf]. split; [done|]. destruct f; [|done]. by eapply free_nz.
Qed.
Lemma free_nil cs : free cs [].
Proof. constructor. Qed.
Lemma nz_free l : nz l -> free [] l.
Proof. intros H. eapply Forall_impl; [exact H|]. intros x Hx. split; [done|set_solver]. Qed.
Create HintDb url_db.
#[local] Hint Resolve free_app free_nil nz_free : url_db.
#[local] Hint Extern 3 (free _ (_ :: _)) => (apply free_cons; [done|set_solver|]) : url_db.
#[local] Hint Extern 4 (free _ ?l) => (match goal with H : free _ l |- _ => apply (free_sub _ _ _ H); set_solver end) : url_db.

Lemma hp_free u : scan_wf u -> free [47; 64] (r_hp u).
Proof.
  intros [_ _ [_ Hh] Hp _ _]. unfold r_hp. apply free_app.
  - destruct (p_v6 u); simpl; [|destruct Hh]; auto with url_db.
  - destruct (p_port u) as [d|]; simpl; [|apply free_nil]. destruct Hp as [Hd _].
    apply free_cons; [done|set_solver|]. apply digits_free; [done|]. intros c ?. assert (c = 47 \/ c = 64) by set_solver. lia.
Qed.
Lemma user_free u : scan_wf u -> free [47] (r_user (p_user u)).
Proof. intros [_ Hu _ _ _ _]. destruct (p_user u) as [[a [w|]]|]; simpl; try destruct Hu; auto with url_db. Qed.
Lemma path_nz u : scan_wf u -> nz (r_path (p_path u)).
Proof.
  intros [_ _ _ _ Hp _]. apply (free_nz []). destruct (p_path u) as [[p [[q [f|]]|]]|]; simpl; [destruct Hp as (? & ? & Hf)|destruct Hp as (? & ? & _)|destruct Hp as [? _]|];
    auto 7 with url_db.
Qed.
Lemma scheme_nz u : scan_wf u -> nz (r_scheme (p_scheme u)).
Proof.
  intros [Hs _ _ _ _ _]. destruct (p_scheme u) as [a|]; simpl; [|constructor]. apply nz_app. split; [destruct Hs; by eapply free_nz|].
  by repeat constructor.
Qed.
Lemma render_nz u : scan_wf u -> nz (render u).
Proof.
  intros W. pose proof (user_free u W). pose proof (hp_free u W). pose proof (path_nz u W). pose proof (scheme_nz u W).
  apply (free_nz []). unfold render, r_rest. rewrite (app_assoc (r_host _ _)). fold (r_hp u). auto with url_db.
Qed.

Lemma scheme_ok u tail : scan_wf u ->
  strstr (render u ++ 0 :: tail) (bytes_of_string "://" ++ [0]) 0 = Some (zlen <$> p_scheme u).
Proof.
  intros W. rewrite sep_bytes. pose proof (render_nz u W) as Hr. unfold render in *. apply nz_app in Hr as [_ Hr].
  destruct W as [Hs _ _ _ _ _]. destruct (p_scheme u) as [a|]; simpl.
  - destruct Hs as [Ha _]. rewrite <- !app_assoc. rewrite strstr_found by part_side. done.
  - by apply strstr_none.
Qed.

Lemma https_ok u tail : scan_wf u ->
  (if 0 <? zlen (default [] (p_scheme u)) then hv_strstartswith (render u ++ 0 :: tail) (bytes_of_string "https://" ++ [0]) else Some false)
  = Some (bool_decide (p_scheme u = Some (bytes_of_string "https"))).
Proof.
  intros W. pose proof (render_nz u W) as Hr.
  destruct W as [Hs _ _ _ _ _]. rewrite startswith_spec by (done || by repeat constructor).
  unfold render in *. destruct (p_scheme u) as [a|]; simpl default; [|done]. destruct Hs as [Ha Ha0].
  destruct (Z.ltb_spec 0 (zlen a)). 2: { destruct a; [done|]. zlen_simpl. pose proof (zlen_nonneg a). lia. }
  f_equal. apply bool_decide_ext. simpl r_scheme. rewrite <- app_assoc, https_prefix by part_side. split; [by intros ->|by intros [= ->]].
Qed.
(** The text of the optional parts, empty when absent. *)
Definition user_of (u : parts) : list Z := default [] (fst <$> p_user u).
Definition password_of (u : parts) : list Z := default [] (p_user u ≫= snd).
Definition path_of (u : parts) : list Z := default [] ((fun x => 47 :: x.1) <$> p_path u).
Definition query_of (u : parts) : list Z := default [] (fst <$> (p_path u ≫= snd)).
Definition fragment_of (u : parts) : list Z := default [] ((p_path u ≫= snd) ≫= snd).

(** What the three stages leave, in terms of the offsets of the parts. *)
Definition fields_of (u : parts) : hurl_t :=
  let a := zlen (r_scheme (p_scheme u)) in
  let h := a + zlen (r_user (p_user u)) in
  let b := h + (if p_v6 u then 1 else 0) in
  let e := h + zlen (r_host (p_v6 u) (p_host u)) in
  let p := e + zlen (r_port (p_port u)) in
  let q := p + zlen (path_of u) + 1 in
  mk_url
    (match p_scheme u with Some x => span 0 (zlen x) | None => no_field end)
    (match p_user u with Some (x, _) => span a (a + zlen x) | None => no_field end)
    (match p_user u with Some (x, Some w) => span (a + zlen x + 1) (a + zlen x + 1 + zlen w) | _ => no_field end)
    (span b (b + zlen (p_host u)))
    (match p_port u with Some d => span (e + 1) (e + 1 + zlen d) | None => no_field end)
    (match p_path u with Some (x, _) => span p (p + zlen (path_of u)) | None => no_field end)
    (match p_path u with Some (_, Some (x, _)) => span q (q + zlen x) | _ => no_field end)
    (match p_path u with Some (_, Some (x, Some f)) => span (q + zlen x + 1) (q + zlen x + 1 + zlen f) | _ => no_field end)
    (port_of u).

Lemma slash_ok s pre u post : scan_wf u -> s = pre ++ (r_user (p_user u) ++ r_hp u) ++ r_path (p_path u) ++ 0 :: post ->
  let ep := zlen pre + zlen (r_user (p_user u)) + zlen (r_hp u) in
  strchr (from s (zlen pre)) 47 (zlen pre) = Some ((fun _ => ep) <$> p_path u).
Proof.
  intros W -> ep. rewrite from_app by done. pose proof (user_free u W) as Hu. pose proof (hp_free u W) as Hh.
  assert (free [47] (r_user (p_user u) ++ r_hp u)) as Hf by (auto with url_db).
  destruct (p_path u) as [[p q]|].
  - assert (exists x, r_path (Some (p, q)) = 47 :: x) as [x ->] by (destruct q as [[? [|]]|]; by eexists).
    simpl app. rewrite strchr_found by part_side. simpl. do 2 f_equal. unfold ep. zlen_simpl. lia.
  - simpl app. by rewrite strchr_none by part_side.
Qed.

(** The scheme, the authority and the default port; the path is left. *)
Lemma hv_parse_url_head u tail : scan_wf u ->
  let s := render u ++ 0 :: tail in
  let u2 := (fields_of u).[PATH := no_field].[QUERY := no_field].[FRAGMENT := no_field] in
  let ep := zlen (r_scheme (p_scheme u)) + zlen (r_user (p_user u)) + zlen (r_hp u) in
  hv_parse_url s = if ep =? zlen (render u) then Some (0, u2) else u ← parse_path s u2 ep (zlen (render u)); Some (0, u).
Proof.
  intros W. cbv zeta. pose proof (https_ok u tail W) as Hhttps. pose proof (hp_free u W) as Hhp. unfold hv_parse_url.
  pose proof (render_nz u W) as Hr.
  rewrite strlen_text by done. cbn [mbind option_bind]. pose proof (W_len u W) as Hlen. destruct (Z.ltb_spec 65535 (zlen (render u))); [lia|].
  rewrite scheme_ok by done. cbn [mbind option_bind].
  set (s := render u ++ 0 :: tail) in *. set (pre := r_scheme (p_scheme u)).
  set (u0 := match p_scheme u with Some x => no_url.[SCHEME := span 0 (zlen x)] | None => no_url end).
  assert (match zlen <$> p_scheme u with Some ep => (no_url.[SCHEME := mk_field 0 (u16 ep)], ep + 3) | None => (no_url, 0) end = (u0, zlen pre)) as ->.
  { unfold u0, pre. destruct (p_scheme u) as [x|]; simpl; [|done]. unfold span. rewrite zlen_app, Z.sub_0_r. done. }
  assert (s = pre ++ (r_user (p_user u) ++ r_hp u) ++ r_path (p_path u) ++ 0 :: tail) as Es
    by (unfold s, render, r_rest, pre, r_hp; by rewrite <- !app_assoc).
  assert (zlen (render u) = zlen pre + zlen (r_user (p_user u)) + zlen (r_hp u) + zlen (r_path (p_path u))) as El
    by (unfold render, r_rest, pre, r_hp; zlen_simpl; lia).
  rewrite (slash_ok s pre u tail W Es). cbn [mbind option_bind].
  set (ep := zlen pre + zlen (r_user (p_user u)) + zlen (r_hp u)).
  assert (default (zlen (render u)) ((fun _ => ep) <$> p_path u) = ep) as ->.
  { unfold ep. rewrite El. destruct (p_path u); simpl; [done|]. change (zlen []) with 0. lia. }
  rewrite (userinfo_ok pre (p_user u) (r_hp u) (r_path (p_path u) ++ 0 :: tail) u0 s ep).
  2: rewrite Es; by rewrite <- !app_assoc.
  2: done.
  2: by destruct (r_path (p_path u)).
  2: by eapply free_nz.
  2: by (eapply free_notin; [exact Hhp|]; set_solver).
  2: exact (W_user u W).
  cbn [mbind option_bind].
  set (u1 := match p_user u with None => u0 | Some (a, None) => _ | Some (a, Some w) => _ end).
  assert (SCHEME u1 = SCHEME u0 /\ HOST u1 = no_field /\ port u1 = 0) as (Hsc & Hho & Hpo).
  { unfold u1, u0. by destruct (p_user u) as [[? [?|]]|], (p_scheme u). }
  assert (len (SCHEME u1) = zlen (default [] (p_scheme u))) as Hl1.
  { rewrite Hsc. unfold u0. pose proof (zlen_nonneg (r_user (p_user u))). pose proof (zlen_nonneg (r_hp u)). pose proof (zlen_nonneg (r_path (p_path u))).
    unfold pre in El. destruct (p_scheme u) as [x|]; [|done]. cbn [over SCHEME default]. cbn [r_scheme] in El. rewrite zlen_app in El. pose proof (zlen_nonneg x). pose proof (zlen_nonneg sep).
    change (zlen x) with (0 + zlen x) at 1. rewrite span_len; [done|lia]. }
  rewrite <- Hl1 in Hhttps.
  pose proof (host_ok s (pre ++ r_user (p_user u)) (p_v6 u) (p_host u) (p_port u) (r_path (p_path u) ++ 0 :: tail) u1 ep
    (bool_decide (p_scheme u = Some (bytes_of_string "https")))) as Hhost.
  cbv zeta in Hhost. rewrite zlen_app in Hhost. pose proof (zlen_nonneg (r_path (p_path u))). rewrite Hhost; clear Hhost.
  2: rewrite Es; unfold r_hp; by rewrite <- !app_assoc.
  2: by destruct (r_path (p_path u)).
  2: unfold ep, r_hp; rewrite zlen_app; lia.
  2: unfold ep; lia.
  2: done.
  2: done.
  2: exact (W_host u W).
  2: exact (W_port u W).
  2: done.
  cbn [mbind option_bind].
  set (u2 := match p_port u with Some _ => _ | None => _ end).
  assert (u2 = (fields_of u).[PATH := no_field].[QUERY := no_field].[FRAGMENT := no_field]) as E2.
  { unfold u2, u1, u0, fields_of, port_of, pre. by destruct (p_user u) as [[? [?|]]|], (p_scheme u), (p_port u). }
  by rewrite <- E2.
Qed.

Lemma hv_parse_url_fields u tail : scan_wf u -> hv_parse_url (render u ++ 0 :: tail) = Some (0, fields_of u).
Proof.
  intros W. rewrite hv_parse_url_head by done. cbv zeta. pose proof (W_path u W) as Hw.
  set (s := render u ++ 0 :: tail). set (pre := r_scheme (p_scheme u)).
  set (ep := zlen pre + zlen (r_user (p_user u)) + zlen (r_hp u)).
  assert (s = (pre ++ r_user (p_user u) ++ r_hp u) ++ r_path (p_path u) ++ 0 :: tail) as Es
    by (unfold s, render, r_rest, pre, r_hp; by rewrite <- !app_assoc).
  assert (zlen (render u) = ep + zlen (r_path (p_path u))) as El by (unfold ep, render, r_rest, pre, r_hp; zlen_simpl; lia).
  destruct (p_path u) as [[p q]|] eqn:Ep.
  - assert (0 < zlen (r_path (Some (p, q)))) as Hpos.
    { destruct q as [[q [f|]]|]; simpl r_path; rewrite zlen_cons; (match goal with |- context [zlen ?l] => pose proof (zlen_nonneg l) end); lia. }
    destruct (Z.eqb_spec ep (zlen (render u))); [lia|]. destruct Hw as [Hw1 Hw2].
    pose proof (path_ok s (pre ++ r_user (p_user u) ++ r_hp u) p q tail ((fields_of u).[PATH := no_field].[QUERY := no_field].[FRAGMENT := no_field])
      (zlen (render u))) as Hpath.
    cbv zeta in Hpath. rewrite !zlen_app in Hpath. replace (zlen pre + (zlen (r_user (p_user u)) + zlen (r_hp u))) with ep in Hpath by (unfold ep; lia).
    rewrite Hpath by done. clear Hpath. cbn [mbind option_bind].
    assert (ep = zlen pre + zlen (r_user (p_user u)) + zlen (r_host (p_v6 u) (p_host u)) + zlen (r_port (p_port u))) as Eep
      by (unfold ep, r_hp; rewrite zlen_app; lia).
    unfold fields_of, path_of. rewrite Ep. simpl default. fold pre. rewrite <- Eep. zlen_simpl.
    replace (ep + (1 + zlen p)) with (ep + 1 + zlen p) by lia. by destruct q as [[q [f|]]|].
  - change (zlen (r_path None)) with 0 in El. destruct (Z.eqb_spec ep (zlen (render u))); [|lia].
    unfold fields_of. by rewrite Ep.
Qed.

(** A field of the parts is found at its offset. *)
Lemma has_part u tail pre t post a b : scan_wf u -> render u = pre ++ t ++ post -> a = zlen pre -> b = a + zlen t ->
  has (render u ++ 0 :: tail) (span a b) t.
Proof.
  intros W E Ha Hb. pose proof (W_len u W) as Hl. rewrite E, !zlen_app in Hl. pose proof (zlen_nonneg post).
  eapply (has_span _ pre t (post ++ 0 :: tail)); [by rewrite E, <- !app_assoc|done|done|lia].
Qed.

(** The text before the host, before the port and before the path. *)
Definition to_host (u : parts) : list Z := r_scheme (p_scheme u) ++ r_user (p_user u).
Definition to_port (u : parts) : list Z := to_host u ++ r_host (p_v6 u) (p_host u).
Definition to_path (u : parts) : list Z := to_port u ++ r_port (p_port u).

(** [has_part] with its list equation by associativity and its offsets by arithmetic. *)
Ltac by_parts :=
  unfold render, r_rest, r_hp, to_path, to_port, to_host; repeat match goal with E : _ = _ |- _ => rewrite E end;
  cbn [r_scheme r_user r_host r_port r_path].
Ltac part_at pre t post :=
  apply (has_part _ _ pre t post);
  [done
  |by_parts; repeat (rewrite <- ?app_assoc, ?app_nil_r; cbn [app]); done
  |by_parts; unfold path_of; repeat match goal with E : _ = _ |- _ => rewrite E end; cbn; zlen_simpl; lia
  |zlen_simpl; lia].

Section Fields.
Context (u : parts) (tail : list Z) (W : scan_wf u).
Let s : list Z := render u ++ 0 :: tail.

Lemma has_scheme : has s (SCHEME (fields_of u)) (default [] (p_scheme u)).
Proof using W.
  unfold fields_of. cbn [SCHEME]. destruct (p_scheme u) as [x|] eqn:E; [|apply has_none]. part_at (@nil Z) x (sep ++ r_rest u).
Qed.
Lemma has_user : has s (USERNAME (fields_of u)) (user_of u) /\ has s (PASSWORD (fields_of u)) (password_of u).
Proof using W.
  unfold fields_of, user_of, password_of. cbn [USERNAME PASSWORD]. destruct (p_user u) as [[x [w|]]|] eqn:E; cbn; split; try apply has_none.
  - part_at (r_scheme (p_scheme u)) x (58 :: w ++ [64] ++ r_hp u ++ r_path (p_path u)).
  - part_at (r_scheme (p_scheme u) ++ x ++ [58]) w (64 :: r_hp u ++ r_path (p_path u)).
  - part_at (r_scheme (p_scheme u)) x (64 :: r_hp u ++ r_path (p_path u)).
Qed.
Lemma has_host : has s (HOST (fields_of u)) (p_host u) /\ has s (PORT (fields_of u)) (default [] (p_port u)).
Proof using W.
  unfold fields_of. cbn [HOST PORT]. split.
  - destruct (p_v6 u) eqn:E.
    + part_at (to_host u ++ [91]) (p_host u) (93 :: r_port (p_port u) ++ r_path (p_path u)).
    + part_at (to_host u) (p_host u) (r_port (p_port u) ++ r_path (p_path u)).
  - destruct (p_port u) as [d|] eqn:E; [|apply has_none]. part_at (to_port u ++ [58]) d (r_path (p_path u)).
Qed.
Lemma has_path : has s (PATH (fields_of u)) (path_of u) /\ has s (QUERY (fields_of u)) (query_of u) /\
  has s (FRAGMENT (fields_of u)) (fragment_of u).
Proof using W.
  unfold fields_of, path_of, query_of, fragment_of. cbn [PATH QUERY FRAGMENT].
  destruct (p_path u) as [[p [[q [f|]]|]]|] eqn:E; cbn; split_and!; try apply has_none.
  - part_at (to_path u) (47 :: p) (63 :: q ++ 35 :: f).
  - part_at (to_path u ++ 47 :: p ++ [63]) q (35 :: f).
  - part_at (to_path u ++ 47 :: p ++ 63 :: q ++ [35]) f (@nil Z).
  - part_at (to_path u) (47 :: p) (63 :: q).
  - part_at (to_path u ++ 47 :: p ++ [63]) q (@nil Z).
  - part_at (to_path u) (47 :: p) (@nil Z).
Qed.
End Fields.

(** The fields of a URL whose parts the scans can tell apart. *)
Lemma hv_parse_url_scan u tail : scan_wf u ->
  let s := render u ++ 0 :: tail in
  exists r, hv_parse_url s = Some (0, r) /\
    has s (SCHEME r) (default [] (p_scheme u)) /\ has s (USERNAME r) (user_of u) /\ has s (PASSWORD r) (password_of u) /\
    has s (HOST r) (p_host u) /\ has s (PORT r) (default [] (p_port u)) /\ has s (PATH r) (path_of u) /\
    has s (QUERY r) (query_of u) /\ has s (FRAGMENT r) (fragment_of u) /\ port r = port_of u.
Proof.
  intros W s. exists (fields_of u). split; [by apply hv_parse_url_fields|].
  pose proof (has_scheme u tail W). pose proof (has_user u tail W) as [? ?]. pose proof (has_host u tail W) as [? ?].
  pose proof (has_path u tail W) as (? & ? & ?). by split_and!.
Qed.

(** C34. Every URL of up to 65535 characters written from well-formed parts is accepted,
    and each field delimits exactly the part it is named for: an optional scheme, an
    optional user with an optional password, a host or an IPv6 address in brackets, an
    optional decimal port below 65536, and an optional path, after which there may be a
    query, after which there may be a fragment; the port is the number written, or 443
    for https and 80 otherwise. (A query that follows no path and a fragment that
    follows no query are [query_joins_host] and [fragment_joins_path].) *)
Theorem hv_parse_url_parts u tail : parts_wf u ->
  let s := render u ++ 0 :: tail in
  exists r, hv_parse_url s = Some (0, r) /\
    has s (SCHEME r) (default [] (p_scheme u)) /\ has s (USERNAME r) (user_of u) /\ has s (PASSWORD r) (password_of u) /\
    has s (HOST r) (p_host u) /\ has s (PORT r) (default [] (p_port u)) /\ has s (PATH r) (path_of u) /\
    has s (QUERY r) (query_of u) /\ has s (FRAGMENT r) (fragment_of u) /\ port r = port_of u.
Proof. intros W. by apply hv_parse_url_scan, parts_scan. Qed.
Definition parts_example : parts :=
  mk_parts (Some (bytes_of_string "https")) (Some (bytes_of_string "ann", Some (bytes_of_string "a:b"))) true (bytes_of_string "::1")
    (Some (bytes_of_string "8080")) (Some (bytes_of_string "x/y", Some (bytes_of_string "k=v", Some (bytes_of_string "top?")))).
Lemma hv_parse_url_parts_witness :
  exists r, hv_parse_url (bytes_of_string "https://ann:a:b@[::1]:8080/x/y?k=v#top?" ++ [0]) = Some (0, r) /\ port r = 8080.
Proof.
  destruct (hv_parse_url_parts parts_example []) as (r & E & _ & _ & _ & _ & _ & _ & _ & _ & Ep).
  - constructor; simpl; split_and?; try done; unfold free; try (by apply (bool_decide_unpack _); vm_compute).
  - exists r. split; [exact E|exact Ep].
Defined.

(** What the parser makes of a query that follows no path: it is in the host; and of a
    fragment that follows no query: it is in the path. *)
Lemma query_joins_host a h q tail : free [58] a -> a <> [] -> free [47; 58; 64] h -> h <> [] -> head h <> Some 91 ->
  free [47; 58; 64] q -> zlen (a ++ sep ++ h ++ 63 :: q) <= 65535 ->
  let s := (a ++ sep ++ h ++ 63 :: q) ++ 0 :: tail in
  exists r, hv_parse_url s = Some (0, r) /\ has s (HOST r) (h ++ 63 :: q) /\ has s (QUERY r) [].
Proof.
  intros Ha Ha0 Hh Hh0 Hhd Hq Hl s.
  set (u := mk_parts (Some a) None false (h ++ 63 :: q) None None).
  assert (render u = a ++ sep ++ h ++ 63 :: q) as Er by (unfold render, r_rest; cbn; by rewrite !app_nil_r, <- app_assoc).
  destruct (hv_parse_url_scan u tail) as (r & E & _ & _ & _ & H1 & _ & _ & H2 & _).
  - split; rewrite ?Er; cbn; try done. split; [by destruct h|].
    split; [apply free_app; [done|]; apply free_cons; [done|set_solver|done]|]. by destruct h.
  - rewrite Er in *. by exists r.
Qed.
Lemma fragment_joins_path a h p f tail : free [58] a -> a <> [] -> free [47; 58; 64] h -> h <> [] -> head h <> Some 91 ->
  free [63] p -> free [63] f -> zlen (a ++ sep ++ h ++ 47 :: p ++ 35 :: f) <= 65535 ->
  let s := (a ++ sep ++ h ++ 47 :: p ++ 35 :: f) ++ 0 :: tail in
  exists r, hv_parse_url s = Some (0, r) /\ has s (PATH r) (47 :: p ++ 35 :: f) /\ has s (FRAGMENT r) [].
Proof.
  intros Ha Ha0 Hh Hh0 Hhd Hp Hf Hl s.
  set (u := mk_parts (Some a) None false h None (Some (p ++ 35 :: f, None))).
  assert (render u = a ++ sep ++ h ++ 47 :: p ++ 35 :: f) as Er by (unfold render, r_rest; cbn; by rewrite <- app_assoc).
  destruct (hv_parse_url_scan u tail) as (r & E & _ & _ & _ & _ & _ & H1 & _ & H2 & _).
  - split; rewrite ?Er; cbn; try done. split; [|done]. apply free_app; [done|]. apply free_cons; [done|set_solver|done].
  - rewrite Er in *. by exists r.
Qed.
(** A port of more than 16 bits is taken modulo 65536. *)
Lemma port_wraps : exists r, hv_parse_url (bytes_of_string "http://h:65616" ++ [0]) = Some (0, r) /\ port r = 80.
Proof. eexists. split; by vm_compute. Qed.

(** * Copies *)

Lemma copy_loop_ok t tail n pre old d : nz t -> 1 <= n < 2 ^ 64 -> d = zlen pre ->
  Z.min (zlen t) (n - 1) < zlen old ->
  copy_loop (pre ++ old) d (t ++ 0 :: tail) n =
    Some (pre ++ take (Z.to_nat (n - 1)) t ++ 0 :: drop (S (Nat.min (length t) (Z.to_nat (n - 1)))) old).
Proof.
  intros Ht. revert n pre old d. induction Ht as [|c t Hc _ IH]; intros n pre old d Hn Hd Hl; cbn [app copy_loop]; zlen_simpl.
  - destruct old as [|o old]; [zlen_simpl; lia|]. rewrite Z.eqb_refl, zset_middle by done. by rewrite take_nil.
  - pose proof (zlen_nonneg t). destruct (Z.eqb_spec c 0); [done|]. cbv zeta. rewrite u64_small by lia.
    destruct old as [|o old]; [zlen_simpl; lia|]. rewrite !zset_middle by done. destruct (Z.ltb_spec 0 (n - 1)).
    + cbn [mbind option_bind]. rewrite cons_middle, app_assoc. rewrite IH by (zlen_simpl; lia).
      replace (Z.to_nat (n - 1)) with (S (Z.to_nat (n - 1 - 1))) by lia. by rewrite <- app_assoc.
    + by replace (Z.to_nat (n - 1)) with 0%nat by lia.
Qed.

(** [hv_strncpy] into [n > 0] bytes: as much of the text as fits with its terminator, and
    nothing after it; [hv_strncat] the same after the text already there, of [n] in all. *)
Lemma hv_strncpy_ok dest t tail n : nz t -> 1 <= n < 2 ^ 64 -> Z.min (zlen t) (n - 1) < zlen dest ->
  hv_strncpy dest (t ++ 0 :: tail) n =
    Some (take (Z.to_nat (n - 1)) t ++ 0 :: drop (S (Nat.min (length t) (Z.to_nat (n - 1)))) dest).
Proof. intros. exact (copy_loop_ok t tail n [] dest 0 H H0 eq_refl H1). Qed.
Lemma hv_strncat_ok b old t tail n : nz b -> nz t -> zlen b < n < 2 ^ 64 -> Z.min (zlen t) (n - zlen b - 1) < zlen (0 :: old) ->
  hv_strncat (b ++ 0 :: old) (t ++ 0 :: tail) n =
    Some (b ++ take (Z.to_nat (n - zlen b - 1)) t ++ 0 :: drop (Nat.min (length t) (Z.to_nat (n - zlen b - 1))) old).
Proof.
  intros Hb Ht Hn Hl. unfold hv_strncat. rewrite strlen_text by done. cbn [mbind option_bind]. pose proof (zlen_nonneg b).
  rewrite u64_small by lia. by apply copy_loop_ok; [|lia|..].
Qed.
(** Into no bytes at all it writes nevertheless: the count wraps. *)
Lemma hv_strncpy_zero dest t tail : nz t -> t <> [] -> zlen t < 2 ^ 64 - 1 -> zlen t < zlen dest ->
  hv_strncpy dest (t ++ 0 :: tail) 0 = Some (t ++ 0 :: drop (S (length t)) dest).
Proof.
  intros Ht Ht0 Hl Hd. destruct Ht as [|c t Hc Ht]; [done|]. destruct dest as [|o dest]; [zlen_simpl; pose proof (zlen_nonneg t); lia|].
  zlen_simpl. pose proof (zlen_nonneg t). unfold hv_strncpy. cbn [app copy_loop]. destruct (Z.eqb_spec c 0); [done|].
  change (u64 (0 - 1)) with (2 ^ 64 - 1). cbv zeta. destruct (Z.ltb_spec 0 (2 ^ 64 - 1)); [|done]. change (zset (o :: dest) 0 c) with (Some ([c] ++ dest)).
  cbn [mbind option_bind]. rewrite copy_loop_ok; [|done|done|done|lia].
  assert (length t <= Z.to_nat (2 ^ 64 - 1 - 1))%nat by (unfold zlen in *; lia). rewrite take_ge, Nat.min_l by done. done.
Qed.

(** * Matching *)

Lemma ends_loop_ok t x w y : (length w <= length t)%nat ->
  ends_loop (length w) (t ++ x) (w ++ y) (zlen t) (zlen w) = Some (bool_decide (w `suffix_of` t)).
Proof.
  revert t x y. induction w as [|b w IH] using rev_ind; intros t x y Hl.
  - by rewrite bool_decide_eq_true_2 by apply suffix_nil.
  - rewrite length_app in *. simpl in Hl. destruct t as [|a t _] using rev_ind; [simpl in Hl; lia|]. rewrite length_app in Hl. simpl in Hl.
    rewrite Nat.add_1_r. cbn [ends_loop length]. zlen_simpl. rewrite <- !app_assoc.
    rewrite (zget_middle t a x) by lia. rewrite (zget_middle w b y) by lia. cbn [mbind option_bind].
    replace (zlen t + (1 + 0) - 1) with (zlen t) by lia. replace (zlen w + (1 + 0) - 1) with (zlen w) by lia.
    destruct (Z.eqb_spec a b) as [->|Hne].
    + rewrite IH by lia. f_equal. apply bool_decide_ext. split; [apply suffix_app|apply suffix_app_inv].
    + rewrite bool_decide_eq_false_2; [done|]. intros H. by apply suffix_snoc_inv_1 in H.
Qed.

Lemma hv_strendswith_ok t x w y : nz t -> nz w -> hv_strendswith (t ++ 0 :: x) (w ++ 0 :: y) = Some (bool_decide (w `suffix_of` t)).
Proof.
  intros Ht Hw. unfold hv_strendswith. rewrite !strlen_text by done. cbn [mbind option_bind]. destruct (Z.ltb_spec (zlen t) (zlen w)) as [Hlt|Hge].
  - rewrite bool_decide_eq_false_2; [done|]. intros H%suffix_length. unfold zlen in *. lia.
  - unfold zlen at 1. rewrite Nat2Z.id. apply ends_loop_ok. unfold zlen in *. lia.
Qed.

(** A star stands for at least one more character of the text, and what follows it is
    matched as it is written, further stars included. *)
Lemma hv_wildcard_match_star a w t x y : nz a -> 42 ∉ a -> nz w -> nz t ->
  exists b, hv_wildcard_match (t ++ 0 :: x) (a ++ 42 :: w ++ 0 :: y) = Some b /\
    (b = true <-> exists r, t = a ++ r /\ r <> [] /\ w `suffix_of` r).
Proof.
  intros Ha H42 Hw. revert t. induction Ha as [|c a Hc _ IH]; intros t Ht; cbn [app].
  - destruct t as [|d t]; cbn [app hv_wildcard_match].
    + eexists. split; [done|]. split; [done|]. intros (r & <- & ? & _). done.
    + inversion Ht as [|?? Hd Ht']; subst. destruct (Z.eqb_spec d 0); [done|]. cbn [negb andb]. rewrite Z.eqb_refl. cbn [negb andb].
      change (d :: t ++ 0 :: x) with ((d :: t) ++ 0 :: x). rewrite hv_strendswith_ok by done. cbn [mbind option_bind].
      eexists. split; [done|]. destruct (bool_decide_reflect (w `suffix_of` d :: t)); split; try done; [by eexists|].
      intros (r & Er & _ & ?). simpl in Er. by subst.
  - apply not_elem_of_cons in H42 as [Hne H42]. destruct t as [|d t]; cbn [app hv_wildcard_match].
    + eexists. split; [done|]. simpl. split; [by destruct (Z.eqb_spec c 0)|]. by intros (r & ? & _).
    + inversion Ht as [|?? Hd Ht']; subst. destruct (Z.eqb_spec d 0), (Z.eqb_spec c 0); try done. cbn [negb andb].
      destruct (Z.eqb_spec c 42); [congruence|]. destruct (Z.eqb_spec d c) as [->|Hdc]; cbn [negb].
      * destruct (IH H42 t Ht') as (b & E & Hb). exists b. split; [done|]. rewrite Hb. split; intros (r & Er & H); exists r; simplify_eq; done.
      * eexists. split; [done|]. split; [done|]. intros (r & Er & _). congruence.
Qed.

(** Without a star it is equality. *)
Lemma hv_wildcard_match_plain a t x y : nz a -> 42 ∉ a -> nz t ->
  hv_wildcard_match (t ++ 0 :: x) (a ++ 0 :: y) = Some (bool_decide (t = a)).
Proof.
  intros Ha H42. revert t. induction Ha as [|c a Hc _ IH]; intros t Ht; cbn [app].
  - destruct Ht as [|d t Hd _]; cbn [app hv_wildcard_match]; [done|]. destruct (Z.eqb_spec d 0); [done|]. by rewrite andb_false_r.
  - apply not_elem_of_cons in H42 as [Hne H42]. destruct Ht as [|d t Hd Ht]; cbn [app hv_wildcard_match].
    + simpl. by destruct (Z.eqb_spec c 0).
    + destruct (Z.eqb_spec d 0), (Z.eqb_spec c 0); try done. cbn [negb andb]. destruct (Z.eqb_spec c 42); [congruence|].
      destruct (Z.eqb_spec d c) as [->|Hdc]; cbn [negb].
      * rewrite IH by done. f_equal. apply bool_decide_ext. split; congruence.
      * rewrite bool_decide_eq_false_2 by congruence. done.
Qed.
End HBaseThm.
