(* ===== verification/HTime.v ===== *)
(** The calendar of base/htime.c: the lengths of months, dates so many days away, and
    the next time of a cron pattern. [localtime] and [mktime] of the C library are
    modelled for a zone with summer time: days of the Gregorian calendar counted from
    1/1/1, [mktime] taking the fields in the offset that [tm_isdst] names and normalising
    those out of range, as POSIX has it.
    Signed arithmetic that could overflow an [int] is checked. *)
From S2P Require Import Prelude.

Module HTime.

Definition SECONDS_PER_MINUTE : Z := 60.
Definition SECONDS_PER_HOUR : Z := 3600.
Definition SECONDS_PER_DAY : Z := 86400.
Definition SECONDS_PER_WEEK : Z := 604800.

Record datetime_t := mk_datetime { year : Z; month : Z; day : Z; hour : Z; min : Z; sec : Z; ms : Z }.
#[export] Instance datetime_rebuild : Rebuild datetime_t := fun d =>
  mk_datetime (year d) (month d) (day d) (hour d) (min d) (sec d) (ms d).

(** An [int], if it is one. *)
Definition int (z : Z) : option Z := if (-2 ^ 31 <=? z) && (z <? 2 ^ 31) then Some z else None.

(** * Months *)

Definition IS_LEAP_YEAR (y : Z) : bool :=
  ((Z.rem y 4 =? 0) && negb (Z.rem y 100 =? 0)) || (Z.rem y 400 =? 0).

Definition s_days : list Z := [31; 28; 31; 30; 31; 30; 31; 31; 30; 31; 30; 31].

Definition days_of_month (m y : Z) : Z :=
  if (m <? 1) || (12 <? m) then 0
  else
    let days := default 0 (zget s_days (m - 1)) in
    if (m =? 2) && IS_LEAP_YEAR y then days + 1 else days.

(** The loops of [datetime_past] and [datetime_future]. *)
Fixpoint past_loop (fuel : nat) (dt : datetime_t) (sub : Z) : option datetime_t :=
  if sub =? 0 then Some dt
  else
    match fuel with
    | O => None
    | S f =>
        if sub <? day dt then Some (dt.[day := day dt - sub])
        else
          let sub := sub - day dt in
          let m := month dt - 1 in
          '(m, y) ← (if m =? 0 then y ← int (year dt - 1); Some (12, y) else Some (m, year dt));
          past_loop f (dt.[month := m].[year := y].[day := days_of_month m y]) sub
    end.
Definition datetime_past (dt : datetime_t) (days : Z) : option datetime_t :=
  if days <? 0 then None else past_loop (S (Z.to_nat days)) dt days.

Fixpoint future_loop (fuel : nat) (dt : datetime_t) (sub : Z) : option datetime_t :=
  if sub =? 0 then Some dt
  else
    match fuel with
    | O => None
    | S f =>
        let mdays := days_of_month (month dt) (year dt) in
        d ← int (day dt + sub);
        if d <=? mdays then Some (dt.[day := d])
        else
          let sub := sub - (mdays - day dt + 1) in
          let m := month dt + 1 in
          '(m, y) ← (if 12 <? m then y ← int (year dt + 1); Some (1, y) else Some (m, year dt));
          future_loop f (dt.[month := m].[year := y].[day := 1]) sub
    end.
Definition datetime_future (dt : datetime_t) (days : Z) : option datetime_t :=
  if days <? 0 then None else future_loop (S (Z.to_nat days)) dt days.

(** * Names *)

Definition s_weekdays : list (list Z) :=
  map bytes_of_string ["Sunday"; "Monday"; "Tuesday"; "Wednesday"; "Thursday"; "Friday"; "Saturday"]%string.
Definition s_months : list (list Z) :=
  map bytes_of_string ["January"; "February"; "March"; "April"; "May"; "June";
    "July"; "August"; "September"; "October"; "November"; "December"]%string.

(** [strnicmp(s, name, strlen(s)) == 0], [s] without its terminator. *)
Definition tolower (c : Z) : Z := if (65 <=? c) && (c <=? 90) then c + 32 else c.
Definition strnicmp_eq (s name : list Z) : bool := bool_decide (map tolower s `prefix_of` map tolower name).
Fixpoint find_name (s : list Z) (names : list (list Z)) (i : Z) : option Z :=
  match names with [] => None | n :: names => if strnicmp_eq s n then Some i else find_name s names (i + 1) end.
Definition month_atoi (s : list Z) : Z := default 0 (find_name s s_months 1).
Definition month_itoa (m : Z) : option (list Z) := if (1 <=? m) && (m <=? 12) then zget s_months (m - 1) else None.
Definition weekday_atoi (s : list Z) : Z := default 0 (find_name s s_weekdays 0).
Definition weekday_itoa (w : Z) : option (list Z) :=
  if (0 <=? w) && (w <=? 7) then zget s_weekdays (if w =? 7 then 0 else w) else None.

(** * The C library's calendar *)

(** Days before a year and before a month of it, counted from 1/1/1; [m] is 1 to 12. *)
Definition days_before_year (y : Z) : Z := 365 * (y - 1) + (y - 1) / 4 - (y - 1) / 100 + (y - 1) / 400.
Fixpoint days_before_month (m : nat) (y : Z) : Z :=
  match m with O => 0 | S k => match k with O => 0 | _ => days_before_month k y + days_of_month (Z.of_nat k) y end end.
Definition day_number (y m d : Z) : Z := days_before_year y + days_before_month (Z.to_nat m) y + (d - 1).
Definition EPOCH : Z := day_number 1970 1 1.

(** The year, the month and the day of a day number. *)
Definition year_of (n : Z) : Z :=
  let y := 400 * n / 146097 + 1 in
  if days_before_year (y + 1) <=? n then y + 1 else if days_before_year y <=? n then y else y - 1.
Fixpoint month_from (k : nat) (m y r : Z) : Z * Z :=
  match k with
  | O => (m, r)
  | S k => if r <? days_of_month m y then (m, r) else month_from k (m + 1) y (r - days_of_month m y)
  end.
Definition date_of (n : Z) : Z * Z * Z :=
  let y := year_of n in
  let '(m, r) := month_from 11 1 y (n - days_before_year y) in (y, m, r + 1).

(** [struct tm], less the fields that are not used. *)
Record tm := mk_tm {
  tm_sec : Z; tm_min : Z; tm_hour : Z; tm_mday : Z; tm_mon : Z; tm_year : Z; tm_wday : Z; tm_isdst : bool }.
#[export] Instance tm_rebuild : Rebuild tm := fun t =>
  mk_tm (tm_sec t) (tm_min t) (tm_hour t) (tm_mday t) (tm_mon t) (tm_year t) (tm_wday t) (tm_isdst t).

(** A zone: seconds east of Greenwich in standard time, and the times at which summer
    time, an hour ahead of it, is in force. *)
Record zone := mk_zone { gmtoff : Z; isdst : Z -> bool }.
Definition fixed_zone (tz : Z) : zone := mk_zone tz (fun _ => false).

Section Zone.
Context (tz : zone).

(** The offset of standard or of summer time. *)
Definition offset (dst : bool) : Z := gmtoff tz + if dst then SECONDS_PER_HOUR else 0.

Definition localtime (t : Z) : tm :=
  let dst := isdst tz t in
  let n := (t + offset dst) / SECONDS_PER_DAY + EPOCH in
  let r := (t + offset dst) mod SECONDS_PER_DAY in
  let '(y, m, d) := date_of n in
  mk_tm (r mod 60) (r / 60 mod 60) (r / 3600) d (m - 1) (y - 1900) ((n + 1) mod 7) dst.

(** The time of a [struct tm], its fields in the offset [tm_isdst] names, and the
    [struct tm] normalised. *)
Definition tm_time (t : tm) : Z :=
  let y := tm_year t + 1900 + tm_mon t / 12 in
  let n := day_number y (tm_mon t mod 12 + 1) (tm_mday t) - EPOCH in
  n * SECONDS_PER_DAY + tm_hour t * SECONDS_PER_HOUR + tm_min t * SECONDS_PER_MINUTE + tm_sec t - offset (tm_isdst t).
Definition mktime (t : tm) : Z * tm := (tm_time t, localtime (tm_time t)).

(** * Dates and times *)

(** The field [ms] is left as it was, [junk], in [datetime_localtime]. *)
Definition datetime_localtime (junk t : Z) : datetime_t :=
  let m := localtime t in
  mk_datetime (tm_year m + 1900) (tm_mon m + 1) (tm_mday m) (tm_hour m) (tm_min m) (tm_sec m) junk.
Definition datetime_now (junk tv_sec tv_usec : Z) : datetime_t :=
  (datetime_localtime junk tv_sec).[ms := tv_usec / 1000].
(** The other fields of the [struct tm], [tm_isdst] among them, are those of now. *)
Definition datetime_mktime (now : Z) (dt : datetime_t) : Z :=
  fst (mktime ((localtime now).[tm_year := year dt - 1900].[tm_mon := month dt - 1].[tm_mday := day dt]
    .[tm_hour := hour dt].[tm_min := min dt].[tm_sec := sec dt])).

(** * Periods *)

Inductive period_type_e := MINUTELY | HOURLY | DAILY | WEEKLY | MONTHLY | YEARLY.

(** The fields set from the pattern, and the kind of period. *)
Definition cron_fields (minute hour day week month : Z) (t : tm) : period_type_e * tm :=
  let p := MINUTELY in
  let t := t.[tm_sec := 0] in
  let '(p, t) := if 0 <=? minute then (HOURLY, t.[tm_min := minute]) else (p, t) in
  let '(p, t) := if 0 <=? hour then (DAILY, t.[tm_hour := hour]) else (p, t) in
  if 0 <=? week then (WEEKLY, t)
  else if 0 <? day then
    let t := t.[tm_mday := day] in
    if 0 <? month then (YEARLY, t.[tm_mon := month - 1]) else (MONTHLY, t)
  else (p, t).

(** The time of the period after a round time that has passed. *)
Definition cron_advance (p : period_type_e) (tt_round : Z) (t : tm) : Z :=
  match p with
  | MINUTELY => tt_round + SECONDS_PER_MINUTE
  | HOURLY => tt_round + SECONDS_PER_HOUR
  | DAILY => tt_round + SECONDS_PER_DAY
  | WEEKLY => tt_round + SECONDS_PER_WEEK
  | MONTHLY =>
      let t := t.[tm_mon := tm_mon t + 1] in
      fst (mktime (if tm_mon t =? 12 then t.[tm_mon := 0].[tm_year := tm_year t + 1] else t))
  | YEARLY => fst (mktime (t.[tm_year := tm_year t + 1]))
  end.

Definition cron_next_timeout (minute hour day week month tt : Z) : Z :=
  let '(p, t) := cron_fields minute hour day week month (localtime tt) in
  let '(tt_round, t) := mktime t in
  let tt_round := if 0 <=? week then tt_round + (week - tm_wday t) * SECONDS_PER_DAY else tt_round in
  if tt <? tt_round then tt_round else cron_advance p tt_round t.

End Zone.
End HTime.
