(* ===== verification/HTimeThm.v ===== *)
(** The calendar of base/htime.c: day counts of dates, dates days away, and the next time
    of a pattern. *)
From S2P Require Import Prelude HTime.

Module HTimeThm.
Import HTime.

(** * The calendar *)

Lemma leap_mod y : IS_LEAP_YEAR y = ((y mod 4 =? 0) && negb (y mod 100 =? 0)) || (y mod 400 =? 0).
Proof.
  unfold IS_LEAP_YEAR. assert (forall n, n <> 0 -> (Z.rem y n =? 0) = (y mod n =? 0)) as H.
  { intros n Hn. apply eq_true_iff_eq. rewrite !Z.eqb_eq, Z.rem_divide, Z.mod_divide by done. done. }
  by rewrite !H by done.
Qed.

Definition year_days (y : Z) : Z := if IS_LEAP_YEAR y then 366 else 365.

Lemma dby_succ y : days_before_year (y + 1) = days_before_year y + year_days y.
Proof.
  unfold days_before_year, year_days. rewrite leap_mod.
  destruct (Z.eqb_spec (y mod 4) 0), (Z.eqb_spec (y mod 100) 0), (Z.eqb_spec (y mod 400) 0); simpl; zdm.
Qed.
Lemma dby_mono a b : a <= b -> days_before_year a + 365 * (b - a) <= days_before_year b.
Proof. unfold days_before_year. intros. zdm. Qed.
Lemma dby_lt a b : days_before_year a < days_before_year b -> a < b.
Proof. intros H. destruct (Z_le_gt_dec b a); [|lia]. pose proof (dby_mono b a). lia. Qed.

Lemma dim_range m y : 1 <= m <= 12 -> 28 <= days_of_month m y <= 31.
Proof.
  intros H. assert (m = 1 \/ m = 2 \/ m = 3 \/ m = 4 \/ m = 5 \/ m = 6 \/ m = 7 \/ m = 8 \/ m = 9 \/ m = 10 \/ m = 11 \/ m = 12) as Hm by lia.
  unfold days_of_month. destruct (IS_LEAP_YEAR y); repeat destruct Hm as [->|Hm]; try subst; vm_compute; split; congruence.
Qed.

Lemma dbm_succ m y : 1 <= m -> days_before_month (Z.to_nat (m + 1)) y = days_before_month (Z.to_nat m) y + days_of_month m y.
Proof.
  intros H. replace (Z.to_nat (m + 1)) with (S (Z.to_nat m)) by lia. remember (Z.to_nat m) as k eqn:E. destruct k as [|k]; [lia|].
  simpl days_before_month at 1. by replace (Z.of_nat (S k)) with m by lia.
Qed.
Lemma dbm_year y : days_before_month 12 y + days_of_month 12 y = year_days y.
Proof. unfold year_days, days_before_month, days_of_month. by destruct (IS_LEAP_YEAR y). Qed.

Lemma dbm_mono a b y : 1 <= a <= b -> days_before_month (Z.to_nat a) y <= days_before_month (Z.to_nat b) y.
Proof.
  intros H. replace b with (a + Z.of_nat (Z.to_nat (b - a))) by lia. induction (Z.to_nat (b - a)) as [|n IH]; [simpl Z.of_nat; rewrite !Z.add_0_r; lia|].
  replace (a + Z.of_nat (S n)) with (a + Z.of_nat n + 1) by lia. rewrite dbm_succ by lia.
  assert (0 <= days_of_month (a + Z.of_nat n) y); [|lia]. unfold days_of_month. destruct (_ || _) eqn:E; [lia|].
  pose proof (dim_range (a + Z.of_nat n) y). unfold days_of_month in *. rewrite E in *. lia.
Qed.

(** * Dates *)

(** A date of the calendar. *)
Definition valid (y m d : Z) : Prop := 1 <= m <= 12 /\ 1 <= d <= days_of_month m y.

Lemma day_number_month y m : 1 <= m < 12 -> day_number y (m + 1) 1 = day_number y m 1 + days_of_month m y.
Proof. intros. unfold day_number. rewrite dbm_succ by lia. lia. Qed.
Lemma day_number_year y : day_number (y + 1) 1 1 = day_number y 12 1 + days_of_month 12 y.
Proof. unfold day_number. rewrite dby_succ. pose proof (dbm_year y). change (Z.to_nat 12) with 12%nat. change (days_before_month (Z.to_nat 1) _) with 0. lia. Qed.
Lemma day_number_day y m d k : day_number y m (d + k) = day_number y m d + k.
Proof. unfold day_number. lia. Qed.

(** The dates of a year lie within it, those of a month before the next. *)
Lemma day_number_in_year y m d : valid y m d -> days_before_year y <= day_number y m d < days_before_year (y + 1).
Proof.
  intros [Hm Hd]. unfold day_number. rewrite dby_succ. pose proof (dbm_year y) as E. pose proof (dbm_mono 1 m y ltac:(lia)) as H1.
  change (days_before_month (Z.to_nat 1) y) with 0 in H1.
  assert (days_before_month (Z.to_nat m) y + days_of_month m y <= year_days y); [|lia].
  destruct (Z.eq_dec m 12) as [->|]; [change (Z.to_nat 12) with 12%nat; lia|].
  rewrite <- dbm_succ by lia. pose proof (dbm_mono (m + 1) 12 y ltac:(lia)). change (Z.to_nat 12) with 12%nat in *.
  pose proof (dim_range 12 y). lia.
Qed.

Lemma year_of_bounds n : days_before_year (year_of n) <= n < days_before_year (year_of n + 1).
Proof.
  unfold year_of. cbv zeta. set (y := 400 * n / 146097 + 1).
  assert (days_before_year (y - 1) <= n < days_before_year (y + 2)) as H by (unfold days_before_year, y; zdm).
  destruct (Z.leb_spec (days_before_year (y + 1)) n); [replace (y + 1 + 1) with (y + 2) by lia; lia|].
  destruct (Z.leb_spec (days_before_year y) n); [lia|]. replace (y - 1 + 1) with y by lia. lia.
Qed.
Lemma year_of_unique n y : days_before_year y <= n < days_before_year (y + 1) -> year_of n = y.
Proof.
  intros H. pose proof (year_of_bounds n) as H'. assert (year_of n < y + 1) by (apply dby_lt; lia).
  assert (y < year_of n + 1) by (apply dby_lt; lia). lia.
Qed.

Lemma month_from_ok y k m r : 1 <= m -> Z.of_nat k = 12 - m -> 0 <= r < days_before_month 12 y + days_of_month 12 y - days_before_month (Z.to_nat m) y ->
  let '(m', r') := month_from k m y r in
  m <= m' <= 12 /\ 0 <= r' < days_of_month m' y /\ days_before_month (Z.to_nat m) y + r = days_before_month (Z.to_nat m') y + r'.
Proof.
  revert m r. induction k as [|k IH]; intros m r Hm Hk Hr; simpl month_from.
  - assert (m = 12) as -> by lia. change (Z.to_nat 12) with 12%nat in *. lia.
  - destruct (Z.ltb_spec r (days_of_month m y)); [lia|]. specialize (IH (m + 1) (r - days_of_month m y)).
    destruct (month_from k (m + 1) y (r - days_of_month m y)) as [m' r']. rewrite dbm_succ in IH by done.
    destruct IH as (H1 & H2 & H3); lia.
Qed.

(** [date_of] is the inverse of [day_number]. *)
Lemma date_of_valid n : let '(y, m, d) := date_of n in valid y m d /\ day_number y m d = n.
Proof.
  unfold date_of. pose proof (year_of_bounds n) as H. rewrite dby_succ in H. set (y := year_of n) in *. pose proof (dbm_year y) as E.
  pose proof (month_from_ok y 11 1 (n - days_before_year y) ltac:(lia) eq_refl) as Hm. change (days_before_month (Z.to_nat 1) y) with 0 in Hm.
  destruct (month_from 11 1 y (n - days_before_year y)) as [m r]. destruct Hm as (H1 & H2 & H3); [lia|].
  split; [split; lia|]. unfold day_number. lia.
Qed.
Lemma day_number_inj y m d y' m' d' : valid y m d -> valid y' m' d' -> day_number y m d = day_number y' m' d' -> y = y' /\ m = m' /\ d = d'.
Proof.
  intros Hv Hv' E. assert (y = y') as <-.
  { rewrite <- (year_of_unique _ _ (day_number_in_year _ _ _ Hv)), <- (year_of_unique _ _ (day_number_in_year _ _ _ Hv')). by rewrite E. }
  destruct Hv as [Hm Hd], Hv' as [Hm' Hd']. unfold day_number in E.
  assert (forall a b, 1 <= a < b -> days_before_month (Z.to_nat a) y + days_of_month a y <= days_before_month (Z.to_nat b) y) as Hlt.
  { intros a b ?. rewrite <- dbm_succ by lia. apply dbm_mono. lia. }
  assert (m = m') as <-; [|lia].
  destruct (Z.lt_trichotomy m m') as [H|[H|H]]; [pose proof (Hlt m m' ltac:(lia)); lia|done|pose proof (Hlt m' m ltac:(lia)); lia].
Qed.
Lemma date_of_day_number y m d : valid y m d -> date_of (day_number y m d) = (y, m, d).
Proof.
  intros Hv. pose proof (date_of_valid (day_number y m d)) as H. destruct (date_of (day_number y m d)) as [[y' m'] d'].
  destruct H as [Hv' E]. by destruct (day_number_inj _ _ _ _ _ _ Hv Hv' (eq_sym E)) as (-> & -> & ->).
Qed.

(** Names are read back, in full or by their first three letters. *)
Lemma month_names m : 1 <= m <= 12 -> exists s, month_itoa m = Some s /\ month_atoi s = m /\ month_atoi (take 3 s) = m.
Proof.
  intros H. assert (m = 1 \/ m = 2 \/ m = 3 \/ m = 4 \/ m = 5 \/ m = 6 \/ m = 7 \/ m = 8 \/ m = 9 \/ m = 10 \/ m = 11 \/ m = 12) as Hm by lia.
  repeat destruct Hm as [->|Hm]; try subst; eexists; (split; [reflexivity|]); by vm_compute.
Qed.
Lemma weekday_names w : 0 <= w <= 6 -> exists s, weekday_itoa w = Some s /\ weekday_atoi s = w /\ weekday_atoi (take 3 s) = w.
Proof.
  intros H. assert (w = 0 \/ w = 1 \/ w = 2 \/ w = 3 \/ w = 4 \/ w = 5 \/ w = 6) as Hw by lia.
  repeat destruct Hw as [->|Hw]; try subst; eexists; (split; [reflexivity|]); by vm_compute.
Qed.

(** * Days away *)

Definition wf (dt : datetime_t) : Prop := valid (year dt) (month dt) (day dt).
Definition serial (dt : datetime_t) : Z := day_number (year dt) (month dt) (day dt).
(** The same time of day. *)
Definition same_time (dt dt' : datetime_t) : Prop := hour dt' = hour dt /\ min dt' = min dt /\ sec dt' = sec dt /\ ms dt' = ms dt.

Lemma int_ok z : -2 ^ 31 <= z < 2 ^ 31 -> int z = Some z.
Proof. intros H. unfold int. destruct (Z.leb_spec (-2 ^ 31) z), (Z.ltb_spec z (2 ^ 31)); (done || lia). Qed.

(** The first day of the next month, and the last of the one before. *)
Lemma next_month y m : 1 <= m <= 12 ->
  let '(m', y') := if 12 <? m + 1 then (1, y + 1) else (m + 1, y) in
  valid y' m' 1 /\ day_number y' m' 1 = day_number y m 1 + days_of_month m y.
Proof.
  intros Hm. destruct (Z.ltb_spec 12 (m + 1)).
  - assert (m = 12) as -> by lia. split; [|apply day_number_year]. pose proof (dim_range 1 (y + 1)). split; lia.
  - split; [|apply day_number_month; lia]. pose proof (dim_range (m + 1) y). split; lia.
Qed.
Lemma previous_month y m : 1 <= m <= 12 ->
  let '(m', y') := if m - 1 =? 0 then (12, y - 1) else (m - 1, y) in
  valid y' m' (days_of_month m' y') /\ day_number y' m' (days_of_month m' y') = day_number y m 1 - 1.
Proof.
  intros Hm. destruct (Z.eqb_spec (m - 1) 0) as [H|H].
  - assert (m = 1) as -> by lia. pose proof (dim_range 12 (y - 1)). split; [split; lia|]. pose proof (day_number_year (y - 1)) as E.
    replace (y - 1 + 1) with y in E by lia. rewrite E. unfold day_number. lia.
  - pose proof (dim_range (m - 1) y). split; [split; lia|]. pose proof (day_number_month y (m - 1)) as E.
    replace (m - 1 + 1) with m in E by lia. unfold day_number in *. lia.
Qed.

Lemma future_loop_ok fuel : forall dt sub, wf dt -> 0 <= sub < Z.of_nat fuel -> sub + 31 < 2 ^ 31 -> -2 ^ 31 <= year dt ->
  serial dt + sub < days_before_year (2 ^ 31) ->
  exists dt', future_loop fuel dt sub = Some dt' /\ wf dt' /\ serial dt' = serial dt + sub /\ same_time dt dt'.
Proof.
  induction fuel as [|f IH]; intros dt sub [Hm Hd] Hf Hs Hy Hb; [lia|]. simpl future_loop. destruct (Z.eqb_spec sub 0) as [->|Hs0].
  { exists dt. split; [done|]. split; [by split|]. split; [lia|]. by split_and!. }
  pose proof (dim_range _ (year dt) Hm) as Hdim. rewrite (int_ok (day dt + sub)) by lia. cbn [mbind option_bind].
  destruct (Z.leb_spec (day dt + sub) (days_of_month (month dt) (year dt))).
  { eexists. split; [done|]. split; [split; cbn; [done|lia]|]. split; [|by split_and!]. unfold serial. cbn [over year month day]. apply day_number_day. }
  pose proof (next_month (year dt) (month dt) Hm) as Hn.
  assert (serial dt = day_number (year dt) (month dt) 1 + (day dt - 1)) as Es by (unfold serial, day_number; lia).
  set (my := if 12 <? month dt + 1 then (1, year dt + 1) else (month dt + 1, year dt)) in *.
  assert ((if 12 <? month dt + 1 then y ← int (year dt + 1); Some (1, y) else Some (month dt + 1, year dt)) = Some my /\ -2 ^ 31 <= snd my) as [-> Hy'].
  { unfold my. unfold my in Hn. destruct (12 <? month dt + 1); [|done]. rewrite int_ok; [split; [done|simpl; lia]|]. split; [lia|].
    apply dby_lt. destruct Hn as [Hv En]. pose proof (day_number_in_year _ _ _ Hv). lia. }
  destruct my as [m' y']. destruct Hn as [Hv En]. cbn [mbind option_bind].
  destruct (IH (dt.[month := m'].[year := y'].[day := 1]) (sub - (days_of_month (month dt) (year dt) - day dt + 1))) as (dt' & E & Hw & Hs' & Ht);
    [done|lia|lia|done|unfold serial; cbn [over year month day]; lia|].
  exists dt'. split; [done|]. split; [done|]. split; [|done]. rewrite Hs'. unfold serial at 1. cbn [over year month day]. lia.
Qed.

Lemma past_loop_ok fuel : forall dt sub, wf dt -> 0 <= sub < Z.of_nat fuel -> year dt < 2 ^ 31 ->
  days_before_year (-2 ^ 31) <= serial dt - sub ->
  exists dt', past_loop fuel dt sub = Some dt' /\ wf dt' /\ serial dt' = serial dt - sub /\ same_time dt dt'.
Proof.
  induction fuel as [|f IH]; intros dt sub [Hm Hd] Hf Hy Hb; [lia|]. simpl past_loop. destruct (Z.eqb_spec sub 0) as [->|Hs0].
  { exists dt. split; [done|]. split; [by split|]. split; [lia|]. by split_and!. }
  destruct (Z.ltb_spec sub (day dt)).
  { eexists. split; [done|]. split; [split; cbn; [done|lia]|]. split; [|by split_and!]. unfold serial. cbn [over year month day]. unfold day_number. lia. }
  pose proof (previous_month (year dt) (month dt) Hm) as Hn.
  assert (serial dt = day_number (year dt) (month dt) 1 + (day dt - 1)) as Es by (unfold serial, day_number; lia).
  set (my := if month dt - 1 =? 0 then (12, year dt - 1) else (month dt - 1, year dt)) in *.
  assert ((if month dt - 1 =? 0 then y ← int (year dt - 1); Some (12, y) else Some (month dt - 1, year dt)) = Some my /\ snd my < 2 ^ 31) as [-> Hy'].
  { unfold my. unfold my in Hn. destruct (month dt - 1 =? 0); [|done]. rewrite int_ok; [split; [done|simpl; lia]|]. split; [|lia].
    destruct Hn as [Hv En]. pose proof (day_number_in_year _ _ _ Hv). assert (-2 ^ 31 < year dt - 1 + 1) by (apply dby_lt; lia). lia. }
  destruct my as [m' y']. destruct Hn as [Hv En]. cbn [mbind option_bind].
  destruct (IH (dt.[month := m'].[year := y'].[day := days_of_month m' y']) (sub - day dt)) as (dt' & E & Hw & Hs' & Ht);
    [done|lia|done|unfold serial; cbn [over year month day]; lia|].
  exists dt'. split; [done|]. split; [done|]. split; [|done]. rewrite Hs'. unfold serial at 1. cbn [over year month day]. lia.
Qed.

Lemma datetime_eq dt dt' : wf dt -> wf dt' -> serial dt' = serial dt -> same_time dt dt' -> dt' = dt.
Proof.
  intros Hw Hw' E (? & ? & ? & ?). destruct (day_number_inj _ _ _ _ _ _ Hw Hw' (eq_sym E)) as (? & ? & ?).
  destruct dt, dt'. simpl in *. congruence.
Qed.

Lemma datetime_future_ok dt n : wf dt -> 0 <= n < 2 ^ 31 - 31 -> -2 ^ 31 <= year dt -> serial dt + n < days_before_year (2 ^ 31) ->
  exists dt', datetime_future dt n = Some dt' /\ wf dt' /\ serial dt' = serial dt + n /\ same_time dt dt'.
Proof. intros. unfold datetime_future. destruct (Z.ltb_spec n 0); [lia|]. apply future_loop_ok; (done || lia). Qed.
Lemma datetime_past_ok dt n : wf dt -> 0 <= n -> year dt < 2 ^ 31 -> days_before_year (-2 ^ 31) <= serial dt - n ->
  exists dt', datetime_past dt n = Some dt' /\ wf dt' /\ serial dt' = serial dt - n /\ same_time dt dt'.
Proof. intros. unfold datetime_past. destruct (Z.ltb_spec n 0); [lia|]. apply past_loop_ok; (done || lia). Qed.

(** C32. Adding days to a date gives the calendar date that many days later, subtracting
    them the one that many days before, as long as the year stays an [int]; the time of
    day is kept, and going forth and back returns to the same date. *)
Theorem datetime_days dt n : wf dt -> 0 <= n < 2 ^ 31 - 31 -> -2 ^ 31 <= year dt < 2 ^ 31 ->
  serial dt + n < days_before_year (2 ^ 31) -> days_before_year (-2 ^ 31) <= serial dt - n ->
  exists later earlier,
    datetime_future dt n = Some later /\ wf later /\ serial later = serial dt + n /\ same_time dt later /\
    datetime_past dt n = Some earlier /\ wf earlier /\ serial earlier = serial dt - n /\ same_time dt earlier /\
    datetime_past later n = Some dt /\ datetime_future earlier n = Some dt.
Proof.
  intros Hw Hn Hy Hl He.
  destruct (datetime_future_ok dt n) as (l & El & Wl & Sl & Tl); [done..|lia|done|]. destruct (datetime_past_ok dt n) as (e & Ee & We & Se & Te); [done|lia..|].
  pose proof (day_number_in_year _ _ _ Hw) as Yd. pose proof (day_number_in_year _ _ _ Wl) as Yl. pose proof (day_number_in_year _ _ _ We) as Ye.
  fold (serial dt) in Yd. fold (serial l) in Yl. fold (serial e) in Ye.
  assert (year l < 2 ^ 31) by (apply dby_lt; lia). assert (-2 ^ 31 < year e + 1) by (apply dby_lt; lia).
  assert (days_before_year (year dt) < days_before_year (2 ^ 31)) by lia.
  pose proof (dby_mono (-2 ^ 31) (year dt) ltac:(lia)).
  destruct (datetime_past_ok l n) as (dt1 & E1 & W1 & S1 & T1); [done|lia..|]. destruct (datetime_future_ok e n) as (dt2 & E2 & W2 & S2 & T2); [done|lia..|].
  exists l, e. split_and!; try done; [rewrite E1|rewrite E2]; f_equal; apply datetime_eq; try done; try lia; unfold same_time in *; intuition congruence.
Qed.

Lemma datetime_days_witness : exists later earlier,
  datetime_future (mk_datetime 2024 1 31 12 0 0 0) 1000 = Some later /\ datetime_past (mk_datetime 2024 1 31 12 0 0 0) 1000 = Some earlier /\
  later = mk_datetime 2026 10 27 12 0 0 0 /\ earlier = mk_datetime 2021 5 6 12 0 0 0.
Proof.
  destruct (datetime_days (mk_datetime 2024 1 31 12 0 0 0) 1000) as (l & e & El & _ & _ & _ & Ee & _); [by split|done..|].
  exists l, e. split; [exact El|]. split; [exact Ee|]. split.
  - assert (Some l = Some (mk_datetime 2026 10 27 12 0 0 0)) as [= ->] by (rewrite <- El; vm_compute; reflexivity). done.
  - assert (Some e = Some (mk_datetime 2021 5 6 12 0 0 0)) as [= ->] by (rewrite <- Ee; vm_compute; reflexivity). done.
Defined.

(** * The next time of a pattern *)

(** A zone without summer time. *)
Definition fixed (z : zone) : Prop := forall t, isdst z t = false.
Lemma fixed_zone_ok tz : fixed (fixed_zone tz).
Proof. by intros t. Qed.

Section Cron.
Context (z : zone) (Hz : fixed z).
#[local] Abbreviation tz := (gmtoff z).

Lemma localtime_isdst t : tm_isdst (localtime z t) = false.
Proof using Hz. unfold localtime. destruct (date_of _) as [[] ?]. cbn. apply Hz. Qed.
Ltac tmt := cbn [over tm_mon tm_isdst]; first [assumption|lia|apply localtime_isdst|reflexivity].

(** What [localtime] shows. *)
Lemma localtime_fields t : let l := localtime z t in let n := (t + tz) / 86400 + EPOCH in
  0 <= tm_sec l < 60 /\ 0 <= tm_min l < 60 /\ 0 <= tm_hour l < 24 /\
  valid (tm_year l + 1900) (tm_mon l + 1) (tm_mday l) /\ day_number (tm_year l + 1900) (tm_mon l + 1) (tm_mday l) = n /\
  tm_wday l = (n + 1) mod 7 /\ t + tz = (n - EPOCH) * 86400 + tm_hour l * 3600 + tm_min l * 60 + tm_sec l.
Proof.
  unfold localtime, offset, SECONDS_PER_DAY. rewrite Hz, Z.add_0_r. set (n := (t + tz) / 86400 + EPOCH). pose proof (date_of_valid n) as H. destruct (date_of n) as [[y m] d].
  destruct H as [Hv E]. cbn.
  rewrite !Z.sub_add. pose proof (Z.mod_pos_bound (t + tz) 86400 ltac:(lia)) as Hr. pose proof (Z.div_mod (t + tz) 86400 ltac:(lia)) as Et.
  replace (n - EPOCH) with ((t + tz) / 86400) by (unfold n; lia). clearbody n. remember ((t + tz) mod 86400) as r. remember ((t + tz) / 86400) as q.
  split_and!; first [done|destruct Hv; lia|zdm].
Qed.

(** The time of fields in range shows those fields. *)
Lemma localtime_tm_time l : tm_isdst l = false -> valid (tm_year l + 1900) (tm_mon l + 1) (tm_mday l) -> 0 <= tm_hour l < 24 -> 0 <= tm_min l < 60 -> 0 <= tm_sec l < 60 ->
  let l' := localtime z (tm_time z l) in
  tm_sec l' = tm_sec l /\ tm_min l' = tm_min l /\ tm_hour l' = tm_hour l /\ tm_mday l' = tm_mday l /\ tm_mon l' = tm_mon l /\ tm_year l' = tm_year l.
Proof.
  intros Hi Hv Hh Hm Hs. unfold localtime. rewrite Hz. unfold tm_time, offset. rewrite Hi, Z.add_0_r. unfold SECONDS_PER_DAY, SECONDS_PER_HOUR, SECONDS_PER_MINUTE. destruct Hv as [Hmo Hd] eqn:EHv.
  rewrite (Z.div_small (tm_mon l)), (Z.mod_small (tm_mon l)) by lia. rewrite Z.add_0_r.
  set (n := day_number (tm_year l + 1900) (tm_mon l + 1) (tm_mday l)).
  set (r := tm_hour l * 3600 + tm_min l * 60 + tm_sec l). assert (0 <= r < 86400) as Hr by (unfold r; lia).
  replace (_ - tz + tz) with ((n - EPOCH) * 86400 + r) by (unfold r; lia).
  assert (((n - EPOCH) * 86400 + r) / 86400 = n - EPOCH) as -> by zdm.
  assert (((n - EPOCH) * 86400 + r) mod 86400 = r) as -> by zdm.
  rewrite Z.sub_add. unfold n. rewrite date_of_day_number by done. cbn. unfold r. clear - Hh Hm Hs. split_and!; zdm.
Qed.

(** The start of a day, and the months and years that times fall in. *)
Definition start (n : Z) : Z := (n - EPOCH) * 86400 - tz.

Lemma localtime_in_month y m t : 1 <= m <= 12 -> start (day_number y m 1) <= t < start (day_number y m 1 + days_of_month m y) ->
  tm_year (localtime z t) = y - 1900 /\ tm_mon (localtime z t) = m - 1.
Proof.
  intros Hm Ht. destruct (localtime_fields t) as (Hs & Hmi & Hh & Hv & En & _ & Et). set (l := localtime z t) in *.
  remember ((t + tz) / 86400 + EPOCH) as n. unfold start in Ht.
  assert (valid y m (1 + (n - day_number y m 1))) as Hv' by (split; lia).
  destruct (day_number_inj _ _ _ _ _ _ Hv Hv') as (? & ? & ?); [rewrite day_number_day; lia|]. lia.
Qed.
Lemma localtime_in_year y t : start (days_before_year y) <= t < start (days_before_year (y + 1)) -> tm_year (localtime z t) = y - 1900.
Proof.
  intros Ht. destruct (localtime_fields t) as (Hs & Hmi & Hh & Hv & En & _ & Et). set (l := localtime z t) in *.
  remember ((t + tz) / 86400 + EPOCH) as n. unfold start in Ht. pose proof (day_number_in_year _ _ _ Hv) as Hy. rewrite En in Hy.
  assert (year_of n = y) by (apply year_of_unique; lia). assert (year_of n = tm_year l + 1900) by (by apply year_of_unique). lia.
Qed.

Lemma tm_time_in l : 0 <= tm_mon l < 12 -> tm_isdst l = false ->
  tm_time z l = start (day_number (tm_year l + 1900) (tm_mon l + 1) (tm_mday l)) + tm_hour l * 3600 + tm_min l * 60 + tm_sec l.
Proof.
  intros H Hi. unfold tm_time, offset, start, SECONDS_PER_DAY, SECONDS_PER_HOUR, SECONDS_PER_MINUTE. rewrite Hi, Z.div_small, Z.mod_small, !Z.add_0_r by lia. lia.
Qed.
Lemma day_number_ge y m d : 1 <= m -> 1 <= d -> days_before_year y <= day_number y m d.
Proof. intros Hm Hd. unfold day_number. pose proof (dbm_mono 1 m y ltac:(lia)) as H. change (days_before_month (Z.to_nat 1) y) with 0 in H. lia. Qed.

(** The kind of a pattern. *)
Definition kind (minute hour day week month : Z) : period_type_e :=
  if 0 <=? week then WEEKLY
  else if 0 <? day then if 0 <? month then YEARLY else MONTHLY
  else if 0 <=? hour then DAILY else if 0 <=? minute then HOURLY else MINUTELY.

Lemma cron_fields_ok minute hour day week month l :
  let p := kind minute hour day week month in
  let by_date := match p with MONTHLY | YEARLY => true | _ => false end in
  cron_fields minute hour day week month l =
    (p, mk_tm 0 (if 0 <=? minute then minute else tm_min l) (if 0 <=? hour then hour else tm_hour l)
          (if by_date then day else tm_mday l) (match p with YEARLY => month - 1 | _ => tm_mon l end) (tm_year l) (tm_wday l) (tm_isdst l)).
Proof.
  unfold cron_fields, kind. destruct l.
  by destruct (0 <=? minute), (0 <=? hour), (0 <=? week), (0 <? day), (0 <? month).
Qed.

(** A month on from a time of this month or later is after it, and so is a year. *)
Lemma advance_monthly tt l : tm_isdst l = false -> tm_sec l >= 0 -> tm_min l >= 0 -> tm_hour l >= 0 -> tm_mday l >= 1 ->
  tm_year l = tm_year (localtime z tt) -> tm_mon l = tm_mon (localtime z tt) -> forall r, tt < cron_advance z MONTHLY r l.
Proof.
  intros Hi Hs Hmi Hh Hd Ey Em r. destruct (localtime_fields tt) as (Hs' & Hmi' & Hh' & [Hmo Hd'] & En & _ & Et).
  set (k := localtime z tt) in *. remember ((tt + tz) / 86400 + EPOCH) as n. pose proof (next_month (tm_year k + 1900) (tm_mon k + 1) Hmo) as Hn.
  assert (n = day_number (tm_year k + 1900) (tm_mon k + 1) 1 + (tm_mday k - 1)) as En' by (rewrite <- En; unfold day_number; lia).
  unfold cron_advance, mktime. cbn [fst over tm_mon]. rewrite Em. destruct (Z.eqb_spec (tm_mon k + 1) 12), (Z.ltb_spec 12 (tm_mon k + 1 + 1)); try lia;
    rewrite tm_time_in by tmt; cbn [over tm_year tm_mon tm_mday tm_hour tm_min tm_sec]; rewrite Ey;
    destruct Hn as [_ Hn]; unfold start.
  - replace (tm_year k + 1 + 1900) with (tm_year k + 1900 + 1) by lia. change (0 + 1) with 1.
    pose proof (day_number_day (tm_year k + 1900 + 1) 1 1 (tm_mday l - 1)). rewrite Zplus_minus in *. lia.
  - pose proof (day_number_day (tm_year k + 1900) (tm_mon k + 1 + 1) 1 (tm_mday l - 1)). rewrite Zplus_minus in *. lia.
Qed.
Lemma advance_yearly tt l : tm_isdst l = false -> tm_sec l >= 0 -> tm_min l >= 0 -> tm_hour l >= 0 -> tm_mday l >= 1 -> 0 <= tm_mon l < 12 ->
  tm_year l = tm_year (localtime z tt) -> forall r, tt < cron_advance z YEARLY r l.
Proof.
  intros Hi Hs Hmi Hh Hd Hm Ey r. destruct (localtime_fields tt) as (Hs' & Hmi' & Hh' & Hv & En & _ & Et).
  set (k := localtime z tt) in *. remember ((tt + tz) / 86400 + EPOCH) as n. pose proof (day_number_in_year _ _ _ Hv) as Hy.
  unfold cron_advance, mktime. cbn [fst]. rewrite tm_time_in by tmt. cbn [over tm_year tm_mon tm_mday tm_hour tm_min tm_sec]. rewrite Ey.
  pose proof (day_number_ge (tm_year k + 1 + 1900) (tm_mon l + 1) (tm_mday l) ltac:(lia) ltac:(lia)) as Hg.
  replace (tm_year k + 1 + 1900) with (tm_year k + 1900 + 1) in * by lia. unfold start. lia.
Qed.

(** Whatever the pattern, the next time is later than now. *)
Lemma cron_ahead minute hour day week month tt : tt < cron_next_timeout z minute hour day week month tt.
Proof.
  destruct (localtime_fields tt) as (Hs & Hmi & Hh & Hv & En & Hw & Et). pose proof Hv as [Hmo Hd]. unfold cron_next_timeout.
  rewrite cron_fields_ok. cbv zeta. set (l := localtime z tt) in *. remember ((tt + tz) / 86400 + EPOCH) as n.
  set (mi := if 0 <=? minute then minute else tm_min l). set (h := if 0 <=? hour then hour else tm_hour l).
  assert (0 <= mi) by (unfold mi; destruct (Z.leb_spec 0 minute); lia). assert (0 <= h) by (unfold h; destruct (Z.leb_spec 0 hour); lia).
  unfold mktime. set (t := mk_tm _ _ _ _ _ _ _ _). remember (tm_time z t) as R0 eqn:ER.
  destruct (localtime_fields R0) as (Hs0 & Hmi0 & Hh0 & Hv0 & En0 & Hw0 & Et0). pose proof Hv0 as [Hmo0 Hd0]. set (l' := localtime z R0) in *.
  remember ((R0 + tz) / 86400 + EPOCH) as n0.
  set (R := if 0 <=? week then _ else _). destruct (Z.ltb_spec tt R) as [|Hle]; [done|].
  assert (match kind minute hour day week month with YEARLY | MONTHLY => True | _ => R0 = start n + h * 3600 + mi * 60 end) as ER'.
  { unfold t in ER. destruct (kind minute hour day week month); try done; rewrite tm_time_in in ER by tmt; cbn in ER; rewrite En in ER; lia. }
  unfold kind in *. destruct (Z.leb_spec 0 week) as [Hwk|Hwk].
  { unfold R, cron_advance, SECONDS_PER_WEEK, SECONDS_PER_DAY, start in *. clear - Hwk ER' Hw0 Et0 Et Hs Hmi Hh Hs0 Hmi0 Hh0 H H0. zdm. }
  unfold R in *. destruct (Z.ltb_spec 0 day) as [Hdy|Hdy].
  2: { destruct (0 <=? hour) eqn:E1, (0 <=? minute) eqn:E2; unfold cron_advance, SECONDS_PER_DAY, SECONDS_PER_HOUR, SECONDS_PER_MINUTE, start in *; unfold h, mi in *; lia. }
  destruct (Z.ltb_spec 0 month) as [Hmn|Hmn].
  - apply advance_yearly; try lia; [apply localtime_isdst|]. fold l. replace (tm_year l) with (tm_year l + 1900 - 1900) by lia. apply localtime_in_year.
    pose proof (day_number_in_year _ _ _ Hv). split; [|unfold start; lia]. rewrite ER. unfold tm_time, offset, t, SECONDS_PER_DAY, SECONDS_PER_HOUR, SECONDS_PER_MINUTE.
    cbn [tm_year tm_mon tm_mday tm_hour tm_min tm_sec tm_isdst]. assert (tm_isdst l = false) as -> by apply localtime_isdst.
    pose proof (day_number_ge (tm_year l + 1900 + (month - 1) / 12) ((month - 1) mod 12 + 1) day ltac:(zdm) ltac:(lia)) as Hg.
    pose proof (dby_mono (tm_year l + 1900) (tm_year l + 1900 + (month - 1) / 12)) as Hmm. assert (0 <= (month - 1) / 12) by zdm. unfold start. lia.
  - assert (tm_year l' = tm_year l + 1900 - 1900 /\ tm_mon l' = tm_mon l + 1 - 1) as [Ey Em].
    { apply localtime_in_month; [done|]. assert (n = day_number (tm_year l + 1900) (tm_mon l + 1) 1 + (tm_mday l - 1)) as En' by (rewrite <- En; unfold day_number; lia).
      split; [|unfold start; lia]. unfold t in ER. rewrite tm_time_in in ER by tmt. cbn in ER. rewrite ER.
      assert (day_number (tm_year l + 1900) (tm_mon l + 1) 1 <= day_number (tm_year l + 1900) (tm_mon l + 1) day) by (unfold day_number; lia). unfold start. lia. }
    apply advance_monthly; [apply localtime_isdst|fold l; lia..].
Qed.

(** And not more than 1000 days away, for fields in range. *)
Lemma dbm_next_year m y : 1 <= m <= 12 -> days_before_month (Z.to_nat m) (y + 1) <= days_before_month (Z.to_nat m) y + 1.
Proof.
  intros H. assert (m = 1 \/ m = 2 \/ m = 3 \/ m = 4 \/ m = 5 \/ m = 6 \/ m = 7 \/ m = 8 \/ m = 9 \/ m = 10 \/ m = 11 \/ m = 12) as Hm by lia.
  repeat destruct Hm as [->|Hm]; try subst; 
    (match goal with |- context [Z.to_nat ?z] => let n := eval vm_compute in (Z.to_nat z) in change (Z.to_nat z) with n end);
    unfold days_before_month, days_of_month; destruct (IS_LEAP_YEAR y), (IS_LEAP_YEAR (y + 1)); vm_compute; congruence.
Qed.
Lemma advance_monthly_bound r l : tm_isdst l = false -> valid (tm_year l + 1900) (tm_mon l + 1) (tm_mday l) ->
  cron_advance z MONTHLY r l <= tm_time z l + 31 * 86400.
Proof.
  intros Hi [Hmo Hd]. pose proof (next_month (tm_year l + 1900) (tm_mon l + 1) Hmo) as Hn. pose proof (dim_range _ (tm_year l + 1900) Hmo).
  assert (forall y m d, day_number y m d = day_number y m 1 + (d - 1)) as Hdn by (intros; unfold day_number; lia).
  rewrite (tm_time_in l) by tmt. unfold cron_advance, mktime. cbn [fst over tm_mon].
  destruct (Z.eqb_spec (tm_mon l + 1) 12), (Z.ltb_spec 12 (tm_mon l + 1 + 1)); try lia; destruct Hn as [_ Hn];
    rewrite tm_time_in by tmt; cbn [over tm_year tm_mon tm_mday tm_hour tm_min tm_sec]; unfold start; rewrite (Hdn _ _ (tm_mday l)), (Hdn (tm_year l + 1900) (tm_mon l + 1)).
  - replace (tm_year l + 1 + 1900) with (tm_year l + 1900 + 1) by lia. change (0 + 1) with 1. lia.
  - lia.
Qed.
Lemma advance_yearly_bound r l : tm_isdst l = false -> valid (tm_year l + 1900) (tm_mon l + 1) (tm_mday l) ->
  cron_advance z YEARLY r l <= tm_time z l + 367 * 86400.
Proof.
  intros Hi [Hmo Hd]. unfold cron_advance, mktime. cbn [fst]. rewrite !tm_time_in by tmt. cbn [over tm_year tm_mon tm_mday tm_hour tm_min tm_sec].
  pose proof (dbm_next_year (tm_mon l + 1) (tm_year l + 1900) Hmo) as Hb. pose proof (dby_succ (tm_year l + 1900)) as Hy.
  assert (year_days (tm_year l + 1900) <= 366) by (unfold year_days; destruct (IS_LEAP_YEAR _); lia).
  replace (tm_year l + 1 + 1900) with (tm_year l + 1900 + 1) by lia.
  assert (day_number (tm_year l + 1900 + 1) (tm_mon l + 1) (tm_mday l) <= day_number (tm_year l + 1900) (tm_mon l + 1) (tm_mday l) + 367) by (unfold day_number; lia).
  unfold start. lia.
Qed.
Lemma advance_bound p r R0 : cron_advance z p r (localtime z R0) <= Z.max r R0 + 367 * 86400.
Proof.
  destruct (localtime_fields R0) as (Hs & Hmi & Hh & Hv & En & _ & Et). set (l := localtime z R0) in *.
  assert (tm_time z l = R0) as El by (destruct Hv; rewrite tm_time_in by tmt; unfold start; rewrite En; lia).
  destruct p.
  1-4: unfold cron_advance, SECONDS_PER_MINUTE, SECONDS_PER_HOUR, SECONDS_PER_DAY, SECONDS_PER_WEEK; lia.
  - pose proof (advance_monthly_bound r l (localtime_isdst _) Hv). lia.
  - pose proof (advance_yearly_bound r l (localtime_isdst _) Hv). lia.
Qed.
Lemma cron_bound minute hour day week month tt : minute <= 59 -> hour <= 23 -> day <= 31 -> week <= 6 -> month <= 12 ->
  cron_next_timeout z minute hour day week month tt <= tt + 86400000.
Proof.
  intros Bm Bh Bd Bw Bmo. destruct (localtime_fields tt) as (Hs & Hmi & Hh & Hv & En & Hw & Et). pose proof Hv as [Hmo Hd]. unfold cron_next_timeout.
  rewrite cron_fields_ok. cbv zeta. set (l := localtime z tt) in *. remember ((tt + tz) / 86400 + EPOCH) as n.
  set (mi := if 0 <=? minute then minute else tm_min l). set (h := if 0 <=? hour then hour else tm_hour l).
  assert (mi <= 59) by (unfold mi; destruct (Z.leb_spec 0 minute); lia). assert (h <= 23) by (unfold h; destruct (Z.leb_spec 0 hour); lia).
  unfold mktime. set (t := mk_tm _ _ _ _ _ _ _ _). remember (tm_time z t) as R0 eqn:ER. destruct (localtime_fields R0) as (_ & _ & _ & _ & _ & Hw0 & _).
  assert (R0 <= tt + 400 * 86400) as HR0.
  { rewrite ER. clear ER Hw0. clearbody mi h. subst t. unfold kind.
    assert (forall y m d, day_number y m d = day_number y m 1 + (d - 1)) as Hdn by (intros; unfold day_number; lia).
    destruct (Z.leb_spec 0 week); [|destruct (Z.ltb_spec 0 day); [destruct (Z.ltb_spec 0 month)|destruct (0 <=? hour), (0 <=? minute)]];
      cbv iota; rewrite tm_time_in by tmt; cbn [tm_year tm_mon tm_mday tm_hour tm_min tm_sec]; unfold start; rewrite ?En; try lia.
    2: rewrite Hdn; rewrite (Hdn _ _ (tm_mday l)) in En; lia.
    assert (day_number (tm_year l + 1900) (month - 1 + 1) 1 <= days_before_year (tm_year l + 1900) + 366).
    { pose proof (day_number_in_year (tm_year l + 1900) (month - 1 + 1) 1) as Hy. rewrite dby_succ in Hy. unfold year_days in Hy.
      pose proof (dim_range (month - 1 + 1) (tm_year l + 1900)). destruct Hy as [_ Hy]; [split; lia|]. destruct (IS_LEAP_YEAR _); lia. }
    pose proof (day_number_ge (tm_year l + 1900) (tm_mon l + 1) (tm_mday l)). rewrite (Hdn _ _ day). lia. }
  set (R := if 0 <=? week then _ else _). assert (R <= tt + 410 * 86400) as HR.
  { unfold R, SECONDS_PER_DAY. destruct (0 <=? week); [|lia]. clear - HR0 Hw0 Bw. zdm. }
  destruct (tt <? R); [lia|]. pose proof (advance_bound (kind minute hour day week month) R R0). lia.
Qed.

(** * The pattern *)

(** A time of a pattern: on the minute, with the fields the pattern gives. *)
Definition fits_pattern (minute hour day week month t : Z) : Prop :=
  let l := localtime z t in
  tm_sec l = 0 /\ (0 <= minute -> tm_min l = minute) /\ (0 <= hour -> tm_hour l = hour) /\
  if 0 <=? week then tm_wday l = week else (0 < day -> tm_mday l = day /\ (0 < month -> tm_mon l = month - 1)).

(** The documented patterns: each field in its range, and given only with the finer ones. *)
Record documented (minute hour day week month : Z) : Prop := {
  R_minute : minute <= 59; R_hour : hour <= 23; R_week : week <= 6; R_month : month <= 12; R_day : day <= 31;
  R_daily : 0 <= hour -> 0 <= minute; R_date : 0 <= week \/ 0 < day -> 0 <= hour }.

(** The round time of a pattern without a date, and the length of its period. *)
Definition period_length (p : period_type_e) : Z := match p with MINUTELY => 60 | HOURLY => 3600 | DAILY => 86400 | _ => 604800 end.
Lemma cron_periodic_value minute hour day week month tt : documented minute hour day week month ->
  let p := kind minute hour day week month in
  match p with MONTHLY | YEARLY => False | _ => True end ->
  let l := localtime z tt in
  let h := if 0 <=? hour then hour else tm_hour l in
  let mi := if 0 <=? minute then minute else tm_min l in
  let n := (tt + tz) / 86400 + (if 0 <=? week then week - tm_wday l else 0) in
  let R := n * 86400 + h * 3600 + mi * 60 - tz in
  cron_next_timeout z minute hour day week month tt = if tt <? R then R else R + period_length p.
Proof.
  intros W p Hk l h mi n R. destruct (localtime_fields tt) as (Hs & Hmi & Hh & [Hmo _] & En & Hw & Et).
  unfold cron_next_timeout. fold l. rewrite cron_fields_ok. cbv zeta. fold h. fold mi. fold p. fold l in Hs, Hmi, Hh, Hmo, En, Hw, Et.
  unfold mktime. set (t0 := mk_tm _ _ _ _ _ _ _ _). destruct W as [Rm Rh _ _ _ _ _].
  assert (0 <= mi < 60) as Hmi' by (unfold mi; destruct (Z.leb_spec 0 minute); lia). assert (0 <= h < 24) as Hh' by (unfold h; destruct (Z.leb_spec 0 hour); lia).
  assert (tm_time z t0 = (tt + tz) / 86400 * 86400 + h * 3600 + mi * 60 - tz) as ER.
  { unfold t0. destruct p; try done; rewrite tm_time_in by tmt; cbn; rewrite En; unfold start; lia. }
  rewrite ER. set (R0 := (tt + tz) / 86400 * 86400 + h * 3600 + mi * 60 - tz).
  assert (tm_wday (localtime z R0) = tm_wday l) as ->.
  { destruct (localtime_fields R0) as (_ & _ & _ & _ & _ & -> & _). rewrite Hw. do 2 f_equal. unfold R0. clear - Hmi' Hh'. zdm. }
  assert ((if 0 <=? week then R0 + (week - tm_wday l) * SECONDS_PER_DAY else R0) = R) as ->
    by (unfold R, R0, n, SECONDS_PER_DAY; destruct (0 <=? week); lia).
  destruct (tt <? R); [done|]. by destruct p.
Qed.

Lemma cron_periodic minute hour day week month tt : documented minute hour day week month ->
  match kind minute hour day week month with MONTHLY | YEARLY => False | _ => True end ->
  let r := cron_next_timeout z minute hour day week month tt in
  fits_pattern minute hour day week month r /\ forall t, tt < t < r -> ~ fits_pattern minute hour day week month t.
Proof.
  intros W Hk r. pose proof (cron_ahead minute hour day week month tt) as Ha. fold r in Ha.
  assert (r = cron_next_timeout z minute hour day week month tt) as Er by done. clearbody r. rewrite cron_periodic_value in Er by done.
  destruct (localtime_fields tt) as (Hs & Hmi & Hh & _ & _ & Hw & Et). set (l := localtime z tt) in *. destruct W as [Rm Rh Rw _ _ Rd Rdt].
  rewrite (Z.add_simpl_r _ EPOCH) in Et. generalize dependent ((tt + tz) / 86400). intros Q Er Hw Et.
  assert (forall t, let l1 := localtime z t in exists Q1, 0 <= tm_sec l1 < 60 /\ 0 <= tm_min l1 < 60 /\ 0 <= tm_hour l1 < 24 /\
    tm_wday l1 = (Q1 + EPOCH + 1) mod 7 /\ t + tz = Q1 * 86400 + tm_hour l1 * 3600 + tm_min l1 * 60 + tm_sec l1) as Hf.
  { intros t. destruct (localtime_fields t) as (? & ? & ? & _ & _ & ? & Et1). rewrite (Z.add_simpl_r _ EPOCH) in Et1. by eexists. }
  unfold kind in *.
  split; [destruct (Hf r) as (Q1 & Hs1 & Hmi1 & Hh1 & Hw1 & Et1)|intros t Ht (M1 & M2 & M3 & M4); destruct (Hf t) as (Q1 & Hs1 & Hmi1 & Hh1 & Hw1 & Et1)];
    clear Hf; unfold fits_pattern in *; generalize dependent EPOCH; intros EP.
  - intros Hw Hw1. set (l1 := localtime z r) in *.
    destruct (Z.leb_spec 0 week), (Z.ltb_spec 0 day), (Z.ltb_spec 0 month), (Z.leb_spec 0 hour), (Z.leb_spec 0 minute); try done; try lia;
      simpl period_length in Er; cbv zeta in Er; match type of Er with context [tt <? ?x] => destruct (Z.ltb_spec tt x) end; clear Hk Rd Rdt; split_and?; intros; first [lia|zdm].
  - intros Hw Hw1. set (l1 := localtime z t) in *.
    destruct (Z.leb_spec 0 week), (Z.ltb_spec 0 day), (Z.ltb_spec 0 month), (Z.leb_spec 0 hour), (Z.leb_spec 0 minute); try done; try lia;
      simpl period_length in Er; cbv zeta in Er; match type of Er with context [tt <? ?x] => destruct (Z.ltb_spec tt x) end; clear Hk Rd Rdt; first [lia|zdm].
Qed.

(** Dates of an earlier month come before the first of a later one. *)
Lemma day_number_lex y m d y' m' : valid y m d -> 1 <= m' <= 12 -> y < y' \/ y = y' /\ m < m' -> day_number y m d < day_number y' m' 1.
Proof.
  intros Hv Hm' [Hy|[<- Hm]].
  - pose proof (day_number_in_year _ _ _ Hv). pose proof (day_number_ge y' m' 1). pose proof (dby_mono (y + 1) y'). lia.
  - destruct Hv as [H1 H2]. unfold day_number. pose proof (dbm_mono (m + 1) m' y ltac:(lia)) as H. rewrite dbm_succ in H by lia. lia.
Qed.
(** A day past the end of a month is one of the first days of the next, in the same year. *)
Lemma day_number_rolls y m d : 1 <= m <= 12 -> days_of_month m y < d <= 31 ->
  m < 12 /\ valid y (m + 1) (d - days_of_month m y) /\ day_number y m d = day_number y (m + 1) (d - days_of_month m y).
Proof.
  intros Hm Hd. pose proof (dim_range m y Hm). assert (m < 12).
  { destruct (Z.eq_dec m 12) as [->|]; [|lia]. change (days_of_month 12 y) with 31 in *. lia. }
  pose proof (dim_range (m + 1) y ltac:(lia)). split; [done|]. split; [split; lia|].
  unfold day_number. rewrite dbm_succ by lia. lia.
Qed.

(** A minute of a day, and the month and the year that a pattern with a date is tried in:
    this one, or the next. *)
Definition moment (minute hour y m d : Z) : Z := start (day_number y m d) + hour * 3600 + minute * 60.
Definition this_period (month tt : Z) : Z * Z :=
  let l := localtime z tt in (tm_year l + 1900, if 0 <? month then month else tm_mon l + 1).
Definition next_period (month : Z) (ym : Z * Z) : Z * Z :=
  let '(y, m) := ym in if 0 <? month then (y + 1, m) else if 12 <? m + 1 then (y + 1, 1) else (y, m + 1).

(** The month tried has the day asked for: this one, and the next one as well when the
    time in this one has passed. *)
Definition has_day (day : Z) (ym : Z * Z) : bool := day <=? days_of_month (snd ym) (fst ym).
Definition lands (minute hour day week month tt : Z) : bool :=
  if (0 <=? week) || (day <=? 0) then true
  else
    let ym := this_period month tt in
    has_day day ym && ((tt <? moment minute hour (fst ym) (snd ym) day) || has_day day (next_period month ym)).

(** Any negative week is no week. *)
Lemma no_weekday minute hour day week month tt : week < 0 ->
  cron_next_timeout z minute hour day week month tt = cron_next_timeout z minute hour day (-1) month tt /\
  lands minute hour day week month tt = lands minute hour day (-1) month tt /\
  forall t, fits_pattern minute hour day week month t = fits_pattern minute hour day (-1) month t.
Proof using.
  intros H. unfold cron_next_timeout, cron_fields, lands, fits_pattern.
  assert ((0 <=? week) = false) as -> by (apply Z.leb_gt; lia). change (0 <=? -1) with false. cbv iota. by split_and!.
Qed.

(** A time of a pattern with a date, from its fields. *)
Section Dated.
Context (minute hour day month tt : Z) (Hmi : 0 <= minute <= 59) (Hh : 0 <= hour <= 23) (Hd : 0 < day <= 31) (Hmn : month <= 12).
#[local] Abbreviation fits := (fits_pattern minute hour day (-1) month).
#[local] Abbreviation at_ := (moment minute hour).

Lemma moment_fields y m d : valid y m d -> let l := localtime z (at_ y m d) in
  tm_sec l = 0 /\ tm_min l = minute /\ tm_hour l = hour /\ tm_mday l = d /\ tm_mon l = m - 1 /\ tm_year l = y - 1900.
Proof using Hz Hmi Hh.
  intros Hv. pose proof (localtime_tm_time (mk_tm 0 minute hour d (m - 1) (y - 1900) 0 false) eq_refl) as H. cbn [tm_sec tm_min tm_hour tm_mday tm_mon tm_year] in H.
  rewrite !Z.sub_add in H. specialize (H Hv ltac:(lia) ltac:(lia) ltac:(lia)). destruct Hv as [H1 _]. rewrite tm_time_in in H by tmt.
  cbn [tm_sec tm_min tm_hour tm_mday tm_mon tm_year] in H. rewrite !Z.sub_add, Z.add_0_r in H. exact H.
Qed.
Lemma fits_moment y m d : valid y m d -> fits (at_ y m d) <-> d = day /\ (0 < month -> m = month).
Proof using Hz Hmi Hh Hd.
  intros Hv. destruct (moment_fields y m d Hv) as (E1 & E2 & E3 & E4 & E5 & _). unfold fits_pattern. cbv zeta.
  change (0 <=? -1) with false. cbv iota. rewrite E1, E2, E3, E4, E5. split; [intros (_ & _ & _ & H); destruct H; [lia|]|intros [-> H]]; split_and?; lia.
Qed.
Lemma matches_dated t : fits t -> exists y m, t = at_ y m day /\ valid y m day /\ (0 < month -> m = month).
Proof using Hz Hmi Hh Hd.
  intros (M1 & M2 & M3 & M4). destruct (localtime_fields t) as (_ & _ & _ & Hv & En & _ & Et). set (l := localtime z t) in *.
  change (0 <=? -1) with false in M4. cbv iota in M4. destruct (M4 ltac:(lia)) as [Ed Em]. rewrite Ed in *.
  exists (tm_year l + 1900), (tm_mon l + 1). split; [|split; [done|intros Hm; rewrite Em by done; lia]]. unfold moment, start. rewrite M1, M2, M3 in Et by lia. lia.
Qed.
Lemma dated_lex y m y' m' : valid y m day -> valid y' m' day -> y < y' \/ y = y' /\ m < m' -> at_ y m day < start (day_number y' m' 1) <= at_ y' m' day.
Proof using Hmi Hh Hd.
  intros Hv Hv' Hlt. destruct Hv' as [Hm' _]. pose proof (day_number_lex y m day y' m' Hv Hm' Hlt). unfold moment, start.
  assert (day_number y' m' 1 <= day_number y' m' day) by (unfold day_number; lia). lia.
Qed.

(** A month without the day: the time is in the first days of the next month. *)
Lemma moment_rolls y m : 1 <= m <= 12 -> has_day day (y, m) = false ->
  let d := day - days_of_month m y in
  m < 12 /\ valid y (m + 1) d /\ at_ y m day = at_ y (m + 1) d /\ d < day.
Proof using Hd.
  intros Hm Hl d. unfold has_day in Hl. apply Z.leb_gt in Hl. cbn [fst snd] in Hl. destruct (day_number_rolls y m day Hm ltac:(lia)) as (H1 & H2 & H3).
  pose proof (dim_range m y Hm). split_and!; [done|done|unfold moment; by rewrite H3|lia].
Qed.
Lemma rolled_misses y m : 1 <= m <= 12 -> has_day day (y, m) = false -> ~ fits (at_ y m day).
Proof using Hz Hmi Hh Hd. intros Hm Hl. destruct (moment_rolls y m Hm Hl) as (_ & Hv & -> & Hlt). rewrite fits_moment by done. lia. Qed.

Lemma this_period_range : let '(y, m) := this_period month tt in 1 <= m <= 12 /\ (0 < month -> m = month).
Proof using Hz Hmn.
  unfold this_period. destruct (localtime_fields tt) as (_ & _ & _ & [Hmo _] & _). destruct (Z.ltb_spec 0 month); lia.
Qed.
Lemma this_period_fields y m : this_period month tt = (y, m) ->
  y = tm_year (localtime z tt) + 1900 /\ m = if 0 <? month then month else tm_mon (localtime z tt) + 1.
Proof using. unfold this_period. cbv zeta. generalize (localtime z tt). intros l H. by injection H as <- <-. Qed.
Lemma next_try_range y m : 1 <= m <= 12 -> (0 < month -> m = month) ->
  let '(y1, m1) := next_period month (y, m) in 1 <= m1 <= 12 /\ (0 < month -> m1 = month).
Proof using. intros. unfold next_period. destruct (Z.ltb_spec 0 month), (Z.ltb_spec 12 (m + 1)); lia. Qed.

(** What [cron_next_timeout] computes: the time in this period, normalised, or from there
    the next period. *)
Lemma cron_dated_unfold y m : this_period month tt = (y, m) ->
  cron_next_timeout z minute hour day (-1) month tt =
    if tt <? at_ y m day then at_ y m day
    else cron_advance z (if 0 <? month then YEARLY else MONTHLY) (at_ y m day) (localtime z (at_ y m day)).
Proof using Hz Hmi Hh Hd Hmn.
  intros Ep. pose proof this_period_range as Hr. rewrite Ep in Hr. destruct Hr as [Hm _]. destruct (this_period_fields y m Ep) as [Ey Em]. set (l := localtime z tt) in *. clear Ep.
  unfold cron_next_timeout. fold l. rewrite cron_fields_ok. cbv zeta. unfold kind. change (0 <=? -1) with false. cbv iota.
  destruct (Z.ltb_spec 0 day); [|lia]. destruct (Z.leb_spec 0 minute); [|lia]. destruct (Z.leb_spec 0 hour); [|lia]. unfold mktime.
  set (t0 := mk_tm _ _ _ _ _ _ _ _). assert (t0 = mk_tm 0 minute hour day (m - 1) (y - 1900) (tm_wday l) false) as E0.
  { unfold t0. rewrite Ey, Em. assert (tm_isdst l = false) as -> by apply localtime_isdst. destruct (0 <? month); f_equal; lia. }
  rewrite E0. assert (tm_time z (mk_tm 0 minute hour day (m - 1) (y - 1900) (tm_wday l) false) = at_ y m day) as ->.
  { rewrite tm_time_in by tmt. cbn [tm_sec tm_min tm_hour tm_mday tm_mon tm_year]. rewrite !Z.sub_add. unfold moment. lia. }
  by destruct (0 <? month).
Qed.
Lemma advance_moment y m d : valid y m d ->
  cron_advance z (if 0 <? month then YEARLY else MONTHLY) (at_ y m d) (localtime z (at_ y m d)) =
    let '(y1, m1) := next_period month (y, m) in at_ y1 m1 d.
Proof using Hz Hmi Hh.
  intros Hv. destruct (moment_fields y m d Hv) as (L1 & L2 & L3 & L4 & L5 & L6). destruct Hv as [Hm _].
  pose proof (localtime_isdst (at_ y m d)) as L7. generalize dependent (localtime z (at_ y m d)). intros l' L1 L2 L3 L4 L5 L6 L7. unfold next_period.
  destruct (0 <? month); unfold cron_advance, mktime; cbn [fst over tm_mon].
  - rewrite tm_time_in by tmt. cbn [over tm_sec tm_min tm_hour tm_mday tm_mon tm_year]. rewrite L1, L2, L3, L4, L5, L6. unfold moment. rewrite Z.sub_add. replace (y - 1900 + 1 + 1900) with (y + 1) by lia. lia.
  - rewrite L5. destruct (Z.eqb_spec (m - 1 + 1) 12), (Z.ltb_spec 12 (m + 1)); try lia; rewrite tm_time_in by tmt; cbn [over tm_sec tm_min tm_hour tm_mday tm_mon tm_year]; rewrite L1, L2, L3, L4, L6; unfold moment.
    + replace (y - 1900 + 1 + 1900) with (y + 1) by lia. change (0 + 1) with 1. lia.
    + rewrite !Z.sub_add. lia.
Qed.

(** Times of the pattern in earlier months have passed. *)
Lemma earlier_passed y m y' m' : this_period month tt = (y, m) -> valid y' m' day -> (0 < month -> m' = month) ->
  y' < y \/ y' = y /\ m' < m -> at_ y' m' day <= tt.
Proof using Hz Hmi Hh Hd.
  intros Ep Hv' Hm' Hlt. destruct (this_period_fields y m Ep) as [-> ->]. destruct (localtime_fields tt) as (Hs & Hmi0 & Hh0 & Hv0 & En & _ & Et). pose proof Hv0 as [Hmo Hdy].
  clear Ep. generalize dependent (localtime z tt). intros l Hlt Hs Hmi0 Hh0 Hv0 En Et Hmo Hdy.
  assert (start (day_number (tm_year l + 1900) (tm_mon l + 1) 1) <= tt) as H0.
  { unfold start. assert (day_number (tm_year l + 1900) (tm_mon l + 1) 1 <= day_number (tm_year l + 1900) (tm_mon l + 1) (tm_mday l)) by (unfold day_number; lia). lia. }
  assert (day_number y' m' day < day_number (tm_year l + 1900) (tm_mon l + 1) 1); [|unfold moment, start in *; lia].
  apply day_number_lex; [done|done|]. destruct (Z.ltb_spec 0 month); lia.
Qed.
(** In a month that lacks the day, a monthly time has not passed: it is in the next month. *)
Lemma rolled_ahead y m : this_period month tt = (y, m) -> month <= 0 -> has_day day (y, m) = false -> tt < at_ y m day.
Proof using Hz Hmi Hh Hd Hmn.
  intros Ep Hmo Hl. destruct (this_period_fields y m Ep) as [-> ->]. destruct (Z.ltb_spec 0 month); [lia|].
  destruct (localtime_fields tt) as (Hs & Hmi0 & Hh0 & [Hm Hdy] & En & _ & Et). clear Ep. generalize dependent (localtime z tt). intros l Hl Hs Hmi0 Hh0 Hm Hdy En Et.
  unfold has_day in Hl. apply Z.leb_gt in Hl. cbn [fst snd] in Hl. unfold moment, start, day_number in *. lia.
Qed.

Lemma cron_dated :
  let r := cron_next_timeout z minute hour day (-1) month tt in
  if lands minute hour day (-1) month tt then fits r /\ forall t, tt < t < r -> ~ fits t else ~ fits r.
Proof using Hz Hmi Hh Hd Hmn.
  unfold lands. change (0 <=? -1) with false. destruct (Z.leb_spec day 0); [lia|]. cbn [orb]. cbv iota.
  pose proof this_period_range as Hr. destruct (this_period month tt) as [y m] eqn:Ep. destruct Hr as [Hm Hmm]. cbn [fst snd].
  rewrite (cron_dated_unfold y m Ep). pose proof (next_try_range y m Hm Hmm) as Hr1. destruct (has_day day (y, m)) eqn:El; cbn [andb].
  2: { destruct (Z.ltb_spec tt (at_ y m day)); [by apply rolled_misses|]. destruct (Z.ltb_spec 0 month) as [Hp|Hp].
       2: { pose proof (rolled_ahead y m Ep Hp El). lia. }
       destruct (moment_rolls y m Hm El) as (Hm12 & Hv & -> & Hlt). pose proof (advance_moment y (m + 1) _ Hv) as Ha.
       unfold next_period in Ha. destruct (Z.ltb_spec 0 month); [|lia]. rewrite Ha, fits_moment; [lia|].
       pose proof (dim_range m y Hm). pose proof (dim_range (m + 1) (y + 1) ltac:(lia)). destruct Hv. split; lia. }
  assert (valid y m day) as V by (split; [done|]; apply Z.leb_le in El; cbn [fst snd] in El; lia).
  assert (forall y' m', valid y' m' day -> (0 < month -> m' = month) -> y' < y \/ y' = y /\ m' < m -> at_ y' m' day <= tt) as Hpast
    by (intros; by eapply earlier_passed).
  assert (forall y0 m0 y' m', valid y0 m0 day -> valid y' m' day -> y0 < y' \/ y0 = y' /\ m0 < m' -> at_ y0 m0 day < at_ y' m' day) as Hlex.
  { intros y0 m0 y' m' V0 V' Hlt. pose proof (dated_lex _ _ _ _ V0 V' Hlt). lia. }
  destruct (Z.ltb_spec tt (at_ y m day)); cbn [orb]; cbv iota.
  - split; [by apply fits_moment|]. intros t Ht Hmt. destruct (matches_dated t Hmt) as (y' & m' & -> & V' & Hm').
    pose proof (Hpast y' m' V' Hm'). pose proof (Hlex y m y' m' V V'). assert (y' = y -> m' = m -> at_ y' m' day = at_ y m day) by (by intros -> ->). lia.
  - rewrite (advance_moment y m day V). destruct (next_period month (y, m)) as [y1 m1] eqn:En. destruct Hr1 as [Hm1 Hmm1].
    destruct (has_day day (y1, m1)) eqn:El1; [|by apply rolled_misses].
    assert (valid y1 m1 day) as V1 by (split; [done|]; apply Z.leb_le in El1; cbn [fst snd] in El1; lia).
    split; [by apply fits_moment|]. intros t Ht Hmt. destruct (matches_dated t Hmt) as (y' & m' & -> & V' & Hm').
    pose proof (Hpast y' m' V' Hm'). pose proof (Hlex y1 m1 y' m' V1 V'). assert (y' = y1 -> m' = m1 -> at_ y' m' day = at_ y1 m1 day) by (by intros -> ->).
    assert (y' = y -> m' = m -> at_ y' m' day = at_ y m day) by (by intros -> ->). destruct V' as [Hr' _]. unfold next_period in En.
    destruct (Z.ltb_spec 0 month), (Z.ltb_spec 12 (m + 1)); simplify_eq; lia.
Qed.
End Dated.

(** C7. For every documented pattern, minutely to yearly, with days 1 to 31, in a zone
    without summer time: cron_next_timeout gives a time later than now, and when the
    month it tries has the day asked for ([lands]: this month or year, or the next one
    when the time in this one has passed) it is the next time of the pattern, showing the
    fields asked for in the local time with no time of the pattern between; when the
    month lacks the day (the 29th to 31st of some months) it is not a time of the pattern. *)
Theorem cron_next minute hour day week month tt : documented minute hour day week month ->
  let r := cron_next_timeout z minute hour day week month tt in
  tt < r /\
  if lands minute hour day week month tt
  then fits_pattern minute hour day week month r /\ forall t, tt < t < r -> ~ fits_pattern minute hour day week month t
  else ~ fits_pattern minute hour day week month r.
Proof.
  intros W r. split; [apply cron_ahead|]. pose proof W as [Rm Rh Rw Rmo Rdy Rd Rdt].
  destruct (Z.leb_spec 0 week); [|destruct (Z.leb_spec day 0)].
  1-2: assert (match kind minute hour day week month with MONTHLY | YEARLY => False | _ => True end) as Hk
      by (unfold kind; destruct (Z.leb_spec 0 week), (Z.ltb_spec 0 day); try lia; try done; by destruct (0 <=? hour), (0 <=? minute));
    assert (lands minute hour day week month tt = true) as ->
      by (unfold lands; destruct (Z.leb_spec 0 week), (Z.leb_spec day 0); try lia; done);
    exact (cron_periodic minute hour day week month tt W Hk).
  pose proof (cron_dated minute hour day month tt ltac:(lia) ltac:(lia) ltac:(lia) ltac:(lia)) as Hc.
  destruct (no_weekday minute hour day week month tt) as (E1 & E2 & E3); [done|]. unfold r. rewrite E1, E2, !E3.
  destruct (lands _ _ _ _ _ _); [|exact Hc]. destruct Hc as [Hf Hc]. split; [exact Hf|]. intros t Ht. rewrite E3. by apply Hc.
Qed.
End Cron.

Lemma cron_next_witness :
  (1700000000 < cron_next_timeout (fixed_zone 28800) 30 1 29 (-1) 2 1700000000 /\
    ~ fits_pattern (fixed_zone 28800) 30 1 29 (-1) 2 (cron_next_timeout (fixed_zone 28800) 30 1 29 (-1) 2 1700000000)) /\
  (let r := cron_next_timeout (fixed_zone 28800) 30 1 31 (-1) (-1) 1710000000 in
    fits_pattern (fixed_zone 28800) 30 1 31 (-1) (-1) r /\ localtime (fixed_zone 28800) r = mk_tm 0 30 1 31 2 124 0 false).
Proof.
  split.
  - pose proof (cron_next (fixed_zone 28800) (fixed_zone_ok 28800) 30 1 29 (-1) 2 1700000000) as [H1 H2]; [constructor; lia|]. split; [exact H1|]. exact H2.
  - pose proof (cron_next (fixed_zone 28800) (fixed_zone_ok 28800) 30 1 31 (-1) (-1) 1710000000) as [_ H]; [constructor; lia|]. split; [exact (proj1 H)|].
    vm_compute. reflexivity.
Defined.

(** A day that a month lacks is not skipped: asked for the 31st in April, it is May 1st. *)
Lemma cron_31st : localtime (fixed_zone 0) (cron_next_timeout (fixed_zone 0) 0 0 31 (-1) (-1) 1713000000) = mk_tm 0 0 0 1 4 124 3 false.
Proof. by vm_compute. Qed.

(** With summer time the result can lie in the past. New York in March 2024, summer time
    from March 10th, 07:00 UTC: on the 30th at noon the first of the month at midnight is
    taken in summer time, is February 29th at 23:00 in standard time, and a month on from
    there is March 29th at 23:00, standard time again. *)
Definition new_york_2024 : zone := mk_zone (-18000) (fun t => (1710054000 <=? t) && (t <? 1730613600)).
Lemma cron_in_the_past : cron_next_timeout new_york_2024 0 0 1 (-1) (-1) 1711814400 < 1711814400 /\
  localtime new_york_2024 1711814400 = mk_tm 0 0 12 30 2 124 6 true.
Proof. by vm_compute. Qed.
End HTimeThm.
