(* ===== verification/Loop.v ===== *)
(** The event loop of event/hloop.c with the event macros of event/hevent.h:
    the allocated events, the pending lists by priority, idles, the two timer
    heaps, signals, the io table, posted events, and one iteration of the loop.
    A pointer to an event that is not allocated is an error, so every theorem
    that an operation returns a state says that it touches no freed memory. *)
From S2P Require Import Prelude Heap Containers HMath HTime.
Import Heap HMath.
Import Queue(queue, mk_queue, maxsize, queue_init, queue_push_back, queue_empty, queue_front, queue_pop_front).

Module Loop.

(** * Data *)

Inductive hloop_status_e :=
  | HLOOP_STATUS_STOP | HLOOP_STATUS_RUNNING | HLOOP_STATUS_PAUSE | HLOOP_STATUS_DESTROY.
#[export] Instance hloop_status_e_eq : EqDecision hloop_status_e.
Proof. solve_decision. Defined.

Inductive hevent_type_e :=
  | HEVENT_TYPE_NONE | HEVENT_TYPE_IO | HEVENT_TYPE_TIMEOUT | HEVENT_TYPE_PERIOD
  | HEVENT_TYPE_IDLE | HEVENT_TYPE_SIGNAL | HEVENT_TYPE_CUSTOM.
#[export] Instance hevent_type_e_eq : EqDecision hevent_type_e.
Proof. solve_decision. Defined.

Definition HEVENT_LOWEST_PRIORITY : Z := -5.
Definition HEVENT_HIGH_PRIORITY : Z := 3.
Definition HEVENT_HIGHEST_PRIORITY : Z := 5.
Definition HEVENT_PRIORITY_SIZE : Z := HEVENT_HIGHEST_PRIORITY - HEVENT_LOWEST_PRIORITY + 1.
Definition HEVENT_PRIORITY_INDEX (p : Z) : Z := p - HEVENT_LOWEST_PRIORITY.

Definition HLOOP_FLAG_RUN_ONCE : Z := 1.
Definition HLOOP_FLAG_QUIT_WHEN_NO_ACTIVE_EVENTS : Z := 4.
Definition HLOOP_MAX_BLOCK_TIME : Z := 100.
Definition IO_ARRAY_INIT_SIZE : Z := 1024.
Definition CUSTOM_EVENT_QUEUE_INIT_SIZE : Z := 16.
Definition HV_READ : Z := 1.
Definition HV_WRITE : Z := 4.
Definition EVENTS_INIT_SIZE : Z := 64.

(** The epoll interface: its event bits, errno EINTR, and the kernel object
    with the interest of each fd. *)
Definition EPOLLIN : Z := 1.
Definition EPOLLOUT : Z := 4.
Definition EPOLLERR : Z := 8.
Definition EPOLLHUP : Z := 16.
Definition EINTR : Z := 4.
Inductive epoll_op := EPOLL_CTL_ADD | EPOLL_CTL_MOD | EPOLL_CTL_DEL.
Class Epoll (K : Type) := {
  ep_new : K;
  ep_ctl : K -> epoll_op -> Z -> Z -> K;
  ep_interest : K -> Z -> option Z;
}.

(** epoll_ctl(2): an fd is registered once, changed and removed only when
    registered, and no operation touches another fd. *)
Class EpollLaws (K : Type) `{Epoll K} : Prop := {
  ep_new_ok : forall n, ep_interest ep_new n = None;
  ep_add_ok : forall k n mask, ep_interest k n = None ->
    ep_interest (ep_ctl k EPOLL_CTL_ADD n mask) n = Some mask;
  ep_mod_ok : forall k n mask, ep_interest k n <> None ->
    ep_interest (ep_ctl k EPOLL_CTL_MOD n mask) n = Some mask;
  ep_del_ok : forall k n mask, ep_interest k n <> None ->
    ep_interest (ep_ctl k EPOLL_CTL_DEL n mask) n = None;
  ep_frame : forall k op n mask n', n' <> n -> ep_interest (ep_ctl k op n mask) n' = ep_interest k n';
}.

(** The callback name of hio_handle_events. *)
Definition hio_handle_events : Z := -1.
Definition MAX_SIGNO : Z := 65.

(** [struct hevent_s] with the fields of the events that extend it: the repeat
    count of idles and timers, the deadlines of timers, the fd and event masks
    of ios. Callbacks are named by integers. *)
Record hevent := mk_event {
  ev_loop : option Z;
  event_type : hevent_type_e;
  event_id : Z;  (* uint64_t *)
  cb : option Z;  (* callback, by name *)
  userdata : Z;
  privdata : Z;
  pending_next : option ptr;
  priority : Z;
  destroy : bool;
  active : bool;
  pending : bool;
  repeat : Z;  (* hidle_t, htimer_t *)
  next_timeout : Z;  (* htimer_t *)
  timeout : Z;  (* htimeout_t *)
  period : Z * Z * Z * Z * Z;  (* hperiod_t: minute, hour, day, week, month *)
  fd : Z;  (* hio_t *)
  events : Z;  (* hio_t *)
  revents : Z;  (* hio_t *)
  ready : bool;  (* hio_t *)
}.
#[export] Instance hevent_rebuild : Rebuild hevent := fun e =>
  mk_event (ev_loop e) (event_type e) (event_id e) (cb e) (userdata e) (privdata e) (pending_next e) (priority e) (destroy e) (active e) (pending e) (repeat e) (next_timeout e) (timeout e) (period e) (fd e) (events e) (revents e) (ready e).

(** A zeroed allocation. *)
Definition null_event : hevent :=
  mk_event None HEVENT_TYPE_NONE 0 None 0 0 None 0 false false false 0 0 0 (0, 0, 0, 0, 0) 0 0 0 false.

(** [struct hloop_s], with the memory its events live in and the number of
    readings taken from the environment so far. *)
Record hloop (H K : Type) := mk_loop {
  self : Z;  (* identity of the loop object *)
  flags : Z;
  status : hloop_status_e;
  start_ms : Z;
  start_hrtime : Z;
  end_hrtime : Z;
  cur_hrtime : Z;
  loop_cnt : Z;
  intern_nevents : Z;
  nactives : Z;
  npendings : Z;
  pendings : list (option ptr);  (* HEVENT_PRIORITY_SIZE heads *)
  signals : list (option ptr);  (* by signo *)
  nsignals : Z;
  idles : list ptr;  (* the list_head, in link order *)
  nidles : Z;
  timers : H;
  realtimers : H;
  ntimers : Z;
  ios : list (option ptr);  (* by fd *)
  nios : Z;
  eventfd : Z;  (* eventfds[0] = eventfds[1] *)
  custom_events : queue hevent;
  epoll_size : option Z;  (* epoll_ctx->events.size, NULL context *)
  epoll_maxsize : Z;
  epfd : K;  (* kernel side of the io watcher *)
  mem : gmap ptr hevent;  (* allocated events *)
  brk : ptr;  (* next fresh address *)
  next_event_id : Z;  (* static counter *)
  tick : nat;  (* environment readings taken *)
}.
Arguments mk_loop {H K}. Arguments self {H K}. Arguments flags {H K}. Arguments status {H K}. Arguments start_ms {H K}. Arguments start_hrtime {H K}. Arguments end_hrtime {H K}. Arguments cur_hrtime {H K}. Arguments loop_cnt {H K}. Arguments intern_nevents {H K}. Arguments nactives {H K}. Arguments npendings {H K}. Arguments pendings {H K}. Arguments signals {H K}. Arguments nsignals {H K}. Arguments idles {H K}. Arguments nidles {H K}. Arguments timers {H K}. Arguments realtimers {H K}. Arguments ntimers {H K}. Arguments ios {H K}. Arguments nios {H K}. Arguments eventfd {H K}. Arguments custom_events {H K}. Arguments epoll_size {H K}. Arguments epoll_maxsize {H K}. Arguments epfd {H K}. Arguments mem {H K}. Arguments brk {H K}. Arguments next_event_id {H K}. Arguments tick {H K}.
#[export] Instance hloop_rebuild {H K} : Rebuild (hloop H K) := fun l =>
  mk_loop (self l) (flags l) (status l) (start_ms l) (start_hrtime l) (end_hrtime l) (cur_hrtime l) (loop_cnt l) (intern_nevents l) (nactives l) (npendings l) (pendings l) (signals l) (nsignals l) (idles l) (nidles l) (timers l) (realtimers l) (ntimers l) (ios l) (nios l) (eventfd l) (custom_events l) (epoll_size l) (epoll_maxsize l) (epfd l) (mem l) (brk l) (next_event_id l) (tick l).

(** One reading of the clocks: gethrtime_us, time and gettimeofday_ms. *)
Record reading := mk_reading { hrtime_us : Z; time_s : Z; timeofday_ms : Z }.

Section Operations.
Context {H K : Type} {TH : TimerHeap H} {EP : Epoll K}.
Implicit Type L : hloop H K.

(** The environment: the clocks, the time zone of the calendar, the
    result of writing to the eventfd, and what epoll_wait reports. *)
Context (clock : nat -> reading).
Context (zone : HTime.zone).
Context (eventfd_open : nat -> Z) (eventfd_write : nat -> Z).
Context (epoll_wait : nat -> K -> Z -> Z * list (Z * Z)).

(** * Memory *)

(** [ev->...] of an event of this loop. *)
Definition own L (x : ptr) : option hevent :=
  e ← mem L !! x; if bool_decide (ev_loop e = Some (self L)) then Some e else None.

Definition upd_ev L (x : ptr) (f : hevent -> hevent) : option (hloop H K) :=
  e ← mem L !! x; Some (L.[mem := <[x := f e]> (mem L)]).

(** HV_ALLOC_SIZEOF of an event and HV_FREE of one, with the heap node that is
    part of a timer. *)
Definition alloc L (e : hevent) : hloop H K * ptr :=
  (L.[mem := <[brk L := e]> (mem L)].[brk := brk L + 1], brk L).
Definition free L (x : ptr) : option (hloop H K) :=
  _ ← mem L !! x;
  Some (L.[mem := delete x (mem L)].[timers := th_free (timers L) x]
         .[realtimers := th_free (realtimers L) x]).

(** * Event macros *)

Definition EVENT_ACTIVE L (x : ptr) : option (hloop H K) :=
  e ← own L x;
  if active e then Some L
  else L ← upd_ev L x (fun e => e.[active := true]); Some (L.[nactives := u32 (nactives L + 1)]).

Definition EVENT_INACTIVE L (x : ptr) : option (hloop H K) :=
  e ← own L x;
  if active e
  then L ← upd_ev L x (fun e => e.[active := false]); Some (L.[nactives := u32 (nactives L - 1)])
  else Some L.

Definition EVENT_PENDING L (x : ptr) : option (hloop H K) :=
  e ← own L x;
  if pending e then Some L
  else
    let i := HEVENT_PRIORITY_INDEX (priority e) in
    head ← zget (pendings L) i;
    L ← upd_ev L x (fun e => e.[pending := true].[pending_next := head]);
    ps ← zset (pendings L) i (Some x);
    Some (L.[npendings := u32 (npendings L + 1)].[pendings := ps]).

Definition EVENT_ADD L (x : ptr) (c : option Z) : option (hloop H K) :=
  L ← upd_ev L x (fun e => e.[ev_loop := Some (self L)].[event_id := u64 (next_event_id L + 1)].[cb := c]);
  EVENT_ACTIVE (L.[next_event_id := u64 (next_event_id L + 1)]) x.

Definition EVENT_DEL L (x : ptr) : option (hloop H K) :=
  L ← EVENT_INACTIVE L x;
  e ← own L x;
  if pending e then Some L else free L x.

Definition EVENT_RESET L (x : ptr) : option (hloop H K) :=
  L ← upd_ev L x (fun e => e.[destroy := false]);
  L ← EVENT_ACTIVE L x;
  upd_ev L x (fun e => e.[pending := false]).

Definition EVENT_UNPENDING L (x : ptr) : option (hloop H K) :=
  e ← own L x;
  if pending e
  then L ← upd_ev L x (fun e => e.[pending := false]); Some (L.[npendings := u32 (npendings L - 1)])
  else Some L.

(** * Time *)

Definition hloop_now L : Z :=
  u64 (start_ms L / 1000 + u64 (cur_hrtime L - start_hrtime L) / 1000000).
Definition hloop_now_ms L : Z :=
  u64 (start_ms L + u64 (cur_hrtime L - start_hrtime L) / 1000).
Definition hloop_now_us L : Z :=
  u64 (u64 (start_ms L * 1000) + u64 (cur_hrtime L - start_hrtime L)).
Definition hloop_now_hrtime L : Z := cur_hrtime L.

Definition hloop_update_time L : hloop H K :=
  let r := clock (tick L) in
  let L := L.[tick := S (tick L)].[cur_hrtime := hrtime_us r] in
  if hloop_now L =? time_s r then L
  else L.[start_ms := u64 (timeofday_ms r - u64 (cur_hrtime L - start_hrtime L) / 1000)].

(** * Timers *)

Definition timeout_of L (x : ptr) : Z :=
  match mem L !! x with Some e => next_timeout e | None => 0 end.
Definition timers_compare L (lhs rhs : ptr) : bool :=
  key_lt (timeout_of L) lhs rhs.

(** [heap_insert] and [heap_remove] on [loop->timers], or on
    [loop->realtimers] for a period. *)
Definition heap_insert_timer (rt : bool) L (x : ptr) : option (hloop H K) :=
  if rt then h ← th_insert (timers_compare L) (realtimers L) x; Some (L.[realtimers := h])
  else h ← th_insert (timers_compare L) (timers L) x; Some (L.[timers := h]).
Definition heap_remove_timer (rt : bool) L (x : ptr) : option (hloop H K) :=
  if rt then h ← th_remove (timers_compare L) (realtimers L) x; Some (L.[realtimers := h])
  else h ← th_remove (timers_compare L) (timers L) x; Some (L.[timers := h]).
Definition heap_root_timer (rt : bool) L : option ptr :=
  th_root (if rt then realtimers L else timers L).

(** The new timer's node is zeroed memory. *)
Definition alloc_timer L (e : hevent) : hloop H K * ptr :=
  let '(L, x) := alloc L e in
  (L.[timers := th_alloc (timers L) x].[realtimers := th_alloc (realtimers L) x], x).

(** The deadline [timeout_ms] from now, at 100 ms granularity for whole
    multiples of 100 ms from 1 s on. *)
Definition deadline L (timeout_ms : Z) : Z :=
  let t := u64 (cur_hrtime L + timeout_ms * 1000) in
  if (1000 <=? timeout_ms) && (timeout_ms mod 100 =? 0) then t / 100000 * 100000 else t.

Definition htimer_add L (c : option Z) (timeout_ms rep : Z) : option (hloop H K * option ptr) :=
  if timeout_ms =? 0 then Some (L, None)
  else
    let '(L, x) := alloc_timer L
      (null_event.[event_type := HEVENT_TYPE_TIMEOUT].[priority := HEVENT_HIGHEST_PRIORITY]
         .[repeat := rep].[timeout := timeout_ms]) in
    let L := hloop_update_time L in
    L ← upd_ev L x (fun e => e.[next_timeout := deadline L timeout_ms]);
    L ← heap_insert_timer false L x;
    L ← EVENT_ADD L x c;
    Some (L.[ntimers := u32 (ntimers L + 1)], Some x).

Definition htimer_add_period L (c : option Z) (minute hour day week month rep : Z)
  : option (hloop H K * option ptr) :=
  if (59 <? minute) || (23 <? hour) || (31 <? day) || (6 <? week) || (12 <? month)
  then Some (L, None)
  else
    let next := u64 (HTime.cron_next_timeout zone minute hour day week month (time_s (clock (tick L))) * 1000000) in
    let L := L.[tick := S (tick L)] in
    let '(L, x) := alloc_timer L
      (null_event.[event_type := HEVENT_TYPE_PERIOD].[priority := HEVENT_HIGH_PRIORITY]
         .[repeat := rep].[period := (minute, hour, day, week, month)]
         .[next_timeout := next]) in
    L ← heap_insert_timer true L x;
    L ← EVENT_ADD L x c;
    Some (L.[ntimers := u32 (ntimers L + 1)], Some x).

Definition is_period (e : hevent) : bool := bool_decide (event_type e = HEVENT_TYPE_PERIOD).
Definition is_timeout (e : hevent) : bool := bool_decide (event_type e = HEVENT_TYPE_TIMEOUT).

Definition __htimer_del L (x : ptr) : option (hloop H K) :=
  e ← own L x;
  if destroy e then Some L
  else
    L ← (if is_timeout e then heap_remove_timer false L x
         else if is_period e then heap_remove_timer true L x else Some L);
    upd_ev (L.[ntimers := u32 (ntimers L - 1)]) x (fun e => e.[destroy := true]).

Definition htimer_del L (x : ptr) : option (hloop H K) :=
  e ← own L x;
  if negb (active e) then Some L
  else L ← __htimer_del L x; EVENT_DEL L x.

Definition htimer_reset L (x : ptr) (timeout_ms : Z) : option (hloop H K) :=
  e ← own L x;
  if negb (is_timeout e) then Some L
  else
    L ← (if destroy e then Some (L.[ntimers := u32 (ntimers L + 1)])
         else heap_remove_timer false L x);
    L ← upd_ev L x (fun e =>
          let e := if repeat e =? 0 then e.[repeat := 1] else e in
          let e := if 0 <? timeout_ms then e.[timeout := timeout_ms] else e in
          e.[next_timeout := deadline L (timeout e)]);
    L ← heap_insert_timer false L x;
    EVENT_RESET L x.

(** * Idles *)

(** list_add links at the head of [loop->idles], list_del unlinks. *)
Definition hidle_add L (c : option Z) (rep : Z) : option (hloop H K * ptr) :=
  let '(L, x) := alloc L
    (null_event.[event_type := HEVENT_TYPE_IDLE].[priority := HEVENT_LOWEST_PRIORITY].[repeat := rep]) in
  let L := L.[idles := x :: idles L] in
  L ← EVENT_ADD L x c;
  Some (L.[nidles := u32 (nidles L + 1)], x).

Definition __hidle_del L (x : ptr) : option (hloop H K) :=
  e ← own L x;
  if destroy e then Some L
  else
    L ← upd_ev L x (fun e => e.[destroy := true]);
    Some (L.[idles := filter (fun y => y <> x) (idles L)].[nidles := u32 (nidles L - 1)]).

Definition hidle_del L (x : ptr) : option (hloop H K) :=
  e ← own L x;
  if negb (active e) then Some L
  else L ← __hidle_del L x; EVENT_DEL L x.

(** * Signals *)

Definition hsignal_add L (c : option Z) (signo : Z) : option (hloop H K * option ptr) :=
  if (signo <=? 0) || (MAX_SIGNO <=? signo) then Some (L, None)
  else
    let L := if zlen (signals L) =? 0
             then L.[signals := replicate (Z.to_nat MAX_SIGNO) None] else L in
    sig ← zget (signals L) signo;
    '(L, x) ← match sig with
      | Some x => Some (L, x)
      | None =>
          let '(L, x) := alloc L
            (null_event.[ev_loop := Some (self L)].[event_type := HEVENT_TYPE_SIGNAL]
               .[event_id := signo].[cb := c].[priority := HEVENT_HIGHEST_PRIORITY]) in
          sigs ← zset (signals L) signo (Some x);
          Some (L.[signals := sigs].[nsignals := u32 (nsignals L + 1)], x)
      end;
    L ← EVENT_ACTIVE L x;
    Some (L, Some x).

Definition hsignal_del L (x : ptr) : option (hloop H K) :=
  e ← own L x;
  if negb (active e) then Some L
  else if zlen (signals L) <=? event_id e then Some L
  else
    sigs ← zset (signals L) (event_id e) None;
    EVENT_DEL (L.[signals := sigs].[nsignals := u32 (nsignals L - 1)]) x.

(** * The io table and the io watcher (event/epoll.c) *)

(** The events epoll is told about, from an HV_READ / HV_WRITE mask. *)
Definition ep_mask (evs : Z) : Z :=
  Z.lor (if has_flag evs HV_READ then EPOLLIN else 0)
        (if has_flag evs HV_WRITE then EPOLLOUT else 0).

Definition iowatcher_init L : hloop H K :=
  match epoll_size L with
  | Some _ => L
  | None => L.[epoll_size := Some 0].[epoll_maxsize := EVENTS_INIT_SIZE].[epfd := ep_new]
  end.

(** The kernel's interest list is updated; the buffer for epoll_wait grows with
    the number of registered fds. *)
Definition iowatcher_add_event L (n evs : Z) : option (hloop H K) :=
  let L := iowatcher_init L in
  size ← epoll_size L;
  x ← zget (ios L) n; io ← x; e ← mem L !! io;
  let mask := Z.lor (ep_mask (events e)) (ep_mask evs) in
  let op := if events e =? 0 then EPOLL_CTL_ADD else EPOLL_CTL_MOD in
  let L := L.[epfd := ep_ctl (epfd L) op n mask] in
  if events e =? 0 then
    let max := if size =? epoll_maxsize L
               then (if epoll_maxsize L * 2 =? 0 then Array.ARRAY_INIT_SIZE else i32 (epoll_maxsize L * 2))
               else epoll_maxsize L in
    Some (L.[epoll_maxsize := max].[epoll_size := Some (size + 1)])
  else Some L.

Definition iowatcher_del_event L (n evs : Z) : option (hloop H K) :=
  match epoll_size L with
  | None => Some L
  | Some size =>
      x ← zget (ios L) n; io ← x; e ← mem L !! io;
      let mask := Z.land (ep_mask (events e)) (Z.lnot (ep_mask evs)) in
      let op := if mask =? 0 then EPOLL_CTL_DEL else EPOLL_CTL_MOD in
      let L := L.[epfd := ep_ctl (epfd L) op n mask] in
      Some (if mask =? 0 then L.[epoll_size := Some (size - 1)] else L)
  end.

(** One reported fd: the io's ready events are noted and it becomes pending. *)
Definition poll_one L (n rev : Z) : option (hloop H K) :=
  x ← zget (ios L) n;
  match x with
  | None => Some L
  | Some io =>
      L ← upd_ev L io (fun e =>
        let e := if has_flag rev (Z.lor EPOLLIN (Z.lor EPOLLHUP EPOLLERR))
                 then e.[revents := Z.lor (revents e) HV_READ] else e in
        if has_flag rev (Z.lor EPOLLOUT (Z.lor EPOLLHUP EPOLLERR))
        then e.[revents := Z.lor (revents e) HV_WRITE] else e);
      EVENT_PENDING L io
  end.

(** The loop over the buffer that epoll_wait filled: [nepoll] entries with
    events set are looked at. *)
Fixpoint poll_loop L (buf : list (Z * Z)) (nepoll nevents : Z) : option (hloop H K * Z) :=
  match buf with
  | [] => Some (L, nevents)
  | (n, rev) :: buf =>
      '(L, nevents) ← (if rev =? 0 then Some (L, nevents)
                       else L ← poll_one L n rev; Some (L, nevents + 1));
      if nevents =? nepoll then Some (L, nevents) else poll_loop L buf nepoll nevents
  end.

Definition iowatcher_poll_events L (timeout_ms : Z) : option (hloop H K * Z) :=
  match epoll_size L with
  | None | Some 0 => Some (L, 0)
  | Some size =>
      let '(nepoll, buf) := epoll_wait (tick L) (epfd L) timeout_ms in
      let L := L.[tick := S (tick L)] in
      if nepoll <? 0 then Some (L, if nepoll =? - EINTR then 0 else nepoll)
      else if nepoll =? 0 then Some (L, 0)
      else poll_loop L (take (Z.to_nat size) buf) nepoll 0
  end.

Definition __hio_get L (n : Z) : option (hloop H K * option ptr) :=
  L ← (if zlen (ios L) <=? n then
         c ← ceil2e n;
         let newsize := Z.max (i32 c) IO_ARRAY_INIT_SIZE in
         tbl ← hv_realloc None (ios L) (if n <? newsize then newsize else i32 (2 * n));
         Some (L.[ios := tbl])
       else Some L);
  x ← zget (ios L) n; Some (L, x).

(** The event part of hio_ready. *)
Definition hio_ready_ev (e : hevent) : hevent :=
  if ready e then e else e.[ready := true].[events := 0].[revents := 0].

Definition hio_get L (n : Z) : option (hloop H K * ptr) :=
  '(L, x) ← __hio_get L n;
  '(L, x) ← match x with
    | Some x => Some (L, x)
    | None =>
        let '(L, x) := alloc L
          (null_event.[event_type := HEVENT_TYPE_IO].[ev_loop := Some (self L)].[fd := n]) in
        tbl ← zset (ios L) n (Some x);
        Some (L.[ios := tbl], x)
    end;
  L ← upd_ev L x hio_ready_ev;
  Some (L, x).

Definition hio_exists L (n : Z) : option bool :=
  if zlen (ios L) <=? n then Some false
  else x ← zget (ios L) n; Some (bool_decide (is_Some x)).

Definition hio_add L (x : ptr) (c : option Z) (evs : Z) : option (hloop H K) :=
  e ← own L x;
  L ← (if active e then Some L
       else L ← EVENT_ADD L x c; Some (L.[nios := u32 (nios L + 1)]));
  L ← upd_ev L x hio_ready_ev;
  L ← match c with None => Some L | Some _ => upd_ev L x (fun e => e.[cb := c]) end;
  e ← mem L !! x;
  if has_flag (events e) evs then Some L
  else
    L ← iowatcher_add_event L (fd e) evs;
    upd_ev L x (fun e => e.[events := Z.lor (events e) evs]).

Definition hio_del L (x : ptr) (evs : Z) : option (hloop H K) :=
  e ← own L x;
  if negb (active e) then Some L
  else
    L ← (if has_flag (events e) evs then
           L ← iowatcher_del_event L (fd e) evs;
           upd_ev L x (fun e => e.[events := Z.land (events e) (Z.lnot evs)])
         else Some L);
    e ← mem L !! x;
    if events e =? 0 then
      L ← EVENT_INACTIVE (L.[nios := u32 (nios L - 1)]) x;
      EVENT_UNPENDING L x
    else Some L.

(** * Posted events *)

(** eventfd(), then hread() on it with eventfd_read_cb at high priority. *)
Definition hloop_create_eventfds L : option (hloop H K * bool) :=
  let efd := eventfd_open (tick L) in
  let L := L.[tick := S (tick L)] in
  if efd <? 0 then Some (L, false)
  else
    '(L, x) ← hio_get (L.[eventfd := efd]) efd;
    L ← hio_add L x (Some hio_handle_events) HV_READ;
    L ← upd_ev L x (fun e => e.[priority := HEVENT_HIGH_PRIORITY]);
    Some (L.[intern_nevents := u32 (intern_nevents L + 1)], true).

Definition hloop_post_event L (ev : hevent) : option (hloop H K) :=
  let ev := match ev_loop ev with None => ev.[ev_loop := Some (self L)] | Some _ => ev end in
  let ev := if bool_decide (event_type ev = HEVENT_TYPE_NONE)
            then ev.[event_type := HEVENT_TYPE_CUSTOM] else ev in
  let id := u64 (next_event_id L + 1) in
  let '(L, ev) := if event_id ev =? 0 then (L.[next_event_id := id], ev.[event_id := id])
                  else (L, ev) in
  '(L, ok) ← (if eventfd L =? -1 then hloop_create_eventfds L else Some (L, true));
  if negb ok then Some L
  else
    let nwrite := eventfd_write (tick L) in
    let L := L.[tick := S (tick L)] in
    if nwrite <=? 0 then Some L
    else
      q ← (if maxsize (custom_events L) =? 0
           then queue_init null_event CUSTOM_EVENT_QUEUE_INIT_SIZE
           else Some (custom_events L));
      q ← queue_push_back null_event q ev;
      Some (L.[custom_events := q]).

Definition hloop_wakeup L : option (hloop H K) := hloop_post_event L null_event.

(** signal_handler: posts a copy of the registered signal event. *)
Definition signal_handler L (signo : Z) : option (hloop H K) :=
  if zlen (signals L) <=? signo then Some L
  else
    sig ← zget (signals L) signo;
    match sig with
    | None => Some L
    | Some x => e ← mem L !! x; hloop_post_event L e
    end.

(** * Status *)

(** [same_thread] is [hv_gettid() == loop->tid]. *)
Definition hloop_stop L (same_thread : bool) : option (hloop H K * Z) :=
  if bool_decide (status L = HLOOP_STATUS_STOP) then Some (L, -2)
  else
    L ← (if same_thread then Some L else hloop_wakeup L);
    Some (L.[status := HLOOP_STATUS_STOP], 0).
Definition hloop_pause L : hloop H K :=
  if bool_decide (status L = HLOOP_STATUS_RUNNING) then L.[status := HLOOP_STATUS_PAUSE] else L.
Definition hloop_resume L : hloop H K :=
  if bool_decide (status L = HLOOP_STATUS_PAUSE) then L.[status := HLOOP_STATUS_RUNNING] else L.

(** * Callbacks *)

(** What user code can do to a loop from a callback. *)
Inductive action :=
  | Timer_add (c : option Z) (timeout_ms rep : Z)
  | Period_add (c : option Z) (minute hour day week month rep : Z)
  | Timer_reset (x : ptr) (timeout_ms : Z)
  | Timer_del (x : ptr)
  | Idle_add (c : option Z) (rep : Z)
  | Idle_del (x : ptr)
  | Signal_add (c : option Z) (signo : Z)
  | Signal_del (x : ptr)
  | Io_get (n : Z)
  | Io_add (x : ptr) (c : option Z) (evs : Z)
  | Io_del (x : ptr) (evs : Z)
  | Post (ev : hevent)
  | Stop (same_thread : bool) | Pause | Resume | Update_time.

Definition exec (a : action) L : option (hloop H K) :=
  match a with
  | Timer_add c ms rep => fst <$> htimer_add L c ms rep
  | Period_add c mi ho da we mo rep => fst <$> htimer_add_period L c mi ho da we mo rep
  | Timer_reset x ms => htimer_reset L x ms
  | Timer_del x => htimer_del L x
  | Idle_add c rep => fst <$> hidle_add L c rep
  | Idle_del x => hidle_del L x
  | Signal_add c signo => fst <$> hsignal_add L c signo
  | Signal_del x => hsignal_del L x
  | Io_get n => fst <$> hio_get L n
  | Io_add x c evs => hio_add L x c evs
  | Io_del x evs => hio_del L x evs
  | Post ev => hloop_post_event L ev
  | Stop b => fst <$> hloop_stop L b
  | Pause => Some (hloop_pause L)
  | Resume => Some (hloop_resume L)
  | Update_time => Some (hloop_update_time L)
  end.

Fixpoint exec_all (l : list action) L : option (hloop H K) :=
  match l with [] => Some L | a :: l => L ← exec a L; exec_all l L end.

(** A callback decides its actions from its event and the state of the loop. *)
Context (callback : Z -> hevent -> hloop H K -> list action).

(** eventfd_read_cb with the count read from the eventfd: the posted events are
    taken one at a time and their callbacks run. The trace lists the events
    whose callbacks ran. *)
Fixpoint eventfd_read_cb (count : nat) L : option (hloop H K * list hevent) :=
  match count with
  | O => Some (L, [])
  | S n =>
      if queue_empty (custom_events L) then Some (L, [])
      else
        pev ← queue_front (custom_events L);
        match pev with
        | None => Some (L, [])
        | Some ev =>
            q ← queue_pop_front (custom_events L);
            let L := L.[custom_events := q] in
            match cb ev with
            | None => eventfd_read_cb n L
            | Some c =>
                L ← exec_all (callback c ev L) L;
                '(L, tr) ← eventfd_read_cb n L; Some (L, ev :: tr)
            end
        end
  end.

(** What the eventfd holds when it is read; 0 when there is nothing to read. *)
Context (eventfd_count : nat -> nat).

(** The callback of event [x]. An io's is hio_handle_events of nio.c: on the
    eventfd it reads the count and hands it to eventfd_read_cb, on another fd it
    does what its user's callbacks do; then it clears [revents]. *)
Definition run_cb (c : Z) (x : ptr) (e : hevent) L : option (hloop H K) :=
  if c =? hio_handle_events then
    L ← (if (fd e =? eventfd L) && has_flag (events e) HV_READ && has_flag (revents e) HV_READ
         then fst <$> eventfd_read_cb (eventfd_count (tick L)) (L.[tick := S (tick L)])
         else exec_all (callback c e L) L);
    upd_ev L x (fun e => e.[revents := 0])
  else exec_all (callback c e L) L.

(** * One iteration *)

Fixpoint process_idles_loop (nodes : list ptr) L : option (hloop H K * Z) :=
  match nodes with
  | [] => Some (L, 0)
  | x :: nodes =>
      L ← upd_ev L x (fun e =>
            if repeat e =? INFINITE then e else e.[repeat := u32 (repeat e - 1)]);
      e ← own L x;
      L ← (if repeat e =? 0 then __hidle_del L x else Some L);
      L ← EVENT_PENDING L x;
      '(L, n) ← process_idles_loop nodes L; Some (L, n + 1)
  end.
Definition hloop_process_idles L : option (hloop H K * Z) := process_idles_loop (idles L) L.

(** [while (timer->next_timeout <= timeout) timer->next_timeout += period]. *)
Fixpoint advance (fuel : nat) (next step timeout_us : Z) : option Z :=
  if timeout_us <? next then Some next
  else match fuel with
       | O => None
       | S f => advance f (u64 (next + step)) step timeout_us
       end.

Definition rearm L (x : ptr) (timeout_us : Z) : option (hloop H K) :=
  e ← own L x;
  if is_timeout e then
    let step := timeout e * 1000 in
    next ← advance (Z.to_nat ((timeout_us - next_timeout e) / step + 1)) (next_timeout e) step timeout_us;
    upd_ev L x (fun e => e.[next_timeout := next])
  else if is_period e then
    let '(mi, ho, da, we, mo) := period e in
    let next := u64 (HTime.cron_next_timeout zone mi ho da we mo (time_s (clock (tick L))) * 1000000) in
    upd_ev (L.[tick := S (tick L)]) x (fun e => e.[next_timeout := next])
  else Some L.

(** The body of the loop: a due timer is destroyed at the end of its count, or
    goes back into its heap with a new deadline; it becomes pending. *)
Definition fire_timer (rt : bool) (timeout_us : Z) L (x : ptr) : option (hloop H K) :=
  L ← upd_ev L x (fun e =>
        if repeat e =? INFINITE then e else e.[repeat := u32 (repeat e - 1)]);
  e ← own L x;
  L ← (if repeat e =? 0 then __htimer_del L x
       else
         L ← heap_remove_timer rt L x;
         L ← rearm L x timeout_us;
         heap_insert_timer rt L x);
  EVENT_PENDING L x.

Fixpoint __hloop_process_timers (fuel : nat) (rt : bool) (timeout_us : Z) L
  : option (hloop H K * Z) :=
  match heap_root_timer rt L with
  | None => Some (L, 0)
  | Some x =>
      e ← own L x;
      if timeout_us <? next_timeout e then Some (L, 0)
      else match fuel with
        | O => None
        | S f =>
            L ← fire_timer rt timeout_us L x;
            '(L, n) ← __hloop_process_timers f rt timeout_us L; Some (L, n + 1)
        end
  end.

(** Every timer fires at most once per call, so the timer count is enough
    fuel. *)
Definition hloop_process_timers L : option (hloop H K * Z) :=
  let now := hloop_now_us L in
  '(L, n1) ← __hloop_process_timers (Z.to_nat (ntimers L)) false (cur_hrtime L) L;
  '(L, n2) ← __hloop_process_timers (Z.to_nat (ntimers L)) true now L;
  Some (L, n1 + n2).

Definition hloop_process_ios L (timeout_ms : Z) : option (hloop H K * Z) :=
  '(L, n) ← iowatcher_poll_events L timeout_ms;
  Some (L, if n <? 0 then 0 else n).

(** After its callback an event is no longer pending, and is deleted when it
    was marked for that. *)
Definition event_done L (x : ptr) : option (hloop H K) :=
  L ← upd_ev L x (fun e => e.[pending := false]);
  e ← mem L !! x;
  if destroy e then EVENT_DEL L x else Some L.

(** The walk over one pending list; the trace lists the events whose callbacks
    ran, in order. *)
Fixpoint pending_walk (fuel : nat) (cur : option ptr) L : option (hloop H K * list ptr) :=
  match cur with
  | None => Some (L, [])
  | Some x =>
      match fuel with
      | O => None
      | S f =>
          e ← mem L !! x;
          '(L, tr) ←
            (if pending e && bool_decide (ev_loop e = Some (self L)) then
               '(L, tr) ← match active e, cb e with
                 | true, Some c => L ← run_cb c x e L; Some (L, [x])
                 | _, _ => Some (L, [])
                 end;
               L ← event_done L x;
               Some (L, tr)
             else Some (L, []));
          '(L, tr') ← pending_walk f (pending_next e) L;
          Some (L, tr ++ tr')
      end
  end.

(** From the highest priority index down; [n] lists are left. *)
Fixpoint pending_lists (n : nat) L : option (hloop H K * list ptr) :=
  match n with
  | O => Some (L, [])
  | S i =>
      head ← zget (pendings L) (Z.of_nat i);
      '(L, tr) ← pending_walk (S (size (mem L))) head L;
      ps ← zset (pendings L) (Z.of_nat i) None;
      '(L, tr') ← pending_lists i (L.[pendings := ps]);
      Some (L, tr ++ tr')
  end.

(** The returned count is the length of the trace. *)
Definition hloop_process_pendings L : option (hloop H K * list ptr) :=
  if npendings L =? 0 then Some (L, [])
  else
    '(L, tr) ← pending_lists (Z.to_nat HEVENT_PRIORITY_SIZE) L;
    Some (L.[npendings := 0], tr).

(** The blocking time, [None] for a due timer; reads the clock as the code
    does. *)
Definition blocktime L (timeout_ms : Z) : option (hloop H K * option Z) :=
  if ntimers L =? 0 then Some (L, Some timeout_ms)
  else
    let L := hloop_update_time L in
    let us := i32 (timeout_ms * 1000) in
    us ← match th_root (timers L) with
         | None => Some us
         | Some x => e ← mem L !! x; Some (Z.min us (i64 (next_timeout e - cur_hrtime L)))
         end;
    us ← match th_root (realtimers L) with
         | None => Some us
         | Some x => e ← mem L !! x; Some (Z.min us (i64 (next_timeout e - hloop_now_us L)))
         end;
    if us <? 0 then Some (L, None)
    else Some (L, Some (Z.min (i32 (us ÷ 1000 + 1)) timeout_ms)).

(** Waiting for ios (hv_msleep when there are none), skipped when a timer is
    due; whether the loop was stopped meanwhile. *)
Definition wait_ios L (bt : option Z) : option (hloop H K * bool) :=
  match bt with
  | None => Some (L, false)
  | Some ms =>
      L ← (if nios L =? 0 then Some L else fst <$> hloop_process_ios L ms);
      let L := hloop_update_time L in
      Some (L, bool_decide (status L = HLOOP_STATUS_STOP))
  end.

Definition hloop_process_events L (timeout_ms : Z) : option (hloop H K * list ptr) :=
  '(L, bt) ← blocktime L timeout_ms;
  '(L, stopped) ← wait_ios L bt;
  if stopped : bool then Some (L, [])
  else
    L ← (if ntimers L =? 0 then Some L else fst <$> hloop_process_timers L);
    L ← (if npendings L =? 0
         then (if nidles L =? 0 then Some L else fst <$> hloop_process_idles L)
         else Some L);
    hloop_process_pendings L.

(** The body of the loop of hloop_run, for at most [fuel] rounds; the result is
    the state when the loop was left, [None] when it was not. *)
Fixpoint run_loop (fuel : nat) L : option (option (hloop H K) * list ptr) :=
  if bool_decide (status L = HLOOP_STATUS_STOP) then Some (Some L, [])
  else match fuel with
    | O => Some (None, [])
    | S f =>
        if bool_decide (status L = HLOOP_STATUS_PAUSE) then run_loop f (hloop_update_time L)
        else
          let L := L.[loop_cnt := u64 (loop_cnt L + 1)] in
          if has_flag (flags L) HLOOP_FLAG_QUIT_WHEN_NO_ACTIVE_EVENTS
             && (nactives L <=? intern_nevents L) then Some (Some L, [])
          else
            '(L, tr) ← hloop_process_events L HLOOP_MAX_BLOCK_TIME;
            if has_flag (flags L) HLOOP_FLAG_RUN_ONCE then Some (Some L, tr)
            else '(r, tr') ← run_loop f L; Some (r, tr ++ tr')
    end.

(** hloop_run up to the release of the loop (HLOOP_FLAG_AUTO_FREE). *)
Definition hloop_run (fuel : nat) L : option (Z * option (hloop H K) * list ptr) :=
  if bool_decide (status L = HLOOP_STATUS_RUNNING) then Some (-2, Some L, [])
  else
    let L := L.[status := HLOOP_STATUS_RUNNING] in
    L ← (if (intern_nevents L =? 0) && (eventfd L =? -1)
         then fst <$> hloop_create_eventfds L else Some L);
    '(r, tr) ← run_loop fuel L;
    let stop L := L.[status := HLOOP_STATUS_STOP].[end_hrtime := hrtime_us (clock (tick L))] in
    Some (0, option_map stop r, tr).

(** A new loop. *)
Definition hloop_init (id : Z) : hloop H K :=
  let r := clock 0 in
  mk_loop id 0 HLOOP_STATUS_STOP (timeofday_ms r) (hrtime_us r) 0 (hrtime_us r) 0
    0 0 0 (replicate (Z.to_nat HEVENT_PRIORITY_SIZE) None) [] 0 [] 0
    th_init th_init 0 [] 0 (-1) (mk_queue [] 0 0 0) None 0 ep_new ∅ 1 0 1.

End Operations.

End Loop.
