(* ===== verification/LoopInv.v ===== *)
(** The invariant of the event loop and its preservation by every operation a
    program can perform on a loop: the heaps hold exactly the live timers, the
    idle list exactly the live idles, the counters count them, and what is
    linked in a pending list stays allocated. *)
From S2P Require Import Prelude Heap Containers HMath HTime HTimeThm Loop.
Import Heap HMath Loop.

Module LoopInv.

Abbreviation memory := (gmap ptr hevent).

(** * Views of the memory *)

(** The part of an event the invariant is about. *)
Definition skel (e : hevent) :=
  (event_type e, destroy e, next_timeout e, ev_loop e, timeout e, priority e, fd e, event_id e,
   events e, ready e, period e).

(** The events of one type. *)
Definition view (t : hevent_type_e) (m : memory) (x : ptr) :=
  e ← m !! x; if decide (event_type e = t) then Some (skel e) else None.

Definition same_view (t : hevent_type_e) (m m' : memory) : Prop :=
  forall x, view t m' x = view t m x.

Definition live (t : hevent_type_e) (m : memory) (x : ptr) : Prop :=
  exists e, m !! x = Some e /\ event_type e = t /\ destroy e = false.

Definition tmo (m : memory) (x : ptr) : Z :=
  match m !! x with Some e => next_timeout e | None => 0 end.

(** Events of type [t] in one memory have a counterpart in the other. *)
Lemma view_old t m m' x e : same_view t m m' -> m' !! x = Some e -> event_type e = t ->
  exists e0, m !! x = Some e0 /\ skel e0 = skel e.
Proof.
  intros Hv Hx Ht. specialize (Hv x). unfold view in Hv. rewrite Hx in Hv. simpl in Hv.
  rewrite decide_True in Hv by done. destruct (m !! x) as [e0|]; [|done]. simpl in Hv.
  case_decide; [|done]. exists e0. split; [done|congruence].
Qed.

Lemma same_view_sym t m m' : same_view t m m' -> same_view t m' m.
Proof. intros Hv x. by rewrite Hv. Qed.

Lemma live_view t m m' x : same_view t m m' -> live t m' x <-> live t m x.
Proof.
  assert (forall m m', same_view t m m' -> live t m' x -> live t m x) as Hd.
  { intros m1 m2 Hv (e & Hx & Ht & Hdes). destruct (view_old t m1 m2 x e) as (e0 & ? & [= ? ? ? ? ? ? ? ? ? ? ?]); [done..|].
    exists e0. split_and!; congruence. }
  intros Hv. split; apply Hd; auto using same_view_sym.
Qed.

(** Changing an event of another type, or only fields outside the skeleton. *)
Lemma same_view_other t m x e' :
  (forall e, m !! x = Some e -> event_type e <> t) -> event_type e' <> t ->
  same_view t m (<[x := e']> m).
Proof.
  intros Ho Hn y. unfold view. destruct (decide (y = x)) as [->|].
  - rewrite lookup_insert_eq. simpl. rewrite decide_False by done.
    destruct (m !! x) as [e|] eqn:E; [|done]. simpl. rewrite decide_False; [done|]. eauto.
  - by rewrite lookup_insert_ne.
Qed.

Lemma same_view_skel t m x e e' : m !! x = Some e -> skel e' = skel e ->
  same_view t m (<[x := e']> m).
Proof.
  intros Hx Hs y. pose proof Hs as [= Et _ _ _ _ _ _ _ _ _ _]. unfold view.
  destruct (decide (y = x)) as [->|].
  - rewrite lookup_insert_eq, Hx. simpl. by rewrite Et, Hs.
  - by rewrite lookup_insert_ne.
Qed.

Lemma same_view_delete t m x e : m !! x = Some e -> event_type e <> t ->
  same_view t m (delete x m).
Proof.
  intros Hx Hn y. unfold view. destruct (decide (y = x)) as [->|].
  - rewrite lookup_delete_eq, Hx. simpl. by rewrite decide_False.
  - by rewrite lookup_delete_ne.
Qed.

Lemma same_view_fresh t m x e : m !! x = None -> event_type e <> t -> same_view t m (<[x := e]> m).
Proof. intros Hx Hn. apply same_view_other; [congruence|done]. Qed.

(** * The invariant, part by part *)

Section Invariant.
Context {H K : Type} {TH : TimerHeap H} {THL : TimerHeapLaws H} {EP : Epoll K} {EPL : EpollLaws K}.
Implicit Types (L : hloop H K) (S : bool -> gset ptr) (m : memory).

(** The heap and the event type of monotonic ([false]) and real-time ([true])
    timers. *)
Definition heap_of (rt : bool) L : H := if rt then realtimers L else timers L.
Definition ty (rt : bool) : hevent_type_e :=
  if rt then HEVENT_TYPE_PERIOD else HEVENT_TYPE_TIMEOUT.

(** A heap holds exactly the live timers of its type, in deadline order; the
    node of a timer that is out of its heap is detached. *)
Definition heap_part (rt : bool) (h : H) m (X : gset ptr) : Prop :=
  th_ok (key_lt (tmo m)) h X /\
  (forall x, x ∈ X <-> live (ty rt) m x) /\
  (forall x e, m !! x = Some e -> event_type e = ty rt -> destroy e = true -> th_detached h x).

Definition idle_part (ids : list ptr) (n : Z) m : Prop :=
  NoDup ids /\ (forall x, x ∈ ids <-> live HEVENT_TYPE_IDLE m x) /\ n = zlen ids /\ n < 2 ^ 31.

(** The io table and the ios name each other. *)
Definition io_part (tbl : list (option ptr)) m : Prop :=
  (forall n x, tbl !! n = Some (Some x) ->
    exists e, m !! x = Some e /\ event_type e = HEVENT_TYPE_IO /\ fd e = Z.of_nat n) /\
  (forall x e, m !! x = Some e -> event_type e = HEVENT_TYPE_IO ->
    zget tbl (fd e) = Some (Some x)).

Definition sig_part (tbl : list (option ptr)) m : Prop :=
  (tbl = [] \/ zlen tbl = MAX_SIGNO) /\
  forall n x, tbl !! n = Some (Some x) ->
    exists e, m !! x = Some e /\ event_type e = HEVENT_TYPE_SIGNAL /\ event_id e = Z.of_nat n.

(** What the kernel watches is what the ios ask for. *)
Definition interest (e : hevent) : option Z :=
  if events e =? 0 then None else Some (ep_mask (events e)).
Definition watch_part (k : K) (sz : option Z) m : Prop :=
  (forall x e, m !! x = Some e -> event_type e = HEVENT_TYPE_IO ->
    ep_interest k (fd e) = interest e) /\
  (forall n, ep_interest k n <> None ->
    exists x e, m !! x = Some e /\ event_type e = HEVENT_TYPE_IO /\ fd e = n) /\
  (sz = None -> forall n, ep_interest k n = None).

(** The masks an io has. *)
Definition rw_mask (evs : Z) : Prop := evs = 0 \/ evs = 1 \/ evs = 4 \/ evs = 5.

(** The periods [htimer_add_period] accepts. *)
Definition period_ok (p : Z * Z * Z * Z * Z) : Prop :=
  let '(mi, ho, da, we, mo) := p in mi <= 59 /\ ho <= 23 /\ da <= 31 /\ we <= 6 /\ mo <= 12.

(** What every event satisfies by itself. *)
Definition event_ok (id : Z) (e : hevent) : Prop :=
  ev_loop e = Some id /\ (-5 <= priority e <= 5 /\ (event_type e = HEVENT_TYPE_PERIOD -> period_ok (period e))) /\
  (event_type e = HEVENT_TYPE_TIMEOUT -> 0 < timeout e < 2 ^ 32 /\ 0 <= next_timeout e) /\
  (event_type e = HEVENT_TYPE_SIGNAL -> 0 <= event_id e) /\
  (event_type e = HEVENT_TYPE_IO \/ event_type e = HEVENT_TYPE_SIGNAL -> destroy e = false) /\
  (event_type e = HEVENT_TYPE_IO -> rw_mask (events e) /\ (ready e = false -> events e = 0)).

Lemma event_ok_destroy id e : event_ok id e -> event_type e <> HEVENT_TYPE_IO ->
  event_type e <> HEVENT_TYPE_SIGNAL -> event_ok id (e.[destroy := true]).
Proof. intros (? & [[? ?] ?] & ? & ? & _ & ?) ? ?. split_and!; simpl; try done. tauto. Qed.

Definition mem_part (id : Z) (b : ptr) m : Prop :=
  (forall x e, m !! x = Some e -> event_ok id e) /\ (forall x, is_Some (m !! x) -> x < b).

Definition count_part (n : Z) S : Prop :=
  n = Z.of_nat (size (S false)) + Z.of_nat (size (S true)) /\ n < 2 ^ 31.

Record Inv L S : Prop := {
  v_heap : forall rt, heap_part rt (heap_of rt L) (mem L) (S rt);
  v_count : count_part (ntimers L) S;
  v_mem : mem_part (self L) (brk L) (mem L);
  v_idle : idle_part (idles L) (nidles L) (mem L);
  v_io : io_part (ios L) (mem L);
  v_sig : sig_part (signals L) (mem L);
  v_queue : exists l, Queue.rep (custom_events L) l;
  v_plen : zlen (pendings L) = HEVENT_PRIORITY_SIZE;
  v_watch : watch_part (epfd L) (epoll_size L) (mem L);
}.

(** The fields the invariant is about. *)
Definition core L :=
  (self L, mem L, brk L, timers L, realtimers L, ntimers L, idles L, nidles L, ios L,
   signals L, custom_events L, zlen (pendings L), epfd L, epoll_size L).

Lemma Inv_core L L' S : core L' = core L -> Inv L S -> Inv L' S.
Proof.
  intros E []. injection E as E1 E2 E3 E4 E5 E6 E7 E8 E9 E10 E11 E12 E13 E14.
  assert (forall rt, heap_of rt L' = heap_of rt L) as Eh by (intros []; done).
  split; [intros rt; rewrite Eh, E2; apply v_heap0|..];
    by rewrite ?E1, ?E2, ?E3, ?E6, ?E7, ?E8, ?E9, ?E10, ?E11, ?E12, ?E13, ?E14.
Qed.

(** Each part depends on the events of its type only. *)
Lemma heap_part_view rt h m m' X : same_view (ty rt) m m' -> heap_part rt h m X ->
  heap_part rt h m' X.
Proof.
  intros Hv (Hok & HX & Hdet). split_and!.
  - eapply th_ok_ext; [exact Hok|]. assert (forall x, x ∈ X -> tmo m' x = tmo m x) as Ht.
    { intros x Hx. apply HX in Hx as (e & Hx & Ht & _). unfold tmo. rewrite Hx.
      destruct (view_old (ty rt) m' m x e) as (e0 & -> & [= _ _ E _ _ _ _ _ _ _ _]);
        [by apply same_view_sym|done..]. }
    intros x y Hx Hy. unfold key_lt. by rewrite !Ht.
  - intros x. rewrite HX. symmetry. by apply live_view.
  - intros x e Hx Ht Hd. destruct (view_old (ty rt) m m' x e) as (e0 & ? & [= E1 E2 _ _ _ _ _ _ _ _ _]); [done..|].
    apply (Hdet x e0); congruence.
Qed.

Lemma idle_part_view ids n m m' : same_view HEVENT_TYPE_IDLE m m' -> idle_part ids n m ->
  idle_part ids n m'.
Proof.
  intros Hv (? & Hi & ? & ?). split_and!; [done| |done|done].
  intros x. rewrite Hi. symmetry. by apply live_view.
Qed.

Lemma io_part_view tbl m m' : same_view HEVENT_TYPE_IO m m' -> io_part tbl m -> io_part tbl m'.
Proof.
  intros Hv [H1 H2]. split.
  - intros n x Hn. destruct (H1 n x Hn) as (e & Hx & Ht & Hf).
    destruct (view_old HEVENT_TYPE_IO m' m x e) as (e0 & ? & [= E1 _ _ _ _ _ E2 _ _ _ _]);
      [by apply same_view_sym|done..|]. exists e0. split_and!; congruence.
  - intros x e Hx Ht. destruct (view_old HEVENT_TYPE_IO m m' x e) as (e0 & ? & [= E1 _ _ _ _ _ E2 _ _ _ _]); [done..|].
    rewrite <- E2. apply H2; congruence.
Qed.

Lemma sig_part_view tbl m m' : same_view HEVENT_TYPE_SIGNAL m m' -> sig_part tbl m -> sig_part tbl m'.
Proof.
  intros Hv [H0 H1]. split; [done|]. intros n x Hn. destruct (H1 n x Hn) as (e & Hx & Ht & Hf).
  destruct (view_old HEVENT_TYPE_SIGNAL m' m x e) as (e0 & ? & [= E1 _ _ _ _ _ _ E2 _ _ _]);
    [by apply same_view_sym|done..|]. exists e0. split_and!; congruence.
Qed.

Lemma watch_part_view k sz m m' : same_view HEVENT_TYPE_IO m m' -> watch_part k sz m -> watch_part k sz m'.
Proof.
  intros Hv (H1 & H2 & H3). split_and!; [| |done].
  - intros x e Hx Ht. destruct (view_old HEVENT_TYPE_IO m m' x e) as (e0 & ? & [= E1 _ _ _ _ _ E2 _ E3 _ _]); [done..|].
    unfold interest. rewrite <- E2, <- E3. apply (H1 x e0); congruence.
  - intros n Hn. destruct (H2 n Hn) as (x & e & Hx & Ht & Hf).
    destruct (view_old HEVENT_TYPE_IO m' m x e) as (e0 & ? & [= E1 _ _ _ _ _ E2 _ _ _ _]);
      [by apply same_view_sym|done..|]. exists x, e0. split_and!; congruence.
Qed.

Lemma mem_part_insert id b m x e : mem_part id b m -> event_ok id e -> x < b ->
  mem_part id b (<[x := e]> m).
Proof.
  intros [H1 H2] He Hx. split.
  - intros y e0. rewrite lookup_insert_Some. intros [[<- <-]|[_ Hy]]; eauto.
  - intros y. destruct (decide (y = x)) as [->|]; [done|]. rewrite lookup_insert_ne by done. apply H2.
Qed.

Lemma mem_part_delete id b m x : mem_part id b m -> mem_part id b (delete x m).
Proof.
  intros [H1 H2]. split.
  - intros y e0 Hy. apply lookup_delete_Some in Hy as [_ Hy]. eauto.
  - intros y [e Hy]. apply lookup_delete_Some in Hy as [_ Hy]. eauto.
Qed.

Lemma mem_part_brk id b b' m : mem_part id b m -> b <= b' -> mem_part id b' m.
Proof. intros [H1 H2] Hb. split; [done|]. intros x Hx. specialize (H2 x Hx). lia. Qed.

(** * Access *)

Lemma own_eq L S x e : Inv L S -> mem L !! x = Some e -> own L x = Some e.
Proof.
  intros Hi Hx. unfold own. rewrite Hx. simpl.
  destruct (v_mem _ _ Hi) as [Hev _]. destruct (Hev x e Hx) as (-> & _).
  by rewrite bool_decide_true.
Qed.

Lemma upd_ev_eq L x f e : mem L !! x = Some e ->
  upd_ev L x f = Some (L.[mem := <[x := f e]> (mem L)]).
Proof. intros Hx. unfold upd_ev. by rewrite Hx. Qed.

Lemma Inv_upd_same L S x e e' : Inv L S -> mem L !! x = Some e -> skel e' = skel e ->
  Inv (L.[mem := <[x := e']> (mem L)]) S.
Proof.
  intros Hi Hx Hs. assert (forall t, same_view t (mem L) (<[x := e']> (mem L))) as Hv
    by (intros; by eapply same_view_skel).
  destruct Hi. split; simpl; try done.
  - intros rt. eapply heap_part_view; [apply Hv|apply v_heap0].
  - pose proof v_mem0 as [He Hb]. apply mem_part_insert; [done| |eauto].
    pose proof Hs as [= Et Ed En El Eto Ep _ Ei Ee Er Epd]. pose proof (He x e Hx) as Hok.
    unfold event_ok in *. by rewrite Et, Ed, En, El, Eto, Ep, Ei, Ee, Er, Epd.
  - eapply idle_part_view; [apply Hv|done].
  - eapply io_part_view; [apply Hv|done].
  - eapply sig_part_view; [apply Hv|done].
  - eapply watch_part_view; [apply Hv|done].
Qed.

(** * What a pending list needs of the events linked in it *)

(** An event that no operation frees. *)
Definition guarded (e : hevent) : Prop :=
  pending e = true \/ event_type e = HEVENT_TYPE_IO.

(** [L'] comes after [L]: the pending lists and their links are untouched, and
    no event became pending. *)
Definition keeps L L' : Prop :=
  pendings L' = pendings L /\ self L' = self L /\
  (forall x e, mem L !! x = Some e -> guarded e ->
    exists e', mem L' !! x = Some e' /\ guarded e' /\ pending_next e' = pending_next e) /\
  (forall x e', mem L' !! x = Some e' -> pending e' = true ->
    exists e, mem L !! x = Some e /\ pending e = true).

Lemma keeps_refl L : keeps L L.
Proof. split_and!; [done|done|eauto..]. Qed.
Lemma keeps_trans L1 L2 L3 : keeps L1 L2 -> keeps L2 L3 -> keeps L1 L3.
Proof.
  intros (? & ? & Hk1 & Hp1) (? & ? & Hk2 & Hp2). split_and!; [congruence|congruence| |].
  - intros x e Hx Hg. destruct (Hk1 x e Hx Hg) as (e1 & Hx1 & Hg1 & E1).
    destruct (Hk2 x e1 Hx1 Hg1) as (e2 & ? & ? & ?). exists e2. split_and!; congruence || done.
  - intros x e Hx Hp. destruct (Hp2 x e Hx Hp) as (e1 & ? & ?). eauto.
Qed.
Lemma keeps_core L L' : pendings L' = pendings L -> self L' = self L -> mem L' = mem L ->
  keeps L L'.
Proof. intros ? ? E. split_and!; [done|done|rewrite E; eauto..]. Qed.

Lemma keeps_upd L x e e' : mem L !! x = Some e ->
  (guarded e -> guarded e' /\ pending_next e' = pending_next e) ->
  (pending e' = true -> pending e = true) ->
  keeps L (L.[mem := <[x := e']> (mem L)]).
Proof.
  intros Hx Hg Hp. split_and!; [done|done|..]; simpl.
  - intros y e0 Hy Hgy. destruct (decide (y = x)) as [->|]; simplify_eq.
    + exists e'. rewrite lookup_insert_eq. split_and!; [done|by apply Hg|by apply Hg].
    + exists e0. by rewrite lookup_insert_ne.
  - intros y e0. rewrite lookup_insert_Some. intros [[<- <-]|[_ Hy]] ?; eauto.
Qed.

Lemma keeps_fresh L L' x e : pendings L' = pendings L -> self L' = self L ->
  mem L !! x = None -> mem L' = <[x := e]> (mem L) -> pending e = false -> keeps L L'.
Proof.
  intros ? ? Hx E Hp. split_and!; [done|done|..]; rewrite E.
  - intros y e0 Hy Hg. exists e0. rewrite lookup_insert_ne; [done|congruence].
  - intros y e0. rewrite lookup_insert_Some. intros [[<- <-]|[_ Hy]] ?; [congruence|eauto].
Qed.

Lemma keeps_free L L' x e : pendings L' = pendings L -> self L' = self L ->
  mem L !! x = Some e -> ~ guarded e -> mem L' = delete x (mem L) -> keeps L L'.
Proof.
  intros ? ? Hx Hg E. split_and!; [done|done|..]; rewrite E.
  - intros y e0 Hy Hgy. exists e0. rewrite lookup_delete_ne; [done|]. intros ->. congruence.
  - intros y e0 Hy ?. apply lookup_delete_Some in Hy as [_ Hy]. eauto.
Qed.

(** * A timer on its way in or out of its heap *)

(** All live timers but [x] are in the heap, and [x] is detached. *)
Definition heap_out (rt : bool) (h : H) m (X : gset ptr) (x : ptr) : Prop :=
  x ∉ X /\ th_ok (key_lt (tmo m)) h X /\
  (forall y, y ∈ X <-> live (ty rt) m y /\ y <> x) /\
  (forall y e, y <> x -> m !! y = Some e -> event_type e = ty rt -> destroy e = true ->
     th_detached h y) /\
  th_detached h x.

Lemma live_insert_ne t m x e y : y <> x -> live t (<[x := e]> m) y <-> live t m y.
Proof. intros Hne. unfold live. by setoid_rewrite lookup_insert_ne; [|done]. Qed.

Lemma live_insert t m x e : live t (<[x := e]> m) x <-> event_type e = t /\ destroy e = false.
Proof.
  unfold live. rewrite lookup_insert_eq. split; [by intros (? & [= <-] & ?)|eauto].
Qed.

Lemma tmo_insert_ne m x e y : y <> x -> tmo (<[x := e]> m) y = tmo m y.
Proof. intros. unfold tmo. by rewrite lookup_insert_ne. Qed.

Lemma th_ok_tmo m m' h X : th_ok (key_lt (tmo m)) h X ->
  (forall x, x ∈ X -> tmo m' x = tmo m x) -> th_ok (key_lt (tmo m')) h X.
Proof.
  intros Hok Ht. eapply th_ok_ext; [exact Hok|]. intros x y Hx Hy. unfold key_lt. by rewrite !Ht.
Qed.

Lemma heap_out_upd rt h m X x e : heap_out rt h m X x -> heap_out rt h (<[x := e]> m) X x.
Proof.
  intros (Hx & Hok & HX & Hdet & Hdx). split_and!; [done| | | |done].
  - eapply th_ok_tmo; [exact Hok|]. intros y Hy. apply tmo_insert_ne. congruence.
  - intros y. rewrite HX. destruct (decide (y = x)) as [->|]; [tauto|]. by rewrite live_insert_ne.
  - intros y e0 Hne Hy. rewrite lookup_insert_ne in Hy by done. eauto.
Qed.

Lemma heap_remove_out rt h m X x : heap_part rt h m X -> x ∈ X -> Z.of_nat (size X) < 2 ^ 31 ->
  exists h', th_remove (key_lt (tmo m)) h x = Some h' /\ heap_out rt h' m (X ∖ {[x]}) x.
Proof.
  intros (Hok & HX & Hdet) Hx Hb.
  destruct (th_remove_ok (key_lt (tmo m)) h X x) as (h' & Hr & Hok' & Hdx & Hdet'); [done..|].
  exists h'. split; [done|]. split_and!; [set_solver|done| | |done].
  - intros y. rewrite elem_of_difference, elem_of_singleton, HX. tauto.
  - intros y e Hne Hy Ht Hd. apply Hdet'; [|by eapply Hdet].
    intros Hin. apply HX in Hin as (e0 & ? & ? & ?). congruence.
Qed.

Lemma heap_destroyed_out rt h m X x e : heap_part rt h m X -> m !! x = Some e ->
  event_type e = ty rt -> destroy e = true -> heap_out rt h m X x.
Proof.
  intros (Hok & HX & Hdet) Hx Ht Hd. assert (~ live (ty rt) m x) as Hnl
    by (intros (e0 & ? & ? & ?); congruence).
  split_and!; [by rewrite HX|done| | |by eapply Hdet].
  - intros y. rewrite HX. split; [|tauto]. intros Hy. split; [done|]. by intros ->.
  - eauto.
Qed.

Lemma heap_alloc_out rt h m X x : heap_part rt h m X -> m !! x = None ->
  heap_out rt (th_alloc h x) m X x.
Proof.
  intros (Hok & HX & Hdet) Hx. assert (~ live (ty rt) m x) as Hnl
    by (intros (e0 & ? & ? & ?); congruence).
  destruct (th_alloc_ok (key_lt (tmo m)) h X x) as (Hok' & Hdx & Hdet'); [done|by rewrite HX|].
  split_and!; [by rewrite HX|done| | |done].
  - intros y. rewrite HX. split; [|tauto]. intros Hy. split; [done|]. by intros ->.
  - eauto.
Qed.

(** Back into the heap. *)
Lemma heap_out_insert rt h m X x e e' : heap_out rt h m X x ->
  m !! x = Some e -> Z.of_nat (size X) + 1 < 2 ^ 31 ->
  event_type e' = ty rt -> destroy e' = false -> next_timeout e' = next_timeout e ->
  exists h', th_insert (key_lt (tmo m)) h x = Some h' /\
    heap_part rt h' (<[x := e']> m) ({[x]} ∪ X).
Proof.
  intros (Hx & Hok & HX & Hdet & Hdx) Hm Hb Ht Hd Hn.
  destruct (th_insert_ok (key_lt (tmo m)) h X x) as (h' & Hi & Hok' & Hdet'); [done..|].
  exists h'. split; [done|]. split_and!.
  - eapply th_ok_tmo; [exact Hok'|]. intros y Hy. destruct (decide (y = x)) as [->|].
    + unfold tmo. by rewrite lookup_insert_eq, Hm.
    + by apply tmo_insert_ne.
  - intros y. rewrite elem_of_union, elem_of_singleton, HX. destruct (decide (y = x)) as [->|].
    + rewrite live_insert. tauto.
    + rewrite live_insert_ne by done. tauto.
  - intros y e0 Hy Hty Hdy. destruct (decide (y = x)) as [->|].
    + rewrite lookup_insert_eq in Hy. congruence.
    + rewrite lookup_insert_ne in Hy by done. apply Hdet'; [done| |by eapply Hdet].
      rewrite HX. intros [(e1 & ? & ? & ?) _]. congruence.
Qed.

(** Left out of the heap: marked as destroyed, or freed. *)
Lemma heap_out_destroy rt h m X x e : heap_out rt h m X x -> destroy e = true ->
  heap_part rt h (<[x := e]> m) X.
Proof.
  intros Ho Hd. apply (heap_out_upd _ _ _ _ _ e) in Ho as (Hx & Hok & HX & Hdet & Hdx).
  split_and!; [done| |].
  - intros y. rewrite HX. split; [tauto|]. intros Hl. split; [done|]. intros ->.
    apply live_insert in Hl. destruct Hl. congruence.
  - intros y e0 Hy Ht Hdy. destruct (decide (y = x)) as [->|]; eauto.
Qed.

Lemma heap_part_free rt h m X x : heap_part rt h m X -> x ∉ X ->
  heap_part rt (th_free h x) (delete x m) X.
Proof.
  intros (Hok & HX & Hdet) Hx.
  destruct (th_free_ok (key_lt (tmo m)) h X x) as (Hok' & Hdet'); [done..|]. split_and!.
  - eapply th_ok_tmo; [exact Hok'|]. intros y Hy. unfold tmo. rewrite lookup_delete_ne; [done|congruence].
  - intros y. rewrite HX. unfold live. destruct (decide (y = x)) as [->|].
    + rewrite lookup_delete_eq. split; [|by intros (? & ? & _)].
      intros Hl. destruct Hx. by apply HX.
    + by rewrite lookup_delete_ne.
  - intros y e Hy Ht Hd. apply lookup_delete_Some in Hy as [Hne Hy]. apply Hdet'; eauto.
Qed.

Lemma heap_part_alloc rt h m X x : heap_part rt h m X -> m !! x = None ->
  heap_part rt (th_alloc h x) m X.
Proof.
  intros (Hok & HX & Hdet) Hx.
  destruct (th_alloc_ok (key_lt (tmo m)) h X x) as (Hok' & Hdx & Hdet'); [done| |].
  - rewrite HX. intros (e & ? & _). congruence.
  - split_and!; [done|done|]. eauto.
Qed.

(** * Operations on the event of a pointer *)

Definition put_heap (rt : bool) (h : H) L : hloop H K :=
  if rt then L.[realtimers := h] else L.[timers := h].
Definition put_set S (rt : bool) (X : gset ptr) : bool -> gset ptr :=
  fun b => if Bool.eqb b rt then X else S b.

Lemma heap_remove_timer_eq rt L x : heap_remove_timer rt L x
  = h ← th_remove (key_lt (tmo (mem L))) (heap_of rt L) x; Some (put_heap rt h L).
Proof. by destruct rt. Qed.
Lemma heap_insert_timer_eq rt L x : heap_insert_timer rt L x
  = h ← th_insert (key_lt (tmo (mem L))) (heap_of rt L) x; Some (put_heap rt h L).
Proof. by destruct rt. Qed.

Lemma EVENT_ACTIVE_eq L S x e : Inv L S -> mem L !! x = Some e ->
  EVENT_ACTIVE L x = Some (if active e then L
    else L.[mem := <[x := e.[active := true]]> (mem L)].[nactives := u32 (nactives L + 1)]).
Proof.
  intros Hi Hx. unfold EVENT_ACTIVE. rewrite (own_eq L S x e Hi Hx). simpl.
  destruct (active e); [done|]. by rewrite (upd_ev_eq L x _ e Hx).
Qed.
Lemma EVENT_INACTIVE_eq L S x e : Inv L S -> mem L !! x = Some e ->
  EVENT_INACTIVE L x = Some (if active e
    then L.[mem := <[x := e.[active := false]]> (mem L)].[nactives := u32 (nactives L - 1)] else L).
Proof.
  intros Hi Hx. unfold EVENT_INACTIVE. rewrite (own_eq L S x e Hi Hx). simpl.
  destruct (active e); [|done]. by rewrite (upd_ev_eq L x _ e Hx).
Qed.

(** Stripping updates the invariant does not look at. *)
Ltac inv_core L0 := apply (Inv_core L0); [reflexivity|].

Lemma EVENT_INACTIVE_ok L S x e : Inv L S -> mem L !! x = Some e ->
  exists L', EVENT_INACTIVE L x = Some L' /\ Inv L' S /\ keeps L L' /\
    mem L' !! x = Some (e.[active := false]) /\ signals L' = signals L /\ idles L' = idles L.
Proof.
  intros Hi Hx. rewrite (EVENT_INACTIVE_eq L S x e) by done. eexists. split; [done|].
  destruct (active e) eqn:Ea; split_and!; simpl; try done.
  - inv_core (L.[mem := <[x := e.[active := false]]> (mem L)]). by eapply Inv_upd_same.
  - apply (keeps_trans _ (L.[mem := <[x := e.[active := false]]> (mem L)])); [|by apply keeps_core].
    by eapply keeps_upd.
  - apply lookup_insert_eq.
  - apply keeps_refl.
  - rewrite Hx. f_equal. destruct e; simpl in *; by subst.
Qed.

Lemma free_ok L S x e : Inv L S -> mem L !! x = Some e -> ~ guarded e ->
  (forall rt, x ∉ S rt) -> x ∉ idles L -> (forall n, signals L !! n <> Some (Some x)) ->
  exists L', free L x = Some L' /\ Inv L' S /\ keeps L L' /\ mem L' = delete x (mem L).
Proof.
  intros Hi Hx Hg HS Hid Hsig. unfold free. rewrite Hx. simpl. eexists. split; [done|].
  split_and!; [|by eapply keeps_free|done]. 
  assert (event_type e <> HEVENT_TYPE_IO) as Hio by (intros E; apply Hg; by right).
  destruct Hi. split; simpl; try done.
  - intros rt. specialize (v_heap0 rt). destruct rt; simpl in *; by apply heap_part_free.
  - by apply mem_part_delete.
  - destruct v_idle0 as (? & Hids & ? & ?). split_and!; try done. intros y. rewrite Hids.
    destruct (decide (y = x)) as [->|]; [|unfold live; by rewrite lookup_delete_ne].
    split; [intros Hl; by apply Hids in Hl|]. intros (? & Hy & _). by rewrite lookup_delete_eq in Hy.
  - apply (io_part_view _ (mem L)); [|done]. by eapply same_view_delete.
  - destruct v_sig0 as [? Hs]. split; [done|].
    intros n y Hn. destruct (Hs n y Hn) as (e0 & ? & ? & ?). exists e0.
    rewrite lookup_delete_ne; [done|]. intros ->. by apply (Hsig n).
  - apply (watch_part_view _ _ (mem L)); [|done]. by eapply same_view_delete.
Qed.

Lemma EVENT_DEL_ok L S x e : Inv L S -> mem L !! x = Some e -> event_type e <> HEVENT_TYPE_IO ->
  (forall rt, x ∉ S rt) -> x ∉ idles L -> (forall n, signals L !! n <> Some (Some x)) ->
  exists L', EVENT_DEL L x = Some L' /\ Inv L' S /\ keeps L L' /\
    (pending e = false -> mem L' !! x = None).
Proof.
  intros Hi Hx Ht HS Hid Hsig. unfold EVENT_DEL.
  destruct (EVENT_INACTIVE_ok L S x e Hi Hx) as (L1 & -> & Hi1 & Hk1 & Hx1 & Es & Ei). simpl.
  rewrite (own_eq L1 S x _ Hi1 Hx1). simpl. destruct (pending e) eqn:Ep.
  - exists L1. split_and!; done.
  - destruct (free_ok L1 S x _ Hi1 Hx1) as (L2 & -> & Hi2 & Hk2 & Em); rewrite ?Es, ?Ei; try done.
    { intros [E|E]; simpl in E; congruence. }
    exists L2. split_and!; [done|done|by eapply keeps_trans|]. rewrite Em. intros _. apply lookup_delete_eq.
Qed.

(** __htimer_del takes a live timer out of its heap and marks it. *)
(** Fields that adding and removing timers leaves alone. *)
Definition outside L := (npendings L, tick L, cur_hrtime L, start_ms L, start_hrtime L, status L).

Lemma __htimer_del_ok rt L S x e : Inv L S -> mem L !! x = Some e -> event_type e = ty rt ->
  exists L' S', __htimer_del L x = Some L' /\ Inv L' S' /\ keeps L L' /\
    mem L' = <[x := e.[destroy := true]]> (mem L) /\
    signals L' = signals L /\ idles L' = idles L /\ (forall b, x ∉ S' b) /\
    outside L' = outside L /\ S' (negb rt) = S (negb rt).
Proof.
  intros Hi Hx Ht. unfold __htimer_del. rewrite (own_eq L S x e Hi Hx). cbn [mbind option_bind].
  assert (forall b, b <> rt -> x ∉ S b) as Hother.
  { intros b Hb Hin. apply (v_heap _ _ Hi b) in Hin as (e0 & ? & Ht0 & _).
    destruct b, rt; simplify_eq/=; congruence. }
  destruct (destroy e) eqn:Ed.
  - exists L, S. split_and!; try done; [apply keeps_refl| |].
    + rewrite insert_id; [done|]. rewrite Hx. f_equal. destruct e; simpl in *; by subst.
    + intros b Hin. apply (v_heap _ _ Hi b) in Hin as (e0 & ? & _ & ?). congruence.
  - assert (x ∈ S rt) as Hin by (apply (v_heap _ _ Hi rt); by exists e).
    pose proof (v_count _ _ Hi) as [Hc Hb].
    destruct (heap_remove_out rt (heap_of rt L) (mem L) (S rt) x) as (h & Hr & Hout).
    { apply (v_heap _ _ Hi). } { done. } { destruct rt; lia. }
    assert ((if is_timeout e then heap_remove_timer false L x
             else if is_period e then heap_remove_timer true L x else Some L)
            = Some (put_heap rt h L)) as ->.
    { unfold is_timeout, is_period. rewrite Ht.
      destruct rt; cbn [ty]; rewrite ?bool_decide_true, ?bool_decide_false by done;
        rewrite heap_remove_timer_eq, Hr; done. }
    cbn [mbind option_bind]. assert (mem (put_heap rt h L) = mem L) as Em by by destruct rt.
    rewrite (upd_ev_eq _ x _ e) by (simpl; by rewrite Em). 
    eexists _, (put_set S rt (S rt ∖ {[x]})). split; [done|].
    assert (Z.of_nat (size (S rt ∖ {[x]})) = Z.of_nat (size (S rt)) - 1) as Hsz.
    { rewrite size_difference, size_singleton by set_solver.
      assert (size (S rt) <> 0%nat) by (intros E0; apply size_empty_inv in E0; set_solver). lia. }
    split_and!; simpl; rewrite ?Em; try (by destruct rt).
    + pose proof Hi as []. split; simpl; rewrite ?Em; try (by destruct rt).
      * intros b. unfold put_set. destruct (Bool.eqb_spec b rt) as [->|Hne].
        -- replace (heap_of rt _) with h by by destruct rt. by apply heap_out_destroy.
        -- replace (heap_of b _) with (heap_of b L) by (by destruct b, rt).
           apply (heap_part_view _ _ (mem L)); [|apply v_heap0].
           apply same_view_other; [intros e0 He0; simplify_eq|simpl]; rewrite Ht; by destruct b, rt.
      * replace (ntimers (put_heap rt h L)) with (ntimers L) by by destruct rt.
        rewrite u32_small by (destruct rt; lia). split; [|lia].
        unfold put_set. destruct rt; simpl; lia.
      * replace (self (put_heap rt h L)) with (self L) by by destruct rt.
        replace (brk (put_heap rt h L)) with (brk L) by by destruct rt.
        pose proof v_mem0 as [He Hbr]. apply mem_part_insert; [done| |eauto].
        apply event_ok_destroy; [eauto|rewrite Ht; by destruct rt..].
      * replace (idles (put_heap rt h L)) with (idles L) by by destruct rt.
        replace (nidles (put_heap rt h L)) with (nidles L) by by destruct rt.
        apply (idle_part_view _ _ (mem L)); [|done].
        apply same_view_other; [intros e0 He0; simplify_eq|simpl]; rewrite Ht; by destruct rt.
      * replace (ios (put_heap rt h L)) with (ios L) by by destruct rt.
        apply (io_part_view _ (mem L)); [|done].
        apply same_view_other; [intros e0 He0; simplify_eq|simpl]; rewrite Ht; by destruct rt.
      * replace (signals (put_heap rt h L)) with (signals L) by by destruct rt.
        apply (sig_part_view _ (mem L)); [|done].
        apply same_view_other; [intros e0 He0; simplify_eq|simpl]; rewrite Ht; by destruct rt.
      * replace (epfd (put_heap rt h L)) with (epfd L) by by destruct rt.
        replace (epoll_size (put_heap rt h L)) with (epoll_size L) by by destruct rt.
        apply (watch_part_view _ _ (mem L)); [|done].
        apply same_view_other; [intros e0 He0; simplify_eq|simpl]; rewrite Ht; by destruct rt.
    + apply (keeps_trans _ (L.[mem := <[x := e.[destroy := true]]> (mem L)])); [by eapply keeps_upd|].
      apply keeps_core; by destruct rt.
    + intros b. unfold put_set. destruct (Bool.eqb_spec b rt) as [->|]; [set_solver|auto].
Qed.

(** A timer [x], new or known, enters its heap or changes in it. *)
Lemma Inv_timer rt L L' S x e' h X : Inv L S ->
  self L' = self L -> brk L <= brk L' -> x < brk L' ->
  (forall e, mem L !! x = Some e -> event_type e = ty rt) ->
  mem L' = <[x := e']> (mem L) -> event_type e' = ty rt -> event_ok (self L) e' ->
  heap_of rt L' = h -> heap_part rt h (mem L') X ->
  heap_part (negb rt) (heap_of (negb rt) L') (mem L) (S (negb rt)) ->
  count_part (ntimers L') (put_set S rt X) ->
  (idles L', nidles L', ios L', signals L', custom_events L', pendings L', epfd L', epoll_size L')
  = (idles L, nidles L, ios L, signals L, custom_events L, pendings L, epfd L, epoll_size L) ->
  Inv L' (put_set S rt X).
Proof.
  intros Hi Es Eb Hb Hold Em Ht Hok Eh Hh Hh' Hc [= E1 E2 E3 E4 E5 E6 E7 E8].
  assert (forall t, t <> ty rt -> same_view t (mem L) (mem L')) as Hv.
  { intros t Hne. rewrite Em. apply same_view_other; [|congruence].
    intros e He. rewrite (Hold e He). congruence. }
  destruct Hi. split; rewrite ?E1, ?E2, ?E3, ?E4, ?E5, ?E6, ?E7, ?E8; try done.
  - intros b. unfold put_set. destruct (Bool.eqb_spec b rt) as [->|Hne]; [by rewrite Eh|].
    assert (b = negb rt) as -> by (destruct b, rt; done).
    apply (heap_part_view _ _ (mem L)); [|done]. apply Hv. by destruct rt.
  - rewrite Em, Es. apply mem_part_insert; [|done|done]. by eapply mem_part_brk.
  - eapply idle_part_view; [apply Hv|done]. by destruct rt.
  - eapply io_part_view; [apply Hv|done]. by destruct rt.
  - eapply sig_part_view; [apply Hv|done]. by destruct rt.
  - eapply watch_part_view; [apply Hv|done]. by destruct rt.
Qed.

Lemma brk_fresh L S : Inv L S -> mem L !! brk L = None.
Proof.
  intros Hi. destruct (v_mem _ _ Hi) as [_ Hb]. destruct (mem L !! brk L) eqn:E; [|done].
  assert (brk L < brk L) by (apply Hb; eauto). lia.
Qed.

Lemma EVENT_ADD_eq L x c e : mem L !! x = Some e -> active e = false ->
  EVENT_ADD L x c = Some (L.[mem := <[x := e.[ev_loop := Some (self L)]
      .[event_id := u64 (next_event_id L + 1)].[cb := c].[active := true]]> (mem L)]
    .[next_event_id := u64 (next_event_id L + 1)].[nactives := u32 (nactives L + 1)]).
Proof.
  intros Hx Ha. unfold EVENT_ADD. rewrite (upd_ev_eq L x _ e Hx). cbn [mbind option_bind].
  unfold EVENT_ACTIVE, own. simpl. rewrite lookup_insert_eq. simpl.
  rewrite bool_decide_true by done. simpl. rewrite Ha. unfold upd_ev. simpl.
  rewrite lookup_insert_eq. simpl. by rewrite insert_insert_eq.
Qed.

Lemma deadline_nonneg L ms : 0 <= deadline L ms.
Proof.
  unfold deadline. pose proof (u64_range (cur_hrtime L + ms * 1000)).
  destruct (_ && _); [|lia]. zdm.
Qed.

Section Add.
Context (clock : nat -> reading) (zone : HTime.zone).

Lemma update_time_core L : core (hloop_update_time clock L) = core L /\
  pendings (hloop_update_time clock L) = pendings L.
Proof. unfold hloop_update_time. by destruct (_ =? _). Qed.

(** The end of both functions that add a timer, from the zeroed node on. *)
Lemma add_timer_tail rt L L1 S x e1 c : Inv L S -> x = brk L -> ntimers L + 1 < 2 ^ 31 ->
  mem L1 = <[x := e1]> (mem L) -> event_type e1 = ty rt -> destroy e1 = false ->
  active e1 = false -> pending e1 = false -> -5 <= priority e1 <= 5 /\ (event_type e1 = HEVENT_TYPE_PERIOD -> period_ok (period e1)) ->
  (event_type e1 = HEVENT_TYPE_TIMEOUT -> 0 < timeout e1 < 2 ^ 32 /\ 0 <= next_timeout e1) ->
  timers L1 = th_alloc (timers L) x -> realtimers L1 = th_alloc (realtimers L) x ->
  self L1 = self L -> brk L1 = brk L + 1 -> ntimers L1 = ntimers L ->
  (idles L1, nidles L1, ios L1, signals L1, custom_events L1, pendings L1, epfd L1, epoll_size L1)
  = (idles L, nidles L, ios L, signals L, custom_events L, pendings L, epfd L, epoll_size L) ->
  exists L' S', (L ← heap_insert_timer rt L1 x; L ← EVENT_ADD L x c;
     Some (L.[ntimers := u32 (ntimers L + 1)], Some x)) = Some (L', Some x) /\
    Inv L' S' /\ keeps L L'.
Proof.
  intros Hi -> Hb Em Ht Hd Ha Hpe [Hp Hpd] Hto E1 E2 Es Ebr En Er. pose proof (brk_fresh L S Hi) as Hfr.
  set (x := brk L) in *.
  set (e2 := e1.[ev_loop := Some (self L)].[event_id := u64 (next_event_id L1 + 1)].[cb := c].[active := true]).
  destruct (heap_out_insert rt (heap_of rt L1) (mem L1) (S rt) x e1 e2) as (h & Hins & Hpart).
  { rewrite Em. apply heap_out_upd. replace (heap_of rt L1) with (th_alloc (heap_of rt L) x) by by destruct rt.
    apply heap_alloc_out; [apply (v_heap _ _ Hi rt)|done]. }
  { rewrite Em. apply lookup_insert_eq. }
  { destruct (v_count _ _ Hi). destruct rt; lia. }
  { done. } { done. } { done. }
  rewrite heap_insert_timer_eq, Hins. cbn [mbind option_bind].
  assert (mem (put_heap rt h L1) = mem L1) as Emp by by destruct rt.
  rewrite (EVENT_ADD_eq _ x c e1) by (rewrite ?Emp, ?Em, ?lookup_insert_eq; done).
  cbn [mbind option_bind].
  assert (self (put_heap rt h L1) = self L) as Esp by (destruct rt; done).
  assert (next_event_id (put_heap rt h L1) = next_event_id L1) as Eip by (destruct rt; done).
  rewrite Emp, Esp, Eip. fold e2. rewrite Em in Hpart |- *. rewrite insert_insert_eq in Hpart |- *.
  eexists _, (put_set S rt ({[x]} ∪ S rt)). split; [done|]. split.
  - assert (x ∉ S rt) as Hx by (intros Hin; apply (v_heap _ _ Hi rt) in Hin as (? & ? & _); congruence).
    apply (Inv_timer rt L _ S x e2 h); try done; simpl.
    + destruct rt; simpl; lia.
    + destruct rt; simpl; rewrite Ebr; lia.
    + intros e He. congruence.
    + split_and!; simpl; [done|lia|lia|done|done|rewrite Ht; by destruct rt|done|rewrite Ht; by destruct rt].
    + destruct rt; done.
    + replace (heap_of (negb rt) _) with (th_alloc (heap_of (negb rt) L) x) by by destruct rt.
      apply heap_part_alloc; [apply (v_heap _ _ Hi)|done].
    + destruct (v_count _ _ Hi) as [Hc Hc'].
      replace (ntimers _) with (ntimers L) by by destruct rt.
      rewrite u32_small by (pose proof (Nat2Z.is_nonneg (size (S false))); lia).
      split; [|lia]. unfold put_set. destruct rt; simpl; rewrite size_union, size_singleton by set_solver; lia.
    + destruct rt; exact Er.
  - apply (keeps_fresh _ _ x e2); simpl; [destruct rt; simpl; congruence|done..].
Qed.

Lemma htimer_add_ok L S c ms rep : Inv L S -> 0 <= ms < 2 ^ 32 -> ntimers L + 1 < 2 ^ 31 ->
  exists L' r S', htimer_add clock L c ms rep = Some (L', r) /\ Inv L' S' /\ keeps L L'.
Proof.
  intros Hi Hms Hb. unfold htimer_add. destruct (Z.eqb_spec ms 0).
  { exists L, None, S. split_and!; [done|done|apply keeps_refl]. }
  unfold alloc_timer, alloc. cbv beta iota zeta.
  set (e0 := null_event.[event_type := _].[priority := _].[repeat := _].[timeout := _]).
  set (L0 := L.[mem := _].[brk := _].[timers := _].[realtimers := _]).
  set (L1 := hloop_update_time clock L0).
  destruct (update_time_core L0) as [Ec Ep]. fold L1 in Ec, Ep.
  injection Ec as C1 C2 C3 C4 C5 C6 C7 C8 C9 C10 C11 C12 C13 C14.
  rewrite (upd_ev_eq L1 (brk L) _ e0) by (rewrite C2; apply lookup_insert_eq). cbn [mbind option_bind].
  set (e1 := e0.[next_timeout := _]).
  destruct (add_timer_tail false L (L1.[mem := <[brk L := e1]> (mem L1)]) S (brk L) e1 c)
    as (L' & S' & E & ? & ?); try done; simpl.
  - rewrite C2. simpl. by rewrite insert_insert_eq.
  - intros _. split; [lia|apply deadline_nonneg].
  - by rewrite C7, C8, C9, C10, C11, C13, C14, Ep.
  - exists L', (Some (brk L)), S'. done.
Qed.

Lemma htimer_add_period_ok L S c mi ho da we mo rep : Inv L S -> ntimers L + 1 < 2 ^ 31 ->
  exists L' r S', htimer_add_period clock zone L c mi ho da we mo rep = Some (L', r) /\
    Inv L' S' /\ keeps L L'.
Proof.
  intros Hi Hb. unfold htimer_add_period. destruct (_ || _) eqn:Eg.
  { exists L, None, S. split_and!; [done|done|apply keeps_refl]. }
  unfold alloc_timer, alloc. cbv beta iota zeta. simpl brk. simpl mem.
  set (e1 := null_event.[event_type := _].[priority := _].[repeat := _].[period := _].[next_timeout := _]).
  match goal with |- context [heap_insert_timer true ?l _] => set (L1 := l) end.
  destruct (add_timer_tail true L L1 S (brk L) e1 c) as (L' & S' & E & ? & ?); try done.
  { split; [done|]. intros _. rewrite !orb_false_iff, !Z.ltb_ge in Eg. simpl. tauto. }
  exists L', (Some (brk L)), S'. done.
Qed.
End Add.

Lemma not_idle L S x e : Inv L S -> mem L !! x = Some e -> event_type e <> HEVENT_TYPE_IDLE ->
  x ∉ idles L.
Proof.
  intros Hi Hx Ht Hin. destruct (v_idle _ _ Hi) as (_ & Hids & _).
  apply Hids in Hin as (e0 & ? & ? & _). congruence.
Qed.
Lemma not_signal L S x e : Inv L S -> mem L !! x = Some e -> event_type e <> HEVENT_TYPE_SIGNAL ->
  forall n, signals L !! n <> Some (Some x).
Proof. intros Hi Hx Ht n Hn. destruct (proj2 (v_sig _ _ Hi) n x Hn) as (e0 & ? & ? & _). congruence. Qed.
Lemma not_timer L S x e : Inv L S -> mem L !! x = Some e -> (forall rt, event_type e <> ty rt) ->
  forall rt, x ∉ S rt.
Proof. intros Hi Hx Ht rt Hin. apply (v_heap _ _ Hi rt) in Hin as (e0 & ? & ? & _). naive_solver. Qed.

(** Deleting a timer; an active one that is not pending is freed at once. *)
Lemma htimer_del_free rt L S x e : Inv L S -> mem L !! x = Some e -> event_type e = ty rt ->
  exists L' S', htimer_del L x = Some L' /\ Inv L' S' /\ keeps L L' /\
    (active e = true -> pending e = false -> mem L' !! x = None).
Proof.
  intros Hi Hx Ht. unfold htimer_del. rewrite (own_eq L S x e Hi Hx). cbn [mbind option_bind].
  destruct (active e). 2: { exists L, S. split_and!; [done|done|apply keeps_refl|done]. }
  cbn [negb].
  destruct (__htimer_del_ok rt L S x e Hi Hx Ht) as (L1 & S1 & -> & Hi1 & Hk1 & Em & _ & _ & HS & _).
  cbn [mbind option_bind].
  assert (mem L1 !! x = Some (e.[destroy := true])) as Hx1 by by rewrite Em, lookup_insert_eq.
  destruct (EVENT_DEL_ok L1 S1 x _ Hi1 Hx1) as (L2 & -> & Hi2 & Hk2 & Hfree).
  - simpl. rewrite Ht. by destruct rt.
  - done.
  - eapply not_idle; [done..|]. simpl. rewrite Ht. by destruct rt.
  - eapply not_signal; [done..|]. simpl. rewrite Ht. by destruct rt.
  - exists L2, S1. split_and!; [done|done|by eapply keeps_trans|auto].
Qed.
Lemma htimer_del_ok rt L S x e : Inv L S -> mem L !! x = Some e -> event_type e = ty rt ->
  exists L' S', htimer_del L x = Some L' /\ Inv L' S' /\ keeps L L'.
Proof. intros Hi Hx Ht. destruct (htimer_del_free rt L S x e Hi Hx Ht) as (L' & S' & ? & ? & ? & _). eauto. Qed.

(** The heap a timer is taken out of before it is put back. *)
Lemma reset_out L S x e : Inv L S -> mem L !! x = Some e -> event_type e = HEVENT_TYPE_TIMEOUT ->
  ntimers L + 1 < 2 ^ 31 ->
  exists h X, (if destroy e then Some (L.[ntimers := u32 (ntimers L + 1)])
     else heap_remove_timer false L x)
    = Some (L.[timers := h].[ntimers := Z.of_nat (size X) + Z.of_nat (size (S true)) + 1]) /\
    heap_out false h (mem L) X x /\ Z.of_nat (size X) + Z.of_nat (size (S true)) + 1 < 2 ^ 31.
Proof.
  intros Hi Hx Ht Hb. destruct (v_count _ _ Hi) as [Hc Hc']. destruct (destroy e) eqn:Ed.
  - exists (timers L), (S false). split_and!.
    + rewrite u32_small by lia. rewrite <- Hc. by destruct L.
    + eapply heap_destroyed_out; [apply (v_heap _ _ Hi false)|done..].
    + lia.
  - assert (x ∈ S false) as Hin by (apply (v_heap _ _ Hi false); by exists e).
    destruct (heap_remove_out false (timers L) (mem L) (S false) x) as (h & Hr & Ho);
      [apply (v_heap _ _ Hi false)|done|lia|].
    exists h, (S false ∖ {[x]}). rewrite heap_remove_timer_eq. simpl. rewrite Hr. simpl.
    assert (Z.of_nat (size (S false ∖ {[x]})) = Z.of_nat (size (S false)) - 1) as Hsz.
    { rewrite size_difference, size_singleton by set_solver.
      assert (size (S false) <> 0%nat) by (intros E0; apply size_empty_inv in E0; set_solver). lia. }
    split_and!; [|done|lia]. rewrite Hsz. do 2 f_equal. replace (_ - 1 + _ + 1) with (ntimers L) by lia.
    by destruct L.
Qed.

Section Reset.
Context (clock : nat -> reading).

(** Whether it waits in a pending list or not, a timeout that is reset is back in its
    heap, active and not pending; nothing else changes. *)
Lemma htimer_reset_inv L S x e ms : Inv L S -> mem L !! x = Some e -> 0 <= ms < 2 ^ 32 ->
  event_type e = HEVENT_TYPE_TIMEOUT -> ntimers L + 1 < 2 ^ 31 ->
  exists L' S' e', htimer_reset L x ms = Some L' /\ Inv L' S' /\ mem L' = <[x := e']> (mem L) /\
    pendings L' = pendings L /\ self L' = self L /\
    event_type e' = HEVENT_TYPE_TIMEOUT /\ active e' = true /\ pending e' = false /\ destroy e' = false.
Proof.
  intros Hi Hx Hms Ht Hb. unfold htimer_reset. rewrite (own_eq L S x e Hi Hx). cbn [mbind option_bind].
  unfold is_timeout. rewrite bool_decide_true by done. cbn [negb].
  destruct (reset_out L S x e Hi Hx Ht Hb) as (h & X & -> & Hout & HbX). cbn [mbind option_bind].
  set (L1 := L.[timers := h].[ntimers := _]).
  rewrite (upd_ev_eq L1 x _ e) by done. cbn [mbind option_bind].
  match goal with |- context [L1.[mem := <[x := ?q]> _]] => set (e1 := q) end.
  assert (event_type e1 = HEVENT_TYPE_TIMEOUT /\ 0 < timeout e1 < 2 ^ 32 /\ priority e1 = priority e /\
    ev_loop e1 = ev_loop e /\ 0 <= next_timeout e1) as (Ht1 & Hto1 & Hp1 & Hl1 & Hn1).
  { destruct (v_mem _ _ Hi) as [He _]. destruct (He x e Hx) as (? & ? & Hto & _).
    subst e1. destruct (repeat e =? 0), (Z.ltb_spec 0 ms); simpl; split_and!; try done; try lia; auto;
      apply deadline_nonneg || by apply Hto. }
  clearbody e1. set (e2 := e1.[destroy := false].[active := true].[pending := false]).
  destruct (heap_out_insert false h (<[x := e1]> (mem L)) X x e1 e2) as (h2 & Hins & Hpart);
    [by apply heap_out_upd|apply lookup_insert_eq|lia|done|done|done|].
  rewrite heap_insert_timer_eq. simpl. rewrite Hins. cbn [mbind option_bind].
  unfold EVENT_RESET. rewrite (upd_ev_eq _ x _ e1) by (simpl; apply lookup_insert_eq). cbn [mbind option_bind].
  unfold EVENT_ACTIVE, own. simpl. rewrite !lookup_insert_eq. simpl.
  destruct (v_mem _ _ Hi) as [He Hbr]. destruct (He x e Hx) as (Hl & [Hpr Hpd] & _).
  rewrite bool_decide_true by (by rewrite Hl1). simpl. rewrite insert_insert_eq.
  rewrite insert_insert_eq in Hpart.
  assert (exists L', (L0 ← (if active e1 then Some (L1.[mem := <[x := e1]> (mem L)].[timers := h2]
             .[mem := <[x := e1.[destroy := false]]> (mem L)])
      else L0 ← upd_ev (L1.[mem := <[x := e1]> (mem L)].[timers := h2]
             .[mem := <[x := e1.[destroy := false]]> (mem L)]) x (fun e => e.[active := true]);
           Some (L0.[nactives := u32 (nactives L0 + 1)]));
      upd_ev L0 x (fun e => e.[pending := false])) = Some L' /\
     mem L' = <[x := e2]> (mem L) /\ timers L' = h2 /\ realtimers L' = realtimers L /\
     self L' = self L /\ brk L' = brk L /\
     ntimers L' = Z.of_nat (size X) + Z.of_nat (size (S true)) + 1 /\
     (idles L', nidles L', ios L', signals L', custom_events L', pendings L', epfd L', epoll_size L')
     = (idles L, nidles L, ios L, signals L, custom_events L, pendings L, epfd L, epoll_size L)) as (L' & HL' & M1 & M2 & M3 & M4 & M5 & M6 & M7).
  { destruct (active e1) eqn:Ea.
    - cbn [mbind option_bind]. unfold upd_ev. simpl. rewrite lookup_insert_eq. simpl.
      eexists. split; [done|]. simpl. rewrite insert_insert_eq. split_and!; try done.
      f_equal. subst e2. destruct e1; simpl in *; by subst.
    - unfold upd_ev. simpl. rewrite lookup_insert_eq. simpl. rewrite insert_insert_eq, lookup_insert_eq. simpl.
      eexists. split; [done|]. simpl. by rewrite !insert_insert_eq. }
  pose proof M7 as [= _ _ _ _ _ Mp _ _].
  exists L', (put_set S false ({[x]} ∪ X)), e2. split; [exact HL'|]. split; [|by split_and!].
  - apply (Inv_timer false L L' S x e2 h2); try done.
    + lia.
    + rewrite M5. apply Hbr. eauto.
    + intros e0 He0. simplify_eq. done.
    + split_and!; simpl; [by rewrite Hl1|lia|lia|by rewrite Ht1|intros _; done|congruence|intros [|]; congruence|congruence].
    + by rewrite M1.
    + simpl. rewrite M3. apply (v_heap _ _ Hi true).
    + rewrite M6. destruct (v_count _ _ Hi) as [Hc Hc']. destruct Hout as (Hnx & _). split.
      * unfold put_set. simpl. rewrite size_union, size_singleton by set_solver. lia.
      * lia.
Qed.

Lemma htimer_reset_ok L S x e ms : Inv L S -> mem L !! x = Some e -> 0 <= ms < 2 ^ 32 ->
  (event_type e = HEVENT_TYPE_TIMEOUT -> pending e = false) -> ntimers L + 1 < 2 ^ 31 ->
  exists L' S', htimer_reset L x ms = Some L' /\ Inv L' S' /\ keeps L L'.
Proof.
  intros Hi Hx Hms Hp Hb. destruct (decide (event_type e = HEVENT_TYPE_TIMEOUT)) as [Ht|Ht].
  - destruct (htimer_reset_inv L S x e ms Hi Hx Hms Ht Hb) as (L' & S' & e' & E & Hi' & Em & Ep & Es & _ & _ & Hp' & _).
    exists L', S'. split_and!; [done|done|]. split_and!; [done|done|..]; rewrite Em.
    + intros y e0 Hy Hg. assert (y <> x) as Hne.
      { intros ->. simplify_eq. destruct Hg as [Hg|Hg]; rewrite ?Hp in Hg by done; congruence. }
      exists e0. by rewrite lookup_insert_ne.
    + intros y e0. rewrite lookup_insert_Some. intros [[<- <-]|[_ Hy]] ?; [congruence|eauto].
  - exists L, S. split_and!; [|done|apply keeps_refl].
    unfold htimer_reset. rewrite (own_eq L S x e Hi Hx). cbn [mbind option_bind].
    unfold is_timeout. by rewrite bool_decide_false.
Qed.
End Reset.

(** * Idles and signals *)

(** An event of a type other than a timer, new or known, changes. *)
Lemma Inv_other t L L' S x e' : Inv L S -> (forall rt, t <> ty rt) ->
  self L' = self L -> brk L <= brk L' -> x < brk L' ->
  (forall e, mem L !! x = Some e -> event_type e = t) ->
  mem L' = <[x := e']> (mem L) -> event_type e' = t -> event_ok (self L) e' ->
  (timers L', realtimers L', ntimers L', custom_events L', pendings L')
  = (timers L, realtimers L, ntimers L, custom_events L, pendings L) ->
  (if decide (t = HEVENT_TYPE_IDLE) then idle_part (idles L') (nidles L') (mem L')
   else idles L' = idles L /\ nidles L' = nidles L) ->
  (if decide (t = HEVENT_TYPE_IO)
   then io_part (ios L') (mem L') /\ watch_part (epfd L') (epoll_size L') (mem L')
   else ios L' = ios L /\ epfd L' = epfd L /\ epoll_size L' = epoll_size L) ->
  (if decide (t = HEVENT_TYPE_SIGNAL) then sig_part (signals L') (mem L') else signals L' = signals L) ->
  Inv L' S.
Proof.
  intros Hi Hnt Es Eb Hb Hold Em Ht Hok [= E1 E2 E3 E4 E5] Hid Hio Hsig.
  assert (forall t', t' <> t -> same_view t' (mem L) (mem L')) as Hv.
  { intros t' Hne. rewrite Em. apply same_view_other; [|congruence].
    intros e He. rewrite (Hold e He). congruence. }
  destruct Hi. split; rewrite ?E3, ?E4, ?E5; try done.
  - intros rt. replace (heap_of rt L') with (heap_of rt L) by by destruct rt.
    eapply heap_part_view; [apply Hv|apply v_heap0]. intros E. by apply (Hnt rt).
  - rewrite Em, Es. apply mem_part_insert; [|done|done]. by eapply mem_part_brk.
  - destruct (decide (t = HEVENT_TYPE_IDLE)); [done|]. destruct Hid as [-> ->].
    eapply idle_part_view; [apply Hv|done]. congruence.
  - destruct (decide (t = HEVENT_TYPE_IO)); [by destruct Hio|]. destruct Hio as [-> _].
    eapply io_part_view; [apply Hv|done]. congruence.
  - destruct (decide (t = HEVENT_TYPE_SIGNAL)); [done|]. rewrite Hsig.
    eapply sig_part_view; [apply Hv|done]. congruence.
  - destruct (decide (t = HEVENT_TYPE_IO)); [by destruct Hio|]. destruct Hio as (_ & -> & ->).
    eapply watch_part_view; [apply Hv|done]. congruence.
Qed.

Lemma hidle_add_ok L S c rep : Inv L S -> nidles L + 1 < 2 ^ 31 ->
  exists L' x, hidle_add L c rep = Some (L', x) /\ Inv L' S /\ keeps L L'.
Proof.
  intros Hi Hb. unfold hidle_add, alloc. cbv beta iota zeta.
  pose proof (brk_fresh L S Hi) as Hfr. set (x := brk L) in *.
  match goal with |- context [<[x := ?q]> (mem L)] => set (e0 := q) end.
  rewrite (EVENT_ADD_eq _ x c e0) by (simpl; rewrite ?lookup_insert_eq; done).
  cbn [mbind option_bind]. simpl. rewrite insert_insert_eq.
  match goal with |- context [<[x := ?q]> (mem L)] => set (e1 := q) end.
  eexists _, x. split; [done|]. split.
  - destruct (v_idle _ _ Hi) as (Hnd & Hids & Hn & Hn').
    assert (x ∉ idles L) as Hx by (rewrite Hids; intros (? & ? & _); congruence).
    apply (Inv_other HEVENT_TYPE_IDLE L _ S x e1); try done; simpl; try lia.
    + intros []; done.
    + intros e He. congruence.
    + split_and!.
      * by apply NoDup_cons.
      * intros y. rewrite elem_of_cons. destruct (decide (y = x)) as [->|].
        -- rewrite live_insert. split; [done|]. by left.
        -- rewrite live_insert_ne, <- Hids by done. naive_solver.
      * rewrite zlen_cons, u32_small; [lia|]. pose proof (zlen_nonneg (idles L)). lia.
      * rewrite u32_small; [lia|]. pose proof (zlen_nonneg (idles L)). lia.
  - by apply (keeps_fresh _ _ x e1).
Qed.

Lemma __hidle_del_ok L S x e : Inv L S -> mem L !! x = Some e -> event_type e = HEVENT_TYPE_IDLE ->
  exists L', __hidle_del L x = Some L' /\ Inv L' S /\ keeps L L' /\
    mem L' = <[x := e.[destroy := true]]> (mem L) /\ x ∉ idles L' /\ signals L' = signals L /\
    outside L' = outside L.
Proof.
  intros Hi Hx Ht. unfold __hidle_del. rewrite (own_eq L S x e Hi Hx). cbn [mbind option_bind].
  destruct (v_idle _ _ Hi) as (Hnd & Hids & Hn & Hn').
  destruct (destroy e) eqn:Ed.
  - exists L. split_and!; try done; [apply keeps_refl| |].
    + rewrite insert_id; [done|]. rewrite Hx. f_equal. destruct e; simpl in *; by subst.
    + rewrite Hids. intros (e0 & ? & _ & ?). congruence.
  - rewrite (upd_ev_eq _ x _ e) by done. cbn [mbind option_bind].
    assert (x ∈ idles L) as Hin by (apply Hids; by exists e).
    eexists. split; [done|]. split_and!; simpl; try done.
    + destruct (v_mem _ _ Hi) as [He Hbr].
      apply (Inv_other HEVENT_TYPE_IDLE L _ S x (e.[destroy := true])); try done; simpl; try lia; eauto.
      * intros []; done.
      * intros e0 He0. congruence.
      * apply event_ok_destroy; [eauto|congruence..].
      * pose proof (length_filter_ne x (idles L) Hnd Hin) as Hlen.
        pose proof (zlen_nonneg (filter (fun y => y <> x) (idles L))).
        split_and!.
        -- by apply NoDup_filter.
        -- intros y. rewrite list_elem_of_filter, Hids. destruct (decide (y = x)) as [->|].
           ++ rewrite live_insert. simpl. naive_solver.
           ++ rewrite live_insert_ne by done. naive_solver.
        -- rewrite u32_small; lia.
        -- rewrite u32_small; lia.
    + apply (keeps_trans _ (L.[mem := <[x := e.[destroy := true]]> (mem L)])); [by eapply keeps_upd|by apply keeps_core].
    + rewrite list_elem_of_filter. naive_solver.
Qed.

Lemma hidle_del_ok L S x e : Inv L S -> mem L !! x = Some e -> event_type e = HEVENT_TYPE_IDLE ->
  exists L', hidle_del L x = Some L' /\ Inv L' S /\ keeps L L'.
Proof.
  intros Hi Hx Ht. unfold hidle_del. rewrite (own_eq L S x e Hi Hx). cbn [mbind option_bind].
  destruct (negb (active e)). { exists L. split_and!; [done|done|apply keeps_refl]. }
  destruct (__hidle_del_ok L S x e Hi Hx Ht) as (L1 & -> & Hi1 & Hk1 & Em & Hid & Esg & _).
  cbn [mbind option_bind].
  assert (mem L1 !! x = Some (e.[destroy := true])) as Hx1 by by rewrite Em, lookup_insert_eq.
  destruct (EVENT_DEL_ok L1 S x _ Hi1 Hx1) as (L2 & -> & Hi2 & Hk2 & _).
  - simpl. congruence.
  - eapply not_timer; [done..|]. simpl. rewrite Ht. by intros [].
  - done.
  - eapply not_signal; [done..|]. simpl. congruence.
  - exists L2. split_and!; [done|done|by eapply keeps_trans].
Qed.

Lemma EVENT_ACTIVE_ok L S x e : Inv L S -> mem L !! x = Some e ->
  exists L', EVENT_ACTIVE L x = Some L' /\ Inv L' S /\ keeps L L'.
Proof.
  intros Hi Hx. rewrite (EVENT_ACTIVE_eq L S x e) by done. eexists. split; [done|].
  destruct (active e); split; try done; [apply keeps_refl|..].
  - apply (Inv_core (L.[mem := <[x := e.[active := true]]> (mem L)])); [done|].
    by eapply Inv_upd_same.
  - apply (keeps_trans _ (L.[mem := <[x := e.[active := true]]> (mem L)])); [|by apply keeps_core].
    by eapply keeps_upd.
Qed.

Lemma zget_lookup {A} (l : list A) i x : zget l i = Some x -> 0 <= i < zlen l /\ l !! Z.to_nat i = Some x.
Proof.
  intros E. destruct (decide (0 <= i < zlen l)) as [Hi|]; [|by rewrite zget_None in E].
  by rewrite zget_Some in E.
Qed.

Lemma zset_lookup {A} (l l' : list A) i v : zset l i v = Some l' ->
  0 <= i < zlen l /\ l' = <[Z.to_nat i := v]> l.
Proof.
  unfold zset. destruct ((0 <=? i) && (i <? zlen l)) eqn:E; [|done].
  apply andb_true_iff in E as [E1%Z.leb_le E2%Z.ltb_lt]. intros [= <-]. done.
Qed.

Lemma zset_some {A} (l : list A) i v : 0 <= i < zlen l -> zset l i v = Some (<[Z.to_nat i := v]> l).
Proof. intros. unfold zset. by zcases. Qed.

(** A table of pointers with one entry changed. *)
Lemma table_insert (tbl : list (option ptr)) i v n x :
  <[i := v]> tbl !! n = Some (Some x) -> (n = i /\ v = Some x) \/ tbl !! n = Some (Some x).
Proof. rewrite list_lookup_insert_Some. intros [(-> & -> & _)|[_ E]]; auto. Qed.

Lemma hsignal_add_ok L S c signo : Inv L S ->
  exists L' r, hsignal_add L c signo = Some (L', r) /\ Inv L' S /\ keeps L L'.
Proof.
  intros Hi. pose proof (v_sig _ _ Hi) as [Hsz _]. unfold hsignal_add.
  destruct ((signo <=? 0) || (MAX_SIGNO <=? signo)) eqn:Eg.
  { exists L, None. split_and!; [done|done|apply keeps_refl]. }
  apply orb_false_iff in Eg as [E1%Z.leb_gt E2%Z.leb_gt].
  set (L0 := if zlen (signals L) =? 0 then _ else L).
  assert (Inv L0 S /\ keeps L L0 /\ zlen (signals L0) = MAX_SIGNO) as (Hi0 & Hk0 & Hn0).
  { subst L0. destruct Hsz as [E|E]; rewrite E; cbn [Z.eqb zlen length Z.of_nat].
    - split_and!; [|by apply keeps_core|done]. destruct Hi. split; simpl; try done.
      split; [by right|]. intros n x Hn. apply (lookup_replicate 65) in Hn as [[=] _].
    - split_and!; [done|apply keeps_refl|done]. }
  clearbody L0. destruct (zget_is_Some (signals L0) signo) as [sig Hsig]; [rewrite Hn0; lia|].
  rewrite Hsig. cbn [mbind option_bind]. apply zget_lookup in Hsig as [Hr Hsig].
  destruct sig as [x|]; cbn [mbind option_bind].
  - destruct (proj2 (v_sig _ _ Hi0) _ _ Hsig) as (e & Hx & Ht & _).
    rewrite (EVENT_ACTIVE_eq L0 S x e) by done. cbn [mbind option_bind].
    eexists _, (Some x). split; [done|]. destruct (active e); split_and!; simpl; auto.
    + apply (Inv_core (L0.[mem := <[x := e.[active := true]]> (mem L0)])); [done|]. by eapply Inv_upd_same.
    + apply (keeps_trans _ L0); [done|].
      apply (keeps_trans _ (L0.[mem := <[x := e.[active := true]]> (mem L0)])); [|by apply keeps_core].
      by eapply keeps_upd.
  - unfold alloc. cbv beta iota zeta. pose proof (brk_fresh L0 S Hi0) as Hfr. set (x := brk L0) in *.
    match goal with |- context [<[x := ?q]> (mem L0)] => set (e0 := q) end.
    cbn [signals over]. rewrite zset_some by done. cbn [mbind option_bind].
    match goal with |- context [EVENT_ACTIVE ?l x] => set (L1 := l) end.
    assert (Inv L1 S) as Hi1.
    { apply (Inv_other HEVENT_TYPE_SIGNAL L0 L1 S x e0); try done; simpl; try lia.
      - intros []; done.
      - intros e He. congruence.
      - split_and!; simpl; [done|done|done|done|done|lia|done|done].
      - split; [right; unfold zlen; by rewrite length_insert|].
        intros n y Hn. destruct (table_insert _ _ _ _ _ Hn) as [[-> [= <-]]|Hn'].
        + exists e0. rewrite lookup_insert_eq. split_and!; [done|done|]. simpl. lia.
        + destruct (proj2 (v_sig _ _ Hi0) n y Hn') as (e & ? & ? & ?). exists e.
          rewrite lookup_insert_ne; [done|congruence]. }
    assert (mem L1 !! x = Some e0) as Hx1 by apply lookup_insert_eq.
    rewrite (EVENT_ACTIVE_eq L1 S x e0) by done. cbn [mbind option_bind active e0].
    eexists _, (Some x). split; [done|]. simpl. split_and!.
    + apply (Inv_core (L1.[mem := <[x := e0.[active := true]]> (mem L1)])); [done|]. by eapply Inv_upd_same.
    + apply (keeps_trans _ L0); [done|]. apply (keeps_fresh _ _ x (e0.[active := true])); try done.
      simpl. by rewrite insert_insert_eq.
Qed.

Lemma hsignal_del_ok L S x e : Inv L S -> mem L !! x = Some e -> event_type e = HEVENT_TYPE_SIGNAL ->
  exists L', hsignal_del L x = Some L' /\ Inv L' S /\ keeps L L'.
Proof.
  intros Hi Hx Ht. unfold hsignal_del. rewrite (own_eq L S x e Hi Hx). cbn [mbind option_bind].
  destruct (negb (active e)). { exists L. split_and!; [done|done|apply keeps_refl]. }
  destruct (Z.leb_spec (zlen (signals L)) (event_id e)) as [Hle|Hlt].
  { exists L. split_and!; [done|done|apply keeps_refl]. }
  destruct (v_mem _ _ Hi) as [He _]. destruct (He x e Hx) as (_ & _ & _ & Hid & _). specialize (Hid Ht).
  rewrite zset_some by lia. cbn [mbind option_bind].
  set (L1 := L.[signals := _].[nsignals := _]).
  assert (Inv L1 S) as Hi1.
  { destruct Hi. split; simpl; try done. destruct v_sig0 as [Hsz Hs]. split.
    - right. unfold zlen. rewrite length_insert. destruct Hsz as [E|E]; [|done].
      rewrite E in Hlt. change (zlen []) with 0 in Hlt. lia.
    - intros n y Hn. destruct (table_insert _ _ _ _ _ Hn) as [[_ [=]]|Hn']. auto. }
  destruct (EVENT_DEL_ok L1 S x e Hi1) as (L2 & -> & Hi2 & Hk2 & _); [done|congruence| | | |].
  - eapply not_timer; [done..|]. rewrite Ht. by intros [].
  - eapply not_idle; [done..|]. congruence.
  - intros n Hn. simpl in Hn. apply list_lookup_insert_Some in Hn as [(_ & [=] & _)|[Hne Hn]].
    destruct (proj2 (v_sig _ _ Hi) n x Hn) as (e0 & ? & _ & E). simplify_eq. lia.
  - exists L2. split_and!; [done|done|]. apply (keeps_trans _ L1); [by apply keeps_core|done].
Qed.

(** * Ios *)

Lemma io_part_upd tbl m x e e' : io_part tbl m -> m !! x = Some e ->
  event_type e = HEVENT_TYPE_IO -> event_type e' = HEVENT_TYPE_IO -> fd e' = fd e ->
  io_part tbl (<[x := e']> m).
Proof.
  intros [H1 H2] Hx Ht Ht' Hf. split.
  - intros n y Hn. destruct (H1 n y Hn) as (e0 & Hy & ? & ?).
    destruct (decide (y = x)) as [->|]; simplify_eq.
    + exists e'. rewrite lookup_insert_eq. split_and!; congruence.
    + exists e0. by rewrite lookup_insert_ne.
  - intros y e0. rewrite lookup_insert_Some. intros [[<- <-]|[_ Hy]] Hty; [rewrite Hf|]; eauto.
Qed.

(** An io keeps what the table and the pending lists rely on. *)
Definition io_kept (e e' : hevent) : Prop :=
  event_type e' = HEVENT_TYPE_IO /\ fd e' = fd e /\ ev_loop e' = ev_loop e /\ destroy e' = destroy e /\
  -5 <= priority e' <= 5 /\ pending_next e' = pending_next e /\ (pending e' = true -> pending e = true).
(** It also watches for the same events. *)
Definition same_io (e e' : hevent) : Prop :=
  io_kept e e' /\ events e' = events e /\ (ready e = true -> ready e' = true).

Lemma watch_part_upd tbl k k' sz sz' m x e e' : watch_part k sz m -> io_part tbl m ->
  m !! x = Some e -> event_type e = HEVENT_TYPE_IO -> io_kept e e' ->
  ep_interest k' (fd e) = interest e' ->
  (forall n, n <> fd e -> ep_interest k' n = ep_interest k n) ->
  (sz' = None -> forall n, ep_interest k' n = None) ->
  watch_part k' sz' (<[x := e']> m).
Proof.
  intros (H1 & H2 & _) [_ Ht] Hx Hty (Hty' & Hf & _) Hk Hfr Hsz. split_and!; [| |done].
  - intros y e0. rewrite lookup_insert_Some. intros [[<- <-]|[Hne Hy]] Ht0; [by rewrite Hf|].
    rewrite Hfr; [eauto|]. intros E. pose proof (Ht y e0 Hy Ht0) as A. pose proof (Ht x e Hx Hty) as B.
    rewrite E in A. congruence.
  - intros n Hn. destruct (decide (n = fd e)) as [->|Hne].
    + exists x, e'. by rewrite lookup_insert_eq.
    + rewrite Hfr in Hn by done. destruct (H2 n Hn) as (y & e0 & Hy & ? & ?). exists y, e0.
      rewrite lookup_insert_ne; [done|congruence].
Qed.

Lemma Inv_io_change L L' S x e e' : Inv L S -> mem L !! x = Some e -> event_type e = HEVENT_TYPE_IO ->
  io_kept e e' -> rw_mask (events e') -> (ready e' = false -> events e' = 0) ->
  mem L' = <[x := e']> (mem L) ->
  (self L', brk L', timers L', realtimers L', ntimers L', idles L', nidles L', ios L', signals L',
   custom_events L', pendings L')
  = (self L, brk L, timers L, realtimers L, ntimers L, idles L, nidles L, ios L, signals L,
     custom_events L, pendings L) ->
  ep_interest (epfd L') (fd e) = interest e' ->
  (forall n, n <> fd e -> ep_interest (epfd L') n = ep_interest (epfd L) n) ->
  (epoll_size L' = None -> forall n, ep_interest (epfd L') n = None) ->
  Inv L' S /\ keeps L L'.
Proof.
  intros Hi Hx Ht Hkept Hrw Hrd Em [= E1 E2 E3 E4 E5 E6 E7 E8 E9 E10 E11] Hk Hfr Hsz.
  pose proof Hkept as (Ht' & Hf & Hl & Hde & Hp & Hn & Hpe). destruct (v_mem _ _ Hi) as [He Hb]. split.
  - apply (Inv_other HEVENT_TYPE_IO L _ S x e'); try done; try lia; eauto.
    + by intros [].
    + rewrite E2. eauto.
    + intros e0 He0. congruence.
    + destruct (He x e Hx) as (? & _ & _ & _ & Hd & _). split_and!; try done; try lia; try congruence.
      intros _. rewrite Hde. auto.
    + by rewrite E3, E4, E5, E10, E11.
    + rewrite decide_True by done. rewrite Em, E8. split.
      * eapply io_part_upd; eauto. apply (v_io _ _ Hi).
      * eapply watch_part_upd; eauto; [apply (v_watch _ _ Hi)|apply (v_io _ _ Hi)].
  - split_and!; [done|done|..]; rewrite Em.
    + intros y e0 Hy Hg. destruct (decide (y = x)) as [->|]; simplify_eq.
      * exists e'. rewrite lookup_insert_eq. split_and!; [done|by right|done].
      * exists e0. by rewrite lookup_insert_ne.
    + intros y e0. rewrite lookup_insert_Some. intros [[<- <-]|[_ Hy]] ?; eauto.
Qed.

Lemma Inv_io_upd L S x e e' : Inv L S -> mem L !! x = Some e -> event_type e = HEVENT_TYPE_IO ->
  same_io e e' ->
  Inv (L.[mem := <[x := e']> (mem L)]) S /\ keeps L (L.[mem := <[x := e']> (mem L)]).
Proof.
  intros Hi Hx Ht (Hkept & Hev & Hrd). destruct (v_mem _ _ Hi) as [He _].
  destruct (He x e Hx) as (_ & _ & _ & _ & _ & Hio). destruct (Hio Ht) as [Hrw Hrd0].
  destruct (v_watch _ _ Hi) as (Hw & _ & Hn).
  apply (Inv_io_change L _ S x e e'); try done.
  - by rewrite Hev.
  - rewrite Hev. intros E. apply Hrd0. destruct (ready e); [by rewrite Hrd in E|done].
  - simpl. unfold interest. rewrite Hev. by apply Hw in Hx.
Qed.

Lemma io_priority L S x e : Inv L S -> mem L !! x = Some e -> -5 <= priority e <= 5.
Proof. intros Hi Hx. destruct (v_mem _ _ Hi) as [He _]. by destruct (He x e Hx) as (_ & [? _] & _). Qed.

(** The table grows to a size above the fd. *)
Lemma __hio_get_ok L S n : Inv L S -> 0 <= n < 2 ^ 30 ->
  exists L' o, __hio_get L n = Some (L', o) /\ Inv L' S /\ mem L' = mem L /\ keeps L L' /\
    brk L' = brk L /\ self L' = self L /\ zget (ios L') n = Some o.
Proof.
  intros Hi Hn. unfold __hio_get.
  assert (exists L', (if zlen (ios L) <=? n then
         c ← ceil2e n;
         tbl ← hv_realloc None (ios L)
            (if n <? Z.max (i32 c) IO_ARRAY_INIT_SIZE then Z.max (i32 c) IO_ARRAY_INIT_SIZE else i32 (2 * n));
         Some (L.[ios := tbl])
       else Some L) = Some L' /\ Inv L' S /\ mem L' = mem L /\ keeps L L' /\
       brk L' = brk L /\ self L' = self L /\ n < zlen (ios L')) as (L1 & -> & Hi1 & Em & Hk & Eb & Es & Hlt).
  { destruct (Z.leb_spec (zlen (ios L)) n) as [Hle|]; [|exists L; split_and!; [done|done|done|apply keeps_refl|done|done|lia]].
    assert (exists c, ceil2e n = Some c /\ 0 < c <= 2 ^ 30) as (c & -> & Hc).
    { destruct (decide (n <= 1)).
      - exists 1. split; [|lia]. unfold ceil2e. by assert (n = 0 \/ n = 1) as [-> | ->] by lia.
      - exists (2 ^ Z.log2_up n). rewrite HMath.ceil2e_pow2 by lia. split; [done|]. split.
        + apply Z.pow_pos_nonneg; [lia|apply Z.log2_up_nonneg].
        + apply Z.pow_le_mono_r; [lia|]. apply Z.log2_up_le_pow2; lia. }
    cbn [mbind option_bind]. rewrite (i32_small c) by lia. rewrite i32_small by lia.
    unfold IO_ARRAY_INIT_SIZE. pose proof (zlen_nonneg (ios L)).
    set (k := if n <? Z.max c 1024 then Z.max c 1024 else 2 * n).
    assert (n < k) as Hk by (subst k; destruct (Z.ltb_spec n (Z.max c 1024)); lia).
    rewrite hv_realloc_grow by lia. cbn [mbind option_bind]. eexists. split; [done|]. simpl.
    split_and!; try done.
    - destruct Hi. split; simpl; try done. destruct v_io0 as [H1 H2]. split.
      + intros i y Hy. apply lookup_app_Some in Hy as [Hy|[_ Hy]]; [eauto|].
        by apply lookup_replicate in Hy as [[=] _].
      + intros y e Hy Ht. specialize (H2 y e Hy Ht). apply zget_lookup in H2 as [Hr Hl].
        rewrite zget_Some by (rewrite zlen_app; pose proof (zlen_nonneg (replicate (Z.to_nat (k - zlen (ios L))) (@None Z))); lia).
        rewrite lookup_app_l; [done|]. unfold zlen in Hr. lia.
    - by apply keeps_core.
    - rewrite zlen_app, zlen_replicate. lia. }
  cbn [mbind option_bind]. destruct (zget_is_Some (ios L1) n) as [o Ho]; [lia|]. rewrite Ho.
  cbn [mbind option_bind]. exists L1, o. done.
Qed.

Lemma hio_ready_same L S x e : Inv L S -> mem L !! x = Some e -> event_type e = HEVENT_TYPE_IO ->
  same_io e (hio_ready_ev e).
Proof.
  intros Hi Hx Ht. pose proof (io_priority L S x e Hi Hx). destruct (v_mem _ _ Hi) as [He _].
  destruct (He x e Hx) as (_ & _ & _ & _ & _ & Hio). destruct (Hio Ht) as [_ Hrd].
  unfold hio_ready_ev, same_io, io_kept. destruct (ready e) eqn:E; [done|]. simpl. by rewrite Hrd.
Qed.

Lemma hio_get_ok L S n : Inv L S -> 0 <= n < 2 ^ 30 ->
  exists L' x e, hio_get L n = Some (L', x) /\ Inv L' S /\ keeps L L' /\
    mem L' !! x = Some e /\ event_type e = HEVENT_TYPE_IO.
Proof.
  intros Hi Hn. unfold hio_get.
  destruct (__hio_get_ok L S n Hi Hn) as (L1 & o & -> & Hi1 & Em & Hk & Eb & Es & Ho). cbn [mbind option_bind].
  assert (exists L2 x e, match o with
    | Some x => Some (L1, x)
    | None =>
        let '(L, x) := alloc L1
          (null_event.[event_type := HEVENT_TYPE_IO].[ev_loop := Some (self L1)].[fd := n]) in
        tbl ← zset (ios L) n (Some x);
        Some (L.[ios := tbl], x)
    end = Some (L2, x) /\ Inv L2 S /\ keeps L L2 /\ mem L2 !! x = Some e /\ event_type e = HEVENT_TYPE_IO)
    as (L2 & x & e & -> & Hi2 & Hk2 & Hx & Ht).
  { pose proof (v_io _ _ Hi1) as [H1 H2]. apply zget_lookup in Ho as [Hr Ho]. destruct o as [x|].
    - destruct (H1 _ _ Ho) as (e & Hx & Ht & Hf). exists L1, x, e. done.
    - unfold alloc. cbv beta iota zeta. pose proof (brk_fresh L1 S Hi1) as Hfr. set (x := brk L1) in *.
      match goal with |- context [<[x := ?q]> (mem L1)] => set (e0 := q) end.
      cbn [ios over]. rewrite zset_some by done. cbn [mbind option_bind].
      eexists _, x, e0. split; [done|]. split_and!.
      + apply (Inv_other HEVENT_TYPE_IO L1 _ S x e0); try done; simpl; try lia.
        * by intros [].
        * intros e He. congruence.
        * split_and!; simpl; try done. intros _. split; [by left|done].
        * split; [split|].
          -- intros i y Hy. destruct (table_insert _ _ _ _ _ Hy) as [[-> [= <-]]|Hy'].
             ++ exists e0. rewrite lookup_insert_eq. split_and!; [done|done|]. simpl. lia.
             ++ destruct (H1 i y Hy') as (e & ? & ? & ?). exists e. rewrite lookup_insert_ne; [done|congruence].
          -- intros y e. rewrite lookup_insert_Some. intros [[<- <-]|[Hne Hy]] Hty.
             ++ simpl. rewrite zget_Some by (unfold zlen in *; rewrite length_insert; lia).
                rewrite list_lookup_insert_eq; [done|]. unfold zlen in Hr. lia.
             ++ specialize (H2 y e Hy Hty). apply zget_lookup in H2 as [Hr2 Hl2].
                rewrite zget_Some by (unfold zlen in *; rewrite length_insert; lia).
                rewrite list_lookup_insert_ne; [done|]. intros E. rewrite E in Ho. congruence.
          -- destruct (v_watch _ _ Hi1) as (W1 & W2 & W3). split_and!; [| |done].
             ++ intros y e. rewrite lookup_insert_Some. intros [[<- <-]|[Hne Hy]] Hty; [|eauto]. simpl.
                destruct (ep_interest (epfd L1) n) eqn:Ek; [|done].
                destruct (W2 n) as (y & e & Hy & Hty' & <-); [congruence|].
                specialize (H2 y e Hy Hty'). apply zget_lookup in H2 as [_ H2]. congruence.
             ++ intros i Hk'. destruct (W2 i Hk') as (y & e & Hy & ? & ?). exists y, e.
                rewrite lookup_insert_ne; [done|congruence].
      + apply (keeps_trans _ L1); [done|]. by apply (keeps_fresh _ _ x e0).
      + apply lookup_insert_eq.
      + done. }
  cbn [mbind option_bind]. rewrite (upd_ev_eq L2 x _ e Hx). cbn [mbind option_bind].
  destruct (Inv_io_upd L2 S x e (hio_ready_ev e)) as [Hi3 Hk3]; [done..| |].
  { by eapply hio_ready_same. }
  eexists _, x, (hio_ready_ev e). split; [done|]. split_and!; [done|by eapply keeps_trans|apply lookup_insert_eq|].
  unfold hio_ready_ev. by destruct (ready e).
Qed.

(** epoll_ctl leaves the fd watched for what the io asks for. *)
Lemma iowatcher_add_event_ok L S x e evs : Inv L S -> mem L !! x = Some e ->
  event_type e = HEVENT_TYPE_IO -> rw_mask evs -> evs <> 0 ->
  exists k sz mx, iowatcher_add_event L (fd e) evs = Some (L.[epoll_maxsize := mx].[epfd := k].[epoll_size := Some sz]) /\
    ep_interest k (fd e) = Some (ep_mask (Z.lor (events e) evs)) /\
    (forall n, n <> fd e -> ep_interest k n = ep_interest (epfd L) n).
Proof.
  intros Hi Hx Ht Hevs Hne. destruct (v_io _ _ Hi) as [_ Htbl]. specialize (Htbl x e Hx Ht).
  destruct (v_mem _ _ Hi) as [He _]. destruct (He x e Hx) as (_ & _ & _ & _ & _ & Hio). destruct (Hio Ht) as [Hrw _].
  destruct (v_watch _ _ Hi) as (Hw & _ & Hnone). specialize (Hw x e Hx Ht).
  unfold iowatcher_add_event.
  assert (exists n k0 mx, iowatcher_init L = L.[epoll_maxsize := mx].[epfd := k0].[epoll_size := Some n] /\
     (forall i, ep_interest k0 i = ep_interest (epfd L) i)) as (n & k0 & mx & -> & Hk0).
  { unfold iowatcher_init. destruct (epoll_size L) as [n|] eqn:En.
    - exists n, (epfd L), (epoll_maxsize L). split; [|done]. destruct L; simpl in *; by subst.
    - exists 0, ep_new, EVENTS_INIT_SIZE. split; [done|]. intros i. rewrite ep_new_ok. symmetry. auto. }
  simpl. rewrite Htbl. cbn [mbind option_bind]. rewrite Hx. cbn [mbind option_bind]. cbv zeta.
  assert (Z.lor (ep_mask (events e)) (ep_mask evs) = ep_mask (Z.lor (events e) evs)) as ->
    by (destruct Hrw as [->|[->|[->| ->]]], Hevs as [->|[->|[->| ->]]]; done).
  unfold interest in Hw. rewrite <- Hk0 in Hw.
  destruct (events e =? 0); eexists _, _, _; (split; [done|]); (split; [|intros i Hi'; etransitivity; [by apply ep_frame|apply Hk0]]).
  - by apply ep_add_ok.
  - apply ep_mod_ok. congruence.
Qed.

Lemma iowatcher_del_event_ok L S x e evs : Inv L S -> mem L !! x = Some e ->
  event_type e = HEVENT_TYPE_IO -> rw_mask evs -> has_flag (events e) evs = true ->
  exists k sz, iowatcher_del_event L (fd e) evs = Some (L.[epfd := k].[epoll_size := Some sz]) /\
    ep_interest k (fd e) = (if Z.land (events e) (Z.lnot evs) =? 0 then None
                            else Some (ep_mask (Z.land (events e) (Z.lnot evs)))) /\
    (forall n, n <> fd e -> ep_interest k n = ep_interest (epfd L) n).
Proof.
  intros Hi Hx Ht Hevs Hfl. destruct (v_io _ _ Hi) as [_ Htbl]. specialize (Htbl x e Hx Ht).
  destruct (v_mem _ _ Hi) as [He _]. destruct (He x e Hx) as (_ & _ & _ & _ & _ & Hio). destruct (Hio Ht) as [Hrw _].
  destruct (v_watch _ _ Hi) as (Hw & _ & Hnone). specialize (Hw x e Hx Ht).
  assert (ep_interest (epfd L) (fd e) <> None) as Hreg.
  { rewrite Hw. unfold interest. destruct (Z.eqb_spec (events e) 0) as [E|]; [|done]. by rewrite E in Hfl. }
  unfold iowatcher_del_event. destruct (epoll_size L) as [n|] eqn:En; [|by rewrite Hnone in Hreg].
  rewrite Htbl. cbn [mbind option_bind]. rewrite Hx. cbn [mbind option_bind]. cbv zeta.
  assert (Z.land (ep_mask (events e)) (Z.lnot (ep_mask evs)) = ep_mask (Z.land (events e) (Z.lnot evs)) /\
    (ep_mask (Z.land (events e) (Z.lnot evs)) =? 0) = (Z.land (events e) (Z.lnot evs) =? 0)) as [-> ->]
    by (destruct Hrw as [->|[->|[->| ->]]], Hevs as [->|[->|[->| ->]]]; done).
  destruct (_ =? 0).
  - eexists _, _. split; [done|]. split; [by apply ep_del_ok|]. intros i Hi'. by rewrite ep_frame.
  - exists (ep_ctl (epfd L) EPOLL_CTL_MOD (fd e) (ep_mask (Z.land (events e) (Z.lnot evs)))), n.
    split; [f_equal; destruct L; simpl in *; by subst|].
    split; [by apply ep_mod_ok|]. intros i Hi'. by rewrite ep_frame.
Qed.

(** A step that leaves the core alone. *)
Lemma core_step L L' S : core L' = core L -> pendings L' = pendings L -> Inv L S ->
  Inv L' S /\ keeps L L' /\ mem L' = mem L.
Proof.
  intros Ec Ep Hi. pose proof Ec as [= E1 E2 _ _ _ _ _ _ _ _ _ _ _ _].
  split_and!; [by eapply Inv_core|by apply keeps_core|done].
Qed.

(** An update of an io, followed by what is outside the core. *)
Lemma io_step L S x e f : Inv L S -> mem L !! x = Some e -> event_type e = HEVENT_TYPE_IO ->
  same_io e (f e) ->
  exists L', upd_ev L x f = Some L' /\ Inv L' S /\ keeps L L' /\ mem L' !! x = Some (f e) /\
    event_type (f e) = HEVENT_TYPE_IO.
Proof.
  intros Hi Hx Ht Hs. rewrite (upd_ev_eq L x f e Hx). eexists. split; [done|].
  destruct (Inv_io_upd L S x e (f e)) as [? ?]; [done..|].
  split_and!; [done|done|apply lookup_insert_eq|by destruct Hs as [(? & _) _]].
Qed.

Lemma same_io_fields e e' : event_type e = HEVENT_TYPE_IO -> -5 <= priority e <= 5 ->
  event_type e' = event_type e -> fd e' = fd e -> ev_loop e' = ev_loop e -> destroy e' = destroy e ->
  priority e' = priority e -> pending_next e' = pending_next e -> (pending e' = true -> pending e = true) ->
  events e' = events e -> ready e' = ready e -> same_io e e'.
Proof. intros. unfold same_io, io_kept. split_and!; try congruence; try lia; done. Qed.

Lemma hio_add_ok L S x e c evs : Inv L S -> mem L !! x = Some e -> event_type e = HEVENT_TYPE_IO ->
  rw_mask evs -> evs <> 0 ->
  exists L' e', hio_add L x c evs = Some L' /\ Inv L' S /\ keeps L L' /\
    mem L' !! x = Some e' /\ event_type e' = HEVENT_TYPE_IO /\ has_flag (events e') evs = true.
Proof.
  intros Hi Hx Ht Hrw Hne. unfold hio_add. rewrite (own_eq L S x e Hi Hx). cbn [mbind option_bind].
  assert (exists L1 e1, (if active e then Some L
       else L ← EVENT_ADD L x c; Some (L.[nios := u32 (nios L + 1)])) = Some L1 /\ Inv L1 S /\ keeps L L1 /\
      mem L1 !! x = Some e1 /\ event_type e1 = HEVENT_TYPE_IO) as (L1 & e1 & -> & Hi1 & Hk1 & Hx1 & Ht1).
  { destruct (active e) eqn:Ea; [exists L, e; split_and!; [done|done|apply keeps_refl|done|done]|].
    rewrite (EVENT_ADD_eq L x c e) by done. cbn [mbind option_bind].
    match goal with |- context [<[x := ?q]> (mem L)] => set (e1 := q) end.
    destruct (Inv_io_upd L S x e e1) as [Hi1 Hk1]; [done..| |].
    { destruct (v_mem _ _ Hi) as [He _]. destruct (He x e Hx) as (El & [Hpr _] & _).
      by apply same_io_fields. }
    eexists _, e1. split; [done|]. split_and!; [eapply Inv_core; [|exact Hi1]; done| |apply lookup_insert_eq|done].
    eapply keeps_trans; [exact Hk1|]. by apply keeps_core. }
  cbn [mbind option_bind].
  destruct (io_step L1 S x e1 hio_ready_ev) as (L2 & -> & Hi2 & Hk2 & Hx2 & Ht2);
    [done|done|done|by eapply hio_ready_same|].
  assert (ready (hio_ready_ev e1) = true) as Hr2 by (unfold hio_ready_ev; by destruct (ready e1) eqn:?).
  cbn [mbind option_bind]. set (e2 := hio_ready_ev e1) in *. clearbody e2.
  assert (exists L3 e3, match c with None => Some L2 | Some _ => upd_ev L2 x (fun e => e.[cb := c]) end = Some L3 /\
     Inv L3 S /\ keeps L2 L3 /\ mem L3 !! x = Some e3 /\ event_type e3 = HEVENT_TYPE_IO /\ ready e3 = true)
    as (L3 & e3 & -> & Hi3 & Hk3 & Hx3 & Ht3 & Hr3).
  { destruct c as [c|]; [|exists L2, e2; split_and!; [done|done|apply keeps_refl|done|done|done]].
    destruct (io_step L2 S x e2 (fun e => e.[cb := Some c])) as (L3 & ? & ? & ? & ? & ?); [done..| |].
    { pose proof (io_priority L2 S x e2 Hi2 Hx2). by apply same_io_fields. }
    eauto 10. }
  cbn [mbind option_bind]. rewrite Hx3. cbn [mbind option_bind].
  assert (keeps L L3) as HkL3 by (eapply keeps_trans; [eapply keeps_trans|]; done).
  destruct (has_flag (events e3) evs) eqn:Hfl. { exists L3, e3. done. }
  destruct (iowatcher_add_event_ok L3 S x e3 evs) as (k & sz & mx & -> & Hk & Hfr); [done..|].
  cbn [mbind option_bind]. rewrite (upd_ev_eq _ x _ e3) by done.
  set (e4 := e3.[events := Z.lor (events e3) evs]). pose proof (io_priority L3 S x e3 Hi3 Hx3).
  destruct (v_mem _ _ Hi3) as [He _]. destruct (He x e3 Hx3) as (_ & _ & _ & _ & _ & Hio). destruct (Hio Ht3) as [Hrw3 _].
  assert (rw_mask (Z.lor (events e3) evs) /\ Z.lor (events e3) evs <> 0 /\ has_flag (Z.lor (events e3) evs) evs = true)
    as (Hm & Hnz & Hfl')
    by (unfold rw_mask; destruct Hrw3 as [->|[->|[->| ->]]], Hrw as [->|[->|[->| ->]]]; naive_solver).
  eexists _, e4. split; [done|].
  match goal with |- Inv ?L' S /\ _ => destruct (Inv_io_change L3 L' S x e3 e4) as [Hi4 Hk4]; try done end.
  - simpl. by rewrite Hr3.
  - simpl. rewrite Hk. unfold interest, e4. simpl. by destruct (Z.eqb_spec (Z.lor (events e3) evs) 0).
  - split_and!; [done|by eapply keeps_trans|apply lookup_insert_eq|done|done].
Qed.

Lemma hio_del_ok L S x e evs : Inv L S -> mem L !! x = Some e -> event_type e = HEVENT_TYPE_IO ->
  rw_mask evs ->
  exists L', hio_del L x evs = Some L' /\ Inv L' S /\ keeps L L'.
Proof.
  intros Hi Hx Ht Hrw. unfold hio_del. rewrite (own_eq L S x e Hi Hx). cbn [mbind option_bind].
  destruct (negb (active e)). { exists L. split_and!; [done|done|apply keeps_refl]. }
  assert (exists L1 e1, (if has_flag (events e) evs then
           L ← iowatcher_del_event L (fd e) evs;
           upd_ev L x (fun e => e.[events := Z.land (events e) (Z.lnot evs)])
         else Some L) = Some L1 /\ Inv L1 S /\ keeps L L1 /\
      mem L1 !! x = Some e1 /\ event_type e1 = HEVENT_TYPE_IO) as (L1 & e1 & -> & Hi1 & Hk1 & Hx1 & Ht1).
  { destruct (has_flag (events e) evs) eqn:Hfl; [|exists L, e; split_and!; [done|done|apply keeps_refl|done|done]].
    destruct (iowatcher_del_event_ok L S x e evs) as (k & sz & -> & Hk & Hfr); [done..|].
    cbn [mbind option_bind]. rewrite (upd_ev_eq _ x _ e) by done.
    set (e1 := e.[events := _]). pose proof (io_priority L S x e Hi Hx).
    destruct (v_mem _ _ Hi) as [He _]. destruct (He x e Hx) as (_ & _ & _ & _ & _ & Hio).
    destruct (Hio Ht) as [Hrw0 Hrd].
    eexists _, e1. split; [done|].
    match goal with |- Inv ?L' S /\ _ => destruct (Inv_io_change L L' S x e e1) as [Hi1 Hk1]; try done end.
    - unfold e1, rw_mask; simpl; destruct Hrw0 as [->|[->|[->| ->]]], Hrw as [->|[->|[->| ->]]]; naive_solver.
    - simpl. intros E. by rewrite Hrd.
    - split_and!; [done|done|apply lookup_insert_eq|done]. }
  cbn [mbind option_bind]. rewrite Hx1. cbn [mbind option_bind].
  destruct (events e1 =? 0); [|exists L1; done].
  set (L2 := L1.[nios := _]).
  destruct (core_step L1 L2 S) as (Hi2 & Hk2 & Em2); [done..|].
  destruct (EVENT_INACTIVE_ok L2 S x e1 Hi2) as (L3 & -> & Hi3 & Hk3 & Hx3 & _); [by rewrite Em2|].
  cbn [mbind option_bind]. unfold EVENT_UNPENDING. rewrite (own_eq L3 S x _ Hi3 Hx3). cbn [mbind option_bind].
  assert (keeps L L3) as HkL3 by (apply (keeps_trans _ L1); [done|by apply (keeps_trans _ L2)]).
  simpl pending. destruct (pending e1); [|exists L3; done].
  destruct (io_step L3 S x _ (fun e => e.[pending := false]) Hi3 Hx3) as (L4 & -> & Hi4 & Hk4 & _); [done| |].
  { pose proof (io_priority L1 S x e1 Hi1 Hx1). by apply same_io_fields. }
  cbn [mbind option_bind]. eexists. split; [done|]. split.
  - eapply Inv_core; [|exact Hi4]. done.
  - eapply keeps_trans; [exact HkL3|]. eapply keeps_trans; [exact Hk4|]. by apply keeps_core.
Qed.

(** * Every operation *)

(** The queue of posted events is touched only when an event is posted. *)
Definition same_queue (f : hloop H K -> option (hloop H K)) : Prop :=
  forall L L', f L = Some L' -> custom_events L' = custom_events L.

Lemma upd_ev_queue x f : same_queue (fun L => upd_ev L x f).
Proof. intros L L' E. unfold upd_ev in E. destruct (mem L !! x); simplify_eq/=. done. Qed.
Lemma EVENT_ADD_queue x c : same_queue (fun L => EVENT_ADD L x c).
Proof.
  intros L L' E. unfold EVENT_ADD in E. destruct (upd_ev L x _) as [L1|] eqn:E1; [|done].
  apply upd_ev_queue in E1. cbn [mbind option_bind] in E. unfold EVENT_ACTIVE in E.
  destruct (own _ x) as [e|]; [|done]. cbn [mbind option_bind] in E.
  destruct (active e); [simplify_eq/=; done|].
  destruct (upd_ev _ x _) as [L2|] eqn:E2; [|done]. apply upd_ev_queue in E2. simplify_eq/=. congruence.
Qed.
Lemma iowatcher_add_queue n evs : same_queue (fun L => iowatcher_add_event L n evs).
Proof.
  intros L L' E. unfold iowatcher_add_event, iowatcher_init in E.
  destruct (epoll_size L) eqn:E0; simpl in E; rewrite ?E0 in E; simpl in E; simplify_option_eq;
    destruct (_ =? 0); simplify_eq/=; done.
Qed.
Lemma hio_add_queue x c evs : same_queue (fun L => hio_add L x c evs).
Proof.
  intros L L' E. unfold hio_add in E. destruct (own L x) as [e|]; [|done]. cbn [mbind option_bind] in E.
  destruct (if active e then Some L else _) as [L1|] eqn:E1; [|done]. cbn [mbind option_bind] in E.
  assert (custom_events L1 = custom_events L) as Q1.
  { destruct (active e); simplify_eq; [done|]. destruct (EVENT_ADD L x c) eqn:Ea; simplify_eq/=.
    by apply EVENT_ADD_queue in Ea. }
  destruct (upd_ev L1 x _) as [L2|] eqn:E2; [|done]. apply upd_ev_queue in E2. cbn [mbind option_bind] in E.
  destruct (match c with None => Some L2 | Some _ => _ end) as [L3|] eqn:E3; [|done]. cbn [mbind option_bind] in E.
  assert (custom_events L3 = custom_events L2) as Q3.
  { destruct c; simplify_eq; [|done]. by apply upd_ev_queue in E3. }
  destruct (mem L3 !! x) as [e3|]; [|done]. cbn [mbind option_bind] in E.
  destruct (has_flag (events e3) evs); [congruence|].
  destruct (iowatcher_add_event L3 (fd e3) evs) as [L4|] eqn:E4; [|done].
  apply iowatcher_add_queue in E4. apply upd_ev_queue in E. congruence.
Qed.
Lemma hio_get_queue n L L' x : hio_get L n = Some (L', x) -> custom_events L' = custom_events L.
Proof.
  unfold hio_get. destruct (__hio_get L n) as [[L1 o]|] eqn:E1; [|done]. cbn [mbind option_bind].
  assert (custom_events L1 = custom_events L) as Q1.
  { unfold __hio_get in E1. destruct (zlen (ios L) <=? n); simplify_option_eq; done. }
  destruct o as [y|].
  - cbn [mbind option_bind]. destruct (upd_ev L1 y _) as [L2|] eqn:E2; [|done].
    apply upd_ev_queue in E2. intros; simplify_eq/=. congruence.
  - unfold alloc. cbv beta iota zeta. destruct (zset _ _ _); [|done]. cbn [mbind option_bind].
    destruct (upd_ev _ _ _) as [L2|] eqn:E2; [|done]. apply upd_ev_queue in E2.
    intros; simplify_eq/=. congruence.
Qed.

Section Exec.
Context (clock : nat -> reading) (zone : HTime.zone).
Context (eventfd_open eventfd_write : nat -> Z).

(** Descriptors are small. *)
Hypothesis eventfd_small : forall t, eventfd_open t < 2 ^ 30.

Lemma create_eventfds_ok L S : Inv L S ->
  exists L' b, hloop_create_eventfds eventfd_open L = Some (L', b) /\ Inv L' S /\ keeps L L' /\
    custom_events L' = custom_events L.
Proof.
  intros Hi. unfold hloop_create_eventfds.
  set (L0 := L.[tick := _]). destruct (core_step L L0 S) as (Hi0 & Hk0 & _); [done..|].
  destruct (Z.ltb_spec (eventfd_open (tick L)) 0) as [|Hefd]; [exists L0, false; done|].
  set (L1 := L0.[eventfd := _]). destruct (core_step L0 L1 S) as (Hi1 & Hk1 & _); [done..|].
  destruct (hio_get_ok L1 S (eventfd_open (tick L)) Hi1) as (L2 & x & e & E2 & Hi2 & Hk2 & Hx & Ht);
    [specialize (eventfd_small (tick L)); lia|]. rewrite E2. cbn [mbind option_bind].
  destruct (hio_add_ok L2 S x e (Some hio_handle_events) HV_READ) as (L3 & e3 & E3 & Hi3 & Hk3 & Hx3 & Ht3 & _);
    [done|done|done|by right; left|done|].
  rewrite E3. cbn [mbind option_bind].
  destruct (io_step L3 S x e3 (fun e => e.[priority := HEVENT_HIGH_PRIORITY])) as (L4 & E4 & Hi4 & Hk4 & _); [done..| |].
  { by split_and!. }
  rewrite E4. cbn [mbind option_bind]. set (L5 := L4.[intern_nevents := _]).
  destruct (core_step L4 L5 S) as (Hi5 & Hk5 & _); [done..|].
  apply hio_get_queue in E2. apply hio_add_queue in E3. apply upd_ev_queue in E4.
  exists L5, true. split_and!; [done|done| |simpl; rewrite E4, E3, E2; done].
  apply (keeps_trans _ L0); [done|]. apply (keeps_trans _ L1); [done|]. apply (keeps_trans _ L2); [done|].
  apply (keeps_trans _ L3); [done|]. by apply (keeps_trans _ L4).
Qed.

Lemma post_event_ok L S ev : Inv L S -> Queue.maxsize (custom_events L) < 2 ^ 30 ->
  exists L', hloop_post_event eventfd_open eventfd_write L ev = Some L' /\ Inv L' S /\ keeps L L'.
Proof.
  intros Hi Hq. unfold hloop_post_event. cbv zeta.
  set (ev1 := match ev_loop ev with None => _ | Some _ => ev end).
  set (ev2 := if bool_decide (event_type ev1 = HEVENT_TYPE_NONE) then _ else ev1).
  assert (exists L0 ev3, (if event_id ev2 =? 0 then
     (L.[next_event_id := u64 (next_event_id L + 1)], ev2.[event_id := u64 (next_event_id L + 1)])
     else (L, ev2)) = (L0, ev3) /\ core L0 = core L /\ pendings L0 = pendings L)
    as (L0 & ev3 & -> & Ec0 & Ep0) by (destruct (event_id ev2 =? 0); eauto).
  destruct (core_step L L0 S Ec0 Ep0 Hi) as (Hi0 & Hk0 & _).
  assert (custom_events L0 = custom_events L) as Q0 by by injection Ec0.
  assert (exists L1 ok, (if eventfd L0 =? -1 then hloop_create_eventfds eventfd_open L0 else Some (L0, true))
     = Some (L1, ok) /\ Inv L1 S /\ keeps L0 L1 /\ custom_events L1 = custom_events L0)
    as (L1 & ok & -> & Hi1 & Hk1 & Q1).
  { destruct (eventfd L0 =? -1); [by apply create_eventfds_ok|].
    exists L0, true. split_and!; [done|done|apply keeps_refl|done]. }
  cbn [mbind option_bind]. assert (keeps L L1) as HkL1 by by eapply keeps_trans.
  destruct (negb ok); [by exists L1|].
  set (L2 := L1.[tick := _]). destruct (core_step L1 L2 S) as (Hi2 & Hk2 & _); [done..|].
  assert (keeps L L2) as HkL2 by by eapply keeps_trans.
  destruct (eventfd_write (tick L1) <=? 0); [by exists L2|].
  change (custom_events L2) with (custom_events L1). rewrite Q1, Q0.
  assert (exists q l, (if Queue.maxsize (custom_events L) =? 0
           then Queue.queue_init null_event CUSTOM_EVENT_QUEUE_INIT_SIZE
           else Some (custom_events L)) = Some q /\ Queue.rep q l /\ Queue.maxsize q < 2 ^ 30)
    as (q & l & -> & Hrep & Hm).
  { destruct (Queue.maxsize (custom_events L) =? 0).
    - destruct (Queue.rep_init null_event CUSTOM_EVENT_QUEUE_INIT_SIZE) as (q & Eq & Hr); [done|].
      exists q, []. split_and!; [done|done|]. by injection Eq as <-.
    - destruct (v_queue _ _ Hi) as [l Hl]. eauto. }
  cbn [mbind option_bind]. destruct (Queue.rep_push null_event q l ev3 Hrep Hm) as (q' & -> & Hr' & _).
  cbn [mbind option_bind]. eexists. split; [done|]. split.
  - destruct Hi2. split; simpl; eauto.
  - eapply keeps_trans; [exact HkL2|by apply keeps_core].
Qed.

(** What the caller of an operation must respect: pointers to live events of the
    right kind, and counts that fit. A timer waiting in a pending list must not
    be reset: reset and then deleted it would be freed while it is linked. This
    also leaves out a timer that resets itself in its own callback, as the read,
    write and keep-alive timeouts of hevent.c do; that step is the subject of
    [reset_in_own_callback]. *)
Definition valid (a : action) L : Prop :=
  match a with
  | Timer_add c ms rep => 0 <= ms < 2 ^ 32 /\ ntimers L + 1 < 2 ^ 31
  | Period_add c mi ho da we mo rep => ntimers L + 1 < 2 ^ 31
  | Timer_reset x ms => exists e, mem L !! x = Some e /\ 0 <= ms < 2 ^ 32 /\
      (event_type e = HEVENT_TYPE_TIMEOUT -> pending e = false) /\ ntimers L + 1 < 2 ^ 31
  | Timer_del x => exists e rt, mem L !! x = Some e /\ event_type e = ty rt
  | Idle_add c rep => nidles L + 1 < 2 ^ 31
  | Idle_del x => exists e, mem L !! x = Some e /\ event_type e = HEVENT_TYPE_IDLE
  | Signal_add c signo => True
  | Signal_del x => exists e, mem L !! x = Some e /\ event_type e = HEVENT_TYPE_SIGNAL
  | Io_get n => 0 <= n < 2 ^ 30
  | Io_add x c evs => exists e, mem L !! x = Some e /\ event_type e = HEVENT_TYPE_IO /\ rw_mask evs /\ evs <> 0
  | Io_del x evs => exists e, mem L !! x = Some e /\ event_type e = HEVENT_TYPE_IO /\ rw_mask evs
  | Post ev => Queue.maxsize (custom_events L) < 2 ^ 30
  | Stop _ => Queue.maxsize (custom_events L) < 2 ^ 30
  | Pause | Resume | Update_time => True
  end.

Abbreviation exec := (exec clock zone eventfd_open eventfd_write).
Abbreviation exec_all := (exec_all clock zone eventfd_open eventfd_write).

Lemma exec_ok a L S : Inv L S -> valid a L ->
  exists L' S', exec a L = Some L' /\ Inv L' S' /\ keeps L L'.
Proof.
  intros Hi. destruct a as [c ms rp|c mi ho da we mo rp|x ms|x|c rp|x|c signo|x|n|x c evs|x evs|ev|same_thread| | |]; simpl.
  - intros [? ?]. destruct (htimer_add_ok clock L S c ms rp) as (L' & r & S' & -> & ? & ?); [done..|].
    by exists L', S'.
  - intros ?. destruct (htimer_add_period_ok clock zone L S c mi ho da we mo rp)
      as (L' & r & S' & -> & ? & ?); [done..|]. by exists L', S'.
  - intros (e & ? & ? & ? & ?). by eapply htimer_reset_ok.
  - intros (e & rt & ? & ?). by eapply htimer_del_ok.
  - intros ?. destruct (hidle_add_ok L S c rp) as (L' & r & -> & ? & ?); [done..|]. by exists L', S.
  - intros (e & ? & ?). destruct (hidle_del_ok L S x e) as (L' & ? & ? & ?); [done..|]. by exists L', S.
  - intros _. destruct (hsignal_add_ok L S c signo) as (L' & r & -> & ? & ?); [done..|]. by exists L', S.
  - intros (e & ? & ?). destruct (hsignal_del_ok L S x e) as (L' & ? & ? & ?); [done..|]. by exists L', S.
  - intros ?. destruct (hio_get_ok L S n) as (L' & x & e & -> & ? & ? & _); [done..|]. by exists L', S.
  - intros (e & ? & ? & ? & ?). destruct (hio_add_ok L S x e c evs) as (L' & e' & ? & ? & ? & _); [done..|]. by exists L', S.
  - intros (e & ? & ? & ?). destruct (hio_del_ok L S x e evs) as (L' & ? & ? & ?); [done..|]. by exists L', S.
  - intros ?. destruct (post_event_ok L S ev) as (L' & ? & ? & ?); [done..|]. by exists L', S.
  - intros ?. unfold hloop_stop. case_bool_decide; [exists L, S; split_and!; [done|done|apply keeps_refl]|].
    assert (exists L1, (if same_thread then Some L else hloop_wakeup eventfd_open eventfd_write L) = Some L1 /\
      Inv L1 S /\ keeps L L1) as (L1 & -> & Hi1 & Hk1).
    { destruct same_thread; [exists L; split_and!; [done|done|apply keeps_refl]|by apply post_event_ok]. }
    simpl. destruct (core_step L1 (L1.[status := HLOOP_STATUS_STOP]) S) as (? & ? & _); [done..|].
    eexists _, S. split; [done|]. split; [done|by eapply keeps_trans].
  - intros _. unfold hloop_pause. case_bool_decide.
    + destruct (core_step L (L.[status := HLOOP_STATUS_PAUSE]) S) as (? & ? & _); [done..|]. eauto.
    + exists L, S. split_and!; [done|done|apply keeps_refl].
  - intros _. unfold hloop_resume. case_bool_decide.
    + destruct (core_step L (L.[status := HLOOP_STATUS_RUNNING]) S) as (? & ? & _); [done..|]. eauto.
    + exists L, S. split_and!; [done|done|apply keeps_refl].
  - intros _. destruct (update_time_core clock L) as [Ec Ep].
    destruct (core_step L (hloop_update_time clock L) S Ec Ep Hi) as (? & ? & _). eauto.
Qed.

(** A sequence of operations each of which is valid when its turn comes. *)
Fixpoint safe (l : list action) L : Prop :=
  match l with
  | [] => True
  | a :: l => valid a L /\ forall L', exec a L = Some L' -> safe l L'
  end.

Lemma exec_all_ok l : forall L S, Inv L S -> safe l L ->
  exists L' S', exec_all l L = Some L' /\ Inv L' S' /\ keeps L L'.
Proof.
  induction l as [|a l IH]; intros L S Hi Hs; simpl.
  - exists L, S. split_and!; [done|done|apply keeps_refl].
  - destruct Hs as [Hv Hs]. destruct (exec_ok a L S Hi Hv) as (L1 & S1 & E1 & Hi1 & Hk1). rewrite E1.
    cbn [mbind option_bind]. destruct (IH L1 S1 Hi1 (Hs L1 E1)) as (L2 & S2 & -> & Hi2 & Hk2).
    exists L2, S2. split_and!; [done|done|by eapply keeps_trans].
Qed.

End Exec.

End Invariant.
End LoopInv.
