(* ===== verification/LoopIter.v ===== *)
(** One iteration of the event loop: the pending lists, the collection of due
    timers, idles and ready ios, and the callbacks. *)
From S2P Require Import Prelude Heap Containers HMath HTime HTimeThm Loop LoopInv.
Import Heap HMath Loop LoopInv.

Module LoopIter.

Section Iteration.
Context {H K : Type} {TH : TimerHeap H} {THL : TimerHeapLaws H} {EP : Epoll K} {EPL : EpollLaws K}.
Implicit Types (L : hloop H K) (S : bool -> gset ptr) (m : memory).
Context (clock : nat -> reading) (zone : HTime.zone).
Context (eventfd_open eventfd_write : nat -> Z) (eventfd_count : nat -> nat).
Context (callback : Z -> hevent -> hloop H K -> list action).

Abbreviation exec_all := (exec_all clock zone eventfd_open eventfd_write).
Abbreviation eventfd_read_cb := (eventfd_read_cb clock zone eventfd_open eventfd_write callback).
Abbreviation run_cb := (run_cb clock zone eventfd_open eventfd_write callback eventfd_count).
Abbreviation pending_walk := (pending_walk clock zone eventfd_open eventfd_write callback eventfd_count).
Abbreviation pending_lists := (pending_lists clock zone eventfd_open eventfd_write callback eventfd_count).
Abbreviation process_pendings := (hloop_process_pendings clock zone eventfd_open eventfd_write callback eventfd_count).
Abbreviation safe := (safe clock zone eventfd_open eventfd_write).

(** Callbacks use the loop's interface as it is meant to be used. *)
Definition well_behaved : Prop := forall c e L S, Inv L S -> safe (callback c e L) L.

Hypothesis eventfd_small : forall t, eventfd_open t < 2 ^ 30.
Hypothesis Hcb : well_behaved.

(** An event whose callback is due: pending, active and with a callback. *)
Definition runnable (m : memory) (x : ptr) : Prop :=
  exists e, m !! x = Some e /\ pending e = true /\ active e = true /\ cb e <> None.

(** No callback takes the turn of [x] away, by deleting or deactivating it. *)
Definition spares (x : ptr) : Prop := forall c e L L', runnable (mem L) x ->
  exec_all (callback c e L) L = Some L' -> runnable (mem L') x.

(** * Callbacks *)

Lemma eventfd_read_cb_ok n : forall L S, Inv L S ->
  exists L' S' tr, eventfd_read_cb n L = Some (L', tr) /\ Inv L' S' /\ keeps L L' /\
    (forall y, spares y -> runnable (mem L) y -> runnable (mem L') y).
Proof.
  induction n as [|n IH]; intros L S Hi; simpl.
  { exists L, S, []. split_and!; [done|done|apply keeps_refl|done]. }
  destruct (v_queue _ _ Hi) as [l Hl]. rewrite (Queue.rep_is_empty _ l Hl).
  destruct l as [|ev l]. { exists L, S, []. split_and!; [done|done|apply keeps_refl|done]. }
  rewrite bool_decide_false by done. rewrite (Queue.rep_front _ _ Hl). cbn [mbind option_bind head].
  destruct (Queue.rep_pop _ ev l Hl) as (q & -> & Hq & _). cbn [mbind option_bind].
  set (L1 := L.[custom_events := q]).
  assert (Inv L1 S) as Hi1 by (destruct Hi; split; simpl; eauto).
  assert (keeps L L1) as Hk1 by by apply keeps_core.
  destruct (cb ev) as [c|].
  - destruct (exec_all_ok clock zone eventfd_open eventfd_write eventfd_small
      (callback c ev L1) L1 S Hi1 (Hcb c ev L1 S Hi1)) as (L2 & S2 & Ee & Hi2 & Hk2). rewrite Ee. cbn [mbind option_bind].
    destruct (IH L2 S2 Hi2) as (L3 & S3 & tr & -> & Hi3 & Hk3 & Hr3). cbn [mbind option_bind].
    exists L3, S3, (ev :: tr). split_and!; [done|done| |].
    + eapply keeps_trans; [exact Hk1|]. by eapply keeps_trans.
    + intros y Hs Hy. apply Hr3; [done|]. by eapply (Hs c ev L1).
  - destruct (IH L1 S Hi1) as (L3 & S3 & tr & -> & Hi3 & Hk3 & Hr3).
    exists L3, S3, tr. split_and!; [done|done| |done]. eapply keeps_trans; [exact Hk1|exact Hk3].
Qed.

(** A callback run for a guarded event leaves that event allocated. *)
Lemma run_cb_ok c x e L S : Inv L S -> mem L !! x = Some e -> guarded e ->
  exists L' S', run_cb c x e L = Some L' /\ Inv L' S' /\ keeps L L' /\
    (forall y, spares y -> runnable (mem L) y -> runnable (mem L') y).
Proof.
  intros Hi Hx Hg. unfold run_cb.
  destruct (exec_all_ok clock zone eventfd_open eventfd_write eventfd_small
      (callback c e L) L S Hi (Hcb c e L S Hi)) as (L2 & S2 & Ee & Hi2 & Hk2).
  assert (forall y, spares y -> runnable (mem L) y -> runnable (mem L2) y) as Hr2 by (intros y Hs Hy; by eapply (Hs c e L)).
  destruct (c =? hio_handle_events); [|by exists L2, S2].
  assert (exists L1 S1, (if (fd e =? eventfd L) && has_flag (events e) HV_READ && has_flag (revents e) HV_READ
         then fst <$> eventfd_read_cb (eventfd_count (tick L)) (L.[tick := Datatypes.S (tick L)])
         else exec_all (callback c e L) L) = Some L1 /\ Inv L1 S1 /\ keeps L L1 /\
      (forall y, spares y -> runnable (mem L) y -> runnable (mem L1) y)) as (L1 & S1 & -> & Hi1 & Hk1 & Hr1).
  { destruct (_ && _); [|by exists L2, S2]. set (L0 := L.[tick := _]).
    destruct (core_step L L0 S) as (Hi0 & Hk0 & _); [done..|].
    destruct (eventfd_read_cb_ok (eventfd_count (tick L)) L0 S Hi0) as (L1 & S1 & tr & -> & ? & ? & ?).
    exists L1, S1. split_and!; [done|done|by apply (keeps_trans _ L0)|done]. }
  cbn [mbind option_bind]. pose proof Hk1 as (_ & _ & Hkg & _).
  destruct (Hkg x e Hx Hg) as (e1 & Hx1 & Hg1 & _). rewrite (upd_ev_eq _ _ _ e1 Hx1).
  eexists _, S1. split; [done|]. split_and!.
  - by eapply Inv_upd_same.
  - eapply keeps_trans; [exact Hk1|]. by eapply keeps_upd.
  - intros y Hs Hy. destruct (Hr1 y Hs Hy) as (e2 & Hy2 & R). unfold runnable. simpl. destruct (decide (y = x)) as [->|].
    + rewrite lookup_insert_eq. assert (e2 = e1) as -> by congruence. by eexists.
    + rewrite lookup_insert_ne by done. by exists e2.
Qed.

(** * The pending lists *)

(** The list linked from [o] through [pending_next] is [l], and every event on
    it is guarded. *)
Fixpoint chain m (o : option ptr) (l : list ptr) : Prop :=
  match l with
  | [] => o = None
  | x :: l => o = Some x /\ exists e, m !! x = Some e /\ guarded e /\ chain m (pending_next e) l
  end.

(** As [keeps], but for events outside [P] only. *)
Definition keeps_out (P : ptr -> Prop) L L' : Prop :=
  pendings L' = pendings L /\ self L' = self L /\
  (forall x e, ~ P x -> mem L !! x = Some e -> guarded e ->
    exists e', mem L' !! x = Some e' /\ guarded e' /\ pending_next e' = pending_next e) /\
  (forall x e', mem L' !! x = Some e' -> pending e' = true ->
    exists e, mem L !! x = Some e /\ pending e = true).

Lemma keeps_out_keeps P L L' : keeps L L' -> keeps_out P L L'.
Proof. intros (? & ? & Hk & ?). split_and!; [done|done|eauto|done]. Qed.
Lemma keeps_out_trans P Q L1 L2 L3 : keeps_out P L1 L2 -> keeps_out Q L2 L3 ->
  keeps_out (fun x => P x \/ Q x) L1 L3.
Proof.
  intros (? & ? & Hk1 & Hp1) (? & ? & Hk2 & Hp2). split_and!; [congruence|congruence| |].
  - intros x e Hn Hx Hg. destruct (Hk1 x e) as (e1 & Hx1 & Hg1 & E1); [tauto|done|done|].
    destruct (Hk2 x e1) as (e2 & ? & ? & ?); [tauto|done|done|]. exists e2. split_and!; congruence || done.
  - intros x e Hx Hp. destruct (Hp2 x e Hx Hp) as (e1 & ? & ?). eauto.
Qed.

Lemma chain_keeps P L L' o l : keeps_out P L L' -> (forall x, x ∈ l -> ~ P x) ->
  chain (mem L) o l -> chain (mem L') o l.
Proof.
  intros (_ & _ & Hk & _). revert o. induction l as [|x l IH]; intros o HP; [done|].
  simpl. intros [-> (e & Hx & Hg & Hc)]. split; [done|].
  destruct (Hk x e) as (e' & Hx' & Hg' & En); [apply HP; left|done|done|].
  exists e'. split_and!; [done|done|]. rewrite En. apply IH; [|done]. intros y Hy. apply HP. by right.
Qed.

(** The end of the work on one event: the flag is cleared, and an event marked
    for destruction is freed. *)
Lemma event_done_ok L S x e : Inv L S -> mem L !! x = Some e ->
  exists L', event_done L x = Some L' /\ Inv L' S /\
    keeps_out (eq x) L L' /\ (forall e', mem L' !! x = Some e' -> pending e' = false).
Proof.
  intros Hi Hx. unfold event_done. rewrite (upd_ev_eq L x _ e Hx). cbn [mbind option_bind].
  set (e1 := e.[pending := false]). set (L1 := L.[mem := _]).
  assert (mem L1 !! x = Some e1) as Hx1 by apply lookup_insert_eq. rewrite Hx1. cbn [mbind option_bind].
  assert (Inv L1 S) as Hi1 by by eapply Inv_upd_same.
  assert (keeps_out (eq x) L L1) as Hk1.
  { split_and!; [done|done|..]; simpl.
    - intros y e0 Hne Hy Hg. exists e0. by rewrite lookup_insert_ne.
    - intros y e0. rewrite lookup_insert_Some. intros [[<- <-]|[_ Hy]] ?; [done|eauto]. }
  destruct (destroy e1) eqn:Ed.
  - destruct (v_mem _ _ Hi1) as [He _]. destruct (He x e1 Hx1) as (_ & _ & _ & _ & Hd & _).
    assert (event_type e1 <> HEVENT_TYPE_IO) as Hio by (intros Ht; rewrite Hd in Ed; auto; done).
    assert (event_type e1 <> HEVENT_TYPE_SIGNAL) as Hsg by (intros Ht; rewrite Hd in Ed; auto; done).
    destruct (EVENT_DEL_ok L1 S x e1) as (L2 & -> & Hi2 & Hk2 & Hfree); [done|done|done|..].
    + intros rt Hin. apply (v_heap _ _ Hi1 rt) in Hin as (? & ? & _ & ?). congruence.
    + intros Hin. apply (v_idle _ _ Hi1) in Hin as (? & ? & _ & ?). congruence.
    + by eapply not_signal.
    + exists L2. split_and!; [done|done| |].
      * destruct Hk1 as (A1 & A2 & A3 & A4), Hk2 as (B1 & B2 & B3 & B4). split_and!; [congruence|congruence|..].
        -- intros y e0 Hne Hy Hg. destruct (A3 y e0 Hne Hy Hg) as (e2 & Hy2 & Hg2 & <-). eauto.
        -- intros y e0 Hy Hp. destruct (B4 y e0 Hy Hp) as (e2 & ? & ?). eauto.
      * intros e' He'. rewrite Hfree in He' by done. done.
  - exists L1. split_and!; [done|done|done|]. intros e' He'. rewrite Hx1 in He'. by simplify_eq/=.
Qed.

(** The other events are left alone. *)
Lemma event_done_frame L L' x y : event_done L x = Some L' -> y <> x -> mem L' !! y = mem L !! y.
Proof.
  assert (forall (L L' : hloop H K) f, upd_ev L x f = Some L' -> y <> x -> mem L' !! y = mem L !! y) as Hu.
  { intros L0 L1 f. unfold upd_ev. destruct (mem L0 !! x); [|done]. intros [= <-] ?. simpl. by rewrite lookup_insert_ne. }
  unfold event_done, EVENT_DEL, EVENT_INACTIVE, free. intros E Hne.
  destruct (upd_ev L x _) as [L1|] eqn:E1; [|done]. cbn [mbind option_bind] in E. rewrite <- (Hu _ _ _ E1 Hne). clear E1.
  destruct (mem L1 !! x) as [e|]; [|done]. cbn [mbind option_bind] in E. destruct (destroy e); [|by injection E as <-].
  destruct (own L1 x) as [e1|]; [|done]. cbn [mbind option_bind] in E.
  assert (forall L2, (if active e1 then L ← upd_ev L1 x (fun e => e.[active := false]); Some (L.[nactives := u32 (nactives L - 1)]) else Some L1)
    = Some L2 -> mem L2 !! y = mem L1 !! y) as Ha.
  { intros L2. destruct (active e1); [|by intros [= <-]]. destruct (upd_ev L1 x _) as [L3|] eqn:E3; [|done].
    intros [= <-]. by apply (Hu _ _ _ E3). }
  destruct (if active e1 then _ else _) as [L2|]; [|done]. cbn [mbind option_bind] in E. rewrite <- (Ha L2 eq_refl).
  destruct (own L2 x) as [e2|]; [|done]. cbn [mbind option_bind] in E. destruct (pending e2); [by injection E as <-|].
  destruct (mem L2 !! x); [|done]. injection E as <-. simpl. by rewrite lookup_delete_ne.
Qed.

(** One event of a pending list. *)
Lemma pending_walk_step f x e L S : Inv L S -> mem L !! x = Some e -> guarded e ->
  exists L' S' tr, pending_walk (Datatypes.S f) (Some x) L
      = ('(L'', tr') ← pending_walk f (pending_next e) L'; Some (L'', tr ++ tr')) /\
    Inv L' S' /\ keeps_out (eq x) L L' /\ (tr = [] \/ tr = [x]) /\
    (forall e', mem L' !! x = Some e' -> pending e' = false) /\
    (tr = [x] <-> pending e = true /\ active e = true /\ cb e <> None) /\
    (forall y, y <> x -> spares y -> runnable (mem L) y -> runnable (mem L') y).
Proof.
  intros Hi Hx Hg. cbn [Loop.pending_walk]. rewrite Hx. cbn [mbind option_bind].
  destruct (v_mem _ _ Hi) as [He _]. destruct (He x e Hx) as (El & _). rewrite El, bool_decide_true by done.
  rewrite andb_true_r. destruct (pending e) eqn:Ep.
  - assert (exists L1 S1 tr, match active e, cb e with
       | true, Some c => L ← run_cb c x e L; Some (L, [x]) | _, _ => Some (L, []) end = Some (L1, tr) /\
       Inv L1 S1 /\ keeps L L1 /\ (tr = [] \/ tr = [x]) /\ (tr = [x] <-> active e = true /\ cb e <> None) /\
       (forall y, spares y -> runnable (mem L) y -> runnable (mem L1) y))
      as (L1 & S1 & tr & -> & Hi1 & Hk1 & Htr & Hrun & Hr1).
    { destruct (active e), (cb e) as [c|];
        [|exists L, S, []; split_and!; [done|done|apply keeps_refl|by left|naive_solver|done]..].
      destruct (run_cb_ok c x e L S Hi Hx Hg) as (L1 & S1 & -> & Hi1 & Hk1 & Hr1).
      exists L1, S1, [x]. split_and!; [done|done|done|by right|naive_solver|done]. }
    cbn [mbind option_bind]. pose proof Hk1 as (_ & _ & Hkg & _).
    destruct (Hkg x e Hx Hg) as (e1 & Hx1 & _).
    destruct (event_done_ok L1 S1 x e1 Hi1 Hx1) as (L2 & Ed & Hi2 & Hk2 & Hnp). rewrite Ed. cbn [mbind option_bind].
    exists L2, S1, tr. split_and!; [done|done| |done|done|naive_solver|].
    2: { intros y Hne Hs Hy. destruct (Hr1 y Hs Hy) as (e2 & Hy2 & R). exists e2. by rewrite (event_done_frame _ _ _ _ Ed Hne). }
    destruct Hk1 as (A1 & A2 & A3 & A4), Hk2 as (B1 & B2 & B3 & B4). split_and!; [congruence|congruence|..].
    + intros y e0 Hne Hy Hgy. destruct (A3 y e0 Hy Hgy) as (e2 & Hy2 & Hg2 & <-). eauto.
    + intros y e0 Hy Hp. destruct (B4 y e0 Hy Hp) as (e2 & ? & ?). eauto.
  - exists L, S, []. split_and!; [done|done|apply keeps_out_keeps, keeps_refl|by left| |naive_solver|done].
    intros e' He'. congruence.
Qed.

(** The walk ends, touches no freed event and runs callbacks of listed events
    only, in list order; no listed event is pending afterwards. *)
Lemma pending_walk_ok f : forall l o L S, (length l <= f)%nat -> Inv L S -> chain (mem L) o l -> NoDup l ->
  exists L' S' tr, pending_walk f o L = Some (L', tr) /\ Inv L' S' /\
    keeps_out (fun x => x ∈ l) L L' /\ tr `sublist_of` l /\
    (forall x e', x ∈ l -> mem L' !! x = Some e' -> pending e' = false) /\
    (forall y, spares y -> runnable (mem L) y -> if decide (y ∈ l) then y ∈ tr else runnable (mem L') y).
Proof.
  induction f as [|f IH]; intros l o L S Hlen Hi Hc Hnd.
  all: destruct l as [|x l]; simpl in Hc, Hlen; try lia.
  1,2: subst o; exists L, S, []; split_and!;
    [done|done|apply keeps_out_keeps, keeps_refl|done|intros ? ? Hin; by apply not_elem_of_nil in Hin
    |intros y _ Hy; rewrite decide_False by apply not_elem_of_nil; done].
  destruct Hc as [-> (e & Hx & Hg & Hc)]. apply NoDup_cons in Hnd as [Hnx Hnd].
  destruct (pending_walk_step f x e L S Hi Hx Hg) as (L1 & S1 & tr & -> & Hi1 & Hk1 & Htr & Hnp & Hrun & Hr1).
  assert (chain (mem L1) (pending_next e) l) as Hc1.
  { eapply chain_keeps; [exact Hk1| |done]. by intros y Hy <-. }
  destruct (IH l (pending_next e) L1 S1) as (L2 & S2 & tr2 & -> & Hi2 & Hk2 & Hsub & Hnp2 & Hr2); [lia|done..|].
  cbn [mbind option_bind]. exists L2, S2, (tr ++ tr2). split_and!; [done|done|..].
  - destruct (keeps_out_trans _ _ _ _ _ Hk1 Hk2) as (? & ? & Hk & ?). split_and!; [done|done| |done].
    intros y e0 Hn Hy. apply Hk; [|done]. rewrite elem_of_cons in Hn. naive_solver.
  - destruct Htr as [-> | ->]; simpl; [by apply sublist_cons|by apply sublist_skip].
  - intros y e' Hy Hy'. apply elem_of_cons in Hy as [->|Hy]; [|by eapply Hnp2].
    destruct (pending e') eqn:Ep; [|done]. destruct Hk2 as (_ & _ & _ & Hk2).
    destruct (Hk2 x e' Hy' Ep) as (e1 & He1 & Hp1). by rewrite (Hnp e1 He1) in Hp1.
  - intros y Hs Hy. destruct (decide (y = x)) as [->|Hne].
    + rewrite decide_True by left. apply elem_of_app. left. destruct Hy as (e0 & He0 & R). rewrite Hx in He0. injection He0 as <-.
      rewrite (proj2 Hrun R). by left.
    + specialize (Hr2 y Hs (Hr1 y Hne Hs Hy)). rewrite (decide_ext _ (y ∈ l)) by (rewrite elem_of_cons; naive_solver).
      destruct (decide (y ∈ l)); [|done]. apply elem_of_app. by right.
Qed.

Lemma chain_mem m o l x : chain m o l -> x ∈ l -> exists e, m !! x = Some e /\ guarded e.
Proof.
  revert o. induction l as [|y l IH]; intros o Hc Hin; [by apply not_elem_of_nil in Hin|].
  destruct Hc as [-> (e & Hy & Hg & Hc)]. apply elem_of_cons in Hin as [->|Hin]; eauto.
Qed.

(** A list without repetition of allocated events is no longer than the memory:
    the fuel of a walk is enough. *)
Lemma chain_length m o l : chain m o l -> NoDup l -> (length l <= size m)%nat.
Proof.
  intros Hc Hnd. rewrite <- size_dom. rewrite <- (size_list_to_set (C := gset ptr)) by done.
  apply subseteq_size. intros x Hx. apply elem_of_list_to_set in Hx.
  destruct (chain_mem m o l x Hc Hx) as (e & He & _). apply elem_of_dom. eauto.
Qed.

(** The first [n] pending lists are [take n ls]. *)
Definition lists_upto (n : nat) L (ls : list (list ptr)) : Prop :=
  length (pendings L) = length ls /\ (n <= length ls)%nat /\ NoDup (concat (take n ls)) /\
  forall i o l, (i < n)%nat -> pendings L !! i = Some o -> ls !! i = Some l -> chain (mem L) o l.

Lemma pending_lists_ok n : forall ls L S, Inv L S -> lists_upto n L ls ->
  exists L' S' tr, pending_lists n L = Some (L', tr) /\ Inv L' S' /\
    tr `sublist_of` concat (reverse (take n ls)) /\
    pendings L' = replicate n None ++ drop n (pendings L) /\
    (forall x e', mem L' !! x = Some e' -> pending e' = true -> x ∉ concat (take n ls) /\
       exists e, mem L !! x = Some e /\ pending e = true) /\
    (forall y, spares y -> runnable (mem L) y -> y ∈ concat (take n ls) -> y ∈ tr).
Proof.
  induction n as [|n IH]; intros ls L S Hi (Hlen & Hn & Hnd & Hch); simpl.
  { exists L, S, []. split_and!; [done|done|done|done| |done]. intros x e' ? ?. split; [apply not_elem_of_nil|eauto]. }
  destruct (lookup_lt_is_Some_2 (pendings L) n) as [o Ho]; [lia|].
  destruct (lookup_lt_is_Some_2 ls n) as [l Hl]; [lia|].
  rewrite zget_Some by (unfold zlen; lia). rewrite Nat2Z.id, Ho. cbn [mbind option_bind].
  rewrite (take_S_r ls n l Hl) in Hnd |- *. rewrite concat_app in Hnd. simpl in Hnd.
  rewrite app_nil_r in Hnd. apply NoDup_app in Hnd as (Hnd1 & Hdis & Hndl).
  assert (chain (mem L) o l) as Hc by (eapply (Hch n); [lia|done..]).
  destruct (pending_walk_ok (Datatypes.S (size (mem L))) l o L S) as (L1 & S1 & tr & Ew & Hi1 & Hk1 & Hsub & Hnp & Hr1);
    [pose proof (chain_length _ _ _ Hc Hndl); lia|done..|]. simpl in Ew. rewrite Ew. cbn [mbind option_bind].
  pose proof Hk1 as (Ep1 & _ & _ & Hnew). rewrite Ep1.
  rewrite zset_some by (unfold zlen; lia). rewrite Nat2Z.id. cbn [mbind option_bind].
  set (L2 := L1.[pendings := _]).
  assert (Inv L2 S1) as Hi2.
  { apply (Inv_core L1); [|done]. unfold core. simpl. rewrite Ep1. unfold zlen. by rewrite length_insert. }
  destruct (IH ls L2 S1 Hi2) as (L3 & S3 & tr3 & -> & Hi3 & Hsub3 & Ep3 & Hp3 & Hr3).
  { split_and!; [simpl; by rewrite length_insert|lia|done|]. intros i o' l' Hlt Hi' Hl'. simpl in Hi'.
    rewrite list_lookup_insert_ne in Hi' by lia. change (mem L2) with (mem L1).
    eapply chain_keeps; [exact Hk1| |by eapply (Hch i); [lia|..]].
    intros y Hy Hy'. apply (Hdis y); [|done]. apply elem_of_concat. exists i, l'. by rewrite lookup_take_lt by lia. }
  cbn [mbind option_bind]. exists L3, S3, (tr ++ tr3). split_and!; [done|done|..].
  - rewrite reverse_snoc. simpl. by apply sublist_app.
  - rewrite Ep3. simpl. rewrite drop_insert_ge by lia.
    rewrite (drop_S _ o n Ho). rewrite Nat.sub_diag. simpl.
    change (None :: drop (Datatypes.S n) (pendings L)) with ([None] ++ drop (Datatypes.S n) (pendings L)).
    rewrite app_assoc. f_equal. by rewrite <- replicate_cons_app.
  - intros x e' Hx Hp. destruct (Hp3 x e' Hx Hp) as [Hnx (e & He & Hpe)]. change (mem L2) with (mem L1) in He.
    destruct (Hnew x e He Hpe) as (e0 & ? & ?). split; [|eauto].
    rewrite concat_app. simpl. rewrite app_nil_r, elem_of_app. intros [|Hin]; [done|].
    by rewrite (Hnp x e Hin He) in Hpe.
  - intros y Hs Hy. rewrite concat_app. simpl. rewrite app_nil_r, !elem_of_app. specialize (Hr1 y Hs Hy).
    destruct (decide (y ∈ l)); [by left|]. intros [Hin|]; [|done]. right. by apply Hr3.
Qed.

End Iteration.

Section Collect.
Context {H K : Type} {TH : TimerHeap H} {THL : TimerHeapLaws H} {EP : Epoll K} {EPL : EpollLaws K}.
Implicit Types (L : hloop H K) (S : bool -> gset ptr) (m : memory).

(** * Collecting what is due *)

(** The pending lists while events are collected: an event is on the list of
    its priority exactly when its flag is set. *)
Record Coll L (ls : list (list ptr)) : Prop := {
  c_len : length ls = Z.to_nat HEVENT_PRIORITY_SIZE;
  c_chain : forall i o l, pendings L !! i = Some o -> ls !! i = Some l -> chain (mem L) o l;
  c_nodup : NoDup (concat ls);
  c_prio : forall i l x e, ls !! i = Some l -> x ∈ l -> mem L !! x = Some e ->
    HEVENT_PRIORITY_INDEX (priority e) = Z.of_nat i;
  c_pend : forall x e, mem L !! x = Some e -> pending e = true <-> x ∈ concat ls;
  c_count : npendings L = u32 (zlen (concat ls));
}.

(** The part of an event the lists are about. *)
Definition links (e : hevent) := (pending e, pending_next e, priority e, event_type e).
Definition same_links L L' : Prop :=
  pendings L' = pendings L /\ npendings L' = npendings L /\
  forall x, links <$> mem L' !! x = links <$> mem L !! x.

Lemma chain_links m m' o l : (forall x, links <$> m' !! x = links <$> m !! x) ->
  chain m o l -> chain m' o l.
Proof.
  intros Hm. revert o. induction l as [|x l IH]; intros o; [done|].
  intros [-> (e & Hx & Hg & Hc)]. split; [done|]. specialize (Hm x) as Hmx. rewrite Hx in Hmx.
  destruct (m' !! x) as [e'|]; [|done]. injection Hmx as E1 E2 E3 E4.
  exists e'. split_and!; [done|unfold guarded in *; by rewrite E1, E4|]. rewrite E2. auto.
Qed.

Lemma Coll_links L L' ls : same_links L L' -> Coll L ls -> Coll L' ls.
Proof.
  intros (Ep & En & Hm) []. assert (forall x e', mem L' !! x = Some e' ->
    exists e, mem L !! x = Some e /\ pending e' = pending e /\ priority e' = priority e) as Hback.
  { intros x e' Hx. specialize (Hm x). rewrite Hx in Hm. destruct (mem L !! x) as [e|]; [|done].
    injection Hm as -> _ -> _. eauto. }
  split; [done| |done| | |by rewrite En].
  - rewrite Ep. intros i o l Ho Hl. eapply chain_links; [apply Hm|eauto].
  - intros i l x e' Hl Hx He'. destruct (Hback x e' He') as (e & He & _ & ->). eauto.
  - intros x e' He'. destruct (Hback x e' He') as (e & He & -> & _). eauto.
Qed.

Lemma same_links_refl L : same_links L L.
Proof. done. Qed.
Lemma same_links_trans L1 L2 L3 : same_links L1 L2 -> same_links L2 L3 -> same_links L1 L3.
Proof. intros (? & ? & Hm1) (? & ? & Hm2). split_and!; [congruence..|]. intros x. by rewrite Hm2. Qed.
Lemma same_links_upd L L' x e e' : pendings L' = pendings L -> npendings L' = npendings L ->
  mem L !! x = Some e -> mem L' = <[x := e']> (mem L) -> links e' = links e -> same_links L L'.
Proof.
  intros ? ? Hx Em El. split_and!; [done..|]. intros y. rewrite Em.
  destruct (decide (y = x)) as [->|]; [rewrite lookup_insert_eq, Hx; simpl; by rewrite El|by rewrite lookup_insert_ne].
Qed.

Lemma chain_upd_out m x e' o l : x ∉ l -> chain m o l -> chain (<[x := e']> m) o l.
Proof.
  revert o. induction l as [|y l IH]; intros o; [done|]. rewrite not_elem_of_cons.
  intros [? ?] [-> (e & Hy & Hg & Hc)]. split; [done|]. exists e. rewrite lookup_insert_ne by done. auto.
Qed.

(** The index of an event's pending list. *)
Definition prio_index (e : hevent) : nat := Z.to_nat (HEVENT_PRIORITY_INDEX (priority e)).

(** Linking an event that is not pending. *)
Lemma Coll_push L ls x e o : Coll L ls -> mem L !! x = Some e -> pending e = false ->
  pendings L !! prio_index e = Some o -> -5 <= priority e <= 5 ->
  Coll (L.[mem := <[x := e.[pending := true].[pending_next := o]]> (mem L)]
         .[npendings := u32 (npendings L + 1)].[pendings := <[prio_index e := Some x]> (pendings L)])
    (alter (cons x) (prio_index e) ls).
Proof.
  intros [] Hx Hp Ho Hpr. change (Z.to_nat HEVENT_PRIORITY_SIZE) with 11%nat in c_len0.
  assert (prio_index e < length ls)%nat as Hlt
    by (unfold prio_index, HEVENT_PRIORITY_INDEX, HEVENT_LOWEST_PRIORITY; lia).
  pose proof (concat_alter_cons x _ ls Hlt) as Hperm.
  assert (x ∉ concat ls) as Hnx by (rewrite <- (c_pend0 x e Hx); congruence).
  destruct (lookup_lt_is_Some_2 ls (prio_index e) Hlt) as [l Hl].
  assert (forall i l', ls !! i = Some l' -> x ∉ l') as Hno
    by (intros i l' Hli Hin; apply Hnx, elem_of_concat; eauto).
  split; simpl.
  - rewrite length_alter. done.
  - intros i o' l' Hi Hli. destruct (decide (i = prio_index e)) as [->|Hne].
    + rewrite list_lookup_insert_eq in Hi by (by eapply lookup_lt_Some). rewrite list_lookup_alter_eq, Hl in Hli.
      simplify_eq/=. split; [done|]. eexists. rewrite lookup_insert_eq. split; [done|]. split; [by left|].
      apply chain_upd_out; eauto.
    + rewrite list_lookup_insert_ne in Hi by done. rewrite list_lookup_alter_ne in Hli by done.
      apply chain_upd_out; eauto.
  - rewrite Hperm. by constructor.
  - intros i l' y e' Hli Hy. rewrite lookup_insert_Some. intros [[<- <-]|[Hne He']]; simpl.
    + destruct (decide (i = prio_index e)) as [->|Hne]; [unfold prio_index, HEVENT_PRIORITY_INDEX, HEVENT_LOWEST_PRIORITY; lia|].
      rewrite list_lookup_alter_ne in Hli by done. by apply Hno in Hli.
    + destruct (decide (i = prio_index e)) as [->|Hni].
      * rewrite list_lookup_alter_eq, Hl in Hli. simplify_eq/=. apply elem_of_cons in Hy as [->|Hy]; [done|]. eauto.
      * rewrite list_lookup_alter_ne in Hli by done. eauto.
  - intros y e'. rewrite Hperm, elem_of_cons, lookup_insert_Some. intros [[<- <-]|[Hne He']]; simpl; [tauto|].
    rewrite (c_pend0 y e' He'). naive_solver.
  - rewrite c_count0. replace (zlen (concat (alter (cons x) (prio_index e) ls))) with (zlen (concat ls) + 1).
    + unfold u32. by rewrite Zplus_mod_idemp_l.
    + unfold zlen. rewrite Hperm. simpl. lia.
Qed.

(** The event after EVENT_PENDING. *)
Definition marked (e e' : hevent) : Prop :=
  exists o, e' = e.[pending := true].[pending_next := o].

Lemma marked_self e : pending e = true -> marked e e.
Proof. exists (pending_next e). destruct e; simpl in *; by subst. Qed.

Definition ls_pend (x : ptr) (e : hevent) (ls : list (list ptr)) : list (list ptr) :=
  if pending e then ls else alter (cons x) (prio_index e) ls.

Lemma ls_pend_elem L ls x e y : Coll L ls -> mem L !! x = Some e -> -5 <= priority e <= 5 ->
  y ∈ concat (ls_pend x e ls) <-> y = x \/ y ∈ concat ls.
Proof.
  intros Hc Hx Hpr. unfold ls_pend. destruct (pending e) eqn:Hp.
  - apply (c_pend _ _ Hc x e Hx) in Hp. split; [by right|]. by intros [->|].
  - rewrite concat_alter_cons, elem_of_cons; [done|]. rewrite (c_len _ _ Hc).
    unfold prio_index, HEVENT_PRIORITY_INDEX, HEVENT_LOWEST_PRIORITY.
    change (Z.to_nat HEVENT_PRIORITY_SIZE) with 11%nat. lia.
Qed.

(** EVENT_PENDING links an event once and changes nothing else. *)
Lemma EVENT_PENDING_ok L S ls x e : Inv L S -> Coll L ls -> mem L !! x = Some e ->
  exists L' e' n p, EVENT_PENDING L x = Some L' /\
    L' = L.[mem := <[x := e']> (mem L)].[npendings := n].[pendings := p] /\ marked e e' /\
    Inv L' S /\ Coll L' (ls_pend x e ls).
Proof.
  intros Hi Hc Hx. unfold EVENT_PENDING, ls_pend. rewrite (own_eq L S x e Hi Hx). cbn [mbind option_bind].
  pose proof (io_priority L S x e Hi Hx) as Hpr. destruct (pending e) eqn:Hp.
  - exists L, e, (npendings L), (pendings L). rewrite insert_id by done. split_and!; [done|by destruct L|by apply marked_self|done|done].
  - assert (HEVENT_PRIORITY_INDEX (priority e) = Z.of_nat (prio_index e)) as Ei
      by (unfold prio_index, HEVENT_PRIORITY_INDEX, HEVENT_LOWEST_PRIORITY; lia).
    pose proof (v_plen _ _ Hi) as Hlen.
    assert (0 <= Z.of_nat (prio_index e) < zlen (pendings L)) as Hr.
    { rewrite Hlen. change HEVENT_PRIORITY_SIZE with 11.
      unfold prio_index, HEVENT_PRIORITY_INDEX, HEVENT_LOWEST_PRIORITY. lia. }
    rewrite Ei. rewrite zget_Some by done. rewrite Nat2Z.id.
    destruct (lookup_lt_is_Some_2 (pendings L) (prio_index e)) as [o Ho]; [unfold zlen in Hr; lia|].
    rewrite Ho. cbn [mbind option_bind]. rewrite (upd_ev_eq L x _ e Hx). cbn [mbind option_bind].
    rewrite zset_some by done. rewrite Nat2Z.id. cbn [mbind option_bind].
    eexists _, _, _, _. split; [done|]. split; [simpl; done|]. split; [by exists o|]. split.
    + apply (Inv_core (L.[mem := <[x := e.[pending := true].[pending_next := o]]> (mem L)])).
      * unfold core. simpl. unfold zlen. by rewrite length_insert.
      * by eapply Inv_upd_same.
    + exact (Coll_push L ls x e o Hc Hx Hp Ho Hpr).
Qed.

(** * Timers *)

(** A timer's next deadline is the first one past [t] in steps of its period;
    the fuel of [advance] is enough. *)
Lemma advance_ok f : forall next step t, 0 < step -> 0 <= next -> t + step < 2 ^ 64 ->
  (t - next) / step + 1 <= Z.of_nat f ->
  exists k, advance f next step t = Some (next + k * step) /\ 0 <= k /\ t < next + k * step /\
    (next <= t -> next + k * step <= t + step).
Proof.
  induction f as [|f IH]; intros next step t Hs Hn Hb Hf; simpl.
  - destruct (Z.ltb_spec t next); [exists 0; rewrite Z.add_0_r; split_and!; (done || lia)|].
    assert (0 <= (t - next) / step) by (apply Z.div_pos; lia). lia.
  - destruct (Z.ltb_spec t next); [exists 0; rewrite Z.add_0_r; split_and!; (done || lia)|].
    assert (u64 (next + step) = next + step) as -> by (unfold u64; apply Z.mod_small; lia).
    destruct (IH (next + step) step t Hs) as (k & E & Hk & Hlt & Hle); [lia|lia| |].
    { replace (t - (next + step)) with (t - next + (-1) * step) by ring. rewrite Z.div_add by lia. lia. }
    exists (k + 1). replace (next + (k + 1) * step) with (next + step + k * step) by ring.
    split_and!; [done|lia|done|]. intros _. destruct (Z.le_gt_cases (next + step) t); [auto|].
    assert (k = 0 \/ 0 < k) as [->|] by lia; [lia|].
    (* past the deadline [advance] stops at once *)
    destruct f; simpl in E; rewrite (proj2 (Z.ltb_lt t (next + step))) in E by lia;
      assert (k * step = 0) by (injection E; lia); nia.
Qed.

Context (clock : nat -> reading) (zone : HTime.zone).

(** The new deadline of a timer that fires at time [t] and stays, with [n] readings of
    the clocks taken before: for a timeout the first one past [t] in whole steps of its
    period, for a period timer the next time of its own pattern after a reading of the
    calendar clock. *)
Definition next_deadline (rt : bool) (t : Z) (n : nat) (e : hevent) (next : Z) : Prop :=
  t < next /\
  if rt then exists k, (n <= k)%nat /\
    let '(mi, ho, da, we, mo) := period e in
    next = u64 (HTime.cron_next_timeout zone mi ho da we mo (time_s (clock k)) * 1000000)
  else next <= t + timeout e * 1000 /\ (timeout e * 1000 | next - next_timeout e).

(** What firing does to a timer at time [t]. *)
Definition countdown (r : Z) : Z := if r =? INFINITE then r else u32 (r - 1).
Definition fired (rt : bool) (t : Z) (n : nat) (e e' : hevent) : Prop :=
  repeat e' = countdown (repeat e) /\ pending e' = true /\ destroy e' = (repeat e' =? 0) /\
  (repeat e' = 0 -> next_timeout e' = next_timeout e) /\
  (repeat e' <> 0 -> next_deadline rt t n e (next_timeout e')) /\
  (ev_loop e', event_type e', event_id e', cb e', userdata e', privdata e', priority e', active e', timeout e', period e')
  = (ev_loop e, event_type e, event_id e, cb e, userdata e, privdata e, priority e, active e, timeout e, period e).

Lemma fired_mono rt t n n' e e' : (n <= n')%nat -> fired rt t n' e e' -> fired rt t n e e'.
Proof.
  intros Hn (H1 & H2 & H3 & H4 & H5 & H6). split_and!; try done. intros Hr. destruct (H5 Hr) as [Hlt Hd]. split; [done|].
  destruct rt; [|done]. destruct Hd as (k & Hk & Hp). exists k. split; [lia|done].
Qed.

Lemma Inv_sets L S S' : (forall b, S b = S' b) -> Inv L S -> Inv L S'.
Proof.
  intros E []. split; try done.
  - intros rt. rewrite <- E. apply v_heap0.
  - unfold count_part in *. by rewrite <- !E.
Qed.

(** The timer [x], out of its heap and given a new deadline, goes back. *)
Lemma reinsert_ok rt L S x e0 e h n : Inv L S -> mem L !! x = Some e0 -> event_type e0 = ty rt ->
  heap_out rt h (mem L) (S rt ∖ {[x]}) x -> x ∈ S rt ->
  event_ok (self L) e -> event_type e = ty rt -> destroy e = false -> links e = links e0 ->
  exists L', heap_insert_timer rt ((put_heap rt h L).[tick := n].[mem := <[x := e]> (mem L)]) x = Some L' /\
    Inv L' S /\ same_links L L' /\ mem L' = <[x := e]> (mem L) /\ tick L' = n.
Proof.
  intros Hi Hx Ht0 Hout Hin Hok Ht Hd Hl. pose proof (v_count _ _ Hi) as [Hc Hb].
  assert (Z.of_nat (size (S rt ∖ {[x]})) = Z.of_nat (size (S rt)) - 1) as Hsz.
  { rewrite size_difference, size_singleton by set_solver.
    assert (size (S rt) <> 0%nat) by (intros E0; apply size_empty_inv in E0; set_solver). lia. }
  destruct (heap_out_insert rt h (<[x := e]> (mem L)) (S rt ∖ {[x]}) x e e) as (h2 & Hins & Hpart);
    [by apply heap_out_upd|apply lookup_insert_eq|destruct rt; lia|done..|].
  rewrite insert_insert_eq in Hpart.
  assert ({[x]} ∪ S rt ∖ {[x]} = S rt) as ES
    by (apply set_eq; intros y; destruct (decide (y = x)); set_solver).
  rewrite ES in Hpart. rewrite heap_insert_timer_eq. simpl.
  replace (heap_of rt _) with h by by destruct rt. rewrite Hins. cbn [mbind option_bind].
  eexists. split; [done|]. split_and!; [|by destruct rt; eapply same_links_upd|by destruct rt..].
  apply (Inv_sets _ (put_set S rt (S rt))); [intros b; unfold put_set; by destruct (Bool.eqb_spec b rt) as [->|]|].
  destruct (v_mem _ _ Hi) as [He Hbr].
  apply (Inv_timer rt L _ S x e h2); try (by destruct rt).
  - destruct rt; simpl; eauto.
  - intros e1 He1. congruence.
  - replace (heap_of (negb rt) _) with (heap_of (negb rt) L) by by destruct rt. apply (v_heap _ _ Hi).
Qed.


(** * Idles *)

(** What a round of idles does to an idle. *)
Definition idled (e e' : hevent) : Prop :=
  repeat e' = countdown (repeat e) /\ pending e' = true /\ destroy e' = (repeat e' =? 0) /\
  (ev_loop e', event_type e', event_id e', cb e', userdata e', privdata e', priority e', active e')
  = (ev_loop e, event_type e, event_id e, cb e, userdata e, privdata e, priority e, active e).

Lemma process_idles_ok nodes : forall L S ls, Inv L S -> Coll L ls -> NoDup nodes ->
  (forall x, x ∈ nodes -> live HEVENT_TYPE_IDLE (mem L) x) ->
  exists L' ls', process_idles_loop nodes L = Some (L', zlen nodes) /\ Inv L' S /\ Coll L' ls' /\
    (forall x, x ∈ concat ls' <-> x ∈ concat ls \/ x ∈ nodes) /\
    (forall x, (x ∈ nodes -> exists e e', mem L !! x = Some e /\ mem L' !! x = Some e' /\ idled e e') /\
               (x ∉ nodes -> mem L' !! x = mem L !! x)).
Proof.
  induction nodes as [|x nodes IH]; intros L S ls Hi Hc Hnd Hlive; cbn [process_idles_loop].
  { exists L, ls. split_and!; [done|done|done|set_solver|]. intros x. split; [set_solver|done]. }
  apply NoDup_cons in Hnd as [Hnx Hnd]. destruct (Hlive x) as (e & Hx & Ht & Hd); [by left|].
  rewrite (upd_ev_eq L x _ e Hx). cbn [mbind option_bind]. set (L1 := L.[mem := _]).
  assert (exists e1, mem L1 = <[x := e1]> (mem L) /\ e1 = e.[repeat := countdown (repeat e)])
    as (e1 & Em1 & Ee1).
  { eexists. split; [done|]. unfold countdown. destruct (_ =? INFINITE); [by destruct e|done]. }
  assert (skel e1 = skel e /\ links e1 = links e) as [Es1 El1] by by subst.
  assert (mem L1 !! x = Some e1) as Hx1 by (rewrite Em1; apply lookup_insert_eq).
  assert (Inv L1 S) as Hi1.
  { apply (Inv_core (L.[mem := <[x := e1]> (mem L)])); [|by eapply Inv_upd_same]. unfold core. by rewrite Em1. }
  assert (same_links L L1) as Hl1 by by eapply same_links_upd.
  rewrite (own_eq L1 S x e1 Hi1 Hx1). cbn [mbind option_bind].
  assert (exists L2 e2, (if repeat e1 =? 0 then __hidle_del L1 x else Some L1) = Some L2 /\ Inv L2 S /\
     same_links L1 L2 /\ mem L2 = <[x := e2]> (mem L1) /\ links e2 = links e1 /\
     (forall e3, marked e2 e3 -> idled e e3)) as (L2 & e2 & -> & Hi2 & Hl2 & Em2 & El2 & Hf).
  { destruct (Z.eqb_spec (repeat e1) 0) as [Er|Er].
    - destruct (__hidle_del_ok L1 S x e1 Hi1 Hx1) as (L2 & -> & Hi2 & Hk2 & Em2 & _ & _ & Eo); [by subst|].
      injection Eo as En _ _ _ _ _. exists L2, (e1.[destroy := true]). split_and!; [done|done| |done|done|].
      + destruct Hk2 as (Ep & _). by eapply same_links_upd.
      + intros e3 [o ->]. subst e1. simpl in *. split_and!; simpl; try done. by rewrite Er.
    - exists L1, e1. split_and!; [done|done|done|by rewrite insert_id|done|].
      intros e3 [o ->]. subst e1. simpl in *. split_and!; simpl; try done.
      rewrite Hd. by destruct (Z.eqb_spec (countdown (repeat e)) 0). }
  cbn [mbind option_bind]. assert (Coll L2 ls) as Hc2 by (eapply Coll_links; [|exact Hc]; by eapply same_links_trans).
  destruct (EVENT_PENDING_ok L2 S ls x e2) as (L3 & e3 & np & ps & -> & -> & Hm & Hi3 & Hc3);
    [done|done|rewrite Em2; apply lookup_insert_eq|].
  assert (ls_pend x e2 ls = ls_pend x e ls) as Els.
  { rewrite El1 in El2. injection El2 as E1 _ E2 _. unfold ls_pend, prio_index. by rewrite E1, E2. }
  rewrite Els in Hc3. set (L3 := L2.[mem := _].[npendings := _].[pendings := _]) in *.
  assert (mem L3 = <[x := e3]> (mem L)) as Em3 by (simpl; by rewrite Em2, Em1, !insert_insert_eq).
  cbn [mbind option_bind]. destruct (IH L3 S (ls_pend x e ls)) as (L4 & ls4 & -> & Hi4 & Hc4 & Hls4 & Hm4); [done|done|done| |].
  { intros y Hy. rewrite Em3. assert (y <> x) by congruence. rewrite live_insert_ne by done. apply Hlive. by right. }
  cbn [mbind option_bind]. exists L4, ls4. split_and!; [|done|done| |].
  - do 2 f_equal. rewrite zlen_cons. lia.
  - intros y. rewrite Hls4. rewrite (ls_pend_elem L ls x e y Hc Hx) by apply (io_priority L S x e Hi Hx). set_solver.
  - intros y. destruct (Hm4 y) as [H1 H2]. rewrite Em3 in H1, H2. destruct (decide (y = x)) as [->|].
    + split; [intros _|set_solver]. exists e, e3. rewrite H2, lookup_insert_eq by done. auto.
    + rewrite lookup_insert_ne in H1, H2 by done. split; [intros; apply H1; set_solver|intros; apply H2; set_solver].
Qed.

(** * Ready ios *)

(** The loop over the reported fds: ios are the only events it touches; an io is
    listed only when its fd was reported, and every reported one is when the
    count covers the buffer. *)
Lemma poll_loop_ok buf : forall L S ls nepoll nevents, Inv L S -> Coll L ls ->
  (forall n rev, (n, rev) ∈ buf -> ep_interest (epfd L) n <> None) ->
  exists L' ls' k, poll_loop L buf nepoll nevents = Some (L', k) /\ Inv L' S /\ Coll L' ls' /\
    (forall x, x ∈ concat ls -> x ∈ concat ls') /\
    (forall x, x ∈ concat ls' -> x ∈ concat ls \/ exists n rev, (n, rev) ∈ buf /\ zget (ios L) n = Some (Some x)) /\
    (zlen buf <= nepoll - nevents -> forall n rev x, (n, rev) ∈ buf -> rev <> 0 ->
       zget (ios L) n = Some (Some x) -> x ∈ concat ls') /\
    (forall x e, mem L !! x = Some e -> event_type e <> HEVENT_TYPE_IO -> mem L' !! x = Some e) /\
    (forall x e', mem L' !! x = Some e' -> event_type e' <> HEVENT_TYPE_IO -> mem L !! x = Some e') /\
    outside (L'.[npendings := 0]) = outside (L.[npendings := 0]) /\ dom (mem L') = dom (mem L) /\ self L' = self L.
Proof.
  induction buf as [|[n rev] buf IH]; intros L S ls nepoll nevents Hi Hc Hreg; cbn [poll_loop].
  { exists L, ls, nevents. split_and!; try done; [by left|]. intros _ n rev x Hin. by apply not_elem_of_nil in Hin. }
  assert (exists L1 ls1 k1, (if rev =? 0 then Some (L, nevents)
         else L ← poll_one L n rev; Some (L, nevents + 1)) = Some (L1, k1) /\ Inv L1 S /\ Coll L1 ls1 /\
     (forall x, x ∈ concat ls -> x ∈ concat ls1) /\
     (forall x, x ∈ concat ls1 -> x ∈ concat ls \/ zget (ios L) n = Some (Some x)) /\
     (rev <> 0 -> forall x, zget (ios L) n = Some (Some x) -> x ∈ concat ls1) /\ nevents <= k1 <= nevents + 1 /\
     (forall x e, mem L !! x = Some e -> event_type e <> HEVENT_TYPE_IO -> mem L1 !! x = Some e) /\
     (forall x e', mem L1 !! x = Some e' -> event_type e' <> HEVENT_TYPE_IO -> mem L !! x = Some e') /\
     outside (L1.[npendings := 0]) = outside (L.[npendings := 0]) /\ epfd L1 = epfd L /\ ios L1 = ios L /\
     dom (mem L1) = dom (mem L) /\ self L1 = self L)
    as (L1 & ls1 & k1 & -> & Hi1 & Hc1 & Hls1 & Hls1' & Hall1 & Hk1 & Hm1 & Hm1' & Ht1 & Ek1 & Ei1 & Ed1 & Es1).
  { destruct (Z.eqb_spec rev 0) as [->|Hrev]; [exists L, ls, nevents; split_and!; try done; [by left|lia]|].
    destruct (v_watch _ _ Hi) as (_ & Hw & _). destruct (Hw n) as (x & e & Hx & Ht & <-); [eapply Hreg; by left|].
    destruct (v_io _ _ Hi) as [_ Htbl]. unfold poll_one. rewrite (Htbl x e Hx Ht). cbn [mbind option_bind].
    rewrite (upd_ev_eq L x _ e Hx). cbn [mbind option_bind].
    match goal with |- context [L.[mem := <[x := ?q]> _]] => set (e1 := q) end.
    assert (skel e1 = skel e /\ links e1 = links e) as [Es1 El1] by (unfold e1; by destruct (has_flag _ _), (has_flag _ _)).
    set (L1 := L.[mem := _]). assert (Inv L1 S) as Hi1 by by eapply Inv_upd_same.
    assert (Coll L1 ls) as Hc1 by (apply (Coll_links L); [by eapply (same_links_upd L _ x e e1)|done]).
    destruct (EVENT_PENDING_ok L1 S ls x e1) as (L2 & e2 & np & ps & -> & -> & [o Hm] & Hi2 & Hc2);
      [done|done|apply lookup_insert_eq|].
    cbn [mbind option_bind]. eexists _, _, _. split; [done|]. split; [done|]. split; [exact Hc2|].
    assert (event_type e2 = HEVENT_TYPE_IO) as Ht2 by (rewrite Hm; simpl; injection Es1 as -> _ _ _ _ _ _ _ _ _; done).
    assert (forall y, y ∈ concat (ls_pend x e1 ls) <-> y = x \/ y ∈ concat ls) as Hel.
    { intros y. apply (ls_pend_elem L1 ls x e1 y Hc1); [apply lookup_insert_eq|].
      injection Es1 as _ _ _ _ _ Ep _ _ _ _. rewrite Ep. by apply (io_priority L S x e Hi Hx). }
    split_and!; [| | |lia|lia| | |done|done|done| |done].
    - intros y Hy. apply Hel. by right.
    - intros y [->|Hy]%Hel; [by right|by left].
    - intros _ y Hy. apply Hel. left. congruence.
    - intros y e0 Hy Hne. simpl. rewrite !lookup_insert_ne by congruence. done.
    - intros y e0. simpl. rewrite insert_insert_eq, lookup_insert_Some. intros [[<- <-]|[_ ?]] ?; [done|done].
    - simpl. rewrite insert_insert_eq, dom_insert_L. assert (x ∈ dom (mem L)) by (apply elem_of_dom; eauto). set_solver. }
  cbn [mbind option_bind]. destruct (Z.eqb_spec k1 nepoll) as [->|Hne].
  - exists L1, ls1, nepoll. split_and!; try done.
    + intros x Hx. destruct (Hls1' x Hx) as [|Hz]; [by left|]. right. exists n, rev. split; [by left|done].
    + rewrite zlen_cons. pose proof (zlen_nonneg buf). intros Hlen n' rev' x Hin Hrev.
      assert (buf = []) as -> by (destruct buf; [done|rewrite zlen_cons in *; pose proof (zlen_nonneg buf); lia]).
      apply list_elem_of_singleton in Hin. injection Hin as -> ->. auto.
  - destruct (IH L1 S ls1 nepoll k1) as (L2 & ls2 & k2 & -> & ? & ? & Hs2 & Hs2' & Hall2 & ? & ? & ? & ? & ?); [done|done| |].
    { intros n' rev' Hin. rewrite Ek1. eapply Hreg. by right. }
    rewrite Ei1 in Hs2', Hall2. exists L2, ls2, k2. split_and!; [done|done|done|auto| | |auto|auto|congruence..].
    + intros x [Hx|(n' & rev' & Hin & Hz)]%Hs2'.
      * destruct (Hls1' x Hx) as [|Hz]; [by left|]. right. exists n, rev. split; [by left|done].
      * right. exists n', rev'. split; [by right|done].
    + rewrite zlen_cons. intros Hlen n' rev' x [[= -> ->]|Hin]%elem_of_cons Hrev Hz; [auto|].
      eapply Hall2; [lia|done|done|done].
Qed.

(** * Passes over a heap *)

(** The clock and the calendar are ahead of [t]: deadlines do not wrap, and
    the next time of a period is later. *)
Definition ahead (rt : bool) (t : Z) (n : nat) : Prop :=
  if rt then forall n' mi ho da we mo, (n <= n')%nat -> period_ok (mi, ho, da, we, mo) ->
    t < u64 (HTime.cron_next_timeout zone mi ho da we mo (time_s (clock n')) * 1000000)
  else t + 2 ^ 32 * 1000 < 2 ^ 64.

Lemma ahead_mono rt t n n' : ahead rt t n -> (n <= n')%nat -> ahead rt t n'.
Proof. unfold ahead. destruct rt; [|done]. intros Ha Hn n'' mi ho da we mo Hn' Hp. apply Ha; [lia|done]. Qed.

(** The new deadline of a timer that stays. *)
Lemma rearm_ok rt t L S x e : Inv L S -> mem L !! x = Some e -> event_type e = ty rt ->
  next_timeout e <= t -> ahead rt t (tick L) ->
  forall h, exists next n, rearm clock zone (put_heap rt h L) x t
     = Some (put_heap rt h L).[tick := n].[mem := <[x := e.[next_timeout := next]]> (mem L)] /\
    (tick L <= n)%nat /\ next_deadline rt t (tick L) e next /\ 0 <= next.
Proof.
  intros Hi Hx Ht Hdue Ha h. destruct (v_mem _ _ Hi) as [He _].
  destruct (He x e Hx) as (El & [_ Hpd] & Hto & _).
  assert (own (put_heap rt h L) x = Some e) as Ho.
  { unfold own. replace (mem (put_heap rt h L)) with (mem L) by by destruct rt. rewrite Hx. simpl.
    replace (self (put_heap rt h L)) with (self L) by by destruct rt. by rewrite bool_decide_true. }
  unfold rearm. rewrite Ho. cbn [mbind option_bind]. unfold is_timeout, is_period. rewrite Ht.
  destruct rt; cbn [ty ahead] in *; rewrite ?bool_decide_true, ?bool_decide_false by done.
  - destruct (period e) as [[[[mi ho] da] we] mo] eqn:Ep. rewrite (upd_ev_eq _ x _ e) by done.
    eexists _, _. split; [done|]. simpl. split_and!; [lia| |apply u64_range].
    split; [apply Ha; [done|by apply Hpd]|]. exists (tick L). by rewrite Ep.
  - destruct Hto as [Hto Hn]; [done|]. cbv zeta.
    destruct (advance_ok (Z.to_nat ((t - next_timeout e) / (timeout e * 1000) + 1)) (next_timeout e) (timeout e * 1000) t)
      as (k & -> & Hk & Hlt & Hle); [lia|lia|lia|lia|].
    cbn [mbind option_bind]. rewrite (upd_ev_eq _ x _ e) by done.
    eexists _, (tick L). split; [by destruct L|]. split_and!; [lia| |nia]. split; [done|]. split; [auto|].
    exists k. ring.
Qed.

Lemma fire_timer_ok rt t L S ls x e : Inv L S -> Coll L ls -> mem L !! x = Some e -> x ∈ S rt ->
  next_timeout e <= t -> ahead rt t (tick L) ->
  exists L' S' e', fire_timer clock zone rt t L x = Some L' /\ Inv L' S' /\
    Coll L' (ls_pend x e ls) /\ mem L' = <[x := e']> (mem L) /\ fired rt t (tick L) e e' /\
    S' (negb rt) = S (negb rt) /\ (tick L <= tick L')%nat.
Proof.
  intros Hi Hc Hx Hin Hdue Ha. unfold fire_timer.
  pose proof Hin as (e0 & Hx0 & Ht & Hd)%(v_heap _ _ Hi rt). rewrite Hx in Hx0. symmetry in Hx0. simplify_eq.
  rewrite (upd_ev_eq L x _ e Hx). cbn [mbind option_bind].
  set (L1 := L.[mem := _]).
  assert (exists e1, mem L1 = <[x := e1]> (mem L) /\ e1 = e.[repeat := countdown (repeat e)])
    as (e1 & Em1 & Ee1).
  { eexists. split; [done|]. unfold countdown. destruct (_ =? INFINITE); [by destruct e|done]. }
  assert (skel e1 = skel e /\ links e1 = links e) as [Es1 El1] by by subst.
  assert (mem L1 !! x = Some e1) as Hx1 by (rewrite Em1; apply lookup_insert_eq).
  assert (Inv L1 S) as Hi1.
  { apply (Inv_core (L.[mem := <[x := e1]> (mem L)])); [|by eapply Inv_upd_same].
    unfold core. by rewrite Em1. }
  assert (same_links L L1) as Hl1 by by eapply same_links_upd.
  rewrite (own_eq L1 S x e1 Hi1 Hx1). cbn [mbind option_bind].
  assert (exists L2 S2 e2, (if repeat e1 =? 0 then __htimer_del L1 x
       else L ← heap_remove_timer rt L1 x; L ← rearm clock zone L x t; heap_insert_timer rt L x)
     = Some L2 /\ Inv L2 S2 /\ same_links L1 L2 /\ mem L2 = <[x := e2]> (mem L1) /\
     S2 (negb rt) = S (negb rt) /\ (tick L1 <= tick L2)%nat /\ links e2 = links e1 /\
     (forall e3, marked e2 e3 -> fired rt t (tick L) e e3)) as (L2 & S2 & e2 & -> & Hi2 & Hl2 & Em2 & ES & Htk & El2 & Hf).
  { destruct (Z.eqb_spec (repeat e1) 0) as [Er|Er].
    - destruct (__htimer_del_ok rt L1 S x e1 Hi1 Hx1) as (L2 & S2 & -> & Hi2 & Hk2 & Em2 & _ & _ & _ & Eo & ES); [by subst|].
      injection Eo as En Et _ _ _ _. exists L2, S2, (e1.[destroy := true]).
      split_and!; [done|done| |done|done|by rewrite Et|done|].
      + destruct Hk2 as (Ep & _). by eapply same_links_upd.
      + intros e3 [o ->]. subst e1. simpl in *. split_and!; simpl; try done. by rewrite Er.
    - pose proof (v_count _ _ Hi1) as [Hcnt Hb].
      destruct (heap_remove_out rt (heap_of rt L1) (mem L1) (S rt) x) as (h & Hr & Hout);
        [apply (v_heap _ _ Hi1)|done|destruct rt; lia|].
      rewrite heap_remove_timer_eq, Hr. cbn [mbind option_bind].
      destruct (rearm_ok rt t L1 S x e1 Hi1 Hx1) with (h := h) as (next & n & -> & Hn & Hnext & H0);
        [by subst|by subst|done|]. cbn [mbind option_bind].
      destruct (reinsert_ok rt L1 S x e1 (e1.[next_timeout := next]) h n) as (L2 & -> & Hi2 & Hl2 & Em2 & Etk);
        [done|done|by subst|done|done| |by subst|by subst|done|].
      { destruct (v_mem _ _ Hi1) as [He _]. destruct (He x e1 Hx1) as (? & [[? ?] ?] & Hto & ? & ? & ?).
        split_and!; simpl; try done. intros E. split; [by apply Hto|done]. }
      exists L2, S, (e1.[next_timeout := next]). split_and!; [done|done|done|done|done|lia|done|].
      intros e3 [o ->]. subst e1. simpl in *. split_and!; simpl; try done.
      destruct (Z.eqb_spec (countdown (repeat e)) 0); done. }
  cbn [mbind option_bind]. assert (Coll L2 ls) as Hc2 by (eapply Coll_links; [|exact Hc]; by eapply same_links_trans).
  destruct (EVENT_PENDING_ok L2 S2 ls x e2) as (L3 & e3 & np & ps & -> & -> & Hm & Hi3 & Hc3);
    [done|done|rewrite Em2; apply lookup_insert_eq|].
  eexists _, S2, e3. split; [done|]. split_and!; [done| | |by apply Hf|done|done].
  - assert (ls_pend x e2 ls = ls_pend x e ls) as <-; [|done].
    rewrite El1 in El2. injection El2 as E1 _ E2 _. unfold ls_pend, prio_index. by rewrite E1, E2.
  - simpl. by rewrite Em2, Em1, !insert_insert_eq.
Qed.

(** The timers of one heap that are due at [t]. *)
Definition due (rt : bool) (t : Z) m (X : gset ptr) : gset ptr := filter (fun x => tmo m x <= t) X.

(** What one pass over a heap does: every due timer fires and every other event
    keeps its contents. *)
Definition pass (rt : bool) (t : Z) (n : nat) (D : gset ptr) m m' : Prop :=
  forall x, (x ∈ D -> exists e e', m !! x = Some e /\ m' !! x = Some e' /\ fired rt t n e e') /\
            (x ∉ D -> m' !! x = m !! x).

Lemma due_step rt t n m X X' D x e e' : D = due rt t m X -> x ∈ D -> m !! x = Some e -> event_type e = ty rt ->
  (forall y, y ∈ X <-> live (ty rt) m y) -> (forall y, y ∈ X' <-> live (ty rt) (<[x := e']> m) y) ->
  fired rt t n e e' -> due rt t (<[x := e']> m) X' = D ∖ {[x]}.
Proof.
  intros -> Hin Hx Ht HX HX' (Hr & _ & Hd & _ & Hlate & Heq). apply set_eq. intros y. unfold due.
  rewrite elem_of_difference, elem_of_singleton, !elem_of_filter, HX, HX'.
  destruct (decide (y = x)) as [->|Hne].
  - split; [|tauto]. intros [Hle [E1 E2]%live_insert]. rewrite Hd in E2. apply Z.eqb_neq in E2.
    destruct (Hlate E2) as [Hlt _]. unfold tmo in Hle. rewrite lookup_insert_eq in Hle. lia.
  - rewrite live_insert_ne, tmo_insert_ne by done. tauto.
Qed.

Lemma pass_step rt t n n' D x e e' m m' : x ∈ D -> m !! x = Some e -> fired rt t n e e' -> (n <= n')%nat ->
  pass rt t n' (D ∖ {[x]}) (<[x := e']> m) m' -> pass rt t n D m m'.
Proof.
  intros Hin Hx Hf Hn Hp y. destruct (Hp y) as [H1' H2].
  assert (y ∈ D ∖ {[x]} -> exists e0 e1, <[x := e']> m !! y = Some e0 /\ m' !! y = Some e1 /\ fired rt t n e0 e1) as H1.
  { intros Hy. destruct (H1' Hy) as (e0 & e1 & ? & ? & Hf'). exists e0, e1. eauto using fired_mono. }
  clear H1'. destruct (decide (y = x)) as [->|Hne].
  - split; [|done]. intros _. exists e, e'. rewrite H2, lookup_insert_eq by set_solver. done.
  - rewrite lookup_insert_ne in H1, H2 by done. split; [intros; apply H1; set_solver|intros; apply H2; set_solver].
Qed.

Lemma process_timers_pass rt t f : forall L S ls D, Inv L S -> Coll L ls -> ahead rt t (tick L) ->
  D = due rt t (mem L) (S rt) -> (size D <= f)%nat ->
  exists L' S' ls', __hloop_process_timers clock zone f rt t L = Some (L', Z.of_nat (size D)) /\
    Inv L' S' /\ Coll L' ls' /\ pass rt t (tick L) D (mem L) (mem L') /\
    (forall x, x ∈ concat ls' <-> x ∈ concat ls \/ x ∈ D) /\
    due rt t (mem L') (S' rt) = ∅ /\ S' (negb rt) = S (negb rt) /\ (tick L <= tick L')%nat.
Proof.
  induction f as [|f IH]; intros L S ls D Hi Hc Ha HD Hsz.
  all: pose proof (v_heap _ _ Hi rt) as (Hok & HX & _).
  all: pose proof (th_root_ok (key_lt (tmo (mem L))) (heap_of rt L) (S rt) Hok) as Hroot.
  all: cbn [__hloop_process_timers]; replace (heap_root_timer rt L) with (th_root (heap_of rt L)) by by destruct rt.
  all: destruct (th_root (heap_of rt L)) as [x|].
  2,4: assert (D = ∅) as -> by (rewrite HD, Hroot; unfold due; set_solver);
    exists L, S, ls; rewrite size_empty; split_and!; [done|done|done|done|set_solver|done|done|done].
  all: destruct Hroot as [Hin Hleast]; pose proof Hin as (e & Hx & Ht & Hd)%HX;
    rewrite (own_eq L S x e Hi Hx); cbn [mbind option_bind].
  all: assert (tmo (mem L) x = next_timeout e) as Etmo by (unfold tmo; by rewrite Hx).
  all: destruct (Z.ltb_spec t (next_timeout e)) as [Hlt|Hle].
  1,3: assert (D = ∅) as -> by (rewrite HD; apply set_eq; intros y; unfold due; rewrite elem_of_filter;
      split; [|set_solver]; intros [Hy Hin']; specialize (Hleast y Hin'); unfold key_lt in Hleast;
      apply Z.ltb_ge in Hleast; lia);
    exists L, S, ls; rewrite size_empty; split_and!; [done|done|done|done|set_solver|done|done|done].
  all: assert (x ∈ D) as HxD by (rewrite HD; apply elem_of_filter; split; [lia|done]).
  - assert (size D <> 0%nat) by (intros E0; apply size_empty_inv in E0; set_solver). lia.
  - destruct (fire_timer_ok rt t L S ls x e) as (L1 & S1 & e1 & -> & Hi1 & Hc1 & Em1 & Hf1 & ES1 & Htk1); [done..|].
    cbn [mbind option_bind].
    assert (due rt t (mem L1) (S1 rt) = D ∖ {[x]}) as HD1.
    { rewrite Em1. eapply due_step; [done|done|done|done|apply HX| |done].
      rewrite <- Em1. apply (v_heap _ _ Hi1 rt). }
    assert (size D = Datatypes.S (size (D ∖ {[x]}))) as HszD.
    { rewrite size_difference, size_singleton by set_solver.
      assert (size D <> 0%nat) by (intros E0; apply size_empty_inv in E0; set_solver). lia. }
    destruct (IH L1 S1 (ls_pend x e ls) (D ∖ {[x]})) as (L2 & S2 & ls2 & -> & Hi2 & Hc2 & Hp2 & Hls2 & HD2 & ES2 & Htk2);
      [done|done|by eapply ahead_mono|done|lia|].
    cbn [mbind option_bind]. exists L2, S2, ls2. split_and!; [|done|done| | |done|congruence|lia].
    + do 2 f_equal. lia.
    + eapply pass_step; [done|done|done|exact Htk1|]. by rewrite <- Em1.
    + intros y. rewrite Hls2. pose proof (io_priority L S x e Hi Hx).
      rewrite (ls_pend_elem L ls x e y Hc Hx) by done. rewrite elem_of_difference, elem_of_singleton.
      destruct (decide (y = x)); naive_solver.
Qed.

End Collect.
End LoopIter.
