(* ===== verification/LoopThm.v ===== *)
(** The theorems about whole iterations of the event loop: an iteration returns,
    touches no freed event, restores the invariant and empties the pending
    lists; due timers fire; the time spent waiting is bounded. *)
From Stdlib Require Import Sorting.Sorted.
From S2P Require Import Prelude Heap Containers HMath HTime HTimeThm Loop LoopInv LoopIter.
Import Heap HMath Loop LoopInv LoopIter.

Module LoopThm.

Section Iteration.
Context {H K : Type} {TH : TimerHeap H} {THL : TimerHeapLaws H} {EP : Epoll K} {EPL : EpollLaws K}.
Implicit Types (L : hloop H K) (S : bool -> gset ptr) (m : memory).

(** * Between iterations *)

(** Nothing is pending. *)
Definition quiet L : Prop :=
  pendings L = replicate (Z.to_nat HEVENT_PRIORITY_SIZE) None /\ npendings L = 0 /\
  forall x e, mem L !! x = Some e -> pending e = false.

Definition no_lists : list (list ptr) := replicate (Z.to_nat HEVENT_PRIORITY_SIZE) [].

Lemma quiet_Coll L : quiet L -> Coll L no_lists.
Proof.
  intros (Ep & En & Hp). assert (concat no_lists = []) as Ec by done. split.
  - done.
  - intros i o l Ho Hl. rewrite Ep in Ho. apply lookup_replicate in Ho as [-> _].
    apply lookup_replicate in Hl as [-> _]. done.
  - rewrite Ec. constructor.
  - intros i l x e Hl Hx. apply lookup_replicate in Hl as [-> _]. by apply not_elem_of_nil in Hx.
  - intros x e Hx. rewrite Ec, (Hp x e Hx). split; [done|]. intros Hin. by apply not_elem_of_nil in Hin.
  - by rewrite Ec, En.
Qed.

Lemma Coll_quiet L ls : Coll L ls -> concat ls = [] -> zlen (pendings L) = HEVENT_PRIORITY_SIZE -> quiet L.
Proof.
  intros [] Ec Hlen. split_and!.
  - apply list_eq. intros i. assert (length (pendings L) = Z.to_nat HEVENT_PRIORITY_SIZE) as Hl by (unfold zlen in Hlen; lia).
    destruct (decide (i < Z.to_nat HEVENT_PRIORITY_SIZE)%nat) as [Hi|Hi].
    + rewrite lookup_replicate_2 by done. destruct (lookup_lt_is_Some_2 (pendings L) i) as [o Ho]; [lia|].
      destruct (lookup_lt_is_Some_2 ls i) as [l Hli]; [lia|]. specialize (c_chain0 i o l Ho Hli).
      assert (l = []) as -> by (apply concat_nil_Forall in Ec; rewrite Forall_lookup in Ec; eauto).
      simpl in c_chain0. by rewrite Ho, c_chain0.
    + rewrite !lookup_ge_None_2 by (rewrite ?length_replicate; lia). done.
  - by rewrite c_count0, Ec.
  - intros x e Hx. destruct (pending e) eqn:E; [|done]. apply (c_pend0 x e Hx) in E. rewrite Ec in E.
    by apply not_elem_of_nil in E.
Qed.

(** The listed events are allocated, so there are no more of them. *)
Lemma Coll_size L ls S : Inv L S -> Coll L ls -> (length (concat ls) <= size (mem L))%nat.
Proof.
  intros Hi []. rewrite <- size_dom. rewrite <- (size_list_to_set (C := gset ptr)) by done.
  apply subseteq_size. intros x Hx. apply elem_of_list_to_set, elem_of_concat in Hx as (i & l & Hl & Hx).
  destruct (lookup_lt_is_Some_2 (pendings L) i) as [o Ho].
  { apply lookup_lt_Some in Hl. pose proof (v_plen _ _ Hi) as E. unfold zlen in E. lia. }
  destruct (chain_mem _ _ _ x (c_chain0 i o l Ho Hl) Hx) as (e & He & _). apply elem_of_dom. eauto.
Qed.

Context (clock : nat -> reading).

(** * Waiting *)

(** The bases a resynchronisation of the wall clock can leave in [start_ms]. *)
Definition base_ms L (b : Z) : Prop :=
  b = start_ms L \/ exists k, b = u64 (timeofday_ms (clock k) - u64 (hrtime_us (clock k) - start_hrtime L) / 1000).

(** Microsecond readings stay below the wrap-around. *)
Definition clock_ok : Prop := forall n, 0 <= hrtime_us (clock n) /\ hrtime_us (clock n) + 2 ^ 32 * 1000 < 2 ^ 64.

(** Same events, one later reading of the clock. *)
Definition ticked L L' : Prop :=
  core L' = core L /\ pendings L' = pendings L /\ npendings L' = npendings L /\ status L' = status L /\
  nios L' = nios L /\ nidles L' = nidles L /\ flags L' = flags L /\
  start_hrtime L' = start_hrtime L /\ base_ms L (start_ms L') /\
  exists n, cur_hrtime L' = hrtime_us (clock n) /\ tick L' = Datatypes.S n /\ (tick L <= n)%nat.

Lemma update_time_ticked L : ticked L (hloop_update_time clock L).
Proof.
  unfold hloop_update_time. cbv zeta.
  destruct (_ =? _); (split_and!; try done).
  - by left.
  - by exists (tick L).
  - right. exists (tick L). done.
  - by exists (tick L).
Qed.

Lemma base_ms_trans L L' b : start_hrtime L' = start_hrtime L -> base_ms L (start_ms L') ->
  base_ms L' b -> base_ms L b.
Proof. intros Es Hb [->|[k ->]]; [done|]. right. exists k. by rewrite Es. Qed.

Lemma root_alloc rt L S x : Inv L S -> th_root (heap_of rt L) = Some x ->
  exists e, mem L !! x = Some e /\ x ∈ S rt /\ event_type e = ty rt /\
    forall y, y ∈ S rt -> next_timeout e <= tmo (mem L) y.
Proof.
  intros Hi Hr. destruct (v_heap _ _ Hi rt) as (Hok & HX & _).
  pose proof (th_root_ok (key_lt (tmo (mem L))) (heap_of rt L) (S rt) Hok) as Hroot.
  rewrite Hr in Hroot. destruct Hroot as [Hin Hleast]. pose proof Hin as (e & He & Ht & _)%HX.
  exists e. split_and!; [done|done|done|]. intros y Hy. specialize (Hleast y Hy). unfold key_lt in Hleast.
  apply Z.ltb_ge in Hleast. assert (tmo (mem L) x = next_timeout e) by (unfold tmo; by rewrite He). lia.
Qed.

(** The earliest deadline of a heap relative to [now], or [us] when that is
    less. *)
Lemma root_min L S us now rt : Inv L S ->
  exists r, match th_root (heap_of rt L) with
       | None => Some us
       | Some x => e ← mem L !! x; Some (Z.min us (i64 (next_timeout e - now)))
       end = Some r /\ r <= us /\
    ((forall x, x ∈ S rt -> -2 ^ 63 <= tmo (mem L) x - now < 2 ^ 63) ->
       forall x, x ∈ S rt -> r <= tmo (mem L) x - now) /\
    (r = us \/ exists x, x ∈ S rt /\ ((forall x, x ∈ S rt -> -2 ^ 63 <= tmo (mem L) x - now < 2 ^ 63) -> r = tmo (mem L) x - now)).
Proof.
  intros Hi. destruct (th_root (heap_of rt L)) as [x|] eqn:Er.
  - destruct (root_alloc rt L S x Hi Er) as (e & Hx & Hin & Ht & Hleast). rewrite Hx. cbn [mbind option_bind].
    assert (tmo (mem L) x = next_timeout e) as E by (unfold tmo; by rewrite Hx).
    eexists. split; [done|]. split_and!; [lia| |].
    + intros Hnear y Hy. specialize (Hleast y Hy). specialize (Hnear x Hin). rewrite E in Hnear.
      rewrite i64_small by lia. lia.
    + destruct (Z.min_spec us (i64 (next_timeout e - now))) as [[_ ->]|[_ ->]]; [by left|]. right. exists x.
      split; [done|]. intros Hnear. specialize (Hnear x Hin). rewrite E in *. rewrite i64_small; lia.
  - exists us. split_and!; [done|lia| |by left]. intros _ y Hy. destruct (v_heap _ _ Hi rt) as (Hok & _).
    pose proof (th_root_ok (key_lt (tmo (mem L))) (heap_of rt L) (S rt) Hok) as Hroot. rewrite Er in Hroot. set_solver.
Qed.

(** blocktime returns, changing nothing but the time. *)
Lemma blocktime_ok L S ms : Inv L S ->
  exists L' bt, blocktime clock L ms = Some (L', bt) /\ (L' = L \/ ticked L L') /\
    (bt = None -> ticked L L') /\ (forall b, bt = Some b -> b <= ms).
Proof.
  intros Hi. unfold blocktime. destruct (ntimers L =? 0).
  { exists L, (Some ms). split_and!; [done|by left|done|]. intros b [= ->]. lia. }
  cbv zeta. set (L1 := hloop_update_time clock L). pose proof (update_time_ticked L) as Ht. fold L1 in Ht.
  assert (Inv L1 S) as Hi1 by (destruct Ht as (Ec & _); by apply (Inv_core L)).
  destruct (root_min L1 S (i32 (ms * 1000)) (cur_hrtime L1) false Hi1) as (r1 & E1 & _).
  cbn [heap_of] in E1. rewrite E1.
  cbn [mbind option_bind].
  destruct (root_min L1 S r1 (hloop_now_us L1) true Hi1) as (r2 & E2 & _).
  cbn [heap_of] in E2. rewrite E2.
  cbn [mbind option_bind]. destruct (r2 <? 0).
  - exists L1, None. split_and!; [done|by right|done|done].
  - exists L1, (Some (Z.min (i32 (r2 ÷ 1000 + 1)) ms)). split_and!; [done|by right|done|]. intros b [= <-]. lia.
Qed.

(** C6. The wait of an iteration is at most the requested one and ends before any
    timer is more than a millisecond late: for a result of [b] milliseconds,
    [1000 * (b - 1)] microseconds do not pass a deadline. Waiting is skipped only
    when some timer is overdue. *)
Theorem wait_is_bounded L S ms : Inv L S -> 0 <= ms -> ms * 1000 < 2 ^ 31 ->
  let L1 := hloop_update_time clock L in
  let now (rt : bool) := if rt then hloop_now_us L1 else cur_hrtime L1 in
  (forall rt x, x ∈ S rt -> -2 ^ 63 <= tmo (mem L) x - now rt < 2 ^ 63) ->
  exists L' bt, blocktime clock L ms = Some (L', bt) /\
    match bt with
    | Some b => 0 <= b <= ms /\ forall rt x, x ∈ S rt -> 1000 * (b - 1) <= tmo (mem L) x - now rt
    | None => exists rt x, x ∈ S rt /\ tmo (mem L) x < now rt
    end.
Proof.
  intros Hi H0 Hms L1 now Hnear. unfold blocktime. destruct (Z.eqb_spec (ntimers L) 0) as [E|_].
  { exists L, (Some ms). split; [done|]. split; [lia|]. intros rt x Hx. destruct (v_count _ _ Hi) as [Hc _].
    assert (size (S rt) <> 0%nat) by (intros E0; apply size_empty_inv in E0; set_solver). destruct rt; lia. }
  cbv zeta. fold L1. rewrite (i32_small (ms * 1000)) by lia.
  destruct (update_time_core clock L) as [Ec _]. fold L1 in Ec.
  assert (Inv L1 S) as Hi1 by by apply (Inv_core L). injection Ec as _ Em _ _ _ _ _ _ _ _ _ _ _ _.
  assert (mem L1 = mem L) as Em1 by done. rewrite <- Em1 in Hnear |- *.
  destruct (root_min L1 S (ms * 1000) (cur_hrtime L1) false Hi1) as (r1 & E1 & Hr1 & Hle1 & Hor1).
  cbn [heap_of] in E1. rewrite E1. cbn [mbind option_bind].
  destruct (root_min L1 S r1 (hloop_now_us L1) true Hi1) as (r2 & E2 & Hr2 & Hle2 & Hor2).
  cbn [heap_of] in E2. rewrite E2. cbn [mbind option_bind].
  specialize (Hle1 (Hnear false)). specialize (Hle2 (Hnear true)).
  destruct (Z.ltb_spec r2 0) as [Hneg|Hpos].
  - exists L1, None. split; [done|]. destruct Hor2 as [->|(x & Hx & Hr)].
    + destruct Hor1 as [->|(x & Hx & Hr)]; [lia|]. exists false, x. split; [done|].
      specialize (Hr (Hnear false)). subst now. simpl. lia.
    + exists true, x. split; [done|]. specialize (Hr (Hnear true)). subst now. simpl. lia.
  - assert (0 <= r2 ÷ 1000 <= r2) as Hq by (rewrite Z.quot_div_nonneg by lia; zdm).
    assert (1000 * (r2 ÷ 1000) <= r2) as Hq' by (rewrite Z.quot_div_nonneg by lia; zdm).
    rewrite i32_small by lia. eexists L1, (Some _). split; [done|]. split; [lia|].
    intros [] x Hx; subst now; simpl; [specialize (Hle2 x Hx)|specialize (Hle1 x Hx)]; lia.
Qed.

Context (zone : HTime.zone).

(** The calendar names a next time past the loop's notion of now, for every pattern that
    can be a period. *)
Definition calendar_ahead L : Prop := forall b n n' mi ho da we mo, base_ms L b -> (n <= n')%nat -> period_ok (mi, ho, da, we, mo) ->
  u64 (u64 (b * 1000) + u64 (hrtime_us (clock n) - start_hrtime L))
  < u64 (HTime.cron_next_timeout zone mi ho da we mo (time_s (clock n')) * 1000000).

(** The monotonic clock and the calendar clock agree to the second: the loop's time,
    taken from an earlier reading, has not reached the second after the calendar's; and
    the zone has no summer time, with which a calendar time can lie in the past
    ([HTimeThm.cron_in_the_past]). *)
Definition clocks_agree L : Prop := HTimeThm.fixed zone /\ forall b n n', base_ms L b -> (n <= n')%nat ->
  0 <= time_s (clock n') < 2 ^ 43 /\
  u64 (u64 (b * 1000) + u64 (hrtime_us (clock n) - start_hrtime L)) < (time_s (clock n') + 1) * 1000000.

Lemma next_period_range n mi ho da we mo : HTimeThm.fixed zone -> period_ok (mi, ho, da, we, mo) -> 0 <= time_s (clock n) < 2 ^ 43 ->
  (time_s (clock n) + 1) * 1000000 <= u64 (HTime.cron_next_timeout zone mi ho da we mo (time_s (clock n)) * 1000000).
Proof.
  intros Hz (? & ? & ? & ? & ?) Ht. pose proof (HTimeThm.cron_ahead zone Hz mi ho da we mo (time_s (clock n))) as Ha.
  pose proof (HTimeThm.cron_bound zone Hz mi ho da we mo (time_s (clock n))) as Hb. rewrite u64_small; lia.
Qed.
Lemma calendar_ahead_ok L : clocks_agree L -> calendar_ahead L.
Proof.
  intros [Hz Hc] b n n' mi ho da we mo Hb Hn Hp. destruct (Hc b n n' Hb Hn) as [Ht Hlt]. pose proof (next_period_range n' mi ho da we mo Hz Hp Ht). lia.
Qed.

(** The loop's time, after reading [n], is behind every later calendar time. *)
Lemma ticked_ahead L L' : clock_ok -> calendar_ahead L -> ticked L L' ->
  ahead clock zone false (cur_hrtime L') (tick L') /\
  ahead clock zone true (hloop_now_us L') (tick L').
Proof.
  intros Hck Hcal (_ & _ & _ & _ & _ & _ & _ & Es & Hb & n & Ec & Et & Hn). rewrite Ec, Et. split.
  - simpl. destruct (Hck n). lia.
  - simpl. intros n' mi ho da we mo Hle Hp. unfold hloop_now_us. rewrite Es, Ec. apply Hcal; [done|lia|done].
Qed.

(** * Due timers *)

Lemma sets_disjoint L S x rt : Inv L S -> x ∈ S rt -> x ∉ S (negb rt).
Proof.
  intros Hi (e & He & Ht & _)%(v_heap _ _ Hi rt) (e' & He' & Ht' & _)%(v_heap _ _ Hi (negb rt)).
  rewrite He in He'. simplify_eq. destruct rt; simplify_eq/=; congruence.
Qed.

Lemma pass_dom rt t n D m m' : pass clock zone rt t n D m m' -> dom m' = dom m.
Proof.
  intros Hp. apply set_eq. intros x. rewrite !elem_of_dom. destruct (Hp x) as [H1 H2].
  destruct (decide (x ∈ D)) as [Hx|Hx]; [|by rewrite H2].
  destruct (H1 Hx) as (e & e' & -> & -> & _). split; eauto.
Qed.

Lemma due_frame rt t m m' X : (forall x, x ∈ X -> m' !! x = m !! x) -> due rt t m' X = due rt t m X.
Proof.
  intros Hm. apply set_eq. intros x. unfold due. rewrite !elem_of_filter. unfold tmo.
  split; intros [Hle Hx]; (split; [|done]); specialize (Hm x Hx); rewrite Hm in * || rewrite <- Hm in *; done.
Qed.

Lemma two_pass_dom t0 t1 n (D0 D1 : gset ptr) m m' :
  (forall x, (x ∈ D0 -> exists e e', m !! x = Some e /\ m' !! x = Some e' /\ fired clock zone false t0 n e e') /\
     (x ∈ D1 -> exists e e', m !! x = Some e /\ m' !! x = Some e' /\ fired clock zone true t1 n e e') /\
     (x ∉ D0 -> x ∉ D1 -> m' !! x = m !! x)) -> dom m' = dom m.
Proof.
  intros Hm. apply set_eq. intros x. rewrite !elem_of_dom. destruct (Hm x) as (H0 & H1 & H2).
  destruct (decide (x ∈ D0)) as [Hx|Hx]; [destruct (H0 Hx) as (e & e' & -> & -> & _); split; eauto|].
  destruct (decide (x ∈ D1)) as [Hx'|Hx']; [destruct (H1 Hx') as (e & e' & -> & -> & _); split; eauto|].
  by rewrite H2.
Qed.

Lemma idled_dom (nodes : list ptr) m m' :
  (forall x, (x ∈ nodes -> exists e e', m !! x = Some e /\ m' !! x = Some e' /\ idled e e') /\
     (x ∉ nodes -> m' !! x = m !! x)) -> dom m' = dom m.
Proof.
  intros Hm. apply set_eq. intros x. rewrite !elem_of_dom. destruct (Hm x) as (H0 & H1).
  destruct (decide (x ∈ nodes)) as [Hx|Hx]; [destruct (H0 Hx) as (e & e' & -> & -> & _); split; eauto|].
  by rewrite H1.
Qed.

(** Both passes: exactly the due timers fire, each of them once. *)
Lemma process_timers_ok L S ls D0 D1 : Inv L S -> Coll L ls ->
  ahead clock zone false (cur_hrtime L) (tick L) ->
  ahead clock zone true (hloop_now_us L) (tick L) ->
  D0 = due false (cur_hrtime L) (mem L) (S false) -> D1 = due true (hloop_now_us L) (mem L) (S true) ->
  exists L' S' ls', hloop_process_timers clock zone L = Some (L', Z.of_nat (size D0 + size D1)) /\
    Inv L' S' /\ Coll L' ls' /\
    (forall x, x ∈ concat ls' <-> x ∈ concat ls \/ x ∈ D0 \/ x ∈ D1) /\
    (forall x, (x ∈ D0 -> exists e e', mem L !! x = Some e /\ mem L' !! x = Some e' /\ fired clock zone false (cur_hrtime L) (tick L) e e') /\
       (x ∈ D1 -> exists e e', mem L !! x = Some e /\ mem L' !! x = Some e' /\ fired clock zone true (hloop_now_us L) (tick L) e e') /\
       (x ∉ D0 -> x ∉ D1 -> mem L' !! x = mem L !! x)) /\
    (forall x, x ∈ S' false -> cur_hrtime L < tmo (mem L') x) /\
    (forall x, x ∈ S' true -> hloop_now_us L < tmo (mem L') x).
Proof.
  intros Hi Hc Ha0 Ha1 E0 E1. unfold hloop_process_timers. cbv zeta.
  assert (forall rt t L S, Inv L S -> (size (due rt t (mem L) (S rt)) <= Z.to_nat (ntimers L))%nat) as Hfuel.
  { intros rt t L0 S0 Hi0. destruct (v_count _ _ Hi0) as [-> _].
    assert (size (due rt t (mem L0) (S0 rt)) <= size (S0 rt))%nat by (apply subseteq_size; unfold due; set_solver).
    destruct rt; lia. }
  destruct (process_timers_pass clock zone false (cur_hrtime L) (Z.to_nat (ntimers L)) L S ls D0)
    as (L1 & S1 & ls1 & -> & Hi1 & Hc1 & Hp1 & Hls1 & Hd1 & ES1 & Htk1); [done|done|done|done|rewrite E0; auto|].
  cbn [mbind option_bind]. simpl negb in ES1.
  assert (D0 ⊆ S false) as Hs0 by (rewrite E0; unfold due; set_solver).
  assert (D1 ⊆ S true) as Hs1 by (rewrite E1; unfold due; set_solver).
  assert (due true (hloop_now_us L) (mem L1) (S1 true) = D1) as Ed1.
  { rewrite ES1, E1. apply due_frame. intros x Hx. apply Hp1. intros Hx0. apply Hs0 in Hx0.
    by apply (sets_disjoint L S x false Hi Hx0). }
  destruct (process_timers_pass clock zone true (hloop_now_us L) (Z.to_nat (ntimers L1)) L1 S1 ls1 D1)
    as (L2 & S2 & ls2 & -> & Hi2 & Hc2 & Hp2 & Hls2 & Hd2 & ES2 & Htk2);
    [done|done|by eapply ahead_mono|done|rewrite <- Ed1; auto|].
  cbn [mbind option_bind]. simpl negb in ES2.
  assert (forall rt t m X x, due rt t m X = ∅ -> x ∈ X -> t < tmo m x) as Hnone.
  { intros rt t m X x He Hx. destruct (Z.lt_ge_cases t (tmo m x)); [done|].
    assert (x ∈ due rt t m X) by (apply elem_of_filter; done). set_solver. }
  exists L2, S2, ls2. split_and!; [|done|done| | | |].
  - do 2 f_equal. lia.
  - intros x. rewrite Hls2, Hls1. tauto.
  - intros x. destruct (Hp1 x) as [A1 A2], (Hp2 x) as [B1 B2].
    assert (x ∈ D0 -> x ∉ D1) as Hdj.
    { intros Hx0 Hx1. apply Hs0 in Hx0. by apply (sets_disjoint L S x false Hi Hx0), Hs1. }
    split_and!.
    + intros Hx. rewrite B2 by auto. auto.
    + intros Hx. assert (x ∉ D0) by (intros ?; by apply Hdj). rewrite <- A2 by done.
      destruct (B1 Hx) as (e & e' & ? & ? & Hf). exists e, e'. eauto using fired_mono.
    + intros. rewrite B2 by done. auto.
  - intros x0 Hx0. apply (Hnone false _ _ (S2 false)); [|done]. rewrite ES2, <- Hd1. apply due_frame.
    intros x Hx. apply Hp2. intros Hx1.
    assert (x ∈ S1 true) as Hx1' by (rewrite ES1; auto). by apply (sets_disjoint L1 S1 x true Hi1 Hx1').
  - intros x0 Hx0. by apply (Hnone true _ _ (S2 true)).
Qed.

(** * A new loop *)

Lemma loop_init_ok id : Inv (hloop_init clock id : hloop H K) (fun _ => ∅) /\ quiet (hloop_init clock id : hloop H K).
Proof.
  assert (forall x e, (∅ : memory) !! x = Some e -> False) as Hm by (intros x e He; by rewrite lookup_empty in He).
  split.
  - split; simpl.
    + intros rt. split_and!; [destruct rt; apply th_init_ok| |].
      * intros x. split; [set_solver|]. intros (e & He & _). by destruct (Hm _ _ He).
      * intros x e He. by destruct (Hm _ _ He).
    + done.
    + split; [intros x e He|intros x [e He]]; by destruct (Hm _ _ He).
    + split_and!; [constructor| |done|done]. intros x. split; [intros Hx; by apply not_elem_of_nil in Hx|].
      intros (e & He & _). by destruct (Hm _ _ He).
    + split; [intros n x Hn; by rewrite lookup_nil in Hn|]. intros x e He. by destruct (Hm _ _ He).
    + split; [by left|]. intros n x Hn. by rewrite lookup_nil in Hn.
    + exists []. exists [], []. done.
    + done.
    + split_and!; [|intros n Hn; by rewrite ep_new_ok in Hn|intros; apply ep_new_ok].
      intros x e He. by destruct (Hm _ _ He).
  - split_and!; [done|done|]. intros x e He. by destruct (Hm _ _ He).
Qed.

(** C2. hloop_process_timers returns, having fired exactly the due timers, each
    once: a due timer is pending, its count is one lower, and it is destroyed at
    zero or else back in its heap with its next deadline, which is after now: for
    a timeout the first one past now in whole steps of its period, for a period
    timer the next time of its own calendar pattern after a reading of the clock
    taken in this call; no other event changed and no live timer is due. Whatever
    was already waiting in the pending lists is still there. The calendar is taken to
    name times after the loop's now ([ahead], which [ticked_ahead] derives). *)
Theorem due_timers_fire_once L S ls :
  Inv L S -> Coll L ls -> ahead clock zone false (cur_hrtime L) (tick L) ->
  ahead clock zone true (hloop_now_us L) (tick L) ->
  exists L' S' n, hloop_process_timers clock zone L = Some (L', n) /\ Inv L' S' /\
    (forall (rt : bool) x e, let now := if rt then hloop_now_us L else cur_hrtime L in
       mem L !! x = Some e -> event_type e = ty rt ->
       if destroy e || (now <? next_timeout e) then mem L' !! x = Some e
       else exists e', mem L' !! x = Some e' /\ fired clock zone rt now (tick L) e e') /\
    (forall x e, mem L !! x = Some e -> (forall rt, event_type e <> ty rt) -> mem L' !! x = Some e) /\
    (forall (rt : bool) x, x ∈ S' rt -> (if rt then hloop_now_us L else cur_hrtime L) < tmo (mem L') x) /\
    exists ls', Coll L' ls' /\ forall x, x ∈ concat ls -> x ∈ concat ls'.
Proof.
  intros Hi Hc Ha0 Ha1.
  destruct (process_timers_ok L S ls _ _ Hi Hc Ha0 Ha1 eq_refl eq_refl)
    as (L' & S' & ls' & E & Hi' & Hc' & Hls & Hm & Hn0 & Hn1).
  eexists L', S', _. split_and!; [exact E|done| | |intros []; auto|exists ls'; split; [done|naive_solver]].
  - intros rt x e now Hx Ht. destruct (Hm x) as (M0 & M1 & M2).
    assert (forall b t, x ∈ due b t (mem L) (S b) <-> (b = rt /\ destroy e = false /\ next_timeout e <= t)) as Hdue.
    { intros b t. unfold due. rewrite elem_of_filter. destruct (v_heap _ _ Hi b) as (_ & -> & _).
      unfold tmo. rewrite Hx. split.
      - intros [Hle (e0 & He0 & Ht0 & Hd0)]. rewrite Hx in He0. simplify_eq. split_and!; [|done|done].
        destruct b, rt; simplify_eq/=; congruence.
      - intros (-> & Hd & Hle). split; [done|]. by exists e. }
    rewrite Hdue in M0, M1. subst now.
    destruct (destroy e) eqn:Ed; simpl; [rewrite M2; [done|intros (_ & ? & _)%Hdue; done..]|].
    destruct rt.
    + destruct (Z.ltb_spec (hloop_now_us L) (next_timeout e)).
      * rewrite M2; [done|intros [? _]%Hdue; done|intros (_ & _ & ?)%Hdue; lia].
      * destruct M1 as (e1 & e2 & E1 & ? & ?); [done|]. rewrite Hx in E1. injection E1 as <-. eauto.
    + destruct (Z.ltb_spec (cur_hrtime L) (next_timeout e)).
      * rewrite M2; [done|intros (_ & _ & ?)%Hdue; lia|intros [? _]%Hdue; done].
      * destruct M0 as (e1 & e2 & E1 & ? & ?); [done|]. rewrite Hx in E1. injection E1 as <-. eauto.
  - intros x e Hx Ht. destruct (Hm x) as (_ & _ & M2). rewrite M2; [done|..]; unfold due; rewrite elem_of_filter;
      intros [_ Hin]; apply (v_heap _ _ Hi) in Hin as (e0 & He0 & Ht0 & _); rewrite Hx in He0; simplify_eq; by eapply Ht.
Qed.

Context (eventfd_open eventfd_write : nat -> Z) (eventfd_count : nat -> nat).
Context (epoll_wait : nat -> K -> Z -> Z * list (Z * Z)).
Context (callback : Z -> hevent -> hloop H K -> list action).

Abbreviation process_pendings := (hloop_process_pendings clock zone eventfd_open eventfd_write callback eventfd_count).
Abbreviation process_events := (hloop_process_events clock zone eventfd_open eventfd_write epoll_wait callback eventfd_count).
Abbreviation well_behaved := (well_behaved clock zone eventfd_open eventfd_write callback).
Abbreviation spares := (spares clock zone eventfd_open eventfd_write callback).

(** * Dispatching what was collected *)

(** Dispatch: callbacks run by priority, highest first, the most recently linked
    of one priority first; then nothing is pending. *)
Lemma process_pendings_ok L S ls : (forall t, eventfd_open t < 2 ^ 30) -> well_behaved ->
  Inv L S -> Coll L ls -> Z.of_nat (size (mem L)) < 2 ^ 32 ->
  exists L' S' tr, process_pendings L = Some (L', tr) /\ Inv L' S' /\ quiet L' /\
    tr `sublist_of` concat (reverse ls) /\
    (forall x, spares x -> runnable (mem L) x -> x ∈ tr).
Proof.
  intros Hfd Hcb Hi Hc Hsz. unfold hloop_process_pendings. pose proof (Coll_size L ls S Hi Hc) as Hlen.
  pose proof Hc as []. assert (npendings L = zlen (concat ls)) as Hn.
  { rewrite c_count0. unfold zlen. apply u32_small. lia. }
  destruct (Z.eqb_spec (npendings L) 0) as [E|E].
  - assert (concat ls = []) as Ec by (apply length_zero_iff_nil; unfold zlen in Hn; lia).
    exists L, S, []. split_and!; [done|done| |apply sublist_nil_l|].
    + eapply Coll_quiet; [done|done|apply (v_plen _ _ Hi)].
    + intros x _ (e & He & Hp & _). apply (c_pend0 x e He) in Hp. by rewrite Ec in Hp.
  - destruct (pending_lists_ok clock zone eventfd_open eventfd_write eventfd_count callback Hfd Hcb
      (Z.to_nat HEVENT_PRIORITY_SIZE) ls L S Hi) as (L1 & S1 & tr & E1 & Hi1 & Hsub & Ep1 & Hp1 & Hr1).
    { split_and!.
      - pose proof (v_plen _ _ Hi) as Hp. unfold zlen in Hp. rewrite c_len0. lia.
      - by rewrite c_len0.
      - rewrite take_ge by (by rewrite c_len0). done.
      - intros i o l _. eauto. }
    rewrite E1. cbn [mbind option_bind]. rewrite take_ge in Hsub, Hp1, Hr1 by (by rewrite c_len0).
    exists (L1.[npendings := 0]), S1, tr. split_and!; [done|by apply (Inv_core L1)| |done|].
    2: { intros x Hs Hx. apply Hr1; [done|done|]. destruct Hx as (e & He & Hp & _). by apply (c_pend0 x e He). }
    split_and!; [|done|].
    + simpl. rewrite Ep1, drop_ge; [by rewrite app_nil_r|].
      pose proof (v_plen _ _ Hi) as Hp. unfold zlen in Hp. lia.
    + simpl. intros x e Hx. destruct (pending e) eqn:Epe; [|done].
      destruct (Hp1 x e Hx Epe) as [Hnx (e0 & He0 & Hpe0)]. by apply (c_pend0 x e0 He0) in Hpe0.
Qed.

(** * One iteration *)

(** epoll_wait reports watched fds only. *)
Definition polls_watched : Prop := forall t k ms n rev,
  (n, rev) ∈ snd (epoll_wait t k ms) -> ep_interest k n <> None.

Lemma process_ios_ok L S ls ms : polls_watched -> Inv L S -> Coll L ls ->
  exists L' ls' n, hloop_process_ios epoll_wait L ms = Some (L', n) /\ Inv L' S /\ Coll L' ls' /\
    dom (mem L') = dom (mem L) /\ start_ms L' = start_ms L /\ start_hrtime L' = start_hrtime L /\
    (tick L <= tick L')%nat.
Proof.
  intros Hw Hi Hc. unfold hloop_process_ios, iowatcher_poll_events.
  destruct (epoll_size L) as [sz|] eqn:Esz; [|exists L, ls, 0; done].
  assert (exists L' ls' n, (let '(nepoll, buf) := epoll_wait (tick L) (epfd L) ms in
      let L := L.[tick := Datatypes.S (tick L)] in
      if nepoll <? 0 then Some (L, if nepoll =? - EINTR then 0 else nepoll)
      else if nepoll =? 0 then Some (L, 0)
      else poll_loop L (take (Z.to_nat sz) buf) nepoll 0) = Some (L', n) /\ Inv L' S /\ Coll L' ls' /\
    dom (mem L') = dom (mem L) /\ start_ms L' = start_ms L /\ start_hrtime L' = start_hrtime L /\
    (tick L <= tick L')%nat) as (L' & ls' & n & E & Hi' & Hc' & Hd & E1 & E2 & E3).
  { specialize (Hw (tick L) (epfd L) ms). destruct (epoll_wait (tick L) (epfd L) ms) as [nepoll buf]. cbv zeta.
    set (L1 := L.[tick := _]). destruct (core_step L L1 S) as (Hi1 & _); [done..|].
    assert (Coll L1 ls) as Hc1 by (apply (Coll_links L); done).
    destruct (nepoll <? 0); [eexists L1, ls, _; split_and!; try done; simpl; lia|].
    destruct (nepoll =? 0); [eexists L1, ls, _; split_and!; try done; simpl; lia|].
    destruct (poll_loop_ok (take (Z.to_nat sz) buf) L1 S ls nepoll 0) as (L2 & ls2 & k & -> & ? & ? & _ & _ & _ & _ & _ & Eo & ? & ?);
      [done|done|intros n rev Hin; eapply Hw; apply elem_of_take in Hin as (i & Hin & _); by eapply list_elem_of_lookup_2|].
    injection Eo as E1 _ E3 E4 _. exists L2, ls2, k. split_and!; try done. lia. }
  destruct sz as [|p|p]; [exists L, ls, 0; done|..];
    (eexists L', ls', _; split; [|done]); revert E; destruct (epoll_wait (tick L) (epfd L) ms) as [nepoll buf];
    cbv zeta; intros ->; done.
Qed.


(** * Operations *)

Abbreviation exec_all := (exec_all clock zone eventfd_open eventfd_write).
Abbreviation safe := (safe clock zone eventfd_open eventfd_write).

(** C3. Any sequence of valid operations on a new loop (timers, periods, idles,
    signals, ios, posted events, status changes) returns: no operation touches a
    freed event or leaves a table. In the state it leaves, the two heaps hold
    exactly the live timers in deadline order, the idle list exactly the live
    idles, the counters count them, the io and signal tables name live events,
    and nothing became pending. *)
Theorem operations_keep_invariant id l :
  (forall t, eventfd_open t < 2 ^ 30) -> safe l (hloop_init clock id) ->
  exists L' S', exec_all l (hloop_init clock id) = Some L' /\ Inv L' S' /\
    forall x e, mem L' !! x = Some e -> pending e = false.
Proof.
  intros Hfd Hs. destruct (loop_init_ok id) as [Hi (_ & _ & Hp)].
  destruct (exec_all_ok clock zone eventfd_open eventfd_write Hfd l _ _ Hi Hs) as (L' & S' & E & Hi' & _ & _ & _ & Hk).
  exists L', S'. split_and!; [done|done|]. intros x e Hx. destruct (pending e) eqn:Ep; [|done].
  destruct (Hk x e Hx Ep) as (e0 & He0 & Hp0). rewrite (Hp x e0 He0) in Hp0. done.
Qed.

(** C4. In every state that valid operations reach, the kernel watches an fd
    for exactly the events its io asks for, and watches no fd without an io: the
    epoll_ctl calls of iowatcher_add_event and iowatcher_del_event never diverge
    from io->events. *)
Theorem epoll_mirrors_ios id l L' :
  (forall t, eventfd_open t < 2 ^ 30) -> safe l (hloop_init clock id) ->
  exec_all l (hloop_init clock id) = Some L' ->
  (forall x e, mem L' !! x = Some e -> event_type e = HEVENT_TYPE_IO ->
     zget (ios L') (fd e) = Some (Some x) /\
     ep_interest (epfd L') (fd e) = if events e =? 0 then None else Some (ep_mask (events e))) /\
  (forall n, ep_interest (epfd L') n <> None -> exists x, zget (ios L') n = Some (Some x)).
Proof.
  intros Hfd Hs E. destruct (loop_init_ok id) as [Hi _].
  destruct (exec_all_ok clock zone eventfd_open eventfd_write Hfd l _ _ Hi Hs) as (L1 & S1 & E1 & Hi1 & _).
  rewrite E in E1. injection E1 as <-. destruct (v_watch _ _ Hi1) as (W1 & W2 & _). destruct (v_io _ _ Hi1) as [_ T2]. split.
  - intros x e Hx Ht. split; [by apply T2|by apply (W1 x)].
  - intros n Hn. destruct (W2 n Hn) as (x & e & Hx & Ht & <-). eauto.
Qed.

(** * Posted events *)

(** Events posted to a loop are delivered in the order they were posted: when
    the count read from the eventfd covers the queue and the callbacks post
    nothing themselves, eventfd_read_cb runs the callback of every queued event
    that has one, oldest first, and leaves the queue empty. *)
Lemma posted_events_fifo n L l :
  Queue.rep (custom_events L) l -> (length l <= n)%nat ->
  (forall c ev L, is_Some (exec_all (callback c ev L) L)) ->
  (forall c ev L L', exec_all (callback c ev L) L = Some L' -> custom_events L' = custom_events L) ->
  exists L', Loop.eventfd_read_cb clock zone eventfd_open eventfd_write callback n L
      = Some (L', filter (fun ev => is_Some (cb ev)) l) /\ Queue.rep (custom_events L') [].
Proof.
  intros Hl Hn Hrun Hkeep. revert L l Hl Hn. induction n as [|n IH]; intros L l Hl Hn; simpl.
  { destruct l; simpl in Hn; [|lia]. by exists L. }
  rewrite (Queue.rep_is_empty _ l Hl). destruct l as [|ev l]; [by exists L|].
  rewrite bool_decide_false by done. rewrite (Queue.rep_front _ _ Hl). cbn [mbind option_bind head].
  destruct (Queue.rep_pop _ ev l Hl) as (q & -> & Hq & _). cbn [mbind option_bind].
  set (L1 := L.[custom_events := q]). simpl in Hn. rewrite filter_cons. destruct (cb ev) as [c|].
  - rewrite decide_True by eauto. destruct (Hrun c ev L1) as [L2 E2]. rewrite E2. cbn [mbind option_bind].
    destruct (IH L2 l) as (L3 & -> & H3); [by rewrite (Hkeep _ _ _ _ E2)|lia|]. by exists L3.
  - rewrite decide_False by (by intros [? ?]). apply IH; [done|lia].
Qed.

(** * Dispatch order *)

Definition prio_of m (x : ptr) : Z := match m !! x with Some e => priority e | None => 0 end.

(** What is listed above index [i] has a higher priority than what is below. *)
Lemma lists_sorted m ls : (forall i l x, ls !! i = Some l -> x ∈ l -> prio_of m x = Z.of_nat i - 5) ->
  StronglySorted (fun x y => prio_of m y <= prio_of m x) (concat (reverse ls)).
Proof.
  induction ls as [|l ls IH] using rev_ind; intros Hp; [constructor|].
  rewrite reverse_snoc. simpl.
  assert (forall x, x ∈ l -> prio_of m x = Z.of_nat (length ls) - 5) as Hl
    by (intros x; apply Hp; by rewrite lookup_app_r, Nat.sub_diag by lia).
  assert (forall x, x ∈ concat (reverse ls) -> prio_of m x <= Z.of_nat (length ls) - 5) as Hls.
  { intros x Hx. apply elem_of_concat in Hx as (i & l' & Hi & Hx).
    apply list_elem_of_lookup_2, elem_of_reverse, list_elem_of_lookup in Hi as [j Hj].
    rewrite reverse_involutive in Hj. pose proof (lookup_lt_Some _ _ _ Hj).
    rewrite (Hp j l' x); [lia| |done]. by rewrite lookup_app_l. }
  assert (StronglySorted (fun x y => prio_of m y <= prio_of m x) (concat (reverse ls))) as Hs.
  { apply IH. intros i l' x Hi. apply Hp. rewrite lookup_app_l; [done|]. by eapply lookup_lt_Some. }
  clear IH Hp. induction l as [|x l IHl]; simpl; [done|]. constructor.
  - apply IHl. intros y Hy. apply Hl. by right.
  - apply Forall_forall. intros y Hy. rewrite (Hl x) by left.
    apply elem_of_app in Hy as [Hy|Hy]; [rewrite (Hl y) by (by right)|specialize (Hls y Hy)]; lia.
Qed.

Lemma sublist_sorted {A} (R : A -> A -> Prop) l k : l `sublist_of` k -> StronglySorted R k -> StronglySorted R l.
Proof.
  induction 1 as [|x l k Hs IH|x l k Hs IH]; intros Hk; [done| |].
  - apply StronglySorted_inv in Hk as [Hk Hx]. constructor; [auto|].
    eapply Forall_forall. intros y Hy. rewrite Forall_forall in Hx. apply Hx. by eapply elem_of_sublist.
  - apply StronglySorted_inv in Hk as [Hk _]. auto.
Qed.

(** C5. hloop_process_pendings runs callbacks in order of priority, highest
    first, for pending events only and at most once per event, whatever the
    callbacks do; every event that is pending and active with a callback has it
    run, unless a callback takes its turn away by deleting or deactivating it;
    afterwards no event is pending and every list is empty. *)
Theorem callbacks_by_priority L S ls : (forall t, eventfd_open t < 2 ^ 30) -> well_behaved ->
  Inv L S -> Coll L ls -> Z.of_nat (size (mem L)) < 2 ^ 32 ->
  exists L' S' tr, process_pendings L = Some (L', tr) /\ Inv L' S' /\ quiet L' /\ NoDup tr /\
    StronglySorted (fun x y => prio_of (mem L) y <= prio_of (mem L) x) tr /\
    (forall x, x ∈ tr -> exists e, mem L !! x = Some e /\ pending e = true) /\
    (forall x, runnable (mem L) x -> spares x -> x ∈ tr).
Proof.
  intros Hfd Hcb Hi Hc Hsz.
  destruct (process_pendings_ok L S ls Hfd Hcb Hi Hc Hsz) as (L' & S' & tr & E & Hi' & Hq & Hsub & Hall).
  exists L', S', tr. pose proof Hc as [].
  assert (forall i l x, ls !! i = Some l -> x ∈ l -> exists e, mem L !! x = Some e /\ priority e = Z.of_nat i - 5) as Hin.
  { intros i l x Hl Hx. destruct (lookup_lt_is_Some_2 (pendings L) i) as [o Ho].
    { apply lookup_lt_Some in Hl. pose proof (v_plen _ _ Hi) as E0. unfold zlen in E0. lia. }
    destruct (chain_mem _ _ _ x (c_chain0 i o l Ho Hl) Hx) as (e & He & _). exists e. split; [done|].
    specialize (c_prio0 i l x e Hl Hx He). unfold HEVENT_PRIORITY_INDEX, HEVENT_LOWEST_PRIORITY in c_prio0. lia. }
  split_and!; [done|done|done| | | |auto].
  - eapply sublist_NoDup; [|exact Hsub]. by rewrite concat_reverse_perm.
  - eapply sublist_sorted; [exact Hsub|]. apply lists_sorted. intros i l x Hl Hx.
    destruct (Hin i l x Hl Hx) as (e & He & Hp). unfold prio_of. by rewrite He.
  - intros x Hx. pose proof (elem_of_sublist _ _ _ Hx Hsub) as Hx'.
    apply elem_of_concat in Hx' as (i & l & Hl & Hxl).
    apply list_elem_of_lookup_2, elem_of_reverse, list_elem_of_lookup in Hl as [j Hj].
    rewrite reverse_involutive in Hj.
    destruct (Hin j l x Hj Hxl) as (e & He & _). exists e. split; [done|]. apply (c_pend0 x e He), elem_of_concat. eauto.
Qed.

(** * A timer reset and deleted while it is pending *)

Abbreviation pending_walk := (pending_walk clock zone eventfd_open eventfd_write callback eventfd_count).

(** C33. htimer_reset clears the pending flag of a timer that is still linked in a
    pending list (EVENT_RESET), so that a later htimer_del in the same round frees it
    at once. In any loop, when the callback of a dispatched event resets and then
    deletes the timeout linked after it, the dispatch goes on from that timer, which
    is no longer allocated, and has no defined result; deleting it without the reset
    leaves it allocated until the dispatch is done with it. *)
Theorem reset_then_delete_frees_linked_timer L S x0 e0 c x e ms : Inv L S ->
  mem L !! x0 = Some e0 -> pending e0 = true -> active e0 = true -> cb e0 = Some c -> c <> hio_handle_events ->
  pending_next e0 = Some x -> x <> x0 -> mem L !! x = Some e -> event_type e = HEVENT_TYPE_TIMEOUT -> pending e = true ->
  0 <= ms < 2 ^ 32 -> ntimers L + 1 < 2 ^ 31 -> callback c e0 L = [Timer_reset x ms; Timer_del x] ->
  (exists L1 L2 L3, htimer_reset L x ms = Some L1 /\ htimer_del L1 x = Some L2 /\ event_done L2 x0 = Some L3 /\
     mem L3 !! x = None /\
     (forall f, pending_walk (Datatypes.S f) (Some x0) L = ('(L', tr) ← pending_walk f (Some x) L3; Some (L', x0 :: tr))) /\
     (forall f, pending_walk (Datatypes.S (Datatypes.S f)) (Some x0) L = None)) /\
  (exists L4 e4, htimer_del L x = Some L4 /\ mem L4 !! x = Some e4).
Proof.
  intros Hi Hx0 Hp0 Ha0 Hc0 Hne Hnext Hxx Hx Ht Hp Hms Hb Hcb. split.
  2: { destruct (htimer_del_ok false L S x e Hi Hx Ht) as (L4 & S4 & E4 & _ & _ & _ & Hk & _).
       destruct (Hk x e Hx) as (e4 & He4 & _); [by left|]. eauto. }
  destruct (htimer_reset_inv L S x e ms Hi Hx Hms Ht Hb) as (L1 & S1 & e1 & E1 & Hi1 & Em1 & _ & Es1 & Ht1 & Ha1 & Hp1 & _).
  assert (mem L1 !! x = Some e1) as Hx1 by (by rewrite Em1, lookup_insert_eq).
  assert (mem L1 !! x0 = Some e0) as Hx01 by (by rewrite Em1, lookup_insert_ne).
  destruct (htimer_del_free false L1 S1 x e1 Hi1 Hx1 Ht1) as (L2 & S2 & E2 & Hi2 & (_ & _ & Hk2 & _) & Hfree).
  destruct (Hk2 x0 e0 Hx01) as (e2 & Hx02 & _); [by left|].
  destruct (event_done_ok L2 S2 x0 e2 Hi2 Hx02) as (L3 & E3 & _).
  assert (mem L3 !! x = None) as Hx3 by (rewrite (event_done_frame _ _ _ _ E3 Hxx); auto).
  assert (forall f, pending_walk (Datatypes.S f) (Some x0) L = ('(L', tr) ← pending_walk f (Some x) L3; Some (L', x0 :: tr))) as Hwalk.
  { intros f. cbn [Loop.pending_walk]. rewrite Hx0. cbn [mbind option_bind].
    destruct (v_mem _ _ Hi) as [He _]. destruct (He x0 e0 Hx0) as (El & _). rewrite El, bool_decide_true by done.
    rewrite Hp0, Ha0, Hc0. cbn [andb]. unfold run_cb. rewrite (proj2 (Z.eqb_neq _ _) Hne), Hcb.
    cbn [Loop.exec_all Loop.exec]. rewrite E1. cbn [mbind option_bind]. rewrite E2. cbn [mbind option_bind].
    rewrite E3. cbn [mbind option_bind]. by rewrite Hnext. }
  exists L1, L2, L3. split_and!; [done..|]. intros f. rewrite Hwalk. cbn [Loop.pending_walk]. by rewrite Hx3.
Qed.

(** What the library's own timer callbacks do (hevent.c, the read, write and keep-alive
    timeouts): a timer that resets itself while it is dispatched, which [valid] leaves
    out, is allocated and back in its heap when the dispatch goes on, and no other event
    has changed. *)
Lemma reset_in_own_callback L S x e c ms : Inv L S -> mem L !! x = Some e -> event_type e = HEVENT_TYPE_TIMEOUT ->
  pending e = true -> active e = true -> cb e = Some c -> c <> hio_handle_events ->
  0 <= ms < 2 ^ 32 -> ntimers L + 1 < 2 ^ 31 -> callback c e L = [Timer_reset x ms] ->
  exists L' S' e', Inv L' S' /\ mem L' = <[x := e']> (mem L) /\ pendings L' = pendings L /\
    pending e' = false /\ active e' = true /\ destroy e' = false /\
    forall f, pending_walk (Datatypes.S f) (Some x) L = ('(L'', tr) ← pending_walk f (pending_next e) L'; Some (L'', x :: tr)).
Proof.
  intros Hi Hx Ht Hp Ha Hc Hne Hms Hb Hcb.
  destruct (htimer_reset_inv L S x e ms Hi Hx Hms Ht Hb) as (L1 & S1 & e1 & E1 & Hi1 & Em1 & Ep1 & Es1 & Ht1 & Ha1 & Hp1 & Hd1).
  assert (mem L1 !! x = Some e1) as Hx1 by (by rewrite Em1, lookup_insert_eq).
  exists (L1.[mem := <[x := e1.[pending := false]]> (mem L1)]), S1, (e1.[pending := false]).
  split_and!; [by eapply Inv_upd_same|simpl; by rewrite Em1, insert_insert_eq|done|done|done|done|].
  intros f. cbn [Loop.pending_walk]. rewrite Hx. cbn [mbind option_bind].
  destruct (v_mem _ _ Hi) as [He _]. destruct (He x e Hx) as (El & _). rewrite El, bool_decide_true by done.
  rewrite Hp, Ha, Hc. cbn [andb]. unfold run_cb. rewrite (proj2 (Z.eqb_neq _ _) Hne), Hcb.
  cbn [Loop.exec_all Loop.exec]. rewrite E1. cbn [mbind option_bind]. unfold event_done.
  rewrite (upd_ev_eq L1 x _ e1 Hx1). cbn [mbind option_bind].
  match goal with |- context [mem ?l !! x] => assert (mem l !! x = Some (e1.[pending := false])) as -> by apply lookup_insert_eq end.
  cbn [mbind option_bind]. change (destroy (e1.[pending := false])) with (destroy e1). rewrite Hd1. done.
Qed.

End Iteration.
End LoopThm.
