(* ===== verification/LoopExamples.v ===== *)
(** The event loop run on concrete inputs: instances of its environment and the
    theorems applied to them. *)
From Stdlib Require Import Sorting.Sorted.
From S2P Require Import Prelude Heap Containers HMath HTime HTimeThm Loop LoopInv LoopIter LoopThm.
Import Heap HMath Loop LoopInv LoopIter LoopThm.

Module LoopExamples.

(** * An environment *)

(** The interest list of an epoll object as a map. *)
#[export] Instance gmap_Epoll : Epoll (gmap Z Z) := {
  ep_new := ∅;
  ep_ctl := fun k op n mask =>
    match op with EPOLL_CTL_DEL => delete n k | _ => <[n := mask]> k end;
  ep_interest := fun k n => k !! n;
}.
#[export] Instance gmap_EpollLaws : EpollLaws (gmap Z Z).
Proof.
  split; simpl; intros; [apply lookup_empty|apply lookup_insert_eq|apply lookup_insert_eq|apply lookup_delete_eq|].
  destruct op; [by rewrite lookup_insert_ne|by rewrite lookup_insert_ne|by rewrite lookup_delete_ne].
Qed.

(** Clocks that advance by 20 ms per reading, for fifty readings. *)
Definition clock0 (n : nat) : reading :=
  let us := 1000000 + 20000 * Z.min (Z.of_nat n) 50 in mk_reading us (us / 1000000) (us / 1000).
Definition zone0 : HTime.zone := HTime.fixed_zone 3600.
Lemma zone0_fixed : HTimeThm.fixed zone0.
Proof. apply HTimeThm.fixed_zone_ok. Qed.
Definition eventfd0 (n : nat) : Z := 5.
Definition write0 (n : nat) : Z := 8.
Definition count0 (n : nat) : nat := 1.
Definition wait0 (n : nat) (k : gmap Z Z) (ms : Z) : Z * list (Z * Z) := (0, []).

Abbreviation loop := (hloop heap (gmap Z Z)).
Definition loop0 : loop := hloop_init clock0 7.
Abbreviation exec_all0 := (exec_all (H := heap) (K := gmap Z Z) clock0 zone0 eventfd0 write0).
Abbreviation process0 := (fun cbk => hloop_process_events (H := heap) (K := gmap Z Z) clock0 zone0 eventfd0 write0 wait0 cbk count0).

(** * The theorems on this environment *)

Abbreviation safe0 := (safe (H := heap) (K := gmap Z Z) clock0 zone0 eventfd0 write0).

Lemma safe_cons a l (L L1 : loop) : valid a L -> exec clock0 zone0 eventfd0 write0 a L = Some L1 ->
  safe0 l L1 -> safe0 (a :: l) L.
Proof. intros Hv E Hs. split; [done|]. intros L' E'. rewrite E in E'. by injection E' as <-. Qed.

Definition some_actions : list action :=
  [Timer_add (Some 1) 10 3; Idle_add (Some 2) 1; Signal_add (Some 3) 10; Timer_del 1].
Lemma some_actions_safe : safe0 some_actions loop0.
Proof.
  eapply safe_cons; [split; [lia|done]|vm_compute; reflexivity|].
  eapply safe_cons; [done|vm_compute; reflexivity|].
  eapply safe_cons; [done|vm_compute; reflexivity|].
  eapply safe_cons; [eexists _, false; split; [vm_compute; reflexivity|done]|vm_compute; reflexivity|]. done.
Qed.

Lemma operations_keep_invariant_witness :
  exists L' S', exec_all0 some_actions loop0 = Some L' /\ Inv L' S' /\
    forall x e, mem L' !! x = Some e -> pending e = false.
Proof. apply operations_keep_invariant; [done|apply some_actions_safe]. Defined.

Definition io_actions : list action := [Io_get 3; Io_add 1 (Some 9) HV_READ; Io_add 1 None HV_WRITE; Io_del 1 HV_READ].
Lemma io_actions_safe : safe0 io_actions loop0.
Proof.
  eapply safe_cons; [simpl; lia|vm_compute; reflexivity|].
  eapply safe_cons; [eexists; split_and!; [vm_compute; reflexivity|done|unfold rw_mask; auto|done]|vm_compute; reflexivity|].
  eapply safe_cons; [eexists; split_and!; [vm_compute; reflexivity|done|unfold rw_mask; auto|done]|vm_compute; reflexivity|].
  eapply safe_cons; [eexists; split_and!; [vm_compute; reflexivity|done|unfold rw_mask; auto]|vm_compute; reflexivity|]. done.
Qed.

Lemma epoll_mirrors_ios_witness : exists L', exec_all0 io_actions loop0 = Some L' /\
  ((forall x e, mem L' !! x = Some e -> event_type e = HEVENT_TYPE_IO ->
     zget (ios L') (fd e) = Some (Some x) /\
     ep_interest (epfd L') (fd e) = if events e =? 0 then None else Some (ep_mask (events e))) /\
   (forall n, ep_interest (epfd L') n <> None -> exists x, zget (ios L') n = Some (Some x))).
Proof.
  eexists. split; [vm_compute; reflexivity|].
  eapply (epoll_mirrors_ios clock0 zone0 eventfd0 write0 7 io_actions); [done|apply io_actions_safe|vm_compute; reflexivity].
Defined.

(** A loop with a timer, a period and an idle, and callbacks that do nothing. *)
Definition timer_actions : list action :=
  [Timer_add (Some 1) 10 3; Period_add (Some 4) 0 0 0 0 0 1; Idle_add (Some 2) 1].
Lemma timer_actions_safe : safe0 timer_actions loop0.
Proof.
  eapply safe_cons; [split; [lia|done]|vm_compute; reflexivity|].
  eapply safe_cons; [done|vm_compute; reflexivity|].
  eapply safe_cons; [done|vm_compute; reflexivity|]. done.
Qed.
Definition loop1 : loop := Eval vm_compute in
  match exec_all0 timer_actions loop0 with Some L => L | None => loop0 end.
Definition no_op (c : Z) (e : hevent) (L : loop) : list action := [].

Lemma loop1_ok : exists S, Inv loop1 S /\ quiet loop1.
Proof.
  destruct (loop_init_ok (H := heap) (K := gmap Z Z) clock0 7) as [Hi (_ & _ & Hp)].
  destruct (exec_all_ok clock0 zone0 eventfd0 write0 (fun t => ltac:(done)) timer_actions _ _ Hi timer_actions_safe)
    as (L & S & E & Hi' & _ & _ & _ & Hk).
  assert (exec_all0 timer_actions loop0 = Some loop1) as E1 by (vm_compute; reflexivity).
  change (hloop_init clock0 7) with loop0 in E. rewrite E1 in E. injection E as <-.
  exists S. split; [done|]. split_and!; [done|done|]. intros x e Hx. destruct (pending e) eqn:Ep; [|done].
  destruct (Hk x e Hx Ep) as (e0 & He0 & Hp0). by rewrite (Hp x e0 He0) in Hp0.
Qed.

Lemma clock0_range n : exists k, 0 <= k <= 50 /\ k = Z.min (Z.of_nat n) 50.
Proof. exists (Z.min (Z.of_nat n) 50). lia. Qed.
Lemma clock0_ok : clock_ok clock0.
Proof. intros n. unfold clock0. simpl. lia. Qed.
Lemma base0 b : base_ms clock0 loop1 b -> b = 1000.
Proof.
  intros [->|[k ->]]; [done|]. unfold clock0. simpl. destruct (clock0_range k) as (j & Hj & <-).
  rewrite (u64_small (1000000 + 20000 * j - 1000000)) by lia. rewrite u64_small; zdm.
Qed.
Lemma calendar0 : clocks_agree clock0 zone0 loop1.
Proof.
  split; [apply zone0_fixed|]. intros b n n' ->%base0 Hn. unfold clock0. simpl.
  assert (Z.min (Z.of_nat n) 50 <= Z.min (Z.of_nat n') 50) as Hle by lia.
  destruct (clock0_range n) as (j & Hj & Ej), (clock0_range n') as (j' & Hj' & Ej'). rewrite <- Ej, <- Ej' in *.
  rewrite (u64_small (1000 * 1000)) by lia. rewrite (u64_small (1000000 + 20000 * j - 1000000)) by lia.
  rewrite u64_small by lia. zdm.
Qed.


(** * An environment in which timers are due *)

(** Three readings in the first second, the others after 200 seconds. *)
Definition clock1 (n : nat) : reading :=
  let us := if (n <? 3)%nat then 1000000 + 20000 * Z.of_nat n else 200000000 in mk_reading us (us / 1000000) (us / 1000).
Definition start1 : loop := hloop_init clock1 7.
Abbreviation exec_all1 := (exec_all (H := heap) (K := gmap Z Z) clock1 zone0 eventfd0 write0).
Abbreviation safe1 := (safe (H := heap) (K := gmap Z Z) clock1 zone0 eventfd0 write0).

Lemma safe1_cons a l (L L1 : loop) : valid a L -> exec clock1 zone0 eventfd0 write0 a L = Some L1 ->
  safe1 l L1 -> safe1 (a :: l) L.
Proof. intros Hv E Hs. split; [done|]. intros L' E'. rewrite E in E'. by injection E' as <-. Qed.

(** What operations on a new loop leave. *)
Lemma built l (L : loop) : exec_all1 l start1 = Some L -> safe1 l start1 ->
  pendings L = replicate (Z.to_nat HEVENT_PRIORITY_SIZE) None -> npendings L = 0 -> exists S, Inv L S /\ quiet L.
Proof.
  intros E Hs Ep En. destruct (loop_init_ok (H := heap) (K := gmap Z Z) clock1 7) as [Hi (_ & _ & Hp)].
  destruct (exec_all_ok clock1 zone0 eventfd0 write0 (fun t => ltac:(done)) l _ _ Hi Hs) as (L' & S & E' & Hi' & _ & _ & _ & Hk).
  change (hloop_init clock1 7) with start1 in E'. rewrite E in E'. injection E' as <-.
  exists S. split; [done|]. split_and!; [done|done|]. intros x e Hx. destruct (pending e) eqn:Epe; [|done].
  destruct (Hk x e Hx Epe) as (e0 & He0 & Hp0). by rewrite (Hp x e0 He0) in Hp0.
Qed.

Lemma ahead1 rt t : t < 201000000 -> ahead clock1 zone0 rt t 4.
Proof.
  intros Ht. destruct rt; unfold ahead; [|lia]. intros n' mi ho da we mo Hn Hp.
  assert (time_s (clock1 n') = 200) as Hc by (unfold clock1; destruct (Nat.ltb_spec n' 3); [lia|done]).
  pose proof (next_period_range clock1 zone0 n' mi ho da we mo zone0_fixed Hp ltac:(lia)). lia.
Qed.

(** A timer of half a second and a period timer of every minute, both overdue. *)
Definition overdue_actions : list action :=
  [Timer_add (Some 1) 500 3; Period_add (Some 4) (-1) (-1) (-1) (-1) (-1) 3; Idle_add (Some 2) 1; Update_time].
Lemma overdue_safe : safe1 overdue_actions start1.
Proof.
  eapply safe1_cons; [split; [lia|done]|vm_compute; reflexivity|].
  eapply safe1_cons; [done|vm_compute; reflexivity|].
  eapply safe1_cons; [done|vm_compute; reflexivity|].
  eapply safe1_cons; [done|vm_compute; reflexivity|]. done.
Qed.
Definition overdue : loop := Eval vm_compute in
  match exec_all1 overdue_actions start1 with Some L => L | None => start1 end.
Lemma overdue_ok : exists S, Inv overdue S /\ quiet overdue.
Proof. apply (built overdue_actions); [vm_compute; reflexivity|apply overdue_safe|reflexivity|reflexivity]. Qed.

Lemma due_timers_fire_once_witness : exists L' S' n,
  hloop_process_timers clock1 zone0 overdue = Some (L', n) /\ Inv L' S' /\
  (exists e e', mem overdue !! 1 = Some e /\ mem L' !! 1 = Some e' /\ fired clock1 zone0 false 200000000 4 e e') /\
  (exists e e', mem overdue !! 2 = Some e /\ mem L' !! 2 = Some e' /\ fired clock1 zone0 true 200000000 4 e e').
Proof.
  destruct overdue_ok as (S & Hi & Hq).
  destruct (due_timers_fire_once clock1 zone0 overdue S no_lists Hi (quiet_Coll _ Hq)) as (L' & S' & n & E & Hi' & Hm & _);
    [by apply ahead1|by apply ahead1|].
  exists L', S', n. split; [done|]. split; [done|]. split.
  - eexists. pose proof (Hm false 1 _ eq_refl eq_refl) as Hf.
    cbn [destroy next_timeout cur_hrtime overdue] in Hf. destruct Hf as (e' & He' & Hf). exists e'. split; [reflexivity|]. split; [exact He'|exact Hf].
  - eexists. pose proof (Hm true 2 _ eq_refl eq_refl) as Hf. cbv zeta in Hf.
    replace (hloop_now_us overdue) with 200000000 in Hf by (vm_compute; reflexivity).
    cbn [destroy next_timeout overdue] in Hf. destruct Hf as (e' & He' & Hf). exists e'. split; [reflexivity|]. split; [exact He'|exact Hf].
Defined.

(** Both are pending, with different priorities. *)
Definition collected : loop := Eval vm_compute in
  match hloop_process_timers clock1 zone0 overdue with Some (L, _) => L | None => overdue end.
Lemma collected_ok : exists S ls, Inv collected S /\ Coll collected ls.
Proof.
  destruct overdue_ok as (S & Hi & Hq).
  destruct (process_timers_ok clock1 zone0 overdue S no_lists _ _ Hi (quiet_Coll _ Hq) ltac:(by apply ahead1) ltac:(by apply ahead1) eq_refl eq_refl)
    as (L' & S' & ls' & E & Hi' & Hc' & _).
  assert (exists n, hloop_process_timers clock1 zone0 overdue = Some (collected, n)) as [n E1] by (eexists; vm_compute; reflexivity).
  rewrite E1 in E. injection E as <- _. eauto.
Qed.

Lemma callbacks_by_priority_witness : exists L' S' tr,
  hloop_process_pendings clock1 zone0 eventfd0 write0 no_op count0 collected = Some (L', tr) /\ Inv L' S' /\ quiet L' /\
  StronglySorted (fun x y => prio_of (mem collected) y <= prio_of (mem collected) x) tr /\
  prio_of (mem collected) 1 = 5 /\ prio_of (mem collected) 2 = 3 /\ 1 ∈ tr /\ 2 ∈ tr.
Proof.
  destruct collected_ok as (S & ls & Hi & Hc).
  destruct (callbacks_by_priority clock1 zone0 eventfd0 write0 count0 no_op collected S ls)
    as (L' & S' & tr & E & Hi' & Hq & _ & Hs & _ & Hall); [done|by intros c e L S0 _|done|done|done|].
  exists L', S', tr. split; [exact E|]. split; [exact Hi'|]. split; [exact Hq|]. split; [exact Hs|].
  split; [vm_compute; reflexivity|]. split; [vm_compute; reflexivity|].
  split; (apply Hall; [eexists; split_and!; [vm_compute; reflexivity|done..]|by intros c e L L1 Hr [= <-]]).
Defined.

(** Two timers of half a second; the callback of the one dispatched first resets the
    other and then deletes it. *)
Definition twins_actions : list action := [Timer_add (Some 1) 500 3; Timer_add (Some 1) 500 3; Update_time].
Lemma twins_safe : safe1 twins_actions start1.
Proof.
  eapply safe1_cons; [split; [lia|done]|vm_compute; reflexivity|].
  eapply safe1_cons; [split; [lia|done]|vm_compute; reflexivity|].
  eapply safe1_cons; [done|vm_compute; reflexivity|]. done.
Qed.
Definition twins : loop := Eval vm_compute in
  match exec_all1 twins_actions start1 with Some L => L | None => start1 end.
Definition twins_due : loop := Eval vm_compute in
  match hloop_process_timers clock1 zone0 twins with Some (L, _) => L | None => twins end.
Lemma twins_due_ok : exists S, Inv twins_due S.
Proof.
  destruct (built twins_actions twins) as (S & Hi & Hq); [vm_compute; reflexivity|apply twins_safe|reflexivity|reflexivity|].
  destruct (process_timers_ok clock1 zone0 twins S no_lists _ _ Hi (quiet_Coll _ Hq) ltac:(by apply ahead1) ltac:(by apply ahead1) eq_refl eq_refl)
    as (L' & S' & ls' & E & Hi' & _).
  assert (exists n, hloop_process_timers clock1 zone0 twins = Some (twins_due, n)) as [n E1] by (eexists; vm_compute; reflexivity).
  rewrite E1 in E. injection E as <- _. eauto.
Qed.
Definition reset_then_delete (c : Z) (e : hevent) (L : loop) : list action := [Timer_reset 1 10; Timer_del 1].
Lemma reset_then_delete_frees_linked_timer_witness :
  pendings twins_due = replicate 10 None ++ [Some 2] /\
  (exists L1 L2 L3, htimer_reset twins_due 1 10 = Some L1 /\ htimer_del L1 1 = Some L2 /\ event_done L2 2 = Some L3 /\ mem L3 !! 1 = None) /\
  pending_walk clock1 zone0 eventfd0 write0 reset_then_delete count0 10 (Some 2) twins_due = None.
Proof.
  destruct twins_due_ok as [S Hi].
  destruct (reset_then_delete_frees_linked_timer clock1 zone0 eventfd0 write0 count0 reset_then_delete twins_due S 2
    (default null_event (mem twins_due !! 2)) 1 1 (default null_event (mem twins_due !! 1)) 10)
    as [(L1 & L2 & L3 & E1 & E2 & E3 & H3 & _ & H) _];
    [exact Hi|reflexivity|reflexivity|reflexivity|reflexivity|discriminate|reflexivity|discriminate|reflexivity|reflexivity|reflexivity|lia|reflexivity|reflexivity|].
  split; [reflexivity|]. split; [exists L1, L2, L3; split; [exact E1|split; [exact E2|split; [exact E3|exact H3]]]|exact (H 8%nat)].
Defined.

Lemma wait_is_bounded_witness : exists L' bt, blocktime clock0 loop1 100 = Some (L', bt) /\
  match bt with Some b => 0 <= b <= 100 | None => True end.
Proof.
  destruct loop1_ok as (S & Hi & Hq).
  destruct (wait_is_bounded clock0 loop1 S 100 Hi) as (L' & bt & E & Hb); [lia|lia| |].
  - intros rt x Hx. pose proof Hx as (e & He & _)%(v_heap _ _ Hi rt).
    assert (0 <= tmo (mem loop1) x <= 100000000000000) as Ht.
    { unfold tmo. rewrite He. apply (map_Forall_lookup_1 (fun _ e => 0 <= next_timeout e <= 100000000000000) (mem loop1) x); [|done].
      apply (bool_decide_unpack _). vm_compute. exact I. }
    assert (hloop_now_us (hloop_update_time clock0 loop1) = 1040000 + 20000 /\ cur_hrtime (hloop_update_time clock0 loop1) = 1060000) as [-> ->]
      by (split; vm_compute; reflexivity). destruct rt; lia.
  - exists L', bt. split; [done|]. destruct bt; [by destruct Hb|done].
Defined.

(** Two posted events, the second without a callback. *)
Definition posted : list hevent := [null_event.[cb := Some 1]; null_event].
Definition loop3 : loop := loop1.[custom_events := Queue.mk_queue posted 2 2 0].
Lemma posted_events_fifo_witness : exists L',
  eventfd_read_cb clock0 zone0 eventfd0 write0 no_op 2 loop3 = Some (L', [null_event.[cb := Some 1]]) /\
  Queue.rep (custom_events L') [].
Proof.
  apply (posted_events_fifo clock0 zone0 eventfd0 write0 no_op 2 loop3 posted);
    [exists [], []; done|done|by intros c ev L; eexists|by intros c ev L L' [= <-]].
Defined.

End LoopExamples.
