(* ===== verification/Watcher.v ===== *)
(** What the event loop asks of an io watcher (event/iowatcher.h): for each fd, reading or
    writing are added to or removed from what is watched. The pollers poll and select
    implement it, each in a file of its own; the one of epoll is part of the loop. *)
From S2P Require Import Prelude Heap Containers HMath HTime Loop.
Import Loop(HV_READ, HV_WRITE).

Module Watcher.

(** Reading and writing wanted of each fd. *)
Definition want := Z -> bool * bool.
Definition nothing : want := fun _ => (false, false).
Definition upd (f : want) (n : Z) (v : bool * bool) : want := fun k => if k =? n then v else f k.
Definition wanted_add (v : bool * bool) (evs : Z) : bool * bool := (v.1 || has_flag evs HV_READ, v.2 || has_flag evs HV_WRITE).
Definition wanted_del (v : bool * bool) (evs : Z) : bool * bool :=
  (v.1 && negb (has_flag evs HV_READ), v.2 && negb (has_flag evs HV_WRITE)).

(** Something is asked for. *)
Definition asks (evs : Z) : bool := has_flag evs HV_READ || has_flag evs HV_WRITE.

(** A watcher: [iowatcher_init], [iowatcher_add_event] and [iowatcher_del_event], the fds
    it can take, and what it means that it watches what is wanted. *)
Class IoWatcher (W : Type) := {
  w_fits : Z -> Prop;
  w_init : option W;
  w_add : W -> Z -> Z -> option W;
  w_del : W -> Z -> Z -> option W;
  w_watches : W -> want -> Prop }.
Class IoWatcherLaws (W : Type) `{IoWatcher W} : Prop := {
  w_init_ok : exists w, w_init = Some w /\ w_watches w nothing;
  w_add_ok : forall w f n evs, w_watches w f -> w_fits n -> asks evs = true ->
    exists w', w_add w n evs = Some w' /\ w_watches w' (upd f n (wanted_add (f n) evs));
  w_del_ok : forall w f n evs, w_watches w f -> w_fits n ->
    exists w', w_del w n evs = Some w' /\ w_watches w' (upd f n (wanted_del (f n) evs)) }.

Inductive wop := WAdd (n evs : Z) | WDel (n evs : Z).
Definition wop_ok (fits : Z -> Prop) (o : wop) : Prop :=
  match o with WAdd n evs => fits n /\ asks evs = true | WDel n _ => fits n end.

(** What is wanted after a sequence of requests. *)
Definition wop_spec (f : want) (o : wop) : want :=
  match o with WAdd n evs => upd f n (wanted_add (f n) evs) | WDel n evs => upd f n (wanted_del (f n) evs) end.
Definition wanted (ops : list wop) : want := fold_left wop_spec ops nothing.

Section Run.
Context {W : Type} `{IoWatcherLaws W}.

Definition wop_run (w : W) (o : wop) : option W := match o with WAdd n evs => w_add w n evs | WDel n evs => w_del w n evs end.
Fixpoint watch (w : W) (ops : list wop) : option W :=
  match ops with [] => Some w | o :: ops => w ← wop_run w o; watch w ops end.

Lemma watch_ok ops : Forall (wop_ok w_fits) ops -> forall w f, w_watches w f ->
  exists w', watch w ops = Some w' /\ w_watches w' (fold_left wop_spec ops f).
Proof.
  induction 1 as [|o ops Ho _ IH]; intros w f Hw; simpl; [by exists w|].
  assert (exists w1, wop_run w o = Some w1 /\ w_watches w1 (wop_spec f o)) as (w1 & -> & Hw1)
    by (destruct o; [destruct Ho; by apply w_add_ok|by apply w_del_ok]).
  by apply IH.
Qed.

(** A watcher that keeps its laws watches, after any requests, what is wanted. *)
Lemma watcher_refines ops : Forall (wop_ok w_fits) ops ->
  exists w w', w_init = Some w /\ watch w ops = Some w' /\ w_watches w' (wanted ops).
Proof. intros Hf. destruct w_init_ok as (w & E & Hw). destruct (watch_ok ops Hf w nothing Hw) as (w' & ? & ?). by exists w, w'. Qed.
End Run.

Lemma want_upd_eq f n v : upd f n v n = v.
Proof. unfold upd. by rewrite Z.eqb_refl. Qed.
Lemma want_upd_ne f n v k : k <> n -> upd f n v k = f k.
Proof. intros. unfold upd. by destruct (Z.eqb_spec k n). Qed.
End Watcher.
