(* ===== verification/Poll.v ===== *)
(** The poll watcher of event/poll.c: an array of [struct pollfd] and, in each io, the
    index of its slot. *)
From S2P Require Import Prelude Heap Containers HMath HTime Loop Watcher.
Import Loop(HV_READ, HV_WRITE, EINTR) Watcher.

Module Poll.

Definition FDS_INIT_SIZE : Z := 64.
Definition POLLIN : Z := 1.
Definition POLLOUT : Z := 4.
Definition POLLERR : Z := 8.
Definition POLLHUP : Z := 16.

Record pollfd := mk_pollfd { fd : Z; events : Z; revents : Z }.
#[export] Instance pollfd_rebuild : Rebuild pollfd := fun p => mk_pollfd (fd p) (events p) (revents p).
Definition zero_pollfd : pollfd := mk_pollfd 0 0 0.

(** The context, with [io->event_index[0]] of the io of each fd; [hio_ready] sets it to
    -1 before an io is watched. *)
Record poll_ctx := mk_ctx { fds : Array.array pollfd; event_index : gmap Z Z }.
Definition index_of (c : poll_ctx) (n : Z) : Z := default (-1) (event_index c !! n).

Definition iowatcher_init : option poll_ctx :=
  a ← Array.array_init zero_pollfd FDS_INIT_SIZE; Some (mk_ctx a ∅).

Definition set_slot (a : Array.array pollfd) (i : Z) (p : pollfd) : option (Array.array pollfd) :=
  l ← zset (Array.ptr a) i p; Some (Array.mk_array l (Array.size a) (Array.maxsize a)).

(** The slot of an fd, made when it has none. *)
Definition slot_for (c : poll_ctx) (n : Z) : option (poll_ctx * Z * pollfd) :=
  let idx := index_of c n in
  if idx <? 0 then
    let idx := Array.size (fds c) in
    let ix := <[n := idx]> (event_index c) in
    a ← (if idx =? Array.maxsize (fds c) then Array.array_double_resize zero_pollfd (fds c) else Some (fds c));
    let a := Array.mk_array (Array.ptr a) (Array.size a + 1) (Array.maxsize a) in
    let p := mk_pollfd n 0 0 in
    a ← set_slot a idx p;
    Some (mk_ctx a ix, idx, p)
  else
    p ← zget (Array.ptr (fds c)) idx;
    if fd p =? n then Some (c, idx, p) else None.

Definition iowatcher_add_event (c : poll_ctx) (n evs : Z) : option poll_ctx :=
  '(c, idx, p) ← slot_for c n;
  let p := if has_flag evs HV_READ then p.[events := Z.lor (events p) POLLIN] else p in
  let p := if has_flag evs HV_WRITE then p.[events := Z.lor (events p) POLLOUT] else p in
  a ← set_slot (fds c) idx p;
  Some (mk_ctx a (event_index c)).

Definition iowatcher_del_event (c : poll_ctx) (n evs : Z) : option poll_ctx :=
  let idx := index_of c n in
  if idx <? 0 then Some c
  else
    p ← zget (Array.ptr (fds c)) idx;
    if negb (fd p =? n) then None
    else
      let p := if has_flag evs HV_READ then p.[events := Z.land (events p) (Z.lnot POLLIN)] else p in
      let p := if has_flag evs HV_WRITE then p.[events := Z.land (events p) (Z.lnot POLLOUT)] else p in
      a ← set_slot (fds c) idx p;
      if events p =? 0 then
        a ← Array.array_del_nomove a idx;
        ix ← (if idx <? Array.size a then last ← zget (Array.ptr a) idx; Some (<[fd last := idx]> (event_index c))
              else Some (event_index c));
        Some (mk_ctx a (<[n := -1]> ix))
      else Some (mk_ctx a (event_index c)).

(** The scan of the answers: the fds reported with the events of their ios, and the
    number of them. *)
Definition hv_revents (rev : Z) : Z :=
  Z.lor (if has_flag rev (Z.lor POLLIN (Z.lor POLLHUP POLLERR)) then HV_READ else 0)
        (if has_flag rev (Z.lor POLLOUT (Z.lor POLLHUP POLLERR)) then HV_WRITE else 0).
Fixpoint scan (slots : list (Z * Z)) (npoll nevents : Z) : list (Z * Z) * Z :=
  match slots with
  | [] => ([], nevents)
  | (n, rev) :: slots =>
      let '(out, nevents) := if negb (rev =? 0) then ([(n, hv_revents rev)], nevents + 1) else ([], nevents) in
      if nevents =? npoll then (out, nevents)
      else let '(rest, k) := scan slots npoll nevents in (out ++ rest, k)
  end.

(** [poll] answers a number, errno, and the [revents] of the slots. *)
Definition iowatcher_poll_events (poll : list (Z * Z) -> Z -> Z * Z * list Z) (c : poll_ctx) (timeout : Z) : list (Z * Z) * Z :=
  if Array.size (fds c) =? 0 then ([], 0)
  else
    let slots := take (Z.to_nat (Array.size (fds c))) (Array.ptr (fds c)) in
    let '(npoll, errno, revs) := poll (map (fun p => (fd p, events p)) slots) timeout in
    if npoll <? 0 then ([], if errno =? EINTR then 0 else npoll)
    else if npoll =? 0 then ([], 0)
    else scan (zip (map fd slots) revs) npoll 0.

(** * What poll is asked for *)

Definition mask (v : bool * bool) : Z := Z.lor (if v.1 then POLLIN else 0) (if v.2 then POLLOUT else 0).

Lemma mask_zero v : mask v = 0 <-> v = (false, false).
Proof. destruct v as [[] []]; vm_compute; split; congruence. Qed.
Lemma mask_add v evs p : events p = mask v ->
  let p := if has_flag evs HV_READ then p.[events := Z.lor (events p) POLLIN] else p in
  let p := if has_flag evs HV_WRITE then p.[events := Z.lor (events p) POLLOUT] else p in
  events p = mask (wanted_add v evs).
Proof. intros E. unfold wanted_add. destruct v as [[] []], (has_flag evs HV_READ), (has_flag evs HV_WRITE); cbn; rewrite ?E; done. Qed.
Lemma mask_del v evs p : events p = mask v ->
  let p := if has_flag evs HV_READ then p.[events := Z.land (events p) (Z.lnot POLLIN)] else p in
  let p := if has_flag evs HV_WRITE then p.[events := Z.land (events p) (Z.lnot POLLOUT)] else p in
  events p = mask (wanted_del v evs).
Proof. intros E. unfold wanted_del. destruct v as [[] []], (has_flag evs HV_READ), (has_flag evs HV_WRITE); cbn; rewrite ?E; done. Qed.

(** The slots hold each fd that is watched once, with its mask, and the ios know them. *)
Record slots_ok (l : list pollfd) (ix : Z -> Z) (f : want) : Prop := {
  S_slot : forall i p, l !! i = Some p -> 0 <= fd p < 2 ^ 28 /\ ix (fd p) = Z.of_nat i /\ events p = mask (f (fd p)) /\ events p <> 0;
  S_index : forall n, 0 <= ix n -> exists p, l !! Z.to_nat (ix n) = Some p /\ fd p = n;
  S_none : forall n, ix n < 0 -> f n = (false, false) }.
Definition watches (c : poll_ctx) (f : want) : Prop :=
  exists l, Array.rep (fds c) l /\ Array.maxsize (fds c) <= 2 ^ 29 /\ slots_ok l (index_of c) f.

(** There are no more slots than fds. *)
Lemma slots_few l ix f : slots_ok l ix f -> zlen l <= 2 ^ 28.
Proof.
  intros [Hs _ _]. assert (NoDup (fd <$> l)) as Hnd.
  { apply NoDup_alt. intros i j n. rewrite !list_lookup_fmap. intros (p & Hp & ->)%fmap_Some (q & Hq & E)%fmap_Some.
    destruct (Hs i p Hp) as (_ & E1 & _), (Hs j q Hq) as (_ & E2 & _). rewrite E in E1. lia. }
  assert (fd <$> l ⊆+ seqZ 0 (2 ^ 28)) as Hsub.
  { apply NoDup_submseteq; [done|]. intros n (p & -> & (i & Hi)%list_elem_of_lookup_1)%list_elem_of_fmap.
    apply elem_of_seqZ. destruct (Hs i p Hi). lia. }
  apply submseteq_length in Hsub. rewrite length_fmap, length_seqZ in Hsub. unfold zlen. lia.
Qed.

Lemma set_slot_ok a l i p : Array.rep a l -> 0 <= i < zlen l ->
  exists a', set_slot a i p = Some a' /\ Array.rep a' (<[Z.to_nat i := p]> l) /\ Array.size a' = Array.size a /\ Array.maxsize a' = Array.maxsize a.
Proof.
  intros (post & E & Hsz & Hm) Hi. unfold set_slot. rewrite E, Array.zset_app by done. cbn [mbind option_bind].
  eexists. split; [done|]. split; [|done]. exists post. cbn. unfold zlen in *. rewrite E in Hm. rewrite !length_app, length_insert in *. split_and!; [done|lia|lia].
Qed.
Lemma slot_read (a : Array.array pollfd) (l : list pollfd) i : Array.rep a l -> 0 <= i < zlen l -> zget (Array.ptr a) i = l !! Z.to_nat i.
Proof. intros (post & E & _) Hi. rewrite E. by apply Array.zget_app. Qed.

(** A slot that exists, changed in place. *)
Lemma slots_update l ix f n i p v : slots_ok l ix f -> ix n = Z.of_nat i -> l !! i = Some p -> fd p = n -> v <> (false, false) ->
  forall p', fd p' = n -> events p' = mask v -> slots_ok (<[i := p']> l) ix (upd f n v).
Proof.
  intros [Hs Hi Hn] Ei Hp Ep Hv p' Ep' Em. split.
  - intros j q. rewrite list_lookup_insert_Some. intros [(<- & <- & _)|[Hne Hq]].
    + rewrite Ep', want_upd_eq. split_and!; [by destruct (Hs _ _ Hp); subst n; lia..|lia|done|]. rewrite Em. by intros ?%mask_zero.
    + destruct (Hs _ _ Hq) as (? & Ej & ? & ?). rewrite want_upd_ne; [done|]. intros E. rewrite E, Ei in Ej. apply Hne. lia.
  - intros k Hk. destruct (Hi k Hk) as (q & Hq & Eq). destruct (decide (Z.to_nat (ix k) = i)) as [E|Hne].
    + exists p'. rewrite E, list_lookup_insert_eq by (by eapply lookup_lt_Some). split; [done|]. rewrite E in Hq. congruence.
    + exists q. by rewrite list_lookup_insert_ne by done.
  - intros k Hk. rewrite want_upd_ne; [by apply Hn|]. intros ->. lia.
Qed.

(** A new slot at the end. *)
Lemma slots_append l ix f n v p : slots_ok l ix f -> ix n < 0 -> 0 <= n < 2 ^ 28 -> v <> (false, false) -> fd p = n -> events p = mask v ->
  slots_ok (l ++ [p]) (fun k => if k =? n then zlen l else ix k) (upd f n v).
Proof.
  intros [Hs Hi Hn] Hix Hfd Hv Ep Em. split.
  - intros j q [Hq|[Hj Hq]]%lookup_app_Some.
    + destruct (Hs j q Hq) as (? & Ej & ? & ?). destruct (Z.eqb_spec (fd q) n) as [E|Hne]; [rewrite E in Ej; lia|]. by rewrite want_upd_ne.
    + apply list_lookup_singleton_Some in Hq as [E <-]. rewrite Ep, Z.eqb_refl, want_upd_eq. split_and!; [lia..|unfold zlen; lia|done|].
      rewrite Em. by intros ?%mask_zero.
  - intros k Hk. destruct (Z.eqb_spec k n) as [Ek|Hne].
    + exists p. unfold zlen. rewrite Nat2Z.id, lookup_app_r, Nat.sub_diag by done. split; [done|congruence].
    + destruct (Hi k Hk) as (q & Hq & Eq). exists q. by rewrite (lookup_app_l_Some _ _ _ _ Hq).
  - intros k. destruct (Z.eqb_spec k n) as [Ek|Hne]; [pose proof (zlen_nonneg l); lia|]. rewrite want_upd_ne by done. apply Hn.
Qed.

Lemma slots_ext l ix ix' f f' : slots_ok l ix f -> (forall n, ix' n = ix n) -> (forall n, f' n = f n) -> slots_ok l ix' f'.
Proof. intros [Hs Hi Hn] Ex Ef. split; intros *; rewrite ?Ex, ?Ef; [apply Hs|apply Hi|apply Hn]. Qed.

Lemma rep_slot_write (a : Array.array pollfd) l p q : Array.rep a (l ++ [p]) -> exists a', set_slot a (zlen l) q = Some a' /\ Array.rep a' (l ++ [q]) /\ Array.maxsize a' = Array.maxsize a.
Proof.
  intros Hr. destruct (set_slot_ok a (l ++ [p]) (zlen l) q Hr) as (a' & E & Hr' & _ & Em); [zlen_simpl; pose proof (zlen_nonneg l); lia|].
  exists a'. split; [done|]. split; [|done]. unfold zlen in Hr'. rewrite Nat2Z.id in Hr'.
  by rewrite insert_app_r_alt, Nat.sub_diag in Hr' by done.
Qed.

(** The slot of an fd is found, or is new and empty at the end. *)
Lemma slot_for_ok c f l n : Array.rep (fds c) l -> Array.maxsize (fds c) <= 2 ^ 29 -> slots_ok l (index_of c) f -> 0 <= n < 2 ^ 28 ->
  exists c' i p, slot_for c n = Some (c', i, p) /\ Array.maxsize (fds c') <= 2 ^ 29 /\ fd p = n /\ events p = mask (f n) /\
    ((c' = c /\ 0 <= i < zlen l /\ l !! Z.to_nat i = Some p /\ index_of c n = i) \/
     (index_of c n < 0 /\ i = zlen l /\ Array.rep (fds c') (l ++ [p]) /\ event_index c' = <[n := i]> (event_index c))).
Proof.
  intros Hr Hm Hok Hn. unfold slot_for. pose proof (slots_few _ _ _ Hok) as Hfew. destruct (Z.ltb_spec (index_of c n) 0) as [Hlt|Hge].
  - pose proof Hr as (post & E & Hsz & Hmx). rewrite Hsz.
    destruct (Array.rep_grow zero_pollfd (fds c) l Hr) as (a & x & post' & Ea & Ep & Es & Emx & Hle); [lia|]. rewrite Hsz in Ea. rewrite Ea. cbn [mbind option_bind].
    set (a1 := Array.mk_array _ _ _). assert (Array.rep a1 (l ++ [x])) as Hr1.
    { exists post'. cbn. rewrite Ep, <- app_assoc. split_and!; [done|zlen_simpl; lia|]. rewrite Emx, Ep. done. }
    destruct (rep_slot_write a1 l x (mk_pollfd n 0 0) Hr1) as (a2 & -> & Hr2 & Em2). cbn [mbind option_bind].
    eexists _, _, _. split; [done|]. cbn. split; [rewrite Em2; cbn; lia|]. split; [done|]. split; [|right; done].
    by rewrite (S_none _ _ _ Hok n Hlt).
  - destruct (S_index _ _ _ Hok n Hge) as (p & Hp & Ep). pose proof (lookup_lt_Some _ _ _ Hp) as Hl.
    assert (0 <= index_of c n < zlen l) as Hi by (unfold zlen; lia).
    rewrite (slot_read _ l) by done. rewrite Hp. cbn [mbind option_bind]. rewrite Ep, Z.eqb_refl.
    destruct (S_slot _ _ _ Hok _ _ Hp) as (_ & _ & Em & _). rewrite Ep in Em. eexists _, _, _. split; [done|]. split_and!; [done..|]. left. split_and!; (done || lia).
Qed.

Lemma index_insert c a n i k : index_of (mk_ctx a (<[n := i]> (event_index c))) k = if k =? n then i else index_of c k.
Proof.
  unfold index_of. cbn. destruct (Z.eqb_spec k n) as [->|]; [by rewrite lookup_insert_eq|by rewrite lookup_insert_ne].
Qed.

Lemma add_event_ok c f n evs : watches c f -> 0 <= n < 2 ^ 28 -> (has_flag evs HV_READ || has_flag evs HV_WRITE = true) ->
  exists c', iowatcher_add_event c n evs = Some c' /\ watches c' (upd f n (wanted_add (f n) evs)).
Proof.
  intros (l & Hr & Hm & Hok) Hn Hev. unfold iowatcher_add_event.
  destruct (slot_for_ok c f l n Hr Hm Hok Hn) as (c' & i & p & -> & Hm' & Ef & Em & Hcase). cbn [mbind option_bind].
  pose proof (mask_add (f n) evs p Em) as Hmask. cbv zeta in Hmask.
  set (p1 := if has_flag evs HV_READ then p.[events := Z.lor (events p) POLLIN] else p) in *.
  set (p2 := if has_flag evs HV_WRITE then p1.[events := Z.lor (events p1) POLLOUT] else p1) in *.
  assert (fd p2 = n) as Ef2 by (unfold p2, p1; by destruct (has_flag evs HV_READ), (has_flag evs HV_WRITE)).
  assert (wanted_add (f n) evs <> (false, false)) as Hv.
  { unfold wanted_add. intros [= E1 E2]. apply orb_false_iff in E1 as [_ E1], E2 as [_ E2]. by rewrite E1, E2 in Hev. }
  clearbody p2. destruct Hcase as [(-> & Hi & Hp & Ei)|(Hlt & -> & Hr' & Eix)].
  - destruct (set_slot_ok (fds c) l i p2 Hr Hi) as (a & -> & Hra & _ & Ema). cbn [mbind option_bind]. eexists. split; [done|].
    exists (<[Z.to_nat i := p2]> l). cbn. split; [done|]. split; [lia|].
    eapply slots_update; [exact Hok|by rewrite Z2Nat.id by lia|done|done|done|done|done].
  - destruct (rep_slot_write (fds c') l p p2 Hr') as (a & -> & Hra & Ema). cbn [mbind option_bind]. eexists. split; [done|].
    exists (l ++ [p2]). cbn. split; [done|]. split; [lia|].
    eapply slots_ext; [exact (slots_append l (index_of c) f n (wanted_add (f n) evs) p2 Hok Hlt Hn Hv Ef2 Hmask)|intros k|done]. rewrite Eix. apply index_insert.
Qed.
(** The last slot moved into the place of one that is given up. *)
Lemma slots_remove l y ix f n i : slots_ok (l ++ [y]) ix f -> ix n = Z.of_nat i -> (i <= length l)%nat ->
  slots_ok (<[i := y]> l) (fun k => if k =? n then -1 else if (i <? length l)%nat && (k =? fd y) then Z.of_nat i else ix k) (upd f n (false, false)).
Proof.
  intros Hok Ei Hi. pose proof Hok as [Hs Hix Hn]. destruct (Hix n) as (p0 & Hp0 & Ep0); [lia|]. rewrite Ei, Nat2Z.id in Hp0.
  assert ((l ++ [y]) !! length l = Some y) as Hy by by rewrite lookup_app_r, Nat.sub_diag by done.
  destruct (Hs _ _ Hy) as (Ry & Iy & My & Zy). assert (fd y = n <-> i = length l) as Hlast.
  { split; [intros E; rewrite E in Iy; lia|]. intros ->. congruence. }
  split.
  - intros j q Hq. assert (j < length l)%nat as Hj by (apply lookup_lt_Some in Hq; by rewrite length_insert in Hq).
    apply list_lookup_insert_Some in Hq as [(<- & <- & Hlt)|[Hne Hq]].
    + assert (fd y <> n) as Hyn by (rewrite Hlast; lia). rewrite want_upd_ne by done. destruct (Z.eqb_spec (fd y) n); [done|].
      apply Nat.ltb_lt in Hlt. rewrite Hlt, Z.eqb_refl. done.
    + assert ((l ++ [y]) !! j = Some q) as Hq' by by apply lookup_app_l_Some. destruct (Hs _ _ Hq') as (? & Ej & ? & ?).
      assert (fd q <> n) as Hqn by (intros E; rewrite E in Ej; lia). assert (fd q <> fd y) as Hqy by (intros E; rewrite E in Ej; lia).
      rewrite want_upd_ne by done. destruct (Z.eqb_spec (fd q) n); [done|]. destruct (Z.eqb_spec (fd q) (fd y)); [done|]. by rewrite andb_false_r.
  - intros k. destruct (Z.eqb_spec k n); [lia|]. destruct (Nat.ltb_spec i (length l)) as [Hlt|Hge]; cbn [andb].
    + destruct (Z.eqb_spec k (fd y)) as [->|Hky].
      * intros _. exists y. by rewrite Nat2Z.id, list_lookup_insert_eq by done.
      * intros Hk. destruct (Hix k Hk) as (q & Hq & Eq). exists q. split; [|done].
        apply lookup_app_Some in Hq as [Hq|[Hlen Hq]].
        -- rewrite list_lookup_insert_ne; [done|]. intros E. rewrite <- E in Hq. rewrite (lookup_app_l_Some _ _ _ _ Hq) in Hp0. congruence.
        -- apply list_lookup_singleton_Some in Hq as [_ <-]. done.
    + intros Hk. destruct (Hix k Hk) as (q & Hq & Eq). exists q. split; [|done]. rewrite list_insert_ge by done.
      apply lookup_app_Some in Hq as [Hq|[Hlen Hq]]; [done|]. apply list_lookup_singleton_Some in Hq as [_ <-].
      assert (fd y = n) by (apply Hlast; lia). congruence.
  - intros k. destruct (Z.eqb_spec k n) as [->|Hne]; [by rewrite want_upd_eq|]. rewrite want_upd_ne by done. destruct ((i <? length l)%nat && (k =? fd y)); [lia|]. apply Hn.
Qed.
Lemma del_event_ok c f n evs : watches c f -> 0 <= n < 2 ^ 28 ->
  exists c', iowatcher_del_event c n evs = Some c' /\ watches c' (upd f n (wanted_del (f n) evs)).
Proof.
  intros (l & Hr & Hm & Hok) Hn. unfold iowatcher_del_event. pose proof (slots_few _ _ _ Hok) as Hfew.
  destruct (Z.ltb_spec (index_of c n) 0) as [Hlt|Hge].
  { exists c. split; [done|]. exists l. split_and!; [done..|]. eapply slots_ext; [exact Hok|done|]. intros k. rewrite (S_none _ _ _ Hok n Hlt).
    destruct (decide (k = n)) as [->|Hne]; [by rewrite want_upd_eq, (S_none _ _ _ Hok n Hlt)|by rewrite want_upd_ne]. }
  destruct (S_index _ _ _ Hok n Hge) as (p & Hp & Ep). pose proof (lookup_lt_Some _ _ _ Hp) as Hl. remember (index_of c n) as idx eqn:Eix.
  assert (0 <= idx < zlen l) as Hi by (unfold zlen; lia). rewrite (slot_read _ l) by done. rewrite Hp. cbn [mbind option_bind]. rewrite Ep, Z.eqb_refl. cbn [negb].
  destruct (S_slot _ _ _ Hok _ _ Hp) as (_ & _ & Em & _). rewrite Ep in Em.
  pose proof (mask_del (f n) evs p Em) as Hmask. cbv zeta in Hmask |- *.
  set (p1 := if has_flag evs HV_READ then p.[events := Z.land (events p) (Z.lnot POLLIN)] else p) in *.
  set (p2 := if has_flag evs HV_WRITE then p1.[events := Z.land (events p1) (Z.lnot POLLOUT)] else p1) in *.
  assert (fd p2 = n) as Ef2 by (unfold p2, p1; by destruct (has_flag evs HV_READ), (has_flag evs HV_WRITE)). clearbody p2.
  destruct (set_slot_ok (fds c) l idx p2 Hr Hi) as (a & -> & Hra & Hsa & Ema). cbn [mbind option_bind].
  destruct (Z.eqb_spec (events p2) 0) as [Hz|Hnz].
  2: { eexists. split; [done|]. exists (<[Z.to_nat idx := p2]> l). cbn. split; [done|]. split; [lia|].
       eapply slots_update; [exact Hok|by rewrite Z2Nat.id by lia|done|done| |done|done]. rewrite <- mask_zero. congruence. }
  assert (wanted_del (f n) evs = (false, false)) as Ev by (apply mask_zero; congruence). rewrite Ev.
  set (i := Z.to_nat idx) in *. destruct l as [|y l _] using rev_ind; [simpl in Hl; lia|]. rewrite length_app in Hl. simpl in Hl.
  assert (exists l' y', <[i := p2]> (l ++ [y]) = l' ++ [y'] /\ <[i := y']> l' = <[i := y]> l /\ length l' = length l) as (l' & y' & El' & Eins & Elen).
  { destruct (decide (i < length l)%nat).
    - exists (<[i := p2]> l), y. rewrite insert_app_l, list_insert_insert_eq, length_insert by done. done.
    - exists l, p2. replace i with (length l) by lia. rewrite insert_app_r_alt, Nat.sub_diag by done. split_and!; [done|by rewrite !list_insert_ge|done]. }
  rewrite El' in Hra. zlen_simpl.
  assert (Array.index (l' ++ [y']) idx = idx) as Eidx by (unfold Array.index; destruct (Z.ltb_spec idx 0); [lia|done]).
  destruct (Array.rep_del_nomove a l' y' idx Hra) as (a2 & -> & Em2 & Hr2); [lia|lia|rewrite Eidx; zlen_simpl; unfold zlen in *; lia|].
  cbn [mbind option_bind]. rewrite Eidx in Hr2. fold i in Hr2. rewrite Eins in Hr2. pose proof Hr2 as (post & _ & Hs2 & _).
  assert (zlen (<[i := y]> l) = zlen l) as Hli by (unfold zlen; by rewrite length_insert). rewrite Hs2, Hli.
  pose proof (slots_remove l y (index_of c) f n i Hok ltac:(lia) ltac:(lia)) as Hrem.
  destruct (Z.ltb_spec idx (zlen l)) as [Hlt|Hlast].
  - rewrite (slot_read _ _ _ Hr2) by lia. fold i. rewrite list_lookup_insert_eq by (unfold zlen in *; lia). cbn [mbind option_bind].
    eexists. split; [done|]. exists (<[i := y]> l). cbn. split; [done|]. split; [lia|]. eapply slots_ext; [exact Hrem| |done].
    intros k. assert ((i <? length l)%nat = true) as -> by (apply Nat.ltb_lt; unfold zlen in *; lia). cbn [andb].
    change (<[n := -1]> (<[fd y := idx]> (event_index c))) with (<[n := -1]> (event_index (mk_ctx a2 (<[fd y := idx]> (event_index c))))).
    rewrite !index_insert. replace (Z.of_nat i) with idx by lia. done.
  - cbn [mbind option_bind]. eexists. split; [done|]. exists (<[i := y]> l). cbn. split; [done|]. split; [lia|]. eapply slots_ext; [exact Hrem| |done].
    intros k. assert ((i <? length l)%nat = false) as -> by (apply Nat.ltb_ge; unfold zlen in *; lia). cbn [andb]. by rewrite index_insert.
Qed.

#[export] Instance poll_watcher : IoWatcher poll_ctx := {
  w_fits n := 0 <= n < 2 ^ 28; w_init := iowatcher_init; w_add := iowatcher_add_event; w_del := iowatcher_del_event; w_watches := watches }.
#[export] Instance poll_laws : IoWatcherLaws poll_ctx.
Proof.
  split.
  - eexists. split; [reflexivity|]. exists []. split; [|split; [done|]].
    + exists (replicate 64 zero_pollfd). by split_and!.
    + split; [intros i p Hi; by rewrite lookup_nil in Hi|intros n Hn|done]. unfold index_of in Hn. cbn in Hn. rewrite lookup_empty in Hn. simpl in Hn. lia.
  - intros w f n evs Hw Hn Hev. by apply add_event_ok.
  - intros w f n evs Hw Hn. by apply del_event_ok.
Qed.

(** * What poll answers *)

Lemma scan_ok slots npoll : forall nevents, nevents + zlen (filter (fun x => x.2 <> 0) slots) = npoll -> nevents < npoll ->
  scan slots npoll nevents = (map (fun x => (x.1, hv_revents x.2)) (filter (fun x => x.2 <> 0) slots), npoll).
Proof.
  induction slots as [|[n rev] slots IH]; intros k Hk Hlt; cbn [scan].
  - rewrite filter_nil in Hk. change (zlen []) with 0 in Hk. lia.
  - destruct (Z.eqb_spec rev 0) as [->|Hr]; cbn [negb].
    + rewrite filter_cons_False in Hk |- * by (cbn; lia). destruct (Z.eqb_spec k npoll); [lia|]. by rewrite IH.
    + rewrite filter_cons_True in Hk |- * by done. zlen_simpl. destruct (Z.eqb_spec (k + 1) npoll) as [E|Hne].
      * assert (filter (fun x : Z * Z => x.2 <> 0) slots = []) as ->.
        { destruct (filter (fun x : Z * Z => x.2 <> 0) slots) as [|x l]; [done|]. zlen_simpl. pose proof (zlen_nonneg l). lia. }
        by rewrite E.
      * rewrite IH; [done|lia|]. pose proof (zlen_nonneg (filter (fun x : Z * Z => x.2 <> 0) slots)). lia.
Qed.

(** What poll is asked: the fds wanted, once each, with their masks. *)
Definition asked (c : poll_ctx) : list (Z * Z) :=
  map (fun p => (fd p, events p)) (take (Z.to_nat (Array.size (fds c))) (Array.ptr (fds c))).

Lemma watches_asked c f : watches c f -> NoDup (asked c).*1 /\ forall n m, (n, m) ∈ asked c <-> m = mask (f n) /\ m <> 0.
Proof.
  intros (l & (post & E & Hsz & _) & _ & [Hs Hi Hn]). unfold asked. rewrite E, Hsz. unfold zlen. rewrite Nat2Z.id, take_app_length.
  assert ((map (fun p => (fd p, events p)) l).*1 = fd <$> l) as -> by (rewrite <- list_fmap_compose; done). split.
  - apply NoDup_alt. intros i j n. rewrite !list_lookup_fmap. intros (p & Hp & ->)%fmap_Some (q & Hq & Eq)%fmap_Some.
    destruct (Hs i p Hp) as (_ & E1 & _), (Hs j q Hq) as (_ & E2 & _). rewrite Eq in E1. lia.
  - intros n m. rewrite list_elem_of_In, in_map_iff. split.
    + intros (p & [= <- <-] & Hp). apply list_elem_of_In, list_elem_of_lookup_1 in Hp as [i Hp]. by destruct (Hs i p Hp) as (_ & _ & ? & ?).
    + intros [-> Hm]. destruct (Z.lt_ge_cases (index_of c n) 0) as [Hlt|Hge].
      * rewrite (Hn n Hlt) in Hm. by destruct Hm.
      * destruct (Hi n Hge) as (p & Hp & Ep). exists p. split; [|by eapply list_elem_of_In, list_elem_of_lookup_2].
        destruct (Hs _ p Hp) as (_ & _ & ? & _). congruence.
Qed.

(** C19. After any additions and removals of events, the poll watcher asks poll for exactly
    the fds wanted, each once and with the events wanted, and when poll answers with the
    number of fds ready it reports exactly those, an error or hang-up as both readable and
    writable. *)
Theorem poll_watcher_refines ops : Forall (wop_ok (w_fits (W := poll_ctx))) ops ->
  exists c c', iowatcher_init = Some c /\ watch c ops = Some c' /\
    NoDup (asked c').*1 /\ (forall n m, (n, m) ∈ asked c' <-> m = mask (wanted ops n) /\ m <> 0) /\
    forall poll ms errno revs, asked c' <> [] -> let ready := filter (fun x => x.2 <> 0) (zip (asked c').*1 revs) in
      poll (asked c') ms = (zlen ready, errno, revs) ->
      iowatcher_poll_events poll c' ms = (map (fun x => (x.1, hv_revents x.2)) ready, zlen ready).
Proof.
  intros Hops. destruct (watcher_refines ops Hops) as (c & c' & Ei & Ew & Hw). exists c, c'. split; [done|]. split; [done|].
  destruct (watches_asked c' _ Hw) as [Hnd Hin]. split; [done|]. split; [done|].
  intros poll ms errno revs Hne ready Hp. unfold iowatcher_poll_events. fold (asked c'). rewrite Hp.
  assert (Array.size (fds c') <> 0) as Hsz by (intros E0; apply Hne; unfold asked; by rewrite E0).
  destruct (Z.eqb_spec (Array.size (fds c')) 0); [done|]. pose proof (zlen_nonneg ready).
  destruct (Z.ltb_spec (zlen ready) 0); [lia|]. destruct (Z.eqb_spec (zlen ready) 0) as [E|Hr].
  - assert (ready = []) as -> by (destruct ready as [|x l]; [done|]; zlen_simpl; pose proof (zlen_nonneg l); lia). done.
  - assert (map fd (take (Z.to_nat (Array.size (fds c'))) (Array.ptr (fds c'))) = (asked c').*1) as -> by (unfold asked; rewrite <- list_fmap_compose; done).
    apply scan_ok; [done|lia].
Qed.

Lemma poll_watcher_refines_witness : exists c c', iowatcher_init = Some c /\
  watch c [WAdd 3 1; WAdd 7 5; WAdd 5 4; WDel 3 5; WDel 7 1] = Some c' /\ asked c' = [(5, 4); (7, 4)].
Proof.
  destruct (poll_watcher_refines [WAdd 3 1; WAdd 7 5; WAdd 5 4; WDel 3 5; WDel 7 1]) as (c & c' & Ei & Ew & _).
  - repeat constructor; vm_compute; congruence.
  - exists c, c'. split; [done|]. split; [done|]. injection Ei as <-. vm_compute in Ew. injection Ew as <-. by vm_compute.
Defined.
End Poll.
