(* ===== verification/Select.v ===== *)
(** The select watcher of event/select.c: two sets of fds with their sizes, and the
    greatest fd, -1 when it is to be looked up. A set holds fds below [FD_SETSIZE]; setting
    or testing another is an error. *)
From S2P Require Import Prelude Heap Containers HMath HTime Loop Watcher.
Import Loop(HV_READ, HV_WRITE, EINTR) Watcher.

Module Select.

Definition FD_SETSIZE : Z := 1024.
Definition EBADF : Z := 9.
Definition HV_RDWR : Z := Z.lor HV_READ HV_WRITE.

Record select_ctx := mk_ctx { max_fd : Z; readfds : gset Z; writefds : gset Z; nread : Z; nwrite : Z }.
#[export] Instance ctx_rebuild : Rebuild select_ctx := fun c => mk_ctx (max_fd c) (readfds c) (writefds c) (nread c) (nwrite c).

Definition iowatcher_init : select_ctx := mk_ctx (-1) ∅ ∅ 0 0.

Definition FD_ISSET (n : Z) (s : gset Z) : option bool := if (0 <=? n) && (n <? FD_SETSIZE) then Some (bool_decide (n ∈ s)) else None.

Definition iowatcher_add_event (c : select_ctx) (n evs : Z) : option select_ctx :=
  let c := if max_fd c <? n then c.[max_fd := n] else c in
  c ← (if has_flag evs HV_READ then
         b ← FD_ISSET n (readfds c); Some (if b : bool then c else c.[readfds := {[n]} ∪ readfds c].[nread := nread c + 1])
       else Some c);
  if has_flag evs HV_WRITE then
    b ← FD_ISSET n (writefds c); Some (if b : bool then c else c.[writefds := {[n]} ∪ writefds c].[nwrite := nwrite c + 1])
  else Some c.

Definition iowatcher_del_event (c : select_ctx) (n evs : Z) : option select_ctx :=
  let c := if n =? max_fd c then c.[max_fd := -1] else c in
  c ← (if has_flag evs HV_READ then
         b ← FD_ISSET n (readfds c); Some (if b : bool then c.[readfds := readfds c ∖ {[n]}].[nread := nread c - 1] else c)
       else Some c);
  if has_flag evs HV_WRITE then
    b ← FD_ISSET n (writefds c); Some (if b : bool then c.[writefds := writefds c ∖ {[n]}].[nwrite := nwrite c - 1] else c)
  else Some c.

(** The table of ios: whether there is one, and whether it is active with events. *)
Record io := mk_io { active : bool; has_events : bool }.

(** The scan from the end of the table. *)
Fixpoint find_max_active_fd (ios : list (option io)) (i : nat) : Z :=
  match i with
  | O => -1
  | S i' => match ios !! i' with Some (Some x) => if active x && has_events x then Z.of_nat i' else find_max_active_fd ios i' | _ => find_max_active_fd ios i' end
  end.

(** [hio_del(io, HV_RDWR)]: an io that is active loses its events and is inactive. *)
Definition del_bad (c : select_ctx) (ios : list (option io)) (n : Z) : option (select_ctx * list (option io)) :=
  x ← zget ios n;
  match x with
  | Some x =>
      if active x then
        c ← (if has_events x then iowatcher_del_event c n HV_RDWR else Some c);
        ios ← zset ios n (Some (mk_io false false));
        Some (c, ios)
      else Some (c, ios)
  | None => Some (c, ios)
  end.

(** [getsockopt] tells which fds are bad. Removing events may end the scan, which is
    bounded by [max_fd]. *)
Fixpoint remove_loop (fuel : nat) (bad : Z -> bool) (ios : list (option io)) (c : select_ctx) (n badfds : Z) :
  option (select_ctx * list (option io) * Z) :=
  if max_fd c <? n then Some (c, ios, badfds)
  else
    match fuel with
    | O => None
    | S f =>
        r ← FD_ISSET n (readfds c); w ← FD_ISSET n (writefds c);
        if (r || w) && bad n then '(c, ios) ← del_bad c ios n; remove_loop f bad ios c (n + 1) (badfds + 1)
        else remove_loop f bad ios c (n + 1) badfds
    end.
Definition remove_bad_fds (bad : Z -> bool) (ios : list (option io)) (c : select_ctx) : option (select_ctx * list (option io) * Z) :=
  remove_loop (Z.to_nat (max_fd c + 1)) bad ios c 0 0.

(** The scan of the answers up to [max_fd]: the fds reported, and the number of events. *)
Fixpoint scan (fds : list Z) (r w : gset Z) (nselect nevents : Z) : list (Z * Z) * Z :=
  match fds with
  | [] => ([], nevents)
  | n :: fds =>
      let rev := Z.lor (if bool_decide (n ∈ r) then HV_READ else 0) (if bool_decide (n ∈ w) then HV_WRITE else 0) in
      let nevents := nevents + (if bool_decide (n ∈ r) then 1 else 0) + (if bool_decide (n ∈ w) then 1 else 0) in
      let out := if rev =? 0 then [] else [(n, rev)] in
      if nevents =? nselect then (out, nevents)
      else let '(rest, k) := scan fds r w nselect nevents in (out ++ rest, k)
  end.

(** [select] answers a number, errno and the sets that are ready. *)
Definition iowatcher_poll_events (select : Z -> gset Z -> gset Z -> Z -> Z * Z * gset Z * gset Z) (bad : Z -> bool) (ios : list (option io))
  (c : select_ctx) (timeout : Z) : option (select_ctx * list (option io) * list (Z * Z) * Z) :=
  if (nread c =? 0) && (nwrite c =? 0) then Some (c, ios, [], 0)
  else
    let c := if max_fd c =? -1 then c.[max_fd := find_max_active_fd ios (length ios)] else c in
    let '(nselect, errno, r, w) := select (max_fd c + 1) (readfds c) (writefds c) timeout in
    if nselect <? 0 then
      if errno =? EBADF then '(c, ios, _) ← remove_bad_fds bad ios c; Some (c, ios, [], - EBADF) else Some (c, ios, [], nselect)
    else if nselect =? 0 then Some (c, ios, [], 0)
    else let '(out, k) := scan (seqZ 0 (max_fd c + 1)) r w nselect 0 in Some (c, ios, out, k).

(** * What is in the sets *)

Definition watches (c : select_ctx) (f : want) : Prop :=
  (forall n, (n ∈ readfds c <-> (f n).1 = true) /\ (n ∈ writefds c <-> (f n).2 = true)) /\
  nread c = Z.of_nat (size (readfds c)) /\ nwrite c = Z.of_nat (size (writefds c)).

Lemma FD_ISSET_ok n s : 0 <= n < FD_SETSIZE -> FD_ISSET n s = Some (bool_decide (n ∈ s)).
Proof. intros H. unfold FD_ISSET. destruct (Z.leb_spec 0 n), (Z.ltb_spec n FD_SETSIZE); (done || lia). Qed.

(** One set with its size: the fd added or removed if [b]. *)
Lemma add_set (s : gset Z) k n (b : bool) : k = Z.of_nat (size s) ->
  let '(s', k') := if b then (if bool_decide (n ∈ s) then (s, k) else ({[n]} ∪ s, k + 1)) else (s, k) in
  k' = Z.of_nat (size s') /\ forall m, m ∈ s' <-> m ∈ s \/ (m = n /\ b = true).
Proof.
  intros ->. destruct b; [|split; [done|]; intros m; split; [by left|by intros [?|[_ ?]]]]. destruct (bool_decide_reflect (n ∈ s)) as [Hin|Hin].
  - split; [done|]. intros m. split; [by left|]. by intros [?|[-> _]].
  - split; [rewrite size_union, size_singleton by set_solver; lia|]. intros m. set_solver.
Qed.
Lemma del_set (s : gset Z) k n (b : bool) : k = Z.of_nat (size s) ->
  let '(s', k') := if b then (if bool_decide (n ∈ s) then (s ∖ {[n]}, k - 1) else (s, k)) else (s, k) in
  k' = Z.of_nat (size s') /\ forall m, m ∈ s' <-> m ∈ s /\ ~ (m = n /\ b = true).
Proof.
  intros ->. destruct b; [|split; [done|]; intros m; split; [intros ?; split; [done|]; by intros [_ ?]|by intros [? _]]]. destruct (bool_decide_reflect (n ∈ s)) as [Hin|Hin].
  - split; [|intros m; set_solver]. rewrite size_difference, size_singleton by set_solver.
    assert (size s <> 0%nat) by (intros E%size_empty_inv; set_solver). lia.
  - split; [done|]. intros m. set_solver.
Qed.

Lemma add_event_eq c n evs : 0 <= n < FD_SETSIZE -> iowatcher_add_event c n evs = Some
  (let '(r, nr) := if has_flag evs HV_READ then (if bool_decide (n ∈ readfds c) then (readfds c, nread c) else ({[n]} ∪ readfds c, nread c + 1)) else (readfds c, nread c) in
   let '(w, nw) := if has_flag evs HV_WRITE then (if bool_decide (n ∈ writefds c) then (writefds c, nwrite c) else ({[n]} ∪ writefds c, nwrite c + 1)) else (writefds c, nwrite c) in
   mk_ctx (Z.max (max_fd c) n) r w nr nw).
Proof.
  intros Hn. unfold iowatcher_add_event. destruct c as [mx r w nr nw]. cbn [max_fd readfds writefds nread nwrite].
  replace (Z.max mx n) with (if mx <? n then n else mx) by (destruct (Z.ltb_spec mx n); lia).
  destruct (mx <? n), (has_flag evs HV_READ), (has_flag evs HV_WRITE); cbn; rewrite ?FD_ISSET_ok by done; cbn;
    destruct (bool_decide (n ∈ r)); cbn; rewrite ?FD_ISSET_ok by done; cbn; by destruct (bool_decide (n ∈ w)).
Qed.
Lemma del_event_eq c n evs : 0 <= n < FD_SETSIZE -> iowatcher_del_event c n evs = Some
  (let '(r, nr) := if has_flag evs HV_READ then (if bool_decide (n ∈ readfds c) then (readfds c ∖ {[n]}, nread c - 1) else (readfds c, nread c)) else (readfds c, nread c) in
   let '(w, nw) := if has_flag evs HV_WRITE then (if bool_decide (n ∈ writefds c) then (writefds c ∖ {[n]}, nwrite c - 1) else (writefds c, nwrite c)) else (writefds c, nwrite c) in
   mk_ctx (if n =? max_fd c then -1 else max_fd c) r w nr nw).
Proof.
  intros Hn. unfold iowatcher_del_event. destruct c as [mx r w nr nw]. cbn [max_fd readfds writefds nread nwrite].
  destruct (n =? mx), (has_flag evs HV_READ), (has_flag evs HV_WRITE); cbn; rewrite ?FD_ISSET_ok by done; cbn;
    destruct (bool_decide (n ∈ r)); cbn; rewrite ?FD_ISSET_ok by done; cbn; by destruct (bool_decide (n ∈ w)).
Qed.

#[export] Instance select_watcher : IoWatcher select_ctx := {
  w_fits n := 0 <= n < FD_SETSIZE; w_init := Some iowatcher_init; w_add := iowatcher_add_event; w_del := iowatcher_del_event; w_watches := watches }.
#[export] Instance select_laws : IoWatcherLaws select_ctx.
Proof.
  split.
  - eexists. split; [reflexivity|]. split; [|done]. intros n. cbn. split; split; (done || set_solver).
  - intros c f n evs (Hf & Er & Ew) Hn _. cbn. rewrite add_event_eq by done.
    pose proof (add_set (readfds c) (nread c) n (has_flag evs HV_READ) Er) as HR. pose proof (add_set (writefds c) (nwrite c) n (has_flag evs HV_WRITE) Ew) as HW.
    destruct (if has_flag evs HV_READ then _ else _) as [r nr]. destruct (if has_flag evs HV_WRITE then _ else _) as [w nw].
    eexists. split; [done|]. destruct HR as [? HR], HW as [? HW]. split; [|done]. intros m. cbn [readfds writefds]. rewrite HR, HW. destruct (Hf m) as [-> ->].
    unfold upd, wanted_add. destruct (Z.eqb_spec m n) as [->|]; cbn [fst snd]; rewrite ?orb_true_iff; tauto.
  - intros c f n evs (Hf & Er & Ew) Hn. cbn. rewrite del_event_eq by done.
    pose proof (del_set (readfds c) (nread c) n (has_flag evs HV_READ) Er) as HR. pose proof (del_set (writefds c) (nwrite c) n (has_flag evs HV_WRITE) Ew) as HW.
    destruct (if has_flag evs HV_READ then _ else _) as [r nr]. destruct (if has_flag evs HV_WRITE then _ else _) as [w nw].
    eexists. split; [done|]. destruct HR as [? HR], HW as [? HW]. split; [|done]. intros m. cbn [readfds writefds]. rewrite HR, HW. destruct (Hf m) as [-> ->].
    unfold upd, wanted_del. destruct (Z.eqb_spec m n) as [->|]; cbn [fst snd]; rewrite ?andb_true_iff, ?negb_true_iff, <- ?not_true_iff_false; tauto.
Qed.

Lemma add_read c n : 0 <= n < FD_SETSIZE -> n ∉ readfds c ->
  iowatcher_add_event c n HV_READ = Some (mk_ctx (Z.max (max_fd c) n) ({[n]} ∪ readfds c) (writefds c) (nread c + 1) (nwrite c)).
Proof.
  intros Hn Hin. rewrite add_event_eq by done. change (has_flag HV_READ HV_READ) with true. change (has_flag HV_READ HV_WRITE) with false. cbv iota.
  by rewrite bool_decide_eq_false_2.
Qed.
Lemma del_read c n : 0 <= n < FD_SETSIZE -> n ∈ readfds c ->
  iowatcher_del_event c n HV_READ = Some (mk_ctx (if n =? max_fd c then -1 else max_fd c) (readfds c ∖ {[n]}) (writefds c) (nread c - 1) (nwrite c)).
Proof.
  intros Hn Hin. rewrite del_event_eq by done. change (has_flag HV_READ HV_READ) with true. change (has_flag HV_READ HV_WRITE) with false. cbv iota.
  by rewrite bool_decide_eq_true_2.
Qed.

(** Only fds up to [max_fd] are reported. *)
Lemma scan_fds fds r w nselect : forall k n rev, (n, rev) ∈ (scan fds r w nselect k).1 -> n ∈ fds.
Proof.
  induction fds as [|m fds IH]; intros k n rev; cbn [scan]; [set_solver|]. set (k1 := _ + _ + _). set (rv := Z.lor _ _).
  destruct (k1 =? nselect); [destruct (rv =? 0); cbn; set_solver|].
  specialize (IH k1 n rev). destruct (scan fds r w nselect k1) as [rest k2]. cbn [fst] in *. destruct (rv =? 0); set_solver.
Qed.

(** C35. Removing events of the greatest fd marks it for being looked up again, and adding
    an fd before the next poll takes that one for the greatest: fds in between that are
    still wanted are in the set, but select is not asked about them and whatever it
    answers they are not reported. *)
Theorem select_misses_fd lo mid hi : 0 <= lo -> lo < mid < hi -> hi < FD_SETSIZE ->
  let ops := [WAdd mid HV_READ; WAdd hi HV_READ; WDel hi HV_READ; WAdd lo HV_READ] in
  (wanted ops mid).1 = true /\
  exists c, watch iowatcher_init ops = Some c /\ mid ∈ readfds c /\
    forall select bad ios ms c' ios' out k, iowatcher_poll_events select bad ios c ms = Some (c', ios', out, k) -> forall rev, (mid, rev) ∉ out.
Proof.
  intros Hlo Hmid Hhi ops. split.
  { cbn. unfold upd. destruct (Z.eqb_spec mid lo), (Z.eqb_spec mid hi); try lia. cbn. by rewrite Z.eqb_refl. }
  assert (exists c, watch iowatcher_init ops = Some c /\ max_fd c = lo /\ mid ∈ readfds c /\ nread c = 2) as (c & E & Emax & Hin & Hnr).
  { cbn [watch ops wop_run w_add w_del select_watcher]. rewrite add_read by (lia || set_solver). cbn [mbind option_bind].
    rewrite add_read by (lia || (cbn; set_solver by lia)). cbn [mbind option_bind readfds nread]. rewrite del_read by (lia || (cbn; set_solver)).
    cbn [mbind option_bind readfds nread]. rewrite add_read by (lia || (cbn; set_solver by lia)). eexists. split; [done|]. cbn [max_fd readfds nread].
    rewrite (proj2 (Z.eqb_eq hi _)) by (cbn; lia). split; [lia|]. split; [set_solver by lia|cbn; lia]. }
  exists c. split; [done|]. split; [done|]. intros select bad ios ms c' ios' out k Hp rev. unfold iowatcher_poll_events in Hp. rewrite Hnr in Hp.
  cbn [Z.eqb andb] in Hp. destruct (Z.eqb_spec (max_fd c) (-1)); [lia|].
  destruct (select (max_fd c + 1) (readfds c) (writefds c) ms) as [[[nsel errno] r] w].
  destruct (nsel <? 0); [destruct (errno =? EBADF); [destruct (remove_bad_fds bad ios c) as [[[? ?] ?]|]|]; simplify_eq/=; set_solver|].
  destruct (nsel =? 0); [simplify_eq/=; set_solver|].
  pose proof (scan_fds (seqZ 0 (max_fd c + 1)) r w nsel 0 mid rev) as Hs. destruct (scan (seqZ 0 (max_fd c + 1)) r w nsel 0) as [o kk]. simplify_eq/=.
  intros Hin'. apply Hs, elem_of_seqZ in Hin'. lia.
Qed.
Lemma select_misses_fd_witness : (wanted [WAdd 5 1; WAdd 9 1; WDel 9 1; WAdd 3 1] 5).1 = true /\
  exists c, watch iowatcher_init [WAdd 5 1; WAdd 9 1; WDel 9 1; WAdd 3 1] = Some c /\ 5 ∈ readfds c.
Proof.
  destruct (select_misses_fd 3 5 9) as (H & c & E & Hin & _); [lia|lia|reflexivity|].
  split; [exact H|]. exists c. split; [exact E|exact Hin].
Defined.

End Select.
