(* ===== verification/MultiPart.v ===== *)
(** The parser of multipart bodies, http/multipart_parser.c: a state machine fed in pieces,
    with its look-behind buffer and its callbacks. Callbacks are one function on events
    that may keep a state; a result other than 0 stops the parser. Memory outside the
    parser's allocation is an error. *)
From S2P Require Import Prelude.

Module MultiPart.

Definition LF : Z := 10.
Definition CR : Z := 13.

Inductive state :=
  | s_uninitialized | s_start | s_start_boundary | s_header_field_start | s_header_field | s_headers_almost_done
  | s_header_value_start | s_header_value | s_header_value_almost_done | s_part_data_start | s_part_data
  | s_part_data_almost_boundary | s_part_data_boundary | s_part_data_almost_end | s_part_data_end
  | s_part_data_final_hyphen | s_end.

(** The callbacks of [multipart_parser_settings] with what they are given. *)
Inductive event :=
  | header_field (d : list Z) | header_value (d : list Z) | part_data (d : list Z)
  | part_data_begin | headers_complete | part_data_end | body_end.

Record multipart_parser := mk_parser {
  index : Z;
  boundary_length : Z;
  st : state;
  lookbehind : list Z;
  multipart_boundary : list Z  (* with its terminator *) }.
#[export] Instance parser_rebuild : Rebuild multipart_parser := fun p =>
  mk_parser (index p) (boundary_length p) (st p) (lookbehind p) (multipart_boundary p).

(** [boundary] without its terminator; behind the boundary the allocation leaves
    [strlen(boundary) + 9] bytes. *)
Definition multipart_parser_init (boundary : list Z) : multipart_parser :=
  mk_parser 0 (zlen boundary) s_start (replicate (length boundary + 9) 0) (boundary ++ [0]).

Definition tolower (c : Z) : Z := if (65 <=? c) && (c <=? 90) then c + 32 else c.

Section Execute.
Context {S : Type} (cb : S -> event -> S * Z).

(** How one round of the loop ends: the next byte, the same byte again, or a return. *)
Inductive round := Next (p : multipart_parser) (s : S) (mark : Z) | Again (p : multipart_parser) (s : S) (mark : Z)
  | Return (p : multipart_parser) (s : S) (i : Z).

(** [NOTIFY_CB] and [EMIT_DATA_CB]: on with [k], or return [i]. *)
Definition call_back (p : multipart_parser) (s : S) (i : Z) (e : event) (k : S -> option round) : option round :=
  let '(s, r) := cb s e in if r =? 0 then k s else Some (Return p s i).

Definition round_start_boundary (p : multipart_parser) (s : S) (i mark c : Z) : option round :=
  if index p =? boundary_length p then
    if negb (c =? CR) then Some (Return p s i) else Some (Next (p.[index := index p + 1]) s mark)
  else if index p =? boundary_length p + 1 then
    if negb (c =? LF) then Some (Return p s i)
    else
      let p := p.[index := 0] in
      call_back p s i part_data_begin (fun s => Some (Next (p.[st := s_header_field_start]) s mark))
  else
    b ← zget (multipart_boundary p) (index p);
    if negb (c =? b) then Some (Return p s i) else Some (Next (p.[index := index p + 1]) s mark).

Definition round_header_field (p : multipart_parser) (s : S) (buf : list Z) (i mark c : Z) (is_last : bool) : option round :=
  if c =? CR then Some (Next (p.[st := s_headers_almost_done]) s mark)
  else if c =? 58 then
    d ← zslice buf mark (i - mark);
    call_back p s i (header_field d) (fun s => Some (Next (p.[st := s_header_value_start]) s mark))
  else
    let cl := tolower c in
    if negb (c =? 45) && ((cl <? 97) || (122 <? cl)) then Some (Return p s i)
    else if is_last then
      d ← zslice buf mark (i - mark + 1);
      call_back p s i (header_field d) (fun s => Some (Next p s mark))
    else Some (Next p s mark).

Definition round_header_value (p : multipart_parser) (s : S) (buf : list Z) (i mark c : Z) (is_last : bool) : option round :=
  if c =? CR then
    d ← zslice buf mark (i - mark);
    call_back p s i (header_value d) (fun s => Some (Next (p.[st := s_header_value_almost_done]) s mark))
  else if is_last then
    d ← zslice buf mark (i - mark + 1);
    call_back p s i (header_value d) (fun s => Some (Next p s mark))
  else Some (Next p s mark).

Definition round_part_data (p : multipart_parser) (s : S) (buf : list Z) (i mark c : Z) (is_last : bool) : option round :=
  if c =? CR then
    d ← zslice buf mark (i - mark);
    call_back p s i (part_data d) (fun s =>
      l ← zset (lookbehind p) 0 CR;
      Some (Next (p.[st := s_part_data_almost_boundary].[lookbehind := l]) s i))
  else if is_last then
    d ← zslice buf mark (i - mark + 1);
    call_back p s i (part_data d) (fun s => Some (Next p s mark))
  else Some (Next p s mark).

Definition round_of (p : multipart_parser) (s : S) (buf : list Z) (i mark c : Z) (is_last : bool) : option round :=
  match st p with
  | s_start => round_start_boundary (p.[index := 0].[st := s_start_boundary]) s i mark c
  | s_start_boundary => round_start_boundary p s i mark c
  | s_header_field_start => round_header_field (p.[st := s_header_field]) s buf i i c is_last
  | s_header_field => round_header_field p s buf i mark c is_last
  | s_headers_almost_done => if negb (c =? LF) then Some (Return p s i) else Some (Next (p.[st := s_part_data_start]) s mark)
  | s_header_value_start =>
      if c =? 32 then Some (Next p s mark) else round_header_value (p.[st := s_header_value]) s buf i i c is_last
  | s_header_value => round_header_value p s buf i mark c is_last
  | s_header_value_almost_done => if negb (c =? LF) then Some (Return p s i) else Some (Next (p.[st := s_header_field_start]) s mark)
  | s_part_data_start => call_back p s i headers_complete (fun s => round_part_data (p.[st := s_part_data]) s buf i i c is_last)
  | s_part_data => round_part_data p s buf i mark c is_last
  | s_part_data_almost_boundary =>
      if c =? LF then
        l ← zset (lookbehind p) 1 LF;
        Some (Next (p.[st := s_part_data_boundary].[lookbehind := l].[index := 0]) s mark)
      else
        d ← zslice (lookbehind p) 0 1;
        call_back p s i (part_data d) (fun s => Some (Again (p.[st := s_part_data]) s i))
  | s_part_data_boundary =>
      b ← zget (multipart_boundary p) (index p);
      if negb (b =? c) then
        d ← zslice (lookbehind p) 0 (2 + index p);
        call_back p s i (part_data d) (fun s => Some (Again (p.[st := s_part_data]) s i))
      else
        l ← zset (lookbehind p) (2 + index p) c;
        let p := p.[lookbehind := l].[index := index p + 1] in
        if index p =? boundary_length p
        then call_back p s i part_data_end (fun s => Some (Next (p.[st := s_part_data_almost_end]) s mark))
        else Some (Next p s mark)
  | s_part_data_almost_end =>
      if c =? 45 then Some (Next (p.[st := s_part_data_final_hyphen]) s mark)
      else if c =? CR then Some (Next (p.[st := s_part_data_end]) s mark)
      else Some (Return p s i)
  | s_part_data_final_hyphen =>
      if c =? 45 then call_back p s i body_end (fun s => Some (Next (p.[st := s_end]) s mark)) else Some (Return p s i)
  | s_part_data_end =>
      if c =? LF then
        let p := p.[st := s_header_field_start] in call_back p s i part_data_begin (fun s => Some (Next p s mark))
      else Some (Return p s i)
  | s_end => Some (Next p s mark)
  | s_uninitialized => Some (Return p s 0)
  end.

(** The loop; a byte is looked at twice at most. *)
Fixpoint parse_loop (fuel : nat) (p : multipart_parser) (s : S) (buf : list Z) (i mark : Z) : option (multipart_parser * S * Z) :=
  if i <? zlen buf then
    match fuel with
    | O => None
    | Datatypes.S f =>
        c ← zget buf i;
        r ← round_of p s buf i mark c (i =? zlen buf - 1);
        match r with
        | Next p s mark => parse_loop f p s buf (i + 1) mark
        | Again p s mark => parse_loop f p s buf i mark
        | Return p s i => Some (p, s, i)
        end
    end
  else Some (p, s, zlen buf).
Definition multipart_parser_execute (p : multipart_parser) (s : S) (buf : list Z) : option (multipart_parser * S * Z) :=
  parse_loop (2 * length buf) p s buf 0 0.

(** A body received in pieces, as long as they are taken whole. *)
Fixpoint feed (p : multipart_parser) (s : S) (chunks : list (list Z)) : option (multipart_parser * S * bool) :=
  match chunks with
  | [] => Some (p, s, true)
  | b :: chunks => '(p, s, n) ← multipart_parser_execute p s b; if n =? zlen b then feed p s chunks else Some (p, s, false)
  end.
End Execute.

End MultiPart.
