(* ===== verification/MultiPartThm.v ===== *)
(** The multipart parser: however a body is cut, the callbacks are given its parts. *)
From S2P Require Import Prelude MultiPart.

Module MultiPartThm.
Import MultiPart.

(** * What is delivered, byte by byte *)

Inductive tok := TF (c : Z) | TV (c : Z) | TD (c : Z) | TBegin | THeaders | TEnd | TBody.
Definition flat (e : event) : list tok :=
  match e with
  | header_field d => map TF d | header_value d => map TV d | part_data d => map TD d
  | part_data_begin => [TBegin] | headers_complete => [THeaders] | part_data_end => [TEnd] | body_end => [TBody]
  end.
Definition flats (s : list event) : list tok := concat (map flat s).
Lemma flats_snoc s e : flats (s ++ [e]) = flats s ++ flat e.
Proof. unfold flats. rewrite map_app, concat_app. simpl. by rewrite app_nil_r. Qed.

(** Callbacks that keep what they are given. *)
Definition record (s : list event) (e : event) : list event * Z := (s ++ [e], 0).

(** * The machine on bytes *)

(** A state with the place in the boundary; the bytes consumed one by one, with what each
    settles. A header line without a colon is not defined. *)
Notation pos := (state * nat)%type.
Definition field_char (c : Z) : bool := (c =? 45) || ((97 <=? tolower c) && (tolower c <=? 122)).
Definition data_step (c : Z) : pos * list tok := if c =? CR then ((s_part_data_almost_boundary, 0%nat), []) else ((s_part_data, 0%nat), [TD c]).
Definition after (t : list tok) (x : pos * list tok) : option (pos * list tok) := Some (x.1, t ++ x.2).

Definition byte_step (b : list Z) (q : pos) (c : Z) : option (pos * list tok) :=
  let start k :=
    if (k =? length b)%nat then if c =? CR then Some ((s_start_boundary, S k), []) else None
    else if (k =? S (length b))%nat then if c =? LF then Some ((s_header_field_start, 0%nat), [TBegin]) else None
    else x ← b !! k; if c =? x then Some ((s_start_boundary, S k), []) else None in
  let field :=
    if c =? 58 then Some ((s_header_value_start, 0%nat), [])
    else if field_char c then Some ((s_header_field, 0%nat), [TF c]) else None in
  match q with
  | (s_start, _) => start 0%nat
  | (s_start_boundary, k) => start k
  | (s_header_field_start, _) => if c =? CR then Some ((s_headers_almost_done, 0%nat), []) else field
  | (s_header_field, _) => if c =? CR then None else field
  | (s_headers_almost_done, _) => if c =? LF then Some ((s_part_data_start, 0%nat), []) else None
  | (s_header_value_start, _) =>
      if c =? 32 then Some ((s_header_value_start, 0%nat), [])
      else if c =? CR then Some ((s_header_value_almost_done, 0%nat), []) else Some ((s_header_value, 0%nat), [TV c])
  | (s_header_value, _) => if c =? CR then Some ((s_header_value_almost_done, 0%nat), []) else Some ((s_header_value, 0%nat), [TV c])
  | (s_header_value_almost_done, _) => if c =? LF then Some ((s_header_field_start, 0%nat), []) else None
  | (s_part_data_start, _) => after [THeaders] (data_step c)
  | (s_part_data, _) => after [] (data_step c)
  | (s_part_data_almost_boundary, _) => if c =? LF then Some ((s_part_data_boundary, 0%nat), []) else after [TD CR] (data_step c)
  | (s_part_data_boundary, k) =>
      x ← b !! k;
      if x =? c then if (S k =? length b)%nat then Some ((s_part_data_almost_end, 0%nat), [TEnd]) else Some ((s_part_data_boundary, S k), [])
      else after (map TD (CR :: LF :: take k b)) (data_step c)
  | (s_part_data_almost_end, _) =>
      if c =? 45 then Some ((s_part_data_final_hyphen, 0%nat), []) else if c =? CR then Some ((s_part_data_end, 0%nat), []) else None
  | (s_part_data_final_hyphen, _) => if c =? 45 then Some ((s_end, 0%nat), [TBody]) else None
  | (s_part_data_end, _) => if c =? LF then Some ((s_header_field_start, 0%nat), [TBegin]) else None
  | (s_end, _) => Some ((s_end, 0%nat), [])
  | (s_uninitialized, _) => None
  end.
Fixpoint byte_run (b : list Z) (q : pos) (l : list Z) : option (pos * list tok) :=
  match l with
  | [] => Some (q, [])
  | c :: l => '(q, t) ← byte_step b q c; '(q, t') ← byte_run b q l; Some (q, t ++ t')
  end.

(** * The parser follows it *)

Record follows (b : list Z) (p : multipart_parser) (q : pos) : Prop := {
  F_bound : multipart_boundary p = b ++ [0];
  F_len : boundary_length p = zlen b;
  F_room : zlen (lookbehind p) = zlen b + 9;
  F_st : st p = q.1;
  F_index : q.1 = s_start_boundary -> index p = Z.of_nat q.2;
  F_cr : q.1 = s_part_data_almost_boundary -> exists r, lookbehind p = CR :: r;
  F_back : q.1 = s_part_data_boundary -> index p = Z.of_nat q.2 /\ (q.2 < length b)%nat /\ exists r, lookbehind p = (CR :: LF :: take q.2 b) ++ r }.

(** What has been seen of a piece since [mark] and is not yet handed over. *)
Definition unsent (q : pos) (d : list Z) : list tok :=
  match q.1 with s_header_field => map TF d | s_header_value => map TV d | s_part_data => map TD d | _ => [] end.
Definition since (mark : Z) (pre : list Z) : list Z := drop (Z.to_nat mark) pre.

Lemma slice_since pre rest mark : 0 <= mark <= zlen pre -> zslice (pre ++ rest) mark (zlen pre - mark) = Some (since mark pre).
Proof.
  intros H. unfold zslice. zlen_simpl. pose proof (zlen_nonneg rest). zcases. unfold since. f_equal. unfold zlen in *.
  rewrite drop_app_le, take_app_le by (rewrite ?length_drop; lia). apply take_ge. rewrite length_drop. lia.
Qed.
Lemma slice_through pre c rest mark : 0 <= mark <= zlen pre -> zslice (pre ++ c :: rest) mark (zlen pre - mark + 1) = Some (since mark pre ++ [c]).
Proof.
  intros H. rewrite cons_middle, app_assoc. replace (zlen pre - mark + 1) with (zlen (pre ++ [c]) - mark) by (zlen_simpl; lia).
  rewrite slice_since by (zlen_simpl; lia). unfold since. rewrite drop_app_le by (unfold zlen in *; lia). done.
Qed.
Lemma since_all mark pre : mark = zlen pre -> since mark pre = [].
Proof. intros ->. unfold since, zlen. by rewrite Nat2Z.id, drop_all. Qed.
Lemma since_snoc mark pre c : 0 <= mark <= zlen pre -> since mark (pre ++ [c]) = since mark pre ++ [c].
Proof. intros H. unfold since. by rewrite drop_app_le by (unfold zlen in *; lia). Qed.

Section Round.
Context (b pre : list Z) (c : Z) (post : list Z) (Hb : b <> []).
Abbreviation buf := (pre ++ c :: post).
Abbreviation last := (zlen pre =? zlen buf - 1).

Lemma last_eq : last = match post with [] => true | _ => false end.
Proof. zlen_simpl. pose proof (zlen_nonneg pre). destruct post as [|x l]; zlen_simpl; [|pose proof (zlen_nonneg l)]; [apply Z.eqb_eq|apply Z.eqb_neq]; lia. Qed.

(** A byte that is kept, handed over at the end of the piece. *)
Definition done_with (q : pos) (d : list Z) : list tok := match post with [] => [] | _ => unsent q d end.

(** A round to the next byte that delivers [t]. *)
Definition goes (s : list event) (r : option (round (S := list event))) (q' : pos) (t : list tok) : Prop :=
  exists p' s' mark', r = Some (Next p' s' mark') /\ follows b p' q' /\ 0 <= mark' <= zlen pre + 1 /\
    flats s' ++ done_with q' (since mark' (pre ++ [c])) = flats s ++ t.

Lemma goes_plain s p' q' : follows b p' q' -> (forall d, unsent q' d = []) -> forall mark t, 0 <= mark <= zlen pre + 1 -> t = [] ->
  goes s (Some (Next p' s mark)) q' t.
Proof. intros Hf Hh mark t Hm ->. exists p', s, mark. split_and!; [done|done|lia|lia|]. unfold done_with. destruct post; rewrite ?Hh; by rewrite !app_nil_r. Qed.

Lemma data_goes p s mark : follows b p (s_part_data, 0%nat) -> 0 <= mark <= zlen pre ->
  goes s (round_part_data record p s buf (zlen pre) mark c last) (data_step c).1 (map TD (since mark pre) ++ (data_step c).2).
Proof.
  intros Hf Hm. unfold round_part_data, data_step. destruct (Z.eqb_spec c CR) as [->|Hc].
  - rewrite slice_since by done. cbn [mbind option_bind]. unfold call_back, record. cbn.
    pose proof (F_room _ _ _ Hf) as Hroom. destruct (lookbehind p) as [|x r] eqn:El; [zlen_simpl; pose proof (zlen_nonneg b); lia|].
    change (zset (x :: r) 0 CR) with (Some (CR :: r)). cbn.
    eexists _, _, _. split; [done|]. destruct Hf. split; [split; try done; cbn; first [by exists r|zlen_simpl; lia]|].
    split; [lia|]. unfold done_with. destruct post; rewrite flats_snoc, !app_nil_r; done.
  - rewrite last_eq. destruct post as [|y l] eqn:Ep.
    + rewrite slice_through by done. cbn [mbind option_bind]. unfold call_back, record. cbn. eexists _, _, _. split; [done|]. split; [done|]. split; [lia|].
      unfold done_with. rewrite Ep, flats_snoc, app_nil_r. cbn. by rewrite map_app.
    + eexists _, _, _. split; [done|]. split; [done|]. split; [lia|]. unfold done_with. rewrite Ep. cbn. by rewrite since_snoc, map_app by done.
Qed.

Lemma goes_from s s1 r q' t t1 : flats s1 = flats s ++ t1 -> goes s1 r q' t -> goes s r q' (t1 ++ t).
Proof. intros E (p' & s' & m' & -> & Hf & Hm & Ht). exists p', s', m'. split_and!; [done|done|lia|lia|]. by rewrite Ht, E, app_assoc. Qed.

(** Bytes of a header field and of a value. *)
Lemma field_goes p s mark q' t : follows b p (s_header_field, 0%nat) -> 0 <= mark <= zlen pre -> c <> CR ->
  (if c =? 58 then Some ((s_header_value_start, 0%nat), []) else if field_char c then Some ((s_header_field, 0%nat), [TF c]) else None) = Some (q', t) ->
  goes s (round_header_field record p s buf (zlen pre) mark c last) q' (map TF (since mark pre) ++ t).
Proof.
  intros Hf Hm Hcr Hq. unfold round_header_field. destruct (Z.eqb_spec c CR); [done|]. destruct (Z.eqb_spec c 58) as [->|Hc].
  - simplify_eq. rewrite slice_since by done. cbn [mbind option_bind]. unfold call_back, record. cbn. eexists _, _, _. split; [done|].
    destruct Hf. split; [by split|]. split; [lia|]. unfold done_with. destruct post; by rewrite flats_snoc, !app_nil_r.
  - destruct (field_char c) eqn:Efc; [|done]. simplify_eq.
    assert (negb (c =? 45) && ((tolower c <? 97) || (122 <? tolower c)) = false) as ->.
    { unfold field_char in Efc. destruct (c =? 45); [done|]. simpl in *. apply andb_true_iff in Efc as [?%Z.leb_le ?%Z.leb_le].
      apply orb_false_iff. rewrite !Z.ltb_ge. lia. }
    rewrite last_eq. destruct post as [|y l] eqn:Ep.
    + rewrite slice_through by done. cbn [mbind option_bind]. unfold call_back, record. cbn. eexists _, _, _. split; [done|]. split; [done|]. split; [lia|].
      unfold done_with. rewrite Ep, flats_snoc, app_nil_r. cbn. by rewrite map_app.
    + eexists _, _, _. split; [done|]. split; [done|]. split; [lia|]. unfold done_with. rewrite Ep. cbn. by rewrite since_snoc, map_app by done.
Qed.
Lemma value_goes p s mark q' t : follows b p (s_header_value, 0%nat) -> 0 <= mark <= zlen pre ->
  (if c =? CR then Some ((s_header_value_almost_done, 0%nat), []) else Some ((s_header_value, 0%nat), [TV c])) = Some (q', t) ->
  goes s (round_header_value record p s buf (zlen pre) mark c last) q' (map TV (since mark pre) ++ t).
Proof.
  intros Hf Hm Hq. unfold round_header_value. destruct (Z.eqb_spec c CR) as [->|Hc]; simplify_eq.
  - rewrite slice_since by done. cbn [mbind option_bind]. unfold call_back, record. cbn. eexists _, _, _. split; [done|].
    destruct Hf. split; [by split|]. split; [lia|]. unfold done_with. destruct post; by rewrite flats_snoc, !app_nil_r.
  - rewrite last_eq. destruct post as [|y l] eqn:Ep.
    + rewrite slice_through by done. cbn [mbind option_bind]. unfold call_back, record. cbn. eexists _, _, _. split; [done|]. split; [done|]. split; [lia|].
      unfold done_with. rewrite Ep, flats_snoc, app_nil_r. cbn. by rewrite map_app.
    + eexists _, _, _. split; [done|]. split; [done|]. split; [lia|]. unfold done_with. rewrite Ep. cbn. by rewrite since_snoc, map_app by done.
Qed.

(** The boundary at the start. *)
Lemma start_goes p s mark k q' t : follows b p (s_start_boundary, k) -> 0 <= mark <= zlen pre + 1 -> byte_step b (s_start_boundary, k) c = Some (q', t) ->
  goes s (round_start_boundary record p s (zlen pre) mark c) q' t.
Proof.
  intros Hf Hm Hq. unfold round_start_boundary. cbn in Hq. pose proof (F_index _ _ _ Hf eq_refl) as Ei. cbn in Ei. rewrite Ei, (F_len _ _ _ Hf).
  assert ((Z.of_nat k =? zlen b) = (k =? length b)%nat) as -> by (unfold zlen; destruct (Nat.eqb_spec k (length b)), (Z.eqb_spec (Z.of_nat k) (Z.of_nat (length b))); (done || lia)).
  assert ((Z.of_nat k =? zlen b + 1) = (k =? S (length b))%nat) as ->
    by (unfold zlen; destruct (Nat.eqb_spec k (S (length b))), (Z.eqb_spec (Z.of_nat k) (Z.of_nat (length b) + 1)); (done || lia)).
  assert (follows b (p.[index := Z.of_nat k + 1]) (s_start_boundary, S k)) as Hf' by (destruct Hf; split; try done; cbn; intros; lia).
  destruct (k =? length b)%nat.
  { destruct (c =? CR); [|done]. simplify_eq/=. by apply goes_plain. }
  destruct (k =? S (length b))%nat.
  { destruct (c =? LF); [|done]. simplify_eq/=. unfold call_back, record. cbn. eexists _, _, _. split; [done|]. destruct Hf. split; [by split|]. split; [lia|].
    unfold done_with. destruct post; by rewrite flats_snoc, app_nil_r. }
  destruct (b !! k) as [x|] eqn:Ex; [|done]. rewrite (F_bound _ _ _ Hf), (zget_nat _ _ k) by done. rewrite (lookup_app_l_Some _ _ _ _ Ex). cbn in Hq |- *.
  destruct (c =? x); [|done]. simplify_eq/=. by apply goes_plain.
Qed.

Lemma round_ok p q s mark q' t : follows b p q -> 0 <= mark <= zlen pre -> byte_step b q c = Some (q', t) ->
  goes s (round_of record p s buf (zlen pre) mark c last) q' (unsent q (since mark pre) ++ t) \/
  exists p1 s1, round_of record p s buf (zlen pre) mark c last = Some (Again p1 s1 (zlen pre)) /\
    goes s (round_of record p1 s1 buf (zlen pre) (zlen pre) c last) q' t /\ unsent q (since mark pre) = [].
Proof.
  intros Hf Hm Hq. destruct q as [x k]. unfold round_of. rewrite (F_st _ _ _ Hf). cbn [fst]. pose proof (since_all (zlen pre) pre eq_refl) as Hsa.
  assert (forall st' p', st' <> s_start_boundary -> st' <> s_part_data_almost_boundary -> st' <> s_part_data_boundary ->
    p' = p.[st := st'] -> follows b p' (st', 0%nat)) as Hto by (intros st' p' ? ? ? ->; destruct Hf; by split).
  destruct x; cbn [byte_step] in Hq; cbn [unsent fst app]; try done.
  - (* s_start *) left. apply (start_goes _ s mark 0%nat); [destruct Hf; by split|lia|exact Hq].
  - left. by apply (start_goes _ s mark k); [|lia|].
  - (* s_header_field_start *) left. destruct (Z.eqb_spec c CR) as [Ec|Hc].
    + simplify_eq. unfold round_header_field. rewrite (proj2 (Z.eqb_eq c CR) Ec). apply goes_plain; [by apply Hto|done|lia|done].
    + pose proof (field_goes (p.[st := s_header_field]) s (zlen pre) q' t) as H. rewrite Hsa in H. apply H; [by apply Hto|lia|done|done].
  - left. destruct (Z.eqb_spec c CR); [done|]. apply field_goes; [|done..]. destruct Hf; by split.
  - left. destruct (c =? LF); [|done]. simplify_eq. apply goes_plain; [by apply Hto|done|lia|done].
  - (* s_header_value_start *) left. destruct (c =? 32). { simplify_eq. apply goes_plain; [destruct Hf; by split|done|lia|done]. }
    pose proof (value_goes (p.[st := s_header_value]) s (zlen pre) q' t) as H. rewrite Hsa in H. apply H; [by apply Hto|lia|done].
  - left. apply value_goes; [|done..]. destruct Hf; by split.
  - left. destruct (c =? LF); [|done]. simplify_eq. apply goes_plain; [by apply Hto|done|lia|done].
  - (* s_part_data_start *) left. unfold call_back, record. cbn. unfold after in Hq. simplify_eq.
    apply (goes_from s (s ++ [headers_complete])); [by rewrite flats_snoc|].
    pose proof (data_goes (p.[st := s_part_data]) (s ++ [headers_complete]) (zlen pre)) as H. rewrite Hsa in H. apply H; [by apply Hto|lia].
  - left. unfold after in Hq. simplify_eq. apply data_goes; [|done]. destruct Hf; by split.
  - (* s_part_data_almost_boundary *) destruct (F_cr _ _ _ Hf eq_refl) as [r Hr]. pose proof (F_room _ _ _ Hf) as Hroom. destruct (c =? LF).
    + simplify_eq. left. rewrite Hr in *. destruct r as [|y r]; [zlen_simpl; pose proof (zlen_nonneg b); lia|].
      pose proof (zset_middle [CR] y r 1 LF eq_refl) as Ez. cbn [app] in Ez. rewrite Ez. cbn [mbind option_bind].
      apply goes_plain; [|done|lia|done]. destruct Hf. split; try done; cbn; try (zlen_simpl; lia). intros _. split; [done|]. split; [destruct b; [done|simpl; lia]|by exists r].
    + right. rewrite Hr. pose proof (zslice_app [] [CR] r 0 1 eq_refl eq_refl) as Es. cbn [app] in Es. rewrite Es. cbn [mbind option_bind]. unfold call_back, record. cbn.
      eexists _, _. split; [done|]. split; [|done]. unfold after in Hq. simplify_eq. apply (goes_from s (s ++ [part_data [CR]])); [by rewrite flats_snoc|].
      pose proof (data_goes (p.[st := s_part_data]) (s ++ [part_data [CR]]) (zlen pre)) as H. rewrite Hsa in H. apply H; [by apply Hto|lia].
  - (* s_part_data_boundary *) destruct (F_back _ _ _ Hf eq_refl) as (Ei & Hk & r & Hr). cbn in Ei, Hk, Hr. pose proof (F_room _ _ _ Hf) as Hroom.
    destruct (b !! k) as [y|] eqn:Ey; [|done]. cbn [mbind option_bind] in Hq.
    rewrite (F_bound _ _ _ Hf), Ei, (zget_nat _ _ k) by done. rewrite (lookup_app_l_Some _ _ _ _ Ey). cbn [mbind option_bind].
    assert (zlen (CR :: LF :: take k b) = 2 + Z.of_nat k) as Elen by (zlen_simpl; unfold zlen; rewrite length_take; lia).
    destruct (y =? c) eqn:Eyc; cbn [negb].
    + left. apply Z.eqb_eq in Eyc as ->. rewrite Hr in *. change (CR :: LF :: take k b ++ r) with ((CR :: LF :: take k b) ++ r) in *.
      destruct r as [|z r]; [rewrite app_nil_r in Hroom; unfold zlen in *; lia|].
      rewrite zset_middle by lia. cbn [mbind option_bind]. cbv zeta. cbn [over index lookbehind boundary_length]. rewrite (F_len _ _ _ Hf).
      assert ((Z.of_nat k + 1 =? zlen b) = (S k =? length b)%nat) as -> by (unfold zlen; destruct (Nat.eqb_spec (S k) (length b)), (Z.eqb_spec (Z.of_nat k + 1) (Z.of_nat (length b))); (done || lia)).
      destruct (Nat.eqb_spec (S k) (length b)); simplify_eq.
      * unfold call_back, record. cbn. eexists _, _, _. split; [done|]. destruct Hf. split; [split; try done; cbn; try (zlen_simpl; lia)|]. split; [lia|].
        unfold done_with. destruct post; by rewrite flats_snoc, app_nil_r.
      * apply goes_plain; [|done|lia|done]. destruct Hf. split; try done; cbn; try (zlen_simpl; lia). intros _. split; [lia|]. split; [lia|]. exists r.
        rewrite (take_S_r b k c) by done. cbn. by rewrite <- app_assoc.
    + right. rewrite Hr. pose proof (zslice_app [] (CR :: LF :: take k b) r 0 (2 + Z.of_nat k) eq_refl ltac:(lia)) as Es. cbn [app] in Es |- *. rewrite Es. cbn [mbind option_bind].
      unfold call_back, record. cbn. eexists _, _. split; [done|]. split; [|done]. unfold after in Hq. simplify_eq.
      set (s1 := s ++ [part_data (CR :: LF :: take k b)]). apply (goes_from s s1); [unfold s1; by rewrite flats_snoc|].
      pose proof (data_goes (p.[st := s_part_data]) s1 (zlen pre)) as H. rewrite Hsa in H. apply H; [by apply Hto|lia].
  - left. destruct (c =? 45); [|destruct (c =? CR); [|done]]; simplify_eq; (apply goes_plain; [by apply Hto|done|lia|done]).
  - left. destruct (c =? LF); [|done]. simplify_eq. unfold call_back, record. cbn. eexists _, _, _. split; [done|]. split; [by apply Hto|]. split; [lia|].
    unfold done_with. destruct post; by rewrite flats_snoc, app_nil_r.
  - left. destruct (c =? 45); [|done]. simplify_eq. unfold call_back, record. cbn. eexists _, _, _. split; [done|]. split; [by apply Hto|]. split; [lia|].
    unfold done_with. destruct post; by rewrite flats_snoc, app_nil_r.
  - left. simplify_eq. apply goes_plain; [destruct Hf; by split|done|lia|done].
Qed.
End Round.

Section Feed.
Context (b : list Z) (Hb : b <> []).

Lemma loop_ok post : forall pre p q s mark fuel q' t, follows b p q -> 0 <= mark <= zlen pre -> byte_run b q post = Some (q', t) ->
  (2 * length post <= fuel)%nat ->
  exists p' s', parse_loop record fuel p s (pre ++ post) (zlen pre) mark = Some (p', s', zlen (pre ++ post)) /\ follows b p' q' /\
    flats s' = flats s ++ match post with [] => [] | _ => unsent q (since mark pre) end ++ t.
Proof using Hb.
  induction post as [|c post IH]; intros pre p q s mark fuel q' t Hf Hm Hr Hfuel.
  - simplify_eq/=. rewrite app_nil_r. exists p, s. destruct fuel; simpl; rewrite Z.ltb_irrefl; (split; [done|]; split; [done|by rewrite app_nil_r]).
  - cbn [byte_run] in Hr. destruct (byte_step b q c) as [[q1 t1]|] eqn:Es; [|done]. cbn [mbind option_bind] in Hr.
    destruct (byte_run b q1 post) as [[q2 t2]|] eqn:Er; [|done]. simplify_eq/=.
    assert (forall f p s mark, zget (pre ++ c :: post) (zlen pre) = Some c -> parse_loop record (S f) p s (pre ++ c :: post) (zlen pre) mark =
      (r ← round_of record p s (pre ++ c :: post) (zlen pre) mark c (zlen pre =? zlen (pre ++ c :: post) - 1);
       match r with
       | Next p s mark => parse_loop record f p s (pre ++ c :: post) (zlen pre + 1) mark
       | Again p s mark => parse_loop record f p s (pre ++ c :: post) (zlen pre) mark
       | Return p s i => Some (p, s, i)
       end)) as Hex.
    { intros f p0 s0 m0 Hg. cbn [parse_loop]. zlen_simpl. pose proof (zlen_nonneg post). destruct (Z.ltb_spec (zlen pre) (zlen pre + (1 + zlen post))); [|lia].
      by rewrite Hg. }
    pose proof (zget_middle pre c post (zlen pre) eq_refl) as Hg.
    assert (forall f r t0, (2 * length post <= f)%nat -> goes b pre c post s r q1 t0 -> exists p' s',
      (r ← r; match r with
       | Next p s mark => parse_loop record f p s (pre ++ c :: post) (zlen pre + 1) mark
       | Again p s mark => parse_loop record f p s (pre ++ c :: post) (zlen pre) mark
       | Return p s i => Some (p, s, i)
       end) = Some (p', s', zlen (pre ++ c :: post)) /\ follows b p' q' /\ flats s' = flats s ++ t0 ++ t2) as Hgo.
    { intros f r t0 Hf' (p' & s' & m' & -> & Hfo & Hm' & Hfl). cbn [mbind option_bind].
      destruct (IH (pre ++ [c]) p' q1 s' m' f q' t2 Hfo) as (p2 & s2 & E & Hfo2 & Hfl2); [zlen_simpl; lia|done|done|].
      rewrite <- app_assoc in E. cbn [app] in E. zlen_simpl. replace (zlen pre + (1 + 0)) with (zlen pre + 1) in E by lia. exists p2, s2.
      split; [rewrite E; do 2 f_equal; lia|]. split; [done|]. rewrite Hfl2, app_assoc. unfold done_with in Hfl. by rewrite Hfl, <- app_assoc. }
    destruct fuel as [|[|f]]; [simpl in Hfuel; lia..|]. rewrite Hex by done.
    destruct (round_ok b pre c post Hb p q s mark q1 t1 Hf Hm Es) as [Hgoes|(p1 & s1 & E1 & Hgoes & Eh)].
    + destruct (Hgo (S f) _ _ ltac:(simpl in Hfuel; lia) Hgoes) as (p' & s' & E & ? & Hfl). exists p', s'. split; [done|]. split; [done|]. by rewrite Hfl, <- app_assoc.
    + rewrite E1. cbn [mbind option_bind]. rewrite Hex by done.
      destruct (Hgo f _ _ ltac:(simpl in Hfuel; lia) Hgoes) as (p' & s' & E & ? & Hfl). exists p', s'. split; [done|]. split; [done|]. by rewrite Hfl, Eh.
Qed.

Lemma byte_run_app q l k : byte_run b q (l ++ k) = '(q1, t1) ← byte_run b q l; '(q2, t2) ← byte_run b q1 k; Some (q2, t1 ++ t2).
Proof.
  revert q. induction l as [|c l IH]; intros q; cbn [byte_run app mbind option_bind].
  - destruct (byte_run b q k) as [[? ?]|]; done.
  - destruct (byte_step b q c) as [[q1 t1]|]; [|done]. cbn [mbind option_bind]. rewrite IH.
    destruct (byte_run b q1 l) as [[q2 t2]|]; [|done]. cbn [mbind option_bind]. destruct (byte_run b q2 k) as [[q3 t3]|]; [|done]. cbn. by rewrite app_assoc.
Qed.

Lemma chunks_ok chunks : forall p q s q' t, follows b p q -> byte_run b q (concat chunks) = Some (q', t) ->
  exists p' s', feed record p s chunks = Some (p', s', true) /\ follows b p' q' /\ flats s' = flats s ++ t.
Proof using Hb.
  induction chunks as [|l chunks IH]; intros p q s q' t Hf Hr; cbn [feed concat] in *.
  - simplify_eq/=. exists p, s. by rewrite app_nil_r.
  - rewrite byte_run_app in Hr. destruct (byte_run b q l) as [[q1 t1]|] eqn:E1; [|done]. cbn [mbind option_bind] in Hr.
    destruct (byte_run b q1 (concat chunks)) as [[q2 t2]|] eqn:E2; [|done]. simplify_eq/=.
    destruct (loop_ok l [] p q s 0 (2 * length l) q1 t1 Hf) as (p1 & s1 & E & Hf1 & Hs1); [change (zlen (@nil Z)) with 0; lia|done|lia|].
    unfold multipart_parser_execute. change (zlen (@nil Z)) with 0 in E. cbn [app] in E. rewrite E. cbn [mbind option_bind]. rewrite Z.eqb_refl.
    destruct (IH p1 q1 s1 q' t2 Hf1 E2) as (p' & s' & -> & Hf' & Hs'). exists p', s'. split; [done|]. split; [done|].
    rewrite Hs', Hs1. assert (match l with [] => [] | _ => unsent q (since 0 []) end = []) as -> by (destruct l; [done|]; unfold unsent, since; by destruct q.1).
    cbn. by rewrite app_assoc.
Qed.
End Feed.

(** * Bodies *)

Record part := mk_part { headers : list (list Z * list Z); data : list Z }.
Definition crlf : list Z := [CR; LF].
Definition r_header (h : list Z * list Z) : list Z := h.1 ++ [58; 32] ++ h.2 ++ crlf.
Definition r_part (b : list Z) (x : part) : list Z := concat (map r_header (headers x)) ++ crlf ++ data x ++ crlf ++ b.
Definition r_body (b : list Z) (x : part) (xs : list part) (epilogue : list Z) : list Z :=
  b ++ crlf ++ r_part b x ++ concat (map (fun x => crlf ++ r_part b x) xs) ++ [45; 45] ++ epilogue.

Definition t_header (h : list Z * list Z) : list tok := map TF h.1 ++ map TV h.2.
Definition t_part (x : part) : list tok := [TBegin] ++ concat (map t_header (headers x)) ++ [THeaders] ++ map TD (data x) ++ [TEnd].
Definition t_body (x : part) (xs : list part) : list tok := concat (map t_part (x :: xs)) ++ [TBody].

(** A boundary without a carriage return, field names of letters and hyphens, values that
    do not begin with a space, and data in which the delimiter does not occur. *)
Definition boundary_ok (b : list Z) : Prop := b <> [] /\ CR ∉ b.
Definition header_ok (h : list Z * list Z) : Prop :=
  h.1 <> [] /\ Forall (fun c => field_char c = true) h.1 /\ h.2 <> [] /\ CR ∉ h.2 /\ head h.2 <> Some 32.
Definition free_of (b d : list Z) : Prop := forall x y, d <> x ++ CR :: LF :: b ++ y.
Definition part_ok (b : list Z) (x : part) : Prop := Forall header_ok (headers x) /\ free_of b (data x).

Section Body.
Context (b : list Z) (Hb : boundary_ok b).
Definition ahead_of (t : list tok) (r : option (pos * list tok)) : option (pos * list tok) := '(q, u) ← r; Some (q, t ++ u).

Lemma run_cons q c l q1 t1 : byte_step b q c = Some (q1, t1) -> byte_run b q (c :: l) = ahead_of t1 (byte_run b q1 l).
Proof. intros E. cbn [byte_run]. by rewrite E. Qed.
Lemma ahead_nil r : ahead_of [] r = r.
Proof. by destruct r as [[? ?]|]. Qed.
Lemma ahead_ahead t u r : ahead_of t (ahead_of u r) = ahead_of (t ++ u) r.
Proof. destruct r as [[? ?]|]; [|done]. cbn. by rewrite app_assoc. Qed.
Lemma run_then q l k q1 t1 : byte_run b q l = Some (q1, t1) -> byte_run b q (l ++ k) = ahead_of t1 (byte_run b q1 k).
Proof. intros E. rewrite byte_run_app, E. done. Qed.

Lemma start_run k l : byte_run b (s_start_boundary, length k) (l ++ crlf) = Some ((s_header_field_start, 0%nat), [TBegin]) \/ b <> k ++ l.
Proof.
  revert k. induction l as [|c l IH]; intros k.
  - destruct (decide (b = k ++ [])) as [E|]; [left|by right]. rewrite app_nil_r in E. rewrite <- E. unfold crlf. cbn [app].
    rewrite (run_cons _ _ _ (s_start_boundary, S (length b)) []) by (cbn; by rewrite Nat.eqb_refl). rewrite ahead_nil.
    rewrite (run_cons _ _ _ (s_header_field_start, 0%nat) [TBegin]); [done|]. cbn [byte_step]. destruct (Nat.eqb_spec (S (length b)) (length b)); [lia|]. by rewrite Nat.eqb_refl.
  - destruct (decide (b = k ++ c :: l)) as [E|]; [left|by right]. cbn [app].
    rewrite (run_cons _ _ _ (s_start_boundary, S (length k)) []).
    + rewrite ahead_nil. destruct (IH (k ++ [c])) as [E'|Hne]; [by rewrite length_app, Nat.add_1_r in E'|]. rewrite <- app_assoc in Hne. done.
    + assert (length b = length k + S (length l))%nat as El by (rewrite E, length_app; done). cbn [byte_step].
      destruct (Nat.eqb_spec (length k) (length b)); [lia|]. destruct (Nat.eqb_spec (length k) (S (length b))); [lia|].
      rewrite E, list_lookup_middle by done. cbn. by rewrite Z.eqb_refl.
Qed.
Lemma body_start : byte_run b (s_start, 0%nat) (b ++ crlf) = Some ((s_header_field_start, 0%nat), [TBegin]).
Proof using Hb. destruct (start_run [] b) as [E|]; [|done]. destruct Hb as [Hne _]. destruct b as [|c l]; [done|]. exact E. Qed.

Lemma field_run f : Forall (fun c => field_char c = true) f -> byte_run b (s_header_field, 0%nat) (f ++ [58; 32]) = Some ((s_header_value_start, 0%nat), map TF f).
Proof.
  induction 1 as [|c f Hc _ IH]; [done|]. cbn [app map]. rewrite (run_cons _ _ _ (s_header_field, 0%nat) [TF c]); [by rewrite IH|]. cbn.
  destruct (Z.eqb_spec c CR) as [->|]; [done|]. destruct (Z.eqb_spec c 58) as [->|]; [done|]. by rewrite Hc.
Qed.
Lemma value_run v : CR ∉ v -> byte_run b (s_header_value, 0%nat) (v ++ crlf) = Some ((s_header_field_start, 0%nat), map TV v).
Proof.
  induction v as [|c v IH]; intros Hv; [done|]. apply not_elem_of_cons in Hv as [Hc Hv]. cbn [app map].
  rewrite (run_cons _ _ _ (s_header_value, 0%nat) [TV c]); [by rewrite IH|]. cbn. destruct (Z.eqb_spec c CR); [congruence|done].
Qed.
Lemma header_run h : header_ok h -> byte_run b (s_header_field_start, 0%nat) (r_header h) = Some ((s_header_field_start, 0%nat), t_header h).
Proof.
  intros (Hf0 & Hf & Hv0 & Hcr & Hsp). destruct h as [f v]. cbn [fst snd] in *. unfold r_header, t_header. cbn [fst snd].
  destruct f as [|c f]; [done|]. apply Forall_cons in Hf as [Hc Hf]. destruct v as [|x v]; [done|]. apply not_elem_of_cons in Hcr as [Hx Hcr].
  rewrite app_assoc, <- app_comm_cons. rewrite <- app_comm_cons. rewrite (run_cons _ _ _ (s_header_field, 0%nat) [TF c]).
  2: { cbn. destruct (Z.eqb_spec c CR) as [->|]; [done|]. destruct (Z.eqb_spec c 58) as [->|]; [done|]. by rewrite Hc. }
  rewrite (run_then _ _ _ _ _ (field_run f Hf)). rewrite <- app_comm_cons. rewrite (run_cons _ _ _ (s_header_value, 0%nat) [TV x]).
  2: { cbn. destruct (Z.eqb_spec x 32) as [->|]; [done|]. destruct (Z.eqb_spec x CR); [congruence|done]. }
  rewrite (value_run v Hcr). done.
Qed.
Lemma headers_run hs : Forall header_ok hs ->
  byte_run b (s_header_field_start, 0%nat) (concat (map r_header hs) ++ crlf) = Some ((s_part_data_start, 0%nat), concat (map t_header hs)).
Proof.
  induction 1 as [|h hs Hh _ IH]; [done|]. cbn [map concat]. rewrite <- app_assoc, (run_then _ _ _ _ _ (header_run h Hh)), IH. done.
Qed.

(** Data: bytes that may begin the delimiter are kept back until it is decided. *)
Definition in_data (q : pos) : Prop :=
  q = (s_part_data, 0%nat) \/ q = (s_part_data_almost_boundary, 0%nat) \/ exists k, q = (s_part_data_boundary, k) /\ (k < length b)%nat.
Definition pend (q : pos) : list Z :=
  match q with (s_part_data_almost_boundary, _) => [CR] | (s_part_data_boundary, k) => CR :: LF :: take k b | _ => [] end.

Lemma data_next c : exists q1 u, data_step c = (q1, map TD u) /\ in_data q1 /\ [c] = u ++ pend q1.
Proof. unfold data_step. destruct (Z.eqb_spec c CR) as [->|]; eexists _, (_ : list Z); (split; [|split]); [by instantiate (1 := [])|right; by left|done|by instantiate (1 := [c])|by left|done]. Qed.
Lemma in_data_step q c : in_data q -> (forall y, pend q ++ [c] <> CR :: LF :: b ++ y) ->
  exists q1 u, byte_step b q c = Some (q1, map TD u) /\ in_data q1 /\ pend q ++ [c] = u ++ pend q1.
Proof using Hb.
  intros Hq Hfree. destruct (data_next c) as (q1 & u & E1 & H1 & Ht). unfold byte_step, after. rewrite E1. cbn [fst snd].
  destruct Hq as [->|[->|(k & -> & Hk)]]; cbn [pend] in *.
  - by exists q1, u.
  - destruct (Z.eqb_spec c LF) as [->|].
    + exists (s_part_data_boundary, 0%nat), []. split; [done|]. split; [|done]. right; right. exists 0%nat. split; [done|]. destruct Hb as [? _]. destruct b; [done|simpl; lia].
    + exists q1, (CR :: u). split; [done|]. split; [done|]. cbn [app]. by rewrite <- Ht.
  - destruct (b !! k) as [x|] eqn:Ex; [|apply lookup_ge_None in Ex; lia]. cbn [mbind option_bind]. destruct (Z.eqb_spec x c) as [->|].
    + destruct (Nat.eqb_spec (S k) (length b)) as [El|].
      * destruct (Hfree []). cbn [app]. rewrite <- (take_S_r b k c) by done. by rewrite El, firstn_all, app_nil_r.
      * exists (s_part_data_boundary, S k), []. split; [done|]. split; [right; right; exists (S k); split; [done|lia]|].
        cbn [pend app]. by rewrite (take_S_r b k c) by done.
    + exists q1, ((CR :: LF :: take k b) ++ u). split; [by rewrite map_app|]. split; [done|]. by rewrite Ht, <- app_assoc.
Qed.
Lemma boundary_run k l : b = k ++ l -> l <> [] -> byte_run b (s_part_data_boundary, length k) l = Some ((s_part_data_almost_end, 0%nat), [TEnd]).
Proof.
  revert k. induction l as [|c l IH]; intros k E Hl; [done|].
  assert (length b = length k + S (length l))%nat as El by (rewrite E, length_app; done).
  assert (b !! length k = Some c) as Ec by (rewrite E; by apply list_lookup_middle). destruct l as [|c' l].
  - rewrite (run_cons _ _ _ (s_part_data_almost_end, 0%nat) [TEnd]); [done|]. cbn [byte_step]. rewrite Ec. cbn [mbind option_bind]. rewrite Z.eqb_refl.
    destruct (Nat.eqb_spec (S (length k)) (length b)); [done|simpl in *; lia].
  - rewrite (run_cons _ _ _ (s_part_data_boundary, S (length k)) []).
    + rewrite ahead_nil. specialize (IH (k ++ [c])). rewrite length_app, Nat.add_1_r in IH. apply IH; [|done]. by rewrite <- app_assoc.
    + cbn [byte_step]. rewrite Ec. cbn [mbind option_bind]. rewrite Z.eqb_refl. destruct (Nat.eqb_spec (S (length k)) (length b)); [simpl in *; lia|done].
Qed.
Lemma free_of_suffix u d : free_of b (u ++ d) -> free_of b d.
Proof. intros H x y E. apply (H (u ++ x) y). by rewrite E, <- app_assoc. Qed.

Lemma delimiter_run q : in_data q -> byte_run b q (crlf ++ b) = Some ((s_part_data_almost_end, 0%nat), map TD (pend q) ++ [TEnd]).
Proof using Hb.
  intros Hq. destruct Hb as [Hne Hcr]. unfold crlf. cbn [app].
  rewrite (run_cons _ _ _ (s_part_data_almost_boundary, 0%nat) (map TD (pend q))).
  - rewrite (run_cons _ _ _ (s_part_data_boundary, 0%nat) []) by done. rewrite ahead_nil. pose proof (boundary_run [] b eq_refl Hne) as E. cbn [length] in E. by rewrite E.
  - destruct Hq as [->|[->|(k & -> & Hk)]]; [done..|]. cbn [byte_step]. destruct (b !! k) as [x|] eqn:Ex; [|apply lookup_ge_None in Ex; lia]. cbn [mbind option_bind].
    destruct (Z.eqb_spec x CR) as [->|]; [|unfold after; f_equal; f_equal; apply app_nil_r]. apply list_elem_of_lookup_2 in Ex. done.
Qed.
Lemma data_run d : forall q, in_data q -> free_of b (pend q ++ d) ->
  byte_run b q (d ++ crlf ++ b) = Some ((s_part_data_almost_end, 0%nat), map TD (pend q ++ d) ++ [TEnd]).
Proof using Hb.
  induction d as [|c d IH]; intros q Hq Hfree.
  - rewrite app_nil_r. by apply delimiter_run.
  - destruct (in_data_step q c Hq) as (q1 & u & E & Hq1 & Eu).
    { intros y Ey. apply (Hfree [] (y ++ d)). rewrite cons_middle, app_assoc, Ey. cbn [app]. by rewrite <- app_assoc. }
    assert (pend q ++ c :: d = u ++ pend q1 ++ d) as Ed by (by rewrite cons_middle, app_assoc, Eu, <- app_assoc).
    rewrite Ed in Hfree |- *. rewrite (map_app _ u), <- !app_assoc. cbn [app].
    rewrite (run_cons _ _ _ _ _ E), IH; [done|done|]. by apply (free_of_suffix u).
Qed.
Lemma part_run x : part_ok b x ->
  byte_run b (s_header_field_start, 0%nat) (r_part b x) = Some ((s_part_data_almost_end, 0%nat), concat (map t_header (headers x)) ++ [THeaders] ++ map TD (data x) ++ [TEnd]).
Proof using Hb.
  intros [Hh Hd]. unfold r_part. rewrite app_assoc, (run_then _ _ _ _ _ (headers_run _ Hh)).
  assert (byte_run b (s_part_data, 0%nat) (data x ++ crlf ++ b) = Some ((s_part_data_almost_end, 0%nat), map TD (data x) ++ [TEnd])) as E by (apply data_run; [by left|done]).
  assert (exists c l, data x ++ crlf ++ b = c :: l) as (c & l & El) by (unfold crlf; destruct (data x) as [|c l]; cbn [app]; eauto).
  rewrite El in *. cbn [byte_run byte_step] in *. unfold after in *. cbn [mbind option_bind app] in *.
  destruct (byte_run b (data_step c).1 l) as [[q2 t2]|]; [|done]. simplify_eq/=. by rewrite <- H0.
Qed.
Lemma parts_run xs : Forall (part_ok b) xs ->
  byte_run b (s_part_data_almost_end, 0%nat) (concat (map (fun x => crlf ++ r_part b x) xs)) = Some ((s_part_data_almost_end, 0%nat), concat (map t_part xs)).
Proof using Hb.
  induction 1 as [|x xs Hx _ IH]; [done|]. cbn [map concat]. unfold crlf at 1. rewrite <- !app_assoc. cbn [app].
  rewrite (run_cons _ _ _ (s_part_data_end, 0%nat) []), ahead_nil by done. rewrite (run_cons _ _ _ (s_header_field_start, 0%nat) [TBegin]) by done.
  rewrite (run_then _ _ _ _ _ (part_run x Hx)), IH. cbn [ahead_of mbind option_bind]. unfold t_part. by rewrite <- !app_assoc.
Qed.
Lemma end_run l : byte_run b (s_end, 0%nat) l = Some ((s_end, 0%nat), []).
Proof. induction l as [|c l IH]; [done|]. rewrite (run_cons _ _ _ (s_end, 0%nat) []), ahead_nil by done. done. Qed.
Lemma body_run x xs epilogue : Forall (part_ok b) (x :: xs) ->
  byte_run b (s_start, 0%nat) (r_body b x xs epilogue) = Some ((s_end, 0%nat), t_body x xs).
Proof using Hb.
  intros [Hx Hxs]%Forall_cons. unfold r_body. rewrite app_assoc, (run_then _ _ _ _ _ body_start), (run_then _ _ _ _ _ (part_run x Hx)), (run_then _ _ _ _ _ (parts_run xs Hxs)).
  cbn [app]. rewrite (run_cons _ _ _ (s_part_data_final_hyphen, 0%nat) []), ahead_nil by done. rewrite (run_cons _ _ _ (s_end, 0%nat) [TBody]) by done.
  rewrite end_run. cbn [ahead_of mbind option_bind]. unfold t_body. cbn [map concat]. unfold t_part at 2. cbn [app]. by rewrite <- !app_assoc.
Qed.
End Body.

(** C21. A multipart body whose parts do not contain the delimiter, received in any pieces,
    is taken whole, and the callbacks are given, in order and byte for byte, each part's
    header names and values, its data and the marks between them. *)
Theorem multipart_delivers b x xs epilogue chunks : boundary_ok b -> Forall (part_ok b) (x :: xs) -> concat chunks = r_body b x xs epilogue ->
  exists p s, feed record (multipart_parser_init b) [] chunks = Some (p, s, true) /\ st p = s_end /\ flats s = t_body x xs.
Proof.
  intros Hb Hp Hc. destruct (chunks_ok b (proj1 Hb) chunks (multipart_parser_init b) (s_start, 0%nat) [] (s_end, 0%nat) (t_body x xs)) as (p & s & E & Hf & Hs).
  - split; try done. cbn. unfold zlen. rewrite length_replicate. lia.
  - rewrite Hc. by apply body_run.
  - exists p, s. split; [done|]. split; [exact (F_st _ _ _ Hf)|done].
Qed.

(** The hypotheses, decided. *)
Fixpoint occurs (k d : list Z) : bool := bool_decide (k `prefix_of` d) || match d with [] => false | _ :: d => occurs k d end.
Lemma occurs_spec k x y : occurs k (x ++ k ++ y) = true.
Proof.
  induction x as [|c x IH]; cbn [app]; [|cbn [occurs]; rewrite IH; apply orb_true_r].
  assert (k `prefix_of` k ++ y) as Hp by (by exists y). destruct (k ++ y); cbn [occurs]; by rewrite bool_decide_true.
Qed.
Lemma free_of_decided b d : occurs (CR :: LF :: b) d = false -> free_of b d.
Proof. intros H x y ->. pose proof (occurs_spec (CR :: LF :: b) x y) as E. cbn [app] in E. congruence. Qed.

(** Boundary [--bnd]; data with a lone CR, with the delimiter begun twice, and empty. *)
Definition bnd : list Z := [45; 45; 98; 110; 100].
Definition part1 : part := mk_part [([78; 45; 97], [120; 58; 32]); ([98], [121])] [97; 13; 13; 10; 45; 45; 98; 13; 10; 45; 45; 98; 110; 13].
Definition part2 : part := mk_part [] [].
Lemma multipart_delivers_witness : exists p s,
  feed record (multipart_parser_init bnd) [] (map (fun c => [c]) (r_body bnd part1 [part2] [13; 10])) = Some (p, s, true) /\ st p = s_end /\
  flats s = t_body part1 [part2].
Proof.
  apply (multipart_delivers bnd part1 [part2] [13; 10]).
  - split; [done|]. by apply (bool_decide_unpack (CR ∉ bnd)).
  - repeat constructor; cbn; try done; try (by apply (bool_decide_unpack (_ ∉ _))); by apply free_of_decided.
  - reflexivity.
Defined.
End MultiPartThm.
