(* ===== verification/HttpParser.v ===== *)
(** The HTTP/1 parser of http/http_parser.c, compiled strict as http_parser.h has it: its
    tables, [parse_url_char] and [http_parser_execute]. Callbacks are one function, given
    the parser and an event; it may keep a state and change the parser. Reading outside
    the data or a string, and an assertion that fails, is [None]. *)
From S2P Require Import Prelude.

Module HttpParser.

(** * Constants and tables *)

Inductive http_parser_type := HTTP_REQUEST | HTTP_RESPONSE | HTTP_BOTH.

Inductive state :=
  | s_dead | s_start_req_or_res | s_res_or_resp_H | s_start_res | s_res_H | s_res_HT | s_res_HTT | s_res_HTTP
  | s_res_http_major | s_res_http_dot | s_res_http_minor | s_res_http_end | s_res_first_status_code
  | s_res_status_code | s_res_status_start | s_res_status | s_res_line_almost_done | s_start_req | s_req_method
  | s_req_spaces_before_url | s_req_schema | s_req_schema_slash | s_req_schema_slash_slash | s_req_server_start
  | s_req_server | s_req_server_with_at | s_req_path | s_req_query_string_start | s_req_query_string
  | s_req_fragment_start | s_req_fragment | s_req_http_start | s_req_http_H | s_req_http_HT | s_req_http_HTT
  | s_req_http_HTTP | s_req_http_I | s_req_http_IC | s_req_http_major | s_req_http_dot | s_req_http_minor
  | s_req_http_end | s_req_line_almost_done | s_header_field_start | s_header_field | s_header_value_discard_ws
  | s_header_value_discard_ws_almost_done | s_header_value_discard_lws | s_header_value_start | s_header_value
  | s_header_value_lws | s_header_almost_done | s_chunk_size_start | s_chunk_size | s_chunk_parameters
  | s_chunk_size_almost_done | s_headers_almost_done | s_headers_done | s_chunk_data | s_chunk_data_almost_done
  | s_chunk_data_done | s_body_identity | s_body_identity_eof | s_message_done.

(** [state <= s_headers_done]. *)
Definition PARSING_HEADER (s : state) : bool :=
  match s with
  | s_chunk_data | s_chunk_data_almost_done | s_chunk_data_done | s_body_identity | s_body_identity_eof | s_message_done => false
  | _ => true
  end.

Inductive header_states :=
  | h_general | h_C | h_CO | h_CON | h_matching_connection | h_matching_proxy_connection | h_matching_content_length
  | h_matching_transfer_encoding | h_matching_upgrade | h_connection | h_content_length | h_content_length_num
  | h_content_length_ws | h_transfer_encoding | h_upgrade | h_matching_transfer_encoding_chunked
  | h_matching_connection_token_start | h_matching_connection_keep_alive | h_matching_connection_close
  | h_matching_connection_upgrade | h_matching_connection_token | h_transfer_encoding_chunked
  | h_connection_keep_alive | h_connection_close | h_connection_upgrade.

Inductive http_method :=
  | HTTP_DELETE | HTTP_GET | HTTP_HEAD | HTTP_POST | HTTP_PUT | HTTP_CONNECT | HTTP_OPTIONS | HTTP_TRACE | HTTP_COPY
  | HTTP_LOCK | HTTP_MKCOL | HTTP_MOVE | HTTP_PROPFIND | HTTP_PROPPATCH | HTTP_SEARCH | HTTP_UNLOCK | HTTP_BIND
  | HTTP_REBIND | HTTP_UNBIND | HTTP_ACL | HTTP_REPORT | HTTP_MKACTIVITY | HTTP_CHECKOUT | HTTP_MERGE | HTTP_MSEARCH
  | HTTP_NOTIFY | HTTP_SUBSCRIBE | HTTP_UNSUBSCRIBE | HTTP_PATCH | HTTP_PURGE | HTTP_MKCALENDAR | HTTP_LINK
  | HTTP_UNLINK | HTTP_SOURCE.
#[export] Instance http_method_eq_dec : EqDecision http_method.
Proof. solve_decision. Defined.

Definition method_name (m : http_method) : string :=
  (match m with
   | HTTP_DELETE => "DELETE" | HTTP_GET => "GET" | HTTP_HEAD => "HEAD" | HTTP_POST => "POST" | HTTP_PUT => "PUT"
   | HTTP_CONNECT => "CONNECT" | HTTP_OPTIONS => "OPTIONS" | HTTP_TRACE => "TRACE" | HTTP_COPY => "COPY"
   | HTTP_LOCK => "LOCK" | HTTP_MKCOL => "MKCOL" | HTTP_MOVE => "MOVE" | HTTP_PROPFIND => "PROPFIND"
   | HTTP_PROPPATCH => "PROPPATCH" | HTTP_SEARCH => "SEARCH" | HTTP_UNLOCK => "UNLOCK" | HTTP_BIND => "BIND"
   | HTTP_REBIND => "REBIND" | HTTP_UNBIND => "UNBIND" | HTTP_ACL => "ACL" | HTTP_REPORT => "REPORT"
   | HTTP_MKACTIVITY => "MKACTIVITY" | HTTP_CHECKOUT => "CHECKOUT" | HTTP_MERGE => "MERGE" | HTTP_MSEARCH => "M-SEARCH"
   | HTTP_NOTIFY => "NOTIFY" | HTTP_SUBSCRIBE => "SUBSCRIBE" | HTTP_UNSUBSCRIBE => "UNSUBSCRIBE" | HTTP_PATCH => "PATCH"
   | HTTP_PURGE => "PURGE" | HTTP_MKCALENDAR => "MKCALENDAR" | HTTP_LINK => "LINK" | HTTP_UNLINK => "UNLINK"
   | HTTP_SOURCE => "SOURCE"
   end)%string.
(** With the terminator. *)
Definition method_strings (m : http_method) : list Z := bytes_of_string (method_name m) ++ [0].

Inductive event :=
  | message_begin | url (d : list Z) | status (d : list Z) | header_field (d : list Z) | header_value (d : list Z)
  | headers_complete | body (d : list Z) | message_complete | chunk_header | chunk_complete.

Inductive http_errno_t :=
  | HPE_OK | HPE_CB (e : event) | HPE_INVALID_EOF_STATE | HPE_HEADER_OVERFLOW | HPE_CLOSED_CONNECTION | HPE_INVALID_VERSION
  | HPE_INVALID_STATUS | HPE_INVALID_METHOD | HPE_INVALID_URL | HPE_LF_EXPECTED | HPE_INVALID_HEADER_TOKEN
  | HPE_INVALID_CONTENT_LENGTH | HPE_UNEXPECTED_CONTENT_LENGTH | HPE_INVALID_CHUNK_SIZE | HPE_INVALID_CONSTANT
  | HPE_STRICT | HPE_PAUSED.
Definition is_ok (e : http_errno_t) : bool := match e with HPE_OK => true | _ => false end.

Definition F_CHUNKED : Z := 1.
Definition F_CONNECTION_KEEP_ALIVE : Z := 2.
Definition F_CONNECTION_CLOSE : Z := 4.
Definition F_CONNECTION_UPGRADE : Z := 8.
Definition F_TRAILING : Z := 16.
Definition F_UPGRADE : Z := 32.
Definition F_SKIPBODY : Z := 64.
Definition F_CONTENTLENGTH : Z := 128.
Definition ULLONG_MAX : Z := 18446744073709551615.

Definition CR : Z := 13.
Definition LF : Z := 10.

(** The tables have 256 entries, those not written being 0. *)
Definition tokens : list Z :=
  [0; 0; 0; 0; 0; 0; 0; 0;  0; 0; 0; 0; 0; 0; 0; 0;  0; 0; 0; 0; 0; 0; 0; 0;  0; 0; 0; 0; 0; 0; 0; 0;
   32; 33; 0; 35; 36; 37; 38; 39;  0; 0; 42; 43; 0; 45; 46; 0;
   48; 49; 50; 51; 52; 53; 54; 55;  56; 57; 0; 0; 0; 0; 0; 0;
   0; 97; 98; 99; 100; 101; 102; 103;  104; 105; 106; 107; 108; 109; 110; 111;
   112; 113; 114; 115; 116; 117; 118; 119;  120; 121; 122; 0; 0; 0; 94; 95;
   96; 97; 98; 99; 100; 101; 102; 103;  104; 105; 106; 107; 108; 109; 110; 111;
   112; 113; 114; 115; 116; 117; 118; 119;  120; 121; 122; 0; 124; 0; 126; 0] ++ replicate 128 0.
Definition unhex : list Z :=
  [-1; -1; -1; -1; -1; -1; -1; -1; -1; -1; -1; -1; -1; -1; -1; -1; -1; -1; -1; -1; -1; -1; -1; -1; -1; -1; -1; -1; -1; -1; -1; -1;
   -1; -1; -1; -1; -1; -1; -1; -1; -1; -1; -1; -1; -1; -1; -1; -1; 0; 1; 2; 3; 4; 5; 6; 7; 8; 9; -1; -1; -1; -1; -1; -1;
   -1; 10; 11; 12; 13; 14; 15; -1; -1; -1; -1; -1; -1; -1; -1; -1; -1; -1; -1; -1; -1; -1; -1; -1; -1; -1; -1; -1; -1; -1; -1; -1;
   -1; 10; 11; 12; 13; 14; 15; -1; -1; -1; -1; -1; -1; -1; -1; -1; -1; -1; -1; -1; -1; -1; -1; -1; -1; -1; -1; -1; -1; -1; -1; -1] ++ replicate 128 0.
Definition normal_url_char : list Z :=
  [0; 0; 0; 0; 246; 255; 255; 127; 255; 255; 255; 255; 255; 255; 255; 127] ++ replicate 16 0.

#[global] Arguments tokens : simpl never.
#[global] Arguments unhex : simpl never.
#[global] Arguments normal_url_char : simpl never.

(** A table at a byte. *)
Definition table (t : list Z) (c : Z) : Z := default 0 (t !! Z.to_nat c).
Definition BIT_AT (t : list Z) (c : Z) : bool := has_flag (table t (Z.shiftr c 3)) (Z.shiftl 1 (Z.land c 7)).

Definition LOWER (c : Z) : Z := Z.lor c 32.
Definition IS_ALPHA (c : Z) : bool := (97 <=? LOWER c) && (LOWER c <=? 122).
Definition IS_NUM (c : Z) : bool := (48 <=? c) && (c <=? 57).
Definition IS_ALPHANUM (c : Z) : bool := IS_ALPHA c || IS_NUM c.
Definition is_one_of (s : string) (c : Z) : bool := bool_decide (c ∈ bytes_of_string s).
Definition IS_MARK (c : Z) : bool := is_one_of "-_.!~*'()" c.
Definition IS_USERINFO_CHAR (c : Z) : bool := IS_ALPHANUM c || IS_MARK c || is_one_of "%;:&=+$," c.
Definition TOKEN (c : Z) : Z := if c =? 32 then 0 else table tokens c.
Definition IS_URL_CHAR (c : Z) : bool := BIT_AT normal_url_char c.
Definition IS_HEADER_CHAR (c : Z) : bool := (c =? CR) || (c =? LF) || (c =? 9) || ((31 <? c) && negb (c =? 127)).

(** * URLs *)

Definition parse_url_char (s : state) (ch : Z) : state :=
  if (ch =? 32) || (ch =? CR) || (ch =? LF) then s_dead
  else if (ch =? 9) || (ch =? 12) then s_dead
  else
    let server :=
      if ch =? 47 then s_req_path else if ch =? 63 then s_req_query_string_start else if ch =? 64 then s_req_server_with_at
      else if IS_USERINFO_CHAR ch || (ch =? 91) || (ch =? 93) then s_req_server else s_dead in
    match s with
    | s_req_spaces_before_url => if (ch =? 47) || (ch =? 42) then s_req_path else if IS_ALPHA ch then s_req_schema else s_dead
    | s_req_schema => if IS_ALPHA ch then s else if ch =? 58 then s_req_schema_slash else s_dead
    | s_req_schema_slash => if ch =? 47 then s_req_schema_slash_slash else s_dead
    | s_req_schema_slash_slash => if ch =? 47 then s_req_server_start else s_dead
    | s_req_server_with_at => if ch =? 64 then s_dead else server
    | s_req_server_start | s_req_server => server
    | s_req_path =>
        if IS_URL_CHAR ch then s else if ch =? 63 then s_req_query_string_start else if ch =? 35 then s_req_fragment_start else s_dead
    | s_req_query_string_start | s_req_query_string =>
        if IS_URL_CHAR ch then s_req_query_string
        else if ch =? 63 then s_req_query_string else if ch =? 35 then s_req_fragment_start else s_dead
    | s_req_fragment_start => if IS_URL_CHAR ch then s_req_fragment else if ch =? 63 then s_req_fragment else if ch =? 35 then s else s_dead
    | s_req_fragment => if IS_URL_CHAR ch then s else if (ch =? 63) || (ch =? 35) then s else s_dead
    | _ => s_dead
    end.

(** * The parser *)

Record http_parser := mk_parser {
  type : http_parser_type;
  flags : Z;
  st : state;
  header_state : header_states;
  index : Z;
  lenient_http_headers : bool;
  nread : Z;
  content_length : Z;
  http_major : Z;
  http_minor : Z;
  status_code : Z;
  method : http_method;
  http_errno : http_errno_t;
  upgrade : bool }.
#[export] Instance parser_rebuild : Rebuild http_parser := fun q =>
  mk_parser (type q) (flags q) (st q) (header_state q) (index q) (lenient_http_headers q) (nread q) (content_length q)
    (http_major q) (http_minor q) (status_code q) (method q) (http_errno q) (upgrade q).

Definition http_parser_init (t : http_parser_type) : http_parser :=
  mk_parser t 0 (match t with HTTP_REQUEST => s_start_req | HTTP_RESPONSE => s_start_res | HTTP_BOTH => s_start_req_or_res end)
    h_general 0 false 0 0 0 0 0 HTTP_DELETE HPE_OK false.

Definition flag (q : http_parser) (f : Z) : bool := has_flag (flags q) f.
Definition set_flag (q : http_parser) (f : Z) : http_parser := q.[flags := Z.lor (flags q) f].
(** [index] has 7 bits. *)
Definition next_index (q : http_parser) : http_parser := q.[index := (index q + 1) mod 128].

Definition http_message_needs_eof (q : http_parser) : bool :=
  match type q with
  | HTTP_REQUEST => false
  | _ =>
      if (status_code q / 100 =? 1) || (status_code q =? 204) || (status_code q =? 304) || flag q F_SKIPBODY then false
      else if flag q F_CHUNKED || negb (content_length q =? ULLONG_MAX) then false else true
  end.
Definition http_should_keep_alive (q : http_parser) : bool :=
  if (0 <? http_major q) && (0 <? http_minor q) then
    if flag q F_CONNECTION_CLOSE then false else negb (http_message_needs_eof q)
  else if negb (flag q F_CONNECTION_KEEP_ALIVE) then false else negb (http_message_needs_eof q).
Definition start_state (q : http_parser) : state := match type q with HTTP_REQUEST => s_start_req | _ => s_start_res end.
Definition NEW_MESSAGE (q : http_parser) : state := if http_should_keep_alive q then start_state q else s_dead.

Definition http_body_is_final (q : http_parser) : bool := match st q with s_message_done => true | _ => false end.
Definition http_parser_pause (q : http_parser) (paused : bool) : option http_parser :=
  match http_errno q with
  | HPE_OK | HPE_PAUSED => Some (q.[http_errno := if paused then HPE_PAUSED else HPE_OK])
  | _ => None
  end.

(** Whether the headers ask for another protocol. *)
Definition upgrading (q : http_parser) : bool :=
  if flag q F_UPGRADE && flag q F_CONNECTION_UPGRADE
  then match type q with HTTP_REQUEST => true | _ => status_code q =? 101 end
  else bool_decide (method q = HTTP_CONNECT).

(** * States that take one byte *)

(** The marks, and what a state does with a byte: the parser and the state it sets, a
    mark it sets, a callback ([advance]: the byte counts as parsed if the callback
    stops), and how the round ends; [a_reset]: [nread] starts again from 0. *)
Inductive mark := m_header_field | m_header_value | m_url | m_body | m_status.
#[export] Instance mark_eq_dec : EqDecision mark.
Proof. solve_decision. Defined.
Inductive call := NoCall | Data (m : mark) (advance : bool) | Notify (e : event) (advance : bool).
Inductive ending := Break | Reexecute | Error (e : http_errno_t).
Record act := mk_act_of { a_reset : bool; a_par : http_parser; a_state : state; a_mark : option mark; a_call : call; a_end : ending }.
Definition mk_act := mk_act_of false.

Definition go (q : http_parser) (s : state) : option act := Some (mk_act q s None NoCall Break).
Definition again (q : http_parser) (s : state) : option act := Some (mk_act q s None NoCall Reexecute).
Definition fail (q : http_parser) (s : state) (e : http_errno_t) : option act := Some (mk_act q s None NoCall (Error e)).
Definition calling (q : http_parser) (s : state) (c : call) (e : ending) : option act := Some (mk_act q s None c e).
(** [STRICT_CHECK(ch != x)], then on to a state. *)
Definition expect (q : http_parser) (s : state) (ch x : Z) (next : state) : option act :=
  if ch =? x then go q next else fail q s HPE_STRICT.

(** The methods told apart after their first letter. *)
Definition method_table : list (http_method * Z * Z * http_method) :=
  [(HTTP_POST, 1, 85, HTTP_PUT); (HTTP_POST, 1, 65, HTTP_PATCH); (HTTP_POST, 1, 82, HTTP_PROPFIND); (HTTP_PUT, 2, 82, HTTP_PURGE);
   (HTTP_CONNECT, 1, 72, HTTP_CHECKOUT); (HTTP_CONNECT, 2, 80, HTTP_COPY); (HTTP_MKCOL, 1, 79, HTTP_MOVE);
   (HTTP_MKCOL, 1, 69, HTTP_MERGE); (HTTP_MKCOL, 1, 45, HTTP_MSEARCH); (HTTP_MKCOL, 2, 65, HTTP_MKACTIVITY);
   (HTTP_MKCOL, 3, 65, HTTP_MKCALENDAR); (HTTP_SUBSCRIBE, 1, 69, HTTP_SEARCH); (HTTP_SUBSCRIBE, 1, 79, HTTP_SOURCE);
   (HTTP_REPORT, 2, 66, HTTP_REBIND); (HTTP_PROPFIND, 4, 80, HTTP_PROPPATCH); (HTTP_LOCK, 1, 73, HTTP_LINK);
   (HTTP_UNLOCK, 2, 83, HTTP_UNSUBSCRIBE); (HTTP_UNLOCK, 2, 66, HTTP_UNBIND); (HTTP_UNLOCK, 3, 73, HTTP_UNLINK)].
Definition method_switch (m : http_method) (i ch : Z) : option http_method :=
  snd <$> List.find (fun x => let '(m', i', ch', _) := x in bool_decide (m' = m) && (i' =? i) && (ch' =? ch)) method_table.
Definition method_start (ch : Z) : option http_method :=
  snd <$> List.find (fun x => fst x =? ch)
    [(65, HTTP_ACL); (66, HTTP_BIND); (67, HTTP_CONNECT); (68, HTTP_DELETE); (71, HTTP_GET); (72, HTTP_HEAD); (76, HTTP_LOCK);
     (77, HTTP_MKCOL); (78, HTTP_NOTIFY); (79, HTTP_OPTIONS); (80, HTTP_POST); (82, HTTP_REPORT); (83, HTTP_SUBSCRIBE);
     (84, HTTP_TRACE); (85, HTTP_UNLOCK)].

Definition on_start_req (q : http_parser) (s : state) (ch : Z) : option act :=
  if (ch =? CR) || (ch =? LF) then go q s
  else
    let q := q.[flags := 0].[content_length := ULLONG_MAX] in
    if negb (IS_ALPHA ch) then fail q s HPE_INVALID_METHOD
    else
      let q := q.[method := HTTP_DELETE].[index := 1] in
      match method_start ch with
      | Some m => calling (q.[method := m]) s_req_method (Notify message_begin true) Break
      | None => fail q s HPE_INVALID_METHOD
      end.
Definition on_req_method (q : http_parser) (s : state) (ch : Z) : option act :=
  if ch =? 0 then fail q s HPE_INVALID_METHOD
  else
    x ← zget (method_strings (method q)) (index q);
    if (ch =? 32) && (x =? 0) then go (next_index q) s_req_spaces_before_url
    else if ch =? x then go (next_index q) s
    else if ((65 <=? ch) && (ch <=? 90)) || (ch =? 45) then
      match method_switch (method q) (index q) ch with
      | Some m => go (next_index (q.[method := m])) s
      | None => fail q s HPE_INVALID_METHOD
      end
    else fail q s HPE_INVALID_METHOD.
Definition on_status_code (q : http_parser) (s : state) (ch : Z) : option act :=
  if negb (IS_NUM ch) then
    if ch =? 32 then go q s_res_status_start
    else if (ch =? CR) || (ch =? LF) then again q s_res_status_start
    else fail q s HPE_INVALID_STATUS
  else
    let q := q.[status_code := u16 (u16 (status_code q * 10) + (ch - 48))] in
    if 999 <? status_code q then fail q s HPE_INVALID_STATUS else go q s.
Definition is_dead (s : state) : bool := match s with s_dead => true | _ => false end.
Definition on_before_url (q : http_parser) (s : state) (ch : Z) : option act :=
  if ch =? 32 then go q s
  else
    let s := match method q with HTTP_CONNECT => s_req_server_start | _ => s end in
    let s := parse_url_char s ch in
    Some (mk_act q s (Some m_url) NoCall (if is_dead s then Error HPE_INVALID_URL else Break)).
Definition on_url_char (q : http_parser) (s : state) (ch : Z) : option act :=
  let s := parse_url_char s ch in if is_dead s then fail q s HPE_INVALID_URL else go q s.
Definition on_url_end (q : http_parser) (s : state) (ch : Z) : option act :=
  if ch =? 32 then calling q s_req_http_start (Data m_url true) Break
  else if (ch =? CR) || (ch =? LF) then
    calling (q.[http_major := 0].[http_minor := 9]) (if ch =? CR then s_req_line_almost_done else s_header_field_start) (Data m_url true) Break
  else on_url_char q s ch.
Definition on_header_field_start (q : http_parser) (s : state) (ch : Z) : option act :=
  if ch =? CR then go q s_headers_almost_done
  else if ch =? LF then again q s_headers_almost_done
  else
    let c := TOKEN ch in
    if c =? 0 then fail q s HPE_INVALID_HEADER_TOKEN
    else
      let h := if c =? 99 then h_C else if c =? 112 then h_matching_proxy_connection else if c =? 116 then h_matching_transfer_encoding
               else if c =? 117 then h_matching_upgrade else h_general in
      Some (mk_act (q.[index := 0].[header_state := h]) s_header_field (Some m_header_field) NoCall Break).
Definition on_header_value_start (q : http_parser) (ch : Z) : option act :=
  let q := q.[index := 0] in
  let c := LOWER ch in
  let marked q := Some (mk_act q s_header_value (Some m_header_value) NoCall Break) in
  let failed e := Some (mk_act q s_header_value (Some m_header_value) NoCall (Error e)) in
  match header_state q with
  | h_upgrade => marked ((set_flag q F_UPGRADE).[header_state := h_general])
  | h_transfer_encoding => marked (q.[header_state := if c =? 99 then h_matching_transfer_encoding_chunked else h_general])
  | h_content_length =>
      if negb (IS_NUM ch) then failed HPE_INVALID_CONTENT_LENGTH
      else if flag q F_CONTENTLENGTH then failed HPE_UNEXPECTED_CONTENT_LENGTH
      else marked ((set_flag q F_CONTENTLENGTH).[content_length := ch - 48].[header_state := h_content_length_num])
  | h_content_length_ws => marked q
  | h_connection =>
      marked (q.[header_state := if c =? 107 then h_matching_connection_keep_alive else if c =? 99 then h_matching_connection_close
                                 else if c =? 117 then h_matching_connection_upgrade else h_matching_connection_token])
  | h_matching_connection_token_start => marked q
  | _ => marked (q.[header_state := h_general])
  end.
(** The flags of a header that is complete. *)
Definition header_flags (q : http_parser) : http_parser :=
  match header_state q with
  | h_connection_keep_alive => set_flag q F_CONNECTION_KEEP_ALIVE
  | h_connection_close => set_flag q F_CONNECTION_CLOSE
  | h_transfer_encoding_chunked => set_flag q F_CHUNKED
  | h_connection_upgrade => set_flag q F_CONNECTION_UPGRADE
  | _ => q
  end.
Definition on_header_value_lws (q : http_parser) (s : state) (ch : Z) : option act :=
  if (ch =? 32) || (ch =? 9) then
    again (match header_state q with h_content_length_num => q.[header_state := h_content_length_ws] | _ => q end) s_header_value_start
  else again (header_flags q) s_header_field_start.
Definition on_discard_lws (q : http_parser) (s : state) (ch : Z) : option act :=
  if (ch =? 32) || (ch =? 9) then go q s_header_value_discard_ws
  else
    match header_state q with
    | h_content_length => fail q s HPE_INVALID_CONTENT_LENGTH
    | _ => Some (mk_act (header_flags q) s_header_field_start (Some m_header_value) (Data m_header_value false) Reexecute)
    end.
Definition on_chunk_size_start (q : http_parser) (s : state) (nread ch : Z) : option act :=
  if negb (nread =? 1) || negb (flag q F_CHUNKED) then None
  else
    let v := table unhex ch in
    if v =? -1 then fail q s HPE_INVALID_CHUNK_SIZE else go (q.[content_length := v]) s_chunk_size.
Definition on_chunk_size (q : http_parser) (s : state) (ch : Z) : option act :=
  if negb (flag q F_CHUNKED) then None
  else if ch =? CR then go q s_chunk_size_almost_done
  else
    let v := table unhex ch in
    if v =? -1 then if (ch =? 59) || (ch =? 32) then go q s_chunk_parameters else fail q s HPE_INVALID_CHUNK_SIZE
    else
      let t := u64 (content_length q * 16 + v) in
      if (ULLONG_MAX - 16) / 16 <? content_length q then fail q s HPE_INVALID_CONTENT_LENGTH
      else go (q.[content_length := t]) s.

(** The version that ends the request line. *)
Definition on_req_http (q : http_parser) (s : state) (ch : Z) : option act :=
  match s with
  | s_req_http_start =>
      if ch =? 32 then go q s
      else if ch =? 72 then go q s_req_http_H
      else if (ch =? 73) && bool_decide (method q = HTTP_SOURCE) then go q s_req_http_I
      else fail q s HPE_INVALID_CONSTANT
  | s_req_http_H => expect q s ch 84 s_req_http_HT
  | s_req_http_HT => expect q s ch 84 s_req_http_HTT
  | s_req_http_HTT => expect q s ch 80 s_req_http_HTTP
  | s_req_http_I => expect q s ch 67 s_req_http_IC
  | s_req_http_IC => expect q s ch 69 s_req_http_HTTP
  | s_req_http_HTTP => expect q s ch 47 s_req_http_major
  | s_req_http_major => if negb (IS_NUM ch) then fail q s HPE_INVALID_VERSION else go (q.[http_major := ch - 48]) s_req_http_dot
  | s_req_http_dot => if negb (ch =? 46) then fail q s HPE_INVALID_VERSION else go q s_req_http_minor
  | s_req_http_minor => if negb (IS_NUM ch) then fail q s HPE_INVALID_VERSION else go (q.[http_minor := ch - 48]) s_req_http_end
  | s_req_http_end =>
      if ch =? CR then go q s_req_line_almost_done else if ch =? LF then go q s_header_field_start else fail q s HPE_INVALID_VERSION
  | s_req_line_almost_done => if negb (ch =? LF) then fail q s HPE_LF_EXPECTED else go q s_header_field_start
  | _ => None
  end.
(** The end of a chunk size and that of a chunk. *)
Definition on_chunk_end (q : http_parser) (s : state) (ch : Z) : option act :=
  match s with
  | s_chunk_parameters => if negb (flag q F_CHUNKED) then None else go q (if ch =? CR then s_chunk_size_almost_done else s)
  | s_chunk_size_almost_done =>
      if negb (flag q F_CHUNKED) then None
      else if negb (ch =? LF) then fail q s HPE_STRICT
      else if content_length q =? 0
      then Some (mk_act_of true (set_flag q F_TRAILING) s_header_field_start None (Notify chunk_header true) Break)
      else Some (mk_act_of true q s_chunk_data None (Notify chunk_header true) Break)
  | s_chunk_data_almost_done =>
      if negb (flag q F_CHUNKED) || negb (content_length q =? 0) then None
      else if negb (ch =? CR) then fail q s HPE_STRICT
      else calling q s_chunk_data_done (Data m_body true) Break
  | s_chunk_data_done =>
      if negb (flag q F_CHUNKED) then None
      else if negb (ch =? LF) then fail q s HPE_STRICT
      else Some (mk_act_of true q s_chunk_size_start None (Notify chunk_complete true) Break)
  | _ => None
  end.

(** States with one byte and no more than one callback, which ends the round. *)
Definition simple (q : http_parser) (s : state) (nread ch : Z) : option act :=
  match s with
  | s_dead => if (ch =? CR) || (ch =? LF) then go q s else fail q s HPE_CLOSED_CONNECTION
  | s_start_req_or_res =>
      if (ch =? CR) || (ch =? LF) then go q s
      else
        let q := q.[flags := 0].[content_length := ULLONG_MAX] in
        if ch =? 72 then calling q s_res_or_resp_H (Notify message_begin true) Break else again (q.[type := HTTP_REQUEST]) s_start_req
  | s_res_or_resp_H =>
      if ch =? 84 then go (q.[type := HTTP_RESPONSE]) s_res_HT
      else if negb (ch =? 69) then fail q s HPE_INVALID_CONSTANT
      else go (q.[type := HTTP_REQUEST].[method := HTTP_HEAD].[index := 2]) s_req_method
  | s_start_res =>
      if (ch =? CR) || (ch =? LF) then go q s
      else
        let q := q.[flags := 0].[content_length := ULLONG_MAX] in
        if ch =? 72 then calling q s_res_H (Notify message_begin true) Break else fail q s HPE_INVALID_CONSTANT
  | s_res_H => expect q s ch 84 s_res_HT
  | s_res_HT => expect q s ch 84 s_res_HTT
  | s_res_HTT => expect q s ch 80 s_res_HTTP
  | s_res_HTTP => expect q s ch 47 s_res_http_major
  | s_res_http_major => if negb (IS_NUM ch) then fail q s HPE_INVALID_VERSION else go (q.[http_major := ch - 48]) s_res_http_dot
  | s_res_http_dot => if negb (ch =? 46) then fail q s HPE_INVALID_VERSION else go q s_res_http_minor
  | s_res_http_minor => if negb (IS_NUM ch) then fail q s HPE_INVALID_VERSION else go (q.[http_minor := ch - 48]) s_res_http_end
  | s_res_http_end => if negb (ch =? 32) then fail q s HPE_INVALID_VERSION else go q s_res_first_status_code
  | s_res_first_status_code =>
      if negb (IS_NUM ch) then if ch =? 32 then go q s else fail q s HPE_INVALID_STATUS
      else go (q.[status_code := ch - 48]) s_res_status_code
  | s_res_status_code => on_status_code q s ch
  | s_res_status_start =>
      Some (mk_act (q.[index := 0]) s_res_status (Some m_status) NoCall (if (ch =? CR) || (ch =? LF) then Reexecute else Break))
  | s_res_status =>
      if ch =? CR then calling q s_res_line_almost_done (Data m_status true) Break
      else if ch =? LF then calling q s_header_field_start (Data m_status true) Break
      else go q s
  | s_res_line_almost_done => expect q s ch LF s_header_field_start
  | s_start_req => on_start_req q s ch
  | s_req_method => on_req_method q s ch
  | s_req_spaces_before_url => on_before_url q s ch
  | s_req_schema | s_req_schema_slash | s_req_schema_slash_slash | s_req_server_start =>
      if (ch =? 32) || (ch =? CR) || (ch =? LF) then fail q s HPE_INVALID_URL else on_url_char q s ch
  | s_req_server | s_req_server_with_at | s_req_path | s_req_query_string_start | s_req_query_string | s_req_fragment_start
  | s_req_fragment => on_url_end q s ch
  | s_req_http_start | s_req_http_H | s_req_http_HT | s_req_http_HTT | s_req_http_I | s_req_http_IC | s_req_http_HTTP | s_req_http_major
  | s_req_http_dot | s_req_http_minor | s_req_http_end | s_req_line_almost_done => on_req_http q s ch
  | s_header_field_start => on_header_field_start q s ch
  | s_header_value_discard_ws =>
      if (ch =? 32) || (ch =? 9) then go q s
      else if ch =? CR then go q s_header_value_discard_ws_almost_done
      else if ch =? LF then go q s_header_value_discard_lws
      else on_header_value_start q ch
  | s_header_value_start => on_header_value_start q ch
  | s_header_almost_done => if negb (ch =? LF) then fail q s HPE_LF_EXPECTED else go q s_header_value_lws
  | s_header_value_lws => on_header_value_lws q s ch
  | s_header_value_discard_ws_almost_done => expect q s ch LF s_header_value_discard_lws
  | s_header_value_discard_lws => on_discard_lws q s ch
  | s_chunk_size_start => on_chunk_size_start q s nread ch
  | s_chunk_size => on_chunk_size q s ch
  | s_chunk_parameters | s_chunk_size_almost_done | s_chunk_data_almost_done | s_chunk_data_done => on_chunk_end q s ch
  | _ => None
  end.

(** * Names and values of headers, byte by byte *)

(** A literal at an index that is not past its terminator. *)
Definition lit (s : string) (i : Z) : Z := default 0 (bytes_of_string s !! Z.to_nat i).
Definition strlen (s : string) : Z := zlen (bytes_of_string s).

(** One more byte of a name or a value matched with a literal: [index > sizeof - 1] or
    another byte loses it, the last one finishes it. *)
Definition matching (q : http_parser) (s : string) (c : Z) (lost done : header_states) (h : header_states) : http_parser * header_states :=
  let q := next_index q in
  (q, if (strlen s <? index q) || negb (c =? lit s (index q)) then lost else if index q =? strlen s - 1 then done else h).

(** A byte of a name, [c] its token; [h_general] is left to the loop. *)
Definition field_char (q : http_parser) (ch c : Z) : option http_parser :=
  let m s done :=
    let '(q, h) := matching q s c h_general done (header_state q) in Some (q.[header_state := h]) in
  match header_state q with
  | h_general => Some q
  | h_C => Some ((next_index q).[header_state := if c =? 111 then h_CO else h_general])
  | h_CO => Some ((next_index q).[header_state := if c =? 110 then h_CON else h_general])
  | h_CON =>
      Some ((next_index q).[header_state := if c =? 110 then h_matching_connection else if c =? 116 then h_matching_content_length else h_general])
  | h_matching_connection => m "connection"%string h_connection
  | h_matching_proxy_connection => m "proxy-connection"%string h_connection
  | h_matching_content_length => m "content-length"%string h_content_length
  | h_matching_transfer_encoding =>
      q ← m "transfer-encoding"%string h_transfer_encoding;
      Some (match header_state q with h_transfer_encoding => q.[flags := Z.land (flags q) (Z.lnot F_CHUNKED)] | _ => q end)
  | h_matching_upgrade => m "upgrade"%string h_upgrade
  | h_connection | h_content_length | h_transfer_encoding | h_upgrade => Some (if negb (ch =? 32) then q.[header_state := h_general] else q)
  | _ => None
  end.

(** A byte of a value, with the header state kept in [h_state]. *)
Definition value_char (q : http_parser) (h_state : header_states) (ch : Z) : option (http_parser * header_states + http_errno_t * header_states) :=
  let c := LOWER ch in
  let ok q h := Some (inl (q, h)) in
  let number :=
    if ch =? 32 then ok q h_content_length_ws
    else if negb (IS_NUM ch) then Some (inr (HPE_INVALID_CONTENT_LENGTH, h_content_length_num))
    else
      let t := u64 (content_length q * 10 + (ch - 48)) in
      if (ULLONG_MAX - 10) / 10 <? content_length q then Some (inr (HPE_INVALID_CONTENT_LENGTH, h_content_length_num))
      else ok (q.[content_length := t]) h_content_length_num in
  match h_state with
  | h_general => ok q h_general
  | h_connection | h_transfer_encoding => None
  | h_content_length => if ch =? 32 then ok q h_state else number
  | h_content_length_num => number
  | h_content_length_ws => if ch =? 32 then ok q h_state else Some (inr (HPE_INVALID_CONTENT_LENGTH, h_state))
  | h_matching_transfer_encoding_chunked => Some (inl (matching q "chunked"%string c h_general h_transfer_encoding_chunked h_state))
  | h_matching_connection_token_start =>
      ok q (if c =? 107 then h_matching_connection_keep_alive else if c =? 99 then h_matching_connection_close
            else if c =? 117 then h_matching_connection_upgrade else if negb (TOKEN c =? 0) then h_matching_connection_token
            else if (c =? 32) || (c =? 9) then h_state else h_general)
  | h_matching_connection_keep_alive => Some (inl (matching q "keep-alive"%string c h_matching_connection_token h_connection_keep_alive h_state))
  | h_matching_connection_close => Some (inl (matching q "close"%string c h_matching_connection_token h_connection_close h_state))
  | h_matching_connection_upgrade => Some (inl (matching q "upgrade"%string c h_matching_connection_token h_connection_upgrade h_state))
  | h_matching_connection_token => if ch =? 44 then ok (q.[index := 0]) h_matching_connection_token_start else ok q h_state
  | h_transfer_encoding_chunked => ok q (if negb (ch =? 32) then h_general else h_state)
  | h_connection_keep_alive | h_connection_close | h_connection_upgrade =>
      if ch =? 44 then
        let q := match h_state with
                 | h_connection_keep_alive => set_flag q F_CONNECTION_KEEP_ALIVE
                 | h_connection_close => set_flag q F_CONNECTION_CLOSE
                 | _ => set_flag q F_CONNECTION_UPGRADE
                 end in
        ok (q.[index := 0]) h_matching_connection_token_start
      else ok q (if negb (ch =? 32) then h_matching_connection_token else h_state)
  | _ => ok q h_general
  end.

(** * Execution *)

Section Execute.
Context {S : Type} (cb : S -> http_parser -> event -> S * http_parser * Z) (max_header_size : Z).

(** The local variables of [http_parser_execute] with the parser and the callbacks' state. *)
Record exec := mk_exec { par : http_parser; p_state : state; nrd : Z; marks : mark -> option Z; p : Z; us : S }.
#[local] Instance exec_rebuild : Rebuild exec := fun x => mk_exec (par x) (p_state x) (nrd x) (marks x) (p x) (us x).

(** How a round ends: the next byte, the state again, or a return with the parser. *)
Inductive round := Next (x : exec) | Again (x : exec) | Return (q : http_parser) (s : S) (n : Z).

Definition RETURN (x : exec) (n : Z) : option round := Some (Return ((par x).[nread := nrd x].[st := p_state x]) (us x) n).
Definition SET_ERRNO (x : exec) (e : http_errno_t) : exec := x.[par := (par x).[nread := nrd x].[http_errno := e]].
Definition error (x : exec) (e : http_errno_t) : option round := RETURN (SET_ERRNO x e) (p x).

(** [CALLBACK_NOTIFY_]; a callback that is not set is one that does nothing. *)
Definition CALLBACK_NOTIFY_ (x : exec) (e : event) (er : Z) (k : exec -> option round) : option round :=
  if negb (is_ok (http_errno (par x))) then None
  else
    let '(s, q, r) := cb (us x) ((par x).[st := p_state x]) e in
    let x := x.[par := q].[us := s] in
    let x := if negb (r =? 0) then SET_ERRNO x (HPE_CB e) else x in
    let x := x.[p_state := st (par x)] in
    if negb (is_ok (http_errno (par x))) then Some (Return (par x) (us x) er) else k x.

Definition data_event (m : mark) : list Z -> event :=
  match m with m_header_field => header_field | m_header_value => header_value | m_url => url | m_body => body | m_status => status end.
Definition set_marks (x : exec) (m : mark) (v : option Z) : exec :=
  x.[marks := fun m' => if decide (m' = m) then v else marks x m'].
(** [CALLBACK_DATA_] up to an end. *)
Definition CALLBACK_DATA_ (buf : list Z) (x : exec) (m : mark) (stop er : Z) (k : exec -> option round) : option round :=
  if negb (is_ok (http_errno (par x))) then None
  else
    match marks x m with
    | None => k x
    | Some a => d ← zslice buf a (stop - a); CALLBACK_NOTIFY_ x (data_event m d) er (fun x => k (set_marks x m None))
    end.
Definition MARK (x : exec) (m : mark) : exec := match marks x m with Some _ => x | None => set_marks x m (Some (p x)) end.
Definition COUNT_HEADER_SIZE (x : exec) (v : Z) (k : exec -> option round) : option round :=
  let x := x.[nrd := u32 (nrd x + u32 v)] in
  if max_header_size <? nrd x then error x HPE_HEADER_OVERFLOW else k x.

Definition run_act (buf : list Z) (x : exec) (a : act) : option round :=
  let x := x.[par := a_par a].[p_state := a_state a] in
  let x := if a_reset a then x.[par := (par x).[nread := 0]].[nrd := 0] else x in
  let x := match a_mark a with Some m => MARK x m | None => x end in
  let finish x := match a_end a with Break => Some (Next x) | Reexecute => Some (Again x) | Error e => error x e end in
  match a_call a with
  | NoCall => finish x
  | Data m advance => CALLBACK_DATA_ buf x m (p x) (if advance then p x + 1 else p x) finish
  | Notify e advance => CALLBACK_NOTIFY_ x e (if advance then p x + 1 else p x) finish
  end.

(** The loop over a name: the parser and where it stops; in [h_general] tokens are skipped. *)
Fixpoint skip_tokens (fuel : nat) (buf : list Z) (i limit : Z) : option Z :=
  if i + 1 <? limit then
    match fuel with
    | O => None
    | Datatypes.S f => ch ← zget buf (i + 1); if TOKEN ch =? 0 then Some i else skip_tokens f buf (i + 1) limit
    end
  else Some i.
Fixpoint field_loop (fuel : nat) (buf : list Z) (q : http_parser) (i : Z) : option (http_parser * Z) :=
  if i =? zlen buf then Some (q, i)
  else
    match fuel with
    | O => None
    | Datatypes.S f =>
        ch ← zget buf i;
        let c := TOKEN ch in
        if c =? 0 then Some (q, i)
        else
          match header_state q with
          | h_general =>
              j ← skip_tokens f buf i (Z.min (zlen buf - i) max_header_size);
              field_loop f buf q (j + 1)
          | _ => q ← field_char q ch c; field_loop f buf q (i + 1)
          end
    end.
Definition round_header_field (buf : list Z) (x : exec) : option round :=
  '(q, i) ← field_loop (length buf) buf (par x) (p x);
  let start := p x in
  let x := x.[par := q] in
  if i =? zlen buf then
    let x := x.[p := i - 1] in COUNT_HEADER_SIZE x (i - 1 - start) (fun x => Some (Next x))
  else
    COUNT_HEADER_SIZE (x.[p := i]) (i - start) (fun x =>
      ch ← zget buf i;
      if ch =? 58 then
        let x := x.[p_state := s_header_value_discard_ws] in
        CALLBACK_DATA_ buf x m_header_field i (i + 1) (fun x => Some (Next x))
      else error x HPE_INVALID_HEADER_TOKEN).

(** The loop over a value: stopped by CR, LF, the end or an error, which leaves
    [header_state] as it was unless a number is wrong. *)
Inductive value_stop := AtCR | AtLF | AtEnd | Bad (e : http_errno_t) (keep : bool).
Fixpoint general_loop (fuel : nat) (buf : list Z) (lenient : bool) (i limit : Z) : option (Z * bool) :=
  if i =? limit then Some (i, true)
  else
    match fuel with
    | O => None
    | Datatypes.S f =>
        ch ← zget buf i;
        if (ch =? CR) || (ch =? LF) then Some (i - 1, true)
        else if negb lenient && negb (IS_HEADER_CHAR ch) then Some (i, false)
        else general_loop f buf lenient (i + 1) limit
    end.
Fixpoint value_loop (fuel : nat) (buf : list Z) (lenient : bool) (q : http_parser) (h_state : header_states) (i : Z) :
  option (http_parser * header_states * Z * value_stop) :=
  if i =? zlen buf then Some (q, h_state, i, AtEnd)
  else
    match fuel with
    | O => None
    | Datatypes.S f =>
        ch ← zget buf i;
        if ch =? CR then Some (q, h_state, i, AtCR)
        else if ch =? LF then Some (q, h_state, i, AtLF)
        else if negb lenient && negb (IS_HEADER_CHAR ch) then Some (q, h_state, i, Bad HPE_INVALID_HEADER_TOKEN true)
        else
          match h_state with
          | h_general =>
              '(j, ok) ← general_loop (Datatypes.S f) buf lenient i (i + Z.min (zlen buf - i) max_header_size);
              if negb ok then Some (q, h_state, j, Bad HPE_INVALID_HEADER_TOKEN true)
              else let j := if j =? zlen buf then j - 1 else j in value_loop f buf lenient q h_state (j + 1)
          | _ =>
              r ← value_char q h_state ch;
              match r with
              | inl (q, h_state) => value_loop f buf lenient q h_state (i + 1)
              | inr (e, h_state) => Some (q, h_state, i, Bad e false)
              end
          end
    end.
Definition round_header_value (buf : list Z) (lenient : bool) (x : exec) : option round :=
  let start := p x in
  '(q, h, i, stop) ← value_loop (length buf) buf lenient (par x) (header_state (par x)) (p x);
  let x := x.[par := q].[p := i] in
  let kept x := x.[par := (par x).[header_state := h]] in
  match stop with
  | AtCR =>
      let x := kept (x.[p_state := s_header_almost_done]) in
      CALLBACK_DATA_ buf x m_header_value i (i + 1) (fun x => COUNT_HEADER_SIZE (kept x) (i - start) (fun x => Some (Next x)))
  | AtLF =>
      let x := x.[p_state := s_header_almost_done] in
      COUNT_HEADER_SIZE x (i - start) (fun x => CALLBACK_DATA_ buf (kept x) m_header_value i i (fun x => Some (Again x)))
  | AtEnd => COUNT_HEADER_SIZE ((kept x).[p := i - 1]) (i - 1 - start) (fun x => Some (Next x))
  | Bad e keep => error (if keep : bool then x else kept x) e
  end.

(** The end of the headers. [on_headers_complete] does not see the new state. *)
Definition round_headers_almost_done (x : exec) (ch : Z) : option round :=
  if negb (ch =? LF) then error x HPE_STRICT
  else if flag (par x) F_TRAILING then
    CALLBACK_NOTIFY_ (x.[p_state := s_message_done]) chunk_complete (p x) (fun x => Some (Again x))
  else if flag (par x) F_CHUNKED && flag (par x) F_CONTENTLENGTH then error x HPE_UNEXPECTED_CONTENT_LENGTH
  else
    let '(s, q, r) := cb (us x) ((par x).[upgrade := upgrading (par x)]) headers_complete in
    let x := x.[p_state := s_headers_done].[us := s] in
    let go q := let x := x.[par := q] in if negb (is_ok (http_errno q)) then RETURN x (p x) else Some (Again x) in
    if r =? 0 then go q
    else if r =? 2 then go (set_flag (q.[upgrade := true]) F_SKIPBODY)
    else if r =? 1 then go (set_flag q F_SKIPBODY)
    else RETURN (SET_ERRNO (x.[par := q]) (HPE_CB headers_complete)) (p x).
Definition round_headers_done (x : exec) (ch : Z) : option round :=
  if negb (ch =? LF) then error x HPE_STRICT
  else
    let q := (par x).[nread := 0] in
    let x := x.[par := q].[nrd := 0] in
    let hasBody := flag q F_CHUNKED || ((0 <? content_length q) && negb (content_length q =? ULLONG_MAX)) in
    let complete k := CALLBACK_NOTIFY_ (x.[p_state := NEW_MESSAGE q]) message_complete (p x + 1) k in
    if upgrade q && (bool_decide (method q = HTTP_CONNECT) || flag q F_SKIPBODY || negb hasBody) then complete (fun x => RETURN x (p x + 1))
    else if flag q F_SKIPBODY then complete (fun x => Some (Next x))
    else if flag q F_CHUNKED then Some (Next (x.[p_state := s_chunk_size_start]))
    else if content_length q =? 0 then complete (fun x => Some (Next x))
    else if negb (content_length q =? ULLONG_MAX) then Some (Next (x.[p_state := s_body_identity]))
    else if negb (http_message_needs_eof q) then complete (fun x => Some (Next x))
    else Some (Next (x.[p_state := s_body_identity_eof])).

(** Bodies: as much as there is is taken at once. *)
Definition take_body (buf : list Z) (x : exec) : option exec :=
  let q := par x in
  if (content_length q =? 0) || (content_length q =? ULLONG_MAX) then None
  else
    let to_read := Z.min (content_length q) (zlen buf - p x) in
    let x := MARK x m_body in
    Some (x.[par := q.[content_length := content_length q - to_read]].[p := p x + to_read - 1]).
Definition round_body_identity (buf : list Z) (x : exec) : option round :=
  x ← take_body buf x;
  if content_length (par x) =? 0 then
    CALLBACK_DATA_ buf (x.[p_state := s_message_done]) m_body (p x + 1) (p x) (fun x => Some (Again x))
  else Some (Next x).
Definition round_chunk_data (buf : list Z) (x : exec) : option round :=
  if negb (flag (par x) F_CHUNKED) then None
  else
    x ← take_body buf x;
    Some (Next (if content_length (par x) =? 0 then x.[p_state := s_chunk_data_almost_done] else x)).
Definition round_message_done (x : exec) : option round :=
  CALLBACK_NOTIFY_ (x.[p_state := NEW_MESSAGE (par x)]) message_complete (p x + 1) (fun x =>
    if upgrade (par x) then RETURN x (p x + 1) else Some (Next x)).

Definition round_of (buf : list Z) (lenient : bool) (x : exec) : option round :=
  ch ← zget buf (p x);
  match p_state x with
  | s_header_field => round_header_field buf x
  | s_header_value => round_header_value buf lenient x
  | s_headers_almost_done => round_headers_almost_done x ch
  | s_headers_done => round_headers_done x ch
  | s_body_identity => round_body_identity buf x
  | s_body_identity_eof => Some (Next ((MARK x m_body).[p := zlen buf - 1]))
  | s_message_done => round_message_done x
  | s_chunk_data => round_chunk_data buf x
  | s => a ← simple (par x) s (nrd x) ch; run_act buf x a
  end.

(** After the last byte: the marks that are left, no more than one. *)
Definition leftover (buf : list Z) (x : exec) : option round :=
  let set m := if marks x m then 1 else 0 in
  if 1 <? set m_header_field + set m_header_value + set m_url + set m_body + set m_status then None
  else
    let flush m k x := CALLBACK_DATA_ buf x m (p x) (p x) k in
    flush m_header_field (flush m_header_value (flush m_url (flush m_body (flush m_status (fun x => RETURN x (zlen buf)))))) x.

(** The loop; [top]: a byte is looked at for the first time. No byte takes more than five
    rounds. *)
Fixpoint execute_loop (fuel : nat) (buf : list Z) (lenient : bool) (top : bool) (x : exec) : option (http_parser * S * Z) :=
  match fuel with
  | O => None
  | Datatypes.S f =>
      r ← (if p x =? zlen buf then leftover buf x
           else if top && PARSING_HEADER (p_state x) then COUNT_HEADER_SIZE x 1 (round_of buf lenient)
           else round_of buf lenient x);
      match r with
      | Next x => execute_loop f buf lenient true (x.[p := p x + 1])
      | Again x => execute_loop f buf lenient false x
      | Return q s n => Some (q, s, n)
      end
  end.

(** The marks at the start of the data. *)
Definition start_marks (s : state) (m : mark) : option Z :=
  match s, m with
  | s_header_field, m_header_field | s_header_value, m_header_value | s_res_status, m_status => Some 0
  | (s_req_path | s_req_schema | s_req_schema_slash | s_req_schema_slash_slash | s_req_server_start | s_req_server | s_req_server_with_at
    | s_req_query_string_start | s_req_query_string | s_req_fragment_start | s_req_fragment), m_url => Some 0
  | _, _ => None
  end.

Definition http_parser_execute (q : http_parser) (s : S) (buf : list Z) : option (http_parser * S * Z) :=
  let x := mk_exec q (st q) (nread q) (start_marks (st q)) 0 s in
  if negb (is_ok (http_errno q)) then Some (q, s, 0)
  else if zlen buf =? 0 then
    match st q with
    | s_body_identity_eof =>
        r ← CALLBACK_NOTIFY_ x message_complete 0 (fun x => Some (Return (par x) (us x) 0));
        match r with Return q s n => Some (q, s, n) | _ => None end
    | s_dead | s_start_req_or_res | s_start_res | s_start_req => Some (q, s, 0)
    | _ => Some (par (SET_ERRNO x HPE_INVALID_EOF_STATE), s, 1)
    end
  else execute_loop (5 * length buf + 1) buf (lenient_http_headers q) true x.

(** Data received in pieces, until one is not taken whole or the connection has been
    upgraded, which ends with the message. *)
Definition upgraded (q : http_parser) : bool :=
  upgrade q && match st q with s_start_req | s_start_res | s_dead => true | _ => false end.
Fixpoint feed (q : http_parser) (s : S) (chunks : list (list Z)) : option (http_parser * S * Z) :=
  match chunks with
  | [] => Some (q, s, 0)
  | b :: chunks =>
      '(q, s, n) ← http_parser_execute q s b;
      if (n =? zlen b) && is_ok (http_errno q) && negb (upgraded q) then '(q, s, m) ← feed q s chunks; Some (q, s, n + m) else Some (q, s, n)
  end.
End Execute.

Definition HTTP_MAX_HEADER_SIZE : Z := 80 * 1024.
End HttpParser.
