(* ===== verification/HttpStep.v ===== *)
(** Pieces of data put together, and the states of the HTTP parser that take one byte:
    the marks they set and hand over. *)
From S2P Require Import Prelude HttpParser.

Module HttpStep.
Import HttpParser.
#[local] Existing Instance exec_rebuild.

(** * Pieces put together *)

(** An event after others, last first: data of the same kind is appended. *)
Definition push (r : list event) (e : event) : list event :=
  match e, r with
  | url d, url d0 :: r => url (d0 ++ d) :: r
  | status d, status d0 :: r => status (d0 ++ d) :: r
  | header_field d, header_field d0 :: r => header_field (d0 ++ d) :: r
  | header_value d, header_value d0 :: r => header_value (d0 ++ d) :: r
  | body d, body d0 :: r => body (d0 ++ d) :: r
  | _, _ => e :: r
  end.
Definition joined_rev (s : list event) : list event := fold_left push s [].
Definition joined (s : list event) : list event := rev (joined_rev s).

Lemma push_push m d d' r : push (push r (data_event m d)) (data_event m d') = push r (data_event m (d ++ d')).
Proof. destruct m, r as [|[] r]; simpl; by rewrite ?app_assoc. Qed.
Lemma joined_snoc s e : joined_rev (s ++ [e]) = push (joined_rev s) e.
Proof. unfold joined_rev. by rewrite fold_left_app. Qed.

(** Callbacks that keep what they are given and let the parser go on; [hc] is what
    [on_headers_complete] answers. *)
Definition record (hc : http_parser -> Z) (s : list event) (q : http_parser) (e : event) : list event * http_parser * Z :=
  (s ++ [e], q, match e with headers_complete => hc q | _ => 0 end).

(** The parser without the two fields that [http_parser_execute] keeps in variables. *)
Definition strip (q : http_parser) : http_parser := q.[nread := 0].[st := s_dead].
Definition blind (hc : http_parser -> Z) : Prop := forall q, hc q = hc (strip q).

(** What the parser is run with: an answer to the end of the headers that does not look at
    those two fields, and a limit on the size of the headers that no sum passes. *)
Class Client := { hc : http_parser -> Z; hc_blind : blind hc; max : Z; max_range : 0 < max < 2 ^ 31 }.

Definition live (s : state) : option mark :=
  match s with
  | s_header_field => Some m_header_field
  | s_header_value => Some m_header_value
  | s_res_status => Some m_status
  | s_req_path | s_req_schema | s_req_schema_slash | s_req_schema_slash_slash | s_req_server_start | s_req_server | s_req_server_with_at
  | s_req_query_string_start | s_req_query_string | s_req_fragment_start | s_req_fragment => Some m_url
  | _ => None
  end.

(** What a state does with a byte keeps the marks in order: a mark is set where the next
    state has it set, or handed over. *)
Definition held (s : state) (a : act) : option mark := match a_mark a with Some m => Some m | None => live s end.
Definition coherent (s : state) (a : act) : Prop :=
  match a_end a with
  | Error e => a_call a = NoCall /\ e <> HPE_OK /\ e <> HPE_HEADER_OVERFLOW
  | _ =>
      (is_Some (a_mark a) -> live s = None /\ s <> s_chunk_data_almost_done) /\
      match a_call a with
      | Data m _ => (held s a = Some m \/ s = s_chunk_data_almost_done /\ m = m_body) /\ live (a_state a) = None /\ (a_mark a = None -> s = s_chunk_data_almost_done \/ live s = Some m)
      | Notify e _ => held s a = None /\ live (a_state a) = None /\ e <> headers_complete /\ (forall m d, e <> data_event m d) /\ s <> s_chunk_data_almost_done
      | NoCall => live (a_state a) = held s a /\ s <> s_chunk_data_almost_done
      end /\ a_state a <> s_chunk_data_almost_done
  end.

Ltac cases :=
  repeat match goal with
  | H : None = Some _ |- _ => discriminate H
  | H : Some _ = Some _ |- _ => injection H as <-
  | H : ?o ≫= _ = Some _ |- _ => destruct o eqn:?; cbn [mbind option_bind] in H
  | H : context [if ?b then _ else _] |- _ => destruct b eqn:?
  | H : context [match ?b with _ => _ end] |- _ => destruct b eqn:?
  end.
Ltac open_simple :=
  unfold simple, on_start_req, on_req_method, on_status_code, on_before_url, on_url_end, on_url_char, on_header_field_start,
    on_header_value_start, on_header_value_lws, on_discard_lws, on_chunk_size_start, on_chunk_size, on_req_http, on_chunk_end, expect, go, again, fail, calling, mk_act in *.

Lemma parse_url_live s ch : parse_url_char s ch <> s_dead -> live (parse_url_char s ch) = Some m_url /\ parse_url_char s ch <> s_chunk_data_almost_done.
Proof. unfold parse_url_char. intros H. destruct s; repeat case_match; done. Qed.

Lemma is_dead_spec s : is_dead s = false -> s <> s_dead.
Proof. by intros H ->. Qed.

Lemma simple_coherent q s n ch a : simple q s n ch = Some a -> coherent s a.
Proof.
  intros H. assert (forall s1, is_dead (parse_url_char s1 ch) = false ->
    live (parse_url_char s1 ch) = Some m_url /\ parse_url_char s1 ch <> s_chunk_data_almost_done) as Hurl by (intros s1 Hd; by apply parse_url_live, is_dead_spec).
  destruct s; try discriminate H; open_simple; cbn [mbind option_bind] in H; cases; unfold coherent, held; cbn;
    repeat match goal with |- context [if ?b then _ else _] => destruct b eqn:? end; try tauto;
    try (match goal with H : is_dead (parse_url_char ?s1 _) = false |- _ => destruct (Hurl s1 H) as [-> ?] end);
    split_and?; try done; try (by intros [? ?]); try tauto; try by intros [].
  all: match goal with |- forall m d, _ => intros [] ?; discriminate end.
Qed.

(** It does not see the two fields, and keeps the error and the leniency. *)
Definition same (q q' : http_parser) : Prop := strip q = strip q'.
Lemma same_eq q q' : same q q' -> q' = q.[nread := nread q'].[st := st q'].
Proof. destruct q, q'. unfold same, strip. cbn. intros H. by injection H as -> -> -> -> -> -> -> -> -> -> -> ->. Qed.
Ltac same_cases q q' H :=
  destruct q, q'; unfold same, strip in H; cbn in H; injection H as <- <- <- <- <- <- <- <- <- <- <- <-.
Definition same_act (a a' : act) : Prop :=
  a_reset a = a_reset a' /\ same (a_par a) (a_par a') /\ a_state a = a_state a' /\ a_mark a = a_mark a' /\ a_call a = a_call a' /\ a_end a = a_end a'.
Lemma simple_same q q' s n ch : same q q' -> option_Forall2 same_act (simple q s n ch) (simple q' s n ch).
Proof.
  destruct q as [ty fl s0 h ix le nr cl ma mi sc me er up], q'. unfold same, strip. cbn. intros H. injection H as <- <- <- <- <- <- <- <- <- <- <- <-.
  destruct s; open_simple; unfold header_flags, set_flag, next_index, flag, over; cbn;
    repeat (match goal with |- context [?o ≫= _] => destruct o eqn:?; cbn [mbind option_bind] | |- context [match ?b with _ => _ end] => destruct b eqn:? end; cbn);
    first [apply None_Forall2|apply Some_Forall2; unfold same_act; split_and!; done].
Qed.
Lemma simple_keeps q s n ch a : simple q s n ch = Some a ->
  http_errno (a_par a) = http_errno q /\ lenient_http_headers (a_par a) = lenient_http_headers q.
Proof. intros H. destruct s; try discriminate H; open_simple; cases; cbn; unfold header_flags; repeat case_match; done. Qed.

(** No state that takes several bytes is executed again. *)
Definition multi (s : state) : bool := match s with s_header_field | s_header_value | s_body_identity | s_body_identity_eof | s_chunk_data => true | _ => false end.
Lemma simple_again q s n ch a : simple q s n ch = Some a -> a_end a = Reexecute -> multi (a_state a) = false.
Proof. intros H He. destruct s; try discriminate H; open_simple; cases; cbn in *; repeat case_match; done. Qed.
End HttpStep.
