(* ===== verification/HttpSane.v ===== *)
(** What holds in each state of the HTTP parser: its assertions hold and its reads stay in
    their strings. *)
From S2P Require Import Prelude HttpParser HttpStep.

Module HttpSane.
Import HttpParser HttpStep.

(** * What holds in each state *)

(** The header states of a name, and those of a value. *)
Definition naming (h : header_states) : bool :=
  match h with
  | h_general | h_C | h_CO | h_CON | h_matching_connection | h_matching_proxy_connection | h_matching_content_length
  | h_matching_transfer_encoding | h_matching_upgrade | h_connection | h_content_length | h_transfer_encoding | h_upgrade => true
  | _ => false
  end.
Definition valued (h : header_states) : bool := match h with h_connection | h_transfer_encoding => false | _ => true end.
(** A parser in state [s] with [n] bytes counted; [top] before the next byte is counted. *)
Definition sane_at (top : bool) (q : http_parser) (s : state) (n : Z) : Prop :=
  let len := content_length q in
  match s with
  | s_dead | s_start_req_or_res | s_start_res | s_start_req => upgrade q = false
  | s_req_method => 0 <= index q <= zlen (bytes_of_string (method_name (method q)))
  | s_header_field => naming (header_state q) = true
  | s_header_value => valued (header_state q) = true
  | s_chunk_size_start => flag q F_CHUNKED = true /\ n = if top then 0 else 1
  | s_chunk_size | s_chunk_parameters | s_chunk_size_almost_done => flag q F_CHUNKED = true /\ 0 <= len < ULLONG_MAX
  | s_chunk_data => flag q F_CHUNKED = true /\ 0 < len < ULLONG_MAX
  | s_chunk_data_almost_done => flag q F_CHUNKED = true /\ len = 0
  | s_chunk_data_done => flag q F_CHUNKED = true
  | s_body_identity => 0 < len < ULLONG_MAX
  | _ => True
  end.

Lemma method_len m : 2 <= zlen (bytes_of_string (method_name m)) < 20.
Proof. destruct m; vm_compute; split; discriminate || reflexivity. Qed.
Lemma method_switch_len m i ch m' : method_switch m i ch = Some m' -> i + 1 <= zlen (bytes_of_string (method_name m')).
Proof.
  unfold method_switch. destruct (List.find _ _) as [[[[m1 i1] c1] m2]|] eqn:E; [|done]. cbn. intros [= <-]. apply find_some in E as [Hin H].
  apply andb_true_iff in H as [[_ Hi]%andb_true_iff _]. apply Z.eqb_eq in Hi as ->. revert Hin. unfold method_table.
  repeat (intros [[= <- <- <- <-]|Hin]; [vm_compute; discriminate|revert Hin]). done.
Qed.
Lemma method_char m i : 0 <= i <= zlen (bytes_of_string (method_name m)) ->
  exists x, zget (method_strings m) i = Some x /\ (x <> 0 -> i < zlen (bytes_of_string (method_name m))).
Proof.
  intros Hi. unfold method_strings. destruct (Z.eq_dec i (zlen (bytes_of_string (method_name m)))) as [->|Hne].
  - exists 0. split; [by apply zget_middle|done].
  - destruct (zget_is_Some (bytes_of_string (method_name m) ++ [0]) i) as [x E]; [zlen_simpl; lia|]. exists x. split; [done|lia].
Qed.

Lemma unhex_range ch : -1 <= table unhex ch <= 15.
Proof.
  unfold table. assert (Forall (fun v => -1 <= v <= 15) unhex) as H by (apply Forall_forall; intros v Hv; revert v Hv; apply Forall_forall; repeat (constructor; [lia|]); constructor).
  destruct (unhex !! Z.to_nat ch) eqn:E; [exact (Forall_lookup_1 _ _ _ _ H E)|cbn; lia].
Qed.
(** The rounds a byte may still take. *)
Definition rank (s : state) : nat :=
  match s with
  | s_header_value_lws | s_header_value_discard_lws => 4
  | s_header_field_start | s_res_status_code => 3
  | s_headers_almost_done | s_start_req_or_res | s_res_status_start | s_body_identity | s_header_value => 2
  | _ => 1
  end.
Lemma simple_again_rank q s n ch a : simple q s n ch = Some a -> a_end a = Reexecute -> (rank (a_state a) < rank s)%nat.
Proof. intros H He. destruct s; try discriminate H; open_simple; cases; cbn in *; repeat case_match; try done; lia. Qed.

Definition special (s : state) : bool :=
  match s with
  | s_header_field | s_header_value | s_headers_almost_done | s_headers_done | s_body_identity | s_body_identity_eof | s_message_done | s_chunk_data => true
  | _ => false
  end.
Lemma parse_url_sane top q s ch n : is_dead (parse_url_char s ch) = false -> sane_at top q (parse_url_char s ch) n.
Proof. unfold parse_url_char. intros H. destruct s; repeat case_match; done. Qed.
Definition sane_after (n : Z) (a : act) : Prop :=
  let n := if a_reset a then 0 else n in
  match a_end a with Break => sane_at true (a_par a) (a_state a) n | Reexecute => sane_at false (a_par a) (a_state a) n | Error _ => True end.
Lemma method_sane q n ch : sane_at false q s_req_method n -> exists a, on_req_method q s_req_method ch = Some a /\ sane_after n a.
Proof.
  intros H. unfold sane_at in H. destruct (method_char _ _ H) as (x & Ex & Hx). pose proof (method_len (method q)). unfold on_req_method. destruct (Z.eqb_spec ch 0); [by eexists|].
  rewrite Ex. cbn [mbind option_bind]. destruct ((ch =? 32) && (x =? 0)); [by eexists|].
  destruct (Z.eqb_spec ch x) as [->|].
  - eexists. split; [reflexivity|]. unfold sane_after, sane_at. cbn. rewrite Z.mod_small by lia. specialize (Hx ltac:(done)). lia.
  - destruct (((65 <=? ch) && (ch <=? 90)) || (ch =? 45)); [|by eexists]. destruct (method_switch (method q) (index q) ch) as [m|] eqn:E; [|by eexists].
    eexists. split; [reflexivity|]. unfold sane_after, sane_at. cbn. apply method_switch_len in E. rewrite Z.mod_small by lia. lia.
Qed.
Lemma simple_sane q s n ch : special s = false -> sane_at false q s n -> exists a, simple q s n ch = Some a /\ sane_after n a.
Proof.
  intros Hs H. pose proof (unhex_range ch). assert (ULLONG_MAX = 18446744073709551615) as Hm by done.
  assert (forall q s1, exists a, on_url_char q s1 ch = Some a /\ sane_after n a) as Hurl.
  { intros q1 s1. unfold on_url_char. destruct (is_dead (parse_url_char s1 ch)) eqn:E; eexists; (split; [reflexivity|]); [done|]. by apply parse_url_sane. }
  destruct s; try discriminate Hs; try (by apply method_sane); unfold simple, on_url_end;
    try (repeat match goal with |- context [if ?b then _ else _] => destruct b end; first [apply Hurl|by eexists]).
  all: open_simple; clear Hurl; unfold sane_at in H; cbv zeta in H.
  8: { destruct (ch =? 32); eexists; (split; [reflexivity|]); [done|]. unfold sane_after. cbn. match goal with |- context [if ?b then _ else _] => destruct b eqn:E end; [done|]. by apply parse_url_sane. }
  all: try (match type of H with flag _ _ = _ => rewrite H | _ /\ _ => destruct H as [Hf H]; rewrite Hf; try rewrite H end); cbn [negb orb Z.eqb Pos.eqb].
  all: repeat match goal with |- context [if ?b then _ else _] => destruct b eqn:? | |- context [match ?b with _ => _ end] => destruct b eqn:? end; try (eexists; split; [reflexivity|]).
  all: unfold sane_after, sane_at; cbn; try done.
  all: try (by match goal with E : header_state _ = _ |- valued _ = true => cbn in E; rewrite E end).
  - match goal with h : http_method |- _ => pose proof (method_len h) end. lia.
  - split; [done|]. match goal with E : (table unhex ch =? -1) = false |- _ => apply Z.eqb_neq in E end. lia.
  - split; [done|]. match goal with E : (table unhex ch =? -1) = false |- _ => apply Z.eqb_neq in E end.
    match goal with E : (_ <? content_length q) = false |- _ => apply Z.ltb_ge in E; change ((ULLONG_MAX - 16) / 16) with 1152921504606846974 in E end.
    unfold u64. rewrite Z.mod_small by lia. lia.
  - split; [done|]. match goal with E : (content_length q =? 0) = false |- _ => apply Z.eqb_neq in E end. lia.
Qed.
End HttpSane.
