(* ===== verification/HttpBytes.v ===== *)
(** The HTTP parser as a machine that takes one byte at a time, against which its rounds
    are measured, and what the machine keeps. *)
From S2P Require Import Prelude HttpParser HttpStep HttpSane.

Module HttpBytes.
Import HttpParser HttpStep HttpSane.
#[local] Existing Instance exec_rebuild.

(** * One byte at a time *)

Section Bytes.
Context {client : Client}.
Let Hhc : blind hc := hc_blind.
Let Hmax : 0 < max < 2 ^ 31 := max_range.
Abbreviation cb := (record hc).
Abbreviation exec := (exec (S := list event)).

(** The parser with the variables stored. *)
Definition sync (x : exec) : http_parser := (par x).[nread := nrd x].[st := p_state x].

(** What a round with one byte comes to: the byte is done, the state is executed again,
    an error, the end of the connection's HTTP, or no result. *)
Inductive bout :=
  | BNext (q : http_parser) (t : list event) | BAgain (q : http_parser) (t : list event) | BErr (e : http_errno_t)
  | BExit (q : http_parser) (t : list event) | BStuck.

Definition all_marks : list mark := [m_header_field; m_header_value; m_url; m_body; m_status].
(** What is marked and not handed over, as events. *)
Definition rest_events (x : exec) (buf : list Z) : list event :=
  omap (fun m => match marks x m with Some a => Some (data_event m (drop (Z.to_nat a) buf)) | None => None end) all_marks.
Definition start_exec (q : http_parser) : exec := mk_exec q (st q) (nread q) (start_marks (st q)) 0 [].
Definition bround (q : http_parser) (c : Z) : bout :=
  match round_of cb max [c] (lenient_http_headers q) (start_exec q) with
  | Some (Next x) => BNext (sync x) (us x ++ rest_events x [c])
  | Some (Again x) => BAgain (sync x) (us x)
  | Some (Return q s _) => if is_ok (http_errno q) then BExit q s else BErr (http_errno q)
  | None => BStuck
  end.

(** At most one mark is set, the one of the state; a chunk just read may still be marked. *)
Definition only (x : exec) (cur : option (mark * Z)) : Prop :=
  forall m, marks x m = match cur with Some (m', a) => if decide (m = m') then Some a else None | None => None end.
Definition fits (s : state) (pre : list Z) (ended : Prop) (cur : option (mark * Z)) : Prop :=
  match cur with
  | Some (m, a) => 0 <= a <= zlen pre /\
      (live s = Some m \/ m = m_body /\ live s = None /\ a < zlen pre /\
        (s = s_chunk_data_almost_done \/ ended /\ (s = s_body_identity \/ s = s_body_identity_eof \/ s = s_chunk_data)))
  | None => live s = None
  end.
(** Data of a mark that is not handed over, last. *)
Definition pend (cur : option (mark * Z)) (pre : list Z) (r : list event) : list event :=
  match cur with
  | Some (m, a) => match drop (Z.to_nat a) pre with [] => r | d => push r (data_event m d) end
  | None => r
  end.

(** An execution at [pre] stands where the machine on bytes stands with [q] and [t]. *)
Record stands (ended : Prop) (pre : list Z) (x : exec) (q : http_parser) (t : list event) : Prop := {
  A_same : same (par x) q;
  A_state : p_state x = st q;
  A_nread : nrd x = nread q;
  A_ok : http_errno q = HPE_OK;
  A_pos : p x = zlen pre;
  A_cur : exists cur, only x cur /\ fits (st q) pre ended cur /\ joined_rev t = pend cur pre (joined_rev (us x)) }.

Lemma start_marks_live s m : start_marks s m = if decide (live s = Some m) then Some 0 else None.
Proof. destruct s, m; reflexivity. Qed.

Lemma is_ok_eq e : e = HPE_OK -> is_ok e = true.
Proof. by intros ->. Qed.
Lemma notify_rec x e er k : http_errno (par x) = HPE_OK -> e <> headers_complete ->
  CALLBACK_NOTIFY_ cb x e er k = k (mk_exec ((par x).[st := p_state x]) (p_state x) (nrd x) (marks x) (p x) (us x ++ [e])).
Proof.
  intros Ho He. unfold CALLBACK_NOTIFY_. rewrite (is_ok_eq _ Ho). cbn [negb]. unfold record.
  replace (match e with headers_complete => _ | _ => 0 end) with 0 by (by destruct e). rewrite Z.eqb_refl. cbn [negb]. cbn. by rewrite Ho.
Qed.
Lemma data_not_complete m d : data_event m d <> headers_complete.
Proof. by destruct m. Qed.
Lemma data_rec buf x m a stop er k d : http_errno (par x) = HPE_OK -> marks x m = Some a -> zslice buf a (stop - a) = Some d ->
  CALLBACK_DATA_ cb buf x m stop er k =
    k (set_marks (mk_exec ((par x).[st := p_state x]) (p_state x) (nrd x) (marks x) (p x) (us x ++ [data_event m d])) m None).
Proof.
  intros Ho Hm Hd. unfold CALLBACK_DATA_. rewrite (is_ok_eq _ Ho), Hm, Hd. cbn [negb mbind option_bind].
  by rewrite notify_rec by (done || apply data_not_complete).
Qed.
Lemma data_none buf x m stop er k : http_errno (par x) = HPE_OK -> marks x m = None -> CALLBACK_DATA_ cb buf x m stop er k = k x.
Proof. intros Ho Hm. unfold CALLBACK_DATA_. by rewrite (is_ok_eq _ Ho), Hm. Qed.

(** No mark at the very end. *)
Definition moved (pre : list Z) (x : exec) : Prop := forall m a, marks x m = Some a -> a < zlen pre.
Lemma moved_none pre x : (forall m, marks x m = None) -> moved pre x.
Proof. intros H m a. by rewrite H. Qed.

(** The outcome of a round against that of the machine on bytes. *)
Definition agrees (ended : Prop) (pre : list Z) (c : Z) (t : list event) (r : option (round (S := list event))) (b : bout) : Prop :=
  match b with
  | BNext q u => exists x, r = Some (Next x) /\ moved (pre ++ [c]) x /\ stands ended (pre ++ [c]) (x.[p := p x + 1]) q (t ++ u)
  | BAgain q u => exists x, r = Some (Again x) /\ stands ended pre x q (t ++ u)
  | BErr e => exists q s, r = Some (Return q s (zlen pre)) /\ http_errno q = e
  | BExit q u => exists s, r = Some (Return q s (zlen pre + 1)) /\ joined_rev s = joined_rev (t ++ u)
  | BStuck => True
  end.

Lemma pend_snoc m a pre c J : 0 <= a <= zlen pre -> push (pend (Some (m, a)) pre J) (data_event m [c]) = pend (Some (m, a)) (pre ++ [c]) J.
Proof.
  intros Ha. unfold pend. rewrite drop_app_le by (unfold zlen in *; lia). destruct (drop (Z.to_nat a) pre) as [|y l]; [done|].
  cbn [app]. by rewrite push_push.
Qed.
Lemma pend_end (pre : list Z) J m : pend (Some (m, zlen pre)) pre J = J.
Proof. unfold pend, zlen. by rewrite Nat2Z.id, drop_all. Qed.
Lemma pend_send m a (pre : list Z) J : push (pend (Some (m, a)) pre J) (data_event m []) = push J (data_event m (drop (Z.to_nat a) pre)).
Proof. unfold pend. destruct (drop (Z.to_nat a) pre) as [|y l]; [done|]. by rewrite push_push, app_nil_r. Qed.
Lemma slice_to (pre rest : list Z) a : 0 <= a <= zlen pre -> zslice (pre ++ rest) a (zlen pre - a) = Some (drop (Z.to_nat a) pre).
Proof.
  intros H. unfold zslice. zlen_simpl. pose proof (zlen_nonneg rest). zcases. f_equal. unfold zlen in *.
  rewrite drop_app_le, take_app_le by (rewrite ?length_drop; lia). apply take_ge. rewrite length_drop. lia.
Qed.

Lemma rest_one x m buf a : (forall m', marks x m' = if decide (m' = m) then Some a else None) -> rest_events x buf = [data_event m (drop (Z.to_nat a) buf)].
Proof. intros H. unfold rest_events, all_marks. simpl. rewrite !H. by destruct m. Qed.
Lemma rest_none x buf : (forall m, marks x m = None) -> rest_events x buf = [].
Proof. intros H. unfold rest_events, all_marks. simpl. by rewrite !H. Qed.

Lemma same_errno q q' : same q q' -> http_errno q = http_errno q'.
Proof. intros H%(f_equal http_errno). exact H. Qed.
Lemma same_lenient q q' : same q q' -> lenient_http_headers q = lenient_http_headers q'.
Proof. intros H%(f_equal lenient_http_headers). exact H. Qed.
Lemma same_sync q q' n s : same q q' -> q.[nread := n].[st := s] = q'.[nread := n].[st := s].
Proof. destruct q, q'. unfold same, strip. cbn. intros H. by injection H as -> -> -> -> -> -> -> -> -> -> -> ->. Qed.

(** Setting a mark. *)
Lemma mark_ok pre x s0 mo cur : only x cur -> fits s0 pre False cur -> (is_Some mo -> live s0 = None /\ s0 <> s_chunk_data_almost_done) ->
  p x = zlen pre ->
  exists mk cur', (match mo with Some m => MARK x m | None => x end) = mk_exec (par x) (p_state x) (nrd x) mk (p x) (us x) /\
    (forall m, mk m = match cur' with Some (m', a) => if decide (m = m') then Some a else None | None => None end) /\
    (forall J, pend cur' pre J = pend cur pre J) /\
    match (match mo with Some m => Some m | None => live s0 end) with
    | Some h => exists a, cur' = Some (h, a) /\ 0 <= a <= zlen pre
    | None => cur' = cur
    end.
Proof.
  intros Ho Hf Hm Hp. pose proof (zlen_nonneg pre). destruct mo as [m|].
  - destruct (Hm (mk_is_Some _ _ eq_refl)) as [Hl Hs]. destruct cur as [[m0 a0]|].
    { destruct Hf as [_ [?|(_ & _ & _ & [?|[[] _]])]]; congruence. }
    exists (fun m' => if decide (m' = m) then Some (p x) else marks x m'), (Some (m, p x)).
    split; [unfold MARK; rewrite Ho; by destruct x|]. split; [intros m'; specialize (Ho m'); cbn in Ho; by rewrite Ho|].
    split; [intros J; rewrite Hp; apply pend_end|]. exists (p x). split; [done|lia].
  - exists (marks x), cur. split; [by destruct x|]. split; [done|]. split; [done|].
    destruct (live s0) as [h|] eqn:El; [|done]. destruct cur as [[m0 a0]|]; cbn in Hf; [|congruence]. destruct Hf as [Ha [Hl|(_ & Hl & _)]]; [|congruence].
    simplify_eq. by exists a0.
Qed.
Lemma start_only q : only (start_exec q) (match live (st q) with Some m => Some (m, 0) | None => None end).
Proof. intros m. cbn. rewrite start_marks_live. destruct (live (st q)) as [m'|]; [|done]. destruct (decide (m = m')), (decide (Some m' = Some m)); congruence. Qed.
Lemma start_fits s : fits s [] False (match live s with Some m => Some (m, 0) | None => None end).
Proof. unfold fits. destruct (live s) eqn:El; [|done]. split; [done|]. by left. Qed.

(** States that take one byte. *)
Definition base (x : exec) (a : act) : exec :=
  mk_exec (if a_reset a then (a_par a).[nread := 0] else a_par a) (a_state a) (if a_reset a then 0 else nrd x) (marks x) (p x) (us x).
Definition finish (a : act) (x : exec) : option round :=
  match a_end a with Break => Some (Next x) | Reexecute => Some (Again x) | Error e => error x e end.
Lemma run_act_eq buf x a : run_act cb buf x a =
  let x := match a_mark a with Some m => MARK (base x a) m | None => base x a end in
  match a_call a with
  | NoCall => finish a x
  | Data m advance => CALLBACK_DATA_ cb buf x m (p x) (if advance then p x + 1 else p x) (finish a)
  | Notify e advance => CALLBACK_NOTIFY_ cb x e (if advance then p x + 1 else p x) (finish a)
  end.
Proof. destruct x, a as [[] ? ? [] ? ?]; reflexivity. Qed.

Lemma base_same x x' a a' : same_act a a' -> same (par (base x a)) (par (base x' a')).
Proof. intros (E & H & _). cbn. rewrite <- E. by destruct (a_reset a). Qed.
Lemma base_errno x a : http_errno (a_par a) = HPE_OK -> http_errno (par (base x a)) = HPE_OK.
Proof. intros H. cbn. by destruct (a_reset a). Qed.

(** Handing over what is marked. *)
Lemma send pre rest x m cur stop er k : http_errno (par x) = HPE_OK -> only x cur -> stop = zlen pre ->
  (cur = None \/ exists a, cur = Some (m, a) /\ 0 <= a <= zlen pre) ->
  exists q' mk, CALLBACK_DATA_ cb (pre ++ rest) x m stop er k =
      k (mk_exec q' (p_state x) (nrd x) mk (p x) (us x ++ match cur with Some (m, a) => [data_event m (drop (Z.to_nat a) pre)] | None => [] end)) /\
    (forall m, mk m = None) /\ same q' (par x) /\ http_errno q' = HPE_OK.
Proof.
  intros Ho Hx -> [->|(a & -> & Ha)].
  - rewrite data_none; [|done|apply Hx]. exists (par x), (marks x). split; [rewrite app_nil_r; by destruct x|]. split; [apply Hx|]. done.
  - assert (marks x m = Some a) as Em by (rewrite Hx; by destruct (decide (m = m))). rewrite (data_rec _ _ _ a _ _ _ (drop (Z.to_nat a) pre)); [|done|done|by apply slice_to].
    eexists _, _. split; [reflexivity|]. split; [|by destruct (par x)]. intros m'. cbn. destruct (decide (m' = m)) as [|Hne]; [done|]. rewrite Hx. by destruct (decide (m' = m)).
Qed.
Lemma run_agrees pre c post x q t a a' : stands False pre x q t -> same_act a a' -> coherent (st q) a ->
  http_errno (a_par a) = HPE_OK ->
  agrees False pre c t (run_act cb (pre ++ c :: post) x a)
    (match run_act cb [c] (start_exec q) a' with
     | Some (Next x) => BNext (sync x) (us x ++ rest_events x [c])
     | Some (Again x) => BAgain (sync x) (us x)
     | Some (Return q s _) => if is_ok (http_errno q) then BExit q s else BErr (http_errno q)
     | None => BStuck
     end).
Proof.
  intros [Hs Hst Hn Hok Hp (cur & Hcur & Hfit & Hj)] Hsa Hc Ho. pose proof Hsa as (Er & Hsq & Es & Em & Ec & Ee).
  assert (http_errno (a_par a') = HPE_OK) as Ho' by (by rewrite <- (same_errno _ _ Hsq)).
  rewrite !run_act_eq, <- Em, <- Ec. pose proof (base_same x (start_exec q) a a' Hsa) as Hbs.
  pose proof (base_errno x a Ho) as Hbo. pose proof (base_errno (start_exec q) a' Ho') as Hbo'.
  assert ((exists e, a_end a = Error e) \/ (a_end a = Break \/ a_end a = Reexecute)) as [[e Een]|Een] by (destruct (a_end a); eauto).
  { unfold coherent in Hc. rewrite Een in Hc. destruct Hc as (Hcall & He & _). rewrite Hcall. unfold finish. rewrite <- Ee, Een. unfold error, RETURN. cbn.
    destruct (is_ok e) eqn:Eok; [by destruct e|].
    assert (p (match a_mark a with Some m => MARK (base x a) m | None => base x a end) = zlen pre) as -> by (rewrite <- Hp; unfold MARK; destruct (a_mark a); [by destruct (marks (base x a) _)|done]).
    eexists _, _. split; [reflexivity|done]. }
  pose proof Hc as Hcc. unfold coherent in Hcc.
  assert (exists P, (is_Some (a_mark a) -> live (st q) = None /\ st q <> s_chunk_data_almost_done) /\ P /\ a_state a <> s_chunk_data_almost_done /\
    P = match a_call a with
      | Data m _ => (held (st q) a = Some m \/ st q = s_chunk_data_almost_done /\ m = m_body) /\ live (a_state a) = None /\ (a_mark a = None -> st q = s_chunk_data_almost_done \/ live (st q) = Some m)
      | Notify e _ => held (st q) a = None /\ live (a_state a) = None /\ e <> headers_complete /\ (forall m d, e <> data_event m d) /\ st q <> s_chunk_data_almost_done
      | NoCall => live (a_state a) = held (st q) a /\ st q <> s_chunk_data_almost_done
      end) as (P & Hmk & Hcall & Hns & ->).
  { destruct Een as [Een|Een]; rewrite Een in Hcc; destruct Hcc as (? & ? & ?); eauto. }
  clear Hc Hcc. unfold held in Hcall.
  destruct (mark_ok pre (base x a) (st q) (a_mark a) cur Hcur Hfit Hmk Hp) as (mk & cur' & Ex & Hmk1 & Hpend & Hheld).
  destruct (mark_ok [] (base (start_exec q) a') (st q) (a_mark a) _ (start_only q) (start_fits (st q)) Hmk eq_refl) as (mk' & cur0 & Ex' & Hmk1' & _ & Hheld').
  rewrite Ex, Ex'. clear Ex Ex'.
  assert (Hcn : live (st q) = None -> st q <> s_chunk_data_almost_done -> cur = None)
    by (intros Hl Hc; destruct cur as [[m0 a0]|]; [|done]; destruct Hfit as [_ [?|(_ & _ & _ & [?|[[] _]])]]; congruence).
  destruct (a_call a) as [|m adv|e adv] eqn:Ecall; unfold finish.
  - (* no callback *) destruct Hcall as [Hlive Hnc].
    assert (moved (pre ++ [c]) (mk_exec (par (base x a)) (p_state (base x a)) (nrd (base x a)) mk (p (base x a)) (us (base x a)))) as Hmv.
    { intros m1 a1 E1. cbn in E1. rewrite Hmk1 in E1. destruct (match a_mark a with Some m => Some m | None => _ end) as [h|] eqn:Eh.
      - destruct Hheld as (a2 & -> & Ha2). destruct (decide (m1 = h)); [|done]. simplify_eq. zlen_simpl. lia.
      - subst cur'. rewrite Hcn in E1 by (done || by destruct (a_mark a)). done. }
    destruct Een as [Een|Een]; rewrite <- Ee, Een; (eexists; split; [reflexivity|]); try (split; [exact Hmv|]);
      (split; [exact Hbs|exact Es|cbn; by rewrite <- Er, Hn|exact Hbo'|cbn; zlen_simpl; lia|]); exists cur'; (split; [exact Hmk1|]);
      cbn [us app base start_exec]; change (st (sync _)) with (a_state a'); rewrite <- Es; change (us (over _ _)) with (us x); unfold fits; rewrite Hlive;
      destruct (match a_mark a with Some m => Some m | None => _ end) as [h|] eqn:Eh.
    + destruct Hheld as (a1 & -> & Ha1). destruct Hheld' as (a2 & -> & Ha2). split; [split; [zlen_simpl; lia|by left]|].
      rewrite (rest_one _ h _ a2) by exact Hmk1'. assert (a2 = 0) as -> by (change (zlen []) with 0 in Ha2; lia). cbn [drop Z.to_nat].
      rewrite joined_snoc, Hj, <- Hpend. by apply pend_snoc.
    + assert (live (st q) = None) as Hl by (by destruct (a_mark a)). rewrite Hl in Hheld'. subst cur0 cur'. rewrite (Hcn Hl Hnc) in *. split; [done|].
      rewrite rest_none by exact Hmk1'. by rewrite app_nil_r.
    + destruct Hheld as (a1 & -> & Ha1). split; [split; [lia|by left]|]. by rewrite Hpend, app_nil_r.
    + assert (live (st q) = None) as Hl by (by destruct (a_mark a)). subst cur'. rewrite (Hcn Hl Hnc) in *. by rewrite app_nil_r.
  - (* data *) destruct Hcall as (Hm & Hlive & Hma).
    assert ((cur' = None /\ cur0 = None \/ exists a1, cur' = Some (m, a1) /\ 0 <= a1 <= zlen pre /\ (cur0 = Some (m, 0) \/ cur0 = None /\ a1 < zlen pre)) /\
      (cur0 = None \/ cur0 = Some (m, 0))) as [Hcs Hc0].
    { destruct (match a_mark a with Some m => Some m | None => _ end) as [h|] eqn:Eh.
      - assert (h = m) as ->.
        { destruct Hm as [?|[E1 E2]]; [congruence|]. rewrite E1 in Eh. destruct (a_mark a) as [m1|] eqn:Ea; [|done].
          destruct (Hmk (mk_is_Some _ _ eq_refl)) as [_ Hx]. by rewrite E1 in Hx. }
        destruct Hheld as (a1 & -> & Ha1), Hheld' as (a2 & -> & Ha2). assert (a2 = 0) as -> by (change (zlen []) with 0 in Ha2; lia).
        split; [|by right]. right. exists a1. split; [done|]. split; [done|by left].
      - destruct Hm as [?|[E1 ->]]; [done|]. rewrite E1 in Hheld'. cbn in Hheld'. subst cur0 cur'. split; [|by left].
        destruct cur as [[m1 a1]|]; [|by left]. right. exists a1. destruct Hfit as [Ha [?|(-> & _ & Hlt & _)]]; [by rewrite E1 in *|].
        split; [done|]. split; [done|by right]. }
    match goal with |- agrees _ _ _ _ (CALLBACK_DATA_ _ _ ?X _ _ ?er ?k) _ =>
      destruct (send pre (c :: post) X m cur' (p X) er k Hbo Hmk1 Hp) as (q1 & mk1 & -> & Hn1 & Hs1 & Ho1) end.
    { destruct Hcs as [[-> _]|(a1 & -> & Ha1 & _)]; [by left|right; by exists a1]. }
    match goal with |- agrees _ _ _ _ _ (match CALLBACK_DATA_ _ _ ?X _ _ ?er ?k with _ => _ end) =>
      destruct (send [] [c] X m cur0 (p X) er k Hbo' Hmk1' eq_refl) as (q2 & mk2 & E2 & Hn2 & Hs2 & Ho2) end.
    { destruct Hc0 as [-> | ->]; [by left|right; by exists 0]. }
    cbn [app] in E2. rewrite E2. clear E2.
    assert (joined_rev (t ++ (us (base (start_exec q) a') ++ match cur0 with Some (m, a) => [data_event m (drop (Z.to_nat a) [])] | None => [] end)) =
      joined_rev (us x ++ match cur' with Some (m, a) => [data_event m (drop (Z.to_nat a) pre)] | None => [] end)) as Hje.
    { cbn [us base start_exec app]. rewrite <- Hpend in Hj. destruct Hcs as [[-> ->]|(a1 & -> & Ha1 & [->|[-> Hlt]])].
      - by rewrite !app_nil_r.
      - cbn [drop Z.to_nat]. rewrite !joined_snoc, Hj. apply pend_send.
      - rewrite app_nil_r, joined_snoc, Hj. unfold pend. destruct (drop (Z.to_nat a1) pre) eqn:Ed; [|done].
        apply (f_equal length) in Ed. rewrite length_drop in Ed. unfold zlen in *. simpl in Ed. lia. }
    destruct Een as [Een|Een]; rewrite <- Ee, Een; (eexists; split; [reflexivity|]); try (split; [by apply moved_none|]).
    all: split; [exact (eq_trans Hs1 (eq_trans Hbs (eq_sym Hs2)))|exact Es|cbn; by rewrite <- Er, Hn|exact Ho2|cbn; zlen_simpl; lia|].
    all: exists None; split; [exact Hn1|]; split; [cbn; by rewrite <- Es|]. all: cbn [us pend].
    + rewrite rest_none by exact Hn2. rewrite app_nil_r. exact Hje.
    + exact Hje.
  - (* a notification *) destruct Hcall as (Hh & Hlive & Hnc & _ & Hna). rewrite Hh in *.
    assert (live (st q) = None) as Hl by (by destruct (a_mark a)). rewrite Hl in Hheld'. subst cur' cur0. rewrite (Hcn Hl Hna) in *.
    rewrite !notify_rec by done. destruct Een as [Een|Een]; rewrite <- Ee, Een; (eexists; split; [reflexivity|]); try (split; [by apply moved_none|]).
    all: split; [exact Hbs|exact Es|cbn; by rewrite <- Er, Hn|exact Hbo'|cbn; zlen_simpl; lia|].
    all: exists None; split; [exact Hmk1|]; split; [cbn; by rewrite <- Es|]. all: cbn [us pend]. 1: rewrite rest_none by exact Hmk1'.
    all: cbn [us base start_exec app]; change (us (over _ _)) with (us x ++ [e]); by rewrite !joined_snoc, Hj.
Qed.

Lemma round_of_simple buf le x c : zget buf (p x) = Some c -> special (p_state x) = false ->
  round_of cb max buf le x = a ← simple (par x) (p_state x) (nrd x) c; run_act cb buf x a.
Proof. intros Hc Hs. unfold round_of. rewrite Hc. cbn [mbind option_bind]. by destruct (p_state x). Qed.

Lemma simple_agrees pre c post x q t le : stands False pre x q t -> special (st q) = false ->
  agrees False pre c t (round_of cb max (pre ++ c :: post) le x) (bround q c).
Proof.
  intros Hx Hsp. pose proof Hx as [Hs Hst Hn Hok Hp _]. unfold bround.
  rewrite (round_of_simple (pre ++ c :: post) le x c), (round_of_simple [c] _ (start_exec q) c); [|done|done|by apply zget_middle|by rewrite Hst].
  rewrite Hst, Hn. pose proof (simple_same (par x) q (st q) (nread q) c Hs) as H2. cbn [start_exec par p_state nrd].
  destruct (simple (par x) (st q) (nread q) c) as [a|] eqn:Ea; inversion H2 as [? a' Ha|]; cbn [mbind option_bind]; [|done].
  apply run_agrees; [done|done|by eapply simple_coherent|]. rewrite (proj1 (simple_keeps _ _ _ _ _ Ea)). by rewrite (same_errno _ _ Hs).
Qed.

(** The states around the body. *)
Definition between (s : state) : Prop := s = s_headers_almost_done \/ s = s_headers_done \/ s = s_message_done.
(** The parser after [on_headers_complete], if it goes on. *)
Definition replied (q : http_parser) : option http_parser :=
  let q := q.[upgrade := upgrading q] in
  let r := hc q in
  if r =? 0 then Some q else if r =? 2 then Some (set_flag (q.[upgrade := true]) F_SKIPBODY) else if r =? 1 then Some (set_flag q F_SKIPBODY) else None.
Lemma almost_done_eq x c : http_errno (par x) = HPE_OK -> round_headers_almost_done cb x c =
  if negb (c =? LF) then error x HPE_STRICT
  else if flag (par x) F_TRAILING then
    Some (Again (mk_exec ((par x).[st := s_message_done]) s_message_done (nrd x) (marks x) (p x) (us x ++ [chunk_complete])))
  else if flag (par x) F_CHUNKED && flag (par x) F_CONTENTLENGTH then error x HPE_UNEXPECTED_CONTENT_LENGTH
  else
    match replied (par x) with
    | Some q => Some (Again (mk_exec q s_headers_done (nrd x) (marks x) (p x) (us x ++ [headers_complete])))
    | None =>
        let q := (par x).[upgrade := upgrading (par x)].[nread := nrd x].[http_errno := HPE_CB headers_complete] in
        RETURN (mk_exec q s_headers_done (nrd x) (marks x) (p x) (us x ++ [headers_complete])) (p x)
    end.
Proof.
  intros Ho. unfold round_headers_almost_done. destruct (c =? LF); [|done]. cbn [negb]. destruct x as [qx sx nx mx px ux]. cbn [par] in *.
  destruct (flag qx F_TRAILING); [by rewrite notify_rec|]. destruct (flag qx F_CHUNKED && flag qx F_CONTENTLENGTH); [done|].
  unfold replied, record. cbn [us]. set (q1 := qx.[upgrade := upgrading qx]). assert (http_errno q1 = HPE_OK) as Ho1 by done. clearbody q1.
  destruct (hc q1 =? 0); [by rewrite Ho1|]. destruct (hc q1 =? 2); [|destruct (hc q1 =? 1); [|done]]; by replace (http_errno (set_flag _ _)) with HPE_OK.
Qed.

(** What the end of the headers comes to: the message is complete, and the protocol
    changed or not, or there is a body. *)
Inductive turn := Leave | Complete | To (s : state).
Definition turn_of (q : http_parser) : turn :=
  let hasBody := flag q F_CHUNKED || ((0 <? content_length q) && negb (content_length q =? ULLONG_MAX)) in
  if upgrade q && (bool_decide (method q = HTTP_CONNECT) || flag q F_SKIPBODY || negb hasBody) then Leave
  else if flag q F_SKIPBODY then Complete
  else if flag q F_CHUNKED then To s_chunk_size_start
  else if content_length q =? 0 then Complete
  else if negb (content_length q =? ULLONG_MAX) then To s_body_identity
  else if negb (http_message_needs_eof q) then Complete
  else To s_body_identity_eof.
Definition completed (x : exec) (n : Z) : exec :=
  let q := par x in mk_exec (q.[st := NEW_MESSAGE q]) (NEW_MESSAGE q) n (marks x) (p x) (us x ++ [message_complete]).
Lemma headers_done_eq x c : http_errno (par x) = HPE_OK -> round_headers_done cb x c =
  if negb (c =? LF) then error x HPE_STRICT
  else
    let x := mk_exec ((par x).[nread := 0]) (p_state x) 0 (marks x) (p x) (us x) in
    match turn_of (par x) with
    | Leave => RETURN (completed x 0) (p x + 1)
    | Complete => Some (Next (completed x 0))
    | To s => Some (Next (mk_exec (par x) s 0 (marks x) (p x) (us x)))
    end.
Proof.
  intros Ho. unfold round_headers_done. destruct (c =? LF); [|done]. cbn [negb]. destruct x as [qx sx nx mx px ux]. cbn [par] in *. cbv zeta.
  set (q := qx.[nread := 0]). assert (http_errno q = HPE_OK) as Hq by done. clearbody q. clear Ho. cbn [par]. unfold turn_of. cbv zeta.
  repeat match goal with |- (if ?b then _ else _) = match (if ?b then _ else _) with _ => _ end => destruct b end; by rewrite ?notify_rec.
Qed.
Lemma message_done_eq x : http_errno (par x) = HPE_OK -> round_message_done cb x =
  if upgrade (par x) then RETURN (completed x (nrd x)) (p x + 1) else Some (Next (completed x (nrd x))).
Proof. intros Ho. unfold round_message_done. rewrite notify_rec by done. by destruct x. Qed.

Lemma same_flag q q' f : same q q' -> flag q f = flag q' f.
Proof. intros H. by same_cases q q' H. Qed.
Lemma same_replied q q' : same q q' -> option_Forall2 (fun a b => same a b /\ http_errno a = http_errno q) (replied q) (replied q').
Proof using Hhc.
  intros H. unfold replied. assert (upgrading q = upgrading q') as Eu by (by same_cases q q' H). rewrite Eu.
  assert (same (q.[upgrade := upgrading q']) (q'.[upgrade := upgrading q'])) as Hs by (clear Eu; by same_cases q q' H).
  set (a := q.[upgrade := _]) in *. set (b := q'.[upgrade := _]) in *. assert (hc a = hc b) as -> by (rewrite Hhc, (Hhc b); by f_equal).
  assert (http_errno a = http_errno q) as Ha by done. clearbody a b.
  destruct (hc b =? 0); [constructor; done|]. destruct (hc b =? 2); [constructor|destruct (hc b =? 1); constructor]; same_cases a b Hs; done.
Qed.
Lemma same_turn q q' : same q q' -> turn_of q = turn_of q'.
Proof. intros H. by same_cases q q' H. Qed.
Lemma same_new_message q q' : same q q' -> NEW_MESSAGE q = NEW_MESSAGE q'.
Proof. intros H. by same_cases q q' H. Qed.

Lemma new_message_live q : live (NEW_MESSAGE q) = None.
Proof. unfold NEW_MESSAGE, start_state. destruct (http_should_keep_alive q), (type q); done. Qed.
Lemma turn_live q s : turn_of q = To s -> live s = None.
Proof. unfold turn_of. intros H. repeat case_match; simplify_eq; done. Qed.
Lemma error_agrees pre c t x y e : p x = zlen pre -> e <> HPE_OK ->
  agrees False pre c t (error x e)
    (match error y e with
     | Some (Next x) => BNext (sync x) (us x ++ rest_events x [c]) | Some (Again x) => BAgain (sync x) (us x)
     | Some (Return q s _) => if is_ok (http_errno q) then BExit q s else BErr (http_errno q)
     | None => BStuck end).
Proof. intros Hp He. unfold error, RETURN. cbn. destruct (is_ok e) eqn:E; [by destruct e|]. unfold agrees. rewrite <- Hp. by eexists _, _. Qed.

Lemma between_agrees pre c post x q t le : stands False pre x q t -> between (st q) ->
  agrees False pre c t (round_of cb max (pre ++ c :: post) le x) (bround q c).
Proof using Hhc.
  intros [Hs Hst Hn Hok Hp (cur & Hcur & Hfit & Hj)] Hb.
  assert (cur = None) as -> by (destruct cur as [[m a]|]; [|done]; destruct Hfit as [_ [Hl|(_ & _ & _ & [Hl|[[] _]])]]; destruct Hb as [E|[E|E]]; rewrite E in Hl; discriminate).
  assert (live (st q) = None) as Hl by exact Hfit. cbn in Hj.
  assert (Hm0 : forall m, start_marks (st q) m = None) by (intros m; rewrite start_marks_live, Hl; by destruct (decide (None = Some m))).
  unfold bround, round_of. rewrite Hp, (zget_middle pre c post (zlen pre) eq_refl). change (zget [c] (p (start_exec q))) with (Some c). cbn [mbind option_bind].
  rewrite Hst. change (p_state (start_exec q)) with (st q). pose proof (eq_trans (same_errno _ _ Hs) Hok) as Hok'.
  destruct Hb as [E|[E|E]]; rewrite E.
  - rewrite !almost_done_eq by done. change (par (start_exec q)) with q. rewrite !(same_flag _ _ _ Hs).
    destruct (c =? LF); [|by apply error_agrees]. cbn [negb]. destruct (flag q F_TRAILING); [|destruct (flag q F_CHUNKED && flag q F_CONTENTLENGTH); [by apply error_agrees|]].
    + eexists. split; [reflexivity|]. split; [exact Hs|done|exact Hn|exact Hok|exact Hp|]. exists None. split; [exact Hcur|]. split; [done|].
      cbn [us pend start_exec app]. by rewrite !joined_snoc, Hj.
    + destruct (same_replied _ _ Hs) as [q1 q2 [Hs12 Ho1]|].
      * eexists. split; [reflexivity|]. split; [exact Hs12|done|exact Hn| |exact Hp|].
        { change (http_errno q2 = HPE_OK). by rewrite <- (same_errno _ _ Hs12), Ho1. }
        exists None. split; [exact Hcur|]. split; [done|]. cbn [us pend start_exec app]. by rewrite !joined_snoc, Hj.
      * cbn. unfold agrees. rewrite <- Hp. by eexists _, _.
  - rewrite !headers_done_eq by done. destruct (c =? LF); [|by apply error_agrees]. cbn [negb]. cbn [par start_exec p_state nrd marks p us].
    assert (same ((par x).[nread := 0]) (q.[nread := 0])) as Hs0 by exact Hs. rewrite (same_turn _ _ Hs0). set (a := (par x).[nread := 0]) in *. set (b := q.[nread := 0]) in *.
    assert (http_errno b = HPE_OK) as Hob by exact Hok. assert (http_errno a = HPE_OK) as Hoa by exact Hok'. clearbody a b. destruct (turn_of b) as [| |s1] eqn:Et.
    + cbn. rewrite Hob. cbn. unfold agrees. exists (us x ++ [message_complete]). split; [|by rewrite !joined_snoc, Hj]. unfold RETURN, completed. cbn.
      rewrite (same_new_message _ _ Hs0), Hp. do 2 f_equal. exact (same_sync _ _ _ _ Hs0).
    + eexists. split; [reflexivity|]. split; [by apply moved_none|]. split; [exact Hs0|exact (same_new_message _ _ Hs0)|done|exact Hob|cbn; zlen_simpl; lia|].
      exists None. split; [exact Hcur|]. split; [apply new_message_live|]. rewrite rest_none by exact Hm0. cbn [us completed app pend]. rewrite joined_snoc.
      change (us (over _ _)) with (us x ++ [message_complete]). by rewrite joined_snoc, Hj.
    + eexists. split; [reflexivity|]. split; [by apply moved_none|]. split; [exact Hs0|done|done|exact Hob|cbn; zlen_simpl; lia|].
      exists None. split; [exact Hcur|]. split; [exact (turn_live _ _ Et)|]. rewrite rest_none by exact Hm0. cbn [us app pend]. by rewrite app_nil_r.
  - rewrite !message_done_eq by done. change (par (start_exec q)) with q. replace (upgrade (par x)) with (upgrade q) by (by apply (f_equal upgrade) in Hs).
    destruct (upgrade q).
    + cbn. rewrite Hok. cbn. unfold agrees. exists (us x ++ [message_complete]). split; [|by rewrite !joined_snoc, Hj]. unfold RETURN, completed. cbn.
      rewrite (same_new_message _ _ Hs), Hp, Hn. do 2 f_equal. exact (same_sync _ _ _ _ Hs).
    + eexists. split; [reflexivity|]. split; [by apply moved_none|]. split; [exact Hs|exact (same_new_message _ _ Hs)|exact Hn|exact Hok|cbn; zlen_simpl; lia|].
      exists None. split; [exact Hcur|]. split; [apply new_message_live|]. rewrite rest_none by exact Hm0. cbn [us completed app pend start_exec]. rewrite joined_snoc.
      change (us (over _ _)) with (us x ++ [message_complete]). by rewrite joined_snoc, Hj.
Qed.

(** * Runs *)

Definition counted (q : http_parser) : option http_parser :=
  if PARSING_HEADER (st q) then let n := u32 (nread q + 1) in if max <? n then None else Some (q.[nread := n]) else Some q.

Inductive bres := ROk (q : http_parser) (t : list event) | RErr (e : http_errno_t) (n : Z) | RExit (q : http_parser) (t : list event) (n : Z) | RStuck.
Fixpoint bbyte (k : nat) (q : http_parser) (t : list event) (c i : Z) (next : http_parser -> list event -> bres) : bres :=
  match k with
  | O => RStuck
  | S k =>
      match bround q c with
      | BNext q u => next q (t ++ u)
      | BAgain q u => bbyte k q (t ++ u) c i next
      | BErr e => RErr e i
      | BExit q u => RExit q (t ++ u) (i + 1)
      | BStuck => RStuck
      end
  end.
Fixpoint brun (q : http_parser) (t : list event) (l : list Z) (i : Z) : bres :=
  match l with
  | [] => ROk q t
  | c :: l =>
      match counted q with
      | None => RErr HPE_HEADER_OVERFLOW i
      | Some q => bbyte 5 q t c i (fun q t => brun q t l (i + 1))
      end
  end.

(** The result of an execution against that of the machine. *)
Definition result_ok (total : Z) (r : option (http_parser * list event * Z)) (b : bres) : Prop :=
  match b with
  | ROk q t => exists s, r = Some (q, s, total) /\ joined_rev s = joined_rev t
  | RErr e n => exists q s, r = Some (q, s, n) /\ http_errno q = e /\ e <> HPE_OK
  | RExit q t n => exists s, r = Some (q, s, n) /\ joined_rev s = joined_rev t
  | RStuck => False
  end.
Definition overflows (b : bres) : Prop := exists n, b = RErr HPE_HEADER_OVERFLOW n.

Lemma stands_weaken (P Q : Prop) pre x q t : (P -> Q) -> stands P pre x q t -> stands Q pre x q t.
Proof.
  intros H [? ? ? ? ? (cur & ? & Hf & ?)]. split; try done. exists cur. split; [done|]. split; [|done].
  unfold fits in *. destruct cur as [[m a]|]; [|done]. tauto.
Qed.

(** The end of the data: what is marked is handed over. *)
Lemma flush_none pre x m k : http_errno (par x) = HPE_OK -> marks x m = None -> CALLBACK_DATA_ cb pre x m (p x) (p x) k = k x.
Proof. apply data_none. Qed.
Lemma leftover_ok pre x q t : stands True pre x q t -> moved pre x -> exists s, leftover cb pre x = Some (Return q s (zlen pre)) /\ joined_rev s = joined_rev t.
Proof.
  intros [Hs Hst Hn Hok Hp (cur & Hcur & Hfit & Hj)] Hmv. pose proof (eq_trans (same_errno _ _ Hs) Hok) as Hok'.
  assert (forall m, marks x m = None \/ exists a, cur = Some (m, a)) as Hone.
  { intros m. rewrite Hcur. destruct cur as [[m1 a1]|]; [|by left]. destruct (decide (m = m1)) as [->|]; [right; by exists a1|by left]. }
  unfold leftover. assert ((1 <? (if marks x m_header_field then 1 else 0) + (if marks x m_header_value then 1 else 0) + (if marks x m_url then 1 else 0) +
    (if marks x m_body then 1 else 0) + (if marks x m_status then 1 else 0)) = false) as ->.
  { rewrite !Hcur. destruct cur as [[[] a1]|]; reflexivity. }
  assert (forall y : exec, p_state y = p_state x -> nrd y = nrd x -> same (par y) q -> RETURN y (zlen pre) = Some (Return q (us y) (zlen pre))) as Hret.
  { intros y E1 E2 E3. unfold RETURN. do 2 f_equal. rewrite E1, E2, Hst, Hn, (same_sync _ _ _ _ E3). by destruct q. }
  destruct cur as [[m a]|].
  - assert (marks x m = Some a) as Em by (rewrite Hcur; by destruct (decide (m = m))). pose proof (Hmv m a Em) as Hlt. destruct Hfit as [Ha _].
    assert (zslice pre a (p x - a) = Some (drop (Z.to_nat a) pre)) as Hsl by (rewrite Hp, <- (app_nil_r pre) at 1; by apply slice_to).
    assert (forall m', m' <> m -> marks x m' = None) as Hoth by (intros m' Hne; rewrite Hcur; by destruct (decide (m' = m))).
    assert (joined_rev t = joined_rev (us x ++ [data_event m (drop (Z.to_nat a) pre)])) as Hjt.
    { rewrite joined_snoc, Hj. unfold pend. destruct (drop (Z.to_nat a) pre) eqn:Ed; [|done]. apply (f_equal length) in Ed. rewrite length_drop in Ed. unfold zlen in *. simpl in Ed. lia. }
    exists (us x ++ [data_event m (drop (Z.to_nat a) pre)]). split; [|done].
    set (y := set_marks (mk_exec ((par x).[st := p_state x]) (p_state x) (nrd x) (marks x) (p x) (us x ++ [data_event m (drop (Z.to_nat a) pre)])) m None : exec).
    assert (http_errno (par y) = HPE_OK) as Hoy by exact Hok'. assert (p y = p x) as Hpy by done.
    assert (forall m', marks y m' = None) as Hy by (intros m'; cbn; destruct (decide (m' = m)); [done|by apply Hoth]).
    assert (RETURN y (zlen pre) = Some (Return q (us x ++ [data_event m (drop (Z.to_nat a) pre)]) (zlen pre))) as Hry by (by apply Hret).
    assert (forall er k, CALLBACK_DATA_ cb pre x m (p x) er k = k y) as Hsend by (intros; by rewrite (data_rec pre x m a _ _ _ _ Hok' Em Hsl)).
    assert (forall m' er k, CALLBACK_DATA_ cb pre y m' (p y) er k = k y) as Hskip by (intros; by rewrite data_none).
    assert (forall m' er k, m' <> m -> CALLBACK_DATA_ cb pre x m' (p x) er k = k x) as Hkeep by (intros; rewrite data_none; [done|done|by apply Hoth]).
    clearbody y. clear Hoth Hsl Em Hone Hcur. destruct m.
    + rewrite Hsend, !Hskip. exact Hry.
    + rewrite Hkeep by done. rewrite Hsend, !Hskip. exact Hry.
    + rewrite !Hkeep by done. rewrite Hsend, !Hskip. exact Hry.
    + rewrite !Hkeep by done. rewrite Hsend, !Hskip. exact Hry.
    + rewrite !Hkeep by done. rewrite Hsend. exact Hry.
  - exists (us x). split; [|done]. assert (forall m' er k, CALLBACK_DATA_ cb pre x m' (p x) er k = k x) as Hskip by (intros; rewrite data_none; [done|done|apply Hcur]).
    rewrite !Hskip. by apply Hret.
Qed.

(** * Names of headers *)

Fixpoint field_ref (q : http_parser) (l : list Z) : option (http_parser * list Z) :=
  match l with
  | [] => Some (q, [])
  | c :: l' => if TOKEN c =? 0 then Some (q, l) else q ← field_char q c (TOKEN c); field_ref q l'
  end.

Lemma field_ref_cons q c l : field_ref q (c :: l) = if TOKEN c =? 0 then Some (q, c :: l) else q ← field_char q c (TOKEN c); field_ref q l.
Proof. done. Qed.

(** A parser with the variables. *)
Definition at_ (q : http_parser) (n : Z) (s : state) : http_parser := q.[nread := n].[st := s].
Lemma field_char_at q n s ch c : field_char (at_ q n s) ch c = option_map (fun q => at_ q n s) (field_char q ch c).
Proof.
  destruct q as [ty fl s0 h ix le0 nr cl ma mi sc me er up]. unfold field_char, matching, next_index, at_. cbn.
  destruct h; try reflexivity; cbn; repeat (match goal with |- context [match (if ?b then _ else _) with _ => _ end] => destruct b eqn:? end; cbn); try done;
  destruct (negb _); done.
Qed.
Lemma field_char_ok q ch c q' : field_char q ch c = Some q' -> http_errno q' = http_errno q /\ lenient_http_headers q' = lenient_http_headers q.
Proof. unfold field_char, matching, next_index. intros H. destruct (header_state q); cases; try done; cbn in *; repeat case_match; simplify_eq; done. Qed.

Lemma skip_ok f : forall pre c l limit, (length l <= f)%nat -> limit <= zlen (pre ++ c :: l) ->
  exists w r, l = w ++ r /\ Forall (fun c => TOKEN c <> 0) w /\ skip_tokens f (pre ++ c :: l) (zlen pre) limit = Some (zlen pre + zlen w).
Proof.
  induction f as [|f IH]; intros pre c l limit Hl Hlim; cbn [skip_tokens].
  - destruct l; [|simpl in Hl; lia]. zlen_simpl. exists [], []. split; [done|]. split; [done|]. zlen_simpl. destruct (Z.ltb_spec (zlen pre + 1) limit); [lia|]. f_equal. lia.
  - destruct (Z.ltb_spec (zlen pre + 1) limit) as [Hlt|]; [|exists [], l; split; [done|]; split; [done|]; zlen_simpl; f_equal; lia].
    destruct l as [|d l]; [zlen_simpl; lia|]. rewrite cons_middle, app_assoc in *.
    replace (zlen pre + 1) with (zlen (pre ++ [c])) by (zlen_simpl; lia). rewrite zget_middle by done. cbn [mbind option_bind].
    destruct (Z.eqb_spec (TOKEN d) 0) as [|Ht]; [exists [], (d :: l); split; [done|]; split; [done|]; zlen_simpl; f_equal; lia|].
    destruct (IH (pre ++ [c]) d l limit ltac:(simpl in Hl; lia) Hlim) as (w & r & -> & Hw & E). exists (d :: w), r. split; [done|]. split; [by constructor|].
    rewrite E. zlen_simpl. f_equal. lia.
Qed.
Lemma field_ref_general q w r : header_state q = h_general -> Forall (fun c => TOKEN c <> 0) w -> field_ref q (w ++ r) = field_ref q r.
Proof.
  intros Hg. induction 1 as [|c w Hc _ IH]; [done|]. cbn [app field_ref]. destruct (Z.eqb_spec (TOKEN c) 0); [done|].
  unfold field_char. rewrite Hg. exact IH.
Qed.
Lemma field_ref_len q l q' r : field_ref q l = Some (q', r) -> exists w, l = w ++ r.
Proof.
  revert q. induction l as [|c l IH]; intros q H; simpl in H; [simplify_eq; by exists []|].
  destruct (TOKEN c =? 0); [simplify_eq; by exists []|]. destruct (field_char q c (TOKEN c)); [|done]. destruct (IH _ H) as [w ->]. by exists (c :: w).
Qed.
Lemma field_ref_ok l : forall q q' r, field_ref q l = Some (q', r) -> http_errno q' = http_errno q /\ lenient_http_headers q' = lenient_http_headers q.
Proof.
  induction l as [|c l IH]; intros q q' r H; simpl in H; [by simplify_eq|]. destruct (TOKEN c =? 0); [by simplify_eq|].
  destruct (field_char q c (TOKEN c)) as [q1|] eqn:E; [|done]. destruct (IH _ _ _ H) as [-> ->]. by eapply field_char_ok.
Qed.
Lemma field_loop_ref fuel : forall pre l q, (length l <= fuel)%nat ->
  field_loop max fuel (pre ++ l) q (zlen pre) = '(q', r) ← field_ref q l; Some (q', zlen pre + zlen l - zlen r).
Proof using Hmax.
  induction fuel as [fuel IH] using lt_wf_ind. intros pre l q Hl. destruct l as [|c l].
  { destruct fuel; cbn [field_loop]; rewrite app_nil_r, Z.eqb_refl; cbn; zlen_simpl; do 2 f_equal; lia. }
  destruct fuel as [|f]; [simpl in Hl; lia|]. cbn [field_loop field_ref].
  destruct (Z.eqb_spec (zlen pre) (zlen (pre ++ c :: l))); [zlen_simpl; pose proof (zlen_nonneg l); lia|]. rewrite zget_middle by done. cbn [mbind option_bind].
  destruct (TOKEN c =? 0) eqn:Et; [cbn; do 2 f_equal; lia|].
  assert (forall q1, field_loop max f (pre ++ c :: l) q1 (zlen pre + 1) = '(q', r) ← field_ref q1 l; Some (q', zlen pre + zlen (c :: l) - zlen r)) as Hnext.
  { intros q1. rewrite cons_middle, app_assoc. replace (zlen pre + 1) with (zlen (pre ++ [c])) by (zlen_simpl; lia). rewrite IH by (simpl in Hl; lia).
    destruct (field_ref q1 l) as [[? ?]|]; [|done]. cbn. zlen_simpl. do 2 f_equal. lia. }
  destruct (header_state q) eqn:Eh.
  2-25: destruct (field_char q c (TOKEN c)); [apply Hnext|done].
  destruct (skip_ok f pre c l (Z.min (zlen (pre ++ c :: l) - zlen pre) max)) as (w & r & -> & Hw & ->); [simpl in Hl; lia|pose proof (zlen_nonneg pre); lia|].
  cbn [mbind option_bind]. assert (field_char q c (TOKEN c) = Some q) as -> by (unfold field_char; by rewrite Eh). cbn [mbind option_bind]. rewrite field_ref_general by done.
  rewrite app_comm_cons, app_assoc. replace (zlen pre + zlen w + 1) with (zlen (pre ++ c :: w)) by (zlen_simpl; lia).
  rewrite IH; [|lia|simpl in Hl; rewrite length_app in Hl; lia]. destruct (field_ref q r) as [[? ?]|]; [|done]. cbn. zlen_simpl. do 2 f_equal. lia.
Qed.

Lemma u32_step n k : 0 <= n -> 0 <= k -> n + k <= max -> u32 (n + u32 k) = n + k.
Proof using Hmax. intros. rewrite (u32_small k) by lia. apply u32_small. lia. Qed.
Lemma at_at q n s n' s' : at_ (at_ q n s) n' s' = at_ q n' s'.
Proof. by destruct q. Qed.

(** The round over a name, as far as tokens go. *)
Lemma field_round pre w r q' x a : p x = zlen pre -> http_errno (par x) = HPE_OK -> marks x m_header_field = Some a -> 0 <= a <= zlen pre ->
  w ++ r <> [] -> field_ref (par x) (w ++ r) = Some (q', r) -> 
  round_header_field cb max (pre ++ w ++ r) x =
    match r with
    | [] =>
        let x := mk_exec q' (p_state x) (u32 (nrd x + u32 (zlen w - 1))) (marks x) (zlen pre + zlen w - 1) (us x) in
        if max <? nrd x then error x HPE_HEADER_OVERFLOW else Some (Next x)
    | d :: _ =>
        let x := mk_exec q' (p_state x) (u32 (nrd x + u32 (zlen w))) (marks x) (zlen pre + zlen w) (us x) in
        if max <? nrd x then error x HPE_HEADER_OVERFLOW
        else if d =? 58 then
          Some (Next (set_marks (mk_exec (q'.[st := s_header_value_discard_ws]) s_header_value_discard_ws (nrd x) (marks x) (p x)
            (us x ++ [header_field (drop (Z.to_nat a) (pre ++ w))])) m_header_field None))
        else error x HPE_INVALID_HEADER_TOKEN
    end.
Proof using Hmax.
  intros Hp Hok Hm Ha Hne Hr. unfold round_header_field. rewrite Hp, field_loop_ref by (rewrite !length_app; lia). rewrite Hr. cbn [mbind option_bind].
  assert (http_errno q' = HPE_OK) as Hok' by (by rewrite (proj1 (field_ref_ok _ _ _ _ Hr))).
  destruct r as [|d r]; zlen_simpl.
  - replace (zlen pre + (zlen w + 0) - 0) with (zlen pre + zlen w) by lia. replace (zlen pre + (zlen w + 0)) with (zlen pre + zlen w) by lia. rewrite Z.eqb_refl.
    unfold COUNT_HEADER_SIZE. replace (zlen pre + zlen w - 1 - zlen pre) with (zlen w - 1) by lia. by destruct x.
  - replace (zlen pre + (zlen w + (1 + zlen r)) - (1 + zlen r)) with (zlen pre + zlen w) by lia. pose proof (zlen_nonneg r).
    destruct (Z.eqb_spec (zlen pre + zlen w) (zlen pre + (zlen w + (1 + zlen r)))); [lia|].
    unfold COUNT_HEADER_SIZE. replace (zlen pre + zlen w - zlen pre) with (zlen w) by lia. destruct x as [qx sx nx mx px ux]. cbn in Hp, Hok, Hm |- *.
    destruct (max <? u32 (nx + u32 (zlen w))); [done|]. rewrite app_assoc, zget_middle by (by zlen_simpl). cbn [mbind option_bind]. destruct (d =? 58); [|done].
    rewrite (data_rec _ _ _ a _ _ _ (drop (Z.to_nat a) (pre ++ w))); [done|done|done|].
    replace (zlen pre + zlen w) with (zlen (pre ++ w)) by (by zlen_simpl). apply slice_to. zlen_simpl. pose proof (zlen_nonneg w). lia.
Qed.

Lemma count_small n k : 0 <= n -> 0 <= k -> n + k <= max -> (max <? u32 (n + u32 k)) = false.
Proof using Hmax. intros. rewrite u32_step by lia. apply Z.ltb_ge. lia. Qed.
Lemma bround_field q n c : http_errno q = HPE_OK -> 0 <= n <= max -> bround (at_ q n s_header_field) c =
  if TOKEN c =? 0 then
    if c =? 58 then BNext (at_ q n s_header_value_discard_ws) [header_field []] else BErr HPE_INVALID_HEADER_TOKEN
  else
    match field_char q c (TOKEN c) with Some q' => BNext (at_ q' n s_header_field) [header_field [c]] | None => BStuck end.
Proof using Hmax.
  intros Hok Hn. unfold bround, round_of. change (zget [c] (p (start_exec _))) with (Some c). cbn [mbind option_bind].
  change (p_state (start_exec (at_ q n s_header_field))) with s_header_field. cbv iota beta.
  set (x := start_exec (at_ q n s_header_field)). destruct (TOKEN c =? 0) eqn:Et.
  - pose proof (field_round [] [] [c] (at_ q n s_header_field) x 0 eq_refl Hok eq_refl ltac:(done) ltac:(done)) as E. cbn [app] in E. rewrite E by (cbn; by rewrite Et).
    change (zlen (@nil Z)) with 0. cbn [nrd x]. change (nrd x) with n. rewrite count_small by lia. destruct (c =? 58); [|done].
    rewrite u32_step by lia. rewrite rest_none by (by intros []). cbn. by rewrite Z.add_0_r.
  - destruct (field_char q c (TOKEN c)) as [q'|] eqn:Ef.
    + pose proof (field_round [] [c] [] (at_ q' n s_header_field) x 0 eq_refl Hok eq_refl ltac:(done) ltac:(done)) as E. cbn [app] in E. rewrite E.
      2: { change (par x) with (at_ q n s_header_field). cbn [field_ref]. rewrite Et, field_char_at, Ef. done. }
      change (zlen [c]) with 1. change (nrd x) with n. cbn [nrd]. rewrite count_small by lia. rewrite (rest_one _ m_header_field _ 0) by (by intros []).
      cbn. rewrite u32_step by lia. by rewrite Z.add_0_r.
    + unfold round_header_field. change (p x) with (zlen (@nil Z)). change [c] with ([] ++ [c]). rewrite field_loop_ref by done. cbn [field_ref].
      rewrite Et. change (par x) with (at_ q n s_header_field). by rewrite field_char_at, Ef.
Qed.

Lemma field_ref_stop l : forall q q' d r, field_ref q l = Some (q', d :: r) -> exists w, l = w ++ d :: r /\ TOKEN d = 0.
Proof.
  induction l as [|c l IH]; intros q q' d r H; simpl in H; [by simplify_eq|]. destruct (Z.eqb_spec (TOKEN c) 0); [simplify_eq; by exists []|].
  destruct (field_char q c (TOKEN c)) as [q1|]; [|done]. destruct (IH _ _ _ _ H) as (w & -> & Hd). by exists (c :: w).
Qed.

(** The machine over a name. *)
Definition bmid (k : nat) (q : http_parser) (t : list event) (c : Z) (l : list Z) (i : Z) : bres := bbyte k q t c i (fun q t => brun q t l (i + 1)).
Definition over_more (l : list Z) (b : bres) : Prop := l <> [] /\ overflows b.
Definition singles (m : mark) (w : list Z) : list event := map (fun c => data_event m [c]) w.

Lemma bfield l : forall k q n t c i, http_errno q = HPE_OK -> 0 <= n <= max -> 
  let b := bmid (S k) (at_ q n s_header_field) t c l i in
  match field_ref q (c :: l) with
  | None => b = RStuck \/ over_more l b
  | Some (q', []) => (b = ROk (at_ q' (n + zlen l) s_header_field) (t ++ singles m_header_field (c :: l)) /\ n + zlen l <= max) \/ over_more l b
  | Some (q', d :: r) => exists w, c :: l = w ++ d :: r /\ TOKEN d = 0 /\
      ((exists k, b = bmid (S k) (at_ q' (n + zlen w) s_header_field) (t ++ singles m_header_field w) d r (i + zlen w) /\ n + zlen w <= max) \/ over_more l b)
  end.
Proof using Hmax.
  induction l as [|d l IH]; intros k q n t c i Hok Hn b; assert (Eb : b = bmid (S k) (at_ q n s_header_field) t c _ i) by reflexivity;
    clearbody b; rewrite field_ref_cons; destruct (TOKEN c =? 0) eqn:Et; cbv beta iota.
  1, 3: exists []; split; [done|]; split; [by apply Z.eqb_eq|]; left; exists k; cbn [singles map app]; rewrite app_nil_r; change (zlen []) with 0; rewrite !Z.add_0_r; split; [done|lia].
  all: unfold bmid in Eb; cbn [bbyte] in Eb; rewrite bround_field in Eb by done; rewrite Et in Eb.
  - destruct (field_char q c (TOKEN c)) as [q'|]; cbn [mbind option_bind]; [|by left]. left. change (zlen []) with 0. rewrite Z.add_0_r. split; [done|lia].
  - destruct (field_char q c (TOKEN c)) as [q1|] eqn:Ef; cbn [mbind option_bind]; [|by left].
    assert (http_errno q1 = HPE_OK) as Hok1 by (by rewrite (proj1 (field_char_ok _ _ _ _ Ef))).
    assert (b = if max <? u32 (n + 1) then RErr HPE_HEADER_OVERFLOW (i + 1)
      else bmid 5 (at_ q1 (u32 (n + 1)) s_header_field) (t ++ [data_event m_header_field [c]]) d l (i + 1)) as Eb'.
    { rewrite Eb. cbn [brun]. unfold counted. cbn. by destruct (max <? u32 (n + 1)). }
    clear Eb. destruct (Z.ltb_spec max (u32 (n + 1))) as [Hov|Hle].
    { assert (over_more (d :: l) b) as Hom by (split; [done|]; exists (i + 1); done).
      destruct (field_ref q1 (d :: l)) as [[q' [|d' r]]|] eqn:Er; [by right| |by right].
      destruct (field_ref_stop _ _ _ _ _ Er) as (w & Ew & Hd). exists (c :: w). split; [by rewrite Ew|]. split; [done|]. by right. }
    rewrite (u32_small (n + 1)) in * by lia.
    specialize (IH 4%nat q1 (n + 1) (t ++ [data_event m_header_field [c]]) d (i + 1) Hok1 ltac:(lia)). cbv zeta in IH. rewrite <- Eb' in IH.
    destruct (field_ref q1 (d :: l)) as [[q' [|d' r]]|] eqn:Er.
    * destruct IH as [[E Hl]|Ho]; [left|right; split; [done|exact (proj2 Ho)]]. rewrite E. zlen_simpl. split; [|lia]. rewrite <- app_assoc. f_equal. f_equal. lia.
    * destruct IH as (w & Ew & Hd & IH). exists (c :: w). split; [by rewrite Ew|]. split; [done|]. destruct IH as [(k' & E & Hl)|Ho]; [left|right; split; [done|exact (proj2 Ho)]].
      exists k'. rewrite E. zlen_simpl. split; [|lia]. rewrite <- app_assoc. f_equal; [f_equal; lia|lia].
    * destruct IH as [E|Ho]; [by left|right; split; [done|exact (proj2 Ho)]].
Qed.

(** * Values of headers *)

Section Value.
Context (le : bool).

Definition bad_char (c : Z) : bool := negb le && negb (IS_HEADER_CHAR c).
Fixpoint value_ref (q : http_parser) (h : header_states) (l : list Z) : option (http_parser * header_states * list Z * value_stop) :=
  match l with
  | [] => Some (q, h, [], AtEnd)
  | c :: l' =>
      if c =? CR then Some (q, h, l, AtCR)
      else if c =? LF then Some (q, h, l, AtLF)
      else if bad_char c then Some (q, h, l, Bad HPE_INVALID_HEADER_TOKEN true)
      else
        r ← value_char q h c;
        match r with inl (q, h) => value_ref q h l' | inr (e, h) => Some (q, h, l, Bad e false) end
  end.
Lemma value_ref_cons q h c l : value_ref q h (c :: l) =
  if c =? CR then Some (q, h, c :: l, AtCR)
  else if c =? LF then Some (q, h, c :: l, AtLF)
  else if bad_char c then Some (q, h, c :: l, Bad HPE_INVALID_HEADER_TOKEN true)
  else r ← value_char q h c; match r with inl (q, h) => value_ref q h l | inr (e, h) => Some (q, h, c :: l, Bad e false) end.
Proof. done. Qed.

Definition plain (c : Z) : Prop := c <> CR /\ c <> LF /\ bad_char c = false.
Lemma value_ref_general q w r : Forall plain w -> value_ref q h_general (w ++ r) = value_ref q h_general r.
Proof.
  induction 1 as [|c w (H1 & H2 & H3) _ IH]; [done|]. cbn [app]. rewrite value_ref_cons. destruct (Z.eqb_spec c CR), (Z.eqb_spec c LF); try done. by rewrite H3.
Qed.

(** The inner loop stops where the outer one would, unless it meets its limit. *)
Lemma general_loop_ok f : forall pre l limit, (length l <= f)%nat -> zlen pre <= limit <= zlen (pre ++ l) ->
  exists w r, l = w ++ r /\ Forall plain w /\
    ((zlen (pre ++ w) = limit /\ general_loop f (pre ++ l) le (zlen pre) limit = Some (limit, true)) \/
     exists d r', r = d :: r' /\ zlen (pre ++ w) < limit /\
       (((d =? CR) || (d =? LF) = true /\ general_loop f (pre ++ l) le (zlen pre) limit = Some (zlen (pre ++ w) - 1, true)) \/
        ((d =? CR) || (d =? LF) = false /\ bad_char d = true /\ general_loop f (pre ++ l) le (zlen pre) limit = Some (zlen (pre ++ w), false)))).
Proof.
  induction f as [|f IH]; intros pre l limit Hl Hlim; cbn [general_loop].
  - destruct l; [|simpl in Hl; lia]. rewrite app_nil_r in *. exists [], []. split; [done|]. split; [done|]. left. rewrite app_nil_r. split; [lia|].
    destruct (Z.eqb_spec (zlen pre) limit); [by subst|lia].
  - destruct (Z.eqb_spec (zlen pre) limit) as [E|Hne].
    { exists [], l. split; [done|]. split; [done|]. left. split; [by rewrite app_nil_r|by rewrite E]. }
    destruct l as [|d l]; [rewrite app_nil_r in *; lia|]. rewrite zget_middle by done. cbn [mbind option_bind].
    destruct ((d =? CR) || (d =? LF)) eqn:Ed; [|fold (bad_char d); destruct (bad_char d) eqn:Eb].
    + exists [], (d :: l). split; [done|]. split; [done|]. right. exists d, l. rewrite app_nil_r. split; [done|]. split; [lia|]. by left.
    + exists [], (d :: l). split; [done|]. split; [done|]. right. exists d, l. rewrite app_nil_r. split; [done|]. split; [lia|]. by right.
    + rewrite cons_middle, app_assoc in Hlim |- *. replace (zlen pre + 1) with (zlen (pre ++ [d])) by (zlen_simpl; lia).
      destruct (IH (pre ++ [d]) l limit) as (w & r & -> & Hw & Hr); [simpl in Hl; lia|zlen_simpl; lia|]. exists (d :: w), r. split; [done|].
      apply orb_false_iff in Ed as [?%Z.eqb_neq ?%Z.eqb_neq]. split; [by constructor|]. rewrite (cons_middle d pre w), app_assoc. exact Hr.
Qed.
Lemma value_ref_general_stop q l : exists r s, value_ref q h_general l = Some (q, h_general, r, s) /\ zlen r <= zlen l /\ (r = [] -> s = AtEnd).
Proof.
  induction l as [|c l (r & s & E & Hl & Hr)]; [by exists [], AtEnd|]. rewrite value_ref_cons. zlen_simpl. pose proof (zlen_nonneg l).
  destruct (c =? CR); [exists (c :: l), AtCR; by zlen_simpl|]. destruct (c =? LF); [exists (c :: l), AtLF; by zlen_simpl|].
  destruct (bad_char c); [exists (c :: l), (Bad HPE_INVALID_HEADER_TOKEN true); by zlen_simpl|]. exists r, s. split; [exact E|]. split; [lia|done].
Qed.
Lemma value_loop_ref fuel : forall pre l q h, (length l <= fuel)%nat ->
  match value_ref q h l with
  | Some (q', h', r, s) => zlen l - zlen r < max \/ r = [] /\ zlen l <= max ->
      value_loop max fuel (pre ++ l) le q h (zlen pre) = Some (q', h', zlen pre + zlen l - zlen r, s)
  | None => value_loop max fuel (pre ++ l) le q h (zlen pre) = None
  end.
Proof.
  induction fuel as [fuel IH] using lt_wf_ind. intros pre l q h Hl. destruct l as [|c l].
  { intros _. destruct fuel; cbn [value_loop]; rewrite app_nil_r, Z.eqb_refl; cbn; zlen_simpl; do 2 f_equal; f_equal; lia. }
  destruct fuel as [|f]; [simpl in Hl; lia|]. cbn [value_loop]. rewrite value_ref_cons.
  destruct (Z.eqb_spec (zlen pre) (zlen (pre ++ c :: l))); [zlen_simpl; pose proof (zlen_nonneg l); lia|]. rewrite zget_middle by done. cbn [mbind option_bind].
  destruct (c =? CR) eqn:Ecr; [intros _; do 2 f_equal; f_equal; lia|]. destruct (c =? LF) eqn:Elf; [intros _; do 2 f_equal; f_equal; lia|].
  fold (bad_char c). destruct (bad_char c) eqn:Ebad; [intros _; do 2 f_equal; f_equal; lia|].
  assert (forall q1 h1, match value_ref q1 h1 l with
    | Some (q', h', r, s) => zlen (c :: l) - zlen r < max \/ r = [] /\ zlen (c :: l) <= max ->
        value_loop max f (pre ++ c :: l) le q1 h1 (zlen pre + 1) = Some (q', h', zlen pre + zlen (c :: l) - zlen r, s)
    | None => value_loop max f (pre ++ c :: l) le q1 h1 (zlen pre + 1) = None end) as Hnext.
  { intros q1 h1. specialize (IH f ltac:(lia) (pre ++ [c]) l q1 h1 ltac:(simpl in Hl; lia)). rewrite <- app_assoc in IH. cbn [app] in IH.
    replace (zlen (pre ++ [c])) with (zlen pre + 1) in IH by (zlen_simpl; lia). destruct (value_ref q1 h1 l) as [[[[q' h'] r] s]|]; [|done].
    intros Hlim. zlen_simpl. rewrite IH by (destruct Hlim as [?|[? ?]]; [left; lia|right; split; [done|lia]]). do 2 f_equal. f_equal. zlen_simpl. lia. }
  destruct h.
  2-25: match goal with |- context [value_char ?q0 ?h0 ?c0] => destruct (value_char q0 h0 c0) as [[[q1 h1]|[e h1]]|] end;
    cbn [mbind option_bind]; [apply Hnext|intros _; do 2 f_equal; f_equal; lia|done].
  change (value_char q h_general c) with (Some (inl (B := http_errno_t * header_states) (q, h_general))). cbn [mbind option_bind].
  pose proof (zlen_nonneg pre). pose proof (zlen_nonneg l).
  destruct (general_loop_ok (S f) pre (c :: l) (zlen pre + Z.min (zlen (pre ++ c :: l) - zlen pre) max)) as (w & r & Ew & Hw & Hr); [done|zlen_simpl; lia|].
  assert (plain c) as Hpc by (apply Z.eqb_neq in Ecr, Elf; done).
  assert (value_ref q h_general l = value_ref q h_general r) as ->.
  { destruct w as [|c' w]; simplify_eq/=.
    - symmetry. apply (value_ref_general q [c] l). by constructor.
    - apply Forall_cons in Hw as [_ Hw]. by rewrite value_ref_general. }
  assert (Hw1 : r <> c :: l -> exists w', w = c :: w') by (destruct w as [|c' w']; simplify_eq/=; [done|by exists w']).
  rewrite Ew. rewrite Ew in Hr, Hl. destruct (value_ref_general_stop q r) as (r0 & s & E0 & Hlen & Hr0).
  destruct Hr as [[Elim Eg]|(d & r' & -> & Hlt & Hd)]; [rewrite E0, Eg|].
  - intros Hprem. destruct r as [|d r].
    + assert (r0 = []) as -> by (destruct r0; [done|zlen_simpl; pose proof (zlen_nonneg r0); lia]). rewrite Hr0 by done.
      cbn [mbind option_bind negb]. rewrite !app_nil_r in *. assert (zlen pre + (zlen (pre ++ w) - zlen pre) `min` max = zlen (pre ++ w)) as -> by lia. rewrite Z.eqb_refl.
      destruct f; cbn [value_loop]; replace (zlen (pre ++ w) - 1 + 1) with (zlen (pre ++ w)) by lia; rewrite Z.eqb_refl; do 2 f_equal; f_equal; zlen_simpl; lia.
    + exfalso. zlen_simpl. pose proof (zlen_nonneg r). destruct Hprem as [?|[-> ?]]; zlen_simpl; lia.
  - assert (w <> []) as Hwn. { intros ->. simplify_eq/=. destruct Hd as [[Hd _]|(_ & Hd & _)]; destruct Hpc as (? & ? & ?); [|congruence]. rewrite Ecr, Elf in Hd. done. }
    assert (1 <= zlen w) as Hw0 by (destruct w; [done|zlen_simpl; pose proof (zlen_nonneg w); lia]). pose proof (zlen_nonneg r'). rewrite value_ref_cons in *.
    destruct Hd as [[Hd Eg]|(Hd & Hbd & Eg)]; rewrite Eg; cbn [mbind option_bind negb].
    + assert (zlen (pre ++ w) - 1 =? zlen (pre ++ w ++ d :: r') = false) as -> by (apply Z.eqb_neq; zlen_simpl; lia). replace (zlen (pre ++ w) - 1 + 1) with (zlen (pre ++ w)) by lia.
      specialize (IH f ltac:(lia) (pre ++ w) (d :: r') q h_general). rewrite <- app_assoc, value_ref_cons in IH.
      destruct (d =? CR); [|destruct (d =? LF); [|done]].
      all: intros _; rewrite IH; [do 2 f_equal; f_equal; zlen_simpl; lia| |left; zlen_simpl; lia].
      all: rewrite length_app in Hl; simpl in *; unfold zlen in Hw0; lia.
    + apply orb_false_iff in Hd as [-> ->]. rewrite Hbd. intros _. do 2 f_equal. f_equal. zlen_simpl. lia.
Qed.

(** A parser with the header state and the variables. *)
Definition av (q : http_parser) (h : header_states) (n : Z) (s : state) : http_parser := at_ (q.[header_state := h]) n s.
Lemma value_char_av q h0 n s h ch : value_char (av q h0 n s) h ch =
  match value_char q h ch with Some (inl (q', h')) => Some (inl (av q' h0 n s, h')) | r => r end.
Proof.
  destruct q as [ty fl s0 hs ix le0 nr cl ma mi sc me er up]. unfold value_char, matching, next_index, set_flag, av, at_. cbn.
  destruct h; try reflexivity; cbn; repeat (match goal with |- context [if ?b then _ else _] => destruct b eqn:? end; cbn); done.
Qed.
Lemma value_char_ok q h ch q' h' : value_char q h ch = Some (inl (q', h')) -> http_errno q' = http_errno q /\ lenient_http_headers q' = lenient_http_headers q.
Proof. unfold value_char, matching, next_index. intros H. destruct h; cases; simplify_eq; try done. Qed.
Lemma value_ref_ok l : forall q h q' h' r s, value_ref q h l = Some (q', h', r, s) ->
  http_errno q' = http_errno q /\ lenient_http_headers q' = lenient_http_headers q.
Proof.
  induction l as [|c l IH]; intros q h q' h' r s H; [by simplify_eq/=|]. rewrite value_ref_cons in H.
  destruct (c =? CR); [by simplify_eq|]. destruct (c =? LF); [by simplify_eq|]. destruct (bad_char c); [by simplify_eq|].
  destruct (value_char q h c) as [[[q1 h1]|[e h1]]|] eqn:Ev; [|by simplify_eq/=|done]. cbn in H. destruct (IH _ _ _ _ _ _ H) as [-> ->]. by eapply value_char_ok.
Qed.

Lemma value_char_err q h ch e h' : value_char q h ch = Some (inr (e, h')) -> e = HPE_INVALID_CONTENT_LENGTH.
Proof. unfold value_char, matching. intros H. destruct h; cases; by simplify_eq. Qed.

(** The round over a value. *)
Definition counted_to (x : exec) (n : Z) (r : option (round (S := list event))) : option round := if max <? n then error x HPE_HEADER_OVERFLOW else r.
Lemma value_round pre w r q' h' s x a : p x = zlen pre -> http_errno (par x) = HPE_OK -> marks x m_header_value = Some a -> 0 <= a <= zlen pre ->
  w ++ r <> [] -> value_ref (par x) (header_state (par x)) (w ++ r) = Some (q', h', r, s) -> (zlen w < max \/ r = [] /\ zlen w <= max) ->
  round_header_value cb max (pre ++ w ++ r) le x =
    let q := q'.[header_state := h'] in
    let n := u32 (nrd x + u32 (zlen w)) in
    let sent s n := set_marks (mk_exec (q.[st := s_header_almost_done]) s_header_almost_done n (marks x) (zlen pre + zlen w)
      (us x ++ [header_value (drop (Z.to_nat a) (pre ++ w))])) m_header_value None in
    match s with
    | AtEnd =>
        let x := mk_exec q (p_state x) (u32 (nrd x + u32 (zlen w - 1))) (marks x) (zlen pre + zlen w - 1) (us x) in
        counted_to x (nrd x) (Some (Next x))
    | AtCR => counted_to (sent s n) n (Some (Next (sent s n)))
    | AtLF => counted_to (mk_exec q' s_header_almost_done n (marks x) (zlen pre + zlen w) (us x)) n (Some (Again (sent s n)))
    | Bad e keep => error (mk_exec (if keep then q' else q) (p_state x) (nrd x) (marks x) (zlen pre + zlen w) (us x)) e
    end.
Proof.
  intros Hp Hok Hm Ha Hne Hr Hlim. unfold round_header_value. rewrite Hp.
  pose proof (value_loop_ref (length (pre ++ w ++ r)) pre (w ++ r) (par x) (header_state (par x)) ltac:(rewrite !length_app; lia)) as E. rewrite Hr in E.
  rewrite E by (zlen_simpl; destruct Hlim as [?|[-> ?]]; [left; lia|right; split; [done|zlen_simpl; lia]]). clear E. cbn [mbind option_bind].
  assert (http_errno q' = HPE_OK) as Hok' by (by rewrite (proj1 (value_ref_ok _ _ _ _ _ _ _ Hr))).
  replace (zlen pre + zlen (w ++ r) - zlen r) with (zlen pre + zlen w) by (zlen_simpl; lia).
  assert (zslice (pre ++ w ++ r) a (zlen pre + zlen w - a) = Some (drop (Z.to_nat a) (pre ++ w))) as Hsl.
  { rewrite app_assoc. replace (zlen pre + zlen w) with (zlen (pre ++ w)) by (by zlen_simpl). apply slice_to. zlen_simpl. pose proof (zlen_nonneg w). lia. }
  replace (zlen pre + zlen w - zlen pre) with (zlen w) by lia. replace (zlen pre + zlen w - 1 - zlen pre) with (zlen w - 1) by lia.
  destruct x as [qx sx nx mx px ux]. cbn in Hp, Hok, Hm. unfold counted_to. destruct s as [| | |e keep].
  - rewrite (data_rec _ _ _ a _ _ _ (drop (Z.to_nat a) (pre ++ w))) by done. done.
  - unfold COUNT_HEADER_SIZE. cbv zeta.
    match goal with |- (if _ then ?A else ?B) = (if _ then ?C else ?D) =>
      change ((if max <? u32 (nx + u32 (zlen w)) then A else B) = (if max <? u32 (nx + u32 (zlen w)) then C else D)) end.
    destruct (max <? u32 (nx + u32 (zlen w))); [done|].
    rewrite (data_rec _ _ _ a _ _ _ (drop (Z.to_nat a) (pre ++ w))) by done. done.
  - done.
  - by destruct keep.
Qed.

Lemma value_ref_av h0 n s0 l : forall q h, value_ref (av q h0 n s0) h l =
  match value_ref q h l with Some (q', h', r, s) => Some (av q' h0 n s0, h', r, s) | None => None end.
Proof.
  induction l as [|c l IH]; intros q h; [done|]. rewrite !value_ref_cons. destruct (c =? CR); [done|]. destruct (c =? LF); [done|]. destruct (bad_char c); [done|].
  rewrite value_char_av. destruct (value_char q h c) as [[[q1 h1]|[e h1]]|]; cbn [mbind option_bind]; [apply IH|done|done].
Qed.
Lemma bround_value q h n c : http_errno q = HPE_OK -> lenient_http_headers q = le -> 0 <= n <= max -> 0 < max -> bround (av q h n s_header_value) c =
  if c =? CR then BNext (av q h n s_header_almost_done) [header_value []]
  else if c =? LF then BAgain (av q h n s_header_almost_done) [header_value []]
  else if bad_char c then BErr HPE_INVALID_HEADER_TOKEN
  else
    match value_char q h c with
    | Some (inl (q', h')) => BNext (av q' h' n s_header_value) [header_value [c]]
    | Some (inr (e, _)) => BErr e
    | None => BStuck
    end.
Proof using Hmax.
  intros Hok Hle Hn Hmx. unfold bround, round_of. change (zget [c] (p (start_exec _))) with (Some c). cbn [mbind option_bind].
  change (p_state (start_exec (av q h n s_header_value))) with s_header_value. cbv iota beta. change (lenient_http_headers (av q h n s_header_value)) with (lenient_http_headers q). rewrite Hle.
  set (x := start_exec (av q h n s_header_value)).
  assert (Hv : forall w r q' h' s, w ++ r = [c] -> value_ref q h [c] = Some (q', h', r, s) -> value_ref (par x) (header_state (par x)) (w ++ r) = Some (av q' h n s_header_value, h', r, s)).
  { intros w r q' h' s -> E. change (par x) with (av q h n s_header_value). change (header_state (av q h n s_header_value)) with h. by rewrite value_ref_av, E. }
  rewrite value_ref_cons in Hv.
  assert (0 <= 0 <= zlen (@nil Z)) as H0 by done.
  pose proof (fun w r q' h' s => value_round [] w r (av q' h n s_header_value) h' s x 0 eq_refl Hok eq_refl H0) as E. cbn [app] in E.
  change (nrd x) with n in E. change (p_state x) with s_header_value in E. change (us x) with (@nil event) in E. change (zlen (@nil Z)) with 0 in E.
  destruct (c =? CR) eqn:Ecr.
  { pose proof (E [] [c] q h AtCR) as E1; cbn [app] in E1, Hv; rewrite E1 by first [done|by apply (Hv [] [c])|by apply (Hv [c] [])|left; done]. unfold counted_to. change (zlen (@nil Z)) with 0. rewrite count_small by lia. rewrite rest_none by (by intros []).
    cbn. rewrite u32_step by lia. by rewrite Z.add_0_r. }
  destruct (c =? LF) eqn:Elf.
  { pose proof (E [] [c] q h AtLF) as E1; cbn [app] in E1, Hv; rewrite E1 by first [done|by apply (Hv [] [c])|by apply (Hv [c] [])|left; done]. unfold counted_to. change (zlen (@nil Z)) with 0. rewrite count_small by lia.
    cbn. rewrite u32_step by lia. by rewrite Z.add_0_r. }
  destruct (bad_char c) eqn:Ebad.
  { pose proof (E [] [c] q h (Bad HPE_INVALID_HEADER_TOKEN true)) as E1; cbn [app] in E1, Hv; rewrite E1 by first [done|by apply (Hv [] [c])|by apply (Hv [c] [])|left; done]. done. }
  destruct (value_char q h c) as [[[q' h']|[e h']]|] eqn:Ev.
  - pose proof (E [c] [] q' h' AtEnd) as E1; cbn [app] in E1, Hv; rewrite E1 by first [done|by apply (Hv [] [c])|by apply (Hv [c] [])|right; split; [done|change (zlen [c]) with 1; lia]].
    unfold counted_to. change (zlen [c] - 1) with 0. cbn [nrd]. rewrite count_small by lia. rewrite (rest_one _ m_header_value _ 0) by (by intros []).
    cbn. rewrite u32_step by lia. by rewrite Z.add_0_r.
  - pose proof (E [] [c] q h' (Bad e false)) as E1; cbn [app] in E1, Hv; rewrite E1 by first [done|by apply (Hv [] [c])|left; done]. cbn. by rewrite (value_char_err _ _ _ _ _ Ev).
  - unfold round_header_value. change (p x) with (zlen (@nil Z)). pose proof (value_loop_ref 1 [] [c] (par x) (header_state (par x)) ltac:(done)) as El.
    change (par x) with (av q h n s_header_value) in *. change (header_state (av q h n s_header_value)) with h in *. rewrite value_ref_av, value_ref_cons, Ecr, Elf, Ebad, Ev in El.
    cbn [app mbind option_bind] in El. change (length [c]) with 1%nat. by rewrite El.
Qed.

(** The machine over a value. *)
Lemma value_ref_stop l : forall q h q' h' r s, value_ref q h l = Some (q', h', r, s) -> exists w, l = w ++ r.
Proof.
  induction l as [|c l IH]; intros q h q' h' r s H; [simplify_eq/=; by exists []|]. rewrite value_ref_cons in H.
  destruct (c =? CR); [simplify_eq; by exists []|]. destruct (c =? LF); [simplify_eq; by exists []|]. destruct (bad_char c); [simplify_eq; by exists []|].
  destruct (value_char q h c) as [[[q1 h1]|[e h1]]|] eqn:Ev; [|simplify_eq/=; by exists []|done]. cbn in H. destruct (IH _ _ _ _ _ _ H) as [w ->]. by exists (c :: w).
Qed.
Lemma bvalue l : forall k q h n t c i, http_errno q = HPE_OK -> lenient_http_headers q = le -> 0 <= n <= max -> 0 < max ->
  let b := bmid (S k) (av q h n s_header_value) t c l i in
  match value_ref q h (c :: l) with
  | None => b = RStuck \/ over_more l b
  | Some (q', h', r, s) => exists w, c :: l = w ++ r /\ (over_more l b \/
      match s with
      | AtEnd => r = [] /\ b = ROk (av q' h' (n + zlen l) s_header_value) (t ++ singles m_header_value (c :: l)) /\ n + zlen l <= max
      | Bad e _ => b = RErr e (i + zlen w) /\ e <> HPE_OK /\ n + zlen w <= max /\ r <> []
      | _ => exists d r', r = d :: r' /\ d = (match s with AtCR => CR | _ => LF end) /\ n + zlen w <= max /\
          exists k', b = bmid (S k') (av q' h' (n + zlen w) s_header_value) (t ++ singles m_header_value w) d r' (i + zlen w) /\ (k' = k \/ k' = 4%nat)
      end)
  end.
Proof using Hmax.
  induction l as [|d l IH]; intros k q h n t c i Hok Hle Hn Hmx b; assert (Eb : b = bmid (S k) (av q h n s_header_value) t c _ i) by reflexivity;
    clearbody b; rewrite value_ref_cons; pose proof Eb as Eb0; unfold bmid in Eb; cbn [bbyte] in Eb; rewrite bround_value in Eb by done;
    (destruct (Z.eqb_spec c CR) as [->|]; [exists []; split; [done|]; right; eexists _, _; split; [done|]; split; [done|]; cbn [singles map]; rewrite app_nil_r; change (zlen (@nil Z)) with 0; rewrite !Z.add_0_r; split; [lia|exists k; by split; [|left]]|]);
    (destruct (Z.eqb_spec c LF) as [->|]; [exists []; split; [done|]; right; eexists _, _; split; [done|]; split; [done|]; cbn [singles map]; rewrite app_nil_r; change (zlen (@nil Z)) with 0; rewrite !Z.add_0_r; split; [lia|exists k; by split; [|left]]|]);
    (destruct (bad_char c); [exists []; split; [done|]; right; change (zlen (@nil Z)) with 0; rewrite !Z.add_0_r; split; [done|]; split; [done|]; split; [lia|done]|]);
    destruct (value_char q h c) as [[[q1 h1]|[e h1]]|] eqn:Ev; cbn [mbind option_bind]; try (by left);
    try (exists []; split; [done|]; right; change (zlen (@nil Z)) with 0; rewrite !Z.add_0_r; rewrite (value_char_err _ _ _ _ _ Ev) in *; split; [done|]; split; [done|]; split; [lia|done]).
  - exists [c]. split; [done|]. right. change (zlen (@nil Z)) with 0. rewrite Z.add_0_r. split; [done|]. split; [done|lia].
  - destruct (value_char_ok _ _ _ _ _ Ev) as [Ho1 Hl1]. rewrite Hok in Ho1. rewrite Hle in Hl1.
    assert (b = if max <? u32 (n + 1) then RErr HPE_HEADER_OVERFLOW (i + 1)
      else bmid 5 (av q1 h1 (u32 (n + 1)) s_header_value) (t ++ [data_event m_header_value [c]]) d l (i + 1)) as Eb'.
    { rewrite Eb. cbn [brun]. unfold counted. cbn. by destruct (max <? u32 (n + 1)). }
    clear Eb Eb0. destruct (Z.ltb_spec max (u32 (n + 1))) as [Hov|Hle'].
    { assert (over_more (d :: l) b) as Hom by (split; [done|]; exists (i + 1); done).
      destruct (value_ref q1 h1 (d :: l)) as [[[[q' h'] r] s]|] eqn:Er; [|by right].
      destruct (value_ref_stop _ _ _ _ _ _ _ Er) as [w Ew]. exists (c :: w). split; [by rewrite Ew|]. by left. }
    rewrite (u32_small (n + 1)) in * by lia.
    specialize (IH 4%nat q1 h1 (n + 1) (t ++ [data_event m_header_value [c]]) d (i + 1) Ho1 Hl1 ltac:(lia) Hmx). cbv zeta in IH. rewrite <- Eb' in IH.
    destruct (value_ref q1 h1 (d :: l)) as [[[[q' h'] r] s]|] eqn:Er.
    + destruct IH as (w & Ew & IH). exists (c :: w). split; [by rewrite Ew|]. destruct IH as [Ho|IH]; [left; split; [done|exact (proj2 Ho)]|right].
      destruct s as [| | |e kp].
      * destruct IH as (d1 & r1 & -> & -> & Hl & k' & E & Hk). eexists _, _. split; [done|]. split; [done|]. zlen_simpl. split; [lia|]. exists k'.
        split; [|by destruct Hk; right]. rewrite E, <- app_assoc. f_equal; [f_equal; lia|lia].
      * destruct IH as (d1 & r1 & -> & -> & Hl & k' & E & Hk). eexists _, _. split; [done|]. split; [done|]. zlen_simpl. split; [lia|]. exists k'.
        split; [|by destruct Hk; right]. rewrite E, <- app_assoc. f_equal; [f_equal; lia|lia].
      * destruct IH as (-> & E & Hl). split; [done|]. zlen_simpl. split; [|lia]. rewrite E, <- app_assoc. f_equal. f_equal. lia.
      * destruct IH as (E & He & Hl & Hr). zlen_simpl. split; [|split; [done|split; [lia|done]]]. rewrite E. f_equal. lia.
    + destruct IH as [E|Ho]; [by left|right; split; [done|exact (proj2 Ho)]].
Qed.
End Value.

(** * Bodies *)

Definition sized (s : state) : Prop := s = s_body_identity \/ s = s_chunk_data.
Definition sound_size (q : http_parser) (s : state) : bool :=
  negb ((content_length q =? 0) || (content_length q =? ULLONG_MAX)) && match s with s_chunk_data => flag q F_CHUNKED | _ => true end.
(** The round over a body of a known size: all of [w], which is what there is or what is asked for. *)
Definition body_exec (x : exec) (w : list Z) : exec :=
  mk_exec ((par x).[content_length := content_length (par x) - zlen w]) (p_state x) (nrd x)
    (fun m => if decide (m = m_body) then Some (p x) else marks x m) (p x + zlen w - 1) (us x).
Lemma body_round pre w r le x : p x = zlen pre -> sized (p_state x) -> w <> [] -> marks x m_body = None -> http_errno (par x) = HPE_OK ->
  zlen w = Z.min (content_length (par x)) (zlen (w ++ r)) ->
  round_of cb max (pre ++ w ++ r) le x =
    if sound_size (par x) (p_state x) then
      if content_length (par x) - zlen w =? 0 then
        match p_state x with
        | s_body_identity => Some (Again (set_marks (mk_exec ((par x).[content_length := 0].[st := s_message_done]) s_message_done (nrd x)
            (fun m => if decide (m = m_body) then Some (p x) else marks x m) (p x + zlen w - 1) (us x ++ [body w])) m_body None))
        | _ => Some (Next ((body_exec x w).[p_state := s_chunk_data_almost_done]))
        end
      else Some (Next (body_exec x w))
    else None.
Proof.
  intros Hp Hs Hw Hm Hok Hlen. destruct w as [|c w]; [done|]. unfold round_of. rewrite Hp. cbn [app]. rewrite zget_middle by done. cbn [mbind option_bind].
  destruct x as [qx sx nx mx px ux]. cbn [par p_state marks p nrd us] in *. subst px.
  assert (take_body (pre ++ c :: w ++ r) (mk_exec qx sx nx mx (zlen pre) ux) =
    if (content_length qx =? 0) || (content_length qx =? ULLONG_MAX) then None else Some (body_exec (mk_exec qx sx nx mx (zlen pre) ux) (c :: w))) as Et.
  { unfold take_body. cbn [par]. destruct ((content_length qx =? 0) || (content_length qx =? ULLONG_MAX)); [done|].
    assert (Z.min (content_length qx) (zlen (pre ++ c :: w ++ r) - zlen pre) = zlen (c :: w)) as Ez by (rewrite Hlen; zlen_simpl; lia).
    cbn [p]. rewrite Ez. unfold MARK. cbn [marks]. rewrite Hm. done. }
  unfold sound_size. destruct Hs as [-> | ->].
  - unfold round_body_identity. rewrite Et. destruct ((content_length qx =? 0) || (content_length qx =? ULLONG_MAX)); [done|]. cbn [mbind option_bind negb andb].
    change (content_length (par (body_exec _ _))) with (content_length qx - zlen (c :: w)). destruct (Z.eqb_spec (content_length qx - zlen (c :: w)) 0) as [E0|]; [|done].
    rewrite (data_rec _ _ _ (zlen pre) _ _ _ (c :: w)); [|done|done|].
    + cbn. by rewrite E0.
    + cbn [p body_exec]. apply (zslice_app pre (c :: w) r); [done|lia].
  - unfold round_chunk_data. cbn [par]. destruct (flag qx F_CHUNKED); [|by rewrite andb_false_r]. rewrite andb_true_r. cbn [negb]. rewrite Et.
    destruct ((content_length qx =? 0) || (content_length qx =? ULLONG_MAX)); [done|]. cbn [mbind option_bind negb].
    change (content_length (par (body_exec _ _))) with (content_length qx - zlen (c :: w)). by destruct (content_length qx - zlen (c :: w) =? 0).
Qed.

Definition left_ (q : http_parser) (k : Z) : http_parser := q.[content_length := content_length q - k].
Lemma bround_body q n s c : http_errno q = HPE_OK -> sized s -> 0 <= content_length q -> bround (at_ q n s) c =
  if sound_size q s then
    if content_length q =? 1 then
      match s with
      | s_body_identity => BAgain (at_ (left_ q 1) n s_message_done) [body [c]]
      | _ => BNext (at_ (left_ q 1) n s_chunk_data_almost_done) [body [c]]
      end
    else BNext (at_ (left_ q 1) n s) [body [c]]
  else BStuck.
Proof.
  intros Hok Hs Hcl. unfold bround. set (x := start_exec (at_ q n s)).
  assert (Hmk : forall m, marks x m = None) by (intros m; cbn; rewrite start_marks_live; destruct Hs as [-> | ->]; by destruct m).
  destruct (sound_size q s) eqn:Es.
  - assert (0 < content_length q) as Hpos by (unfold sound_size in Es; destruct (Z.eqb_spec (content_length q) 0); [done|lia]).
    pose proof (body_round [] [c] [] (lenient_http_headers (at_ q n s)) x eq_refl Hs ltac:(done) (Hmk m_body) Hok) as E. cbn [app] in E.
    change (sound_size (par x) (p_state x)) with (sound_size q s) in E. rewrite Es in E. change (content_length (par x)) with (content_length q) in E. change (zlen [c]) with 1 in E.
    change (p_state x) with s in E. rewrite E by lia. clear E. unfold left_. destruct (Z.eqb_spec (content_length q) 1) as [E1|].
    + rewrite E1. change (1 - 1) with 0. rewrite Z.eqb_refl. destruct Hs as [-> | ->]; cbv iota; [done|].
      rewrite (rest_one _ m_body _ 0) by (intros m; cbn; destruct (decide (m = m_body)); [done|exact (Hmk m)]). unfold body_exec. change (content_length (par x)) with (content_length q).
      unfold sync. cbn. by rewrite E1.
    + destruct (Z.eqb_spec (content_length q - 1) 0); [lia|]. rewrite (rest_one _ m_body _ 0) by (intros m; cbn; destruct (decide (m = m_body)); [done|exact (Hmk m)]). done.
  - destruct (Z.eqb_spec (content_length q) 0) as [E0|].
    + unfold round_of. change (zget [c] (p x)) with (Some c). cbn [mbind option_bind]. change (p_state x) with s.
      destruct Hs as [-> | ->]; unfold round_body_identity, round_chunk_data, take_body; change (par x) with (at_ q n s_body_identity) || change (par x) with (at_ q n s_chunk_data);
      change (content_length (at_ q n _)) with (content_length q); rewrite E0; cbn; [done|by destruct (negb _)].
    + pose proof (body_round [] [c] [] (lenient_http_headers (at_ q n s)) x eq_refl Hs ltac:(done) (Hmk m_body) Hok) as E. cbn [app] in E.
      change (sound_size (par x) (p_state x)) with (sound_size q s) in E. rewrite Es in E. change (content_length (par x)) with (content_length q) in E. change (zlen [c]) with 1 in E.
      by rewrite E by lia.
Qed.

Lemma last_cons {A} (d c : A) w : List.last (d :: w) c = List.last w d.
Proof. revert d c. induction w as [|e w IH]; intros d c; [done|]. exact (eq_trans (IH e c) (eq_sym (IH e d))). Qed.

(** The machine over a body. *)
Lemma left_left q j k : left_ (left_ q j) k = left_ q (j + k).
Proof. unfold left_. cbn. by rewrite Z.sub_add_distr. Qed.
Lemma sound_left q s k : sound_size q s = true -> 0 <= k < content_length q -> content_length q < ULLONG_MAX -> sound_size (left_ q k) s = true.
Proof.
  unfold sound_size. intros [_ H]%andb_true_iff Hk Hm. change (content_length (left_ q k)) with (content_length q - k). change (flag (left_ q k) F_CHUNKED) with (flag q F_CHUNKED).
  rewrite H. destruct (Z.eqb_spec (content_length q - k) 0), (Z.eqb_spec (content_length q - k) ULLONG_MAX); lia || done.
Qed.
Lemma bbody s w : forall k q n t c r i, http_errno q = HPE_OK -> sized s -> sound_size q s = true -> 0 < content_length q < ULLONG_MAX ->
  zlen (c :: w) = Z.min (content_length q) (zlen (c :: w ++ r)) ->
  bmid (S k) (at_ q n s) t c (w ++ r) i =
    let t := t ++ singles m_body (c :: w) in
    let q' := left_ q (zlen (c :: w)) in
    if content_length q =? zlen (c :: w) then
      match s with
      | s_body_identity => bmid (if (length w =? 0)%nat then k else 4%nat) (at_ q' n s_message_done) t (List.last w c) r (i + zlen w)
      | _ => brun (at_ q' n s_chunk_data_almost_done) t r (i + zlen (c :: w))
      end
    else brun (at_ q' n s) t r (i + zlen (c :: w)).
Proof.
  induction w as [|d w IH]; intros k q n t c r i Hok Hs Hsd Hcl Hlen; unfold bmid at 1; cbn [bbyte]; rewrite bround_body by (done || lia); rewrite Hsd.
  - change (zlen [c]) with 1. change (zlen (@nil Z)) with 0. rewrite Z.add_0_r. destruct (content_length q =? 1); [|done]. by destruct Hs as [-> | ->].
  - zlen_simpl. pose proof (zlen_nonneg w). destruct (Z.eqb_spec (content_length q) 1); [lia|]. cbn [app brun].
    assert (counted (at_ (left_ q 1) n s) = Some (at_ (left_ q 1) n s)) as -> by (unfold counted; by destruct Hs as [-> | ->]).
    assert (0 <= zlen r) by apply zlen_nonneg.
    pose proof (IH 4%nat (left_ q 1) n (t ++ [body [c]]) d r (i + 1) Hok Hs ltac:(apply sound_left; (done || lia)) ltac:(cbn; lia) ltac:(cbn; zlen_simpl; lia)) as E.
    unfold bmid at 1 in E. rewrite E. clear E IH. cbv zeta. change (content_length (left_ q 1)) with (content_length q - 1). zlen_simpl. rewrite left_left.
    replace (content_length q - 1 =? 1 + zlen w) with (content_length q =? 1 + (1 + zlen w)) by (destruct (Z.eqb_spec (content_length q) (1 + (1 + zlen w))), (Z.eqb_spec (content_length q - 1) (1 + zlen w)); lia || done).
    rewrite <- !app_assoc. replace (i + 1 + (1 + zlen w)) with (i + (1 + (1 + zlen w))) by lia. destruct (content_length q =? 1 + (1 + zlen w)); [|done].
    destruct Hs as [-> | ->]; [|done]. replace (i + 1 + zlen w) with (i + (1 + zlen w)) by lia. rewrite (last_cons d c). by destruct (length w =? 0)%nat.
Qed.
Lemma beof w : forall k q n t c i, http_errno q = HPE_OK -> bmid (S k) (at_ q n s_body_identity_eof) t c w i =
  ROk (at_ q n s_body_identity_eof) (t ++ singles m_body (c :: w)).
Proof.
  assert (forall q n c, bround (at_ q n s_body_identity_eof) c = BNext (at_ q n s_body_identity_eof) [body [c]]) as Hb.
  { intros q n c. unfold bround, round_of. change (zget [c] (p (start_exec _))) with (Some c). cbn [mbind option_bind].
    change (p_state (start_exec (at_ q n s_body_identity_eof))) with s_body_identity_eof. cbv iota. rewrite (rest_one _ m_body _ 0) by (by intros []). done. }
  induction w as [|d w IH]; intros k q n t c i Hok; unfold bmid; cbn [bbyte]; rewrite Hb; [done|]. cbn [brun]. unfold counted. cbn [PARSING_HEADER st at_ over].
  specialize (IH 4%nat q n (t ++ [body [c]]) d (i + 1) Hok). unfold bmid in IH. rewrite IH, <- app_assoc. done.
Qed.

(** * What is kept *)

Record wf (q : http_parser) : Prop := { W_len : 0 <= content_length q <= ULLONG_MAX; W_read : 0 <= nread q <= max }.
(** A parser that goes on, before a byte is counted and after. *)
Definition good (top : bool) (q : http_parser) : Prop := http_errno q = HPE_OK /\ wf q /\ sane_at top q (st q) (nread q).
Definition steady (q : http_parser) (b : bout) : Prop :=
  match b with
  | BNext q' _ => good true q' /\ lenient_http_headers q' = lenient_http_headers q
  | BAgain q' _ => good false q' /\ lenient_http_headers q' = lenient_http_headers q /\ (rank (st q') < rank (st q))%nat /\ multi (st q') = false
  | BErr e => e <> HPE_OK
  | BExit q' _ => upgraded q' = true /\ http_errno q' = HPE_OK
  | BStuck => False
  end.

Lemma simple_len q s n ch a : simple q s n ch = Some a -> 0 <= content_length q <= ULLONG_MAX -> 0 <= content_length (a_par a) <= ULLONG_MAX.
Proof.
  intros H Hq. pose proof (unhex_range ch). assert (IS_NUM ch = true -> 0 <= ch - 48 <= 9) as Hnum by (unfold IS_NUM; intros [?%Z.leb_le ?%Z.leb_le]%andb_true_iff; lia).
  assert (ULLONG_MAX = 18446744073709551615) as Hm by done.
  destruct s; try discriminate H; open_simple; cases; cbn; unfold header_flags; repeat case_match; cbn; try (exact Hq); try lia.
  all: try (match goal with H : negb (IS_NUM _) = false |- _ => apply negb_false_iff, Hnum in H; lia end).
  all: first [match goal with |- context [u64 ?z] => pose proof (u64_range z); lia end
    | match goal with H : (table unhex _ =? -1) = false |- _ => apply Z.eqb_neq in H; lia end].
Qed.

(** What a state that takes one byte does, as a round. *)
Definition done_with (x : exec) (a : act) (x' : exec) : Prop := same (par x') (a_par a) /\ p_state x' = a_state a /\ nrd x' = if a_reset a then 0 else nrd x.
Definition out_of (x : exec) (a : act) (r : round (S := list event)) : Prop :=
  match r with
  | Next x' => a_end a = Break /\ done_with x a x'
  | Again x' => a_end a = Reexecute /\ done_with x a x'
  | Return q _ _ => is_ok (http_errno q) = false
  end.
Lemma finish_out x a y r : finish a y = Some r -> done_with x a y -> (forall e, a_end a = Error e -> e <> HPE_OK) -> out_of x a r.
Proof.
  unfold finish, error, RETURN. intros H Hy He. destruct (a_end a) as [| |e] eqn:Ee; simplify_eq; [done|done|]. specialize (He e eq_refl). cbn. by destruct e.
Qed.
Lemma notify_out x a y e er k r : CALLBACK_NOTIFY_ cb y e er k = Some r -> done_with x a y ->
  (forall z, k z = Some r -> done_with x a z -> out_of x a r) -> out_of x a r.
Proof.
  unfold CALLBACK_NOTIFY_. destruct (negb (is_ok (http_errno (par y)))); [done|]. unfold record. set (rc := match e with headers_complete => _ | _ => 0 end). intros H (H1 & H2 & H3) Hk.
  destruct (rc =? 0); cbn [negb] in H.
  - cbn in H. destruct (is_ok (http_errno (par y))) eqn:Eo; cbn [negb] in H; [|by injection H as <-]. eapply Hk; [exact H|done].
  - cbn in H. by injection H as <-.
Qed.
Lemma run_act_out buf x a r : run_act cb buf x a = Some r -> (forall e, a_end a = Error e -> e <> HPE_OK) -> out_of x a r.
Proof.
  rewrite run_act_eq. cbv zeta. set (y := match a_mark a with Some m => MARK (base x a) m | None => base x a end). intros H He.
  assert (done_with x a y) as Hy.
  { assert (par y = par (base x a) /\ nrd y = nrd (base x a) /\ p_state y = p_state (base x a)) as (E1 & E2 & E3)
      by (unfold y, MARK; destruct (a_mark a); [by destruct (marks (base x a) _)|done]). unfold done_with. rewrite E1, E2, E3. cbn. by destruct (a_reset a). }
  clearbody y. destruct (a_call a) as [|m adv|e adv].
  - by eapply finish_out.
  - unfold CALLBACK_DATA_ in H. destruct (negb (is_ok (http_errno (par y)))); [done|]. destruct (marks y m) as [b|]; [|by eapply finish_out].
    destruct (zslice buf b (p y - b)); [|done]. cbn [mbind option_bind] in H. eapply notify_out; [exact H|done|]. intros z Hz Hd. eapply finish_out; [exact Hz|exact Hd|exact He].
  - eapply notify_out; [exact H|done|]. intros z Hz Hd. eapply finish_out; [exact Hz|exact Hd|exact He].
Qed.
Lemma run_act_some q c a : http_errno (a_par a) = HPE_OK -> is_Some (run_act cb [c] (start_exec q) a).
Proof.
  intros Ho. rewrite run_act_eq. cbv zeta. set (y := match a_mark a with Some m => MARK (base (start_exec q) a) m | None => base (start_exec q) a end).
  assert (http_errno (par y) = HPE_OK /\ p y = 0 /\ forall m b, marks y m = Some b -> b = 0) as (Hy & Hp & Hm).
  { assert (forall m b, marks (base (start_exec q) a) m = Some b -> b = 0) as Hb by (intros m b; cbn; rewrite start_marks_live; destruct (decide _); congruence).
    pose proof (base_errno (start_exec q) a Ho). unfold y, MARK. destruct (a_mark a) as [m0|]; [|done]. destruct (marks (base (start_exec q) a) m0) eqn:E0; [done|].
    split; [done|]. split; [done|]. intros m b. cbn. destruct (decide (m = m0)); [congruence|]. apply Hb. }
  clearbody y. assert (forall z, is_Some (finish a z)) as Hf by (intros z; unfold finish, error, RETURN; by destruct (a_end a)).
  assert (forall e er k, (forall z, is_Some (k z)) -> is_Some (CALLBACK_NOTIFY_ cb y e er k)) as Hn.
  { intros e er k Hk. unfold CALLBACK_NOTIFY_. rewrite Hy. cbn [is_ok negb]. unfold record. cbv zeta.
    match goal with |- context [if negb (is_ok (http_errno (par ?X))) then _ else _] => destruct (negb (is_ok (http_errno (par X)))) end; [done|apply Hk]. }
  destruct (a_call a) as [|m adv|e adv]; [apply Hf| |by apply Hn]. unfold CALLBACK_DATA_. rewrite Hy. cbn [is_ok negb]. destruct (marks y m) as [b|] eqn:E; [|apply Hf].
  rewrite (Hm _ _ E), Hp. cbn. apply Hn. intros z. apply Hf.
Qed.
Lemma bround_simple q c a : http_errno q = HPE_OK -> special (st q) = false -> simple q (st q) (nread q) c = Some a ->
  let q' := at_ (a_par a) (if a_reset a then 0 else nread q) (a_state a) in
  match bround q c with
  | BNext q1 _ => a_end a = Break /\ q1 = q'
  | BAgain q1 _ => a_end a = Reexecute /\ q1 = q'
  | BErr _ => True
  | _ => False
  end.
Proof.
  intros Hok Hs Ea. cbv zeta. destruct (run_act_some q c a) as [r Er]; [by rewrite (proj1 (simple_keeps _ _ _ _ _ Ea))|].
  unfold bround. rewrite (round_of_simple _ _ _ c) by done. change (par (start_exec q)) with q. change (p_state (start_exec q)) with (st q). change (nrd (start_exec q)) with (nread q).
  rewrite Ea. cbn [mbind option_bind]. rewrite Er. apply run_act_out in Er.
  - destruct r as [x'|x'|q' s' n']; cbn in Er; [| |by rewrite Er]; destruct Er as [He (H1 & H2 & H3)]; (split; [done|]); unfold sync; rewrite H2, H3; by apply same_sync.
  - intros e He. apply simple_coherent in Ea. unfold coherent in Ea. rewrite He in Ea. tauto.
Qed.
Lemma bround_err q c e : bround q c = BErr e -> e <> HPE_OK.
Proof. unfold bround. intros H ->. destruct (round_of _ _ _ _ _) as [[x'|x'|q1 s1 n1]|]; try done. destruct (http_errno q1) eqn:E; cbn in H; congruence. Qed.
Lemma simple_steady q c : special (st q) = false -> good false q -> steady q (bround q c).
Proof.
  intros Hs (Hok & [Hl Hn] & Hsn). destruct (simple_sane _ _ _ c Hs Hsn) as (a & Ea & Ha). pose proof (bround_simple q c a Hok Hs Ea) as Hb. cbv zeta in Hb.
  destruct (simple_keeps _ _ _ _ _ Ea) as [Ho Hle]. pose proof (simple_len _ _ _ _ _ Ea Hl) as Hl'. set (n := if a_reset a then 0 else nread q) in *.
  assert (0 <= n <= max) as Hr by (unfold n; destruct (a_reset a); lia). unfold sane_after in Ha. fold n in Ha.
  destruct (bround q c) as [q1 u|q1 u|e|q1 u|] eqn:Eb; try done.
  - destruct Hb as [He ->]. rewrite He in Ha. split; [|exact Hle]. split; [exact (eq_trans Ho Hok)|]. split; [by split|exact Ha].
  - destruct Hb as [He ->]. rewrite He in Ha. split; [|split; [exact Hle|]].
    + split; [exact (eq_trans Ho Hok)|]. split; [by split|exact Ha].
    + split; [by eapply simple_again_rank|by eapply simple_again].
  - by eapply bround_err.
Qed.
Lemma replied_keeps q q' : replied q = Some q' -> content_length q' = content_length q /\ lenient_http_headers q' = lenient_http_headers q /\ http_errno q' = http_errno q.
Proof. unfold replied. intros H. repeat case_match; simplify_eq; done. Qed.
Lemma new_message_idle top q n : upgrade q = false -> sane_at top q (NEW_MESSAGE q) n.
Proof. unfold NEW_MESSAGE, start_state. intros H. by destruct (http_should_keep_alive q), (type q). Qed.
Lemma new_message_upgraded q q' : upgrade q' = true -> st q' = NEW_MESSAGE q -> upgraded q' = true.
Proof. unfold upgraded, NEW_MESSAGE, start_state. intros -> ->. by destruct (http_should_keep_alive q), (type q). Qed.
Lemma turn_sane q : 0 <= content_length q <= ULLONG_MAX ->
  match turn_of q with Leave => upgrade q = true | Complete => upgrade q = false | To s => sane_at true q s 0 end.
Proof.
  intros Hl. unfold turn_of. cbv zeta. destruct (flag q F_CHUNKED) eqn:Ef, (flag q F_SKIPBODY), (upgrade q) eqn:Eu, (bool_decide (method q = HTTP_CONNECT)),
    (Z.ltb_spec 0 (content_length q)), (Z.eqb_spec (content_length q) ULLONG_MAX), (Z.eqb_spec (content_length q) 0); cbn [andb orb negb]; try done; try lia.
  all: try (by destruct (http_message_needs_eof q)). all: cbn; lia.
Qed.
Lemma between_steady q c : between (st q) -> good false q -> steady q (bround q c).
Proof using Hmax.
  intros Hb (Hok & [Hl Hn] & _). pose proof (bround_err q c) as He. unfold bround, round_of in *. change (zget [c] (p (start_exec q))) with (Some c) in *. cbn [mbind option_bind] in *. change (p_state (start_exec q)) with (st q) in *.
  destruct Hb as [E|[E|E]]; rewrite E in *.
  - rewrite almost_done_eq in * by done. change (par (start_exec q)) with q in *. destruct (c =? LF); [|by apply He]. cbn [negb] in *. destruct (flag q F_TRAILING).
    { split; [done|]. split; [done|]. split; [|done]. rewrite E. cbn. lia. }
    destruct (flag q F_CHUNKED && flag q F_CONTENTLENGTH); [by apply He|]. destruct (replied q) as [q'|] eqn:Er; [|by apply He]. destruct (replied_keeps _ _ Er) as (E1 & E2 & E3).
    split; [|split; [exact E2|split; [rewrite E; cbn; lia|done]]]. split; [cbn; by rewrite E3|]. split; [|done]. split; cbn; [by rewrite E1|done].
  - rewrite headers_done_eq in * by done. destruct (c =? LF); [|by apply He]. cbn [negb] in *. cbn [par start_exec] in *. pose proof (turn_sane (q.[nread := 0]) Hl) as Ht.
    destruct (turn_of (q.[nread := 0])) as [| |s].
    + unfold RETURN. cbn. rewrite Hok. split; [|exact Hok]. eapply new_message_upgraded; [exact Ht|done].
    + split; [|done]. split; [done|]. split; [split; [exact Hl|cbn; lia]|]. by apply (new_message_idle true (q.[nread := 0]) 0).
    + split; [|done]. split; [done|]. split; [split; [exact Hl|cbn; lia]|]. exact Ht.
  - rewrite message_done_eq in * by done. change (par (start_exec q)) with q in *. destruct (upgrade q) eqn:Eu.
    + unfold RETURN. cbn. rewrite Hok. split; [|exact Hok]. eapply new_message_upgraded; [exact Eu|done].
    + split; [|done]. split; [done|]. split; [by split|]. by apply (new_message_idle true q (nread q)).
Qed.
Lemma special_split s : special s = true -> multi s = false -> between s.
Proof. unfold between. destruct s; try done; eauto. Qed.
Lemma one_steady q c : multi (st q) = false -> good false q -> steady q (bround q c).
Proof using Hmax. intros Hm Hq. destruct (special (st q)) eqn:Es; [apply between_steady; [by apply special_split|done]|by apply simple_steady]. Qed.

(** States that take several bytes, with one. *)
Lemma field_char_len q ch c q' : field_char q ch c = Some q' -> content_length q' = content_length q.
Proof. unfold field_char, matching, next_index. intros H. destruct (header_state q); cases; try done; cbn in *; repeat case_match; simplify_eq; done. Qed.
Lemma value_char_len q h ch q' h' : value_char q h ch = Some (inl (q', h')) -> 0 <= content_length q <= ULLONG_MAX -> 0 <= content_length q' <= ULLONG_MAX.
Proof.
  unfold value_char, matching, next_index. intros H Hq. destruct h; cases; simplify_eq; try exact Hq.
  all: cbn; match goal with |- context [u64 ?z] => pose proof (u64_range z); unfold ULLONG_MAX; lia end.
Qed.
Lemma av_self q n s : av q (header_state q) n s = at_ q n s.
Proof. by destruct q. Qed.


Lemma field_char_naming q ch c : naming (header_state q) = true -> exists q', field_char q ch c = Some q' /\ naming (header_state q') = true.
Proof.
  intros H. unfold field_char, matching, next_index. destruct (header_state q) eqn:Eh; try discriminate H; cbn [mbind option_bind]; eexists; (split; [reflexivity|]).
  all: repeat case_match; cbn; rewrite ?Eh; try done. all: cbn in *; repeat case_match; done.
Qed.
Lemma value_char_valued q h ch : valued h = true ->
  exists r, value_char q h ch = Some r /\ match r with inl (q', h') => valued h' = true | inr _ => True end.
Proof. intros H. unfold value_char, matching. destruct h; try discriminate H; repeat case_match; eexists; (split; [reflexivity|]); cbn; repeat case_match; done. Qed.
Lemma field_steady q c : st q = s_header_field -> good false q -> steady q (bround q c).
Proof using Hmax.
  intros Hs (Hok & [Hl Hn] & Hsn). assert (q = at_ q (nread q) s_header_field) as Eq by (rewrite <- Hs; by destruct q). rewrite Eq at 2. rewrite bround_field by done. rewrite Hs in Hsn.
  destruct (TOKEN c =? 0); [destruct (c =? 58); [|done]; split; [|done]; split; [done|]; by split|]. destruct (field_char_naming q c (TOKEN c) Hsn) as (q' & E & Hn'). rewrite E. destruct (field_char_ok _ _ _ _ E) as [E1 E2].
  split; [|exact E2]. split; [exact (eq_trans E1 Hok)|]. split; [|exact Hn']. split; [cbn; by rewrite (field_char_len _ _ _ _ E)|exact Hn].
Qed.
Lemma value_steady q c : st q = s_header_value -> good false q -> steady q (bround q c).
Proof using Hmax.
  intros Hs (Hok & [Hl Hn] & Hsn). assert (q = av q (header_state q) (nread q) s_header_value) as Eq by (rewrite av_self, <- Hs; by destruct q). rewrite Eq at 2.
  rewrite (bround_value (lenient_http_headers q)) by (done || lia). rewrite Hs in Hsn.
  destruct (c =? CR); [split; [|done]; split; [done|]; by split|]. destruct (c =? LF); [split; [split; [done|]; by split|]; split; [done|]; split; [rewrite Hs; cbn; lia|done]|]. destruct (bad_char _ c); [done|].
  destruct (value_char_valued q (header_state q) c Hsn) as (r & E & Hr). rewrite E. destruct r as [[q' h']|[e h']]; [|by rewrite (value_char_err _ _ _ _ _ E)].
  destruct (value_char_ok _ _ _ _ _ E) as [E1 E2]. split; [|exact E2]. split; [exact (eq_trans E1 Hok)|]. split; [|exact Hr]. split; [|exact Hn]. cbn. by eapply value_char_len.
Qed.
Lemma sane_sound top q n : sized (st q) -> sane_at top q (st q) n -> sound_size q (st q) = true /\ 0 < content_length q < ULLONG_MAX.
Proof.
  unfold sound_size. intros [E|E] H; rewrite E in *; cbn in H; [|destruct H as [-> H]]; (split; [|lia]); destruct (Z.eqb_spec (content_length q) 0), (Z.eqb_spec (content_length q) ULLONG_MAX); lia || done.
Qed.
Lemma body_steady q c : sized (st q) -> good false q -> steady q (bround q c).
Proof using Hmax.
  intros Hs (Hok & [Hl Hn] & Hsn). assert (q = at_ q (nread q) (st q)) as Eq by (by destruct q). rewrite Eq at 2. rewrite bround_body by (done || lia).
  destruct (sane_sound _ _ _ Hs Hsn) as [-> Hc]. assert (0 <= content_length q - 1 <= ULLONG_MAX) as Hl' by lia. destruct (Z.eqb_spec (content_length q) 1) as [E|].
  - destruct Hs as [Es|Es]; rewrite Es in Hsn |- *.
    + split; [split; [done|]; by split|]. split; [done|]. split; [rewrite Es; cbn; lia|done].
    + split; [|done]. split; [done|]. split; [by split|]. split; [exact (proj1 Hsn)|cbn; lia].
  - split; [|done]. split; [done|]. split; [by split|]. destruct Hs as [Es|Es]; rewrite Es in Hsn |- *; [cbn; lia|]. split; [exact (proj1 Hsn)|cbn; lia].
Qed.
Lemma bround_eof q n c : bround (at_ q n s_body_identity_eof) c = BNext (at_ q n s_body_identity_eof) [body [c]].
Proof.
  unfold bround, round_of. change (zget [c] (p (start_exec _))) with (Some c). cbn [mbind option_bind].
  change (p_state (start_exec (at_ q n s_body_identity_eof))) with s_body_identity_eof. cbv iota. rewrite (rest_one _ m_body _ 0) by (by intros []). done.
Qed.
Lemma bround_steady q c : good false q -> steady q (bround q c).
Proof using Hmax.
  intros Hq. destruct (multi (st q)) eqn:Em; [|by apply one_steady]. destruct (st q) eqn:Es; try discriminate Em.
  - by apply field_steady.
  - by apply value_steady.
  - apply body_steady; [rewrite Es; by right|done].
  - apply body_steady; [rewrite Es; by left|done].
  - assert (q = at_ q (nread q) s_body_identity_eof) as Eq by (rewrite <- Es; by destruct q). rewrite Eq at 2. rewrite bround_eof. split; [|done]. destruct Hq as (? & [? ?] & _). split; [done|]. by split.
Qed.

Lemma counted_good q : good true q -> match counted q with Some q' => good false q' /\ lenient_http_headers q' = lenient_http_headers q /\ st q' = st q | None => True end.
Proof using Hmax.
  intros (Hok & [Hl Hn] & Hs). unfold counted. destruct (PARSING_HEADER (st q)) eqn:Ep.
  - rewrite (u32_small (nread q + 1)) by lia. destruct (Z.ltb_spec max (nread q + 1)); [done|]. split; [|done]. split; [done|]. split; [split; [done|cbn; lia]|].
    cbn. destruct (st q); try done. split; [exact (proj1 Hs)|]. cbn in Hs. lia.
  - split; [|done]. split; [done|]. split; [done|]. by destruct (st q).
Qed.
Definition fine (b : bres) : Prop :=
  match b with
  | ROk q _ => good true q
  | RErr e _ => e <> HPE_OK
  | RExit q _ _ => upgraded q = true /\ http_errno q = HPE_OK
  | RStuck => False
  end.
Lemma bmid_fine l i c : (forall q t, good true q -> fine (brun q t l (i + 1))) -> forall k q t, good false q -> (rank (st q) <= k)%nat -> fine (bmid k q t c l i).
Proof using Hmax.
  intros Hnext. induction k as [|k IH]; intros q t Hq Hk; [by destruct (st q); cbn in Hk; lia|]. unfold bmid in *. cbn [bbyte]. pose proof (bround_steady q c Hq) as Hb.
  destruct (bround q c) as [q1 u|q1 u|e|q1 u|]; cbn in Hb; [apply Hnext; tauto| |done|done|done]. destruct Hb as (? & _ & ? & _). apply IH; [done|lia].
Qed.
Lemma rank_five s : (rank s <= 4)%nat.
Proof. destruct s; cbn; lia. Qed.
Lemma brun_fine l : forall q t i, good true q -> fine (brun q t l i).
Proof using Hmax.
  induction l as [|c l IH]; intros q t i Hq; [done|]. cbn [brun]. pose proof (counted_good q Hq) as Hc. destruct (counted q) as [q'|]; [|done]. destruct Hc as (Hq' & _ & _).
  apply bmid_fine; [intros; by apply IH|done|]. pose proof (rank_five (st q')). lia.
Qed.
Lemma mid_fine l q t c i : good false q -> fine (bmid 5 q t c l i).
Proof using Hmax. intros Hq. apply bmid_fine; [intros; by apply brun_fine|done|]. pose proof (rank_five (st q)). lia. Qed.

End Bytes.
End HttpBytes.
