(* ===== verification/HttpChunk.v ===== *)
(** The HTTP parser does not depend on how its input is cut: the loop of
    [http_parser_execute] does what the machine on bytes does. *)
From S2P Require Import Prelude HttpParser HttpStep HttpSane HttpBytes.

Module HttpChunk.
Import HttpParser HttpStep HttpSane HttpBytes.
#[local] Existing Instance exec_rebuild.

Section Bytes.
Context {client : Client}.
Let Hhc : blind hc := hc_blind.
Let Hmax : 0 < max < 2 ^ 31 := max_range.
Abbreviation cb := (record hc).
Abbreviation exec := (exec (S := list event)).

(** * The loop *)

Section Loop.
Context (le : bool).

Definition exec_mid (f : nat) (buf : list Z) (x : exec) : option (http_parser * list event * Z) :=
  r ← round_of cb max buf le x;
  match r with
  | Next x => execute_loop cb max f buf le true (x.[p := p x + 1])
  | Again x => execute_loop cb max f buf le false x
  | Return q s n => Some (q, s, n)
  end.
Lemma before_end (pre l : list Z) c : (zlen pre =? zlen (pre ++ c :: l)) = false.
Proof. apply Z.eqb_neq. zlen_simpl. pose proof (zlen_nonneg l). lia. Qed.
Lemma loop_mid f pre c l x : p x = zlen pre -> execute_loop cb max (S f) (pre ++ c :: l) le false x = exec_mid f (pre ++ c :: l) x.
Proof. intros E. cbn [execute_loop]. by rewrite E, before_end. Qed.
Lemma loop_top f pre c l x : p x = zlen pre -> execute_loop cb max (S f) (pre ++ c :: l) le true x =
  if PARSING_HEADER (p_state x) then
    let x := x.[nrd := u32 (nrd x + 1)] in
    if max <? nrd x then Some (sync (SET_ERRNO x HPE_HEADER_OVERFLOW), us x, p x) else exec_mid f (pre ++ c :: l) x
  else exec_mid f (pre ++ c :: l) x.
Proof.
  intros E. cbn [execute_loop]. rewrite E, before_end. cbn [andb]. destruct (PARSING_HEADER (p_state x)); [|done]. unfold COUNT_HEADER_SIZE.
  change (u32 1) with 1. cbv zeta. destruct x as [qx sx nx mx px ux]. cbn in E |- *. destruct (max <? u32 (nx + 1)); [|done]. cbn. by rewrite E.
Qed.

Definition top_ok (l : list Z) : Prop := forall pre x q t fuel, good true q -> lenient_http_headers q = le -> stands (l = []) pre x q t -> (l = [] -> moved pre x) ->
  (5 * length l + 1 <= fuel)%nat -> (length l <= 1)%nat \/ ~ overflows (brun q t l (zlen pre)) ->
  result_ok (zlen (pre ++ l)) (execute_loop cb max fuel (pre ++ l) le true x) (brun q t l (zlen pre)).

(** Rounds of states that take one byte. *)
Lemma mid_ok l : top_ok l -> forall k pre c x q t f, stands False pre x q t -> good false q -> lenient_http_headers q = le -> multi (st q) = false ->
  (rank (st q) <= k)%nat -> (k + 5 * length l <= f)%nat -> l = [] \/ ~ overflows (bmid k q t c l (zlen pre)) ->
  result_ok (zlen (pre ++ c :: l)) (exec_mid f (pre ++ c :: l) x) (bmid k q t c l (zlen pre)).
Proof using Hhc Hmax.
  intros Htop k. induction k as [|k IH]; intros pre c x q t f Hx Hq Hle Hm Hk Hf Hov; [by destruct (st q); cbn in Hk; lia|].
  assert (agrees False pre c t (round_of cb max (pre ++ c :: l) le x) (bround q c)) as Ha.
  { destruct (special (st q)) eqn:Es; [apply between_agrees; [done|by apply special_split]|by apply simple_agrees]. }
  pose proof (one_steady q c Hm Hq) as Hs.
  unfold bmid in *. cbn [bbyte] in *. unfold exec_mid. destruct (bround q c) as [q1 u|q1 u|e|q1 u|] eqn:Eb; cbn [agrees steady] in Ha, Hs.
  - destruct Ha as (x1 & -> & Hmv & Hst). destruct Hs as [Hw1 Hl1]. cbn [mbind option_bind]. change (c :: l) with ([c] ++ l). rewrite app_assoc.
    replace (zlen pre + 1) with (zlen (pre ++ [c])) in * by (zlen_simpl; lia).
    apply Htop; [done|by rewrite Hl1|by eapply stands_weaken; [|exact Hst]|done|lia|]. destruct Hov as [->|?]; [left; simpl; lia|by right].
  - destruct Ha as (x1 & -> & Hst). destruct Hs as (Hw1 & Hl1 & Hr1 & Hm1). cbn [mbind option_bind]. destruct f as [|f]; [lia|].
    rewrite loop_mid by exact (A_pos _ _ _ _ _ Hst). apply IH; [done|done|by rewrite Hl1|done|lia|lia|done].
  - destruct Ha as (q1 & s1 & -> & He). eexists _, _. split; [reflexivity|]. split; [done|exact Hs].
  - destruct Ha as (s1 & -> & Hj). eexists. split; [reflexivity|done].
  - done.
Qed.

(** What is marked grows with the bytes of a run. *)
Lemma pend_run m a w : forall pre t J, 0 <= a <= zlen pre -> joined_rev t = pend (Some (m, a)) pre J -> joined_rev (t ++ singles m w) = pend (Some (m, a)) (pre ++ w) J.
Proof.
  induction w as [|c w IH]; intros pre t J Ha Hj; cbn [singles map]; [by rewrite !app_nil_r|].
  change (data_event m [c] :: map (fun c => data_event m [c]) w) with ([data_event m [c]] ++ singles m w). change (c :: w) with ([c] ++ w). rewrite !app_assoc.
  apply IH; [zlen_simpl; lia|]. by rewrite joined_snoc, Hj, pend_snoc.
Qed.
Lemma live_cur pre x q t m : stands False pre x q t -> live (st q) = Some m ->
  exists a, marks x m = Some a /\ 0 <= a <= zlen pre /\ only x (Some (m, a)) /\ joined_rev t = pend (Some (m, a)) pre (joined_rev (us x)).
Proof.
  intros [_ _ _ _ _ (cur & Hcur & Hfit & Hj)] Hl. unfold fits in Hfit. destruct cur as [[m1 a]|]; [|congruence].
  destruct Hfit as [Ha [H|(_ & H & _)]]; [|congruence]. assert (m1 = m) as -> by congruence. exists a. split; [|done]. rewrite Hcur. by destruct (decide (m = m)).
Qed.
Lemma unmarked x m a : only x (Some (m, a)) -> forall q s n i (u : list event) m', marks (set_marks (mk_exec q s n (marks x) i u) m None) m' = None.
Proof. intros H q s n i u m'. cbn. destruct (decide (m' = m)) as [|Hne]; [done|]. rewrite H. by destruct (decide (m' = m)). Qed.
Lemma moved_run x m a pre w : only x (Some (m, a)) -> a <= zlen pre -> w <> [] -> forall q s n i (u : list event), moved (pre ++ w) (mk_exec q s n (marks x) i u).
Proof.
  intros H Ha Hw q s n i u m' a' E. cbn in E. rewrite H in E. destruct (decide (m' = m)); [|done]. simplify_eq. zlen_simpl.
  destruct w; [done|]. zlen_simpl. pose proof (zlen_nonneg w). lia.
Qed.
Lemma at_same q q' : same q q' -> q = at_ q' (nread q) (st q).
Proof. destruct q, q'. unfold same, strip, at_. cbn. intros H. by injection H as -> -> -> -> -> -> -> -> -> -> -> ->. Qed.
Lemma field_ref_at n s l : forall q, field_ref (at_ q n s) l = match field_ref q l with Some (q', r) => Some (at_ q' n s, r) | None => None end.
Proof.
  induction l as [|c l IH]; intros q; [done|]. rewrite !field_ref_cons. destruct (TOKEN c =? 0); [done|]. rewrite field_char_at.
  destruct (field_char q c (TOKEN c)); [apply IH|done].
Qed.
Lemma field_ref_len' l : forall q q' r, field_ref q l = Some (q', r) -> content_length q' = content_length q.
Proof.
  induction l as [|c l IH]; intros q q' r H; simpl in H; [by simplify_eq|]. destruct (TOKEN c =? 0); [by simplify_eq|].
  destruct (field_char q c (TOKEN c)) as [q1|] eqn:E; [|done]. rewrite (IH _ _ _ H). by eapply field_char_len.
Qed.

Lemma field_ok c l : (forall l', (length l' <= length l)%nat -> top_ok l') -> forall pre x q t f, stands False pre x q t -> good false q -> lenient_http_headers q = le ->
  st q = s_header_field -> (5 + 5 * length l <= f)%nat -> l = [] \/ ~ overflows (bmid 5 q t c l (zlen pre)) ->
  result_ok (zlen (pre ++ c :: l)) (exec_mid f (pre ++ c :: l) x) (bmid 5 q t c l (zlen pre)).
Proof using Hhc Hmax.
  intros Htop pre x q t f Hx Hq Hle Hst Hf Hov. pose proof (mid_fine l q t c (zlen pre) Hq) as Hfine. destruct Hq as (_ & [Hl Hn] & _). destruct (live_cur _ _ _ _ m_header_field Hx ltac:(by rewrite Hst)) as (a & Hm & Ha & Hon & Hj).
  destruct Hx as [Hs Hps Hnr Hok Hp _]. pose proof (eq_trans (same_errno _ _ Hs) Hok) as Hok'. rewrite Hst in Hps.
  assert (q = at_ q (nread q) s_header_field) as Eq by (rewrite <- Hst; by destruct q).
  pose proof (bfield l 4 q (nread q) t c (zlen pre) Hok Hn) as Hb. cbv zeta in Hb. rewrite <- Eq in Hb.
  assert (Hno : ~ over_more l (bmid 5 q t c l (zlen pre))) by (intros [? ?]; destruct Hov; done).
  unfold exec_mid, round_of. rewrite Hp, zget_middle by done. cbn [mbind option_bind]. rewrite Hps.
  pose proof (field_ref_at (nread (par x)) (st (par x)) (c :: l) q) as Er. rewrite <- (at_same _ _ Hs) in Er.
  destruct (field_ref q (c :: l)) as [[q1 [|d r]]|] eqn:Ef.
  - destruct Hb as [[Eb Hcap]|?]; [|done]. rewrite Eb.
    rewrite <- (app_nil_r (c :: l)) in Er at 1. pose proof (field_round pre (c :: l) [] _ x a Hp Hok' Hm Ha ltac:(done) Er) as Hr. rewrite app_nil_r in Hr. rewrite Hr. clear Er Hr.
    cbn [nrd]. replace (zlen (c :: l) - 1) with (zlen l) by (zlen_simpl; lia). rewrite Hnr, count_small by (zlen_simpl; pose proof (zlen_nonneg l); lia). cbn [mbind option_bind].
    rewrite u32_step by (pose proof (zlen_nonneg l); lia).
    pose proof (Htop [] ltac:(simpl; lia) (pre ++ c :: l)) as HT. rewrite app_nil_r in HT. apply HT; clear HT.
    + by rewrite Eb in Hfine.
    + cbn. by rewrite (proj2 (field_ref_ok _ _ _ _ Ef)).
    + split; [done|exact Hps|done| |cbn; zlen_simpl; lia|].
      * cbn. by rewrite (proj1 (field_ref_ok _ _ _ _ Ef)).
      * exists (Some (m_header_field, a)). split; [exact Hon|]. split; [split; [zlen_simpl; pose proof (zlen_nonneg l); lia|by left]|]. by apply pend_run.
    + intros _. eapply moved_run; [done|lia|done].
    + simpl; lia.
    + left; simpl; lia.
  - destruct Hb as (w & Ew & Hd & [(k & Eb & Hcap)|?]); [|done]. rewrite Eb. rewrite Ew in Er |- *.
    rewrite (field_round pre w (d :: r) _ x a Hp Hok' Hm Ha ltac:(by destruct w) Er). clear Er. cbn [nrd]. pose proof (zlen_nonneg w).
    assert (http_errno q1 = HPE_OK) as Hok1 by (by rewrite (proj1 (field_ref_ok _ _ _ _ Ef))).
    rewrite Hnr, count_small by lia. unfold bmid in *. cbn [bbyte] in *. rewrite bround_field in Eb |- * by (done || lia). rewrite Hd in Eb |- *. cbn [Z.eqb] in Eb |- *.
    destruct (d =? 58).
    + rewrite u32_step by lia. change (d :: r) with ([d] ++ r). rewrite !app_assoc. cbn [mbind option_bind].
      replace (zlen pre + zlen w + 1) with (zlen ((pre ++ w) ++ [d])) in * by (zlen_simpl; lia).
      assert (length r <= length l)%nat as Hlr by (apply (f_equal length) in Ew; rewrite length_app in Ew; simpl in Ew; lia).
      apply Htop; [done| | | | |lia|].
      * split; [exact Hok1|]. split; [|done]. split; [|cbn; lia]. cbn. by rewrite (field_ref_len' _ _ _ _ Ef).
      * cbn. by rewrite (proj2 (field_ref_ok _ _ _ _ Ef)).
      * split; [done|done|done|exact Hok1|cbn; zlen_simpl; lia|]. exists None. split; [exact (unmarked _ _ _ Hon _ _ _ _ _)|]. split; [done|].
        rewrite joined_snoc, (pend_run _ _ _ _ _ _ Ha Hj). change (header_field []) with (data_event m_header_field []). rewrite pend_send. cbn [pend]. by rewrite <- joined_snoc.
      * intros _. apply moved_none. exact (unmarked _ _ _ Hon _ _ _ _ _).
      * destruct Hov as [->|Hov].
        { left. destruct w as [|? [|]]; simplify_eq/=; lia. }
        right. by rewrite <- Eb.
    + eexists _, _. cbn. split; [reflexivity|]. done.
  - destruct Hb as [Hb|?]; [by rewrite Hb in Hfine|done].
Qed.

Lemma value_ref_len l : forall q h q' h' r s, value_ref le q h l = Some (q', h', r, s) -> 0 <= content_length q <= ULLONG_MAX -> 0 <= content_length q' <= ULLONG_MAX.
Proof.
  induction l as [|c l IH]; intros q h q' h' r s H Hq; [by simplify_eq/=|]. rewrite value_ref_cons in H.
  destruct (c =? CR); [by simplify_eq|]. destruct (c =? LF); [by simplify_eq|]. destruct (bad_char le c); [by simplify_eq|].
  destruct (value_char q h c) as [[[q1 h1]|[e h1]]|] eqn:Ev; [|by simplify_eq/=|done]. cbn in H. eapply IH; [exact H|]. by eapply value_char_len.
Qed.
Lemma value_ok c l : (forall l', (length l' <= length l)%nat -> top_ok l') -> forall pre x q t f, stands False pre x q t -> good false q -> lenient_http_headers q = le ->
  st q = s_header_value -> 1 <= nread q -> (5 + 5 * length l <= f)%nat -> l = [] \/ ~ overflows (bmid 5 q t c l (zlen pre)) ->
  result_ok (zlen (pre ++ c :: l)) (exec_mid f (pre ++ c :: l) x) (bmid 5 q t c l (zlen pre)).
Proof using Hhc Hmax.
  intros Htop pre x q t f Hx Hq Hle Hst Hn1 Hf Hov. pose proof (mid_fine l q t c (zlen pre) Hq) as Hfine. destruct Hq as (_ & [Hl Hn] & _). destruct (live_cur _ _ _ _ m_header_value Hx ltac:(by rewrite Hst)) as (a & Hm & Ha & Hon & Hj).
  destruct Hx as [Hs Hps Hnr Hok Hp _]. pose proof (eq_trans (same_errno _ _ Hs) Hok) as Hok'. rewrite Hst in Hps. set (h := header_state q).
  assert (q = av q h (nread q) s_header_value) as Eq by (unfold h; rewrite av_self, <- Hst; by destruct q).
  pose proof (bvalue le l 4 q h (nread q) t c (zlen pre) Hok Hle Hn ltac:(lia)) as Hb. cbv zeta in Hb. rewrite <- Eq in Hb.
  assert (Hno : ~ over_more l (bmid 5 q t c l (zlen pre))) by (intros [? ?]; destruct Hov; done).
  unfold exec_mid, round_of. rewrite Hp, zget_middle by done. cbn [mbind option_bind]. rewrite Hps.
  pose proof (value_ref_av le h (nread (par x)) (st (par x)) (c :: l) q h) as Er. unfold h in Er at 1 4. rewrite av_self, <- (at_same _ _ Hs) in Er.
  replace h with (header_state (par x)) in Er at 1 by (by apply (f_equal header_state) in Hs).
  destruct (value_ref le q h (c :: l)) as [[[[q1 h1] r] s]|] eqn:Ef.
  2: { destruct Hb as [Hb|?]; [by rewrite Hb in Hfine|done]. }
  destruct Hb as (w & Ew & [?|Hb]); [done|]. pose proof (zlen_nonneg w) as Hw0.
  destruct (value_ref_ok le _ _ _ _ _ _ _ Ef) as [Ho1 Hle1]. rewrite Hok in Ho1. rewrite Hle in Hle1. pose proof (value_ref_len _ _ _ _ _ _ _ Ef Hl) as Hl1.
  assert (zlen w < max \/ r = [] /\ zlen w <= max) as Hlim.
  { destruct s as [| | |e kp]; [destruct Hb as (d & r' & _ & _ & ? & _)..|destruct Hb as (-> & _ & ?)|destruct Hb as (_ & _ & ? & _)]; [left; lia|left; lia| |left; lia].
    right. split; [done|]. rewrite app_nil_r in Ew. rewrite <- Ew. zlen_simpl. lia. }
  rewrite Ew in Er |- *. rewrite (value_round le pre w r _ h1 s x a Hp Hok' Hm Ha ltac:(by rewrite <- Ew) Er Hlim). clear Er. cbv zeta. unfold counted_to. rewrite Hnr.
  destruct s as [| | |e kp].
  - destruct Hb as (d & r' & -> & -> & Hcap & k & Eb & Hk). assert (k = 4%nat) as -> by (by destruct Hk).
    rewrite count_small by lia. cbn [mbind option_bind]. rewrite u32_step by lia. unfold bmid in *. cbn [bbyte] in *. rewrite (bround_value le) in Eb by (done || lia). rewrite Z.eqb_refl in Eb.
    rewrite Eb in Hov |- *. change (CR :: r') with ([CR] ++ r'). rewrite !app_assoc. replace (zlen pre + zlen w + 1) with (zlen ((pre ++ w) ++ [CR])) in * by (zlen_simpl; lia).
    assert (length r' <= length l)%nat as Hlr by (apply (f_equal length) in Ew; rewrite length_app in Ew; simpl in Ew; lia).
    apply Htop; [done| | | | |lia|].
    + split; [exact Ho1|]. split; [|done]. split; [exact Hl1|cbn; lia].
    + exact Hle1.
    + split; [done|done|done|exact Ho1|cbn; zlen_simpl; lia|]. exists None. split; [exact (unmarked _ _ _ Hon _ _ _ _ _)|]. split; [done|].
      rewrite joined_snoc, (pend_run _ _ _ _ _ _ Ha Hj). change (header_value []) with (data_event m_header_value []). rewrite pend_send. cbn [pend]. by rewrite <- joined_snoc.
    + intros _. apply moved_none. exact (unmarked _ _ _ Hon _ _ _ _ _).
    + destruct Hov as [->|Hov]; [left; destruct w as [|? [|]]; simplify_eq/=; lia|by right].
  - destruct Hb as (d & r' & -> & -> & Hcap & k & Eb & Hk). assert (k = 4%nat) as -> by (by destruct Hk).
    rewrite count_small by lia. cbn [mbind option_bind]. rewrite u32_step by lia. unfold bmid in Hov, Eb |- *. cbn [bbyte] in Eb. rewrite (bround_value le) in Eb by (done || lia).
    change (LF =? CR) with false in Eb. rewrite Z.eqb_refl in Eb. cbv iota in Eb. cbn [bbyte] in Hov |- *. rewrite Eb in Hov |- *. destruct f as [|f]; [lia|].
    rewrite app_assoc, loop_mid by (cbn; by zlen_simpl). assert (length r' <= length l)%nat as Hlr by (apply (f_equal length) in Ew; rewrite length_app in Ew; simpl in Ew; lia).
    pose proof (mid_ok r' (Htop r' Hlr) 4 (pre ++ w) LF) as HM. unfold bmid in HM. replace (zlen (pre ++ w)) with (zlen pre + zlen w) in HM by (by zlen_simpl).
    apply HM; clear HM.
    + split; [done|done|done|exact Ho1|cbn; by zlen_simpl|]. exists None. split; [exact (unmarked _ _ _ Hon _ _ _ _ _)|]. split; [done|].
      rewrite joined_snoc, (pend_run _ _ _ _ _ _ Ha Hj). change (header_value []) with (data_event m_header_value []). rewrite pend_send. cbn [pend]. by rewrite <- joined_snoc.
    + split; [exact Ho1|]. split; [|done]. split; [exact Hl1|cbn; lia].
    + exact Hle1.
    + done.
    + cbn; lia.
    + lia.
    + destruct Hov as [->|Hov]; [left; destruct w as [|? [|]]; by simplify_eq/=|by right].
  - destruct Hb as (-> & Eb & Hcap). rewrite Eb. rewrite app_nil_r in Ew |- *. rewrite <- Ew. replace (zlen (c :: l) - 1) with (zlen l) by (zlen_simpl; lia). pose proof (zlen_nonneg l).
    cbn [nrd]. rewrite count_small by lia. rewrite u32_step by lia. cbn [mbind option_bind].
    pose proof (Htop [] ltac:(simpl; lia) (pre ++ c :: l)) as HT. rewrite app_nil_r in HT. apply HT; clear HT.
    + by rewrite Eb in Hfine.
    + exact Hle1.
    + split; [done|exact Hps|done|exact Ho1|cbn; zlen_simpl; lia|].
      exists (Some (m_header_value, a)). split; [exact Hon|]. split; [split; [zlen_simpl; lia|by left]|]. by apply pend_run.
    + intros _. eapply moved_run; [done|lia|done].
    + simpl; lia.
    + left; simpl; lia.
  - destruct Hb as (Eb & He & _). rewrite Eb. eexists _, _. cbn. split; [reflexivity|]. done.
Qed.

Lemma no_cur pre x q t : stands False pre x q t -> live (st q) = None -> st q <> s_chunk_data_almost_done -> only x None /\ joined_rev t = joined_rev (us x).
Proof.
  intros [_ _ _ _ _ (cur & Hcur & Hfit & Hj)] Hl Hne. destruct cur as [[m a]|]; [|done]. destruct Hfit as [_ [?|(_ & _ & _ & [?|[[] _]])]]; congruence.
Qed.
Lemma pend_new m pre w J : w <> [] -> pend (Some (m, zlen pre)) (pre ++ w) J = push J (data_event m w).
Proof. intros Hw. unfold pend, zlen. rewrite Nat2Z.id, drop_app_length. by destruct w. Qed.
Lemma run_new m pre w t J : joined_rev t = J -> joined_rev (t ++ singles m w) = pend (Some (m, zlen pre)) (pre ++ w) J.
Proof. intros Hj. apply pend_run; [pose proof (zlen_nonneg pre); lia|]. by rewrite pend_end. Qed.
Lemma only_body (x : exec) b : only x None -> forall m', (if decide (m' = m_body) then Some b else marks x m') = if decide (m' = m_body) then Some b else None.
Proof. intros H m'. destruct (decide (m' = m_body)); [done|]. apply H. Qed.
Lemma moved_new (pre w : list Z) (x : exec) q s n i (u : list event) : only x None -> w <> [] ->
  moved (pre ++ w) (mk_exec q s n (fun m => if decide (m = m_body) then Some (zlen pre) else marks x m) i u).
Proof.
  intros H Hw m a E. cbn in E. rewrite (only_body _ _ H) in E. destruct (decide (m = m_body)); [|done]. simplify_eq. zlen_simpl.
  destruct w; [done|]. zlen_simpl. pose proof (zlen_nonneg w). lia.
Qed.

Lemma body_ok c l : (forall l', (length l' <= length l)%nat -> top_ok l') -> forall pre x q t f, stands False pre x q t -> good false q -> lenient_http_headers q = le ->
  sized (st q) -> (5 + 5 * length l <= f)%nat -> l = [] \/ ~ overflows (bmid 5 q t c l (zlen pre)) ->
  result_ok (zlen (pre ++ c :: l)) (exec_mid f (pre ++ c :: l) x) (bmid 5 q t c l (zlen pre)).
Proof using Hhc Hmax.
  intros Htop pre x q t f Hx Hq Hle Hst Hf Hov. pose proof (mid_fine l q t c (zlen pre) Hq) as Hfine. destruct Hq as (_ & [Hl Hn] & Hsn).
  destruct (no_cur _ _ _ _ Hx) as [Hon Hj]; [by destruct Hst as [-> | ->]|by destruct Hst as [-> | ->]|].
  destruct Hx as [Hs Hps Hnr Hok Hp _]. pose proof (eq_trans (same_errno _ _ Hs) Hok) as Hok'.
  assert (q = at_ q (nread q) (st q)) as Eq by (by destruct q).
  assert (content_length (par x) = content_length q) as Hcl by (by apply (f_equal content_length) in Hs).
  assert (sound_size (par x) (st q) = sound_size q (st q)) as Hss by (unfold sound_size; by rewrite Hcl, (same_flag _ _ _ Hs)).
  destruct (sane_sound _ _ _ Hst Hsn) as [Esd Hc]. rewrite Esd in Hss.
  assert (exists w r, l = w ++ r /\ zlen (c :: w) = Z.min (content_length q) (zlen (c :: w ++ r))) as (w & r & -> & Hlen).
  { exists (take (Z.to_nat (content_length q - 1)) l), (drop (Z.to_nat (content_length q - 1)) l). rewrite take_drop. split; [done|]. zlen_simpl. unfold zlen. rewrite length_take. lia. }
  pose proof (bbody (st q) w 4 q (nread q) t c r (zlen pre) Hok Hst Esd Hc Hlen) as Eb. rewrite <- Eq in Eb. rewrite Eb in Hov, Hfine |- *. clear Eb. cbv zeta in Hov, Hfine |- *.
  unfold exec_mid. pose proof (body_round pre (c :: w) r le x Hp ltac:(by rewrite Hps) ltac:(done) (Hon m_body) Hok' ltac:(by rewrite Hcl)) as Er. cbn [app] in Er. rewrite Er. clear Er.
  rewrite Hps, Hss, Hcl. set (n := zlen (c :: w)) in *. pose proof (zlen_nonneg w). assert (n = 1 + zlen w) as En by (unfold n; by zlen_simpl).
  assert (forall s, wf (at_ (left_ q n) (nread q) s)) as Hwf by (intros s; split; [cbn; pose proof (zlen_nonneg r); zlen_simpl; lia|exact Hn]).
  assert (length r <= length (w ++ r))%nat as Hlr by (rewrite length_app; lia).
  assert (same ((par x).[content_length := content_length q - n]) (left_ q n)) as Hsl by (clear - Hs; unfold left_; set (v := content_length q - n); clearbody v; by same_cases (par x) q Hs).
  assert (joined_rev (t ++ singles m_body (c :: w)) = push (joined_rev (us x)) (body (c :: w))) as Hjw by (rewrite (run_new m_body pre (c :: w) t _ Hj); by apply pend_new).
  rewrite app_comm_cons, app_assoc in *.
  destruct (Z.eqb_spec (content_length q) n) as [E|Hne].
  - replace (content_length q - n =? 0) with true by (symmetry; apply Z.eqb_eq; lia). destruct Hst as [Es|Es]; rewrite Es in *.
    + cbn [mbind option_bind]. replace (if (length w =? 0)%nat then 4%nat else 4%nat) with 4%nat in * by (by destruct (length w =? 0)%nat).
      destruct f as [|f]; [lia|]. pose proof (app_removelast_last c (l := c :: w) ltac:(done)) as Elast. rewrite last_cons in Elast. set (u := removelast (c :: w)) in *. clearbody u.
      assert (n = zlen u + 1) as Enu by (unfold n; rewrite Elast; zlen_simpl; lia). replace (zlen pre + zlen w) with (zlen (pre ++ u)) in * by (zlen_simpl; lia).
      rewrite Elast, app_assoc, <- (app_assoc (pre ++ u) [_] r). cbn [app]. rewrite <- Elast.
      rewrite loop_mid by (cbn; zlen_simpl; lia). apply mid_ok; [by apply Htop| | |exact Hle|done|cbn; lia|lia|].
      * split; [|done|exact Hnr|exact Hok|cbn; zlen_simpl; lia|].
        { cbn. replace (content_length q - n) with 0 in Hsl by lia. exact Hsl. }
        exists None. split; [intros m'; cbn; destruct (decide (m' = m_body)); [done|apply Hon]|]. split; [done|].
        exact (eq_trans Hjw (eq_sym (joined_snoc (us x) (body (c :: w))))).
      * split; [exact Hok|]. split; [apply Hwf|done].
      * destruct Hov as [Hov|Hov]; [left; by destruct w, r|by right].
    + cbn [mbind option_bind]. replace (zlen pre + n) with (zlen (pre ++ c :: w)) in * by (unfold n; by zlen_simpl).
      apply Htop; [exact Hlr|split; [exact Hok|]; split; [apply Hwf|]; split; [exact (proj1 Hsn)|cbn; lia]|exact Hle| | |rewrite length_app in Hf; lia|].
      * split; [cbn; fold n; rewrite Hcl; exact Hsl|done|exact Hnr|exact Hok|cbn; fold n; zlen_simpl; lia|]. exists (Some (m_body, zlen pre)). split; [intros m'; cbn; rewrite Hp; exact (only_body _ _ Hon m')|]. split.
        { split; [zlen_simpl; pose proof (zlen_nonneg pre); lia|]. right. split; [done|]. split; [done|]. split; [zlen_simpl; lia|by left]. }
        by apply run_new.
      * intros _. unfold body_exec. rewrite Hp. by apply moved_new.
      * destruct Hov as [Hov|Hov]; [left; apply (f_equal length) in Hov; rewrite length_app in Hov; simpl in Hov; lia|by right].
  - assert (r = []) as -> by (destruct r; [done|]; unfold n in *; zlen_simpl; pose proof (zlen_nonneg r); lia).
    replace (content_length q - n =? 0) with false by (symmetry; apply Z.eqb_neq; lia). cbn [mbind option_bind].
    replace (zlen pre + n) with (zlen (pre ++ c :: w)) in * by (unfold n; by zlen_simpl).
    apply Htop; [simpl; lia|exact Hfine|exact Hle| | |simpl; lia|left; simpl; lia].
    + split; [cbn; fold n; rewrite Hcl; exact Hsl|exact Hps|exact Hnr|exact Hok|cbn; fold n; zlen_simpl; lia|]. exists (Some (m_body, zlen pre)). split; [intros m'; cbn; rewrite Hp; exact (only_body _ _ Hon m')|]. split.
      { split; [zlen_simpl; pose proof (zlen_nonneg pre); lia|]. right. split; [done|]. split; [by destruct Hst as [-> | ->]|]. split; [zlen_simpl; lia|].
        right. split; [done|]. destruct Hst as [-> | ->]; [by left|by right; right]. }
      by apply run_new.
    + intros _. unfold body_exec. rewrite Hp. by apply moved_new.
Qed.

Lemma eof_ok c l : top_ok [] -> forall pre x q t f, stands False pre x q t -> good false q -> lenient_http_headers q = le -> st q = s_body_identity_eof -> (1 <= f)%nat ->
  result_ok (zlen (pre ++ c :: l)) (exec_mid f (pre ++ c :: l) x) (bmid 5 q t c l (zlen pre)).
Proof.
  intros Htop pre x q t f Hx Hw Hle Hst Hf. destruct (no_cur _ _ _ _ Hx) as [Hon Hj]; [by rewrite Hst|by rewrite Hst|]. destruct Hx as [Hs Hps Hnr Hok Hp _].
  assert (q = at_ q (nread q) s_body_identity_eof) as Eq by (rewrite <- Hst; by destruct q). rewrite Hst in Hps.
  pose proof (beof l 4 q (nread q) t c (zlen pre) Hok) as Eb. rewrite <- Eq in Eb. rewrite Eb. unfold exec_mid, round_of. rewrite Hp, zget_middle by done. cbn [mbind option_bind]. rewrite Hps.
  specialize (Htop (pre ++ c :: l)). rewrite app_nil_r in Htop. unfold MARK. rewrite (Hon m_body). apply Htop; [|done| | |simpl; lia|left; simpl; lia].
  { destruct Hw as (? & ? & _). split; [done|]. split; [done|]. by rewrite Hst. }
  - split; [exact Hs|by rewrite Hst|exact Hnr|exact Hok|cbn; lia|]. exists (Some (m_body, zlen pre)). split; [intros m'; cbn; rewrite Hp; exact (only_body _ _ Hon m')|]. split.
    { pose proof (zlen_nonneg pre). pose proof (zlen_nonneg l). split; [zlen_simpl; lia|]. right. rewrite Hst. split; [done|]. split; [done|]. split; [zlen_simpl; lia|]. right. tauto. }
    by apply run_new.
  - intros _ m a E. cbn in E. rewrite Hp in E. exact (moved_new pre (c :: l) x (par x) (p_state x) (nrd x) 0 (us x) Hon ltac:(done) m a E).
Qed.

(** The loop does what the machine on bytes does. *)
Lemma http_loop_ok l : top_ok l.
Proof using Hhc Hmax.
  induction l as [l IH] using (induction_ltof1 _ (@length Z)). unfold ltof in IH. intros pre x q t fuel Hw Hle Hx Hmv Hf Hov. destruct l as [|c l].
  { destruct fuel as [|f]; [simpl in Hf; lia|]. destruct (leftover_ok pre x q t) as (s & Hr & Hj); [by eapply stands_weaken; [|exact Hx]|by apply Hmv|].
    rewrite app_nil_r. cbn [execute_loop]. rewrite (A_pos _ _ _ _ _ Hx), Z.eqb_refl, Hr. exists s. done. }
  destruct fuel as [|f]; [simpl in Hf; lia|]. apply (stands_weaken _ False) in Hx; [|done]. rewrite loop_top by exact (A_pos _ _ _ _ _ Hx). rewrite (A_state _ _ _ _ _ Hx), (A_nread _ _ _ _ _ Hx).
  cbn [brun] in Hov |- *. unfold counted in *. pose proof Hw as (Hok & [Hl Hn] & Hsn). pose proof (counted_good q Hw) as Hcg. unfold counted in Hcg. rewrite (u32_small (nread q + 1)) in * by lia.
  assert (forall x q, stands False pre x q t -> good false q -> lenient_http_headers q = le -> (PARSING_HEADER (st q) = true -> 1 <= nread q) ->
    (length (c :: l) <= 1)%nat \/ ~ overflows (bmid 5 q t c l (zlen pre)) ->
    result_ok (zlen (pre ++ c :: l)) (exec_mid f (pre ++ c :: l) x) (bmid 5 q t c l (zlen pre))) as Hmid.
  { clear x q Hw Hle Hx Hmv Hov Hl Hn Hok Hsn Hcg. intros x q Hx Hw Hle Hn Hov.
    assert (l = [] \/ ~ overflows (bmid 5 q t c l (zlen pre))) as Hov' by (destruct Hov; [left; destruct l; simpl in *; [done|lia]|by right]).
    assert (forall l', (length l' <= length l)%nat -> top_ok l') as Htop by (intros l' Hl'; apply IH; simpl; lia). simpl in Hf.
    destruct (multi (st q)) eqn:Em; [|apply mid_ok; [by apply Htop|done|done|done|done|pose proof (rank_five (st q)); lia|lia|done]].
    destruct (st q) eqn:Es; try discriminate Em.
    - apply field_ok; (done || lia).
    - apply value_ok; try (done || lia). by apply Hn.
    - apply body_ok; try (done || lia). rewrite Es. by right.
    - apply body_ok; try (done || lia). rewrite Es. by left.
    - apply eof_ok; try (done || lia). by apply Htop; simpl; lia. }
  destruct (PARSING_HEADER (st q)) eqn:Eph; [|apply Hmid; [done|tauto|done|by rewrite Eph|exact Hov]].
  cbv zeta. change (nrd (over _ _)) with (nread q + 1). destruct (Z.ltb_spec max (nread q + 1)).
  - change (p (over _ _)) with (p x). rewrite (A_pos _ _ _ _ _ Hx). by eexists _, _.
  - destruct (Z.ltb_spec max (nread q + 1)); [lia|]. apply Hmid; [|exact (proj1 Hcg)|done|cbn; lia|exact Hov]. destruct Hx as [? ? ? ? ? Hc]. by split.
Qed.
End Loop.

(** * Pieces *)

Definition then_ (b : bres) (next : http_parser -> list event -> bres) : bres := match b with ROk q t => next q t | b => b end.
Definition shift (j : Z) (b : bres) : bres := match b with RErr e n => RErr e (n + j) | RExit q t n => RExit q t (n + j) | b => b end.
Lemma bbyte_then k : forall q t c i next, bbyte k q t c i next = then_ (bbyte k q t c i ROk) next.
Proof. induction k as [|k IH]; intros q t c i next; [done|]. cbn [bbyte]. by destruct (bround q c). Qed.
Lemma brun_app l1 : forall q t i l2, brun q t (l1 ++ l2) i = then_ (brun q t l1 i) (fun q t => brun q t l2 (i + zlen l1)).
Proof.
  induction l1 as [|c l1 IH]; intros q t i l2; [cbn; by rewrite Z.add_0_r|]. cbn [app brun]. destruct (counted q) as [q'|]; [|done]. rewrite bbyte_then, (bbyte_then 5 q' t c i (fun q t => brun q t l1 (i + 1))).
  destruct (bbyte 5 q' t c i ROk); try done. cbn [then_]. rewrite IH. zlen_simpl. replace (i + (1 + zlen l1)) with (i + 1 + zlen l1) by lia. done.
Qed.
Lemma bbyte_shift j next next' : (forall q t, next' q t = shift j (next q t)) -> forall k q t c i, bbyte k q t c (i + j) next' = shift j (bbyte k q t c i next).
Proof. intros H. induction k as [|k IH]; intros q t c i; [done|]. cbn [bbyte]. destruct (bround q c); try done. cbn. f_equal. lia. Qed.
Lemma brun_shift j l : forall q t i, brun q t l (i + j) = shift j (brun q t l i).
Proof.
  induction l as [|c l IH]; intros q t i; [done|]. cbn [brun]. destruct (counted q) as [q'|]; [|done]. apply bbyte_shift. intros q1 t1. rewrite <- IH. f_equal. lia.
Qed.

Lemma good_idle q : good true q -> upgraded q = false.
Proof. unfold upgraded. intros (_ & _ & H). destruct (st q); try (by rewrite andb_false_r); by rewrite H. Qed.
Lemma execute_ok q s t buf : good true q -> buf <> [] -> joined_rev s = joined_rev t -> (length buf <= 1)%nat \/ ~ overflows (brun q t buf 0) ->
  result_ok (zlen buf) (http_parser_execute cb max q s buf) (brun q t buf 0).
Proof using Hhc Hmax.
  intros Hq Hb Hj Hov. unfold http_parser_execute. destruct Hq as (Hok & Hrest). rewrite (is_ok_eq _ Hok). cbn [negb].
  destruct (Z.eqb_spec (zlen buf) 0) as [E|_]; [destruct buf; [done|zlen_simpl; pose proof (zlen_nonneg buf); lia]|].
  apply (http_loop_ok (lenient_http_headers q) buf []); [done|done| | |lia|done].
  - split; [done|done|done|done|done|]. exists (match live (st q) with Some m => Some (m, 0) | None => None end). split; [apply (start_only q)|]. split.
    + unfold fits. destruct (live (st q)) eqn:El; [|done]. split; [done|by left].
    + rewrite <- Hj. by destruct (live (st q)).
  - done.
Qed.

Lemma result_shift j total r b : result_ok total r b -> result_ok (j + total) ('(q, s, n) ← r; Some (q, s, j + n)) (shift j b).
Proof.
  destruct b as [q t|e n|q t n|]; cbn.
  - intros (s & -> & H). by exists s.
  - intros (q & s & -> & H). exists q, s. cbn. split; [do 2 f_equal; lia|done].
  - intros (s & -> & H). exists s. cbn. split; [do 2 f_equal; lia|done].
  - done.
Qed.
Lemma http_feed_ok chunks : Forall (fun b => b <> []) chunks -> forall q s t, good true q -> joined_rev s = joined_rev t ->
  Forall (fun b => (length b <= 1)%nat) chunks \/ ~ overflows (brun q t (concat chunks) 0) ->
  result_ok (zlen (concat chunks)) (feed cb max q s chunks) (brun q t (concat chunks) 0).
Proof using Hhc Hmax.
  induction 1 as [|b chunks Hb _ IH]; intros q s t Hq Hj Hov; [by exists s|]. cbn [concat feed]. cbn [concat] in Hov.
  rewrite brun_app in Hov |- *. pose proof (brun_fine b q t 0 Hq) as Hfine.
  assert (result_ok (zlen b) (http_parser_execute cb max q s b) (brun q t b 0)) as He.
  { apply execute_ok; [done|done|done|]. destruct Hov as [[? _]%Forall_cons|Hov]; [by left|right]. intros [n E]. apply Hov. rewrite E. by exists n. }
  destruct (brun q t b 0) as [q1 t1|e n|q1 t1 n|] eqn:Eb; cbn [then_] in *.
  - destruct He as (s1 & -> & Hj1). cbn [mbind option_bind fine] in *. rewrite Z.eqb_refl, (is_ok_eq _ (proj1 Hfine)), (good_idle _ Hfine). cbn [andb negb].
    rewrite brun_shift in *. zlen_simpl. apply result_shift, IH; [done|done|]. destruct Hov as [[_ ?]%Forall_cons|Hov]; [by left|right].
    intros [n E]. apply Hov. rewrite E. by exists (n + zlen b).
  - destruct He as (q1 & s1 & -> & E & Hne). cbn [mbind option_bind]. exists q1, s1. split; [|done]. assert (is_ok (http_errno q1) = false) as -> by (rewrite E; by destruct e). by rewrite andb_false_r.
  - destruct He as (s1 & -> & Hj1). cbn [mbind option_bind]. exists s1. split; [|done]. destruct Hfine as [-> _]. by rewrite andb_false_r.
  - done.
Qed.
End Bytes.

Lemma init_good {client : Client} ty : good true (http_parser_init ty).
Proof. pose proof max_range. split; [done|]. split; [split; [done|cbn; lia]|by destruct ty]. Qed.


(** C20. Cutting the bytes a parser receives into pieces does not change what it makes of
    them, with callbacks that record and return 0 ([record]; on_headers_complete may
    answer from the parser's state, less the two fields kept in variables).
    A parser fed one byte at a time always comes to a result: no assertion fails, nothing
    is read outside the data and the tables, and the rounds of the loop are enough. When
    that result is not that the headers are too long, any other cutting into non-empty
    pieces parses as many bytes and ends with the same error; and when there is no error it
    leaves the same parser, having given the same events to the callbacks once pieces of
    the same URL, header or body are put together. *)
Theorem pieces_do_not_matter (answer : http_parser -> Z) (limit : Z) (ty : http_parser_type) (chunks : list (list Z)) :
  blind answer -> 0 < limit < 2 ^ 31 -> Forall (fun b => b <> []) chunks ->
  let run := feed (record answer) limit (http_parser_init ty) [] in
  exists q s n, run (map (fun c => [c]) (concat chunks)) = Some (q, s, n) /\
    (http_errno q <> HPE_HEADER_OVERFLOW ->
     exists q' s', run chunks = Some (q', s', n) /\ http_errno q' = http_errno q /\ (http_errno q = HPE_OK -> q' = q /\ joined s' = joined s)).
Proof.
  intros Ha Hl Hc run. pose (client := {| hc := answer; hc_blind := Ha; max := limit; max_range := Hl |}). set (q0 := http_parser_init ty).
  set (single := map (fun c => [c]) (concat chunks)). assert (good true q0) as Hq by (by apply init_good).
  assert (concat single = concat chunks) as Es by (unfold single; generalize (concat chunks); intros l; induction l as [|c l IH]; cbn; by rewrite ?IH).
  assert (Forall (fun b => b <> []) single /\ Forall (fun b => (length b <= 1)%nat) single) as [H1 H2] by (split; apply Forall_map, Forall_true; done).
  pose proof (http_feed_ok single H1 q0 [] [] Hq eq_refl (or_introl H2)) as Hb. rewrite Es in Hb. pose proof (brun_fine (concat chunks) q0 [] 0 Hq) as Hf.
  pose proof (http_feed_ok chunks Hc q0 [] [] Hq eq_refl) as Hany. unfold joined.
  destruct (brun q0 [] (concat chunks) 0) as [q t|e n|q t n|] eqn:Eb; cbn [result_ok fine] in Hb, Hf, Hany; [| | |done].
  - destruct Hb as (s & Hs & Hj). exists q, s, (zlen (concat chunks)). split; [exact Hs|]. intros _. destruct Hany as (s' & Hs' & Hj'); [right; by intros [? ?]|].
    exists q, s'. split; [exact Hs'|]. split; [done|]. intros _. split; [done|]. by rewrite Hj, Hj'.
  - destruct Hb as (q & s & Hs & He & Hne). exists q, s, n. split; [exact Hs|]. intros Hov. destruct Hany as (q' & s' & Hs' & He' & _); [right; intros [n' E]; congruence|].
    exists q', s'. split; [exact Hs'|]. split; [congruence|]. intros Hok. congruence.
  - destruct Hb as (s & Hs & Hj). exists q, s, n. split; [exact Hs|]. intros _. destruct Hany as (s' & Hs' & Hj'); [right; by intros [? ?]|].
    exists q, s'. split; [exact Hs'|]. split; [done|]. intros _. split; [done|]. by rewrite Hj, Hj'.
Qed.

Definition line (s : string) : list Z := bytes_of_string s ++ [CR; LF].
Definition sample : list (list Z) :=
  [bytes_of_string "PO"; bytes_of_string "ST /a?x"; line "=1 HTTP/1.1"; bytes_of_string "Hos"; line "t: example.org"; bytes_of_string "Content-Length: 1";
   line "2" ++ [CR]; [LF]; bytes_of_string "hello"; bytes_of_string " world!GET"].
Lemma pieces_witness : exists q s, feed (record (fun _ => 0)) HTTP_MAX_HEADER_SIZE (http_parser_init HTTP_REQUEST) [] sample = Some (q, s, zlen (concat sample)) /\
  joined s = [message_begin; url (bytes_of_string "/a?x=1"); header_field (bytes_of_string "Host"); header_value (bytes_of_string "example.org");
    header_field (bytes_of_string "Content-Length"); header_value (bytes_of_string "12"); headers_complete; body (bytes_of_string "hello world!");
    message_complete; message_begin].
Proof.
  destruct (pieces_do_not_matter (fun _ => 0) HTTP_MAX_HEADER_SIZE HTTP_REQUEST sample) as (q & s & n & Hs & H); [done|done|repeat constructor; discriminate|].
  vm_compute in Hs. injection Hs as <- <- <-. destruct H as (q' & s' & Hs' & _ & H); [discriminate|]. destruct (H eq_refl) as [_ Hj]. exists q', s'.
  split; [exact Hs'|]. rewrite Hj. vm_compute. reflexivity.
Defined.
End HttpChunk.
